(* ===== verification/_CoqProject ===== *)
-Q . S2P
Prelude.v
GoInt.v
KVStore.v
StoreEntry.v
Interfaces.v
CoinTypes.v
CoinAge.v
CoinKeeper.v
CoinGenesis.v
CoinInvariant.v
InstTypes.v
InstKeeper.v
InstSplit.v
InstServer.v
InstMint.v
InstSolvency.v
InstInvariant.v
AppGuards.v
InstDemo.v
AppSolvency.v
InstReplay.v
InstSweep.v
InstRbac.v
InstLive.v
InstGenesis.v
InstRestore.v
LegacyDec.v
GovTypes.v
GovKeeper.v
GovTally.v
GovCount.v
GovCheck.v
GovPrune.v
GovSafety.v
GovDemo.v
GovGenesis.v
PhiDid.v
InstRecords.v
InstBoot.v
IdTypes.v
IdKeeper.v
IdServer.v
IdIndex.v
IdElig.v
IdInvariants.v
IdSweep.v
IdStep.v
IdRequests.v
IdHandlers.v
IdReach.v
IdChain.v
IdSafety.v
IdAnte.v
IdRoll.v
IdDemo.v
IdGenesis.v
IdRestore.v
IdRebuild.v
IdKept.v
IdExport.v
IdVote.v
CredTypes.v
CredServer.v
CredRules.v
CredHistory.v
CredGenesis.v
CredDemo.v
DiscProof.v
DiscServer.v
DiscDemo.v
VotServer.v
VotRules.v
VotHistory.v
VotGenesis.v
VotDemo.v
AnteFee.v
AntePasskey.v
AnteSig.v
AnteChain.v
AnteDemo.v
