(* ===== verification/Prelude.v ===== *)
(** * phi-chain: a verification library for the Phi consensus core

    phi-chain is a Cosmos SDK chain (Go, [src/]) whose coin is redeemable at licensed
    institutions, whose accounts belong to registered humans, and whose votes count
    humans.  This library models its modules as Rocq functions and proves what makes
    them correct.

    ** The program and its parts

    - x/coin: balances move through x/bank; a queue of lots per holder dates the coin, and
      prices an early exit; every message pays a fixed fee, split between validators and
      company, with a daily exemption per human.
    - x/institutions: mints coin against deposits at institutions and burns it when it is
      redeemed; roles, aggregated approvals, caps, attestations, removal; its end-blocker
      halts the chain if supply and vaults disagree.
    - x/governance: routes a proposal to all humans or to the validators, freezes who may
      vote, keeps a running tally, prunes it on a budget.
    - x/identity: one identity per human by a uniqueness hash, key rotation, social
      recovery by guardians with deposits, the index of eligible controllers that
      x/governance counts, and the binding of validators to identities.
    - x/credentials: credential templates with disclosure policies, anchors of issued
      credentials, multi-party agreements, personal anchors; reads x/identity.
    - x/voting: polls whose ballots are anonymous, one per nullifier, each with a proof
      of eligibility under the key of a credential template.
    - x/disclosure: a query that checks a selective-disclosure proof against an anchored
      credential and its template's policy.
    - app: guards that keep the supply when the SDK would burn coin, and the chain of
      ante decorators every transaction passes.

    ** How the code is modelled

    A Go function ends by returning, by an [error] or by a panic: [outcome].  A function
    that changes state is an [M S A], a state-passing function; a handler is translated
    whole, its guards in the order of the source; [deliver] is the transaction, which
    commits only on success.  A module's store is a map from byte strings ([KVStore]), or a
    record with one such map per key prefix; iteration is in key order.  Machine integers
    are [Z] with their wrap-around written out ([i64], [u64], [u32]); [math.Int] is [Z] with
    the 256-bit panic; amounts in records are texts, as in the protobuf.  Protobuf records
    are read back as they were written.  What is not in the repository's own sources is a
    parameter with its documented laws: addresses ([AddressCodec]), SHA-256 ([Hasher]),
    signatures ([Verifier]), x/bank ([BankKeeper], of which [Ledger] is an implementation
    that satisfies the laws), x/staking and x/gov.  Each theorem with such a parameter has a
    witness at a concrete instance.

    ** Files

    - [Prelude] (this file): outcomes, the state monad, inversion tactics ([go_inv]), sums.
      [GoInt]: integers and their text.  [KVStore]: stores, iterators, big-endian keys, frames.
      [StoreEntry]: [internal/storeentry].  [Interfaces]: the classes above and the bank.
      [LegacyDec]: [math.LegacyDec].  [PhiDid]: [phicrypto/did.go].
    - x/coin: [CoinTypes] (parameters, fees), [CoinAge] (the lot queue), [CoinKeeper] (store,
      handlers, fees, quota, and what x/institutions relies on), [CoinGenesis],
      [CoinInvariant] (reachable states).
    - x/institutions: [InstTypes], [InstKeeper], [InstSplit], [InstServer], [InstMint]
      are the code; [InstSolvency], [InstInvariant],
      [AppGuards] and [AppSolvency] prove solvency; [InstReplay],
      [InstSweep], [InstRbac], [InstLive] the other properties; [InstGenesis] is the
      genesis, [InstRestore] what its import restores, [InstRecords] that every chain can
      be exported; [InstBoot] is the command that writes the first institution into the
      genesis ([cmd/phid/cmd/genesis_institution.go]); [InstDemo] is a concrete chain.
    - x/governance: [GovTypes], [GovKeeper], [GovTally] are the code; [GovCount] relates the
      running tally to a recount, [GovCheck] the registered invariant, [GovPrune]
      pruning, [GovSafety] the turnout bound, [GovGenesis] the genesis and the reported
      results; [GovDemo] is a concrete vote.
    - x/identity: [IdTypes], [IdKeeper], [IdServer], [IdInvariants], [IdSweep] are the code;
      [IdIndex] and [IdElig] the indexes, [IdStep], [IdRequests], [IdHandlers],
      [IdReach] and [IdChain] the invariant of every reachable state, [IdSafety]
      its consequences, [IdAnte] the ante guard, [IdRoll] the registry as the roll of
      x/governance; [IdGenesis] is the genesis, [IdRestore] that an export validates,
      [IdRebuild] that its import gives the store back, [IdKept] that every chain keeps
      what this needs; [IdDemo], [IdVote] and [IdExport] are concrete runs.
    - x/credentials: [CredTypes], [CredServer], [CredGenesis] are the code; [CredRules] the
      declarative rules the handlers implement, [CredHistory] what a history of
      transactions leaves and the policy hash, [CredDemo] concrete histories.
    - x/disclosure: [DiscProof] is the parser of [types/proof.go], [DiscServer] the query
      and the parameters, [DiscDemo] concrete queries.
    - x/voting: [VotServer] and [VotGenesis] are the code; [VotRules] the declarative rules,
      [VotHistory] what a history of transactions leaves, [VotDemo] x/voting together with
      x/credentials and concrete polls.
    - app/ante: [AnteFee] (gas ceiling and fixed fee, over x/coin and the bank; guard of the
      governance parameters, over the vaults of x/institutions), [AntePasskey]
      (passkey envelopes and the stepped user-verification policy of x/identity),
      [AnteSig] (key policy, signature gas and the signature decorator), [AnteChain] (the
      chain of [ante.go] over the state its decorators share); [AnteDemo] holds their
      witnesses.

    ** What the theorems show

    - Money: supply at the fixed rate equals the vaults in every reachable state and the
      solvency check halts no chain with a supply below 2^190; mints are backed, authorised
      and within caps; redemptions pay exactly, an institution cannot block one that stays
      within the floor, and no reference is honoured twice; fees and penalties split exactly
      and within bounds; the coin-age queues stay ordered and within the governed bound.
    - Voting: the running tally is the recount of the eligible voters' last ballots; over the
      registry of x/identity every counted vote is that of a distinct account on the roll in
      the second the basis was frozen, and the turnout exceeds the frozen denominator by at
      most those who joined the roll in that second after the freeze; pruning ends and
      touches nothing else.
    - Identity: one identity per uniqueness hash, one validator per identity, a sweep that
      deals with every validator and has x/staking carry its verdicts out, recoveries only on
      a quorum of guardians (or a re-attestation) after the delay, deposits always held.
    - Credentials: handlers refine their rules; completed agreements carry everyone's
      verified signature; anchors, agreements and templates are final where they should
      be; what the policy hash binds.
    - Disclosure: the parser decides its wire format; the query's verdict is characterised
      exactly, and over any history of x/credentials a positive one is backed; but the proof
      is not tied to the credential named, so a revocation does not stop it.
    - Polls: handlers refine their rules; results are the counts of the ballots, each
      ballot was proven for its election, nullifier and choice, votes are final, and no
      transaction of x/credentials changes the electorate of an open election.
    - Transactions: the fee decorator charges exactly the fee, to one account, without
      changing the supply; a transaction passes the signature decorator only with
      everyone's signature, and a sensitive one only with user verification by passkey
      holders; the governance guard and the key policy reach messages and keys nested to
      any depth.  Put together: what holds of every transaction the whole chain lets
      through, and that an ordered one passes it once.
    - Start: the genesis the command writes with its backing flag opens solvent.
    - Round trips: each genesis exports and imports without loss, for x/institutions and
      x/identity in every reachable state the parameters in force admit; keys decode.
    - Defects: theorems that show runs on which the code departs from its intention are
      stated as such (for instance [IdVote.recovery_in_freeze_second_votes_twice] and
      [DiscServer.revoked_credential_still_discloses]).

    ** Bounds and fuel

    Loops over lists are structural.  The three that are not (the digits of a number,
    the bounding of a lot queue, the removal sweep) carry a fuel that is the number of
    binary digits, the length of the queue or the budget they consume, which every
    iteration lowers.  Versions of templates
    are 32-bit: the theorems about them assume fewer than 2^32 - 1 transactions.

    ** Not modelled

    Generated code and gRPC queries (read-only wrappers), module registration, the rest of
    the command line and the wiring of SDK modules ([app/app.go], [app/genesis.go]): configuration of
    third-party code with no state of its own.  The native cryptography behind
    [phicrypto]: a parameter.  Gas metering inside handlers and event indexing.  The
    ante decorators of the SDK that look at form only (memo, timeout, size, extension
    options, signature count): parameters of [AnteChain]. *)
From stdpp Require Import base gmap strings list fin_maps sorting.
From Stdlib Require Import ZArith Lia.

#[export] Set Default Goal Selector "!".
Open Scope Z_scope.

(** ** Go errors and panics

    A Go function of the sources ends in one of three ways: it returns, it
    returns an [error], or it panics ([math.Int] overflow, a failed
    [MustUnmarshal], an explicit [panic]).  A registered error keeps the
    codespace and code it was registered with; an [fmt.Errorf] error is [Plain]. *)
Inductive error :=
| Registered (codespace : string) (code : Z)
| Plain (tag : string).

#[export] Instance error_eq_dec : EqDecision error.
Proof. solve_decision. Defined.

Inductive outcome (A : Type) :=
| Ok (a : A)
| Err (e : error)
| Panic (why : string).
Arguments Ok {A} a.
Arguments Err {A} e.
Arguments Panic {A} why.

#[export] Instance outcome_eq_dec {A} `{EqDecision A} : EqDecision (outcome A).
Proof. solve_decision. Defined.

Definition is_ok {A} (o : outcome A) : bool :=
  match o with Ok _ => true | _ => false end.

#[export] Instance outcome_ret : MRet outcome := @Ok.
#[export] Instance outcome_bind : MBind outcome := λ A B f o,
  match o with Ok a => f a | Err e => Err e | Panic w => Panic w end.

(** A stateful Go function: the state survives an error (the caller may swallow
    it); discarding it is the transaction's job, see [deliver]. *)
Definition M (S A : Type) : Type := S → outcome A * S.

#[export] Instance M_ret {S} : MRet (M S) := λ A a s, (Ok a, s).
#[export] Instance M_bind {S} : MBind (M S) := λ A B f m s,
  match m s with
  | (Ok a, s') => f a s'
  | (Err e, s') => (Err e, s')
  | (Panic w, s') => (Panic w, s')
  end.

Definition lift {S A} (o : outcome A) : M S A := λ s, (o, s).
Definition fail {S A} (e : error) : M S A := λ s, (Err e, s).
Definition get_state {S} : M S S := λ s, (Ok s, s).
Definition put_state {S} (s' : S) : M S unit := λ _, (Ok tt, s').
Definition reads {S A} (f : S → A) : M S A := λ s, (Ok (f s), s).
Definition modify {S} (f : S → S) : M S unit := λ s, (Ok tt, f s).
(** a read of the state that can fail *)
Definition query {S A} (f : S → outcome A) : M S A := λ s, (f s, s).

(** [if cond { return nil, err }] *)
Definition fail_if {S} (c : bool) (e : error) : M S unit :=
  if c then fail e else mret tt.
(** the same in the pure error monad *)
Definition err_if (c : bool) (e : error) : outcome unit :=
  if c then Err e else Ok tt.

(** [v, ok := f(); if !ok { return err }] *)
Definition or_fail {S A} (o : option A) (e : error) : M S A :=
  match o with Some a => mret a | None => fail e end.
Definition or_err {A} (o : option A) (e : error) : outcome A :=
  match o with Some a => Ok a | None => Err e end.

(** An error that the caller inspects instead of returning ([if err != nil] that
    does not return it); a panic still propagates. *)
Definition attempt {S A} (m : M S A) : M S (A + error) := λ s,
  match m s with
  | (Ok a, s') => (Ok (inl a), s')
  | (Err e, s') => (Ok (inr e), s')
  | (Panic w, s') => (Panic w, s')
  end.

(** Running a component of a larger state: [k.bankKeeper.F(ctx, ..)]. *)
Definition zoom {S T A} (view : S → T) (upd : T → S → S) (m : M T A) : M S A := λ s,
  match m (view s) with (o, t) => (o, upd t s) end.

(** BaseApp runs a message on a branch of the store and writes it back only on
    success; a panic is recovered into a failed transaction. *)
Definition deliver {S A} (m : M S A) (s : S) : S :=
  match m s with (Ok _, s') => s' | _ => s end.

(** A loop body run over a list, in order. *)
Fixpoint for_each {S A} (l : list A) (f : A → M S unit) : M S unit :=
  match l with
  | [] => mret tt
  | a :: l' => _ ← f a; for_each l' f
  end.
Fixpoint ofold {A B} (f : B → A → outcome B) (l : list A) (b : B) : outcome B :=
  match l with
  | [] => Ok b
  | a :: l' => b' ← f b a; ofold f l' b'
  end.

(** [if err != nil { panic(err) }], as the genesis imports do *)
Definition or_panic {S A} (m : M S A) : M S A := λ s,
  match m s with (Err _, s') => (Panic "genesis", s') | r => r end.
Lemma for_each_modify {S A} (f : A → S → S) (l : list A) s :
  for_each l (λ a, modify (f a)) s = (Ok tt, foldl (λ s a, f a s) s l).
Proof. revert s. induction l as [|a l IH]; intros s; [done|]. exact (IH (f a s)). Qed.

(** notations of the development *)
Declare Scope go_scope.
Delimit Scope go_scope with go.
Open Scope go_scope.

(** ** Inversion of successful runs *)
Section runs.
Context {S : Type}.

Lemma bind_Ok {A B} (m : M S A) (f : A → M S B) s b s' :
  (m ≫= f) s = (Ok b, s') ↔ ∃ a s1, m s = (Ok a, s1) ∧ f a s1 = (Ok b, s').
Proof.
  unfold mbind, M_bind. destruct (m s) as [[a|e|w] s1]; naive_solver.
Qed.
Lemma ret_Ok {A} (a b : A) (s s' : S) : (mret a : M S A) s = (Ok b, s') ↔ a = b ∧ s = s'.
Proof. unfold mret, M_ret. naive_solver. Qed.
Lemma lift_Ok {A} (o : outcome A) b (s s' : S) : lift o s = (Ok b, s') ↔ o = Ok b ∧ s = s'.
Proof. unfold lift. naive_solver. Qed.
Lemma fail_Ok {A} e (b : A) (s s' : S) : fail e s = (Ok b, s') ↔ False.
Proof. unfold fail. naive_solver. Qed.
Lemma fail_if_Ok c e (u : unit) (s s' : S) : fail_if c e s = (Ok u, s') ↔ c = false ∧ s = s'.
Proof. destruct c, u; unfold fail_if, fail, mret, M_ret; naive_solver. Qed.
Lemma or_fail_Ok {A} (o : option A) e b (s s' : S) : or_fail o e s = (Ok b, s') ↔ o = Some b ∧ s = s'.
Proof. destruct o; unfold or_fail, fail, mret, M_ret; naive_solver. Qed.
Lemma reads_Ok {A} (f : S → A) b (s s' : S) : reads f s = (Ok b, s') ↔ f s = b ∧ s = s'.
Proof. unfold reads. naive_solver. Qed.
Lemma query_Ok {A} (f : S → outcome A) b (s s' : S) : query f s = (Ok b, s') ↔ f s = Ok b ∧ s = s'.
Proof. unfold query. split; [by intros [= -> ->]|by intros [-> ->]]. Qed.
Lemma modify_Ok (f : S → S) u (s s' : S) : modify f s = (Ok u, s') ↔ f s = s'.
Proof. destruct u. unfold modify. naive_solver. Qed.
Lemma get_state_Ok b (s s' : S) : get_state s = (Ok b, s') ↔ b = s ∧ s = s'.
Proof. unfold get_state. naive_solver. Qed.
Lemma put_state_Ok t u (s s' : S) : put_state t s = (Ok u, s') ↔ t = s'.
Proof. destruct u. unfold put_state. naive_solver. Qed.
Lemma zoom_Ok {T A} (view : S → T) upd (m : M T A) b s s' :
  zoom view upd m s = (Ok b, s') ↔ ∃ t, m (view s) = (Ok b, t) ∧ s' = upd t s.
Proof. unfold zoom. destruct (m (view s)) as [o t]. naive_solver. Qed.
Lemma attempt_Ok {A} (m : M S A) b s s' :
  attempt m s = (Ok b, s') ↔
  match b with inl a => m s = (Ok a, s') | inr e => m s = (Err e, s') end.
Proof. unfold attempt. destruct (m s) as [[a|e|w] s1], b; naive_solver. Qed.
End runs.

Lemma obind_Ok {A B} (o : outcome A) (f : A → outcome B) b :
  o ≫= f = Ok b ↔ ∃ a, o = Ok a ∧ f a = Ok b.
Proof. destruct o; unfold mbind, outcome_bind; naive_solver. Qed.
Lemma err_if_Ok c e u : err_if c e = Ok u ↔ c = false.
Proof. destruct c, u; unfold err_if; naive_solver. Qed.
Lemma or_err_Ok {A} (o : option A) e b : or_err o e = Ok b ↔ o = Some b.
Proof. destruct o; unfold or_err; naive_solver. Qed.

(** [go_inv] turns a hypothesis about a successful run into the facts every step
    of the run established. *)
Ltac go_step :=
  match goal with
  | H : (mbind _ _) _ = (Ok _, _) |- _ => apply bind_Ok in H as (? & ? & ? & ?)
  | H : mret _ _ = (Ok _, _) |- _ => apply ret_Ok in H as [? ?]; simplify_eq
  | H : lift _ _ = (Ok _, _) |- _ => apply lift_Ok in H as [? ?]; simplify_eq
  | H : fail _ _ = (Ok _, _) |- _ => apply fail_Ok in H; contradiction
  | H : fail_if _ _ _ = (Ok _, _) |- _ => apply fail_if_Ok in H as [? ?]; simplify_eq
  | H : or_fail _ _ _ = (Ok _, _) |- _ => apply or_fail_Ok in H as [? ?]; simplify_eq
  | H : reads _ _ = (Ok _, _) |- _ => apply reads_Ok in H as [? ?]; simplify_eq
  | H : query _ _ = (Ok _, _) |- _ => apply query_Ok in H as [? ?]; simplify_eq
  | H : modify _ _ = (Ok _, _) |- _ => apply modify_Ok in H; simplify_eq
  | H : get_state _ = (Ok _, _) |- _ => apply get_state_Ok in H as [? ?]; simplify_eq
  | H : put_state _ _ = (Ok _, _) |- _ => apply put_state_Ok in H; simplify_eq
  | H : zoom _ _ _ _ = (Ok _, _) |- _ => apply zoom_Ok in H as (? & ? & ?); simplify_eq
  | H : attempt _ _ = (Ok _, _) |- _ => apply attempt_Ok in H
  | H : mbind _ _ = Ok _ |- _ => apply obind_Ok in H as (? & ? & ?)
  | H : mret _ = Ok _ |- _ => unfold mret, outcome_ret in H; simplify_eq
  | H : err_if _ _ = Ok _ |- _ => apply err_if_Ok in H
  | H : or_err _ _ = Ok _ |- _ => apply or_err_Ok in H
  | H : Ok _ = Ok _ |- _ => injection H as H; simplify_eq
  | H : Err _ = Ok _ |- _ => discriminate H
  | H : Panic _ = Ok _ |- _ => discriminate H
  | H : (Ok _, _) = (Ok _, _) |- _ => injection H as ? ?; simplify_eq
  | H : (Err _, _) = (Ok _, _) |- _ => discriminate H
  | H : (Panic _, _) = (Ok _, _) |- _ => discriminate H
  end.
Ltac go_inv := repeat (go_step; cbv beta in * |-).
(** two results of one computation are the same *)
Ltac ok_eq :=
  repeat match goal with
  | H : ?t = Ok ?a, H' : ?t = Ok ?b |- _ =>
      assert (a = b) by congruence; clear H'; simplify_eq
  end.
(** case analysis on the condition of a successful run *)
Ltac go_case :=
  match goal with
  | H : (if ?c then _ else _) = Ok _ |- _ => destruct c eqn:?
  | H : (if ?c then _ else _) _ = (Ok _, _) |- _ => destruct c eqn:?
  | H : (match ?o with Some _ => _ | None => _ end) = Ok _ |- _ => destruct o eqn:?
  | H : (match ?o with Some _ => _ | None => _ end) _ = (Ok _, _) |- _ => destruct o eqn:?
  end.
Ltac go_cases := repeat (go_inv; try go_case); go_inv.

(** running a bind forward *)
Lemma run_bind {S A B} (m : M S A) (f : A → M S B) s a s' :
  m s = (Ok a, s') → (m ≫= f) s = f a s'.
Proof. unfold mbind, M_bind. by intros ->. Qed.

(** a failed or panicking message leaves the committed state as it was *)
Lemma deliver_not_ok {S A} (m : M S A) (s : S) :
  is_ok (fst (m s)) = false → deliver m s = s.
Proof. unfold deliver. destruct (m s) as [[]]; naive_solver. Qed.

Lemma deliver_run {S A} (m : M S A) (s : S) : deliver m s = s ∨ ∃ a, m s = (Ok a, deliver m s).
Proof. unfold deliver. destruct (m s) as [[a| |] s'] eqn:Hr; eauto. Qed.

(** ** Booleans *)
Ltac bool_step :=
  match goal with
  | H : andb _ _ = true |- _ => apply andb_true_iff in H as [? ?]
  | H : orb _ _ = false |- _ => apply orb_false_iff in H as [? ?]
  | H : negb _ = true |- _ => apply negb_true_iff in H
  | H : negb _ = false |- _ => apply negb_false_iff in H
  | H : (_ <? _) = true |- _ => apply Z.ltb_lt in H
  | H : (_ <? _) = false |- _ => apply Z.ltb_ge in H
  | H : (_ <=? _) = true |- _ => apply Z.leb_le in H
  | H : (_ <=? _) = false |- _ => apply Z.leb_gt in H
  | H : (_ =? _) = true |- _ => apply Z.eqb_eq in H
  | H : (_ =? _) = false |- _ => apply Z.eqb_neq in H
  | H : (_ >? _) = _ |- _ => rewrite Z.gtb_ltb in H
  | H : (_ >=? _) = _ |- _ => rewrite Z.geb_leb in H
  | H : bool_decide _ = true |- _ => apply bool_decide_eq_true in H
  | H : bool_decide _ = false |- _ => apply bool_decide_eq_false in H
  end.
Ltac bool_prop := repeat bool_step.

(** ** Sums *)
Definition sumZ {A} (f : A → Z) (l : list A) : Z := foldr (λ a z, f a + z) 0 l.

Section sums.
Context {A : Type} (f : A → Z).
Lemma sumZ_nil : sumZ f [] = 0.
Proof. done. Qed.
Lemma sumZ_cons a l : sumZ f (a :: l) = f a + sumZ f l.
Proof. done. Qed.
Lemma sumZ_app l1 l2 : sumZ f (l1 ++ l2) = sumZ f l1 + sumZ f l2.
Proof. induction l1 as [|a l1 IH]; [done|]. rewrite <- app_comm_cons, !sumZ_cons, IH. lia. Qed.
#[export] Instance sumZ_perm : Proper ((≡ₚ) ==> (=)) (sumZ f).
Proof. intros l l' Hl. induction Hl; rewrite ?sumZ_cons; lia. Qed.
Lemma sumZ_nonneg l : (∀ a, a ∈ l → 0 ≤ f a) → 0 ≤ sumZ f l.
Proof.
  induction l as [|a l IH]; intros H; [done|]. rewrite sumZ_cons.
  specialize (H a ltac:(left)) as Ha. assert (0 ≤ sumZ f l); [|lia].
  apply IH. intros b Hb. apply H. by right.
Qed.
Lemma sumZ_mem_le l a : (∀ b, b ∈ l → 0 ≤ f b) → a ∈ l → f a ≤ sumZ f l.
Proof.
  induction l as [|b l IH]; intros H Ha; [by apply not_elem_of_nil in Ha|].
  rewrite sumZ_cons. assert (0 ≤ f b) by (apply H; left).
  assert (0 ≤ sumZ f l) by (apply sumZ_nonneg; intros c Hc; apply H; by right).
  apply elem_of_cons in Ha as [->|Ha]; [lia|].
  assert (f a ≤ sumZ f l); [|lia]. apply IH; [|done]. intros c Hc. apply H. by right.
Qed.
End sums.
Lemma sumZ_ext {A} (f g : A → Z) l : (∀ a, a ∈ l → f a = g a) → sumZ f l = sumZ g l.
Proof.
  induction l as [|a l IH]; intros H; [done|]. rewrite !sumZ_cons, H, IH; [done| |by left].
  intros b Hb. apply H. by right.
Qed.

Lemma sumZ_insert (l : list Z) i x y : l !! i = Some x → sumZ id (<[i:=y]> l) = sumZ id l - x + y.
Proof.
  intros Hl. pose proof (take_drop_middle l i x Hl) as E. apply (f_equal (sumZ id)) in E.
  rewrite insert_take_drop by (by eapply lookup_lt_Some). rewrite sumZ_app, sumZ_cons in *. unfold id in *. lia.
Qed.

(** ** Sums over a finite map *)
Definition map_sum {K V} `{Countable K} (f : K → V → Z) (m : gmap K V) : Z :=
  sumZ (λ kv, f kv.1 kv.2) (map_to_list m).

Section map_sums.
Context {K V : Type} `{Countable K} (f : K → V → Z).
Implicit Types m : gmap K V.
Lemma map_sum_empty : map_sum f (∅ : gmap K V) = 0.
Proof. unfold map_sum. by rewrite map_to_list_empty. Qed.
Lemma map_sum_insert_new m k v : m !! k = None → map_sum f (<[k:=v]> m) = f k v + map_sum f m.
Proof. intros Hk. unfold map_sum. by rewrite map_to_list_insert. Qed.
Lemma map_sum_delete m k v : m !! k = Some v → map_sum f (delete k m) = map_sum f m - f k v.
Proof.
  intros Hk. rewrite <- (insert_delete_id m k v Hk) at 2.
  rewrite map_sum_insert_new by apply lookup_delete_eq. lia.
Qed.
Lemma map_sum_insert m k v v' : m !! k = Some v → map_sum f (<[k:=v']> m) = map_sum f m - f k v + f k v'.
Proof.
  intros Hk. rewrite <- insert_delete_eq.
  rewrite map_sum_insert_new by apply lookup_delete_eq.
  rewrite (map_sum_delete m k v Hk). lia.
Qed.
Lemma map_sum_insert_irrelevant m k v :
  f k v = 0 → (∀ v', m !! k = Some v' → f k v' = 0) → map_sum f (<[k:=v]> m) = map_sum f m.
Proof.
  intros Hf Hold. destruct (m !! k) as [v0|] eqn:Hk.
  - rewrite (map_sum_insert m k v0 v Hk), Hf, (Hold v0 eq_refl). lia.
  - rewrite map_sum_insert_new by done. lia.
Qed.
Lemma map_sum_delete_irrelevant m k :
  (∀ v', m !! k = Some v' → f k v' = 0) → map_sum f (delete k m) = map_sum f m.
Proof.
  intros Hold. destruct (m !! k) as [v0|] eqn:Hk.
  - rewrite (map_sum_delete m k v0 Hk), (Hold v0 eq_refl). lia.
  - by rewrite delete_id.
Qed.
(** a sum only depends on the keys where the summand can be non-zero *)
Lemma map_sum_filter (P : K → Prop) `{∀ k, Decision (P k)} m :
  (∀ k v, ¬ P k → f k v = 0) → map_sum f m = map_sum f (filter (λ kv, P kv.1) m).
Proof.
  intros Hf. induction m as [|k v m Hk IH] using map_ind.
  { by rewrite map_filter_empty. }
  rewrite map_sum_insert_new by done. destruct (decide (P k)) as [HP|HP].
  - rewrite map_filter_insert_True by done.
    rewrite map_sum_insert_new by (apply map_lookup_filter_None; by left). lia.
  - rewrite map_filter_insert_not' by (simpl; naive_solver). rewrite (Hf k v HP). lia.
Qed.
Lemma map_sum_agree (P : K → Prop) `{∀ k, Decision (P k)} m1 m2 :
  (∀ k v, ¬ P k → f k v = 0) → (∀ k, P k → m1 !! k = m2 !! k) → map_sum f m1 = map_sum f m2.
Proof.
  intros Hf Hm. rewrite (map_sum_filter P m1 Hf), (map_sum_filter P m2 Hf). f_equal.
  apply map_eq. intros k. apply option_eq. intros v. rewrite !map_lookup_filter_Some. simpl.
  split; intros [Hk HP]; (split; [|done]); [by rewrite <- Hm|by rewrite Hm].
Qed.
Lemma map_sum_nonneg m : (∀ k v, m !! k = Some v → 0 ≤ f k v) → 0 ≤ map_sum f m.
Proof.
  intros Hf. apply sumZ_nonneg. intros [k v] Hin. apply elem_of_map_to_list in Hin. by apply Hf.
Qed.
Lemma map_sum_elem_le m k v :
  (∀ k v, m !! k = Some v → 0 ≤ f k v) → m !! k = Some v → f k v ≤ map_sum f m.
Proof.
  intros Hf Hk. apply elem_of_map_to_list in Hk.
  apply (sumZ_mem_le (λ kv, f kv.1 kv.2) (map_to_list m) (k, v)); [|done].
  intros [k' v'] Hin. apply elem_of_map_to_list in Hin. by apply Hf.
Qed.
End map_sums.
Lemma map_sum_ext {K V} `{Countable K} (f g : K → V → Z) (m : gmap K V) :
  (∀ k v, m !! k = Some v → f k v = g k v) → map_sum f m = map_sum g m.
Proof.
  intros Hfg. apply sumZ_ext. intros [k v] Hin. apply elem_of_map_to_list in Hin. by apply Hfg.
Qed.
Lemma map_sum_add {K V} `{Countable K} (f g : K → V → Z) (m : gmap K V) :
  map_sum (λ k v, f k v + g k v) m = map_sum f m + map_sum g m.
Proof.
  unfold map_sum. induction (map_to_list m) as [|[k v] l IH]; [done|]. rewrite !sumZ_cons, IH. simpl. lia.
Qed.
Lemma foldl_foldr_rev {A B} (f : A → B → B) (b : B) (l : list A) :
  foldl (λ b a, f a b) b l = foldr f b (rev l).
Proof.
  revert b. induction l as [|a l IH]; intros b; [done|]. simpl. by rewrite IH, foldr_app.
Qed.

(** ** Sorted lists *)
Lemma StronglySorted_snoc {A} (R : A → A → Prop) l x : StronglySorted R l → Forall (λ y, R y x) l → StronglySorted R (l ++ [x]).
Proof.
  intros Hs Hx. induction Hs as [|y l Hs IH Hy]; simpl; [repeat constructor|].
  apply Forall_cons in Hx as [Hyx Hx]. constructor; [by apply IH|]. apply Forall_app. split; [done|]. by constructor.
Qed.

Create HintDb phi discriminated.
#[export] Hint Resolve sumZ_nonneg : phi.
