(* ===== verification/GoInt.v ===== *)
(** * Go integers

    Machine integers with their wrap-around, [math.Int] (the 256-bit checked
    integer of [vendor/cosmossdk.io/math/int.go]) and its text form: the parser is
    [big.Int.SetString] with base 0 (signs, [0b]/[0o]/[0x]/[0] prefixes and digit
    separators), the printer is the decimal [big.Int.String].  The round trip of
    the two is what lets every amount live in the store as a string. *)
From stdpp Require Import base gmap strings list.
From Stdlib Require Import ZArith Lia Ascii String.
From S2P Require Import Prelude.

(** ** Machine integers *)
Definition u64 (z : Z) : Z := z mod 2 ^ 64.
Definition u32 (z : Z) : Z := z mod 2 ^ 32.
Definition i64 (z : Z) : Z := (z + 2 ^ 63) mod 2 ^ 64 - 2 ^ 63.

Definition is_int64 (z : Z) : Prop := - 2 ^ 63 ≤ z < 2 ^ 63.
Definition is_i64 (z : Z) : bool := (- 2 ^ 63 <=? z) && (z <? 2 ^ 63).

Lemma i64_id z : - 2 ^ 63 ≤ z < 2 ^ 63 → i64 z = z.
Proof. intros H. unfold i64. rewrite Z.mod_small; lia. Qed.
Lemma u64_id z : 0 ≤ z < 2 ^ 64 → u64 z = z.
Proof. intros H. unfold u64. by rewrite Z.mod_small. Qed.
Lemma u32_id z : 0 ≤ z < 2 ^ 32 → u32 z = z.
Proof. intros H. unfold u32. by rewrite Z.mod_small. Qed.
Lemma u64_range z : 0 ≤ u64 z < 2 ^ 64.
Proof. unfold u64. apply Z.mod_pos_bound. lia. Qed.
Lemma i64_neg z : 2 ^ 63 ≤ z < 2 ^ 64 → i64 z = z - 2 ^ 64.
Proof. intros H. unfold i64. replace (z + 2 ^ 63) with (z - 2 ^ 63 + 1 * 2 ^ 64) by lia. rewrite Z_mod_plus_full, Z.mod_small; lia. Qed.
Lemma i64_u64 z : - 2 ^ 63 ≤ z < 2 ^ 63 → i64 (u64 z) = z.
Proof. intros H. unfold i64, u64. rewrite Zplus_mod_idemp_l, Z.mod_small; lia. Qed.
Lemma i64_range z : - 2 ^ 63 ≤ i64 z < 2 ^ 63.
Proof. unfold i64. pose proof (Z.mod_pos_bound (z + 2 ^ 63) (2 ^ 64) ltac:(lia)). lia. Qed.

(** ** math.Int *)
Definition MaxBitLen : Z := 256.
Definition bigIntOverflows (z : Z) : bool := 2 ^ MaxBitLen <=? Z.abs z.

Definition Int_checked (z : Z) : outcome Z :=
  if bigIntOverflows z then Panic "integer overflow" else Ok z.
Definition Int_Add (a b : Z) : outcome Z := Int_checked (a + b).
Definition Int_Sub (a b : Z) : outcome Z := Int_checked (a - b).
Definition Int_Mul (a b : Z) : outcome Z := Int_checked (a * b).
Definition Int_Quo (a b : Z) : outcome Z :=
  if b =? 0 then Panic "Division by zero" else Ok (Z.quot a b).
Definition Int_Mod (a b : Z) : outcome Z :=
  if b =? 0 then Panic "divide by zero" else Ok (a mod Z.abs b).
Definition Int_Int64 (a : Z) : outcome Z :=
  if is_i64 a then Ok a else Panic "Int64() out of bound".
Definition IsPositive (a : Z) : bool := 0 <? a.
Definition IsNegative (a : Z) : bool := a <? 0.
Definition IsZero (a : Z) : bool := a =? 0.

Notation "a +! b" := (Int_Add a b) (at level 50, left associativity) : go_scope.
Notation "a -! b" := (Int_Sub a b) (at level 50, left associativity) : go_scope.
Notation "a *! b" := (Int_Mul a b) (at level 40, left associativity) : go_scope.
Notation "a /! b" := (Int_Quo a b) (at level 40, left associativity) : go_scope.
Notation "a %! b" := (Int_Mod a b) (at level 40, left associativity) : go_scope.

(** the values a [math.Int] can hold *)
Definition in_range (z : Z) : Prop := Z.abs z < 2 ^ 256.

Lemma Int_checked_Ok z c : Int_checked z = Ok c ↔ c = z ∧ in_range z.
Proof.
  unfold Int_checked, bigIntOverflows, MaxBitLen, in_range.
  destruct (Z.leb_spec (2 ^ 256) (Z.abs z)); naive_solver lia.
Qed.
Lemma Int_checked_in z : in_range z → Int_checked z = Ok z.
Proof. intros H. by apply Int_checked_Ok. Qed.
(** steps over the outermost range check of the goal *)
Ltac checked :=
  cbn [mbind outcome_bind];
  match goal with
  | |- context [mbind _ (Int_checked ?z)] => rewrite (Int_checked_in z) by (unfold in_range; lia)
  end; cbn [mbind outcome_bind].
Lemma Int_Quo_Ok a b c : a /! b = Ok c ↔ c = Z.quot a b ∧ b ≠ 0.
Proof. unfold Int_Quo. destruct (Z.eqb_spec b 0); naive_solver. Qed.
Lemma Int_Mod_Ok a b c : a %! b = Ok c ↔ c = a mod Z.abs b ∧ b ≠ 0.
Proof. unfold Int_Mod. destruct (Z.eqb_spec b 0); naive_solver. Qed.
Lemma Int_Int64_Ok a c : Int_Int64 a = Ok c ↔ c = a ∧ - 2 ^ 63 ≤ a < 2 ^ 63.
Proof.
  unfold Int_Int64, is_i64.
  destruct (Z.leb_spec (- 2 ^ 63) a), (Z.ltb_spec a (2 ^ 63)); naive_solver lia.
Qed.

Ltac int_step :=
  match goal with
  | H : Int_Add _ _ = Ok _ |- _ => apply Int_checked_Ok in H as [? ?]; subst
  | H : Int_Sub _ _ = Ok _ |- _ => apply Int_checked_Ok in H as [? ?]; subst
  | H : Int_Mul _ _ = Ok _ |- _ => apply Int_checked_Ok in H as [? ?]; subst
  | H : Int_Quo _ _ = Ok _ |- _ => apply Int_Quo_Ok in H as [? ?]; subst
  | H : Int_Mod _ _ = Ok _ |- _ => apply Int_Mod_Ok in H as [? ?]; subst
  | H : Int_Int64 _ = Ok _ |- _ => apply Int_Int64_Ok in H as [? ?]; subst
  | H : IsPositive _ = _ |- _ => unfold IsPositive in H
  | H : IsNegative _ = _ |- _ => unfold IsNegative in H
  | H : IsZero _ = _ |- _ => unfold IsZero in H
  end.
Ltac int_inv := repeat ((go_step; cbv beta in * |-) || int_step || bool_step).

(** ** Text: [big.Int.SetString(s, 0)] *)
Inductive prev_char := PrevDigit | PrevSep | PrevOther.

Definition char_code (c : ascii) : Z := Z.of_N (N_of_ascii c).

(** the value of a character as a digit in a base of at most 36; 63 is no digit *)
Definition digit_value (c : ascii) : Z :=
  let n := char_code c in
  if (48 <=? n) && (n <=? 57) then n - 48
  else if (97 <=? n) && (n <=? 122) then n - 97 + 10
  else if (65 <=? n) && (n <=? 90) then n - 65 + 10
  else 63.

Record scan_state := ScanState {
  sc_value : Z;
  sc_count : Z;
  sc_prev : prev_char;
  sc_inval : bool;
}.

(** the digit loop of [nat.scan]: stops in front of the first character that does
    not belong to the number *)
Fixpoint scan_digits (b : Z) (s : string) (st : scan_state) : scan_state * string :=
  match s with
  | EmptyString => (st, EmptyString)
  | String c s' =>
      if Ascii.eqb c "_"
      then scan_digits b s'
             (ScanState (sc_value st) (sc_count st) PrevSep
                (sc_inval st || match sc_prev st with PrevDigit => false | _ => true end))
      else if b <=? digit_value c then (st, s)
      else scan_digits b s'
             (ScanState (sc_value st * b + digit_value c) (sc_count st + 1) PrevDigit
                (sc_inval st))
  end.

(** [nat.scan] with base 0 and no fraction, followed by the end-of-input check of
    [setFromScanner] *)
Definition scan_finish (octal0 : bool) (r : scan_state * string) : option Z :=
  let '(st, rest) := r in
  let sepbad := sc_inval st || match sc_prev st with PrevSep => true | _ => false end in
  if sepbad then None
  else if (sc_count st =? 0) && negb octal0 then None
  else match rest with EmptyString => Some (sc_value st) | _ => None end.

Definition is_letter (c lower upper : ascii) : bool := Ascii.eqb c lower || Ascii.eqb c upper.

Definition scan_nat (s : string) : option Z :=
  let start := ScanState 0 0 PrevOther false in
  let after_zero := ScanState 0 0 PrevDigit false in
  match s with
  | String "0" EmptyString => Some 0
  | String "0" (String c s') =>
      if is_letter c "b" "B" then scan_finish false (scan_digits 2 s' after_zero)
      else if is_letter c "o" "O" then scan_finish false (scan_digits 8 s' after_zero)
      else if is_letter c "x" "X" then scan_finish false (scan_digits 16 s' after_zero)
      else scan_finish true (scan_digits 8 (String c s') after_zero)
  | _ => scan_finish false (scan_digits 10 s start)
  end.

Definition SetString (s : string) : option Z :=
  match s with
  | EmptyString => None
  | String "-" s' => Z.opp <$> scan_nat s'
  | String "+" s' => scan_nat s'
  | _ => scan_nat s
  end.

Definition NewIntFromString (s : string) : option Z :=
  z ← SetString s; if bigIntOverflows z then None else Some z.

(** ** Text: [big.Int.String] *)
Definition digit_char (d : Z) : ascii := ascii_of_N (Z.to_N (48 + d)).

Fixpoint digits (fuel : nat) (n : Z) (tail : string) : string :=
  match fuel with
  | O => tail
  | S f =>
      if n <? 10 then String (digit_char n) tail
      else digits f (n / 10) (String (digit_char (n mod 10)) tail)
  end.

(** a number of [k] bits has at most [k] decimal digits *)
Definition digits_fuel (n : Z) : nat := S (Z.to_nat (Z.log2 n)).
Definition nat_string (n : Z) : string := digits (digits_fuel n) n "".
Definition Int_String (z : Z) : string :=
  if z <? 0 then String "-" (nat_string (- z)) else nat_string z.

Lemma digit_char_spec d : 0 ≤ d < 10 →
  digit_value (digit_char d) = d ∧ Ascii.eqb (digit_char d) "_" = false ∧
  (0 < d → Ascii.eqb (digit_char d) "0" = false) ∧
  Ascii.eqb (digit_char d) "-" = false ∧ Ascii.eqb (digit_char d) "+" = false.
Proof.
  intros H. assert (d = 0 ∨ d = 1 ∨ d = 2 ∨ d = 3 ∨ d = 4 ∨ d = 5 ∨ d = 6 ∨ d = 7 ∨ d = 8 ∨ d = 9)
    as Hd by lia.
  destruct_or! Hd; subst; (split; [done|]); (split; [done|]); (split; [|done]); intros; (done || lia).
Qed.

Lemma digits_bound fuel n : 0 ≤ n < 10 ^ (Z.of_nat (S fuel)) → 10 ≤ n → n / 10 < 10 ^ Z.of_nat fuel.
Proof.
  intros Hn Hge. rewrite Nat2Z.inj_succ, Z.pow_succ_r in Hn by lia.
  apply Z.div_lt_upper_bound; lia.
Qed.

Lemma scan_digits_digits f n tail st :
  0 ≤ n < 10 ^ Z.of_nat (S f) → sc_value st = 0 →
  ∃ k, 0 < k ∧
  scan_digits 10 (digits (S f) n tail) st =
  scan_digits 10 tail (ScanState n (sc_count st + k) PrevDigit (sc_inval st)).
Proof.
  revert n tail. induction f as [|f IH]; intros n tail Hn Hst;
    cbn [digits]; destruct (Z.ltb_spec n 10) as [Hlt|Hge].
  1, 3: destruct (digit_char_spec n ltac:(lia)) as (Hv & Hsep & _);
    exists 1; split; [lia|]; cbn [scan_digits]; rewrite Hsep, Hv, Hst;
    by destruct (Z.leb_spec 10 n); [lia|].
  - change (10 ^ Z.of_nat 1) with 10 in Hn. lia.
  - pose proof (Z.mod_pos_bound n 10 ltac:(lia)) as Hm.
    destruct (digit_char_spec (n mod 10) Hm) as (Hv & Hsep & _).
    destruct (IH (n / 10) (String (digit_char (n mod 10)) tail)) as (k & Hk & Heq); [|done|].
    { split; [apply Z.div_pos; lia|]. by apply digits_bound. }
    exists (k + 1). split; [lia|]. etransitivity; [exact Heq|]. cbn [scan_digits]. rewrite Hsep, Hv.
    destruct (Z.leb_spec 10 (n mod 10)); [lia|]. simpl. f_equal. f_equal; [|lia].
    rewrite (Z.div_mod n 10) at 3; lia.
Qed.

Lemma digits_fuel_enough n : 0 ≤ n → n < 10 ^ Z.of_nat (digits_fuel n).
Proof.
  intros Hn. unfold digits_fuel. rewrite Nat2Z.inj_succ, Z2Nat.id by apply Z.log2_nonneg.
  destruct (decide (n = 0)) as [->|]; [done|].
  pose proof (Z.log2_spec n ltac:(lia)) as [_ Hlog].
  eapply Z.lt_le_trans; [exact Hlog|]. apply Z.pow_le_mono_l. lia.
Qed.

Lemma digits_head fuel n tail :
  0 < n < 10 ^ Z.of_nat fuel → ∃ d s, 0 < d < 10 ∧ digits fuel n tail = String (digit_char d) s.
Proof.
  revert n tail. induction fuel as [|f IH]; intros n tail Hn; [change (10 ^ Z.of_nat 0) with 1 in Hn; lia|].
  cbn [digits]. destruct (Z.ltb_spec n 10) as [Hlt|Hge].
  - exists n, tail. split; [lia|done].
  - apply IH. split; [|by apply digits_bound; lia].
    apply Z.div_str_pos. lia.
Qed.

(** the first character decides the branch of [scan_nat] and of [SetString] *)
Lemma scan_nat_decimal c s : Ascii.eqb c "0" = false →
  scan_nat (String c s) = scan_finish false (scan_digits 10 (String c s) (ScanState 0 0 PrevOther false)).
Proof. destruct c as [[] [] [] [] [] [] [] []]; done. Qed.
Lemma SetString_unsigned c s : Ascii.eqb c "-" = false → Ascii.eqb c "+" = false →
  SetString (String c s) = scan_nat (String c s).
Proof. destruct c as [[] [] [] [] [] [] [] []]; done. Qed.

Lemma scan_nat_string n : 0 ≤ n → scan_nat (nat_string n) = Some n.
Proof.
  intros Hn. destruct (decide (n = 0)) as [->|Hn0]; [done|].
  pose proof (digits_fuel_enough n Hn) as Hf. unfold nat_string.
  destruct (digits_head (digits_fuel n) n "") as (d & s & Hd & Heq); [lia|].
  destruct (digit_char_spec d ltac:(lia)) as (_ & _ & H0 & _).
  rewrite Heq, scan_nat_decimal by auto with lia. rewrite <- Heq.
  destruct (scan_digits_digits (Z.to_nat (Z.log2 n)) n "" (ScanState 0 0 PrevOther false)) as (k & Hk & Hs);
    [fold (digits_fuel n); lia|done|].
  fold (digits_fuel n) in Hs. rewrite Hs.
  cbn [scan_digits scan_finish sc_inval sc_prev sc_count sc_value orb].
  destruct (Z.eqb_spec (0 + k) 0); [lia|done].
Qed.

Lemma SetString_String z : SetString (Int_String z) = Some z.
Proof.
  unfold Int_String. destruct (Z.ltb_spec z 0) as [Hneg|Hpos].
  - cbn [SetString]. rewrite scan_nat_string by lia. simpl. f_equal. lia.
  - destruct (decide (z = 0)) as [->|]; [done|]. unfold nat_string.
    destruct (digits_head (digits_fuel z) z "") as (d & s & Hd & Heq).
    { pose proof (digits_fuel_enough z). lia. }
    destruct (digit_char_spec d ltac:(lia)) as (_ & _ & _ & Hm & Hp).
    rewrite Heq, SetString_unsigned by done. rewrite <- Heq. by apply scan_nat_string.
Qed.

(** the round trip every stored amount relies on *)
Lemma digits_length fuel n tail : (String.length (digits fuel n tail) ≤ fuel + String.length tail)%nat.
Proof.
  revert n tail. induction fuel as [|f IH]; intros n tail; cbn [digits]; [lia|]. case_match; cbn; [lia|].
  etransitivity; [apply IH|]. cbn. lia.
Qed.
Lemma Int_String_length z : in_range z → (String.length (Int_String z) ≤ 258)%nat.
Proof.
  intros Hz. assert (∀ n, 0 ≤ n → in_range n → (String.length (nat_string n) ≤ 257)%nat) as Hn.
  { unfold in_range. intros n H0 Hn. unfold nat_string. etransitivity; [apply digits_length|]. unfold digits_fuel.
    change (String.length "") with 0%nat. assert (Z.log2 n < 256) as Hl; [|lia]. destruct (Z.eq_dec n 0) as [->|]; [done|].
    apply Z.log2_lt_pow2; [lia|]. by rewrite Z.abs_eq in Hn. }
  unfold Int_String, in_range in *. destruct (Z.ltb_spec z 0) as [Hneg|Hpos]; [|specialize (Hn z Hpos Hz); lia].
  cbn [String.length]. specialize (Hn (- z)). rewrite Z.abs_opp in Hn. specialize (Hn ltac:(lia) Hz). lia.
Qed.
Lemma NewIntFromString_String z : in_range z → NewIntFromString (Int_String z) = Some z.
Proof.
  intros Hz. unfold NewIntFromString. rewrite SetString_String. simpl.
  unfold bigIntOverflows, MaxBitLen. unfold in_range in Hz.
  by destruct (Z.leb_spec (2 ^ 256) (Z.abs z)); [lia|].
Qed.
Lemma NewIntFromString_range s z : NewIntFromString s = Some z → in_range z.
Proof.
  unfold NewIntFromString, bigIntOverflows, MaxBitLen, in_range.
  destruct (SetString s) as [y|]; simpl; [|done].
  destruct (Z.leb_spec (2 ^ 256) (Z.abs y)); naive_solver lia.
Qed.

Example parse_decimal : NewIntFromString "-120000" = Some (-120000).
Proof. vm_compute. reflexivity. Qed.
Example parse_octal : NewIntFromString "010" = Some 8.
Proof. vm_compute. reflexivity. Qed.
Example parse_separators : NewIntFromString "0x_ff" = Some 255 ∧ NewIntFromString "1__0" = None ∧ NewIntFromString "1_" = None.
Proof. vm_compute. done. Qed.
Example parse_bad : NewIntFromString "" = None ∧ NewIntFromString "08" = None ∧ NewIntFromString "0x" = None ∧ NewIntFromString "5 " = None.
Proof. vm_compute. done. Qed.

#[export] Hint Resolve NewIntFromString_range : phi.
