(* ===== verification/KVStore.v ===== *)
(** * The key-value store of a module

    A module's state is the substore the multistore gives it: byte-string keys to
    values, iterated in the byte order of the keys
    ([vendor/cosmossdk.io/store/types/utils.go]).  Go strings and byte slices are
    both [string].  A value is what the module's codec reads back: the decoded
    record for a protobuf record, the bytes themselves for a raw value. *)
From stdpp Require Import base gmap strings list fin_maps sorting.
From Stdlib Require Import ZArith Lia Ascii String.
From S2P Require Import Prelude GoInt.

#[global] Arguments String.append !_ _ / : simpl nomatch.

(** ** Bytes *)
Definition byte (z : Z) : ascii := ascii_of_N (Z.to_N (z mod 256)).
Definition str1 (c : ascii) : string := String c EmptyString.
Definition key_prefix (z : Z) : string := str1 (byte z).
Definition strlen (s : string) : Z := Z.of_nat (String.length s).

Lemma char_code_range c : 0 ≤ char_code c < 256.
Proof.
  unfold char_code. pose proof (N_ascii_bounded c). lia.
Qed.
Lemma char_code_inj c d : char_code c = char_code d → c = d.
Proof.
  unfold char_code. intros H. apply N2Z.inj in H.
  rewrite <- (ascii_N_embedding c), <- (ascii_N_embedding d). by f_equal.
Qed.
Lemma char_code_byte z : char_code (byte z) = z mod 256.
Proof.
  unfold char_code, byte. pose proof (Z.mod_pos_bound z 256 ltac:(lia)).
  rewrite N_ascii_embedding by lia. lia.
Qed.

(** ** Byte order *)
Fixpoint str_lt (a b : string) : bool :=
  match a, b with
  | _, EmptyString => false
  | EmptyString, String _ _ => true
  | String c a', String d b' =>
      (char_code c <? char_code d) || ((char_code c =? char_code d) && str_lt a' b')
  end.
Definition str_le (a b : string) : bool := negb (str_lt b a).

Fixpoint has_prefix (p s : string) : bool :=
  match p, s with
  | EmptyString, _ => true
  | String _ _, EmptyString => false
  | String c p', String d s' => Ascii.eqb c d && has_prefix p' s'
  end.

Lemma str_lt_trans a b c : str_lt a b = true → str_lt b c = true → str_lt a c = true.
Proof.
  revert b c. induction a as [|x a IH]; intros [|y b] [|z c]; simpl; try done.
  rewrite !orb_true_iff, !andb_true_iff, !Z.ltb_lt, !Z.eqb_eq.
  intros [H1|[H1 H2]] [H3|[H3 H4]]; [left; lia..|right]. split; [lia|eauto].
Qed.
Lemma str_lt_irrefl a : str_lt a a = false.
Proof.
  induction a as [|x a IH]; simpl; [done|].
  by rewrite IH, Z.ltb_irrefl, andb_false_r.
Qed.
Lemma str_lt_total a b : str_lt a b = false → str_lt b a = false → a = b.
Proof.
  revert b. induction a as [|x a IH]; intros [|y b]; simpl; try done.
  rewrite !orb_false_iff, !andb_false_iff, !Z.ltb_ge, !Z.eqb_neq.
  intros [H1 H2] [H3 H4]. assert (char_code x = char_code y) as Heq by lia.
  apply char_code_inj in Heq as ->. f_equal. apply IH; naive_solver.
Qed.
Lemma str_le_lt_trans a b c : str_le a b = true → str_lt b c = true → str_lt a c = true.
Proof.
  unfold str_le. rewrite negb_true_iff. intros H1 H2.
  destruct (str_lt a b) eqn:Hab; [by eapply str_lt_trans|].
  by rewrite (str_lt_total a b Hab H1).
Qed.

(** ** Concatenation *)
Lemma str_app_assoc (a b c : string) : (a +:+ b) +:+ c = a +:+ (b +:+ c).
Proof. induction a as [|x a IH]; simpl; [done|]. by rewrite IH. Qed.
Lemma str_app_nil_r (a : string) : a +:+ "" = a.
Proof. induction a as [|x a IH]; simpl; [done|]. by rewrite IH. Qed.
Lemma str_app_length (a b : string) : String.length (a +:+ b) = (String.length a + String.length b)%nat.
Proof. induction a as [|x a IH]; simpl; [done|]. by rewrite IH. Qed.
Lemma str_app_inj_l (a b c : string) : a +:+ b = a +:+ c → b = c.
Proof. induction a as [|x a IH]; simpl; [done|]. intros H. injection H. auto. Qed.
Lemma str_app_inj (a b c d : string) :
  String.length a = String.length b → a +:+ c = b +:+ d → a = b ∧ c = d.
Proof.
  revert b. induction a as [|x a IH]; intros [|y b]; simpl; intros Hl H; try done.
  injection H as -> H. injection Hl as Hl. by destruct (IH b Hl H) as [-> ->].
Qed.
Lemma has_prefix_app p s : has_prefix p (p +:+ s) = true.
Proof. induction p as [|c p IH]; simpl; [done|]. by rewrite Ascii.eqb_refl. Qed.
Lemma has_prefix_spec p s : has_prefix p s = true ↔ ∃ t, s = p +:+ t.
Proof.
  split; [|by intros [t ->]; apply has_prefix_app].
  revert s. induction p as [|c p IH]; intros [|d s]; simpl; try naive_solver.
  rewrite andb_true_iff, Ascii.eqb_eq. intros [-> [t ->]%IH]. by exists t.
Qed.
Lemma has_prefix_trans p q s : has_prefix (p +:+ q) s = true → has_prefix p s = true.
Proof.
  rewrite !has_prefix_spec. intros [t ->]. exists (q +:+ t). by rewrite str_app_assoc.
Qed.

Lemma substring_app_r p s n m : String.substring (String.length p + n) m (p +:+ s) = String.substring n m s.
Proof. induction p as [|c p IH]; simpl; [done|apply IH]. Qed.
Lemma substring_app_l p s : String.substring 0 (String.length p) (p +:+ s) = p.
Proof. induction p as [|c p IH]; simpl; [by destruct s|by rewrite IH]. Qed.
Lemma substring_skip s n t : String.substring (String.length s) n (s +:+ t) = String.substring 0 n t.
Proof. rewrite <- (Nat.add_0_r (String.length s)). apply substring_app_r. Qed.

(** ** Ranges and iterators *)
Fixpoint PrefixEndBytes (p : string) : option string :=
  match p with
  | EmptyString => None
  | String c p' =>
      match PrefixEndBytes p' with
      | Some e => Some (String c e)
      | None => if char_code c =? 255 then None else Some (str1 (byte (char_code c + 1)))
      end
  end.

Definition in_key_range (start : string) (end_ : option string) (k : string) : bool :=
  str_le start k && match end_ with Some e => str_lt k e | None => true end.

(** the half-open range [KVStorePrefixIterator] walks is exactly the prefix *)
Lemma in_prefix_range p k : in_key_range p (PrefixEndBytes p) k = has_prefix p k.
Proof.
  unfold in_key_range, str_le. revert k. induction p as [|c p IH]; intros [|d k]; [done..|].
  specialize (IH k). pose proof (char_code_range c). pose proof (char_code_range d).
  simpl. destruct (Ascii.eqb_spec c d) as [->|Hne].
  - rewrite Z.ltb_irrefl, Z.eqb_refl. simpl. rewrite <- IH.
    destruct (PrefixEndBytes p); simpl; [by rewrite Z.ltb_irrefl, Z.eqb_refl|].
    destruct (Z.eqb_spec (char_code d) 255); [done|]. simpl.
    rewrite char_code_byte, Z.mod_small by lia.
    destruct (Z.ltb_spec (char_code d) (char_code d + 1)); [done|lia].
  - assert (char_code d ≠ char_code c) by (intros ?%char_code_inj; congruence).
    simpl. destruct (Z.ltb_spec (char_code d) (char_code c)); [done|].
    destruct (Z.eqb_spec (char_code d) (char_code c)); [done|]. simpl.
    destruct (PrefixEndBytes p); simpl.
    + destruct (Z.ltb_spec (char_code d) (char_code c)); [lia|].
      by destruct (Z.eqb_spec (char_code d) (char_code c)).
    + destruct (Z.eqb_spec (char_code c) 255); [lia|]. simpl.
      rewrite char_code_byte, Z.mod_small by lia.
      destruct (Z.ltb_spec (char_code d) (char_code c + 1)); [lia|].
      by destruct k; rewrite andb_false_r.
Qed.

(** a range from a prefix up to an extension of it stays under the prefix *)
Lemma in_range_prefix p t k : in_key_range p (Some (p +:+ t)) k = true → has_prefix p k = true.
Proof.
  unfold in_key_range, str_le. revert k. induction p as [|c p IH]; intros [|d k]; simpl; [done..|].
  destruct (Z.ltb_spec (char_code d) (char_code c)); [done|]. simpl.
  destruct (Z.eqb_spec (char_code d) (char_code c)) as [->%char_code_inj|]; simpl; [|done].
  rewrite Ascii.eqb_refl. apply IH.
Qed.

Abbreviation KVStore V := (gmap string V).

Section store.
Context {V : Type}.
Implicit Types st : KVStore V.

Definition entry_le (a b : string * V) : Prop := str_le a.1 b.1 = true.
#[export] Instance entry_le_dec : RelDecision entry_le.
Proof. intros a b. unfold entry_le. apply _. Defined.
#[export] Instance entry_le_total : Total entry_le.
Proof.
  intros a b. unfold entry_le, str_le. rewrite !negb_true_iff.
  destruct (str_lt b.1 a.1) eqn:H1; [|by left]. right.
  destruct (str_lt a.1 b.1) eqn:H2; [|done].
  by rewrite <- (str_lt_irrefl a.1), (str_lt_trans _ _ _ H2 H1).
Qed.

(** every record, in key order *)
Definition entries st : list (string * V) := merge_sort entry_le (map_to_list st).

Definition Iterator st (start : string) (end_ : option string) : list (string * V) :=
  List.filter (λ kv, in_key_range start end_ kv.1) (entries st).
Definition KVStorePrefixIterator st (p : string) : list (string * V) :=
  Iterator st p (PrefixEndBytes p).

Lemma entries_perm st : entries st ≡ₚ map_to_list st.
Proof. apply merge_sort_Permutation. Qed.
Lemma entries_sorted st : Sorted entry_le (entries st).
Proof. apply Sorted_merge_sort. apply _. Qed.
Lemma elem_of_Iterator st a b k v :
  (k, v) ∈ Iterator st a b ↔ st !! k = Some v ∧ in_key_range a b k = true.
Proof.
  unfold Iterator. rewrite list_elem_of_In, filter_In, <- list_elem_of_In.
  by rewrite entries_perm, elem_of_map_to_list.
Qed.
Lemma elem_of_prefix_iterator st p k v :
  (k, v) ∈ KVStorePrefixIterator st p ↔ st !! k = Some v ∧ has_prefix p k = true.
Proof. unfold KVStorePrefixIterator. by rewrite elem_of_Iterator, in_prefix_range. Qed.

Lemma filter_perm {A} (P : A → bool) (l l' : list A) : l ≡ₚ l' → List.filter P l ≡ₚ List.filter P l'.
Proof.
  induction 1; simpl; repeat case_match; try done; eauto using perm_skip, perm_swap, perm_trans.
Qed.
Lemma filter_keys_NoDup (P : string * V → bool) l :
  NoDup (l.*1) → NoDup ((List.filter P l).*1).
Proof.
  induction l as [|a l IH]; simpl; [done|]. intros [Ha Hl]%NoDup_cons. case_match; [|auto].
  apply NoDup_cons. split; [|auto]. intros [b [Hb Hin]]%list_elem_of_fmap. apply Ha.
  rewrite Hb. apply list_elem_of_fmap. exists b. split; [done|].
  by apply list_elem_of_In, filter_In in Hin as [?%list_elem_of_In _].
Qed.
Lemma Iterator_NoDup st a b : NoDup ((Iterator st a b).*1).
Proof. apply filter_keys_NoDup. rewrite entries_perm. apply NoDup_fst_map_to_list. Qed.
#[export] Instance entry_le_trans : Transitive entry_le.
Proof.
  intros a b c. unfold entry_le, str_le. rewrite !negb_true_iff. intros Hab Hbc.
  destruct (str_lt c.1 a.1) eqn:Hca; [|done].
  destruct (str_lt b.1 c.1) eqn:Hbc'; [by rewrite (str_lt_trans _ _ _ Hbc' Hca) in Hab|].
  by rewrite (str_lt_total _ _ Hbc Hbc'), Hab in Hca.
Qed.
(** two sorted record lists with the same records are the same list *)
Lemma sorted_entries_unique (l l' : list (string * V)) :
  Sorted entry_le l → Sorted entry_le l' → NoDup (l.*1) → l ≡ₚ l' → l = l'.
Proof.
  intros Hs Hs' Hnd Hp.
  apply Sorted_StronglySorted in Hs, Hs'; [|apply _..].
  revert l' Hs' Hnd Hp. induction Hs as [|a l Hl IH Ha]; intros l' Hs' Hnd Hp.
  { by apply Permutation_nil_l in Hp as ->. }
  destruct Hs' as [|b l' Hl' Hb]; [by apply Permutation_nil_r in Hp|].
  rewrite fmap_cons in Hnd. apply NoDup_cons in Hnd as [Hk Hnd].
  assert (a = b) as ->.
  { assert (a ∈ b :: l') as [->|Hin]%elem_of_cons by (rewrite <- Hp; left); [done|].
    assert (b ∈ a :: l) as [->|Hin']%elem_of_cons by (rewrite Hp; left); [done|].
    rewrite Forall_forall in Ha, Hb. specialize (Ha b Hin'). specialize (Hb a Hin). unfold entry_le, str_le in Ha, Hb.
    rewrite negb_true_iff in Ha, Hb. pose proof (str_lt_total _ _ Hb Ha) as E.
    exfalso. apply Hk. rewrite E. by apply list_elem_of_fmap_2. }
  f_equal. apply IH; [done|done|]. by apply Permutation_cons_inv in Hp.
Qed.
Lemma filter_sorted (P : string * V → bool) l : Sorted entry_le l → Sorted entry_le (List.filter P l).
Proof.
  intros Hs. apply Sorted_StronglySorted in Hs; [|apply _]. apply StronglySorted_Sorted.
  induction Hs as [|a l Hl IH Ha]; simpl; [constructor|]. case_match; [|done].
  constructor; [done|]. rewrite Forall_forall in *. intros b Hb. apply Ha.
  by apply list_elem_of_In, filter_In in Hb as [?%list_elem_of_In _].
Qed.
(** a prefix scan reads the records under the prefix and nothing else *)
Lemma prefix_iterator_agree st st' p :
  (∀ k, has_prefix p k = true → st !! k = st' !! k) → KVStorePrefixIterator st p = KVStorePrefixIterator st' p.
Proof.
  intros Hag. apply sorted_entries_unique.
  - apply filter_sorted, entries_sorted.
  - apply filter_sorted, entries_sorted.
  - apply Iterator_NoDup.
  - apply NoDup_Permutation; [eapply NoDup_fmap_1, Iterator_NoDup..|].
    intros [k v]. rewrite !elem_of_prefix_iterator. split; intros [Hk Hp]; (split; [|done]);
      [rewrite <- Hag|rewrite Hag]; done.
Qed.
(** writing back records of a map over another one *)
Lemma foldl_insert_lookup (target st : KVStore V) l k :
  (∀ kv, kv ∈ l → target !! kv.1 = Some kv.2) →
  foldl (λ s kv, <[kv.1 := kv.2]> s) st l !! k = if bool_decide (k ∈ l.*1) then target !! k else st !! k.
Proof.
  revert st. induction l as [|x l IH]; intros st Hl; simpl; [done|].
  rewrite IH by (intros kv Hkv; apply Hl; by right).
  case_bool_decide as H1; case_bool_decide as H2; try done; [set_solver| |].
  - apply elem_of_cons in H2 as [->|?]; [|done]. rewrite lookup_insert_eq. symmetry. apply Hl. left.
  - rewrite lookup_insert_ne; [done|]. set_solver.
Qed.
(** the values of a map whose records are filed under a key of their own *)
Definition filed (key : V → string) st : Prop := ∀ k v, st !! k = Some v → key v = k.
Definition values st : list V := (KVStorePrefixIterator st EmptyString).*2.
Lemma elem_of_values key st v : filed key st → v ∈ values st ↔ st !! key v = Some v.
Proof.
  intros Hf. unfold values. rewrite list_elem_of_fmap. split.
  - intros ([k v'] & -> & [Hk _]%elem_of_prefix_iterator). cbn. by rewrite (Hf _ _ Hk).
  - intros Hk. exists (key v, v). by rewrite elem_of_prefix_iterator.
Qed.
Lemma values_keys key st : filed key st → (KVStorePrefixIterator st EmptyString).*1 = key <$> values st.
Proof.
  intros Hf. unfold values. rewrite <- list_fmap_compose. apply list_fmap_ext. intros i [k v] Hl. cbn.
  apply list_elem_of_lookup_2, elem_of_prefix_iterator in Hl as [Hk _]. by rewrite (Hf _ _ Hk).
Qed.
Lemma values_NoDup key st : filed key st → NoDup (key <$> values st).
Proof. intros Hf. rewrite <- values_keys by done. apply Iterator_NoDup. Qed.
(** writing the values back under their keys gives the map *)
Lemma values_rebuild key st : filed key st → foldl (λ s v, <[key v := v]> s) ∅ (values st) = st.
Proof.
  intros Hf. assert (∀ s l, foldl (λ s v, <[key v := v]> s) s l =
    foldl (λ s kv, <[kv.1 := kv.2]> s) s ((λ v, (key v, v)) <$> l)) as ->.
  { intros s l. revert s. induction l as [|v l IH]; intros s; [done|]. apply IH. }
  apply map_eq. intros k. rewrite (foldl_insert_lookup st).
  - case_bool_decide as Hk; [done|]. rewrite lookup_empty. symmetry. apply eq_None_not_Some. intros [v Hv]. apply Hk.
    rewrite <- list_fmap_compose. apply list_elem_of_fmap. exists v. cbn. split; [by rewrite (Hf _ _ Hv)|].
    apply (elem_of_values key); [done|]. by rewrite (Hf _ _ Hv).
  - intros kv (v & -> & Hv)%list_elem_of_fmap. cbn. by apply (elem_of_values key).
Qed.
Lemma sumZ_filter {A} (f : A → Z) (P : A → bool) l :
  sumZ f (List.filter P l) = sumZ (λ a, if P a then f a else 0) l.
Proof.
  induction l as [|a l IH]; [done|]. simpl. destruct (P a); rewrite ?sumZ_cons, IH; simpl; lia.
Qed.
(** a total over a prefix scan is a sum over the map, so it can be updated
    record by record *)
Lemma sumZ_prefix_iterator (f : string * V → Z) st p :
  sumZ f (KVStorePrefixIterator st p) =
  map_sum (λ k v, if has_prefix p k then f (k, v) else 0) st.
Proof.
  unfold KVStorePrefixIterator, Iterator, map_sum.
  rewrite (filter_perm _ _ _ (entries_perm st)), sumZ_filter.
  apply sumZ_ext. intros [k v] _. simpl. by rewrite in_prefix_range.
Qed.
End store.

Lemma not_has {V} (m : KVStore V) k : bool_decide (is_Some (m !! k)) = false ↔ m !! k = None.
Proof. rewrite bool_decide_eq_false, <- eq_None_not_Some. done. Qed.
(** counting the values of a map *)
Lemma count_values {V} (P : V → Prop) `{∀ v, Decision (P v)} (m : KVStore V) :
  Z.of_nat (List.length (filter P (values m))) = map_sum (λ _ v, if decide (P v) then 1 else 0) m.
Proof.
  transitivity (sumZ (λ kv : string * V, if decide (P kv.2) then 1 else 0) (KVStorePrefixIterator m EmptyString)).
  - unfold values. induction (KVStorePrefixIterator m EmptyString) as [|[key v] l IH]; [done|].
    rewrite sumZ_cons, <- IH. cbn [fmap list_fmap snd]. case_decide as Hp.
    + rewrite filter_cons_True by done. cbn [List.length]. lia.
    + rewrite filter_cons_False by done. lia.
  - rewrite sumZ_prefix_iterator. apply map_sum_ext. intros key v _. by destruct key.
Qed.
Lemma count_put {V} (P : V → Prop) `{∀ v, Decision (P v)} (m : KVStore V) key v :
  m !! key = None → Z.of_nat (List.length (filter P (values (<[key:=v]> m)))) =
  (if decide (P v) then 1 else 0) + Z.of_nat (List.length (filter P (values m))).
Proof. intros Hn. by rewrite !count_values, map_sum_insert_new. Qed.

(** ** Big-endian integers *)
Fixpoint be (n : nat) (z : Z) : string :=
  match n with
  | O => EmptyString
  | S n' => be n' (z / 256) +:+ str1 (byte z)
  end.
Definition be64 (z : Z) : string := be 8 z.
Definition be32 (z : Z) : string := be 4 z.
Fixpoint be_value (s : string) (acc : Z) : Z :=
  match s with
  | EmptyString => acc
  | String c s' => be_value s' (acc * 256 + char_code c)
  end.
(** the number a big-endian string spells *)
Definition BigEndian_Uint (s : string) : Z := be_value s 0.

(** [binary.BigEndian.Uint64]: the first eight bytes; a shorter slice panics *)
Definition BigEndian_Uint64 (s : string) : outcome Z :=
  if strlen s <? 8 then Panic "index out of range" else Ok (BigEndian_Uint (substring 0 8 s)).
(** [sdk.BigEndianToUint64]: an empty slice reads as zero *)
Definition BigEndianToUint64 (s : string) : outcome Z :=
  if strlen s =? 0 then Ok 0 else BigEndian_Uint64 s.

Lemma be_length n z : String.length (be n z) = n.
Proof.
  revert z. induction n as [|n IH]; intros z; simpl; [done|].
  rewrite str_app_length, IH. simpl. lia.
Qed.
Lemma be_value_app s t acc : be_value (s +:+ t) acc = be_value t (be_value s acc).
Proof. revert acc. induction s as [|c s IH]; intros acc; simpl; [done|]. by rewrite IH. Qed.
Lemma be_value_be n z acc : be_value (be n z) acc = acc * 256 ^ Z.of_nat n + z mod 256 ^ Z.of_nat n.
Proof.
  revert z acc. induction n as [|n IH]; intros z acc.
  - cbn [be be_value]. change (256 ^ Z.of_nat 0) with 1. rewrite Z.mod_1_r. lia.
  - cbn [be]. rewrite be_value_app, IH. cbn [str1 be_value]. rewrite char_code_byte.
    rewrite Nat2Z.inj_succ, Z.pow_succ_r by lia.
    rewrite (Z.rem_mul_r z 256 (256 ^ Z.of_nat n)) by lia. lia.
Qed.
Lemma be_be_value n s acc : be (n + String.length s) (be_value s acc) = be n acc +:+ s.
Proof.
  revert n acc. induction s as [|c s IH]; intros n acc; simpl.
  { by rewrite Nat.add_0_r, str_app_nil_r. }
  replace (n + S (String.length s))%nat with (S n + String.length s)%nat by lia. rewrite IH. cbn [be].
  pose proof (char_code_range c). rewrite Z.add_comm, Z.div_add, Z.div_small, Z.add_0_l by lia.
  rewrite str_app_assoc. f_equal. simpl. f_equal. apply char_code_inj.
  rewrite char_code_byte, Z.mod_add, Z.mod_small by lia. done.
Qed.
Lemma BigEndian_be64 z : BigEndian_Uint (be64 z) = u64 z.
Proof. unfold BigEndian_Uint, be64. rewrite be_value_be. done. Qed.
Lemma BigEndian_be32 z : BigEndian_Uint (be32 z) = u32 z.
Proof. unfold BigEndian_Uint, be32. rewrite be_value_be. done. Qed.
Lemma substring_all n s : String.length s = n → substring 0 n s = s.
Proof. revert n. induction s as [|c s IH]; intros [|n]; simpl; intros H; try done. f_equal. auto. Qed.
Lemma BigEndian_Uint64_be64 z : BigEndian_Uint64 (be64 z) = Ok (u64 z).
Proof.
  unfold BigEndian_Uint64, strlen. unfold be64 at 1. rewrite be_length.
  rewrite substring_all by apply be_length. simpl. by rewrite BigEndian_be64.
Qed.
Lemma BigEndianToUint64_be64 z : BigEndianToUint64 (be64 z) = Ok (u64 z).
Proof.
  unfold BigEndianToUint64, strlen. unfold be64 at 1. rewrite be_length.
  apply BigEndian_Uint64_be64.
Qed.
Lemma be_value_range s acc : 0 ≤ acc → 0 ≤ be_value s acc < (acc + 1) * 256 ^ strlen s.
Proof.
  unfold strlen. revert acc. induction s as [|c s IH]; intros acc Ha; cbn [be_value String.length].
  - change (256 ^ Z.of_nat 0) with 1. lia.
  - rewrite Nat2Z.inj_succ, Z.pow_succ_r by lia. pose proof (char_code_range c).
    specialize (IH (acc * 256 + char_code c) ltac:(lia)).
    pose proof (Z.pow_pos_nonneg 256 (Z.of_nat (String.length s)) ltac:(lia) ltac:(lia)). nia.
Qed.
Lemma substring_length n s : (String.length (substring 0 n s) ≤ n)%nat.
Proof. revert n. induction s as [|c s IH]; intros [|n]; simpl; try lia. specialize (IH n). lia. Qed.
Lemma BigEndian_Uint64_range s z : BigEndian_Uint64 s = Ok z → 0 ≤ z < 2 ^ 64.
Proof.
  unfold BigEndian_Uint64. intros H. go_cases. bool_prop.
  pose proof (be_value_range (substring 0 8 s) 0 ltac:(lia)) as Hr.
  pose proof (substring_length 8 s) as Hl. unfold strlen in Hr.
  pose proof (Z.pow_le_mono_r 256 (Z.of_nat (String.length (substring 0 8 s))) 8 ltac:(lia) ltac:(lia)).
  change (256 ^ 8) with (2 ^ 64) in *. unfold BigEndian_Uint. lia.
Qed.
Lemma BigEndianToUint64_range s z : BigEndianToUint64 s = Ok z → 0 ≤ z < 2 ^ 64.
Proof.
  unfold BigEndianToUint64. intros H. go_cases; [lia|]. by eapply BigEndian_Uint64_range.
Qed.
Lemma strlen_be64 v : strlen (be64 v) = 8.
Proof. unfold strlen, be64. by rewrite be_length. Qed.
Lemma be64_inj a b : 0 ≤ a < 2 ^ 64 → 0 ≤ b < 2 ^ 64 → be64 a = be64 b → a = b.
Proof.
  intros Ha Hb H. apply (f_equal BigEndian_Uint) in H.
  by rewrite !BigEndian_be64, !u64_id in H.
Qed.

Lemma str_lt_app a b s t :
  String.length a = String.length b →
  str_lt (a +:+ s) (b +:+ t) = str_lt a b || (bool_decide (a = b) && str_lt s t).
Proof.
  revert b. induction a as [|c a IH]; intros [|d b] Hl; simpl; try done.
  injection Hl as Hl. rewrite (IH b Hl). destruct (Z.ltb_spec (char_code c) (char_code d)); [done|].
  simpl. destruct (Z.eqb_spec (char_code c) (char_code d)) as [Heq|Hne]; simpl.
  - apply char_code_inj in Heq as ->. f_equal. f_equal. apply bool_decide_ext. naive_solver.
  - rewrite bool_decide_eq_false_2 by naive_solver. done.
Qed.
(** the byte order of the encoding is the numeric order *)
Lemma be_lt n a b : 0 ≤ a < 256 ^ Z.of_nat n → 0 ≤ b < 256 ^ Z.of_nat n →
  str_lt (be n a) (be n b) = (a <? b).
Proof.
  revert a b. induction n as [|n IH]; intros a b Ha Hb.
  { change (256 ^ Z.of_nat 0) with 1 in *. symmetry. apply Z.ltb_ge. lia. }
  rewrite Nat2Z.inj_succ, Z.pow_succ_r in Ha, Hb by lia. cbn [be].
  assert (0 ≤ a / 256 < 256 ^ Z.of_nat n) by
    (split; [apply Z.div_pos; lia|apply Z.div_lt_upper_bound; lia]).
  assert (0 ≤ b / 256 < 256 ^ Z.of_nat n) by
    (split; [apply Z.div_pos; lia|apply Z.div_lt_upper_bound; lia]).
  rewrite str_lt_app by by rewrite !be_length. rewrite IH by done.
  pose proof (Z.div_mod a 256). pose proof (Z.div_mod b 256).
  pose proof (Z.mod_pos_bound a 256). pose proof (Z.mod_pos_bound b 256).
  cbn [str1 str_lt]. rewrite !char_code_byte, andb_false_r, orb_false_r.
  case_bool_decide as Hab.
  - apply (f_equal (λ s, be_value s 0)) in Hab.
    rewrite !be_value_be, !Z.mul_0_l, !Z.add_0_l, !Z.mod_small in Hab by done.
    rewrite Hab, Z.ltb_irrefl. simpl.
    destruct (Z.ltb_spec (a mod 256) (b mod 256)), (Z.ltb_spec a b); try done; lia.
  - assert (a / 256 ≠ b / 256) by congruence. simpl. rewrite orb_false_r.
    destruct (Z.ltb_spec (a / 256) (b / 256)), (Z.ltb_spec a b); try done; lia.
Qed.

Lemma foldl_delete_lookup {V} (st : KVStore V) keys k :
  foldl (λ s key, delete key s) st keys !! k = if bool_decide (k ∈ keys) then None else st !! k.
Proof.
  revert st. induction keys as [|x keys IH]; intros st; simpl; [done|]. rewrite IH.
  case_bool_decide as Hin; case_bool_decide as Hin2; try done.
  - set_solver.
  - apply elem_of_cons in Hin2 as [->|?]; [by simplify_map_eq|done].
  - rewrite lookup_delete_ne; [done|]. set_solver.
Qed.

(** the keys a scan of days before [day] meets *)
Lemma day_range p day d a :
  0 ≤ day < 2 ^ 64 → 0 ≤ d < 2 ^ 64 →
  in_key_range p (Some (p +:+ be64 day)) (p +:+ be64 d +:+ a) = (d <? day).
Proof.
  intros Hday Hd. unfold in_key_range, str_le.
  assert (str_lt (p +:+ be64 d +:+ a) (p +:+ be64 day) = (d <? day)) as ->.
  { rewrite (str_lt_app p) by done. rewrite str_lt_irrefl, bool_decide_eq_true_2 by done.
    rewrite <- (str_app_nil_r (be64 day)), str_lt_app by (unfold be64; by rewrite !be_length).
    unfold be64. rewrite be_lt by done. destruct a; simpl; by rewrite andb_false_r, orb_false_r. }
  assert (str_lt (p +:+ be64 d +:+ a) p = false) as ->; [|done].
  rewrite <- (str_app_nil_r p) at 2. rewrite str_lt_app by done.
  rewrite str_lt_irrefl. destruct (be64 d +:+ a); by rewrite andb_false_r.
Qed.

(** [append([]byte{byte(len(b))}, b...)] *)
Definition lenPrefixedID (id : string) : string := String (byte (strlen id)) id.

Lemma lenPrefixedID_inj a b s t :
  strlen a ≤ 255 → strlen b ≤ 255 →
  lenPrefixedID a +:+ s = lenPrefixedID b +:+ t → a = b ∧ s = t.
Proof.
  unfold lenPrefixedID, strlen. intros Ha Hb H. cbn [String.append] in H.
  injection H as Hl H. apply (f_equal char_code) in Hl. rewrite !char_code_byte in Hl.
  rewrite !Z.mod_small in Hl by lia. apply str_app_inj in H; [done|lia].
Qed.

Lemma has_prefix_byte z w t : 0 ≤ z < 256 → 0 ≤ w < 256 →
  has_prefix (key_prefix z) (key_prefix w +:+ t) = (z =? w).
Proof.
  intros Hz Hw. cbn. rewrite andb_true_r. destruct (Ascii.eqb_spec (byte z) (byte w)) as [He|Hne].
  - apply (f_equal char_code) in He. rewrite !char_code_byte, !Z.mod_small in He by lia. symmetry. by apply Z.eqb_eq.
  - symmetry. apply Z.eqb_neq. congruence.
Qed.

(** ** Texts separated by a zero byte *)
Fixpoint all_chars (P : ascii → bool) (s : string) : bool :=
  match s with EmptyString => true | String c s' => P c && all_chars P s' end.
Definition NUL : string := str1 (byte 0).
Definition is_nul (c : ascii) : bool := char_code c =? 0.
Definition nul_free (s : string) : Prop := all_chars (λ c, negb (is_nul c)) s = true.
Lemma nul_free_app a b : nul_free a → nul_free b → nul_free (a +:+ b).
Proof.
  unfold nul_free. induction a as [|c a IH]; cbn; [done|]. intros [Hc Ha]%andb_true_iff Hb.
  by rewrite Hc, (IH Ha Hb).
Qed.
Lemma nul_free_app_inv a b : nul_free (a +:+ b) → nul_free a ∧ nul_free b.
Proof.
  unfold nul_free. induction a as [|c a IH]; cbn; [done|]. intros [Hc Ha]%andb_true_iff.
  destruct (IH Ha) as [Ha' Hb]. by rewrite Hc, Ha'.
Qed.
Lemma NUL_not_free s : ¬ nul_free (NUL +:+ s).
Proof. intros [Hn _]%nul_free_app_inv. done. Qed.
(** the first zero byte separates, and so does the last *)
Lemma nul_split c c' s s' : nul_free c → nul_free c' → c +:+ NUL +:+ s = c' +:+ NUL +:+ s' → c = c' ∧ s = s'.
Proof.
  revert c'. induction c as [|x c IH]; intros [|y c']; unfold nul_free; cbn [all_chars].
  - intros _ _ E. by injection E.
  - intros _ [Hy _]%andb_true_iff E. injection E as E _. subst y. done.
  - intros [Hx _]%andb_true_iff _ E. injection E as E _. subst x. done.
  - intros [_ Hc]%andb_true_iff [_ Hc']%andb_true_iff E. cbn in E. injection E as -> E.
    by destruct (IH c' Hc Hc' E) as [-> ->].
Qed.
Lemma nul_split_last c c' s s' : nul_free s → nul_free s' → c +:+ NUL +:+ s = c' +:+ NUL +:+ s' → c = c' ∧ s = s'.
Proof.
  intros Hs Hs'. revert c'. induction c as [|x c IH]; intros [|y c'] E.
  - by injection E.
  - injection E as _ E. rewrite E in Hs. apply nul_free_app_inv in Hs as [_ Hs]. by apply NUL_not_free in Hs.
  - injection E as _ E. rewrite <- E in Hs'. apply nul_free_app_inv in Hs' as [_ Hs']. by apply NUL_not_free in Hs'.
  - cbn in E. injection E as -> E. by destruct (IH c' E) as [-> ->].
Qed.

(** the length-prefixed parts that are hashed or signed *)
Fixpoint lengthPrefixed (parts : list string) : string :=
  match parts with
  | [] => EmptyString
  | p :: ps => be32 (strlen p) +:+ p +:+ lengthPrefixed ps
  end.

Lemma lengthPrefixed_inj ps qs :
  Forall (λ p, strlen p < 2 ^ 32) ps → Forall (λ p, strlen p < 2 ^ 32) qs →
  lengthPrefixed ps = lengthPrefixed qs → ps = qs.
Proof.
  revert qs. induction ps as [|p ps IH]; intros [|q qs] Hps Hqs H; cbn [lengthPrefixed] in H; [done| | |].
  1, 2: apply (f_equal String.length) in H; rewrite str_app_length in H; unfold be32 in H;
    rewrite be_length in H; simpl in H; lia.
  apply Forall_cons in Hps as [Hp Hps], Hqs as [Hq Hqs].
  apply str_app_inj in H as [Hl H]; [|unfold be32; by rewrite !be_length].
  apply (f_equal BigEndian_Uint) in Hl. rewrite !BigEndian_be32, !u32_id in Hl;
    [|unfold strlen in *; lia..].
  unfold strlen in Hl. apply str_app_inj in H as [-> H]; [|lia]. f_equal. by apply IH.
Qed.

(** ** Byte slices and length-prefixed fields

    Go slice expressions with their bounds, and the frame both wire formats of the chain
    are built from: a field behind its length as a big-endian [uint32]. *)
(** [b[lo:hi]] *)
Definition slice (b : string) (lo hi : Z) : outcome string :=
  if (lo <? 0) || (hi <? lo) || (strlen b <? hi) then Panic "slice bounds out of range"
  else Ok (String.substring (Z.to_nat lo) (Z.to_nat (hi - lo)) b).
(** [binary.BigEndian.Uint32]: the first four bytes *)
Definition BigEndian_Uint32 (b : string) : outcome Z :=
  if strlen b <? 4 then Panic "index out of range" else Ok (BigEndian_Uint (String.substring 0 4 b)).

(** a field behind its length *)
Definition frame (s : string) : string := be32 (strlen s) +:+ s.
Definition fits (s : string) : Prop := strlen s < 2 ^ 32.

Lemma strlen_app a b : strlen (a +:+ b) = strlen a + strlen b.
Proof. unfold strlen. rewrite str_app_length. lia. Qed.
Lemma strlen_nonneg s : 0 ≤ strlen s.
Proof. unfold strlen. lia. Qed.
Lemma strlen_be32 v : strlen (be32 v) = 4.
Proof. unfold strlen, be32. by rewrite be_length. Qed.
Lemma strlen_0 s : strlen s = 0 → s = "".
Proof. by destruct s. Qed.

Lemma slice_middle a b c : slice (a +:+ b +:+ c) (strlen a) (strlen a + strlen b) = Ok b.
Proof.
  unfold slice. rewrite !strlen_app. pose proof (strlen_nonneg a). pose proof (strlen_nonneg b). pose proof (strlen_nonneg c).
  rewrite !(proj2 (Z.ltb_ge _ _)) by lia. cbn [orb]. unfold strlen.
  rewrite Nat2Z.id, Z.add_simpl_l, Nat2Z.id, substring_skip, substring_app_l. done.
Qed.
(** a string of at least [n] bytes, cut after them *)
Lemma cut (s : string) n : 0 ≤ n ≤ strlen s → ∃ a b, s = a +:+ b ∧ strlen a = n.
Proof.
  unfold strlen. intros Hn. destruct (Z_of_nat_complete n) as [k ->]; [lia|].
  assert (k ≤ String.length s)%nat as Hk by lia. clear Hn. revert k Hk. induction s as [|c s IH]; intros [|k] Hk; cbn in Hk.
  - by exists "", "".
  - lia.
  - by exists "", (String c s).
  - destruct (IH k ltac:(lia)) as (a & b & -> & Ha). exists (String c a), b. split; [done|]. cbn. lia.
Qed.
(** four bytes are a number *)
Lemma four_bytes s : strlen s = 4 → s = be32 (BigEndian_Uint s) ∧ 0 ≤ BigEndian_Uint s < 2 ^ 32.
Proof.
  intros Hl. assert (String.length s = 4%nat) as Hl' by (unfold strlen in Hl; lia). split.
  - pose proof (be_be_value 0 s 0) as E. rewrite Hl' in E. symmetry. exact E.
  - pose proof (be_value_range s 0 ltac:(lia)) as Hr. rewrite Hl in Hr. exact Hr.
Qed.
Lemma BigEndian_Uint32_be32 v s : 0 ≤ v < 2 ^ 32 → BigEndian_Uint32 (be32 v +:+ s) = Ok v.
Proof.
  intros Hv. unfold BigEndian_Uint32. rewrite strlen_app, strlen_be32. pose proof (strlen_nonneg s).
  rewrite (proj2 (Z.ltb_ge _ _)) by lia. f_equal.
  change 4%nat with (4%nat). rewrite <- (be_length 4 v). fold (be32 v). rewrite substring_app_l, BigEndian_be32, u32_id; done.
Qed.
Lemma be32_inj a b : 0 ≤ a < 2 ^ 32 → 0 ≤ b < 2 ^ 32 → be32 a = be32 b → a = b.
Proof.
  intros Ha Hb E. apply (f_equal BigEndian_Uint) in E. rewrite !BigEndian_be32, !u32_id in E by done. done.
Qed.
Lemma be32_app_inj a b s t : 0 ≤ a < 2 ^ 32 → 0 ≤ b < 2 ^ 32 → be32 a +:+ s = be32 b +:+ t → a = b ∧ s = t.
Proof.
  intros Ha Hb E. apply str_app_inj in E as [E ->]; [|unfold be32; by rewrite !be_length]. by apply be32_inj in E.
Qed.
(** the reading of a frame is determined by the bytes *)
Lemma frame_inj a b s t : fits a → fits b → frame a +:+ s = frame b +:+ t → a = b ∧ s = t.
Proof.
  unfold frame, fits. intros Ha Hb E. rewrite !str_app_assoc in E. pose proof (strlen_nonneg a). pose proof (strlen_nonneg b).
  apply be32_app_inj in E as [El E]; [|lia..]. apply str_app_inj in E; [done|]. unfold strlen in El. lia.
Qed.
