(* ===== verification/StoreEntry.v ===== *)
(** * Raw genesis records

    [internal/storeentry]: validation of the raw (key, value) records a module
    genesis carries verbatim, and [internal/storeprefix]: the declared set of store
    prefixes of a module.  The specification of [Validate] is declarative: the most
    specific rule decides, whatever the order of the rule table. *)
From stdpp Require Import base gmap strings list fin_maps sorting.
From Stdlib Require Import ZArith Lia.
From S2P Require Import Prelude GoInt KVStore.

Definition MaxValueLen : Z := 4096.

Record KV := mkKV { Key : string; Value : string }.

Record Rule := mkRule {
  rule_Name : string;
  rule_Prefix : string;
  (** [None]: an opaque payload the validator cannot judge *)
  rule_Value : option (string → outcome unit);
}.

(** [sort.SliceStable] by decreasing prefix length *)
Fixpoint insert_rule (r : Rule) (l : list Rule) : list Rule :=
  match l with
  | [] => [r]
  | r' :: l' =>
      if strlen (rule_Prefix r') <=? strlen (rule_Prefix r) then r :: l
      else r' :: insert_rule r l'
  end.
Definition sort_rules (rules : list Rule) : list Rule := foldr insert_rule [] rules.

Definition strictly_under (key p : string) : bool :=
  (strlen p <? strlen key) && has_prefix p key.

Fixpoint match_rule (key : string) (rules : list Rule) : option Rule :=
  match rules with
  | [] => None
  | r :: rs => if strictly_under key (rule_Prefix r) then Some r else match_rule key rs
  end.

(** the check of one record against the ordered rules *)
Definition check_entry (ordered : list Rule) (e : KV) : outcome unit :=
  err_if (MaxValueLen <? strlen (Value e)) (Plain "value exceeds the ceiling");;
  rule ← or_err (match_rule (Key e) ordered) (Plain "key is not under an exported store prefix");
  match rule_Value rule with
  | None => Ok tt
  | Some f => f (Value e)
  end.

Fixpoint validate_loop (ordered : list Rule) (seen : gset string) (l : list KV) : outcome unit :=
  match l with
  | [] => Ok tt
  | e :: l' =>
      err_if (bool_decide (Key e ∈ seen)) (Plain "duplicate key");;
      check_entry ordered e;;
      validate_loop ordered ({[Key e]} ∪ seen) l'
  end.
Definition Validate (l : list KV) (rules : list Rule) : outcome unit :=
  validate_loop (sort_rules rules) ∅ l.

Definition FixedLen (n : Z) (v : string) : outcome unit :=
  err_if (negb (strlen v =? n)) (Plain "value length").
Definition NonEmpty (v : string) : outcome unit :=
  err_if (strlen v =? 0) (Plain "value is empty").
Definition BoundedUint64 (ceiling : Z) (v : string) : outcome unit :=
  err_if (negb (strlen v =? 8)) (Plain "value length");;
  err_if (ceiling <=? BigEndian_Uint v) (Plain "value at or above the ceiling").
Definition Uint64NoOverflow : string → outcome unit := BoundedUint64 (2 ^ 64 - 1).
Definition OneOfLen (ns : list Z) (v : string) : outcome unit :=
  if existsb (λ n, strlen v =? n) ns then Ok tt else Err (Plain "value length").

(** ** storeprefix *)
Inductive Carry := CarryExact | CarryDerived | CarryDropped.
Record Prefix := mkPrefix {
  pfx_Name : string; pfx_Bytes : string; pfx_Carry : Carry; pfx_Reason : string }.
Definition Names (ps : list Prefix) : list string := map pfx_Name ps.
Definition Under {V} (dump : KVStore V) (p : string) : KVStore V :=
  filter (λ kv, has_prefix p kv.1 = true) dump.

(** ** Specification *)

(** [r] is the most specific rule of the table for [key] *)
Definition decides (rules : list Rule) (key : string) (r : Rule) : Prop :=
  r ∈ rules ∧ strictly_under key (rule_Prefix r) = true ∧
  ∀ r', r' ∈ rules → strictly_under key (rule_Prefix r') = true →
        strlen (rule_Prefix r') ≤ strlen (rule_Prefix r).

Definition accepted (rules : list Rule) (e : KV) : Prop :=
  strlen (Value e) ≤ MaxValueLen ∧
  ∃ r, decides rules (Key e) r ∧ ∀ f, rule_Value r = Some f → f (Value e) = Ok tt.

Lemma insert_rule_perm r l : insert_rule r l ≡ₚ r :: l.
Proof.
  induction l as [|r' l IH]; simpl; [done|]. case_match; [done|]. rewrite IH. apply perm_swap.
Qed.
Lemma sort_rules_perm l : sort_rules l ≡ₚ l.
Proof. induction l as [|r l IH]; simpl; [done|]. by rewrite insert_rule_perm, IH. Qed.

Definition longer (a b : Rule) : Prop := strlen (rule_Prefix b) ≤ strlen (rule_Prefix a).
Lemma insert_rule_sorted r l : StronglySorted longer l → StronglySorted longer (insert_rule r l).
Proof.
  induction 1 as [|r' l Hl IH Hr]; simpl; [by repeat constructor|].
  destruct (Z.leb_spec (strlen (rule_Prefix r')) (strlen (rule_Prefix r))) as [Hle|Hgt].
  - constructor; [by constructor|]. constructor; [done|].
    eapply Forall_impl; [exact Hr|]. unfold longer. simpl. intros; lia.
  - constructor; [done|]. rewrite insert_rule_perm. constructor; [unfold longer; lia|done].
Qed.
Lemma sort_rules_sorted l : StronglySorted longer (sort_rules l).
Proof. induction l as [|r l IH]; simpl; [constructor|]. by apply insert_rule_sorted. Qed.

Lemma match_rule_sorted key l r :
  StronglySorted longer l → match_rule key l = Some r → decides l key r.
Proof.
  intros Hs. induction Hs as [|r' l Hs IH Hf]; simpl; [done|].
  destruct (strictly_under key (rule_Prefix r')) eqn:Hu; intros H.
  - simplify_eq. split_and!; [by left|done|]. intros q [->|Hq]%elem_of_cons _; [lia|].
    rewrite Forall_forall in Hf. by apply Hf.
  - destruct (IH H) as (Hin & Hr & Hmax). split_and!; [by right|done|].
    intros q [->|Hq]%elem_of_cons Hqu; [congruence|auto].
Qed.
Lemma match_rule_None key l : match_rule key l = None → ∀ r, r ∈ l → strictly_under key (rule_Prefix r) = false.
Proof.
  induction l as [|r' l IH]; simpl; intros H r Hr; [by apply not_elem_of_nil in Hr|].
  destruct (strictly_under key (rule_Prefix r')) eqn:Hu; [done|].
  apply elem_of_cons in Hr as [->|Hr]; auto.
Qed.
Lemma decides_perm l l' key r : l ≡ₚ l' → decides l key r → decides l' key r.
Proof. intros Hp (H1 & H2 & H3). unfold decides. setoid_rewrite <- Hp. done. Qed.

Lemma match_rule_decides rules key r :
  match_rule key (sort_rules rules) = Some r → decides rules key r.
Proof.
  intros H. eapply decides_perm; [apply sort_rules_perm|].
  apply match_rule_sorted; [apply sort_rules_sorted|done].
Qed.

(** under prefixes of one byte *)
Lemma strictly_under_byte z w t : 0 ≤ z < 256 → 0 ≤ w < 256 →
  strictly_under (key_prefix w +:+ t) (key_prefix z) = (z =? w) && (0 <? strlen t).
Proof.
  intros Hz Hw. unfold strictly_under. rewrite has_prefix_byte by done. rewrite strlen_app.
  change (strlen (key_prefix z)) with 1. change (strlen (key_prefix w)) with 1. rewrite andb_comm. f_equal.
  destruct (Z.ltb_spec 1 (1 + strlen t)), (Z.ltb_spec 0 (strlen t)); (done || lia).
Qed.

(** a rule table of one-byte prefixes: the rule a key lies under decides *)
Lemma accepted_byte rules r k v :
  Forall (λ r, strlen (rule_Prefix r) = 1) rules → r ∈ rules → strictly_under k (rule_Prefix r) = true →
  strlen v ≤ MaxValueLen → (∀ f, rule_Value r = Some f → f v = Ok tt) → accepted rules (mkKV k v).
Proof.
  rewrite Forall_forall. intros Hb Hr Hu Hv Hf. split; [done|]. exists r. split; [|done]. split_and!; [done..|].
  intros r' Hr' _. rewrite (Hb r Hr), (Hb r' Hr'). done.
Qed.

(** two rules that decide one key carry the same prefix *)
Lemma strictly_under_same key p q :
  strictly_under key p = true → strictly_under key q = true → strlen p = strlen q → p = q.
Proof.
  unfold strictly_under, strlen. rewrite !andb_true_iff, !has_prefix_spec.
  intros [_ [s ->]] [_ [t Ht]] Hl. apply str_app_inj in Ht as [-> _]; [done|lia].
Qed.
Lemma decides_unique rules key r r' :
  NoDup (rule_Prefix <$> rules) → decides rules key r → decides rules key r' → r = r'.
Proof.
  intros Hnd (Hin & Hu & Hmax) (Hin' & Hu' & Hmax').
  assert (rule_Prefix r = rule_Prefix r') as Hp.
  { eapply strictly_under_same; [done..|]. specialize (Hmax r' Hin' Hu').
    specialize (Hmax' r Hin Hu). lia. }
  apply list_elem_of_lookup in Hin as [i Hi], Hin' as [j Hj].
  assert (i = j) as <-; [|congruence].
  eapply NoDup_lookup; [exact Hnd| |]; rewrite list_lookup_fmap.
  - by rewrite Hi.
  - by rewrite Hj, Hp.
Qed.

Lemma check_entry_spec rules e :
  NoDup (rule_Prefix <$> rules) →
  check_entry (sort_rules rules) e = Ok tt ↔ accepted rules e.
Proof.
  intros Hnd. unfold check_entry, accepted. split.
  - intros H. go_inv. bool_prop. split; [done|]. eexists. split; [by apply match_rule_decides|].
    intros f Hf. by rewrite Hf in *.
  - intros (Hlen & r & Hr & Hf).
    destruct (Z.ltb_spec MaxValueLen (strlen (Value e))); [lia|]. cbn.
    destruct (match_rule (Key e) (sort_rules rules)) as [r'|] eqn:Hm; simpl.
    + rewrite (decides_unique rules (Key e) r r' Hnd Hr (match_rule_decides _ _ _ Hm)) in Hf.
      cbn. destruct (rule_Value r') eqn:Hv; [by apply Hf|done].
    + destruct Hr as (Hin & Hu & _). rewrite <- sort_rules_perm in Hin.
      by rewrite (match_rule_None _ _ Hm r Hin) in Hu.
Qed.

Lemma validate_loop_spec rules seen l :
  NoDup (rule_Prefix <$> rules) →
  validate_loop (sort_rules rules) seen l = Ok tt ↔
  NoDup (Key <$> l) ∧ (∀ e, e ∈ l → Key e ∉ seen) ∧ (∀ e, e ∈ l → accepted rules e).
Proof.
  intros Hnd. revert seen. induction l as [|e l IH]; intros seen.
  { simpl. split; [|done]. intros _. split_and!; [constructor|set_solver..]. }
  cbn [validate_loop]. split.
  - intros H. go_inv. bool_prop.
    match goal with H : check_entry _ _ = Ok ?u |- _ => destruct u; apply check_entry_spec in H; [|done] end.
    match goal with H : validate_loop _ _ _ = Ok ?u |- _ => destruct u; apply IH in H as (Hd & Hs & Ha) end.
    rewrite fmap_cons, NoDup_cons. split_and!; [|done|set_solver|set_solver].
    intros [e' [He' Hin]]%list_elem_of_fmap. specialize (Hs e' Hin). set_solver.
  - rewrite fmap_cons, NoDup_cons. intros ([Hk Hd] & Hs & Ha).
    rewrite bool_decide_eq_false_2 by (apply Hs; left). cbn.
    rewrite (proj2 (check_entry_spec rules e Hnd)) by (apply Ha; left). cbn.
    apply IH. split_and!; [done| |set_solver].
    intros e' He'. rewrite not_elem_of_union, not_elem_of_singleton. split; [|by apply Hs; right].
    intros Heq. apply Hk. rewrite <- Heq. apply list_elem_of_fmap. eauto.
Qed.

(** [storeentry.Validate] accepts a list of raw genesis records exactly when no
    key occurs twice, every value is within the size ceiling, every key lies strictly
    under a declared prefix, and the value passes the check of the most specific
    (longest) prefix the key lies under.  The order of the rule table plays no part. *)
Theorem storeentry_validate_spec (l : list KV) (rules : list Rule) :
  NoDup (rule_Prefix <$> rules) →
  Validate l rules = Ok tt ↔
  NoDup (Key <$> l) ∧ (∀ e, e ∈ l → accepted rules e).
Proof.
  intros Hnd. unfold Validate. rewrite validate_loop_spec by done.
  split; [naive_solver|]. intros [Hd Ha]. split_and!; [done|set_solver|done].
Qed.

Definition witness_rules : list Rule :=
  [mkRule "one" "a" (Some NonEmpty);
   mkRule "two" "ab" (Some (FixedLen 8))].

Lemma storeentry_validate_witness :
  accepted witness_rules (mkKV "abc" (be64 7)).
Proof.
  refine (proj2 (proj1 (storeentry_validate_spec [mkKV "abc" (be64 7)] witness_rules _) _) _ _).
  - apply (bool_decide_unpack _). vm_compute. exact I.
  - vm_compute. reflexivity.
  - left.
Defined.
