(* ===== verification/Interfaces.v ===== *)
(** * What the modules require of each other and of the SDK

    The expected-keeper interfaces ([x/*/types/expected_keepers.go]) and the SDK
    services the handlers call, as type classes: the operations in one class, what
    a caller may rely on in another.  [Ledger] is the bank as the vendored SDK
    implements it for a single denomination; it discharges the bank's laws. *)
From stdpp Require Import base gmap strings list fin_maps.
From Stdlib Require Import ZArith Lia.
From S2P Require Import Prelude GoInt KVStore.

(** ** Block context and events *)
Record Context := mkContext {
  BlockTime : Z;      (** seconds since the epoch, an [int64] *)
  BlockHeight : Z;
  ChainID : string;
}.

(** a [time.Time] is its nanoseconds since the epoch, a [time.Duration] an [int64] of
    nanoseconds *)
Definition nano : Z := 10 ^ 9.
(** [t.Unix()], an [int64] *)
Definition Unix (t : Z) : Z := i64 (t / nano).

Record Event := mkEvent { ev_type : string; ev_attrs : list (string * string) }.

(** ** Account addresses

    An account address is its raw bytes.  [AccAddressFromBech32] is the SDK's
    decoder, [AccAddress_String] its encoder; the decoder also accepts the
    all-uppercase spelling of an address, so decoding is not injective. *)
Class AddressCodec := {
  AccAddressFromBech32 : string → option string;
  AccAddress_String : string → string;
}.

(** [VerifyAddressFormat] *)
Definition valid_address (a : string) : Prop := 0 < strlen a ≤ 255.

Class AddressCodecLaws `{AddressCodec} : Prop := {
  decode_encode a : valid_address a → AccAddressFromBech32 (AccAddress_String a) = Some a;
  decode_valid s a : AccAddressFromBech32 s = Some a → valid_address a;
}.

Lemma AccAddress_String_inj `{AddressCodecLaws} a b :
  valid_address a → valid_address b → AccAddress_String a = AccAddress_String b → a = b.
Proof.
  intros Ha Hb Heq. apply decode_encode in Ha, Hb. congruence.
Qed.

(** a bech32 text is printable: not empty and free of NUL bytes *)
Class AddressText `{AddressCodec} : Prop := {
  address_text s a : AccAddressFromBech32 s = Some a → s ≠ "" ∧ nul_free s;
}.

(** A codec whose text form is the address itself: it satisfies the laws. *)
Definition plain_codec : AddressCodec := {|
  AccAddressFromBech32 s := if (0 <? strlen s) && (strlen s <=? 255) then Some s else None;
  AccAddress_String a := a;
|}.
Lemma plain_codec_laws : @AddressCodecLaws plain_codec.
Proof.
  constructor; cbn; unfold valid_address.
  - intros a Ha. destruct (Z.ltb_spec 0 (strlen a)), (Z.leb_spec (strlen a) 255); simpl; (done || lia).
  - intros s a. destruct (Z.ltb_spec 0 (strlen s)), (Z.leb_spec (strlen s) 255); simpl; intros [=]; subst; lia.
Qed.

Definition is_bech32 `{AddressCodec} (s : string) : bool :=
  bool_decide (is_Some (AccAddressFromBech32 s)).

Definition ErrBech32 : error := Plain "bech32".
(** [govtypes.ErrInvalidSigner] *)
Definition ErrInvalidSigner : error := Registered "gov" 13.

(** ** x/bank, for amounts of the chain's one denomination *)

(** [CoinsOf]: [sdk.NewCoin] panics on a negative amount; a zero amount is the
    empty coin set, on which every bank operation is a no-op. *)
Definition CoinsOf (amount : Z) : outcome Z :=
  if amount <? 0 then Panic "negative coin amount" else Ok amount.

Class BankKeeper (B : Type) := {
  GetBalance : B → string → Z;
  GetSupply : B → Z;
  BlockedAddr : B → string → bool;
  ModuleAddress : string → string;
  SendCoins : string → string → Z → M B unit;
  MintCoins : string → Z → M B unit;
  BurnCoins : string → Z → M B unit;
}.

Definition delta (x a : string) (amt : Z) : Z := if bool_decide (x = a) then amt else 0.

Class BankLaws (B : Type) `{BankKeeper B} : Prop := {
  send_law f t amt b b' :
    0 ≤ amt → SendCoins f t amt b = (Ok tt, b') →
    GetSupply b' = GetSupply b ∧
    ∀ x, GetBalance b' x = GetBalance b x - delta x f amt + delta x t amt;
  mint_law m amt b b' :
    0 ≤ amt → MintCoins m amt b = (Ok tt, b') →
    GetSupply b' = GetSupply b + amt ∧
    ∀ x, GetBalance b' x = GetBalance b x + delta x (ModuleAddress m) amt;
  burn_law m amt b b' :
    0 ≤ amt → BurnCoins m amt b = (Ok tt, b') →
    GetSupply b' = GetSupply b - amt ∧ (0 < amt → 0 ≤ GetSupply b') ∧
    ∀ x, GetBalance b' x = GetBalance b x - delta x (ModuleAddress m) amt;
  send_err_law f t amt b b' e : SendCoins f t amt b = (Err e, b') → GetSupply b' = GetSupply b;
}.

(** the module-account forms of the send, as the bank defines them *)
Section module_sends.
Context {B : Type} `{BankKeeper B}.
Definition ErrUnauthorizedSDK : error := Registered "sdk" 4.
Definition ErrInvalidAddress : error := Registered "sdk" 7.
Definition ErrInvalidRequest : error := Registered "sdk" 18.

Definition SendCoinsFromModuleToAccount (m to : string) (amt : Z) : M B unit := λ b,
  if BlockedAddr b to then (Err ErrUnauthorizedSDK, b)
  else SendCoins (ModuleAddress m) to amt b.
Definition SendCoinsFromModuleToModule (m m' : string) (amt : Z) : M B unit :=
  SendCoins (ModuleAddress m) (ModuleAddress m') amt.
Definition SendCoinsFromAccountToModule (from m : string) (amt : Z) : M B unit :=
  SendCoins from (ModuleAddress m) amt.

Lemma send_module_account_Ok m to amt b b' :
  SendCoinsFromModuleToAccount m to amt b = (Ok tt, b') →
  SendCoins (ModuleAddress m) to amt b = (Ok tt, b').
Proof. unfold SendCoinsFromModuleToAccount. by case_match. Qed.
End module_sends.

(** ** The vendored bank, for one denomination *)
Module Ledger.
Record ledger := mkLedger {
  balances : gmap string Z;
  supply : Z;
  locked : gmap string Z;          (** vesting accounts' locked coins *)
  blocked : gset string;
  minters : gset string;
  burners : gset string;
}.
Definition balance (b : ledger) (a : string) : Z := default 0 (balances b !! a).
Definition setBalance (a : string) (z : Z) (b : ledger) : ledger :=
  mkLedger (if z =? 0 then delete a (balances b) else <[a:=z]> (balances b))
    (supply b) (locked b) (blocked b) (minters b) (burners b).
Definition setSupply (z : Z) (b : ledger) : ledger :=
  mkLedger (balances b) z (locked b) (blocked b) (minters b) (burners b).

Definition ErrInsufficientFundsSDK : error := Registered "sdk" 5.

(** an empty coin set (a zero amount) runs no iteration of the coin loops *)
Definition subUnlockedCoins (a : string) (amt : Z) : M ledger unit :=
  if amt =? 0 then mret tt else
  bal ← reads (λ b, balance b a);
  lck ← reads (λ b, default 0 (locked b !! a));
  fail_if (bal - lck <? 0) ErrInsufficientFundsSDK;;
  fail_if (bal - lck - amt <? 0) ErrInsufficientFundsSDK;;
  nb ← lift (bal -! amt);
  modify (setBalance a nb).
Definition addCoins (a : string) (amt : Z) : M ledger unit :=
  if amt =? 0 then mret tt else
  bal ← reads (λ b, balance b a);
  nb ← lift (bal +! amt);
  modify (setBalance a nb).
Definition sendCoins (f t : string) (amt : Z) : M ledger unit :=
  subUnlockedCoins f amt;; addCoins t amt.

(** module addresses: an injective tagging stands for the truncated hash of the name *)
Definition moduleAddress (m : string) : string := "module/" +:+ m.

Definition mintCoins (m : string) (amt : Z) : M ledger unit :=
  ok ← reads (λ b, bool_decide (m ∈ minters b));
  (if ok : bool then mret tt else lift (Panic "no permission to mint"));;
  addCoins (moduleAddress m) amt;;
  if amt =? 0 then mret tt else
  s ← reads supply; s' ← lift (s +! amt); modify (setSupply s').
Definition burnCoins (m : string) (amt : Z) : M ledger unit :=
  ok ← reads (λ b, bool_decide (m ∈ burners b));
  (if ok : bool then mret tt else lift (Panic "no permission to burn"));;
  subUnlockedCoins (moduleAddress m) amt;;
  if amt =? 0 then mret tt else
  s ← reads supply; s' ← lift (s -! amt);
  (if s' <? 0 then lift (Panic "negative coin amount") else mret tt);;
  modify (setSupply s').

#[export] Instance ledger_bank : BankKeeper ledger := {
  GetBalance := balance;
  GetSupply := supply;
  BlockedAddr := λ b a, bool_decide (a ∈ blocked b);
  ModuleAddress := moduleAddress;
  SendCoins := sendCoins;
  MintCoins := mintCoins;
  BurnCoins := burnCoins;
}.

Lemma balance_setBalance a z b x :
  balance (setBalance a z b) x = if bool_decide (x = a) then z else balance b x.
Proof.
  unfold balance, setBalance. simpl. case_bool_decide as Hx.
  - subst. destruct (Z.eqb_spec z 0); simplify_map_eq; done.
  - destruct (Z.eqb_spec z 0); by simplify_map_eq.
Qed.
Lemma addCoins_Ok a amt b b' :
  addCoins a amt b = (Ok tt, b') →
  supply b' = supply b ∧ minters b' = minters b ∧ burners b' = burners b ∧
  ∀ x, balance b' x = balance b x + delta x a amt.
Proof.
  unfold addCoins, delta. destruct (Z.eqb_spec amt 0) as [->|]; intros H; int_inv.
  - split_and!; [done..|]. intros x. case_bool_decide; lia.
  - split_and!; [done..|]. intros x. rewrite balance_setBalance. case_bool_decide; subst; lia.
Qed.
Lemma subUnlockedCoins_Ok a amt b b' :
  subUnlockedCoins a amt b = (Ok tt, b') →
  supply b' = supply b ∧ minters b' = minters b ∧ burners b' = burners b ∧
  ∀ x, balance b' x = balance b x - delta x a amt.
Proof.
  unfold subUnlockedCoins, delta. destruct (Z.eqb_spec amt 0) as [->|]; intros H; int_inv.
  - split_and!; [done..|]. intros x. case_bool_decide; lia.
  - split_and!; [done..|]. intros x. rewrite balance_setBalance. case_bool_decide; subst; lia.
Qed.

#[export] Instance ledger_laws : BankLaws ledger.
Proof.
  constructor.
  - intros f t amt b b' _ H. cbn in H. unfold sendCoins in H. go_inv.
    repeat match goal with u : unit |- _ => destruct u end.
    match goal with H : subUnlockedCoins _ _ _ = _ |- _ => apply subUnlockedCoins_Ok in H as (H1 & _ & _ & H2) end.
    match goal with H : addCoins _ _ _ = _ |- _ => apply addCoins_Ok in H as (H3 & _ & _ & H4) end.
    split; cbn; [congruence|]. intros x. rewrite H4, H2. done.
  - intros m amt b b' _ H. cbn in H. unfold mintCoins in H. go_cases;
    repeat match goal with u : unit |- _ => destruct u end;
    match goal with H : addCoins _ _ _ = _ |- _ => apply addCoins_Ok in H as (H3 & _ & _ & H4) end;
    int_inv; subst; split; cbn; try done; try lia.
  - intros m amt b b' _ H. cbn in H. unfold burnCoins in H. go_cases;
    repeat match goal with u : unit |- _ => destruct u end;
    match goal with H : subUnlockedCoins _ _ _ = _ |- _ => apply subUnlockedCoins_Ok in H as (H3 & _ & _ & H4) end;
    int_inv; bool_prop; subst; split_and!; cbn; try done; try lia.
  - intros f t amt b b' e H. cbn in H. unfold sendCoins, subUnlockedCoins, addCoins in H.
    unfold mbind, M_bind, mret, M_ret, reads, fail_if, fail, lift, modify, Int_Sub, Int_Add, Int_checked in H.
    repeat case_match; go_inv; simplify_eq; done.
Qed.
End Ledger.
Export (hints) Ledger.

(** ** x/identity, as x/coin and x/institutions read it *)
Class IdentityKeeper (I : Type) := {
  SubjectDID : I → string → option string;
  BootstrapPhase : Context → I → bool;
}.

(** ** Cryptography: the phi-crypto port and the Go standard library's hash *)
Class Hasher := { sha256 : string → string }.
(** a SHA-256 digest has 32 bytes *)
Class HasherLaws `{Hasher} : Prop := { sha256_length s : strlen (sha256 s) = 32 }.

Inductive Curve := Secp256k1 | Secp256r1.
Class Verifier := { VerifySignature : Curve → string → string → string → bool }.

(** ** x/coin, as x/institutions uses it *)
Class CoinKeeperI (C : Type) := {
  coin_AddCoins : string → Z → Z → M C unit;
  coin_EarlyRedeemPenalty : Context → string → Z → M C Z;
}.

(** what x/coin promises to a redemption: on a state it keeps well-formed, crediting
    and pricing return, and the penalty leaves at least a tenth of the amount *)
Class CoinKeeperLaws (C : Type) `{CoinKeeperI C} := {
  coin_ok : Context → C → Prop;
  penalty_law ctx a amt c : coin_ok ctx c → 0 ≤ amt < 2 ^ 190 →
    ∃ pen c', coin_EarlyRedeemPenalty ctx a amt c = (Ok pen, c') ∧ coin_ok ctx c' ∧
              0 ≤ pen ∧ pen * 10 ≤ amt * 9;
}.

(** ** x/gov, as x/institutions reads it *)
Record Any := mkAny { any_TypeUrl : string; any_Value : string }.
Record Proposal := mkProposal { prop_Status : Z; prop_Messages : list Any }.
Definition PROPOSAL_STATUS_PASSED : Z := 3.
Class GovKeeper (G : Type) := { gov_Proposal : G → Z → option Proposal }.
