(* ===== verification/CoinTypes.v ===== *)
(** * The data of x/coin

    [x/coin/types]: the governed parameters with their validation, the fee table,
    the revenue split, and the records of the store.  Theorem: every fee splits
    exactly between the validators and the company. *)
From stdpp Require Import base gmap strings list fin_maps.
From Stdlib Require Import ZArith Lia.
From S2P Require Import Prelude GoInt KVStore Interfaces.

(** ** Records *)
Record FeeEntry := mkFeeEntry { fe_MsgTypeUrl : string; fe_Fee : string }.
Record SplitEntry := mkSplitEntry {
  se_MsgTypeUrl : string; se_ValidatorBps : Z; se_CompanyBps : Z }.

Record Params := mkParams {
  Fees : list FeeEntry;
  DefaultFee : string;
  MicroThreshold : string;
  MicroDailyQuota : Z;               (** uint64 *)
  CoinAgeThresholdSeconds : Z;       (** int64 *)
  YoungPenaltyBps : Z;               (** uint32 *)
  OldPenaltyBps : Z;                 (** uint32 *)
  Splits : list SplitEntry;
  CompanyPayoutAddress : string;
  AgreementExtraSignerFee : string;
  AgreementFreeSigners : Z;          (** uint32 *)
  MaxCoinAgeLots : Z;                (** uint32 *)
}.

Record CoinLot := mkLot { Amount : string; AcquiredAt : Z }.
Record CoinAge := mkCoinAge { ca_Address : string; ca_Lots : list CoinLot }.

Record MsgTransfer := mkMsgTransfer { mt_From : string; mt_To : string; mt_Amount : string }.
Record MsgWithdrawRevenue := mkMsgWithdrawRevenue { mw_Authority : string; mw_Amount : string }.
Record MsgUpdateParams := mkMsgUpdateParams { mu_Authority : string; mu_Params : Params }.

(** ** Constants *)
Definition DefaultTransferFee : string := "5000".
Definition DefaultAnchorPersonalFee : string := "120000".
Definition DefaultCreateAgreementFee : string := "50000".
Definition DefaultAgreementExtraSignerFee : string := "5000".
Definition DefaultAgreementFreeSigners : Z := 5.
Definition DefaultMicroThreshold : string := "50000".
Definition DefaultMicroDailyQuota : Z := 10.
Definition DefaultCoinAgeThresholdSeconds : Z := 7 * 24 * 60 * 60.
Definition DefaultYoungPenaltyBps : Z := 100.
Definition DefaultOldPenaltyBps : Z := 20.
Definition DefaultMaxCoinAgeLots : Z := 64.
Definition MinCoinAgeLots : Z := 2.
Definition MaxCoinAgeLotsCeiling : Z := 1024.
Definition MaxMicroThresholdUphi : Z := 1000000.
Definition MaxMicroDailyQuota : Z := 1000.
Definition MsgTransferTypeURL : string := "/phi.coin.MsgTransfer".
Definition MsgAnchorPersonalTypeURL : string := "/phi.credentials.MsgAnchorPersonal".
Definition MsgCreateAgreementTypeURL : string := "/phi.credentials.MsgCreateAgreement".
Definition BpsDenominator : Z := 10000.
Definition MaxProtocolFeeReserveBps : Z := 1000.
Definition DefaultTransferValidatorBps : Z := 9000.
Definition DefaultTransferCompanyBps : Z := 1000.
Definition UphiPerPhi : Z := 1000000.
Definition CoinModuleName : string := "coin".
Definition RevenueAccountName : string := "phi_revenue".
Definition FeeCollectorName : string := "fee_collector".

Definition ErrInvalidAmount : error := Registered CoinModuleName 2.
Definition ErrInsufficientFunds : error := Registered CoinModuleName 3.
Definition ErrSameAccount : error := Registered CoinModuleName 6.
Definition ErrNoPayoutAddress : error := Registered CoinModuleName 7.
(** x/gov's signer error, returned by every authority-gated handler *)

Definition DefaultParams : Params := {|
  Fees := [mkFeeEntry MsgTransferTypeURL DefaultTransferFee;
           mkFeeEntry MsgAnchorPersonalTypeURL DefaultAnchorPersonalFee;
           mkFeeEntry MsgCreateAgreementTypeURL DefaultCreateAgreementFee];
  Splits := [mkSplitEntry MsgTransferTypeURL DefaultTransferValidatorBps DefaultTransferCompanyBps;
             mkSplitEntry MsgAnchorPersonalTypeURL 0 BpsDenominator];
  DefaultFee := DefaultTransferFee;
  MicroThreshold := DefaultMicroThreshold;
  MicroDailyQuota := DefaultMicroDailyQuota;
  CoinAgeThresholdSeconds := DefaultCoinAgeThresholdSeconds;
  YoungPenaltyBps := DefaultYoungPenaltyBps;
  OldPenaltyBps := DefaultOldPenaltyBps;
  MaxCoinAgeLots := DefaultMaxCoinAgeLots;
  CompanyPayoutAddress := "";
  AgreementExtraSignerFee := DefaultAgreementExtraSignerFee;
  AgreementFreeSigners := DefaultAgreementFreeSigners;
|}.

(** ** Params.Validate *)

(** the shared check of the text amounts: parses, and is not negative *)
Definition nonneg_text (s : string) : bool :=
  match NewIntFromString s with Some v => negb (IsNegative v) | None => false end.

Definition validate_fee (f : FeeEntry) : outcome unit :=
  err_if (bool_decide (fe_MsgTypeUrl f = "")) (Plain "fee entry with empty msg_type_url");;
  err_if (negb (nonneg_text (fe_Fee f))) (Plain "invalid fee").

Fixpoint validate_splits (seenSplit : gset string) (l : list SplitEntry) : outcome unit :=
  match l with
  | [] => Ok tt
  | s :: l' =>
      err_if (bool_decide (se_MsgTypeUrl s = "")) (Plain "split entry with empty msg_type_url");;
      err_if (bool_decide (se_MsgTypeUrl s ∈ seenSplit)) (Plain "duplicate split entry");;
      err_if (BpsDenominator <? u64 (se_ValidatorBps s + se_CompanyBps s))
        (Plain "validator_bps + company_bps");;
      validate_splits ({[se_MsgTypeUrl s]} ∪ seenSplit) l'
  end.

Definition Params_Validate `{AddressCodec} (p : Params) : outcome unit :=
  fee ← or_err (NewIntFromString (DefaultFee p)) (Plain "invalid default_fee");
  err_if (negb (IsPositive fee)) (Plain "default_fee must be strictly positive");;
  mt ← or_err (NewIntFromString (MicroThreshold p)) (Plain "invalid micro_threshold");
  err_if (IsNegative mt) (Plain "micro_threshold must be >= 0");;
  err_if (MaxMicroThresholdUphi <? mt) (Plain "micro_threshold exceeds the sanity cap");;
  err_if (MaxMicroDailyQuota <? MicroDailyQuota p) (Plain "micro_daily_quota exceeds the sanity cap");;
  ofold (λ _ f, validate_fee f) (Fees p) tt;;
  err_if (negb (bool_decide (AgreementExtraSignerFee p = "")) &&
          negb (nonneg_text (AgreementExtraSignerFee p))) (Plain "invalid agreement_extra_signer_fee");;
  err_if (CoinAgeThresholdSeconds p <? 0) (Plain "coin_age_threshold_seconds must be >= 0");;
  err_if (BpsDenominator - MaxProtocolFeeReserveBps <=? u64 (YoungPenaltyBps p + OldPenaltyBps p))
    (Plain "young_penalty_bps + old_penalty_bps");;
  err_if ((MaxCoinAgeLots p <? MinCoinAgeLots) || (MaxCoinAgeLotsCeiling <? MaxCoinAgeLots p))
    (Plain "max_coin_age_lots");;
  validate_splits ∅ (Splits p);;
  err_if (negb (bool_decide (CompanyPayoutAddress p = "")) && negb (is_bech32 (CompanyPayoutAddress p)))
    (Plain "invalid company_payout_address").

(** ** The fee table *)

(** the messages the fee code distinguishes; the URL of any other message is its own *)
Inductive sdk_Msg :=
| TransferMsg (m : MsgTransfer)
| CreateAgreementMsg (requiredSigners : list string)
| OtherMsg (typeURL : string) (requiredSigners : option (list string)).

Definition MsgTypeURL (m : sdk_Msg) : string :=
  match m with
  | TransferMsg _ => MsgTransferTypeURL
  | CreateAgreementMsg _ => MsgCreateAgreementTypeURL
  | OtherMsg u _ => u
  end.
(** the [agreementMsg] interface: whether the message has [GetRequiredSigners] *)
Definition GetRequiredSigners (m : sdk_Msg) : option (list string) :=
  match m with
  | TransferMsg _ => None
  | CreateAgreementMsg l => Some l
  | OtherMsg _ o => o
  end.

Fixpoint fee_lookup (l : list FeeEntry) (url : string) : option Z :=
  match l with
  | [] => None
  | f :: l' =>
      if bool_decide (fe_MsgTypeUrl f = url)
      then match NewIntFromString (fe_Fee f) with Some v => Some v | None => fee_lookup l' url end
      else fee_lookup l' url
  end.
Definition FeeFor (p : Params) (url : string) : Z :=
  match fee_lookup (Fees p) url with
  | Some v => v
  | None => default 0 (NewIntFromString (DefaultFee p))
  end.

Definition agreementSurcharge (p : Params) (url : string) (m : sdk_Msg) : outcome Z :=
  if negb (bool_decide (url = MsgCreateAgreementTypeURL)) then Ok 0 else
  match GetRequiredSigners m with
  | None => Ok 0
  | Some l =>
      let signers := Z.of_nat (length l) in
      let free := AgreementFreeSigners p in
      if signers <=? free then Ok 0 else
      match NewIntFromString (AgreementExtraSignerFee p) with
      | Some extra => if IsPositive extra then extra *! (signers - free) else Ok 0
      | None => Ok 0
      end
  end.
Definition FeeForMsg (p : Params) (m : sdk_Msg) : outcome Z :=
  s ← agreementSurcharge p (MsgTypeURL m) m;
  FeeFor p (MsgTypeURL m) +! s.

Fixpoint split_lookup (l : list SplitEntry) (url : string) : option SplitEntry :=
  match l with
  | [] => None
  | s :: l' => if bool_decide (se_MsgTypeUrl s = url) then Some s else split_lookup l' url
  end.
Definition SplitFor (p : Params) (url : string) : SplitEntry * bool :=
  match split_lookup (Splits p) url with
  | Some s => (s, true)
  | None => (mkSplitEntry url BpsDenominator 0, false)
  end.
Definition CompanyShare (s : SplitEntry) (fee : Z) : outcome (Z * Z) :=
  x ← fee *! se_CompanyBps s;
  company ← x /! BpsDenominator;
  validator ← fee -! company;
  Ok (company, validator).
Definition MicroThresholdInt (p : Params) : Z := default 0 (NewIntFromString (MicroThreshold p)).

(** ** Revenue routing *)
Record RevenueLeg := mkLeg { leg_MsgTypeURL : string; leg_Stream : string; leg_Amount : Z }.
Record FeeSplit := mkFeeSplit {
  fs_Total : Z; fs_Validator : Z; fs_Company : Z; fs_Legs : list RevenueLeg }.
Definition NewFeeSplit : FeeSplit := mkFeeSplit 0 0 0 [].
Definition StreamValidator : string := "validator".
Definition StreamCompany : string := "company".

(** one iteration of [ComputeFeeSplit]'s loop *)
Definition add_fee (p : Params) (out : FeeSplit) (m : sdk_Msg) : outcome FeeSplit :=
  let url := MsgTypeURL m in
  fee ← FeeForMsg p m;
  if negb (IsPositive fee) then Ok out else
  let '(entry, _) := SplitFor p url in
  '(company, validator) ← CompanyShare entry fee;
  total ← fs_Total out +! fee;
  comp ← fs_Company out +! company;
  val ← fs_Validator out +! validator;
  Ok (mkFeeSplit total val comp
        (fs_Legs out
         ++ (if IsPositive validator then [mkLeg url StreamValidator validator] else [])
         ++ (if IsPositive company then [mkLeg url StreamCompany company] else []))).
Definition fee_split (p : Params) (msgs : list sdk_Msg) : outcome FeeSplit :=
  ofold (add_fee p) msgs NewFeeSplit.

(** ** What a validated table guarantees *)
Definition bps_ok (s : SplitEntry) : Prop :=
  0 ≤ se_ValidatorBps s < 2 ^ 32 ∧ 0 ≤ se_CompanyBps s < 2 ^ 32.
(** the fields of a decoded record are in the range of their Go types *)
Definition params_typed (p : Params) : Prop :=
  0 ≤ YoungPenaltyBps p < 2 ^ 32 ∧ 0 ≤ OldPenaltyBps p < 2 ^ 32 ∧
  0 ≤ MaxCoinAgeLots p < 2 ^ 32 ∧ 0 ≤ AgreementFreeSigners p < 2 ^ 32 ∧
  Forall bps_ok (Splits p).

Lemma validate_splits_bps seen l :
  Forall bps_ok l → validate_splits seen l = Ok tt →
  Forall (λ s, 0 ≤ se_CompanyBps s ≤ BpsDenominator) l.
Proof.
  intros Ht. revert seen. induction l as [|s l IH]; intros seen H; [constructor|].
  apply Forall_cons in Ht as [[Hv Hc] Ht]. cbn [validate_splits] in H. go_inv. bool_prop.
  repeat match goal with u : unit |- _ => destruct u end.
  constructor; [|by eapply IH]. rename select (u64 _ ≤ _) into Hb. rewrite u64_id in Hb by lia. lia.
Qed.

Lemma split_lookup_elem l url s : split_lookup l url = Some s → s ∈ l.
Proof. induction l as [|x l IH]; simpl; [done|]. case_match; intros; simplify_eq; [left|right; auto]. Qed.
Lemma SplitFor_bps p url :
  Forall (λ s, 0 ≤ se_CompanyBps s ≤ BpsDenominator) (Splits p) →
  0 ≤ se_CompanyBps (SplitFor p url).1 ≤ BpsDenominator.
Proof.
  intros H. unfold SplitFor. destruct (split_lookup (Splits p) url) as [s|] eqn:Hs; simpl.
  - rewrite Forall_forall in H. eapply H, split_lookup_elem, Hs.
  - unfold BpsDenominator. lia.
Qed.

Lemma CompanyShare_spec s fee c v :
  0 ≤ fee → 0 ≤ se_CompanyBps s ≤ BpsDenominator → CompanyShare s fee = Ok (c, v) →
  c + v = fee ∧ 0 ≤ c ∧ 0 ≤ v.
Proof.
  intros Hf Hb H. unfold CompanyShare in H. int_inv. unfold BpsDenominator in *.
  rewrite Z.quot_div_nonneg by nia.
  pose proof (Z.div_pos (fee * se_CompanyBps s) 10000 ltac:(nia) ltac:(lia)).
  pose proof (Z.div_le_upper_bound (fee * se_CompanyBps s) 10000 fee ltac:(lia) ltac:(nia)). lia.
Qed.

Definition split_balanced (out : FeeSplit) : Prop :=
  fs_Validator out + fs_Company out = fs_Total out ∧ 0 ≤ fs_Validator out ∧ 0 ≤ fs_Company out ∧
  sumZ leg_Amount (fs_Legs out) = fs_Total out ∧ Forall (λ l, 0 < leg_Amount l) (fs_Legs out).

Lemma add_fee_balanced p out m out' :
  Forall (λ s, 0 ≤ se_CompanyBps s ≤ BpsDenominator) (Splits p) →
  split_balanced out → add_fee p out m = Ok out' → split_balanced out'.
Proof.
  intros Hb (Hsum & Hv & Hc & Hl & Hp) H. unfold add_fee in H. go_inv.
  pose proof (SplitFor_bps p (MsgTypeURL m) Hb) as Hbps.
  destruct (negb (IsPositive _)) eqn:Hpos; int_inv; [done|].
  destruct (SplitFor p (MsgTypeURL m)) as [entry found]. simpl in Hbps. int_inv.
  match goal with x : (Z * Z)%type |- _ => destruct x as [c v] end. int_inv.
  rename select (CompanyShare _ _ = _) into Hs.
  apply CompanyShare_spec in Hs as (Heq & Hc0 & Hv0); [|lia|done]. unfold split_balanced. simpl.
  rewrite !sumZ_app, !Forall_app. unfold IsPositive.
  split_and!; try lia; try done.
  - destruct (Z.ltb_spec 0 v), (Z.ltb_spec 0 c); simpl; lia.
  - destruct (Z.ltb_spec 0 v); by repeat constructor.
  - destruct (Z.ltb_spec 0 c); by repeat constructor.
Qed.
Lemma fee_split_balanced p msgs out :
  Forall (λ s, 0 ≤ se_CompanyBps s ≤ BpsDenominator) (Splits p) →
  fee_split p msgs = Ok out → split_balanced out.
Proof.
  intros Hb. unfold fee_split. assert (split_balanced NewFeeSplit) as H0
    by (unfold split_balanced; simpl; split_and!; (constructor || lia || done)).
  revert H0. generalize NewFeeSplit. induction msgs as [|m msgs IH]; intros acc H0 H; simpl in H; go_inv; [done|].
  eapply IH; [|done]. by eapply add_fee_balanced.
Qed.
