(* ===== verification/CoinAge.v ===== *)
(** * The FIFO coin-age core of x/coin

    [x/coin/types/coin_age.go]: pure functions over a holder's lot queue.  A lot
    carries its amount as text, as the protobuf record does; [math.Int] arithmetic
    panics past 256 bits and [int64] arithmetic wraps.  The theorems: spending
    conserves value and takes the oldest coin first, insertion keeps the queue
    oldest-first and bounded, a merge never ages coin, and the penalty stays within
    the governed rates. *)
From stdpp Require Import base gmap strings list fin_maps sorting.
From Stdlib Require Import ZArith Lia.
From S2P Require Import Prelude GoInt KVStore Interfaces CoinTypes.

Definition parseAmount (s : string) : Z :=
  match NewIntFromString s with
  | Some v => if IsNegative v then 0 else v
  | None => 0
  end.
Definition LotAmount (l : CoinLot) : Z := parseAmount (Amount l).

Definition TotalLots (lots : list CoinLot) : outcome Z :=
  ofold (λ total l, total +! LotAmount l) lots 0.

Definition IsOld (acquiredAt now thresholdSeconds : Z) : bool :=
  thresholdSeconds <=? i64 (now - acquiredAt).

(** the tier rate of one lot *)
Definition lot_bps (p : Params) (now : Z) (l : CoinLot) : Z :=
  if IsOld (AcquiredAt l) now (CoinAgeThresholdSeconds p) then OldPenaltyBps p
  else YoungPenaltyBps p.

Definition PenaltyForLots (lots : list CoinLot) (now : Z) (p : Params) : outcome Z :=
  ofold (λ penalty l,
    x ← LotAmount l *! lot_bps p now l;
    y ← x /! BpsDenominator;
    penalty +! y) lots 0.

(** the loop of [SpendOldestFirst]: (consumed, remaining, lft) *)
Fixpoint spend_loop (lots : list CoinLot) (lft : Z) : outcome (list CoinLot * list CoinLot * Z) :=
  match lots with
  | [] => Ok ([], [], lft)
  | l :: ls =>
      if IsPositive lft then
        let lotAmt := LotAmount l in
        if lotAmt <=? lft then
          lft' ← lft -! lotAmt;
          '(c, r, lft'') ← spend_loop ls lft';
          Ok (mkLot (Int_String lotAmt) (AcquiredAt l) :: c, r, lft'')
        else
          rest ← lotAmt -! lft;
          Ok ([mkLot (Int_String lft) (AcquiredAt l)],
              mkLot (Int_String rest) (AcquiredAt l) :: ls, 0)
      else Ok ([], lots, lft)
  end.

Definition SpendOldestFirst (lots : list CoinLot) (amount now thresholdSeconds : Z)
    : outcome (list CoinLot * list CoinLot) :=
  '(consumed, remaining, lft) ← spend_loop lots amount;
  Ok (if IsPositive lft
      then consumed ++ [mkLot (Int_String lft) (i64 (now - thresholdSeconds))]
      else consumed, remaining).

Definition mergedAcquiredAt (older newer : CoinLot) : outcome Z :=
  let delta := i64 (AcquiredAt newer - AcquiredAt older) in
  if delta <=? 0 then Ok (AcquiredAt older) else
  total ← LotAmount older +! LotAmount newer;
  if negb (IsPositive total) then Ok (AcquiredAt older) else
  num ← LotAmount newer *! delta;
  n1 ← num +! total;
  n2 ← n1 -! 1;
  q ← n2 /! total;
  d ← Int_Int64 q;
  Ok (i64 (AcquiredAt older + d)).

Definition merge_lots (a b : CoinLot) : outcome CoinLot :=
  amt ← LotAmount a +! LotAmount b;
  at_ ← mergedAcquiredAt a b;
  Ok (mkLot (Int_String amt) at_).

(** the merging loop; every round removes one lot, so the queue's length is fuel enough *)
Fixpoint bound_loop (fuel : nat) (lots : list CoinLot) (maxLots : Z) : outcome (list CoinLot) :=
  match fuel with
  | O => Ok lots
  | S f =>
      match lots with
      | a :: b :: rest =>
          if maxLots <? u32 (Z.of_nat (length lots)) then
            m ← merge_lots a b; bound_loop f (m :: rest) maxLots
          else Ok lots
      | _ => Ok lots
      end
  end.
Definition BoundLots (lots : list CoinLot) (maxLots : Z) : outcome (list CoinLot) :=
  let maxLots := if maxLots =? 0 then DefaultMaxCoinAgeLots else maxLots in
  bound_loop (length lots) lots maxLots.

Fixpoint insert_at (lots : list CoinLot) (lot : CoinLot) : list CoinLot :=
  match lots with
  | [] => [lot]
  | l :: ls => if AcquiredAt lot <? AcquiredAt l then lot :: lots else l :: insert_at ls lot
  end.
Definition InsertLot (lots : list CoinLot) (lot : CoinLot) (maxLots : Z) : outcome (list CoinLot) :=
  if negb (IsPositive (LotAmount lot)) then Ok lots
  else BoundLots (insert_at lots lot) maxLots.

(** ** Specification vocabulary *)

(** the value of a queue *)
Definition value (lots : list CoinLot) : Z := sumZ LotAmount lots.
(** the queue invariant every FIFO operation relies on *)
Definition oldest_first (lots : list CoinLot) : Prop :=
  StronglySorted (λ a b, AcquiredAt a ≤ AcquiredAt b) lots.
(** timestamps of real blocks *)
Definition sane_time (t : Z) : Prop := 0 ≤ t < 2 ^ 62.
Definition sane_lots (lots : list CoinLot) : Prop := Forall (λ l, sane_time (AcquiredAt l)) lots.

Lemma LotAmount_range l : 0 ≤ LotAmount l < 2 ^ 256.
Proof.
  unfold LotAmount, parseAmount. destruct (NewIntFromString (Amount l)) as [v|] eqn:Hv; [|lia].
  apply NewIntFromString_range in Hv. unfold in_range in Hv.
  unfold IsNegative. destruct (Z.ltb_spec v 0); lia.
Qed.
Lemma LotAmount_String z t : 0 ≤ z < 2 ^ 256 → LotAmount (mkLot (Int_String z) t) = z.
Proof.
  intros Hz. unfold LotAmount, parseAmount. simpl.
  rewrite NewIntFromString_String by (unfold in_range; lia).
  unfold IsNegative. by destruct (Z.ltb_spec z 0); [lia|].
Qed.
Lemma value_nonneg lots : 0 ≤ value lots.
Proof. apply sumZ_nonneg. intros l _. pose proof (LotAmount_range l). lia. Qed.
Lemma value_cons l lots : value (l :: lots) = LotAmount l + value lots.
Proof. done. Qed.
Lemma value_app l1 l2 : value (l1 ++ l2) = value l1 + value l2.
Proof. apply sumZ_app. Qed.
#[export] Hint Resolve LotAmount_range value_nonneg : phi.

Lemma spend_loop_total lots lft :
  0 ≤ lft < 2 ^ 256 → ∃ r, spend_loop lots lft = Ok r.
Proof.
  revert lft. induction lots as [|l ls IH]; intros lft Hleft; simpl; [eauto|].
  pose proof (LotAmount_range l) as Hl. unfold IsPositive.
  destruct (Z.ltb_spec 0 lft); [|eauto].
  destruct (Z.leb_spec (LotAmount l) lft).
  - unfold Int_Sub. rewrite Int_checked_in by (unfold in_range; lia). cbn.
    destruct (IH (lft - LotAmount l)) as [[[c r] lft'] ->]; [lia|]. cbn. eauto.
  - unfold Int_Sub. rewrite Int_checked_in by (unfold in_range; lia). cbn. eauto.
Qed.

(** what the loop returns: consumed and remaining value, in queue order *)
Lemma spend_loop_spec lots lft c r lft' :
  0 ≤ lft < 2 ^ 256 → spend_loop lots lft = Ok (c, r, lft') →
  0 ≤ lft' ∧ value c = lft - lft' ∧ value c + value r = value lots ∧ (0 < lft' → r = []) ∧
  map AcquiredAt c `sublist_of` map AcquiredAt lots ∧
  (∀ t, t ∈ map AcquiredAt (c ++ r) ↔ t ∈ map AcquiredAt lots) ∧
  (oldest_first lots → oldest_first (c ++ r)).
Proof.
  revert lft c r lft'. induction lots as [|l ls IH]; intros lft c r lft' Hleft H; simpl in H.
  { simplify_eq. split_and!; try done; try (cbn; lia). }
  pose proof (LotAmount_range l) as Hl. destruct (IsPositive lft) eqn:Hpos; int_inv.
  2: { unfold value; simpl. split_and!; try done; try (cbn; lia). apply sublist_nil_l. }
  destruct (LotAmount l <=? lft) eqn:Hle; int_inv.
  - match goal with H : context [spend_loop ls] |- _ => rename H into Hs end.
    destruct_and?. repeat case_match; int_inv.
    match goal with H : spend_loop ls _ = Ok _ |- _ => apply IH in H; [|lia] end.
    destruct_and!. rewrite !value_cons, LotAmount_String by lia.
    split_and!; try lia; try done.
    + simpl. by constructor.
    + intros t. simpl. rewrite !elem_of_cons.
      match goal with H : ∀ t, t ∈ map _ (_ ++ _) ↔ _ |- _ => rewrite <- H end. done.
    + intros Hs'. apply StronglySorted_inv in Hs' as [Hs1 Hs2]. simpl.
      constructor; [by match goal with H : oldest_first ls → _ |- _ => apply H end|].
      rewrite Forall_forall in Hs2 |- *. intros x Hx. simpl.
      assert (AcquiredAt x ∈ map AcquiredAt ls) as Hin.
      { match goal with H : ∀ t, t ∈ map _ (_ ++ _) ↔ _ |- _ => apply H end.
        by apply list_elem_of_fmap_2. }
      apply list_elem_of_fmap in Hin as (y & -> & Hy). by apply Hs2.
  - unfold value. cbn [sumZ foldr map app]. fold (sumZ LotAmount ls).
    rewrite !LotAmount_String by lia. split_and!; try lia; try done.
    + simpl. constructor. apply sublist_nil_l.
    + intros t. simpl. rewrite !elem_of_cons. naive_solver.
    + intros Hs'. apply StronglySorted_inv in Hs' as [Hs1 Hs2].
      constructor; [by constructor|]. constructor; [simpl; lia|done].
Qed.

Lemma spend_loop_length lots lft c r lft' :
  spend_loop lots lft = Ok (c, r, lft') → (length r ≤ length lots)%nat.
Proof.
  revert lft c r lft'. induction lots as [|l ls IH]; intros lft c r lft' H; simpl in H; go_inv; [done|].
  repeat go_case; go_inv; try done.
  match goal with x : (list CoinLot * list CoinLot * Z) |- _ => destruct x as [[c1 r1] l1] end.
  go_inv. rename select (spend_loop ls _ = _) into Hs. apply IH in Hs. simpl. lia.
Qed.

(** the whole contract of a spend *)
Lemma SpendOldestFirst_spec lots amount now thr :
  0 ≤ amount < 2 ^ 256 →
  ∃ consumed remaining,
    SpendOldestFirst lots amount now thr = Ok (consumed, remaining) ∧
    value consumed = amount ∧ value remaining = Z.max 0 (value lots - amount) ∧
    (length remaining ≤ length lots)%nat ∧
    (∀ t, t ∈ map AcquiredAt (consumed ++ remaining) →
      t ∈ map AcquiredAt lots ∨ t = i64 (now - thr)) ∧
    (oldest_first lots → oldest_first remaining).
Proof.
  intros Ha. destruct (spend_loop_total lots amount Ha) as [[[c r] lft] Hs].
  pose proof (spend_loop_spec lots amount c r lft Ha Hs) as (Hl & Hc & Hr & Hnil & _ & Hin & Ho).
  apply spend_loop_length in Hs as Hlen.
  unfold SpendOldestFirst. rewrite Hs. cbn. eexists _, _. split; [done|].
  pose proof (value_nonneg r). pose proof (value_nonneg lots). pose proof (value_nonneg c).
  assert (oldest_first lots → oldest_first r) by
    (intros ?%Ho; clear -H2; induction c as [|x c IH]; [done|]; apply IH; by apply StronglySorted_inv in H2 as [? _]).
  unfold IsPositive. destruct (Z.ltb_spec 0 lft) as [Hp|Hp].
  - rewrite (Hnil Hp) in *. rewrite value_app, value_cons, LotAmount_String by lia.
    change (value []) with 0 in *. split_and!; try lia; try done.
    intros t. rewrite <- Hin, !app_nil_r, map_app, elem_of_app. simpl. rewrite list_elem_of_singleton. done.
  - split_and!; try lia; try done. intros t. rewrite Hin. auto.
Qed.

(** Spending conserves value and is total.  For an amount a [math.Int] can hold,
    [SpendOldestFirst] always returns; the lots it consumes are worth exactly the
    amount spent, and the tracked value splits between the consumed lots and the
    remaining queue (a surplus over the queue is consumed as one extra lot). *)
Theorem spend_conserves_value lots amount now thr :
  0 ≤ amount < 2 ^ 256 →
  ∃ consumed remaining,
    SpendOldestFirst lots amount now thr = Ok (consumed, remaining) ∧
    value consumed = amount ∧
    value remaining = Z.max 0 (value lots - amount).
Proof. intros Ha. destruct (SpendOldestFirst_spec lots amount now thr Ha) as (c & r & ? & ? & ? & _). eauto. Qed.
Lemma spend_conserves_witness :
  ∃ consumed remaining,
    SpendOldestFirst [mkLot "70" 5; mkLot "50" 9] 100 1000 600 = Ok (consumed, remaining) ∧
    value consumed = 100 ∧ value remaining = Z.max 0 (value [mkLot "70" 5; mkLot "50" 9] - 100).
Proof. apply spend_conserves_value. lia. Defined.

(** Spending is first-in first-out.  From an oldest-first queue, the consumed
    tracked lots and the remaining queue are both oldest-first, and nothing that
    remains is older than a tracked lot that was consumed; the timestamps are those
    of the queue, so a split lot keeps its age on both halves. *)
Theorem spend_is_fifo lots amount now thr consumed remaining :
  0 ≤ amount < 2 ^ 256 → oldest_first lots → amount ≤ value lots →
  SpendOldestFirst lots amount now thr = Ok (consumed, remaining) →
  oldest_first (consumed ++ remaining) ∧
  (∀ c r, c ∈ consumed → r ∈ remaining → AcquiredAt c ≤ AcquiredAt r) ∧
  (∀ t, t ∈ map AcquiredAt (consumed ++ remaining) ↔ t ∈ map AcquiredAt lots).
Proof.
  intros Ha Hs Hle H. unfold SpendOldestFirst in H. go_inv.
  match goal with x : (list CoinLot * list CoinLot * Z) |- _ => destruct x as [[c r] lft] end.
  match goal with H : spend_loop _ _ = _ |- _ =>
    pose proof (spend_loop_spec _ _ _ _ _ Ha H) as (Hl & Hc & Hr & Hnil & _ & Hin & Ho) end.
  pose proof (value_nonneg r). unfold IsPositive in *.
  destruct (Z.ltb_spec 0 lft) as [Hp|Hp]; go_inv.
  { rewrite Hnil in * by done. change (value []) with 0 in *. lia. }
  split_and!; [auto| |done]. intros c0 r0 Hc0 Hr0. specialize (Ho Hs). clear -Ho Hc0 Hr0.
  induction consumed as [|x cs IH]; [by apply not_elem_of_nil in Hc0|].
  apply StronglySorted_inv in Ho as [Ho Hf]. apply elem_of_cons in Hc0 as [->|Hc0]; [|auto].
  rewrite Forall_forall in Hf. apply Hf, elem_of_app. auto.
Qed.
Lemma spend_is_fifo_witness :
  oldest_first ([mkLot "70" 5; mkLot "30" 9] ++ [mkLot "20" 9]).
Proof.
  refine (proj1 (spend_is_fifo [mkLot "70" 5; mkLot "50" 9] 100 1000 600 _ _ _ _ _ _)).
  - lia.
  - repeat constructor; simpl; lia.
  - vm_compute. discriminate.
  - vm_compute. reflexivity.
Defined.

(** ** Insertion and the length bound *)
Lemma insert_at_value lots lot : value (insert_at lots lot) = value lots + LotAmount lot.
Proof.
  induction lots as [|l ls IH]; simpl; [by unfold value; simpl; lia|].
  case_match; rewrite !value_cons, ?IH, ?value_cons; lia.
Qed.
Lemma insert_at_length lots lot : length (insert_at lots lot) = S (length lots).
Proof. induction lots as [|l ls IH]; simpl; [done|]. case_match; simpl; auto. Qed.
Lemma insert_at_perm lots lot : insert_at lots lot ≡ₚ lot :: lots.
Proof.
  induction lots as [|l ls IH]; simpl; [done|]. case_match; [done|]. rewrite IH. apply perm_swap.
Qed.
Lemma insert_at_sorted lots lot : oldest_first lots → oldest_first (insert_at lots lot).
Proof.
  induction 1 as [|l ls Hs IH Hf]; simpl; [by repeat constructor|].
  destruct (Z.ltb_spec (AcquiredAt lot) (AcquiredAt l)) as [Hlt|Hge].
  - constructor; [by constructor|]. constructor; [lia|].
    eapply Forall_impl; [exact Hf|]. simpl. intros; lia.
  - constructor; [done|]. rewrite insert_at_perm. by constructor.
Qed.

(** ceiling division, as the merge computes it *)
Lemma ceil_quot n d : 0 ≤ n → 0 < d →
  let q := Z.quot (n + d - 1) d in n ≤ q * d < n + d ∧ 0 ≤ q.
Proof.
  intros Hn Hd q. unfold q. rewrite Z.quot_div_nonneg by lia.
  pose proof (Z.div_mod (n + d - 1) d ltac:(lia)). pose proof (Z.mod_pos_bound (n + d - 1) d ltac:(lia)).
  pose proof (Z.div_pos (n + d - 1) d ltac:(lia) ltac:(lia)). split; [|done]. lia.
Qed.

(** the merged timestamp is the value-weighted average, rounded up: between the two
    ages, and never older than the average *)
Lemma mergedAcquiredAt_spec a b t :
  sane_time (AcquiredAt a) → sane_time (AcquiredAt b) → AcquiredAt a ≤ AcquiredAt b →
  mergedAcquiredAt a b = Ok t →
  AcquiredAt a ≤ t ≤ AcquiredAt b ∧
  LotAmount a * AcquiredAt a + LotAmount b * AcquiredAt b ≤ t * (LotAmount a + LotAmount b)
    ∨ (LotAmount a + LotAmount b = 0 ∧ t = AcquiredAt a).
Proof.
  unfold sane_time, mergedAcquiredAt. intros Ha Hb Hab H.
  pose proof (LotAmount_range a). pose proof (LotAmount_range b).
  rewrite i64_id in H by lia.
  destruct (AcquiredAt b - AcquiredAt a <=? 0) eqn:Hd.
  { go_inv. bool_prop. left. split; [lia|]. nia. }
  go_inv. int_inv. destruct (negb (IsPositive (LotAmount a + LotAmount b))) eqn:Hp; int_inv.
  { right. split; [lia|done]. }
  left. pose proof (ceil_quot (LotAmount b * (AcquiredAt b - AcquiredAt a))
                      (LotAmount a + LotAmount b) ltac:(nia) ltac:(lia)) as [Hq Hq0].
  set (q := Z.quot _ _) in *.
  assert (q ≤ AcquiredAt b - AcquiredAt a) by nia.
  rewrite i64_id by lia. split; [lia|]. nia.
Qed.

Lemma merge_lots_spec a b m :
  sane_time (AcquiredAt a) → sane_time (AcquiredAt b) → AcquiredAt a ≤ AcquiredAt b →
  merge_lots a b = Ok m →
  LotAmount m = LotAmount a + LotAmount b ∧ AcquiredAt a ≤ AcquiredAt m ≤ AcquiredAt b ∧
  LotAmount a * AcquiredAt a + LotAmount b * AcquiredAt b ≤ LotAmount m * AcquiredAt m.
Proof.
  intros Ha Hb Hab H. unfold merge_lots in H. int_inv.
  pose proof (LotAmount_range a). pose proof (LotAmount_range b).
  match goal with H : in_range _ |- _ => unfold in_range in H end.
  rewrite LotAmount_String by lia. simpl.
  match goal with H : mergedAcquiredAt _ _ = _ |- _ =>
    apply mergedAcquiredAt_spec in H as [[? ?]|[? ->]]; [| |done..] end;
    split_and!; try lia; nia.
Qed.

(** the coin-seconds held at the old end: amount times acquisition time *)
Definition weight (lots : list CoinLot) : Z := sumZ (λ l, LotAmount l * AcquiredAt l) lots.

Lemma bound_loop_spec fuel lots maxLots out :
  sane_lots lots → oldest_first lots → (length lots ≤ fuel)%nat → Z.of_nat (length lots) < 2 ^ 32 →
  bound_loop fuel lots maxLots = Ok out →
  value out = value lots ∧ oldest_first out ∧ sane_lots out ∧ weight lots ≤ weight out ∧
  Z.of_nat (length out) ≤ Z.max 1 maxLots ∧ (length out ≤ length lots)%nat.
Proof.
  revert lots. induction fuel as [|f IH]; intros lots Hsane Hs Hf Hlen H; simpl in H.
  { go_inv. destruct out; simpl in *; [|lia]. split_and!; try done; lia. }
  destruct lots as [|a [|b rest]].
  1, 2: go_inv; split_and!; try done; simpl; lia.
  destruct (maxLots <? u32 (Z.of_nat (length (a :: b :: rest)))) eqn:Hlt; go_inv; bool_prop;
    rewrite u32_id in Hlt by lia.
  2: { split_and!; try done; lia. }
  apply StronglySorted_inv in Hs as [Hs Hfa]. apply StronglySorted_inv in Hs as [Hs Hfb].
  apply Forall_cons in Hsane as [Hsa Hsane], Hsane as [Hsb Hsane], Hfa as [Hab Hfa].
  match goal with H : merge_lots _ _ = _ |- _ =>
    apply merge_lots_spec in H as (Hv & Ht & Hw); [|done..] end.
  match goal with H : bound_loop _ _ _ = _ |- _ =>
    apply IH in H as (H1 & H2 & H3 & H4 & H5 & H6); simpl in * end.
  - split_and!; try done; lia.
  - constructor; [|done]. unfold sane_time in *. lia.
  - constructor; [done|]. eapply Forall_impl; [exact Hfb|]. simpl. intros; lia.
  - lia.
  - lia.
Qed.

(** no amount below 2^190 (the whole supply is far smaller) can make a merge panic *)
Lemma merge_lots_total a b :
  sane_time (AcquiredAt a) → sane_time (AcquiredAt b) →
  LotAmount a + LotAmount b < 2 ^ 190 → ∃ m, merge_lots a b = Ok m.
Proof.
  unfold sane_time. intros Ha Hb Hv. pose proof (LotAmount_range a). pose proof (LotAmount_range b).
  unfold merge_lots, mergedAcquiredAt, Int_Add, Int_Mul, Int_Sub. rewrite i64_id by lia.
  rewrite !(Int_checked_in (LotAmount a + LotAmount b)) by (unfold in_range; lia).
  cbn [mbind outcome_bind].
  destruct (Z.leb_spec (AcquiredAt b - AcquiredAt a) 0); [by eexists|].
  cbn [mbind outcome_bind]. unfold IsPositive.
  destruct (Z.ltb_spec 0 (LotAmount a + LotAmount b)); cbn [negb]; [|by eexists].
  pose proof (ceil_quot (LotAmount b * (AcquiredAt b - AcquiredAt a))
                (LotAmount a + LotAmount b) ltac:(nia) ltac:(lia)) as [Hq Hq0].
  assert (LotAmount b * (AcquiredAt b - AcquiredAt a) < 2 ^ 190 * 2 ^ 62) by nia.
  change (2 ^ 190 * 2 ^ 62) with (2 ^ 252) in *.
  rewrite Int_checked_in by (unfold in_range; nia). cbn [mbind outcome_bind].
  rewrite Int_checked_in by (unfold in_range; nia). cbn [mbind outcome_bind].
  rewrite Int_checked_in by (unfold in_range; nia). cbn [mbind outcome_bind].
  unfold Int_Quo. destruct (Z.eqb_spec (LotAmount a + LotAmount b) 0); [lia|]. cbn [mbind outcome_bind].
  set (q := Z.quot _ _) in *. assert (q ≤ AcquiredAt b - AcquiredAt a) by nia.
  rewrite (proj2 (Int_Int64_Ok q q)) by (split; [done|lia]). by eexists.
Qed.

Lemma bound_loop_total fuel lots maxLots :
  sane_lots lots → oldest_first lots → value lots < 2 ^ 190 →
  ∃ out, bound_loop fuel lots maxLots = Ok out.
Proof.
  revert lots. induction fuel as [|f IH]; intros lots Hsane Hs Hv; [by eexists|].
  cbn [bound_loop]. destruct lots as [|a [|b rest]]; [by eexists..|].
  case_match; [|by eexists].
  apply StronglySorted_inv in Hs as [Hs Hfa]. apply StronglySorted_inv in Hs as [Hs Hfb].
  apply Forall_cons in Hsane as [Hsa Hsane], Hsane as [Hsb Hsane], Hfa as [Hab Hfa].
  rewrite !value_cons in Hv. pose proof (value_nonneg rest).
  destruct (merge_lots_total a b Hsa Hsb) as [m Hm]; [lia|]. rewrite Hm. cbn [mbind outcome_bind].
  apply merge_lots_spec in Hm as (Hmv & Hmt & _); [|done..]. apply IH.
  - constructor; [|done]. unfold sane_time in *. lia.
  - constructor; [done|]. eapply Forall_impl; [exact Hfb|]. simpl. intros; lia.
  - rewrite value_cons. lia.
Qed.

Lemma InsertLot_spec lots lot maxLots :
  sane_lots lots → sane_time (AcquiredAt lot) → oldest_first lots →
  2 ≤ maxLots → Z.of_nat (length lots) < 2 ^ 31 → maxLots < 2 ^ 31 →
  value lots + LotAmount lot < 2 ^ 190 →
  ∃ out, InsertLot lots lot maxLots = Ok out ∧
  value out = value lots + LotAmount lot ∧ oldest_first out ∧ sane_lots out ∧
  (0 < LotAmount lot → Z.of_nat (length out) ≤ maxLots) ∧ Z.of_nat (length out) < 2 ^ 31 ∧
  weight lots + LotAmount lot * AcquiredAt lot ≤ weight out.
Proof.
  intros Hsane Ht Hs Hm Hlen Hm' Hv. unfold InsertLot, IsPositive. pose proof (LotAmount_range lot).
  destruct (Z.ltb_spec 0 (LotAmount lot)) as [Hp|Hp]; cbn [negb].
  2: { assert (LotAmount lot = 0) as -> by lia. eexists. split_and!; try done; lia. }
  unfold BoundLots. destruct (Z.eqb_spec maxLots 0); [lia|].
  assert (sane_lots (insert_at lots lot)) by (unfold sane_lots; rewrite insert_at_perm; by constructor).
  pose proof (insert_at_sorted lots lot Hs).
  destruct (bound_loop_total (length (insert_at lots lot)) (insert_at lots lot) maxLots) as [out Ho];
    [done..|by rewrite insert_at_value|].
  exists out. split; [done|].
  apply bound_loop_spec in Ho as (Hval & ? & ? & Hw & ? & _); [|done..|rewrite insert_at_length; lia].
  rewrite Hval, insert_at_value. split_and!; try done; try lia.
  etransitivity; [|exact Hw]. unfold weight. rewrite insert_at_perm, sumZ_cons. lia.
Qed.

(** Inserting a lot returns and keeps the queue invariant.  For a queue of sane
    block times worth less than 2^190, [InsertLot] returns; the result is worth
    exactly the queue plus the lot, is oldest-first, holds at most
    [max_coin_age_lots] lots, and is no older than before: the value-weighted
    acquisition time does not fall, so merging cannot launder young coin into old. *)
Theorem insert_lot_invariant lots lot maxLots :
  sane_lots lots → sane_time (AcquiredAt lot) → oldest_first lots →
  2 ≤ maxLots → Z.of_nat (length lots) ≤ maxLots < 2 ^ 31 →
  value lots + LotAmount lot < 2 ^ 190 →
  ∃ out, InsertLot lots lot maxLots = Ok out ∧
  value out = value lots + LotAmount lot ∧ oldest_first out ∧ sane_lots out ∧
  Z.of_nat (length out) ≤ maxLots ∧
  weight lots + LotAmount lot * AcquiredAt lot ≤ weight out.
Proof.
  intros Hsane Ht Hs Hm Hlen Hv.
  destruct (InsertLot_spec lots lot maxLots) as (out & Ho & Hval & ? & ? & Hb & _ & ?); [done..|lia|lia|done|].
  exists out. split_and!; try done. pose proof (LotAmount_range lot).
  destruct (decide (0 < LotAmount lot)) as [Hp|Hp]; [auto|].
  unfold InsertLot, IsPositive in Ho. destruct (Z.ltb_spec 0 (LotAmount lot)); [lia|]. cbn in Ho.
  go_inv. lia.
Qed.
Lemma insert_lot_witness :
  ∃ out, InsertLot [mkLot "10" 4; mkLot "30" 12] (mkLot "20" 7) 2 = Ok out ∧
  value out = value [mkLot "10" 4; mkLot "30" 12] + LotAmount (mkLot "20" 7) ∧ oldest_first out ∧
  sane_lots out ∧ Z.of_nat (length out) ≤ 2 ∧
  weight [mkLot "10" 4; mkLot "30" 12] + LotAmount (mkLot "20" 7) * 7 ≤ weight out.
Proof.
  apply (insert_lot_invariant [mkLot "10" 4; mkLot "30" 12] (mkLot "20" 7) 2).
  - repeat constructor; simpl; lia.
  - unfold sane_time; simpl; lia.
  - repeat constructor; simpl; lia.
  - lia.
  - simpl; lia.
  - vm_compute. reflexivity.
Defined.

(** ** The penalty *)
Definition max_bps (r : Params) : Z := Z.max (YoungPenaltyBps r) (OldPenaltyBps r).

Lemma lot_bps_range r now l : 0 ≤ YoungPenaltyBps r → 0 ≤ OldPenaltyBps r → 0 ≤ lot_bps r now l ≤ max_bps r.
Proof. unfold lot_bps, max_bps. case_match; lia. Qed.

Lemma penalty_fold_spec r now lots acc p :
  0 ≤ YoungPenaltyBps r → 0 ≤ OldPenaltyBps r → 0 ≤ acc →
  ofold (λ penalty l,
    x ← LotAmount l *! lot_bps r now l;
    y ← x /! BpsDenominator;
    penalty +! y) lots acc = Ok p →
  acc ≤ p ∧ (p - acc) * BpsDenominator ≤ value lots * max_bps r.
Proof.
  intros Hy Ho. revert acc. induction lots as [|l ls IH]; intros acc Hacc H; simpl in H.
  { go_inv. unfold value; simpl. lia. }
  int_inv. pose proof (LotAmount_range l). pose proof (lot_bps_range r now l Hy Ho).
  rename select (ofold _ _ _ = _) into Hf.
  unfold BpsDenominator in *. rewrite Z.quot_div_nonneg in Hf by nia.
  pose proof (Z.div_mod (LotAmount l * lot_bps r now l) 10000 ltac:(lia)).
  pose proof (Z.mod_pos_bound (LotAmount l * lot_bps r now l) 10000 ltac:(lia)).
  pose proof (Z.div_pos (LotAmount l * lot_bps r now l) 10000 ltac:(nia) ltac:(lia)).
  apply IH in Hf as [Hlo Hhi]; [|lia]. rewrite value_cons. split; [lia|].
  assert (LotAmount l * lot_bps r now l ≤ LotAmount l * max_bps r) by nia. lia.
Qed.

(** The early-redeem penalty is never negative and never exceeds the higher of
    the two governed rates applied to the value of the lots. *)
Theorem penalty_bounds lots now r p :
  0 ≤ YoungPenaltyBps r → 0 ≤ OldPenaltyBps r → PenaltyForLots lots now r = Ok p →
  0 ≤ p ∧ p * BpsDenominator ≤ value lots * max_bps r.
Proof.
  intros Hy Ho H. apply penalty_fold_spec in H; [|done..|lia]. lia.
Qed.
Definition witness_params : Params := DefaultParams.
Lemma penalty_bounds_witness :
  0 ≤ 13 ∧ 13 * BpsDenominator ≤ value [mkLot "1000" 5; mkLot "1550" 0] * max_bps witness_params.
Proof.
  apply (penalty_bounds [mkLot "1000" 5; mkLot "1550" 0] 604803 witness_params); [by vm_compute..|].
  vm_compute. reflexivity.
Defined.
