(* ===== verification/CoinKeeper.v ===== *)
(** * The keeper and message server of x/coin

    [x/coin/keeper] and [x/coin/types/keys.go], [msgs.go]: the store layout, the
    coin-age queues of the holders, the daily micro-exemption quota and its pruning,
    the fee split, and the three handlers.  The theorems say what a transfer does to
    balances and to the tracked age, that the quota cannot be exceeded, what pruning
    may delete, and who may withdraw revenue. *)
From stdpp Require Import base gmap strings list fin_maps sorting.
From Stdlib Require Import ZArith Lia.
From S2P Require Import Prelude GoInt KVStore Interfaces CoinTypes CoinAge.

(** ** Store layout *)
Definition ParamsKey : string := key_prefix 0.
Definition CoinAgePrefix : string := key_prefix 16.
Definition MicroQuotaPrefix : string := key_prefix 17.
Definition MicroQuotaRetentionDays : Z := 7.
Definition MicroQuotaPruneBudget : nat := 256.

Definition CoinAgeKey (address : string) : string := CoinAgePrefix +:+ address.
Definition MicroQuotaKey (day : Z) (address : string) : string :=
  MicroQuotaPrefix +:+ be64 day +:+ address.
Definition MicroQuotaDayBound (day : Z) : string := MicroQuotaPrefix +:+ be64 day.
Definition IsGenesisStoreKey (key : string) : bool :=
  (strlen MicroQuotaPrefix <? strlen key) && has_prefix MicroQuotaPrefix key.

(** what the module stores: its params, a holder's queue, or raw bytes *)
Inductive coin_val :=
| VParams (p : Params)
| VCoinAge (ca : CoinTypes.CoinAge)
| VBytes (bz : string).
Abbreviation CoinStore := (KVStore coin_val).

(** ** Params and queues *)
Definition GetParams (st : CoinStore) : outcome Params :=
  match st !! ParamsKey with
  | None => Ok DefaultParams
  | Some (VParams p) => Ok p
  | Some _ => Panic "unmarshal"
  end.
Definition SetParams `{AddressCodec} (p : Params) : M CoinStore unit :=
  lift (Params_Validate p);;
  modify (<[ParamsKey := VParams p]>).

Definition decode_CoinAge (v : coin_val) : outcome CoinTypes.CoinAge :=
  match v with VCoinAge ca => Ok ca | _ => Panic "unmarshal" end.
Definition GetCoinAge (st : CoinStore) (address : string) : outcome CoinTypes.CoinAge :=
  match st !! CoinAgeKey address with
  | None => Ok (mkCoinAge address [])
  | Some v => decode_CoinAge v
  end.
Definition SetCoinAge (ca : CoinTypes.CoinAge) (st : CoinStore) : CoinStore :=
  match ca_Lots ca with
  | [] => delete (CoinAgeKey (ca_Address ca)) st
  | _ => <[CoinAgeKey (ca_Address ca) := VCoinAge ca]> st
  end.
(** the queues [IterateCoinAges] hands to a callback that never stops *)
Definition IterateCoinAges (st : CoinStore) : outcome (list CoinTypes.CoinAge) :=
  ofold (λ acc kv, ca ← decode_CoinAge kv.2; Ok (acc ++ [ca]))
    (KVStorePrefixIterator st CoinAgePrefix) [].

Definition AddCoins (address : string) (amount acquiredAt : Z) : M CoinStore unit :=
  if negb (IsPositive amount) then mret tt else
  ca ← query (λ st, GetCoinAge st address);
  p ← query GetParams;
  lots ← lift (InsertLot (ca_Lots ca) (mkLot (Int_String amount) acquiredAt) (MaxCoinAgeLots p));
  modify (SetCoinAge (mkCoinAge address lots)).

Definition Keeper_SpendOldestFirst (ctx : Context) (address : string) (amount : Z)
    : M CoinStore (list CoinLot) :=
  params ← query GetParams;
  ca ← query (λ st, GetCoinAge st address);
  '(consumed, remaining) ← lift (SpendOldestFirst (ca_Lots ca) amount (BlockTime ctx)
                                   (CoinAgeThresholdSeconds params));
  modify (SetCoinAge (mkCoinAge address remaining));;
  mret consumed.

Definition EarlyRedeemPenalty (ctx : Context) (address : string) (redeemUphi : Z) : M CoinStore Z :=
  if negb (IsPositive redeemUphi) then mret 0 else
  consumed ← Keeper_SpendOldestFirst ctx address redeemUphi;
  p ← query GetParams;
  lift (PenaltyForLots consumed (BlockTime ctx) p).

(** ** The micro-exemption quota *)
Definition GetMicroUsed (st : CoinStore) (day : Z) (address : string) : outcome Z :=
  match st !! MicroQuotaKey day address with
  | None => Ok 0
  | Some (VBytes bz) => BigEndianToUint64 bz
  | Some _ => Panic "not a raw value"
  end.
Definition IncrMicroUsed (day : Z) (address : string) : M CoinStore unit :=
  n ← query (λ st, GetMicroUsed st day address);
  modify (<[MicroQuotaKey day address := VBytes (be64 (u64 (n + 1)))]>).

(** [BlockTime().Unix() / 86400], an [int64] division *)
Definition block_day (ctx : Context) : Z := Z.quot (BlockTime ctx) 86400.

Definition PruneMicroQuota (ctx : Context) (st : CoinStore) : CoinStore :=
  let cutoffDay := block_day ctx - MicroQuotaRetentionDays in
  if cutoffDay <=? 0 then st else
  let stale := firstn MicroQuotaPruneBudget
                 (map fst (Iterator st MicroQuotaPrefix (Some (MicroQuotaDayBound cutoffDay)))) in
  foldl (λ s key, delete key s) st stale.
Definition BeginBlock (ctx : Context) : M CoinStore unit := modify (PruneMicroQuota ctx).

(** ** Fees *)
Definition ComputeFeeSplit (st : CoinStore) (msgs : list sdk_Msg) : outcome FeeSplit :=
  params ← GetParams st;
  fee_split params msgs.
Definition ComputeRequiredFee (st : CoinStore) (msgs : list sdk_Msg) : outcome Z :=
  split ← ComputeFeeSplit st msgs;
  Ok (fs_Total split).

Section micro.
Context {I : Type} `{IdentityKeeper I}.

(** the identity keeper is optional: [None] is a nil interface *)
Definition microExemptionSubject (ident : option I) (address : string) : option string :=
  i ← ident;
  did ← SubjectDID i address;
  if bool_decide (did = "") then None else Some did.

Definition IsMicroExempt (ctx : Context) (ident : option I) (payer : string) (msgs : list sdk_Msg)
    (st : CoinStore) : outcome bool :=
  params ← GetParams st;
  if MicroDailyQuota params =? 0 then Ok false else
  match msgs with
  | [TransferMsg t] =>
      match NewIntFromString (mt_Amount t) with
      | None => Ok false
      | Some amt =>
          if MicroThresholdInt params <=? amt then Ok false else
          match microExemptionSubject ident payer with
          | None => Ok false
          | Some subject =>
              match microExemptionSubject ident (mt_To t) with
              | None => Ok false
              | Some _ =>
                  used ← GetMicroUsed st (block_day ctx) subject;
                  Ok (used <? MicroDailyQuota params)
              end
          end
      end
  | _ => Ok false
  end.

Definition ConsumeMicroExemption (ctx : Context) (ident : option I) (payer : string) : M CoinStore unit :=
  match microExemptionSubject ident payer with
  | None => mret tt
  | Some subject => IncrMicroUsed (block_day ctx) subject
  end.
End micro.

(** ** Message validation *)
Section messages.
Context `{AddressCodec}.
Definition MsgTransfer_ValidateBasic (m : MsgTransfer) : outcome unit :=
  err_if (negb (is_bech32 (mt_From m))) ErrInvalidAddress;;
  err_if (negb (is_bech32 (mt_To m))) ErrInvalidAddress;;
  err_if (bool_decide (mt_From m = mt_To m)) ErrSameAccount;;
  amt ← or_err (NewIntFromString (mt_Amount m)) ErrInvalidAmount;
  err_if (negb (IsPositive amt)) ErrInvalidAmount.
Definition MsgUpdateParams_ValidateBasic (m : MsgUpdateParams) : outcome unit :=
  err_if (negb (is_bech32 (mu_Authority m))) ErrInvalidAddress;;
  Params_Validate (mu_Params m).
Definition MsgWithdrawRevenue_ValidateBasic (m : MsgWithdrawRevenue) : outcome unit :=
  err_if (negb (is_bech32 (mw_Authority m))) ErrInvalidAddress;;
  amt ← or_err (NewIntFromString (mw_Amount m)) ErrInvalidAmount;
  err_if (negb (IsPositive amt)) ErrInvalidAmount.
End messages.

(** ** The message server *)
Record CoinState (B : Type) := mkCoinState {
  cs_bank : B; cs_store : CoinStore; cs_events : list Event }.
Arguments mkCoinState {B}. Arguments cs_bank {B}. Arguments cs_store {B}. Arguments cs_events {B}.

Section server.
Context {B : Type} `{BankKeeper B} `{AddressCodec}.
Context (authority : string).

Definition on_bank {A} : M B A → M (CoinState B) A :=
  zoom cs_bank (λ b s, mkCoinState b (cs_store s) (cs_events s)).
Definition on_store {A} : M CoinStore A → M (CoinState B) A :=
  zoom cs_store (λ st s, mkCoinState (cs_bank s) st (cs_events s)).
Definition EmitEvent (e : Event) : M (CoinState B) unit :=
  modify (λ s, mkCoinState (cs_bank s) (cs_store s) (cs_events s ++ [e])).

Definition Transfer (ctx : Context) (msg : MsgTransfer) : M (CoinState B) string :=
  from ← or_fail (AccAddressFromBech32 (mt_From msg)) ErrBech32;
  to ← or_fail (AccAddressFromBech32 (mt_To msg)) ErrBech32;
  amount ← or_fail (NewIntFromString (mt_Amount msg)) ErrInvalidAmount;
  fail_if (negb (IsPositive amount)) ErrInvalidAmount;;
  coins ← lift (CoinsOf amount);
  on_bank (SendCoins from to coins);;
  lots ← on_store (Keeper_SpendOldestFirst ctx (mt_From msg) amount);
  on_store (for_each lots (λ lot, AddCoins (mt_To msg) (LotAmount lot) (AcquiredAt lot)));;
  EmitEvent (mkEvent "transfer"
    [("from", mt_From msg); ("to", mt_To msg); ("amount", Int_String amount)]);;
  mret "0".

(** an error of the send is reported as [ErrInsufficientFunds] *)
Definition WithdrawRevenue (ctx : Context) (msg : MsgWithdrawRevenue) : M (CoinState B) unit :=
  fail_if (negb (bool_decide (mw_Authority msg = authority))) ErrInvalidSigner;;
  amount ← or_fail (NewIntFromString (mw_Amount msg)) ErrInvalidAmount;
  fail_if (negb (IsPositive amount)) ErrInvalidAmount;;
  params ← on_store (query GetParams);
  let dest := CompanyPayoutAddress params in
  fail_if (bool_decide (dest = "")) ErrNoPayoutAddress;;
  to ← or_fail (AccAddressFromBech32 dest) ErrInvalidAddress;
  coins ← lift (CoinsOf amount);
  sent ← attempt (on_bank (SendCoinsFromModuleToAccount RevenueAccountName to coins));
  match sent with inl _ => mret tt | inr _ => fail ErrInsufficientFunds end;;
  EmitEvent (mkEvent "revenue_withdrawn" [("to", dest); ("amount", Int_String amount)]).

Definition UpdateParams (ctx : Context) (msg : MsgUpdateParams) : M (CoinState B) unit :=
  fail_if (negb (bool_decide (mu_Authority msg = authority))) ErrInvalidSigner;;
  on_store (SetParams (mu_Params msg)).
End server.

(** ** Keys *)
Lemma CoinAgeKey_inj a b : CoinAgeKey a = CoinAgeKey b → a = b.
Proof. apply str_app_inj_l. Qed.
Lemma CoinAgeKey_prefix a : has_prefix CoinAgePrefix (CoinAgeKey a) = true.
Proof. apply has_prefix_app. Qed.
Lemma ParamsKey_CoinAgeKey a : ParamsKey ≠ CoinAgeKey a.
Proof. by vm_compute. Qed.
Lemma ParamsKey_MicroQuotaKey d a : ParamsKey ≠ MicroQuotaKey d a.
Proof. intros H. apply (f_equal (has_prefix MicroQuotaPrefix)) in H. unfold MicroQuotaKey in H. by rewrite has_prefix_app in H. Qed.
Lemma CoinAgeKey_MicroQuotaKey a d b : CoinAgeKey a ≠ MicroQuotaKey d b.
Proof. intros H. apply (f_equal (has_prefix CoinAgePrefix)) in H. by rewrite CoinAgeKey_prefix in H. Qed.
Lemma MicroQuotaKey_inj d d' a b :
  0 ≤ d < 2 ^ 64 → 0 ≤ d' < 2 ^ 64 → MicroQuotaKey d a = MicroQuotaKey d' b → d = d' ∧ a = b.
Proof.
  intros Hd Hd' H. apply str_app_inj_l in H.
  apply str_app_inj in H as [H ->]; [|unfold be64; by rewrite !be_length].
  split; [by apply be64_inj|done].
Qed.
#[export] Hint Resolve ParamsKey_CoinAgeKey ParamsKey_MicroQuotaKey CoinAgeKey_MicroQuotaKey : phi.

(** ** The store invariant *)

(** a queue the FIFO operations are correct on *)
Definition queue_ok (lots : list CoinLot) : Prop :=
  oldest_first lots ∧ sane_lots lots ∧ Z.of_nat (length lots) < 2 ^ 31.

(** the params record is validated, and every queue is filed under its holder's key,
    is not empty, and satisfies [queue_ok] *)
Record coin_wf `{AddressCodec} (st : CoinStore) : Prop := {
  wf_params : ∃ p, GetParams st = Ok p ∧ Params_Validate p = Ok tt ∧ params_typed p;
  wf_ages : ∀ k v, st !! k = Some v → has_prefix CoinAgePrefix k = true →
    ∃ ca, v = VCoinAge ca ∧ k = CoinAgeKey (ca_Address ca) ∧ ca_Lots ca ≠ [] ∧ queue_ok (ca_Lots ca);
}.

(** the queue of a holder, and its value *)
Definition lots_of (st : CoinStore) (a : string) : list CoinLot :=
  match GetCoinAge st a with Ok ca => ca_Lots ca | _ => [] end.
Definition tracked (st : CoinStore) (a : string) : Z := value (lots_of st a).

Lemma GetParams_frame st st' : st' !! ParamsKey = st !! ParamsKey → GetParams st' = GetParams st.
Proof. unfold GetParams. by intros ->. Qed.
Lemma GetParams_insert st p : GetParams (<[ParamsKey:=VParams p]> st) = Ok p.
Proof. unfold GetParams. by simplify_map_eq. Qed.
Lemma lots_of_frame st st' a : st' !! CoinAgeKey a = st !! CoinAgeKey a → lots_of st' a = lots_of st a.
Proof. unfold lots_of, GetCoinAge. by intros ->. Qed.

Lemma SetCoinAge_other a lots st k :
  k ≠ CoinAgeKey a → SetCoinAge (mkCoinAge a lots) st !! k = st !! k.
Proof. intros Hk. unfold SetCoinAge. simpl. by destruct lots; simplify_map_eq. Qed.
Lemma lots_of_SetCoinAge a lots st : lots_of (SetCoinAge (mkCoinAge a lots) st) a = lots.
Proof.
  unfold lots_of, GetCoinAge, SetCoinAge. simpl. by destruct lots; simplify_map_eq.
Qed.

Section invariant.
Context `{AddressCodec}.
Implicit Types st : CoinStore.

Lemma max_lots_bounds p : Params_Validate p = Ok tt → 2 ≤ MaxCoinAgeLots p ≤ 1024.
Proof.
  unfold Params_Validate. intros Hv. go_inv. bool_prop.
  unfold MinCoinAgeLots, MaxCoinAgeLotsCeiling in *. lia.
Qed.

Lemma GetCoinAge_wf st a : coin_wf st → ∃ ca, GetCoinAge st a = Ok ca ∧ queue_ok (ca_Lots ca).
Proof.
  intros Hwf. unfold GetCoinAge. destruct (st !! CoinAgeKey a) as [v|] eqn:Hv.
  - destruct (wf_ages _ Hwf _ _ Hv (CoinAgeKey_prefix a)) as (ca & -> & _ & _ & Hq). simpl. eauto.
  - eexists. split; [done|]. split_and!; simpl; [constructor|constructor|lia].
Qed.
Lemma lots_of_wf st a : coin_wf st → queue_ok (lots_of st a).
Proof. intros Hwf. unfold lots_of. by destruct (GetCoinAge_wf st a Hwf) as (ca & -> & Hq). Qed.

Lemma SetCoinAge_wf st a lots : coin_wf st → queue_ok lots → coin_wf (SetCoinAge (mkCoinAge a lots) st).
Proof.
  intros Hwf Hq. constructor.
  - destruct (wf_params _ Hwf) as (p & Hp & Hv). exists p. split; [|done].
    rewrite <- Hp. apply GetParams_frame, SetCoinAge_other. auto with phi.
  - intros k v Hk Hpre. unfold SetCoinAge in Hk. simpl in Hk.
    destruct lots as [|l lots].
    + apply lookup_delete_Some in Hk as [_ Hk]. by eapply wf_ages.
    + apply lookup_insert_Some in Hk as [[<- <-]|[_ Hk]]; [|by eapply wf_ages].
      eexists. split_and!; done.
Qed.

(** crediting a lot always succeeds and adds exactly its amount *)
Lemma AddCoins_run st a amt t :
  coin_wf st → 0 ≤ amt → sane_time t → tracked st a + amt < 2 ^ 190 →
  ∃ st', AddCoins a amt t st = (Ok tt, st') ∧ coin_wf st' ∧
    tracked st' a = tracked st a + amt ∧ ∀ k, k ≠ CoinAgeKey a → st' !! k = st !! k.
Proof.
  intros Hwf Ha Ht Hv. unfold AddCoins, IsPositive.
  destruct (Z.ltb_spec 0 amt) as [Hp|Hp]; cbn [negb].
  2: { eexists. split_and!; try done. lia. }
  destruct (GetCoinAge_wf st a Hwf) as (ca & Hca & (Hs & Hsane & Hlen)).
  destruct (wf_params _ Hwf) as (p & Hp' & Hval & _). apply max_lots_bounds in Hval.
  pose proof (value_nonneg (lots_of st a)) as Hnn.
  unfold tracked, lots_of in Hv, Hnn |- *. rewrite Hca in Hv, Hnn.
  pose proof (LotAmount_String amt t ltac:(lia)) as Hla.
  destruct (InsertLot_spec (ca_Lots ca) (mkLot (Int_String amt) t) (MaxCoinAgeLots p))
    as (out & Ho & Hov & Hos & Hosane & _ & Hol & _); [done|done|done|lia|done|lia|by rewrite Hla|].
  exists (SetCoinAge (mkCoinAge a out) st). split_and!.
  - unfold mbind, M_bind, query, lift. rewrite Hca, Hp', Ho. done.
  - apply SetCoinAge_wf; [done|]. split_and!; done.
  - fold (lots_of (SetCoinAge (mkCoinAge a out) st) a). rewrite lots_of_SetCoinAge, Hca, Hov, Hla. done.
  - intros k Hk. by apply SetCoinAge_other.
Qed.

Lemma AddCoins_each st a lots :
  coin_wf st → sane_lots lots → tracked st a + value lots < 2 ^ 190 →
  ∃ st', for_each lots (λ lot, AddCoins a (LotAmount lot) (AcquiredAt lot)) st = (Ok tt, st') ∧
    coin_wf st' ∧ tracked st' a = tracked st a + value lots ∧
    ∀ k, k ≠ CoinAgeKey a → st' !! k = st !! k.
Proof.
  revert st. induction lots as [|l lots IH]; intros st Hwf Hs Hv.
  { exists st. split_and!; try done. unfold value. simpl. lia. }
  apply Forall_cons in Hs as [Hl Hs]. rewrite value_cons in *.
  pose proof (LotAmount_range l). pose proof (value_nonneg lots).
  destruct (AddCoins_run st a (LotAmount l) (AcquiredAt l)) as (st1 & Hr & Hwf1 & Ht1 & Hf1); [done|lia|done|lia|].
  destruct (IH st1 Hwf1 Hs) as (st2 & Hr2 & Hwf2 & Ht2 & Hf2); [lia|].
  exists st2. split_and!; [|done|lia|intros k Hk; by rewrite Hf2, Hf1].
  cbn [for_each]. unfold mbind, M_bind. by rewrite Hr.
Qed.

(** the governed threshold does not exceed the age of the chain *)
Definition threshold_ok (ctx : Context) (st : CoinStore) : Prop :=
  sane_time (BlockTime ctx) ∧
  ∀ p, GetParams st = Ok p → CoinAgeThresholdSeconds p ≤ BlockTime ctx.

Lemma threshold_nonneg p : Params_Validate p = Ok tt → 0 ≤ CoinAgeThresholdSeconds p.
Proof. unfold Params_Validate. intros Hv. go_inv. by bool_prop. Qed.

Lemma Keeper_Spend_run ctx st a amt :
  coin_wf st → threshold_ok ctx st → 0 ≤ amt < 2 ^ 256 →
  ∃ consumed st', Keeper_SpendOldestFirst ctx a amt st = (Ok consumed, st') ∧ coin_wf st' ∧
    value consumed = amt ∧ sane_lots consumed ∧
    tracked st' a = Z.max 0 (tracked st a - amt) ∧ ∀ k, k ≠ CoinAgeKey a → st' !! k = st !! k.
Proof.
  intros Hwf [Hnow Hthr] Ha. destruct (GetCoinAge_wf st a Hwf) as (ca & Hca & (Hs & Hsane & Hlen)).
  destruct (wf_params _ Hwf) as (p & Hp & Hval & _). apply threshold_nonneg in Hval. specialize (Hthr p Hp).
  unfold sane_time in Hnow.
  destruct (SpendOldestFirst_spec (ca_Lots ca) amt (BlockTime ctx) (CoinAgeThresholdSeconds p) Ha)
    as (c & r & Hsp & Hvc & Hvr & Hlr & Hin & Hor).
  rewrite i64_id in Hin by lia.
  assert (∀ l, l ∈ c ++ r → sane_time (AcquiredAt l)) as Hst.
  { intros l Hl. destruct (Hin (AcquiredAt l)) as [H1| ->]; [by apply list_elem_of_fmap_2| |unfold sane_time; lia].
    apply list_elem_of_fmap in H1 as (y & -> & Hy). unfold sane_lots in Hsane. rewrite Forall_forall in Hsane. auto. }
  exists c, (SetCoinAge (mkCoinAge a r) st). split_and!.
  - unfold Keeper_SpendOldestFirst, mbind, M_bind, query, lift. rewrite Hp, Hca, Hsp. done.
  - apply SetCoinAge_wf; [done|]. split_and!; [auto| |lia].
    apply Forall_forall. intros l Hl. apply Hst, elem_of_app. auto.
  - done.
  - apply Forall_forall. intros l Hl. apply Hst, elem_of_app. auto.
  - unfold tracked. rewrite lots_of_SetCoinAge, Hvr. unfold lots_of. by rewrite Hca.
  - intros k Hk. by apply SetCoinAge_other.
Qed.
End invariant.

(** ** What the handlers do *)
Section handlers.
Context {B : Type} `{BankLaws B} `{AddressCodec}.
Implicit Types s : CoinState B.

(** A transfer moves the coin and its age.  Whenever the bank accepts the send,
    [Transfer] succeeds: the balances move by the amount and the supply is unchanged,
    the sender's tracked value falls by the amount (to zero when untracked coin is
    spent), the recipient's rises by exactly the amount, no other record of the
    store changes, and the store invariant is preserved. *)
Theorem transfer_moves_coin_and_age ctx msg s from to amount b' :
  coin_wf (cs_store s) → threshold_ok ctx (cs_store s) →
  AccAddressFromBech32 (mt_From msg) = Some from → AccAddressFromBech32 (mt_To msg) = Some to →
  NewIntFromString (mt_Amount msg) = Some amount → 0 < amount →
  mt_From msg ≠ mt_To msg → tracked (cs_store s) (mt_To msg) + amount < 2 ^ 190 →
  SendCoins from to amount (cs_bank s) = (Ok tt, b') →
  ∃ s', Transfer ctx msg s = (Ok "0", s') ∧ cs_bank s' = b' ∧ coin_wf (cs_store s') ∧
    (GetSupply b' = GetSupply (cs_bank s) ∧
     ∀ x, GetBalance b' x = GetBalance (cs_bank s) x - delta x from amount + delta x to amount) ∧
    tracked (cs_store s') (mt_From msg) = Z.max 0 (tracked (cs_store s) (mt_From msg) - amount) ∧
    tracked (cs_store s') (mt_To msg) = tracked (cs_store s) (mt_To msg) + amount ∧
    ∀ k, k ≠ CoinAgeKey (mt_From msg) → k ≠ CoinAgeKey (mt_To msg) →
         cs_store s' !! k = cs_store s !! k.
Proof.
  intros Hwf Hthr Hf Ht Ha Hpos Hne Hsm Hsend. apply NewIntFromString_range in Ha as Hr.
  unfold in_range in Hr.
  destruct (Keeper_Spend_run ctx (cs_store s) (mt_From msg) amount Hwf Hthr ltac:(lia))
    as (lots & st1 & Hsp & Hwf1 & Hv1 & Hs1 & Ht1 & Hfr1).
  assert (lots_of st1 (mt_To msg) = lots_of (cs_store s) (mt_To msg)) as Hto.
  { apply lots_of_frame, Hfr1. intros Heq%CoinAgeKey_inj. congruence. }
  destruct (AddCoins_each st1 (mt_To msg) lots Hwf1 Hs1) as (st2 & Had & Hwf2 & Ht2 & Hfr2);
    [unfold tracked in *; rewrite Hto; lia|].
  eexists. split.
  - unfold Transfer. rewrite Hf, Ht, Ha. cbn [or_fail].
    do 3 (erewrite run_bind by done). unfold IsPositive. rewrite (proj2 (Z.ltb_lt 0 amount)) by done.
    erewrite run_bind by done. unfold CoinsOf. rewrite (proj2 (Z.ltb_ge amount 0)) by lia.
    erewrite run_bind by done. erewrite run_bind by by unfold on_bank, zoom; rewrite Hsend.
    erewrite run_bind by by unfold on_store, zoom; simpl; rewrite Hsp.
    erewrite run_bind by by unfold on_store, zoom; simpl; rewrite Had. done.
  - simpl. apply send_law in Hsend; [|lia]. split_and!; try done; try apply Hsend.
    + rewrite <- Ht1. unfold tracked. f_equal. apply lots_of_frame, Hfr2.
      intros Heq%CoinAgeKey_inj. congruence.
    + rewrite Ht2. unfold tracked. rewrite Hto, Hv1. done.
    + intros k Hk1 Hk2. by rewrite Hfr2, Hfr1.
Qed.

(** revenue has one exit.  A successful withdrawal was signed by the governance
    authority, pays exactly the requested amount out of the keyless revenue account
    to the governed payout address, leaves the supply and the store as they were. *)
Theorem withdraw_revenue_spec authority ctx msg s s' :
  WithdrawRevenue authority ctx msg s = (Ok tt, s') →
  ∃ p to amount, mw_Authority msg = authority ∧ GetParams (cs_store s) = Ok p ∧
    CompanyPayoutAddress p ≠ "" ∧ AccAddressFromBech32 (CompanyPayoutAddress p) = Some to ∧
    NewIntFromString (mw_Amount msg) = Some amount ∧ 0 < amount ∧
    BlockedAddr (cs_bank s) to = false ∧ cs_store s' = cs_store s ∧
    GetSupply (cs_bank s') = GetSupply (cs_bank s) ∧
    ∀ x, GetBalance (cs_bank s') x =
      GetBalance (cs_bank s) x - delta x (ModuleAddress RevenueAccountName) amount + delta x to amount.
Proof.
  unfold WithdrawRevenue, on_store, on_bank, EmitEvent, CoinsOf. intros Hrun. go_inv.
  match goal with x : (unit + error)%type |- _ => destruct x as [[]|] end; go_cases.
  bool_prop. rename select (SendCoinsFromModuleToAccount _ _ _ _ = _) into Hs.
  unfold SendCoinsFromModuleToAccount in Hs. cbn [cs_bank cs_store] in *.
  destruct (BlockedAddr _ _) eqn:Hb; [done|]. apply send_law in Hs as [Hsup Hbal]; [|lia].
  int_inv. eauto 15.
Qed.

(** only the authority changes the parameters, and only to validated ones; the
    store invariant survives the change. *)
Theorem update_params_spec authority ctx msg s s' :
  params_typed (mu_Params msg) → coin_wf (cs_store s) →
  UpdateParams authority ctx msg s = (Ok tt, s') →
  mu_Authority msg = authority ∧ Params_Validate (mu_Params msg) = Ok tt ∧
  GetParams (cs_store s') = Ok (mu_Params msg) ∧ coin_wf (cs_store s') ∧ cs_bank s' = cs_bank s.
Proof.
  intros Ht Hwf. unfold UpdateParams, on_store, SetParams. intros Hrun. go_inv. bool_prop.
  repeat match goal with u : unit |- _ => destruct u end.
  split_and!; try done; [apply GetParams_insert|]. constructor; [eauto using GetParams_insert|]. intros k v Hk Hp. simpl in Hk.
  apply lookup_insert_Some in Hk as [[<- <-]|[_ Hk]]; [done|]. by eapply wf_ages.
Qed.
End handlers.

(** ** The exit penalty *)
Section penalty.
Context `{AddressCodec}.

Lemma penalty_fold_total p now lots acc :
  0 ≤ YoungPenaltyBps p < 2 ^ 32 → 0 ≤ OldPenaltyBps p < 2 ^ 32 →
  0 ≤ acc → acc + value lots * 2 ^ 32 < 2 ^ 256 →
  ∃ r, ofold (λ penalty l,
    x ← LotAmount l *! lot_bps p now l;
    y ← x /! BpsDenominator;
    penalty +! y) lots acc = Ok r.
Proof.
  intros Hy Ho. revert acc. induction lots as [|l ls IH]; intros acc Ha Hv; simpl; [eauto|].
  rewrite value_cons in Hv. pose proof (LotAmount_range l). pose proof (value_nonneg ls).
  pose proof (lot_bps_range p now l ltac:(lia) ltac:(lia)) as Hb. unfold max_bps in Hb.
  unfold Int_Mul. rewrite Int_checked_in by (unfold in_range; nia). cbn [mbind outcome_bind].
  unfold Int_Quo, BpsDenominator. cbn [mbind outcome_bind Z.eqb].
  rewrite Z.quot_div_nonneg by nia.
  pose proof (Z.div_pos (LotAmount l * lot_bps p now l) 10000 ltac:(nia) ltac:(lia)).
  pose proof (Z.div_le_upper_bound (LotAmount l * lot_bps p now l) 10000
                (LotAmount l * 2 ^ 32) ltac:(lia) ltac:(nia)).
  unfold Int_Add. rewrite Int_checked_in by (unfold in_range; lia). cbn [mbind outcome_bind].
  apply IH; lia.
Qed.

(** the two governed rates leave at least a tenth of a redemption *)
Lemma penalty_rates p : params_typed p → Params_Validate p = Ok tt →
  YoungPenaltyBps p + OldPenaltyBps p < 9000.
Proof.
  intros (Hy & Ho & _) Hv. unfold Params_Validate in Hv. go_inv. bool_prop.
  rename select (u64 _ < _) into Hb. unfold BpsDenominator, MaxProtocolFeeReserveBps in Hb.
  rewrite u64_id in Hb by lia. lia.
Qed.

Lemma EarlyRedeemPenalty_run ctx st a amt :
  coin_wf st → threshold_ok ctx st → 0 ≤ amt < 2 ^ 190 →
  ∃ pen st', EarlyRedeemPenalty ctx a amt st = (Ok pen, st') ∧ coin_wf st' ∧
    0 ≤ pen ∧ pen * 10 ≤ amt * 9 ∧
    tracked st' a = Z.max 0 (tracked st a - amt) ∧ ∀ k, k ≠ CoinAgeKey a → st' !! k = st !! k.
Proof.
  intros Hwf Hthr Ha. unfold EarlyRedeemPenalty, IsPositive.
  destruct (Z.ltb_spec 0 amt) as [Hp|Hp]; cbn [negb].
  2: { assert (amt = 0) as -> by lia. eexists _, _. split_and!; try done; try lia.
       pose proof (value_nonneg (lots_of st a)). unfold tracked. lia. }
  destruct (Keeper_Spend_run ctx st a amt Hwf Hthr ltac:(lia)) as (c & st1 & Hr & Hwf1 & Hv & _ & Ht & Hf).
  destruct (wf_params _ Hwf1) as (p & Hg & Hval & Hty).
  pose proof (penalty_rates p Hty Hval). destruct Hty as (Hy & Ho & _).
  destruct (penalty_fold_total p (BlockTime ctx) c 0) as [pen Hpen]; [done..|lia|].
  exists pen, st1. split_and!; try done.
  - erewrite run_bind by exact Hr. unfold mbind, M_bind, query, lift. rewrite Hg.
    unfold PenaltyForLots. by rewrite Hpen.
  - apply penalty_fold_spec in Hpen; lia.
  - apply penalty_fold_spec in Hpen as [_ Hm]; [|lia..]. unfold BpsDenominator, max_bps in Hm. nia.
Qed.

(** The exit penalty always leaves value.  On a well-formed store
    [EarlyRedeemPenalty] returns for every amount below 2^190; the penalty is not
    negative and at most nine tenths of the amount, the holder's tracked value falls
    by the amount redeemed, and no other record changes. *)
Theorem early_redeem_penalty_spec ctx st a amt :
  coin_wf st → threshold_ok ctx st → 0 ≤ amt < 2 ^ 190 →
  ∃ pen st', EarlyRedeemPenalty ctx a amt st = (Ok pen, st') ∧ coin_wf st' ∧
    0 ≤ pen ∧ pen * 10 ≤ amt * 9 ∧
    tracked st' a = Z.max 0 (tracked st a - amt) ∧ ∀ k, k ≠ CoinAgeKey a → st' !! k = st !! k.
Proof. apply EarlyRedeemPenalty_run. Qed.

(** under a validated split table a fee is fully routed *)
Lemma ComputeFeeSplit_balanced st msgs out : coin_wf st → ComputeFeeSplit st msgs = Ok out → split_balanced out.
Proof.
  intros Hwf H1. destruct (wf_params _ Hwf) as (p & Hg & Hval & (_ & _ & _ & _ & Hs)).
  unfold ComputeFeeSplit in H1. rewrite Hg in H1. cbn in H1. eapply fee_split_balanced; [|exact H1].
  unfold Params_Validate in Hval. go_inv.
  repeat match goal with u : unit |- _ => destruct u end. by eapply validate_splits_bps.
Qed.
End penalty.

(** ** The daily quota *)
Section quota.
Context {I : Type} `{IdentityKeeper I}.

Lemma GetMicroUsed_range st day a n : GetMicroUsed st day a = Ok n → 0 ≤ n < 2 ^ 64.
Proof.
  unfold GetMicroUsed. repeat case_match; intros; simplify_eq; [|lia]. by eapply BigEndianToUint64_range.
Qed.

(** The micro-exemption is what it promises.  It is granted only to a
    transaction of exactly one transfer below the governed threshold between two
    identified subjects, whose payer has quota left today; consuming it then
    succeeds, counts one more use for the payer's DID and day, which stays within
    the quota, and changes no other record. *)
Theorem micro_exemption_quota ctx ident payer msgs st :
  IsMicroExempt ctx ident payer msgs st = Ok true →
  (∀ p, GetParams st = Ok p → MicroDailyQuota p < 2 ^ 64) →
  ∃ p t amt did st' used,
    GetParams st = Ok p ∧ msgs = [TransferMsg t] ∧ NewIntFromString (mt_Amount t) = Some amt ∧
    amt < MicroThresholdInt p ∧ microExemptionSubject ident payer = Some did ∧
    is_Some (microExemptionSubject ident (mt_To t)) ∧
    GetMicroUsed st (block_day ctx) did = Ok used ∧
    ConsumeMicroExemption ctx ident payer st = (Ok tt, st') ∧
    GetMicroUsed st' (block_day ctx) did = Ok (used + 1) ∧ used + 1 ≤ MicroDailyQuota p ∧
    ∀ k, k ≠ MicroQuotaKey (block_day ctx) did → st' !! k = st !! k.
Proof.
  intros H1 Hq. unfold IsMicroExempt in H1. go_inv.
  destruct (MicroDailyQuota _ =? 0) eqn:Hz; [done|].
  destruct msgs as [|[t| |] []]; try done.
  destruct (NewIntFromString (mt_Amount t)) as [amt|] eqn:Ha; [|done].
  destruct (MicroThresholdInt _ <=? amt) eqn:Hth; [done|].
  destruct (microExemptionSubject ident payer) as [did|] eqn:Hd; [|done].
  destruct (microExemptionSubject ident (mt_To t)) as [did'|] eqn:Hd'; [|done]. go_inv. bool_prop.
  rename select (GetMicroUsed _ _ _ = _) into Hu.
  rename select (GetParams st = _) into Hp. apply GetMicroUsed_range in Hu as Hr. specialize (Hq _ Hp).
  eexists _, t, amt, did, (<[MicroQuotaKey (block_day ctx) did := _]> st), _. split_and!; try done; try lia.
  - unfold ConsumeMicroExemption, IncrMicroUsed. rewrite Hd. unfold mbind, M_bind, query. by rewrite Hu.
  - unfold GetMicroUsed at 1. simplify_map_eq. by rewrite BigEndianToUint64_be64, !u64_id by (rewrite ?u64_id; lia).
  - intros k Hk. by simplify_map_eq.
Qed.
End quota.

(** ** Pruning *)

(** the keys a scan of days before [day] meets *)
Lemma quota_range_day day d a :
  0 ≤ day < 2 ^ 64 → 0 ≤ d < 2 ^ 64 →
  in_key_range MicroQuotaPrefix (Some (MicroQuotaDayBound day)) (MicroQuotaKey d a) = (d <? day).
Proof. apply day_range. Qed.
Lemma quota_range_prefix day k :
  in_key_range MicroQuotaPrefix (Some (MicroQuotaDayBound day)) k = true →
  has_prefix MicroQuotaPrefix k = true.
Proof. apply in_range_prefix. Qed.

(** pruning removes only expired quota.  It never touches params, a queue or a
    quota key of the last seven days; whatever disappears is a quota key below the
    cutoff; and when no more than the budget is expired, none of it is left. *)
Theorem prune_micro_quota_spec ctx st :
  0 ≤ BlockTime ctx < 2 ^ 62 →
  let cutoff := block_day ctx - MicroQuotaRetentionDays in
  let expired k := in_key_range MicroQuotaPrefix (Some (MicroQuotaDayBound cutoff)) k in
  let st' := PruneMicroQuota ctx st in
  (∀ k, has_prefix MicroQuotaPrefix k = false → st' !! k = st !! k) ∧
  (∀ d a, cutoff ≤ d → 0 ≤ d < 2 ^ 62 → st' !! MicroQuotaKey d a = st !! MicroQuotaKey d a) ∧
  (∀ k, st' !! k = st !! k ∨ st' !! k = None ∧ expired k = true) ∧
  (0 < cutoff →
   (length (Iterator st MicroQuotaPrefix (Some (MicroQuotaDayBound cutoff))) ≤ MicroQuotaPruneBudget)%nat →
   ∀ d a, 0 ≤ d < cutoff → st' !! MicroQuotaKey d a = None).
Proof.
  intros Ht cutoff expired st'.
  assert (0 ≤ block_day ctx < 2 ^ 62) as Hbd.
  { unfold block_day. rewrite Z.quot_div_nonneg by lia. split; [apply Z.div_pos; lia|].
    apply Z.div_lt_upper_bound; lia. }
  assert (cutoff ≤ block_day ctx) as Hcb by (unfold cutoff, MicroQuotaRetentionDays; lia).
  assert (∀ k, st' !! k = st !! k ∨ st' !! k = None ∧ 0 < cutoff ∧ expired k = true) as Hall.
  { intros k. unfold st', PruneMicroQuota. fold cutoff. destruct (Z.leb_spec cutoff 0); [by left|].
    rewrite foldl_delete_lookup. case_bool_decide as Hin; [|by left]. right.
    apply elem_of_take in Hin as (i & Hin & _). apply list_elem_of_lookup_2 in Hin.
    apply list_elem_of_fmap in Hin as ([k' v] & -> & Hin).
    apply elem_of_Iterator in Hin as [_ Hin]. done. }
  split_and!.
  - intros k Hk. destruct (Hall k) as [?|(_ & _ & Hr)]; [done|]. apply quota_range_prefix in Hr. congruence.
  - intros d a Hd Hd'. destruct (Hall (MicroQuotaKey d a)) as [?|(_ & ? & Hr)]; [done|].
    unfold expired in Hr. rewrite quota_range_day in Hr by lia. bool_prop. lia.
  - intros k. destruct (Hall k) as [?|(? & _ & ?)]; auto.
  - intros Hc Hlen d a Hd. unfold st', PruneMicroQuota. fold cutoff.
    destruct (Z.leb_spec cutoff 0); [lia|]. rewrite foldl_delete_lookup, firstn_all2 by by rewrite length_map.
    case_bool_decide as Hin; [done|]. apply eq_None_not_Some. intros [v Hv]. apply Hin.
    apply list_elem_of_fmap. exists (MicroQuotaKey d a, v). split; [done|]. apply elem_of_Iterator.
    split; [done|]. rewrite quota_range_day by lia. apply Z.ltb_lt. lia.
Qed.

(** ** Concrete states for the theorems above *)
Definition demo_store : CoinStore :=
  {[CoinAgeKey "alice" := VCoinAge (mkCoinAge "alice" [mkLot "60000" 100; mkLot "50000" 900])]}.
Definition demo_ledger : Ledger.ledger :=
  Ledger.mkLedger {["alice" := 200000; Ledger.moduleAddress RevenueAccountName := 70]} 200070 ∅ ∅ ∅ ∅.
Definition demo_state : CoinState Ledger.ledger := mkCoinState demo_ledger demo_store [].
Definition demo_ctx : Context := mkContext 1700000000 10 "phi-1".

Lemma default_params_ok `{AddressCodec} : Params_Validate DefaultParams = Ok tt ∧ params_typed DefaultParams.
Proof. split; [by vm_compute|]. unfold params_typed. simpl. split_and!; try done. by repeat constructor. Qed.
Lemma demo_store_wf : @coin_wf plain_codec demo_store.
Proof.
  constructor.
  - exists DefaultParams. split; [by vm_compute|]. apply default_params_ok.
  - intros k v Hk _. unfold demo_store in Hk. apply lookup_singleton_Some in Hk as [<- <-].
    eexists. split_and!; [done..|]. split_and!; repeat constructor; simpl; lia.
Qed.
Lemma demo_threshold : threshold_ok demo_ctx demo_store.
Proof.
  split; [by unfold sane_time; simpl|]. intros p Hp.
  assert (p = DefaultParams) as -> by (vm_compute in Hp |- *; congruence). by vm_compute.
Qed.

Lemma transfer_witness :
  ∃ s', @Transfer _ _ plain_codec demo_ctx (mkMsgTransfer "alice" "bob" "100000") demo_state = (Ok "0", s') ∧
  tracked (cs_store s') "bob" = tracked demo_store "bob" + 100000.
Proof.
  destruct (@transfer_moves_coin_and_age _ _ _ plain_codec demo_ctx (mkMsgTransfer "alice" "bob" "100000")
    demo_state "alice" "bob" 100000
    (snd (SendCoins "alice" "bob" 100000 demo_ledger))) as (s' & Hr & _ & _ & _ & _ & Ht & _).
  - apply demo_store_wf.
  - apply demo_threshold.
  - reflexivity.
  - reflexivity.
  - reflexivity.
  - lia.
  - discriminate.
  - vm_compute. reflexivity.
  - vm_compute. reflexivity.
  - exists s'. split; [exact Hr|exact Ht].
Defined.

Definition demo_payout : Params :=
  mkParams [] "5000" "50000" 10 600 100 20 [] "company" "" 5 64.
Definition demo_payout_state : CoinState Ledger.ledger :=
  mkCoinState demo_ledger {[ParamsKey := VParams demo_payout]} [].
Definition demo_withdraw : M (CoinState Ledger.ledger) unit :=
  @WithdrawRevenue _ Ledger.ledger_bank plain_codec "gov" demo_ctx (mkMsgWithdrawRevenue "gov" "70").
Lemma withdraw_revenue_witness :
  GetSupply (cs_bank (snd (demo_withdraw demo_payout_state))) = 200070.
Proof.
  assert (demo_withdraw demo_payout_state = (Ok tt, snd (demo_withdraw demo_payout_state))) as Hr
    by (vm_compute; reflexivity).
  destruct (withdraw_revenue_spec "gov" demo_ctx (mkMsgWithdrawRevenue "gov" "70") demo_payout_state _ Hr) as (p & to & amt & _ & _ & _ & _ & _ & _ & _ & _ & Hs & _).
  exact Hs.
Defined.
Definition demo_update : M (CoinState Ledger.ledger) unit :=
  @UpdateParams _ plain_codec "gov" demo_ctx (mkMsgUpdateParams "gov" demo_payout).
Lemma update_params_witness :
  GetParams (cs_store (snd (demo_update demo_state))) = Ok demo_payout.
Proof.
  assert (demo_update demo_state = (Ok tt, snd (demo_update demo_state))) as Hr
    by (vm_compute; reflexivity).
  assert (params_typed demo_payout) as Ht by (unfold params_typed; simpl; split_and!; done).
  exact (proj1 (proj2 (proj2 (update_params_spec "gov" demo_ctx
    (mkMsgUpdateParams "gov" demo_payout) demo_state _ Ht demo_store_wf Hr)))).
Defined.

Lemma early_redeem_penalty_witness :
  ∃ pen st', EarlyRedeemPenalty demo_ctx "alice" 110000 demo_store = (Ok pen, st') ∧ pen * 10 ≤ 110000 * 9.
Proof.
  destruct (@early_redeem_penalty_spec plain_codec demo_ctx demo_store "alice" 110000
    demo_store_wf demo_threshold) as (pen & st' & Hr & _ & _ & Hb & _); [lia|eauto].
Defined.
(** every address is its own subject *)
Definition demo_identity : IdentityKeeper unit :=
  {| SubjectDID _ a := Some ("did:phi:" +:+ a); BootstrapPhase _ _ := false |}.
Lemma micro_exemption_witness :
  ∃ st', @ConsumeMicroExemption _ demo_identity demo_ctx (Some tt) "alice" demo_store = (Ok tt, st') ∧
         GetMicroUsed st' (block_day demo_ctx) "did:phi:alice" = Ok 1.
Proof.
  destruct (@micro_exemption_quota _ demo_identity demo_ctx (Some tt) "alice"
    [TransferMsg (mkMsgTransfer "alice" "bob" "7")] demo_store)
    as (p & t & amt & did & st' & used & _ & _ & _ & _ & Hd & _ & Hu & Hc & Hu' & _).
  - vm_compute. reflexivity.
  - intros p Hp. assert (p = DefaultParams) as -> by (vm_compute in Hp |- *; congruence). by vm_compute.
  - exists st'. split; [exact Hc|]. vm_compute in Hd. injection Hd as <-.
    vm_compute in Hu. injection Hu as <-. exact Hu'.
Defined.
Lemma prune_micro_quota_witness :
  PruneMicroQuota demo_ctx (<[MicroQuotaKey 19675 "did" := VBytes (be64 3)]> demo_store)
    !! MicroQuotaKey 19675 "did" = Some (VBytes (be64 3)).
Proof.
  destruct (prune_micro_quota_spec demo_ctx (<[MicroQuotaKey 19675 "did" := VBytes (be64 3)]> demo_store))
    as (_ & Hk & _); [by simpl|].
  rewrite Hk; [by rewrite lookup_insert_eq|vm_compute; discriminate|lia].
Defined.

(** ** x/coin behind the interface x/institutions expects

    [x/institutions/types/expected_keepers.go] names two operations of x/coin; its
    store discharges what a redemption relies on: pricing returns on every
    well-formed state, keeps it well-formed, and leaves at least a tenth. *)
#[export] Instance coin_port `{AddressCodec} : CoinKeeperI CoinStore := {
  coin_AddCoins := AddCoins;
  coin_EarlyRedeemPenalty := EarlyRedeemPenalty;
}.

Lemma coin_port_penalty `{AddressCodec} ctx a amt (st : CoinStore) :
  coin_wf st ∧ threshold_ok ctx st → 0 ≤ amt < 2 ^ 190 →
  ∃ pen st', coin_EarlyRedeemPenalty ctx a amt st = (Ok pen, st') ∧
    (coin_wf st' ∧ threshold_ok ctx st') ∧ 0 ≤ pen ∧ pen * 10 ≤ amt * 9.
Proof.
  intros [Hwf Ht] Ha.
  destruct (EarlyRedeemPenalty_run ctx st a amt Hwf Ht Ha) as (pen & st' & Hr & Hwf' & H0 & H9 & _ & Hf).
  exists pen, st'. split_and!; try done. split; [apply Ht|]. intros p Hp. apply Ht.
  rewrite <- Hp. symmetry. apply GetParams_frame. by apply Hf.
Qed.
#[export] Instance coin_port_laws `{AddressCodec} : CoinKeeperLaws CoinStore := {
  coin_ok ctx st := coin_wf st ∧ threshold_ok ctx st;
  penalty_law := coin_port_penalty;
}.
