(* ===== verification/CoinGenesis.v ===== *)
(** * Genesis of x/coin

    [x/coin/types/genesis.go] and [x/coin/keeper/genesis.go].  Theorems: importing a
    genesis establishes the store invariant, and exporting a state and importing the
    result gives the state back, for every state the bound on the queues holds in;
    the bound is needed, since lowering [max_coin_age_lots] does not trim a queue. *)
From stdpp Require Import base gmap strings list fin_maps sorting.
From Stdlib Require Import ZArith Lia.
From S2P Require Import Prelude GoInt KVStore StoreEntry Interfaces CoinTypes CoinAge CoinKeeper.

Record GenesisState := mkGenesis {
  gs_Params : Params;
  gs_CoinAges : list CoinTypes.CoinAge;
  gs_StoreEntries : list KV;
}.
Definition DefaultGenesis : GenesisState := mkGenesis DefaultParams [] [].

Definition storeEntryRules : list Rule :=
  [mkRule "micro-exemption quota" MicroQuotaPrefix (Some Uint64NoOverflow)].

Definition validNonNegAmount (s : string) : outcome unit :=
  if bool_decide (s = "") then Ok tt
  else err_if (negb (nonneg_text s)) (Plain "invalid amount").

(** the loop over one queue; [prev] is [None] before the first lot *)
Fixpoint validate_lots (prev : option Z) (lots : list CoinLot) : outcome unit :=
  match lots with
  | [] => Ok tt
  | lot :: lots' =>
      validNonNegAmount (Amount lot);;
      err_if (AcquiredAt lot <? 0) (Plain "negative acquired_at");;
      err_if (match prev with Some t => AcquiredAt lot <? t | None => false end)
        (Plain "lots must be ordered oldest-first");;
      validate_lots (Some (AcquiredAt lot)) lots'
  end.

Section genesis.
Context `{AddressCodec}.

Definition validate_age (maxLots : Z) (seen : gset string) (ca : CoinTypes.CoinAge) : outcome unit :=
  err_if (negb (is_bech32 (ca_Address ca))) (Plain "coin_age: invalid address");;
  err_if (bool_decide (ca_Address ca ∈ seen)) (Plain "duplicate coin_age entry");;
  err_if (maxLots <? u32 (Z.of_nat (length (ca_Lots ca)))) (Plain "exceeds max_coin_age_lots");;
  validate_lots None (ca_Lots ca).
Fixpoint validate_ages (maxLots : Z) (seen : gset string) (l : list CoinTypes.CoinAge) : outcome unit :=
  match l with
  | [] => Ok tt
  | ca :: l' =>
      validate_age maxLots seen ca;;
      validate_ages maxLots ({[ca_Address ca]} ∪ seen) l'
  end.

Definition GenesisState_Validate (gs : GenesisState) : outcome unit :=
  Params_Validate (gs_Params gs);;
  validate_ages (MaxCoinAgeLots (gs_Params gs)) ∅ (gs_CoinAges gs);;
  StoreEntry.Validate (gs_StoreEntries gs) storeEntryRules.

Definition InitGenesis (gs : GenesisState) : M CoinStore unit :=
  or_panic (lift (GenesisState_Validate gs));;
  or_panic (SetParams (gs_Params gs));;
  for_each (gs_CoinAges gs) (λ ca, modify (SetCoinAge ca));;
  for_each (gs_StoreEntries gs) (λ e,
    if negb (IsGenesisStoreKey (Key e)) then lift (Panic "key is not under the micro-quota prefix")
    else modify (<[Key e := VBytes (Value e)]>)).

Definition export_entry (kv : string * coin_val) : outcome KV :=
  match kv.2 with VBytes bz => Ok (mkKV kv.1 bz) | _ => Panic "not a raw value" end.
Definition ExportGenesis (st : CoinStore) : outcome GenesisState :=
  ages ← IterateCoinAges st;
  entries ← ofold (λ acc kv, e ← export_entry kv; Ok (acc ++ [e]))
              (KVStorePrefixIterator st MicroQuotaPrefix) [];
  p ← GetParams st;
  Ok (mkGenesis p ages entries).

(** ** What a state must satisfy to be exported *)

(** every record of the store is one the module writes; the queues are within the
    bound and their texts are amounts *)
Record exportable (st : CoinStore) : Prop := {
  ex_wf : coin_wf st;
  ex_params : ∃ p, st !! ParamsKey = Some (VParams p);
  ex_keys : ∀ k v, st !! k = Some v →
    k = ParamsKey ∨ has_prefix CoinAgePrefix k = true ∨
    (IsGenesisStoreKey k = true ∧ ∃ n, v = VBytes (be64 n) ∧ 0 ≤ n < 2 ^ 64 - 1);
  ex_ages : ∀ k ca p, st !! k = Some (VCoinAge ca) → GetParams st = Ok p →
    is_bech32 (ca_Address ca) = true ∧ Z.of_nat (length (ca_Lots ca)) ≤ MaxCoinAgeLots p ∧
    Forall (λ l, validNonNegAmount (Amount l) = Ok tt) (ca_Lots ca);
}.

Lemma validate_lots_ok prev lots :
  oldest_first lots → sane_lots lots → Forall (λ l, validNonNegAmount (Amount l) = Ok tt) lots →
  (∀ t l, prev = Some t → l ∈ lots → t ≤ AcquiredAt l) → validate_lots prev lots = Ok tt.
Proof.
  revert prev. induction lots as [|l lots IH]; intros prev Ho Hs Ha Hp; [done|].
  apply StronglySorted_inv in Ho as [Ho Hf].
  apply Forall_cons in Hs as [Hl Hs], Ha as [Hl' Ha]. unfold sane_time in Hl.
  cbn [validate_lots]. rewrite Hl'. cbn [mbind outcome_bind].
  destruct (Z.ltb_spec (AcquiredAt l) 0); [lia|]. cbn [err_if mbind outcome_bind].
  assert ((match prev with Some t => AcquiredAt l <? t | None => false end) = false) as ->.
  { destruct prev as [t|]; [|done]. apply Z.ltb_ge. eapply Hp; [done|left]. }
  cbn [err_if mbind outcome_bind]. apply IH; [done..|].
  intros t l' [= <-] Hl''. rewrite Forall_forall in Hf. by apply Hf.
Qed.

Lemma validate_ages_ok p st seen l :
  exportable st → GetParams st = Ok p →
  (∀ ca, ca ∈ l → st !! CoinAgeKey (ca_Address ca) = Some (VCoinAge ca)) →
  NoDup (ca_Address <$> l) → (∀ ca, ca ∈ l → ca_Address ca ∉ seen) →
  validate_ages (MaxCoinAgeLots p) seen l = Ok tt.
Proof.
  intros Hex Hp. revert seen. induction l as [|ca l IH]; intros seen Hin Hnd Hseen; [done|].
  rewrite fmap_cons in Hnd. apply NoDup_cons in Hnd as [Hca Hnd].
  assert (st !! CoinAgeKey (ca_Address ca) = Some (VCoinAge ca)) as Hk by (apply Hin; left).
  destruct (ex_ages _ Hex _ _ _ Hk Hp) as (Hb & Hlen & Ham).
  destruct (wf_ages _ (ex_wf _ Hex) _ _ Hk (CoinAgeKey_prefix _)) as (ca' & [= <-] & _ & _ & (Ho & Hs & Hl)).
  cbn [validate_ages]. unfold validate_age. rewrite Hb. cbn [negb err_if mbind outcome_bind].
  rewrite bool_decide_eq_false_2 by (apply Hseen; left). cbn [err_if mbind outcome_bind].
  rewrite u32_id by lia. destruct (Z.ltb_spec (MaxCoinAgeLots p) (Z.of_nat (length (ca_Lots ca)))); [lia|].
  cbn [err_if mbind outcome_bind]. rewrite validate_lots_ok by done. cbn [mbind outcome_bind].
  apply IH; [set_solver|done|]. intros c Hc. rewrite not_elem_of_union, not_elem_of_singleton.
  split; [|by apply Hseen; right]. intros Heq. apply Hca. rewrite <- Heq. apply list_elem_of_fmap. eauto.
Qed.

(** ** The exported lists are the records of the store *)
Definition age_record (ca : CoinTypes.CoinAge) : string * coin_val :=
  (CoinAgeKey (ca_Address ca), VCoinAge ca).
Definition quota_record (e : KV) : string * coin_val := (Key e, VBytes (Value e)).

Lemma export_ages st : exportable st →
  ∃ ages, IterateCoinAges st = Ok ages ∧
    KVStorePrefixIterator st CoinAgePrefix = map age_record ages ∧ Forall (λ ca, ca_Lots ca ≠ []) ages.
Proof.
  intros Hex. unfold IterateCoinAges.
  assert (∀ kv, kv ∈ KVStorePrefixIterator st CoinAgePrefix →
    ∃ ca, kv = age_record ca ∧ ca_Lots ca ≠ []) as Hall.
  { intros [k v] [Hk Hp]%elem_of_prefix_iterator.
    destruct (wf_ages _ (ex_wf _ Hex) _ _ Hk Hp) as (ca & -> & -> & Hne & _). by exists ca. }
  revert Hall. generalize (KVStorePrefixIterator st CoinAgePrefix). intros l Hall.
  assert (∀ acc, ∃ ages, ofold (λ acc kv, ca ← decode_CoinAge kv.2; Ok (acc ++ [ca])) l acc = Ok (acc ++ ages) ∧
    l = map age_record ages ∧ Forall (λ ca, ca_Lots ca ≠ []) ages) as Hgen.
  { induction l as [|kv l IH]; intros acc.
    { exists []. by rewrite app_nil_r. }
    destruct (Hall kv ltac:(left)) as (ca & -> & Hne).
    destruct (IH ltac:(set_solver) (acc ++ [ca])) as (ages & Ho & -> & Hf).
    exists (ca :: ages). simpl. rewrite Ho, <- app_assoc. split_and!; [done..|by constructor]. }
  exact (Hgen []).
Qed.

Lemma export_entries st : exportable st →
  ∃ es, ofold (λ acc kv, e ← export_entry kv; Ok (acc ++ [e])) (KVStorePrefixIterator st MicroQuotaPrefix) []
        = Ok es ∧ KVStorePrefixIterator st MicroQuotaPrefix = map quota_record es ∧
    Forall (λ e, IsGenesisStoreKey (Key e) = true ∧ ∃ n, Value e = be64 n ∧ 0 ≤ n < 2 ^ 64 - 1) es.
Proof.
  intros Hex.
  assert (∀ kv, kv ∈ KVStorePrefixIterator st MicroQuotaPrefix → ∃ e, kv = quota_record e ∧
    IsGenesisStoreKey (Key e) = true ∧ ∃ n, Value e = be64 n ∧ 0 ≤ n < 2 ^ 64 - 1) as Hall.
  { intros [k v] [Hk Hp]%elem_of_prefix_iterator.
    destruct (ex_keys _ Hex _ _ Hk) as [->|[Hc|(Hg & n & -> & Hn)]]; [done| |exists (mkKV k (be64 n)); eauto].
    apply has_prefix_spec in Hp as [t ->]. by vm_compute in Hc. }
  revert Hall. generalize (KVStorePrefixIterator st MicroQuotaPrefix). intros l Hall.
  assert (∀ acc, ∃ es, ofold (λ acc kv, e ← export_entry kv; Ok (acc ++ [e])) l acc = Ok (acc ++ es) ∧
    l = map quota_record es ∧
    Forall (λ e, IsGenesisStoreKey (Key e) = true ∧ ∃ n, Value e = be64 n ∧ 0 ≤ n < 2 ^ 64 - 1) es) as Hgen.
  { induction l as [|kv l IH]; intros acc.
    { exists []. by rewrite app_nil_r. }
    destruct (Hall kv ltac:(left)) as ([k v] & -> & He).
    destruct (IH ltac:(set_solver) (acc ++ [mkKV k v])) as (es & Ho & -> & Hf).
    exists (mkKV k v :: es). simpl. rewrite Ho, <- app_assoc. split_and!; [done..|by constructor]. }
  exact (Hgen []).
Qed.

(** ** The import writes the records back *)
Lemma import_ages ages st : Forall (λ ca, ca_Lots ca ≠ []) ages →
  for_each ages (λ ca, modify (SetCoinAge ca)) st =
  (Ok tt, foldl (λ s kv, <[kv.1 := kv.2]> s) st (map age_record ages)).
Proof.
  intros Hf. rewrite for_each_modify. f_equal. revert st.
  induction Hf as [|ca ages Hne Hf IH]; intros st; [done|]. simpl. rewrite IH. f_equal.
  unfold SetCoinAge. by destruct (ca_Lots ca).
Qed.
Lemma import_entries es (st : CoinStore) : Forall (λ e, IsGenesisStoreKey (Key e) = true) es →
  for_each es (λ e, if negb (IsGenesisStoreKey (Key e)) then lift (Panic "key is not under the micro-quota prefix")
    else modify (<[Key e := VBytes (Value e)]>)) st =
  (Ok tt, foldl (λ s kv, <[kv.1 := kv.2]> s) st (map quota_record es)).
Proof.
  intros Hf. revert st. induction Hf as [|e es He Hf IH]; intros st; [done|].
  cbn [for_each]. rewrite He. cbn [negb]. erewrite run_bind by done. apply IH.
Qed.

Lemma entries_valid es :
  NoDup (Key <$> es) →
  Forall (λ e, IsGenesisStoreKey (Key e) = true ∧ ∃ n, Value e = be64 n ∧ 0 ≤ n < 2 ^ 64 - 1) es →
  StoreEntry.Validate es storeEntryRules = Ok tt.
Proof.
  intros Hnd Hes. unfold StoreEntry.Validate. apply validate_loop_spec.
  { apply NoDup_singleton. }
  split_and!; [done|set_solver|]. intros e He. rewrite Forall_forall in Hes.
  destruct (Hes e He) as (Hk & n & Hv & Hn). unfold accepted. rewrite Hv.
  assert (strlen (be64 n) = 8) as Hlen by (unfold strlen, be64; by rewrite be_length).
  split; [rewrite Hlen; by vm_compute|]. eexists. split; [split_and!; [left|exact Hk|]|].
  - intros r' ->%list_elem_of_singleton _. lia.
  - intros f [= <-]. unfold Uint64NoOverflow, BoundedUint64. rewrite Hlen. cbn [Z.eqb negb err_if mbind outcome_bind].
    rewrite BigEndian_be64, u64_id by lia. destruct (Z.leb_spec (2 ^ 64 - 1) n); [lia|done].
Qed.

Lemma exported_valid st p ages es :
  exportable st → GetParams st = Ok p →
  KVStorePrefixIterator st CoinAgePrefix = map age_record ages →
  KVStorePrefixIterator st MicroQuotaPrefix = map quota_record es →
  Forall (λ e, IsGenesisStoreKey (Key e) = true ∧ ∃ n, Value e = be64 n ∧ 0 ≤ n < 2 ^ 64 - 1) es →
  GenesisState_Validate (mkGenesis p ages es) = Ok tt.
Proof.
  intros Hex Hp Hai Hei Hes.
  destruct (wf_params _ (ex_wf _ Hex)) as (p' & Hp' & Hval & _). simplify_eq.
  pose proof (Iterator_NoDup st CoinAgePrefix (PrefixEndBytes CoinAgePrefix)) as Hnd.
  pose proof (Iterator_NoDup st MicroQuotaPrefix (PrefixEndBytes MicroQuotaPrefix)) as Hnd2.
  unfold KVStorePrefixIterator in Hai, Hei. rewrite Hai, <- list_fmap_compose in Hnd.
  rewrite Hei, <- list_fmap_compose in Hnd2.
  unfold GenesisState_Validate. simpl. assert (p = p') as -> by congruence.
  rewrite Hval. cbn [mbind outcome_bind].
  rewrite (validate_ages_ok p' st); [by apply entries_valid|done|done| | |set_solver].
  - intros ca Hca. apply (elem_of_prefix_iterator st CoinAgePrefix). unfold KVStorePrefixIterator.
    rewrite Hai. by apply (list_elem_of_fmap_2 age_record).
  - apply (NoDup_fmap_1 CoinAgeKey). by rewrite <- list_fmap_compose.
Qed.

Lemma rebuilt st p (l1 l2 : list (string * coin_val)) :
  exportable st → GetParams st = Ok p →
  l1 = KVStorePrefixIterator st CoinAgePrefix → l2 = KVStorePrefixIterator st MicroQuotaPrefix →
  foldl (λ s kv, <[kv.1 := kv.2]> s)
    (foldl (λ s kv, <[kv.1 := kv.2]> s) (<[ParamsKey := VParams p]> ∅) l1) l2 = st.
Proof.
  intros Hex Hp -> ->. apply map_eq. intros k.
  rewrite !(foldl_insert_lookup st) by (intros [k' v'] Hin; by apply elem_of_prefix_iterator in Hin as [? _]).
  case_bool_decide as H1; [done|]. case_bool_decide as H2; [done|].
  destruct (decide (k = ParamsKey)) as [->|Hk].
  - rewrite lookup_insert_eq. destruct (ex_params _ Hex) as [q Hq].
    unfold GetParams in Hp. rewrite Hq in Hp |- *. congruence.
  - rewrite lookup_insert_ne, lookup_empty by done. symmetry. apply eq_None_not_Some. intros [v Hv].
    destruct (ex_keys _ Hex _ _ Hv) as [?|[Hc|[Hg _]]]; [done| |].
    + apply H2, list_elem_of_fmap. exists (k, v). by rewrite elem_of_prefix_iterator.
    + apply H1, list_elem_of_fmap. exists (k, v). rewrite elem_of_prefix_iterator.
      unfold IsGenesisStoreKey in Hg. bool_prop. done.
Qed.

(** Export followed by import is the identity.  From every exportable state,
    [ExportGenesis] returns a genesis that passes its own validation, and
    [InitGenesis] on an empty store rebuilds the state record for record. *)
Theorem coin_genesis_roundtrip st :
  exportable st →
  ∃ gs, ExportGenesis st = Ok gs ∧ GenesisState_Validate gs = Ok tt ∧ InitGenesis gs ∅ = (Ok tt, st).
Proof.
  intros Hex. destruct (export_ages st Hex) as (ages & Ha & Hai & Hane).
  destruct (export_entries st Hex) as (es & He & Hei & Hes).
  destruct (wf_params _ (ex_wf _ Hex)) as (p & Hp & Hval & _).
  pose proof (exported_valid st p ages es Hex Hp Hai Hei Hes) as Hv.
  exists (mkGenesis p ages es). split_and!; [by unfold ExportGenesis; rewrite Ha, He, Hp|done|].
  unfold InitGenesis. erewrite run_bind by (unfold or_panic, lift; by rewrite Hv).
  cbn [gs_Params gs_CoinAges gs_StoreEntries].
  erewrite run_bind by (unfold or_panic, SetParams; erewrite run_bind by (by unfold lift; rewrite Hval); done).
  erewrite run_bind by by apply import_ages.
  rewrite import_entries by (eapply Forall_impl; [exact Hes|by intros ? [? _]]).
  by rewrite (rebuilt st p _ _ Hex Hp (eq_sym Hai) (eq_sym Hei)).
Qed.
End genesis.

(** ** Witness states *)
Definition demo_full : CoinStore :=
  <[MicroQuotaKey 19675 "did:phi:alice" := VBytes (be64 3)]>
  (<[ParamsKey := VParams DefaultParams]>
  {[CoinAgeKey "alice" := VCoinAge (mkCoinAge "alice" [mkLot "6" 100; mkLot "5" 900; mkLot "4" 950])]}).

Ltac demo_keys H :=
  repeat (apply lookup_insert_Some in H as [[<- <-]|[_ H]]); try (apply lookup_singleton_Some in H as [<- <-]).

Lemma demo_full_exportable : @exportable plain_codec demo_full.
Proof.
  constructor.
  - constructor.
    + exists DefaultParams. split; [by vm_compute|]. apply default_params_ok.
    + intros k v Hk Hp. unfold demo_full in Hk. demo_keys Hk; [done|done|].
      eexists. split_and!; [done..|]. split_and!; repeat constructor; simpl; lia.
  - exists DefaultParams. by vm_compute.
  - intros k v Hk. unfold demo_full in Hk. demo_keys Hk; [right; right|by left|by right; left].
    split; [by vm_compute|]. exists 3. split; [done|lia].
  - intros k ca p Hk Hp. vm_compute in Hp. injection Hp as <-. unfold demo_full in Hk.
    apply lookup_insert_Some in Hk as [[_ [=]]|[_ Hk]]. apply lookup_insert_Some in Hk as [[_ [=]]|[_ Hk]].
    apply lookup_singleton_Some in Hk as [_ [= <-]]. by split_and!; [vm_compute|vm_compute|repeat constructor].
Qed.
Lemma coin_genesis_roundtrip_witness :
  ∃ gs, ExportGenesis demo_full = Ok gs ∧ @InitGenesis plain_codec gs ∅ = (Ok tt, demo_full).
Proof.
  destruct (@coin_genesis_roundtrip plain_codec demo_full demo_full_exportable) as (gs & H1 & _ & H2). eauto.
Defined.

(** Lowering the queue bound makes an exported genesis unusable.  There is an
    exportable state and a parameter update that governance can pass (a validated
    [max_coin_age_lots] of 2) after which [ExportGenesis] still returns, but the
    genesis fails its own validation and [InitGenesis] panics on it: the update does
    not trim the queues it makes too long. *)
Theorem lowered_bound_blocks_import :
  ∃ (s s' : CoinState Ledger.ledger) p gs,
    @exportable plain_codec (cs_store s) ∧
    @UpdateParams _ plain_codec "gov" demo_ctx (mkMsgUpdateParams "gov" p) s = (Ok tt, s') ∧
    @coin_wf plain_codec (cs_store s') ∧
    ExportGenesis (cs_store s') = Ok gs ∧
    @GenesisState_Validate plain_codec gs = Err (Plain "exceeds max_coin_age_lots") ∧
    fst (@InitGenesis plain_codec gs ∅) = Panic "genesis".
Proof.
  set (p := mkParams [] "5000" "50000" 10 600 100 20 [] "" "" 5 2).
  exists (mkCoinState demo_ledger demo_full []),
    (mkCoinState demo_ledger (<[ParamsKey := VParams p]> demo_full) []), p.
  eexists. split_and!; [apply demo_full_exportable|by vm_compute| |vm_compute; reflexivity|by vm_compute..].
  constructor.
  - exists p. simpl. rewrite GetParams_insert. split_and!; [done|by vm_compute|].
    unfold params_typed. simpl. by split_and!.
  - intros k v Hk Hp. simpl in Hk. apply lookup_insert_Some in Hk as [[<- <-]|[_ Hk]]; [done|].
    eapply wf_ages; [apply (ex_wf _ demo_full_exportable)|done..].
Qed.
