(* ===== verification/CoinInvariant.v ===== *)
(** * Reachable states of x/coin

    The store invariant [queues_wf] holds in every state reachable from genesis: it is
    established by [InitGenesis] and preserved by every operation that writes the
    module's store, whoever calls it (the message server, the ante handler's quota,
    the institutions' mint and redemption, the block hook).  A message runs through
    [deliver], so a failed or panicking one changes nothing.  Timestamps are any
    [int64]: the governed threshold may reach back past the epoch, and differences wrap. *)
From stdpp Require Import base gmap strings list fin_maps sorting.
From Stdlib Require Import ZArith Lia.
From S2P Require Import Prelude GoInt KVStore StoreEntry Interfaces CoinTypes CoinAge CoinKeeper CoinGenesis.

(** ** The steps *)
Section steps.
Context {B I : Type} `{BankKeeper B} `{IdentityKeeper I} `{AddressCodec}.
Context (authority : string).

Inductive coin_step : CoinState B → CoinState B → Prop :=
| step_transfer ctx msg s : coin_step s (deliver (Transfer ctx msg) s)
| step_withdraw ctx msg s : coin_step s (deliver (WithdrawRevenue authority ctx msg) s)
| step_update ctx msg s :
    params_typed (mu_Params msg) → coin_step s (deliver (UpdateParams authority ctx msg) s)
| step_begin_block ctx s : coin_step s (deliver (on_store (BeginBlock ctx)) s)
| step_quota ctx ident payer s : coin_step s (deliver (on_store (ConsumeMicroExemption ctx ident payer)) s)
| step_credit ctx a amt s :
    is_int64 (BlockTime ctx) → coin_step s (deliver (on_store (AddCoins a amt (BlockTime ctx))) s)
| step_redeem ctx a amt s :
    in_range amt → coin_step s (deliver (on_store (EarlyRedeemPenalty ctx a amt)) s)
| step_bank b s : coin_step s (mkCoinState b (cs_store s) (cs_events s)).

(** the queue bound in force *)
Definition max_lots (st : CoinStore) : Z := match GetParams st with Ok p => MaxCoinAgeLots p | _ => 0 end.

(** the states reachable from a genesis import, with the largest [max_coin_age_lots] in
    force on the way *)
Inductive coin_reachable (gs : GenesisState) : Z → CoinState B → Prop :=
| reach_init b st : InitGenesis gs ∅ = (Ok tt, st) → coin_reachable gs (MaxCoinAgeLots (gs_Params gs)) (mkCoinState b st [])
| reach_step peak s s' : coin_reachable gs peak s → coin_step s s' → coin_reachable gs (Z.max peak (max_lots (cs_store s'))) s'.
End steps.

(** ** The invariant *)

(** a queue of at most [peak] lots, oldest first *)
Record queue_wf (peak : Z) (lots : list CoinLot) : Prop := {
  qw_order : oldest_first lots;
  qw_times : Forall (λ l, is_int64 (AcquiredAt l)) lots;
  qw_bound : Z.of_nat (length lots) ≤ peak;
}.
(** the params are validated, their bound is at most [peak], and every queue is filed under
    its holder's key, is not empty, and is [queue_wf] *)
Record queues_wf `{AddressCodec} (peak : Z) (st : CoinStore) : Prop := {
  qs_params : ∃ p, GetParams st = Ok p ∧ Params_Validate p = Ok tt ∧ params_typed p ∧ MaxCoinAgeLots p ≤ peak;
  qs_ages : ∀ k v, st !! k = Some v → has_prefix CoinAgePrefix k = true →
    ∃ ca, v = VCoinAge ca ∧ k = CoinAgeKey (ca_Address ca) ∧ ca_Lots ca ≠ [] ∧ queue_wf peak (ca_Lots ca);
}.

(** ** The queue operations on any int64 timestamps *)
Lemma mergedAcquiredAt_between a b t :
  is_int64 (AcquiredAt a) → is_int64 (AcquiredAt b) → AcquiredAt a ≤ AcquiredAt b →
  mergedAcquiredAt a b = Ok t → AcquiredAt a ≤ t ≤ AcquiredAt b.
Proof.
  unfold is_int64, mergedAcquiredAt. intros Ha Hb Hab H.
  pose proof (LotAmount_range a). pose proof (LotAmount_range b).
  destruct (decide (AcquiredAt b - AcquiredAt a < 2 ^ 63)) as [Hd|Hd].
  2: { rewrite i64_neg in H by lia. destruct (Z.leb_spec (AcquiredAt b - AcquiredAt a - 2 ^ 64) 0); [|lia]. go_inv. lia. }
  rewrite i64_id in H by lia. destruct (Z.leb_spec (AcquiredAt b - AcquiredAt a) 0); [go_inv; lia|].
  go_inv. int_inv. destruct (negb (IsPositive (LotAmount a + LotAmount b))) eqn:Hp; int_inv; [lia|].
  pose proof (ceil_quot (LotAmount b * (AcquiredAt b - AcquiredAt a)) (LotAmount a + LotAmount b) ltac:(nia) ltac:(lia)) as [Hq Hq0].
  set (q := Z.quot _ _) in *. assert (q ≤ AcquiredAt b - AcquiredAt a) by nia. rewrite i64_id by lia. lia.
Qed.
Lemma bound_loop_wf fuel lots maxLots out :
  queue_wf (Z.of_nat (length lots)) lots → (length lots ≤ fuel)%nat → Z.of_nat (length lots) < 2 ^ 32 →
  bound_loop fuel lots maxLots = Ok out → queue_wf (Z.max 1 maxLots) out ∧ out ≠ [] ∨ lots = [].
Proof.
  revert lots. induction fuel as [|f IH]; intros lots [Hs Hi _] Hf Hlen H; simpl in H.
  { right. destruct lots; [done|]. simpl in Hf. lia. }
  destruct lots as [|a [|b rest]]; [by right|go_inv; left; split; [constructor; simpl; [done|done|lia]|done]|].
  left. destruct (maxLots <? u32 (Z.of_nat (length (a :: b :: rest)))) eqn:Hlt; go_inv; bool_prop; rewrite u32_id in Hlt by lia.
  2: { split; [constructor; [done|done|lia]|done]. }
  apply StronglySorted_inv in Hs as [Hs Hfa]. apply StronglySorted_inv in Hs as [Hs Hfb].
  apply Forall_cons in Hi as [Hia Hi], Hi as [Hib Hi], Hfa as [Hab Hfa].
  rename select (merge_lots _ _ = _) into Hm. unfold merge_lots in Hm. go_inv.
  rename select (mergedAcquiredAt _ _ = _) into Ht. apply mergedAcquiredAt_between in Ht; [|done..].
  rename select (bound_loop _ _ _ = _) into Hb. apply IH in Hb as [Hb|Hb]; [done|done| |simpl in *; lia|simpl in *; lia].
  constructor; [| |lia].
  - constructor; [done|]. eapply Forall_impl; [exact Hfb|]. simpl. intros; lia.
  - constructor; [|done]. unfold is_int64 in *. simpl. lia.
Qed.
Lemma InsertLot_wf peak lots lot maxLots out :
  queue_wf peak lots → is_int64 (AcquiredAt lot) → 2 ≤ maxLots ≤ peak → peak < 2 ^ 31 →
  InsertLot lots lot maxLots = Ok out → queue_wf peak out.
Proof.
  intros [Ho Hi Hl] Ht Hm Hp H1. unfold InsertLot in H1. go_cases; [by constructor|].
  unfold BoundLots in *. destruct (Z.eqb_spec maxLots 0); [lia|].
  rename select (bound_loop _ _ _ = _) into Hb. apply bound_loop_wf in Hb as [[[? ? ?] _]|Hb]; [constructor; [done|done|lia]| | |done|].
  - by apply (f_equal length) in Hb; rewrite insert_at_length in Hb.
  - constructor; [by apply insert_at_sorted| |done]. rewrite insert_at_perm. by constructor.
  - rewrite insert_at_length. lia.
Qed.
Lemma Spend_queue_wf peak lots amount now thr c r :
  0 ≤ amount < 2 ^ 256 → queue_wf peak lots → SpendOldestFirst lots amount now thr = Ok (c, r) →
  queue_wf peak r ∧ Forall (λ l, is_int64 (AcquiredAt l)) c.
Proof.
  intros Ha [Ho Hi Hl] Hr. destruct (SpendOldestFirst_spec lots amount now thr Ha) as (c' & r' & Hr' & _ & _ & Hlen & Ht & Hs).
  rewrite Hr in Hr'. injection Hr' as <- <-. assert (∀ l, l ∈ c ++ r → is_int64 (AcquiredAt l)) as Hall.
  { intros l Hin. destruct (Ht (AcquiredAt l)) as [(x & -> & Hx)%list_elem_of_fmap| ->]; [by apply list_elem_of_fmap_2| |].
    - rewrite Forall_forall in Hi. by apply Hi.
    - apply i64_range. }
  split; [constructor; [by apply Hs| |lia]|]; apply Forall_forall; intros l Hin; apply Hall, elem_of_app; auto.
Qed.

(** ** Preservation *)
Section preservation.
Context `{AddressCodec}.
Implicit Types st : CoinStore.

Lemma GetCoinAge_queue peak st a ca : queues_wf peak st → GetCoinAge st a = Ok ca → queue_wf peak (ca_Lots ca).
Proof.
  intros Hwf. unfold GetCoinAge. destruct (st !! CoinAgeKey a) as [v|] eqn:Hv.
  - destruct (qs_ages _ _ Hwf _ _ Hv (CoinAgeKey_prefix a)) as (ca' & -> & _ & _ & Hq). by intros [= ->].
  - intros [= <-]. destruct (qs_params _ _ Hwf) as (p & _ & Hp%max_lots_bounds & _ & Hle).
    constructor; simpl; [constructor|constructor|lia].
Qed.
(** records outside the params key and the queues do not matter *)
Lemma queues_wf_frame peak st st' :
  queues_wf peak st → st' !! ParamsKey = st !! ParamsKey →
  (∀ k v, st' !! k = Some v → has_prefix CoinAgePrefix k = true → st !! k = Some v) → queues_wf peak st'.
Proof.
  intros Hwf Hp Hk. constructor.
  - destruct (qs_params _ _ Hwf) as (p & Hg & Hv). exists p. split; [|done].
    by rewrite (GetParams_frame st st').
  - intros k v Hkv Hpre. eapply qs_ages; eauto.
Qed.
Lemma SetCoinAge_queues peak st a lots : queues_wf peak st → queue_wf peak lots → queues_wf peak (SetCoinAge (mkCoinAge a lots) st).
Proof.
  intros Hwf Hq. unfold SetCoinAge. simpl. destruct lots as [|l lots].
  { eapply queues_wf_frame; [exact Hwf|by rewrite lookup_delete_ne by (symmetry; auto with phi)|]. by intros k v [_ ?]%lookup_delete_Some. }
  constructor.
  - destruct (qs_params _ _ Hwf) as (p & Hp & Hv). exists p. split; [|done].
    rewrite <- Hp. apply GetParams_frame. by rewrite lookup_insert_ne by (symmetry; auto with phi).
  - intros k v [[<- <-]|[_ Hk]]%lookup_insert_Some Hpre; [|by eapply qs_ages]. by eexists.
Qed.
Lemma AddCoins_wf peak a amt t st st' :
  queues_wf peak st → peak < 2 ^ 31 → is_int64 t → AddCoins a amt t st = (Ok tt, st') → queues_wf peak st'.
Proof.
  intros Hwf Hpk Ht H1. destruct (qs_params _ _ Hwf) as (p & Hp & Hval%max_lots_bounds & _ & Hle).
  unfold AddCoins in H1. go_inv. destruct (negb (IsPositive amt)); go_inv; [done|].
  repeat match goal with H : query _ _ = _ |- _ => apply query_Ok in H as [? ->] | H : lift _ _ = _ |- _ => apply lift_Ok in H as [? ->] end.
  ok_eq. rename select (InsertLot _ _ _ = _) into Hi. apply SetCoinAge_queues; [done|].
  eapply InsertLot_wf; [by eapply GetCoinAge_queue| | |done|exact Hi]; [done|lia].
Qed.
Lemma AddCoins_each_wf peak a lots st st' :
  queues_wf peak st → peak < 2 ^ 31 → Forall (λ l, is_int64 (AcquiredAt l)) lots →
  for_each lots (λ lot, AddCoins a (LotAmount lot) (AcquiredAt lot)) st = (Ok tt, st') → queues_wf peak st'.
Proof.
  revert st. induction lots as [|l lots IH]; intros st Hwf Hpk Hs H1; cbn [for_each] in H1; go_inv; [done|].
  repeat match goal with u : unit |- _ => destruct u end.
  apply Forall_cons in Hs as [Hl Hs]. eapply IH; [|done..]. by eapply AddCoins_wf.
Qed.
Lemma quota_insert_wf peak st k v :
  queues_wf peak st → has_prefix MicroQuotaPrefix k = true → queues_wf peak (<[k := v]> st).
Proof.
  intros Hwf [t ->]%has_prefix_spec. eapply queues_wf_frame; [exact Hwf|by rewrite lookup_insert_ne|].
  intros k' v' Hk Hp. apply lookup_insert_Some in Hk as [[<- _]|[_ Hk]]; done.
Qed.
Lemma PruneMicroQuota_wf peak ctx st : queues_wf peak st → queues_wf peak (PruneMicroQuota ctx st).
Proof.
  intros Hwf. unfold PruneMicroQuota. case_match; [done|].
  eapply queues_wf_frame; [exact Hwf| |].
  - rewrite foldl_delete_lookup. case_bool_decide as Hin; [|done].
    apply elem_of_take in Hin as (i & Hin & _). apply list_elem_of_lookup_2 in Hin.
    apply list_elem_of_fmap in Hin as ([k v] & Hk & Hin). simpl in Hk. subst.
    by apply elem_of_Iterator in Hin as [_ Hr%quota_range_prefix].
  - intros k v. rewrite foldl_delete_lookup. by case_bool_decide.
Qed.
Lemma IncrMicroUsed_wf peak day a st st' :
  queues_wf peak st → IncrMicroUsed day a st = (Ok tt, st') → queues_wf peak st'.
Proof.
  intros Hwf H1. unfold IncrMicroUsed in H1. go_inv. apply quota_insert_wf; [done|]. apply has_prefix_app.
Qed.
Lemma Spend_wf peak ctx a amt st c st' :
  queues_wf peak st → 0 ≤ amt < 2 ^ 256 → Keeper_SpendOldestFirst ctx a amt st = (Ok c, st') →
  queues_wf peak st' ∧ Forall (λ l, is_int64 (AcquiredAt l)) c.
Proof.
  intros Hwf Ha H1. unfold Keeper_SpendOldestFirst in H1. go_inv.
  match goal with x : (list CoinLot * list CoinLot)%type |- _ => destruct x end. go_inv.
  rename select (GetCoinAge _ _ = _) into Hca. apply (GetCoinAge_queue peak) in Hca; [|done].
  rename select (SpendOldestFirst _ _ _ _ = _) into Hsp. apply (Spend_queue_wf peak) in Hsp as [? ?]; [|done..].
  split; [by apply SetCoinAge_queues|done].
Qed.

(** ** Genesis establishes it *)
Lemma validate_lots_inv prev lots :
  validate_lots prev lots = Ok tt →
  oldest_first lots ∧ Forall (λ l, 0 ≤ AcquiredAt l) lots ∧
  ∀ t, prev = Some t → Forall (λ l, t ≤ AcquiredAt l) lots.
Proof.
  revert prev. induction lots as [|l lots IH]; intros prev H1; cbn [validate_lots] in H1.
  { split_and!; constructor. }
  go_inv. bool_prop. repeat match goal with u : unit |- _ => destruct u end.
  rename select (validate_lots _ _ = _) into Hl. apply IH in Hl as (Ho & Hf & Hp).
  specialize (Hp _ eq_refl). split_and!; [by constructor|by constructor|].
  intros t ->. bool_prop. constructor; [done|]. eapply Forall_impl; [exact Hp|]. simpl. intros; lia.
Qed.
(** what the genesis message's field types give: [int64] timestamps, and fewer lots in a
    holder's queue than a [uint32] counts *)
Definition genesis_typed (gs : GenesisState) : Prop :=
  params_typed (gs_Params gs) ∧
  ∀ ca, ca ∈ gs_CoinAges gs → Z.of_nat (length (ca_Lots ca)) < 2 ^ 32 ∧ Forall (λ l, is_int64 (AcquiredAt l)) (ca_Lots ca).

Lemma validate_ages_inv maxLots seen l :
  (∀ ca, ca ∈ l → Z.of_nat (length (ca_Lots ca)) < 2 ^ 32 ∧ Forall (λ lt, is_int64 (AcquiredAt lt)) (ca_Lots ca)) →
  validate_ages maxLots seen l = Ok tt → Forall (λ ca, queue_wf maxLots (ca_Lots ca)) l.
Proof.
  revert seen. induction l as [|ca l IH]; intros seen Hty H1; [constructor|].
  cbn [validate_ages] in H1. unfold validate_age in H1. go_inv. bool_prop.
  repeat match goal with u : unit |- _ => destruct u end.
  rename select (validate_lots _ _ = _) into Hl. apply validate_lots_inv in Hl as (Ho & _ & _).
  destruct (Hty ca ltac:(left)) as [Hlen Hi]. rename select (u32 _ ≤ _) into Hu. rewrite u32_id in Hu by lia.
  constructor; [by constructor|eapply IH; [|done]; set_solver].
Qed.

Lemma or_panic_Ok {S A} (m : M S A) s a s' : or_panic m s = (Ok a, s') → m s = (Ok a, s').
Proof. unfold or_panic. destruct (m s) as [[]]; naive_solver. Qed.

Lemma InitGenesis_wf gs st :
  genesis_typed gs → InitGenesis gs ∅ = (Ok tt, st) → queues_wf (MaxCoinAgeLots (gs_Params gs)) st ∧ MaxCoinAgeLots (gs_Params gs) ≤ 1024.
Proof.
  intros [Hty Hs] H1. unfold InitGenesis, SetParams, GenesisState_Validate in H1. go_inv.
  repeat match goal with H : or_panic _ _ = _ |- _ => apply or_panic_Ok in H end. go_inv.
  repeat match goal with u : unit |- _ => destruct u end.
  rename select (validate_ages _ _ _ = _) into Ha. apply validate_ages_inv in Ha; [|done]. split; [|by apply max_lots_bounds].
  rename select (for_each (gs_CoinAges gs) _ _ = _) into Hf1. rewrite for_each_modify in Hf1. injection Hf1 as <-.
  rename select (for_each (gs_StoreEntries gs) _ _ = _) into Hf2. set (peak := MaxCoinAgeLots (gs_Params gs)) in *.
  assert (queues_wf peak (<[ParamsKey := VParams (gs_Params gs)]> ∅)) as Hwf0.
  { constructor; [eexists; split_and!; [by apply GetParams_insert|done..]|]. intros k v Hk Hp.
    apply lookup_insert_Some in Hk as [[<- _]|[_ Hk]]; [done|]. by rewrite lookup_empty in Hk. }
  assert (queues_wf peak (foldl (λ s ca, SetCoinAge ca s) (<[ParamsKey := VParams (gs_Params gs)]> ∅) (gs_CoinAges gs))) as Hwf.
  { revert Hwf0. generalize (<[ParamsKey := VParams (gs_Params gs)]> (∅ : CoinStore)). clear -Ha.
    induction Ha as [|[a lots] ages Hq Ha IH]; intros st Hwf; [done|]. simpl. apply IH. by apply SetCoinAge_queues. }
  clear Hwf0. revert Hwf Hf2. generalize (foldl (λ s ca, SetCoinAge ca s) (<[ParamsKey := VParams (gs_Params gs)]> ∅)
    (gs_CoinAges gs)). clear. generalize (gs_StoreEntries gs). intros l.
  induction l as [|e l IH]; intros s Hwf Hf; cbn [for_each] in Hf; go_inv; [done|]. go_cases.
  eapply IH; [|done]. apply quota_insert_wf; [done|]. bool_prop. unfold IsGenesisStoreKey in *. by bool_prop.
Qed.
End preservation.

(** ** Every step keeps it *)
Section invariant.
Context {B I : Type} `{BankKeeper B} `{IdentityKeeper I} `{AddressCodec}.

Lemma deliver_cases {S A} (m : M S A) s (P : S → Prop) :
  P s → (∀ a s', m s = (Ok a, s') → P s') → P (deliver m s).
Proof. intros Hs Hm. unfold deliver. destruct (m s) as [[a| |] s'] eqn:Hr; eauto. Qed.

Lemma queues_wf_le peak peak' st : peak ≤ peak' → queues_wf peak st → queues_wf peak' st.
Proof.
  intros Hle [(p & ? & ? & ? & ?) Ha]. constructor; [exists p; split_and!; try done; lia|].
  intros k v Hk Hp. destruct (Ha k v Hk Hp) as (ca & ? & ? & ? & [? ? ?]). exists ca. split_and!; try done. constructor; [done|done|lia].
Qed.
Lemma queues_max_lots peak st : queues_wf peak st → 2 ≤ max_lots st ≤ 1024.
Proof. intros Hwf. destruct (qs_params _ _ Hwf) as (p & Hp & Hv%max_lots_bounds & _). unfold max_lots. by rewrite Hp. Qed.
(** what a step does to the store: it files new params, or keeps the invariant *)
Definition moved (peak : Z) (st st' : CoinStore) : Prop :=
  (∃ p, params_typed p ∧ Params_Validate p = Ok tt ∧ st' = <[ParamsKey := VParams p]> st) ∨ queues_wf peak st'.
Lemma moved_wf peak st st' : queues_wf peak st → moved peak st st' → queues_wf (Z.max peak (max_lots st')) st'.
Proof.
  intros Hwf [(p & Hty & Hv & ->)|Hok]; [|by eapply queues_wf_le; [|exact Hok]; lia].
  assert (max_lots (<[ParamsKey := VParams p]> st) = MaxCoinAgeLots p) as -> by (unfold max_lots; by rewrite GetParams_insert).
  constructor; [exists p; split_and!; [by apply GetParams_insert|done|done|lia]|]. intros k v Hk Hp.
  apply lookup_insert_Some in Hk as [[<- <-]|[_ Hk]]; [done|].
  eapply qs_ages; [|done..]. eapply queues_wf_le; [|exact Hwf]. lia.
Qed.
Lemma coin_step_moved authority peak (s s' : CoinState B) :
  coin_step (I:=I) authority s s' → peak < 2 ^ 31 → queues_wf peak (cs_store s) → moved peak (cs_store s) (cs_store s').
Proof.
  intros Hstep Hpk Hwf. destruct Hstep as [ctx msg s|ctx msg s|ctx msg s Ht|ctx s|ctx ident payer s|ctx a amt s Hc
    |ctx a amt s Hr|b s]; try (apply (deliver_cases _ _ (λ s', moved peak (cs_store s) (cs_store s'))); [by right|]); [| | | | | | |by right].
  - intros r s' Hrun. right. unfold Transfer, on_bank, on_store, EmitEvent, CoinsOf in Hrun. go_cases. simpl in *.
    rename select (NewIntFromString _ = Some _) into Ha. apply NewIntFromString_range in Ha.
    unfold in_range in Ha. bool_prop. repeat match goal with u : unit |- _ => destruct u end.
    rename select (Keeper_SpendOldestFirst _ _ _ _ = _) into Hsp. apply (Spend_wf peak) in Hsp as [? ?]; [|done|lia].
    by eapply AddCoins_each_wf.
  - intros r s' Hrun. right. unfold WithdrawRevenue, on_bank, on_store, EmitEvent, CoinsOf in Hrun. go_inv.
    match goal with x : (unit + error)%type |- _ => destruct x end; go_cases. done.
  - intros r s' Hrun. left. unfold UpdateParams, on_store, SetParams in Hrun. go_inv. simpl.
    repeat match goal with u : unit |- _ => destruct u end. by exists (mu_Params msg).
  - intros r s' Hrun. right. unfold on_store, BeginBlock in Hrun. go_inv. simpl. by apply PruneMicroQuota_wf.
  - intros r s' Hrun. right. unfold on_store, ConsumeMicroExemption in Hrun. go_inv. simpl.
    repeat match goal with u : unit |- _ => destruct u end. go_cases; [|done]. by eapply IncrMicroUsed_wf.
  - intros r s' Hrun. right. unfold on_store in Hrun. go_inv. simpl.
    repeat match goal with u : unit |- _ => destruct u end. by eapply AddCoins_wf.
  - intros r s' Hrun. right. unfold on_store, EarlyRedeemPenalty in Hrun. go_cases; [done|]. simpl.
    unfold in_range in Hr. unfold IsPositive in *. bool_prop.
    rename select (Keeper_SpendOldestFirst _ _ _ _ = _) into Hsp. apply (Spend_wf peak) in Hsp as [? ?]; [done|done|lia].
Qed.

(** C38: in every state reachable from a genesis import, whatever sequence of
    transfers, withdrawals, parameter updates, quota uses, mints, redemptions and
    block hooks led there, the parameters are validated and every holder's queue is
    oldest-first, non-empty, filed under the holder's own key, and no longer than the
    largest [max_coin_age_lots] in force since genesis, itself at most 1024.  The
    timestamps of the genesis lots and the block times are [int64]s, and a genesis queue
    has fewer than 2^32 lots. *)
Theorem coin_reachable_wf authority gs peak (s : CoinState B) :
  genesis_typed gs → coin_reachable (I:=I) authority gs peak s → queues_wf peak (cs_store s) ∧ peak ≤ 1024.
Proof.
  intros Hg Hr. induction Hr as [b st Hi|peak s s' Hr [IH Hp] Hs]; [by apply InitGenesis_wf|].
  assert (queues_wf (Z.max peak (max_lots (cs_store s'))) (cs_store s')) as Hwf
    by (eapply moved_wf; [exact IH|eapply coin_step_moved; [exact Hs|lia|done]]).
  split; [done|]. apply queues_max_lots in Hwf. lia.
Qed.
End invariant.

Lemma coin_reachable_witness :
  @queues_wf plain_codec 64 (cs_store (deliver (@Transfer _ Ledger.ledger_bank plain_codec demo_ctx
    (mkMsgTransfer "alice" "bob" "100000")) (mkCoinState demo_ledger (snd (@InitGenesis plain_codec DefaultGenesis ∅)) []))).
Proof.
  refine (proj1 (@coin_reachable_wf _ _ _ demo_identity plain_codec "gov" DefaultGenesis 64 _ _ _)).
  - split; [exact (proj2 (@default_params_ok plain_codec))|intros ca []%not_elem_of_nil].
  - set (s1 := deliver _ _).
    assert (64 = Z.max (MaxCoinAgeLots (gs_Params DefaultGenesis)) (max_lots (cs_store s1))) as -> by (vm_compute; reflexivity).
    refine (reach_step _ _ _ _ _ _ (step_transfer _ _ _ _)). apply reach_init. vm_compute. reflexivity.
Defined.

(** A threshold longer than the chain's clock makes an exported genesis unusable.  Governance
    may set any [coin_age_threshold_seconds]; a transfer of coin no queue tracks then dates
    it before the epoch, in the receiver's queue, and the genesis exported afterwards fails
    its own validation. *)
Theorem long_threshold_blocks_import :
  ∃ (s s' s'' : CoinState Ledger.ledger) p gs,
    @UpdateParams _ plain_codec "gov" demo_ctx (mkMsgUpdateParams "gov" p) s = (Ok tt, s') ∧
    @Transfer _ Ledger.ledger_bank plain_codec demo_ctx (mkMsgTransfer "alice" "bob" "100000") s' = (Ok "0", s'') ∧
    ExportGenesis (cs_store s'') = Ok gs ∧ @GenesisState_Validate plain_codec gs = Err (Plain "negative acquired_at").
Proof.
  exists (mkCoinState demo_ledger ∅ []). eexists _, _, (mkParams [] "5000" "50000" 10 1700000001 100 20 [] "" "" 5 64), _.
  split_and!; [vm_compute; reflexivity..].
Qed.
