(* ===== verification/InstTypes.v ===== *)
(** * The data of x/institutions

    [x/institutions/types]: the records of the registry, the governed parameters and
    their validation, the caps and the protocol redeem floor, the attestation-
    staleness gate, and the store keys with their parsers.  Protobuf enums are open,
    so an enum field is an integer with named constants. *)
From stdpp Require Import base gmap strings list fin_maps.
From Stdlib Require Import ZArith Lia.
From S2P Require Import Prelude GoInt KVStore Interfaces CoinTypes.

(** ** Enums *)
Definition INSTITUTION_STATUS_HEALTHY : Z := 1.
Definition INSTITUTION_STATUS_LOW_LIQ : Z := 2.
Definition INSTITUTION_STATUS_FROZEN : Z := 3.
Definition INSTITUTION_TYPE_UNSPECIFIED : Z := 0.
Definition INSTITUTION_TYPE_FINANCIAL : Z := 1.
Definition INSTITUTION_TYPE_FX : Z := 2.
Definition INSTITUTION_ROLE_UNSPECIFIED : Z := 0.
Definition INSTITUTION_ROLE_ADMIN : Z := 1.
Definition INSTITUTION_ROLE_OPERATOR : Z := 2.
Definition INSTITUTION_ROLE_FINANCE : Z := 3.
Definition INSTITUTION_ROLE_COMPLIANCE : Z := 4.
Definition INSTITUTION_ROLE_DEVELOPER : Z := 5.
Definition INSTITUTION_ROLE_VIEWER : Z := 6.
Definition FX_ENTRY_REQUESTED : Z := 1.
Definition FX_ENTRY_GUARANTEED : Z := 2.

(** [enum.String()]: the registered name, or the number *)
Definition enum_String (names : list (Z * string)) (z : Z) : string :=
  match List.find (λ nv, nv.1 =? z) names with Some nv => nv.2 | None => Int_String z end.
Definition InstitutionType_name : list (Z * string) :=
  [(0, "INSTITUTION_TYPE_UNSPECIFIED"); (1, "INSTITUTION_TYPE_FINANCIAL"); (2, "INSTITUTION_TYPE_FX")].
Definition InstitutionRole_name : list (Z * string) :=
  [(0, "INSTITUTION_ROLE_UNSPECIFIED"); (1, "INSTITUTION_ROLE_ADMIN"); (2, "INSTITUTION_ROLE_OPERATOR");
   (3, "INSTITUTION_ROLE_FINANCE"); (4, "INSTITUTION_ROLE_COMPLIANCE"); (5, "INSTITUTION_ROLE_DEVELOPER");
   (6, "INSTITUTION_ROLE_VIEWER")].

(** ** Records *)
Record Caps := mkCaps {
  MintDaily : string; MintPerTx : string; MintPerUser : string;
  RedeemDaily : string; RedeemPerTx : string; RedeemPerUser : string }.
Record KycTierLimit := mkKycTierLimit { kt_Tier : Z; kt_DailyLimitToman : string }.
Record AutoSuspendRules := mkAutoSuspend { MaxVaultAttestationLatencyS : Z }.
Record InstitutionParams := mkInstParams {
  ip_Caps : Caps;
  ip_KycTierLimits : list KycTierLimit;
  ip_AutoSuspendRules : AutoSuspendRules;
  ip_VaultApiEndpoint : string;
  ip_SensitiveThreshold : Z;       (** uint32 *)
}.
Record AppServices := mkAppServices {
  MintEnabled : bool; RedeemEnabled : bool; WithdrawEnabled : bool;
  ShowLiveScanLink : bool; ShowSupportContact : bool; ShowGuide : bool }.
Record InstitutionAppConfig := mkAppConfig {
  ac_Services : AppServices; ac_LiveScanUrl : string; ac_LiveScanDomain : string;
  ac_DisplayNameFa : string; ac_DisplayNameEn : string; ac_LogoHash : string; ac_SupportContact : string }.

Record Institution := mkInstitution {
  inst_Id : string;
  inst_License : string;
  inst_Admin : string;
  inst_VaultAccount : string;
  inst_VaultApi : string;
  inst_Bond : string;
  inst_Status : Z;
  inst_VaultBalance : string;
  inst_AttestedReserve : string;
  inst_PausedMint : bool;
  inst_AppConfig : InstitutionAppConfig;
  inst_Params : InstitutionParams;
  inst_InstitutionType : Z;
  inst_DepositPubkey : string;
  inst_LastAttestedAt : Z;         (** int64 *)
}.

Record EmergencyRedemption := mkEmergency {
  em_Active : bool; em_StartedAt : Z;
  em_CapBeforeDay30 : string; em_CapFromDay30 : string; em_CapFromDay60 : string }.
Record RoleGrant := mkRoleGrant { rg_Institution : string; rg_Address : string; rg_Role : Z }.
Record FxEntryRequest := mkFxEntryRequest {
  fx_FxId : string; fx_Applicant : string; fx_License : string; fx_GuarantorId : string; fx_Status : Z }.

Record Params := mkParams {
  Operator : string;
  PhiToToman : Z;                       (** uint64 *)
  RedeemFloorPerTx : string;
  EmergencyRedemptionP : EmergencyRedemption;
  PenaltyDestinationP : string;
  LargeMintThresholdToman : string;
  MintCeilingPerTx : string;
  MintCeilingDaily : string;
  RedeemDailyCapPerDidUphi : string;
  ProtocolFeeBps : Z;                   (** uint32 *)
  MaxAttestationStalenessSeconds : Z;   (** uint64 *)
}.

(** zero values of the nested messages *)
Definition zero_caps : Caps := mkCaps "" "" "" "" "" "".
Definition zero_inst_params : InstitutionParams := mkInstParams zero_caps [] (mkAutoSuspend 0) "" 0.
Definition zero_app_config : InstitutionAppConfig := 
  mkAppConfig (mkAppServices false false false false false false) "" "" "" "" "" "".
Definition zero_emergency : EmergencyRedemption := mkEmergency false 0 "" "" "".

(** ** Constants *)
Definition InstModuleName : string := "institutions".
Definition DefaultPhiToToman : Z := 100000.
Definition DefaultSensitiveThreshold : Z := 2.
Definition DefaultProtocolFeeBps : Z := 20.
Definition MaxProtocolFeeBps : Z := 1000.
Definition DefaultMaxAttestationStalenessSeconds : Z := 24 * 60 * 60.
Definition MaxAttestationStalenessCeiling : Z := 90 * 24 * 60 * 60.
Definition DefaultRedeemFloorToman : string := "100000".
Definition DefaultRedeemDailyCapPerDidUphi : string := "200000000".
Definition EmergencyDay30 : Z := 30 * 86400.
Definition EmergencyDay60 : Z := 60 * 86400.
Definition EmergencyDay90 : Z := 90 * 86400.
Definition DefaultEmergencyCapFromDay30Toman : string := "20000000".
Definition DefaultEmergencyCapFromDay60Toman : string := "200000000".
Definition MaxInstitutionIDLen : Z := 255.
Definition MaxLicenseLen : Z := 1024.
Definition MaxRefLen : Z := 128.
Definition MaxFxFieldLen : Z := 128.
Definition MinAdminsForMint : Z := 2.

Definition inst_err (code : Z) : error := Registered InstModuleName code.
Definition ErrInstitutionExists := inst_err 2.
Definition ErrInstitutionNotFound := inst_err 3.
Definition ErrInstitutionFrozen := inst_err 4.
Definition ErrInvalidAmount := inst_err 5.
Definition ErrMintExceedsBacking := inst_err 6.
Definition ErrInsufficientVault := inst_err 7.
Definition ErrUnauthorized := inst_err 8.
Definition ErrMintPaused := inst_err 9.
Definition ErrVaultNotEmpty := inst_err 10.
Definition ErrInvalidParams := inst_err 11.
Definition ErrNonIntegralMint := inst_err 12.
Definition ErrSolvencyBroken := inst_err 13.
Definition ErrRoleNotAuthorized := inst_err 14.
Definition ErrInvalidRole := inst_err 15.
Definition ErrCapExceeded := inst_err 16.
Definition ErrLooserThanFloor := inst_err 17.
Definition ErrDuplicateDeposit := inst_err 18.
Definition ErrIDTooLong := inst_err 19.
Definition ErrInvalidFxMetadata := inst_err 20.
Definition ErrInvalidInstitutionType := inst_err 21.
Definition ErrInvalidDepositProof := inst_err 22.
Definition ErrKycTierExceeded := inst_err 23.
Definition ErrRedemptionThrottled := inst_err 24.
Definition ErrFxOnboarding := inst_err 25.
Definition ErrGuarantorRequired := inst_err 26.
Definition ErrMissingRef := inst_err 27.
Definition ErrNothingRedeemed := inst_err 28.
Definition ErrAttestationStale := inst_err 29.
Definition ErrTooFewAdmins := inst_err 30.
Definition ErrAttestorIsMinter := inst_err 31.
Definition ErrBelowMinRedeem := inst_err 32.
Definition ErrRemovalInProgress := inst_err 33.

Definition DefaultParams : Params := {|
  Operator := "";
  PhiToToman := DefaultPhiToToman;
  RedeemFloorPerTx := DefaultRedeemFloorToman;
  RedeemDailyCapPerDidUphi := DefaultRedeemDailyCapPerDidUphi;
  ProtocolFeeBps := DefaultProtocolFeeBps;
  MaxAttestationStalenessSeconds := DefaultMaxAttestationStalenessSeconds;
  EmergencyRedemptionP := zero_emergency;
  PenaltyDestinationP := "";
  LargeMintThresholdToman := "";
  MintCeilingPerTx := "";
  MintCeilingDaily := "";
|}.

(** ** Caps *)
Definition validateNonNegToman (s : string) : outcome unit :=
  if bool_decide (s = "") then Ok tt else
  v ← or_err (NewIntFromString s) (Plain "invalid integer");
  err_if (IsNegative v) (Plain "must not be negative").

Definition CapInt (s : string) : Z :=
  if bool_decide (s = "") then 0 else
  match NewIntFromString s with
  | Some v => if IsNegative v then 0 else v
  | None => 0
  end.

Definition AtLeastFloor (cap floor : Z) : Z :=
  if IsPositive cap && IsPositive floor && (cap <? floor) then floor else cap.

Definition RedeemFloorUphi (p : Params) : outcome Z :=
  let toman := CapInt (RedeemFloorPerTx p) in
  if negb (IsPositive toman) || (PhiToToman p =? 0) then Ok 0 else
  num ← toman *! UphiPerPhi;
  r ← num %! PhiToToman p;
  if negb (IsZero r) then Ok 0 else num /! PhiToToman p.

Definition ProtocolFee (p : Params) (amount : Z) : outcome Z :=
  if ProtocolFeeBps p =? 0 then Ok 0 else
  x ← amount *! ProtocolFeeBps p;
  x /! BpsDenominator.

Definition EmergencyRedemption_Validate (e : EmergencyRedemption) : outcome unit :=
  validateNonNegToman (em_CapBeforeDay30 e);;
  validateNonNegToman (em_CapFromDay30 e);;
  validateNonNegToman (em_CapFromDay60 e);;
  err_if (em_Active e && (em_StartedAt e <? 0)) (Plain "started_at must not be negative").

(** a positive cap below the floor *)
Definition below_floor (floor : Z) (s : string) : bool :=
  IsPositive (CapInt s) && (CapInt s <? floor).

Definition Params_Validate `{AddressCodec} (p : Params) : outcome unit :=
  err_if (PhiToToman p =? 0) (Plain "phi_to_toman must be > 0");;
  err_if (negb (UphiPerPhi mod PhiToToman p =? 0)) (Plain "phi_to_toman must divide UphiPerPhi");;
  err_if (negb (bool_decide (Operator p = "")) && negb (is_bech32 (Operator p))) (Plain "invalid operator address");;
  err_if (negb (bool_decide (PenaltyDestinationP p = "")) && negb (is_bech32 (PenaltyDestinationP p)))
    (Plain "invalid penalty_destination address");;
  validateNonNegToman (RedeemFloorPerTx p);;
  err_if (negb (IsPositive (CapInt (RedeemFloorPerTx p)))) (Plain "redeem_floor_per_tx must be positive");;
  validateNonNegToman (LargeMintThresholdToman p);;
  validateNonNegToman (MintCeilingPerTx p);;
  validateNonNegToman (MintCeilingDaily p);;
  validateNonNegToman (RedeemDailyCapPerDidUphi p);;
  let cap := CapInt (RedeemDailyCapPerDidUphi p) in
  (if IsPositive cap then
     floor ← RedeemFloorUphi p;
     err_if (IsPositive floor && (cap <? floor)) (Plain "redeem_daily_cap_per_did_uphi is below the floor")
   else Ok tt);;
  err_if (MaxProtocolFeeBps <? ProtocolFeeBps p) (Plain "protocol_fee_bps exceeds the sanity ceiling");;
  err_if (MaxAttestationStalenessCeiling <? MaxAttestationStalenessSeconds p)
    (Plain "max_attestation_staleness_seconds exceeds the sanity ceiling");;
  EmergencyRedemption_Validate (EmergencyRedemptionP p);;
  let floor := CapInt (RedeemFloorPerTx p) in
  let em := EmergencyRedemptionP p in
  err_if (IsPositive floor &&
          existsb (below_floor floor) [em_CapBeforeDay30 em; em_CapFromDay30 em; em_CapFromDay60 em])
    (Plain "emergency cap is below the protocol redeem floor").

(** the first redeem cap that is positive and below the floor, with its name *)
Definition redeem_caps (p : InstitutionParams) : list (string * string) :=
  [("redeem_per_tx", RedeemPerTx (ip_Caps p));
   ("redeem_daily", RedeemDaily (ip_Caps p));
   ("redeem_per_user", RedeemPerUser (ip_Caps p))]
  ++ map (λ kt, ("kyc_tier_limit[" +:+ Int_String (kt_Tier kt) +:+ "]", kt_DailyLimitToman kt))
       (ip_KycTierLimits p).
Definition RedeemCapsBelowFloor (p : InstitutionParams) (floor : Z) : option (string * Z) :=
  if negb (IsPositive floor) then None else
  match List.find (λ nc, below_floor floor nc.2) (redeem_caps p) with
  | Some nc => Some (nc.1, CapInt nc.2)
  | None => None
  end.

Definition InstitutionParams_Validate (p : InstitutionParams) : outcome unit :=
  let c := ip_Caps p in
  ofold (λ _ s, validateNonNegToman s)
    ([MintDaily c; MintPerTx c; MintPerUser c; RedeemDaily c; RedeemPerTx c; RedeemPerUser c]
     ++ map kt_DailyLimitToman (ip_KycTierLimits p)) tt.

(** ** Attestation staleness *)
Definition EffectiveStaleness (floorSeconds instLatencySeconds : Z) : Z :=
  if instLatencySeconds =? 0 then floorSeconds
  else if (floorSeconds =? 0) || (instLatencySeconds <? floorSeconds) then instLatencySeconds
  else floorSeconds.

Definition IsAttestationStale (lastAttestedAt blockTime threshold : Z) : bool :=
  if threshold =? 0 then false else
  let deadline := u64 (u64 lastAttestedAt + threshold) in
  if lastAttestedAt <? 0 then true else
  (0 <=? blockTime) && (deadline <? u64 blockTime).

Definition IsStaleAt (inst : Institution) (blockTime floorSeconds : Z) : bool :=
  IsAttestationStale (inst_LastAttestedAt inst) blockTime
    (EffectiveStaleness floorSeconds (MaxVaultAttestationLatencyS (ip_AutoSuspendRules (inst_Params inst)))).

(** ** Store layout *)
Definition ParamsKey : string := key_prefix 0.
Definition InstitutionPrefix : string := key_prefix 16.
Definition RolePrefix : string := key_prefix 32.
Definition ApprovalPrefix : string := key_prefix 48.
Definition CounterPrefix : string := key_prefix 64.
Definition DepositPrefix : string := key_prefix 80.
Definition FxRequestPrefix : string := key_prefix 96.
Definition AdminEpochPrefix : string := key_prefix 112.
Definition RedeemSubjectPrefix : string := key_prefix 128.
Definition CounterPruneCursorPrefix : string := key_prefix 144.
Definition HolderKycTierPrefix : string := key_prefix 160.
Definition LastAttestorPrefix : string := key_prefix 161.
Definition RemovalQueuePrefix : string := key_prefix 176.
Definition ResidualStorePrefixes : list string :=
  [AdminEpochPrefix; RedeemSubjectPrefix; HolderKycTierPrefix; LastAttestorPrefix].

Definition DepositMarkerByte : string := key_prefix 1.
Definition RemovalQueueMarkerByte : string := key_prefix 1.
Definition RedeemSubjectDID : string := key_prefix 1.
Definition RedeemSubjectUnidentified : string := key_prefix 2.
Definition UnidentifiedRedeemSubject : string := "unidentified".
Definition CounterRetentionDays : Z := 2.
Definition CounterPruneBudget : nat := 256.
Definition RemovalPruneBudget : nat := 512.

Definition i64be (v : Z) : string := be64 v.

Definition InstitutionKey (id : string) : string := InstitutionPrefix +:+ id.
Definition RoleKey (instID addr : string) : string := RolePrefix +:+ lenPrefixedID instID +:+ addr.
Definition RolePrefixFor (instID : string) : string := RolePrefix +:+ lenPrefixedID instID.
Definition ApprovalPrefixFor (instID contentHash : string) : string :=
  ApprovalPrefix +:+ lenPrefixedID instID +:+ contentHash.
Definition ApprovalKey (instID contentHash signer : string) : string :=
  ApprovalPrefix +:+ lenPrefixedID instID +:+ contentHash +:+ signer.
Definition ApprovalInstitutionPrefixFor (instID : string) : string := ApprovalPrefix +:+ lenPrefixedID instID.
Definition HolderKycTierPrefixFor (instID : string) : string := HolderKycTierPrefix +:+ lenPrefixedID instID.
Definition HolderKycTierKey (instID holder : string) : string :=
  HolderKycTierPrefix +:+ lenPrefixedID instID +:+ holder.
Definition PerInstitutionRangePrefixes (instID : string) : list string :=
  [RolePrefixFor instID; ApprovalInstitutionPrefixFor instID; HolderKycTierPrefixFor instID].
Definition LastAttestorKey (instID : string) : string := LastAttestorPrefix +:+ instID.
Definition AdminEpochKey (instID : string) : string := AdminEpochPrefix +:+ lenPrefixedID instID.
Definition FxRequestKey (fxID : string) : string := FxRequestPrefix +:+ fxID.
Definition RemovalQueueKey (id : string) : string := RemovalQueuePrefix +:+ lenPrefixedID id.
Definition DepositKey (instID direction ref : string) : string :=
  DepositPrefix +:+ lenPrefixedID instID +:+ lenPrefixedID direction +:+ ref.
Definition CounterTotalKey (instID kind : string) (day : Z) : string :=
  CounterPrefix +:+ lenPrefixedID instID +:+ lenPrefixedID kind +:+ i64be day.
Definition CounterUserKey (instID kind : string) (day : Z) (addr : string) : string :=
  CounterTotalKey instID kind day +:+ addr.
Definition RedeemSubjectCounterKey (day : Z) (kind subject : string) : string :=
  RedeemSubjectPrefix +:+ i64be day +:+ kind +:+ subject.
Definition RedeemSubjectDayBound (day : Z) : string := RedeemSubjectPrefix +:+ i64be day.
Definition CounterPruneCursorKey : string := CounterPruneCursorPrefix.

Definition IsResidualStoreKey (key : string) : bool :=
  existsb (λ p, (strlen p <? strlen key) && has_prefix p key) ResidualStorePrefixes.

Definition IsPrunableCounterKind (kind : string) : bool :=
  bool_decide (kind ∈ ["md"; "mu"; "rd"; "ru"]).

(** the byte at an index, as an integer *)
Definition byte_at (key : string) (i : nat) : option Z := char_code <$> String.get i key.

Definition ParseCounterKeyDay (key : string) : option (string * Z) :=
  b0 ← byte_at key 0;
  if negb (b0 =? 64) then None else
  l1 ← byte_at key 1;
  let p := (2 + Z.to_nat l1)%nat in
  if (String.length key <? p)%nat then None else
  l2 ← byte_at key p;
  let q := (p + 1)%nat in
  let r := (q + Z.to_nat l2)%nat in
  if (String.length key <? r)%nat then None else
  if (String.length key <? r + 8)%nat then None else
  Some (String.substring q (Z.to_nat l2) key, i64 (BigEndian_Uint (String.substring r 8 key))).

Definition IDFromLenPrefixedKey (key prefix : string) : option string :=
  if (String.length key <? String.length prefix + 1)%nat || negb (has_prefix prefix key) then None else
  let p := String.length prefix in
  l ← byte_at key p;
  if (String.length key <? p + 1 + Z.to_nat l)%nat then None else
  Some (String.substring (p + 1) (Z.to_nat l) key).
Definition ParseRemovalQueueKey (key : string) : option string := IDFromLenPrefixedKey key RemovalQueuePrefix.
