(* ===== verification/InstKeeper.v ===== *)
(** * The keeper of x/institutions

    [x/institutions/keeper/keeper.go], [rbac.go], [kyc_tier.go], [mint_separation.go],
    [emergency.go] (the schedule), [invariants.go] and [redeem_split.go]: reads and
    writes of the registry, roles and the aggregated approvals, the mint and redeem
    caps with their daily counters, the anti-replay markers, the decomposition of a
    redemption and the solvency invariant.  A read is a function of the store, a
    write an action on it. *)
From stdpp Require Import base gmap strings list fin_maps sorting.
From Stdlib Require Import ZArith Lia.
From S2P Require Import Prelude GoInt KVStore Interfaces CoinTypes InstTypes.

(** ** State *)
Inductive inst_val :=
| VParams (p : Params)
| VInstitution (i : Institution)
| VRole (rg : RoleGrant)
| VFxRequest (r : FxEntryRequest)
| VBytes (bz : string).
Abbreviation InstStore := (KVStore inst_val).

(** a raw value; the keys of raw records never hold a structured one *)
Definition raw (st : InstStore) (key : string) : outcome (option string) :=
  match st !! key with
  | None => Ok None
  | Some (VBytes bz) => Ok (Some bz)
  | Some _ => Panic "not a raw value"
  end.
Definition Has (st : InstStore) (key : string) : bool := bool_decide (is_Some (st !! key)).
Definition write (key : string) (v : inst_val) : M InstStore unit := modify (<[key := v]>).
Definition Delete (key : string) : M InstStore unit := modify (delete key).

(** ** Registry *)
Definition GetParams (st : InstStore) : outcome Params :=
  match st !! ParamsKey with
  | None => Ok DefaultParams
  | Some (VParams p) => Ok p
  | Some _ => Panic "unmarshal"
  end.

Definition decode_Institution (v : inst_val) : outcome Institution :=
  match v with VInstitution i => Ok i | _ => Panic "unmarshal" end.
Definition SetInstitution (inst : Institution) : M InstStore unit :=
  write (InstitutionKey (inst_Id inst)) (VInstitution inst).
Definition GetInstitution (st : InstStore) (id : string) : outcome (option Institution) :=
  match st !! InstitutionKey id with
  | None => Ok None
  | Some v => i ← decode_Institution v; Ok (Some i)
  end.
Definition HasInstitution (st : InstStore) (id : string) : bool := Has st (InstitutionKey id).
Definition removeInstitutionSingleRecords (id : string) : M InstStore unit :=
  Delete (InstitutionKey id);; Delete (AdminEpochKey id);; Delete (LastAttestorKey id).

Definition mustInt (s : string) : Z := default 0 (NewIntFromString s).
Definition mustIntStrict (s : string) : outcome Z :=
  match NewIntFromString s with Some v => Ok v | None => Panic "unparseable vault_balance" end.

Definition IterateInstitutions (st : InstStore) : outcome (list Institution) :=
  ofold (λ acc kv, i ← decode_Institution kv.2; Ok (acc ++ [i]))
    (KVStorePrefixIterator st InstitutionPrefix) [].
Definition SumVaultBalance (st : InstStore) : outcome Z :=
  ofold (λ sum kv, i ← decode_Institution kv.2; v ← mustIntStrict (inst_VaultBalance i); sum +! v)
    (KVStorePrefixIterator st InstitutionPrefix) 0.

Definition SetParams `{AddressCodec} (p : Params) : M InstStore unit :=
  lift (Params_Validate p);;
  cur ← query GetParams;
  (if PhiToToman cur =? PhiToToman p then mret tt else
   sum ← query SumVaultBalance;
   fail_if (IsPositive sum) ErrInvalidParams);;
  write ParamsKey (VParams p).

Definition MintedUphiForToman (toman phiToToman : Z) : outcome (Z * bool) :=
  num ← toman *! UphiPerPhi;
  q ← num /! phiToToman;
  r ← num %! phiToToman;
  Ok (q, IsZero r).

(** ** Roles *)
Section roles.
Context `{AddressCodec}.

Definition decode_Role (v : inst_val) : outcome RoleGrant :=
  match v with VRole rg => Ok rg | _ => Panic "unmarshal" end.
Definition SetRole (instID addr : string) (role : Z) : M InstStore unit :=
  write (RoleKey instID addr) (VRole (mkRoleGrant instID (AccAddress_String addr) role)).
Definition GetRole (st : InstStore) (instID addr : string) : outcome Z :=
  match st !! RoleKey instID addr with
  | None => Ok INSTITUTION_ROLE_UNSPECIFIED
  | Some v => rg ← decode_Role v; Ok (rg_Role rg)
  end.
Definition DeleteRole (instID addr : string) : M InstStore unit := Delete (RoleKey instID addr).
Definition iterate_roles (st : InstStore) (prefix : string) : outcome (list RoleGrant) :=
  ofold (λ acc kv, rg ← decode_Role kv.2; Ok (acc ++ [rg])) (KVStorePrefixIterator st prefix) [].
Definition IterateRolesFor (st : InstStore) (instID : string) := iterate_roles st (RolePrefixFor instID).
Definition IterateAllRoles (st : InstStore) := iterate_roles st RolePrefix.

Definition effectiveRole (st : InstStore) (inst : Institution) (signer : string) : outcome Z :=
  if bool_decide (AccAddress_String signer = inst_Admin inst) then Ok INSTITUTION_ROLE_ADMIN
  else GetRole st (inst_Id inst) signer.

Definition requireRole (st : InstStore) (inst : Institution) (signerBech : string) (allowed : list Z)
    : outcome unit :=
  signer ← or_err (AccAddressFromBech32 signerBech) ErrBech32;
  role ← effectiveRole st inst signer;
  if existsb (λ a, role =? a) allowed then Ok tt else Err ErrRoleNotAuthorized.

(** the set of admin address strings: the root admin and every ADMIN grant *)
Definition admin_set (st : InstStore) (inst : Institution) : outcome (gset string) :=
  grants ← IterateRolesFor st (inst_Id inst);
  let add (a : string) (s : gset string) := if is_bech32 a then {[a]} ∪ s else s in
  Ok (foldl (λ s rg, if rg_Role rg =? INSTITUTION_ROLE_ADMIN then add (rg_Address rg) s else s)
        (add (inst_Admin inst) ∅) grants).
Definition countAdmins (st : InstStore) (inst : Institution) : outcome Z :=
  s ← admin_set st inst;
  Ok (u32 (Z.of_nat (size s))).

Definition effectiveThreshold (st : InstStore) (inst : Institution) : outcome Z :=
  let t := if ip_SensitiveThreshold (inst_Params inst) =? 0 then DefaultSensitiveThreshold
           else ip_SensitiveThreshold (inst_Params inst) in
  n ← countAdmins st inst;
  let admins := if n =? 0 then 1 else n in
  Ok (if admins <? t then admins else t).

(** ** Aggregated approvals *)
Definition adminEpoch (st : InstStore) (instID : string) : outcome Z :=
  bz ← raw st (AdminEpochKey instID);
  match bz with
  | Some s => if negb (strlen s =? 8) then Ok 0 else BigEndian_Uint64 s
  | None => Ok 0
  end.
Definition bumpAdminEpoch (instID : string) : M InstStore unit :=
  e ← query (λ st, adminEpoch st instID);
  write (AdminEpochKey instID) (VBytes (be64 (u64 (e + 1)))).

(** the bytes of a key past a prefix *)
Definition key_rest (prefix key : string) : string :=
  String.substring (String.length prefix) (String.length key - String.length prefix) key.

(** whether a recorded approval counts: stamped with this epoch by a current admin *)
Definition approval_counts (st : InstStore) (inst : Institution) (prefix : string) (epoch : Z)
    (kv : string * inst_val) : outcome bool :=
  match kv.2 with
  | VBytes bz =>
      if negb (strlen bz =? 8) then Ok false else
      e ← BigEndian_Uint64 bz;
      if negb (e =? epoch) then Ok false else
      role ← effectiveRole st inst (key_rest prefix kv.1);
      Ok (role =? INSTITUTION_ROLE_ADMIN)
  | _ => Panic "not a raw value"
  end.
Definition countApprovals (st : InstStore) (inst : Institution) (contentHash : string) : outcome Z :=
  let prefix := ApprovalPrefixFor (inst_Id inst) contentHash in
  epoch ← adminEpoch st (inst_Id inst);
  ofold (λ n kv, c ← approval_counts st inst prefix epoch kv;
                 Ok (if (c : bool) then u32 (n + 1) else n))
    (KVStorePrefixIterator st prefix) 0.
Definition recordApproval (inst : Institution) (contentHash signer : string) : M InstStore Z :=
  epoch ← query (λ st, adminEpoch st (inst_Id inst));
  write (ApprovalKey (inst_Id inst) contentHash signer) (VBytes (be64 epoch));;
  query (λ st, countApprovals st inst contentHash).

Definition delete_keys (keys : list string) (st : InstStore) : InstStore :=
  foldl (λ s key, delete key s) st keys.
Definition clearApprovals (instID contentHash : string) : M InstStore unit :=
  modify (λ st, delete_keys (map fst (KVStorePrefixIterator st (ApprovalPrefixFor instID contentHash))) st).

Definition contentHashOf `{Hasher} (parts : list string) : string := sha256 (lengthPrefixed parts).
Definition roleBytes (r : Z) : string := be32 (u32 r).

(** ** Attest/mint separation *)
Definition SetLastAttestor (instID attestor : string) : M InstStore unit :=
  write (LastAttestorKey instID) (VBytes attestor).
Definition LastAttestor (st : InstStore) (instID : string) : outcome (option string) :=
  bz ← raw st (LastAttestorKey instID);
  Ok (match bz with Some s => if strlen s =? 0 then None else Some s | None => None end).

Definition requireMintSeparation (st : InstStore) (inst : Institution) (minterBech : string) : outcome unit :=
  admins ← countAdmins st inst;
  err_if (admins <? MinAdminsForMint) ErrTooFewAdmins;;
  minter ← or_err (AccAddressFromBech32 minterBech) ErrBech32;
  attestor ← LastAttestor st (inst_Id inst);
  match attestor with
  | None => Err ErrAttestorIsMinter
  | Some a => err_if (bool_decide (a = minter)) ErrAttestorIsMinter
  end.
End roles.

(** ** Counters *)
Definition dayIndex (ctx : Context) : Z := Z.quot (BlockTime ctx) 86400.

Definition parseCounter (bz : option string) : Z :=
  match bz with None => 0 | Some s => default 0 (NewIntFromString s) end.
Definition get_counter (st : InstStore) (key : string) : outcome Z :=
  bz ← raw st key; Ok (parseCounter bz).
Definition add_counter (key : string) (amt : Z) : M InstStore unit :=
  c ← query (λ st, get_counter st key);
  v ← lift (c +! amt);
  write key (VBytes (Int_String v)).

Definition getCounterTotal (st : InstStore) (instID kind : string) (day : Z) : outcome Z :=
  get_counter st (CounterTotalKey instID kind day).
Definition getCounterUser (st : InstStore) (instID kind : string) (day : Z) (addr : string) : outcome Z :=
  get_counter st (CounterUserKey instID kind day addr).
Definition addCounterTotal (instID kind : string) (day amt : Z) : M InstStore unit :=
  add_counter (CounterTotalKey instID kind day) amt.
Definition addCounterUser (instID kind : string) (day : Z) (addr : string) (amt : Z) : M InstStore unit :=
  add_counter (CounterUserKey instID kind day addr) amt.
Definition getRedeemSubjectTotal (st : InstStore) (day : Z) (kind subject : string) : outcome Z :=
  get_counter st (RedeemSubjectCounterKey day kind subject).
Definition addRedeemSubjectTotal (day : Z) (kind subject : string) (uphi : Z) : M InstStore unit :=
  add_counter (RedeemSubjectCounterKey day kind subject) uphi.

(** ** KYC tiers *)
Definition kycTierDailyLimit (p : InstitutionParams) (tier : Z) : Z :=
  match List.find (λ kt, kt_Tier kt =? tier) (ip_KycTierLimits p) with
  | Some kt => CapInt (kt_DailyLimitToman kt)
  | None => 0
  end.
Definition HolderKycTier (st : InstStore) (instID holder : string) : outcome (option Z) :=
  bz ← raw st (HolderKycTierKey instID holder);
  Ok (match bz with Some s => if negb (strlen s =? 4) then None else Some (BigEndian_Uint s) | None => None end).
Definition SetHolderKycTier (instID holder : string) (tier : Z) : M InstStore unit :=
  write (HolderKycTierKey instID holder) (VBytes (be32 tier)).
Definition strictestKycLimit (p : InstitutionParams) : option Z :=
  foldl (λ best kt,
    let lim := CapInt (kt_DailyLimitToman kt) in
    if negb (IsPositive lim) then best else
    match best with
    | None => Some lim
    | Some s => if lim <? s then Some lim else best
    end) None (ip_KycTierLimits p).

Definition effectiveMintKycDailyLimit (st : InstStore) (inst : Institution) (recipient : string) (asserted : Z)
    : outcome Z :=
  let asserted_limit := kycTierDailyLimit (inst_Params inst) asserted in
  let resolved := if IsPositive asserted_limit then Some asserted_limit
                  else strictestKycLimit (inst_Params inst) in
  match resolved with
  | None => Ok 0
  | Some limit =>
      recorded ← HolderKycTier st (inst_Id inst) recipient;
      Ok (match recorded with
          | Some tier =>
              let rl := kycTierDailyLimit (inst_Params inst) tier in
              if IsPositive rl && (rl <? limit) then rl else limit
          | None => limit
          end)
  end.
Definition effectiveKycDailyLimit (st : InstStore) (inst : Institution) (holder : string) : outcome Z :=
  recorded ← HolderKycTier st (inst_Id inst) holder;
  let assigned := match recorded with
                  | Some tier => kycTierDailyLimit (inst_Params inst) tier
                  | None => 0
                  end in
  Ok (if IsPositive assigned then assigned else default 0 (strictestKycLimit (inst_Params inst))).

(** ** Mint caps *)

(** [if lim.IsPositive() && toman.GT(lim)], and the same for a daily total *)
Definition over_limit (lim total : Z) : bool := IsPositive lim && (lim <? total).
Definition check_total (lim : Z) (counter : outcome Z) (amt : Z) (e : error) : outcome unit :=
  if negb (IsPositive lim) then Ok tt else
  c ← counter; t ← c +! amt;
  err_if (lim <? t) e.

Definition enforceMintCaps (ctx : Context) (st : InstStore) (inst : Institution) (recipient : string)
    (toman kycTier : Z) : outcome unit :=
  let c := ip_Caps (inst_Params inst) in
  let day := dayIndex ctx in
  mp ← GetParams st;
  err_if (over_limit (CapInt (MintCeilingPerTx mp)) toman) ErrCapExceeded;;
  check_total (CapInt (MintCeilingDaily mp)) (getCounterTotal st (inst_Id inst) "md" day) toman ErrCapExceeded;;
  err_if (over_limit (CapInt (MintPerTx c)) toman) ErrCapExceeded;;
  check_total (CapInt (MintDaily c)) (getCounterTotal st (inst_Id inst) "md" day) toman ErrCapExceeded;;
  check_total (CapInt (MintPerUser c)) (getCounterUser st (inst_Id inst) "mu" day recipient) toman ErrCapExceeded;;
  lim ← effectiveMintKycDailyLimit st inst recipient kycTier;
  check_total lim (getCounterUser st (inst_Id inst) "mu" day recipient) toman ErrKycTierExceeded.

Definition addMintCounters (ctx : Context) (inst : Institution) (recipient : string) (toman : Z) : M InstStore unit :=
  let day := dayIndex ctx in
  addCounterTotal (inst_Id inst) "md" day toman;;
  addCounterUser (inst_Id inst) "mu" day recipient toman.

(** ** The emergency schedule *)
Definition emergencyCapOrDefault (v def : string) : Z := if bool_decide (v = "") then CapInt def else CapInt v.
(** [None]: no cap *)
Definition emergencyCapForElapsed (em : EmergencyRedemption) (elapsed : Z) : option Z :=
  if elapsed <? EmergencyDay30 then Some (CapInt (em_CapBeforeDay30 em))
  else if elapsed <? EmergencyDay60 then
    Some (emergencyCapOrDefault (em_CapFromDay30 em) DefaultEmergencyCapFromDay30Toman)
  else if elapsed <? EmergencyDay90 then
    Some (emergencyCapOrDefault (em_CapFromDay60 em) DefaultEmergencyCapFromDay60Toman)
  else None.
Definition defaultIfEmpty (v def : string) : string := if bool_decide (v = "") then def else v.

(** ** Redeem caps *)
Section redeem.
Context {I : Type} `{IdentityKeeper I} `{AddressCodec}.

Definition redeemSubject (ident : I) (holder : string) : string * string :=
  match SubjectDID ident (AccAddress_String holder) with
  | Some did => if bool_decide (did = "") then (RedeemSubjectUnidentified, UnidentifiedRedeemSubject)
                else (RedeemSubjectDID, did)
  | None => (RedeemSubjectUnidentified, UnidentifiedRedeemSubject)
  end.

Definition withinFloorReservation (ctx : Context) (ident : I) (st : InstStore) (holder : string) (uphi : Z)
    : outcome bool :=
  mp ← GetParams st;
  let floorToman := CapInt (RedeemFloorPerTx mp) in
  if negb (IsPositive floorToman) then Ok false else
  '(floorUphi, integral) ← MintedUphiForToman floorToman (PhiToToman mp);
  if negb integral || negb (IsPositive floorUphi) then Ok false else
  let '(kind, subject) := redeemSubject ident holder in
  c ← getRedeemSubjectTotal st (dayIndex ctx) kind subject;
  t ← c +! uphi;
  Ok (t <=? floorUphi).

(** the institution's daily cap, with the floor reservation as the way past it *)
Definition check_redeem_daily (ctx : Context) (ident : I) (st : InstStore) (inst : Institution)
    (holder : string) (lim toman uphi : Z) : outcome unit :=
  if negb (IsPositive lim) then Ok tt else
  c ← getCounterTotal st (inst_Id inst) "rd" (dayIndex ctx);
  t ← c +! toman;
  if negb (lim <? t) then Ok tt else
  within ← withinFloorReservation ctx ident st holder uphi;
  err_if (negb within) ErrCapExceeded.

Definition check_emergency (ctx : Context) (st : InstStore) (inst : Institution) (holder : string) (toman : Z)
    : outcome unit :=
  p ← GetParams st;
  let em := EmergencyRedemptionP p in
  if negb (em_Active em) then Ok tt else
  match emergencyCapForElapsed em (i64 (BlockTime ctx - em_StartedAt em)) with
  | None => Ok tt
  | Some capToman =>
      already ← getCounterUser st (inst_Id inst) "er" (em_StartedAt em) holder;
      t ← already +! toman;
      err_if (capToman <? t) ErrRedemptionThrottled
  end.

Definition enforceRedeemCaps (ctx : Context) (ident : I) (st : InstStore) (inst : Institution)
    (holder : string) (toman uphi : Z) : outcome unit :=
  let c := ip_Caps (inst_Params inst) in
  let day := dayIndex ctx in
  p ← GetParams st;
  let floor := CapInt (RedeemFloorPerTx p) in
  err_if (over_limit (AtLeastFloor (CapInt (RedeemPerTx c)) floor) toman) ErrCapExceeded;;
  check_redeem_daily ctx ident st inst holder (AtLeastFloor (CapInt (RedeemDaily c)) floor) toman uphi;;
  check_total (AtLeastFloor (CapInt (RedeemPerUser c)) floor)
    (getCounterUser st (inst_Id inst) "ru" day holder) toman ErrCapExceeded;;
  kyc ← effectiveKycDailyLimit st inst holder;
  check_total (AtLeastFloor kyc floor) (getCounterUser st (inst_Id inst) "ru" day holder) toman ErrKycTierExceeded;;
  floorUphi ← RedeemFloorUphi p;
  (let '(kind, subject) := redeemSubject ident holder in
   check_total (AtLeastFloor (CapInt (RedeemDailyCapPerDidUphi p)) floorUphi)
     (getRedeemSubjectTotal st day kind subject) uphi ErrCapExceeded);;
  check_emergency ctx st inst holder toman.

Definition addRedeemCounters (ctx : Context) (ident : I) (inst : Institution) (holder : string) (toman uphi : Z)
    : M InstStore unit :=
  let day := dayIndex ctx in
  addCounterTotal (inst_Id inst) "rd" day toman;;
  addCounterUser (inst_Id inst) "ru" day holder toman;;
  (let '(kind, subject) := redeemSubject ident holder in addRedeemSubjectTotal day kind subject uphi);;
  p ← query GetParams;
  let em := EmergencyRedemptionP p in
  if negb (em_Active em) then mret tt else
  match emergencyCapForElapsed em (i64 (BlockTime ctx - em_StartedAt em)) with
  | None => mret tt
  | Some _ => addCounterUser (inst_Id inst) "er" (em_StartedAt em) holder toman
  end.
End redeem.

(** ** Anti-replay markers *)
Definition depositSeen (st : InstStore) (instID direction ref : string) : bool :=
  Has st (DepositKey instID direction ref).
Definition markDeposit (instID direction ref : string) : M InstStore unit :=
  write (DepositKey instID direction ref) (VBytes DepositMarkerByte).

Definition validateParamsTightenOnly (st : InstStore) (p : InstitutionParams) : outcome unit :=
  mp ← GetParams st;
  match RedeemCapsBelowFloor p (CapInt (RedeemFloorPerTx mp)) with
  | Some _ => Err ErrLooserThanFloor
  | None =>
      let ceil := MaxAttestationStalenessSeconds mp in
      err_if ((0 <? ceil) && (ceil <? MaxVaultAttestationLatencyS (ip_AutoSuspendRules p))) ErrLooserThanFloor
  end.
