(* ===== verification/InstSplit.v ===== *)
(** * The decomposition of a redemption

    [x/institutions/keeper/redeem_split.go]: the surrendered coin is divided into the
    burned part, the protocol fee, the penalty and the rounding dust.  The theorem is
    the accounting identity the vault rests on: the burn is a whole number of toman,
    the toman paid out is exactly its value, and nothing is created or lost. *)
From stdpp Require Import base gmap strings list fin_maps.
From Stdlib Require Import ZArith Lia.
From S2P Require Import Prelude GoInt KVStore Interfaces CoinTypes InstTypes.

Record RedeemSplit := mkSplit {
  UphiIn : Z; Burned : Z; SplitFee : Z; Penalty : Z; Dust : Z; Carved : Z; TomanOut : Z }.

Definition UphiPerToman (phiToToman : Z) : outcome Z := UphiPerPhi /! phiToToman.

(** the clamp: a carve-out never exceeds what was surrendered *)
Definition clamp_carve (uphiIn protocolFee penalty : Z) : outcome (Z * Z * Z) :=
  carve0 ← protocolFee +! penalty;
  if uphiIn <? carve0 then
    let fee := if uphiIn <? protocolFee then uphiIn else protocolFee in
    pen ← uphiIn -! fee;
    Ok (uphiIn, fee, pen)
  else Ok (carve0, protocolFee, penalty).

Definition ComputeRedeemSplit (uphiIn protocolFee penalty phiToToman : Z) : outcome RedeemSplit :=
  k ← UphiPerToman phiToToman;
  '(carve0, protocolFee, penalty) ← clamp_carve uphiIn protocolFee penalty;
  burnable ← uphiIn -! carve0;
  m ← burnable %! k;
  burned ← burnable -! m;
  '(burned, protocolFee, penalty) ←
    (if negb (IsPositive burned) && (k <=? uphiIn) then
       shortfall ← k -! burnable;
       let fromPenalty := Z.min shortfall penalty in
       pen ← penalty -! fromPenalty;
       rest ← shortfall -! fromPenalty;
       fee ← protocolFee -! Z.min rest protocolFee;
       Ok (k, fee, pen)
     else Ok (burned, protocolFee, penalty));
  carved ← uphiIn -! burned;
  d ← carved -! protocolFee;
  dust ← d -! penalty;
  out ← burned /! k;
  Ok (mkSplit uphiIn burned protocolFee penalty dust carved out).

(** ** Specification *)

(** the rate a validated parameter set has *)
Definition good_rate (rate : Z) : Prop := 0 < rate ∧ UphiPerPhi mod rate = 0.
Definition uphi_per_toman (rate : Z) : Z := UphiPerPhi / rate.

Lemma good_rate_k rate : good_rate rate → 0 < uphi_per_toman rate ∧ uphi_per_toman rate * rate = UphiPerPhi.
Proof.
  intros [Hr Hm]. unfold uphi_per_toman. pose proof (Z.div_mod UphiPerPhi rate ltac:(lia)) as Hd.
  rewrite Hm in Hd. assert (UphiPerPhi = 1000000) as Hu by done.
  split; [|lia]. apply Z.div_str_pos. split; [lia|].
  destruct (Z.le_gt_cases rate UphiPerPhi) as [|Hgt]; [done|].
  rewrite Z.mod_small in Hm by lia. lia.
Qed.
Lemma UphiPerToman_Ok rate : good_rate rate → UphiPerToman rate = Ok (uphi_per_toman rate).
Proof.
  intros [Hr _]. unfold UphiPerToman, Int_Quo, uphi_per_toman.
  destruct (Z.eqb_spec rate 0); [lia|]. rewrite Z.quot_div_nonneg by (by vm_compute || lia). done.
Qed.

Record split_ok (uphiIn rate : Z) (s : RedeemSplit) : Prop := {
  so_in : UphiIn s = uphiIn;
  so_parts : Burned s + SplitFee s + Penalty s + Dust s = uphiIn;
  so_carved : Carved s = uphiIn - Burned s ∧ 0 ≤ Carved s;
  so_burned : 0 < Burned s ≤ uphiIn;
  so_toman : Burned s = TomanOut s * uphi_per_toman rate;
  so_nonneg : 0 ≤ SplitFee s ∧ 0 ≤ Penalty s ∧ 0 ≤ Dust s < uphi_per_toman rate;
}.

Lemma clamp_carve_spec u fee pen c f p :
  0 ≤ u → 0 ≤ fee → 0 ≤ pen → clamp_carve u fee pen = Ok (c, f, p) →
  c = f + p ∧ 0 ≤ f ≤ fee ∧ 0 ≤ p ∧ c ≤ u ∧ (fee + pen ≤ u → f = fee ∧ p = pen).
Proof.
  intros Hu Hf Hp H. unfold clamp_carve in H. int_inv.
  destruct (Z.ltb_spec u (fee + pen)), (Z.ltb_spec u fee); int_inv; lia.
Qed.
Lemma clamp_carve_total u fee pen :
  0 ≤ u < 2 ^ 255 → 0 ≤ fee < 2 ^ 255 → 0 ≤ pen < 2 ^ 255 → ∃ r, clamp_carve u fee pen = Ok r.
Proof.
  intros Hu Hf Hp. unfold clamp_carve, Int_Add, Int_Sub.
  checked. destruct (Z.ltb_spec u (fee + pen)), (Z.ltb_spec u fee); try checked; eauto.
Qed.

(** what is returned is an exact decomposition *)
Lemma ComputeRedeemSplit_exact u fee pen rate s :
  good_rate rate → uphi_per_toman rate ≤ u → 0 ≤ fee → 0 ≤ pen →
  ComputeRedeemSplit u fee pen rate = Ok s → split_ok u rate s.
Proof.
  intros Hg Hu Hf Hp Hr. destruct (good_rate_k rate Hg) as [Hk _].
  unfold ComputeRedeemSplit in Hr. rewrite UphiPerToman_Ok in Hr by done. cbn [mbind outcome_bind] in Hr.
  set (k := uphi_per_toman rate) in *.
  destruct (clamp_carve u fee pen) as [[[c f] p]| |] eqn:Hc; [|done..].
  apply clamp_carve_spec in Hc as (-> & Hf' & Hp' & Hle & _); [|lia..]. cbn [mbind outcome_bind] in Hr.
  pose proof (Z.mod_pos_bound (u - (f + p)) k Hk) as Hm.
  pose proof (Z.div_mod (u - (f + p)) k ltac:(lia)) as Hd.
  pose proof (Z.mod_le (u - (f + p)) k ltac:(lia) Hk) as Hmle.
  unfold Int_Mod, Int_Quo in Hr. destruct (Z.eqb_spec k 0) as [|_]; [lia|]. rewrite ?Z.abs_eq in Hr by lia.
  int_inv.
  destruct (negb _ && _) eqn:Hb; rewrite (proj2 (Z.leb_le k u) Hu), andb_true_r in Hb; int_inv; bool_prop.
  - assert ((u - (f + p)) / k = 0) by nia. constructor; simpl; try lia. rewrite Z.quot_same by lia. lia.
  - constructor; simpl; fold k; try lia. rewrite Z.quot_div_nonneg by lia.
    replace (u - (f + p) - (u - (f + p)) mod k) with ((u - (f + p)) / k * k) by lia. by rewrite Z.div_mul by lia.
Qed.

(** the split always returns *)
Lemma ComputeRedeemSplit_run u fee pen rate :
  good_rate rate → uphi_per_toman rate ≤ u < 2 ^ 255 → 0 ≤ fee < 2 ^ 255 → 0 ≤ pen < 2 ^ 255 →
  ∃ s, ComputeRedeemSplit u fee pen rate = Ok s ∧ split_ok u rate s.
Proof.
  intros Hg Hu Hf Hp. destruct (good_rate_k rate Hg) as [Hk _].
  cut (∃ s, ComputeRedeemSplit u fee pen rate = Ok s).
  { intros [s Hs]. exists s. split; [done|]. apply (ComputeRedeemSplit_exact u fee pen rate s); (done || lia). }
  unfold ComputeRedeemSplit. rewrite UphiPerToman_Ok by done. cbn [mbind outcome_bind].
  set (k := uphi_per_toman rate) in *.
  destruct (clamp_carve_total u fee pen ltac:(lia) Hf Hp) as [[[c f] p] Hc]. rewrite Hc.
  apply clamp_carve_spec in Hc as (-> & Hf' & Hp' & Hle & _); [|lia..]. cbn [mbind outcome_bind].
  unfold Int_Sub, Int_Mod, Int_Quo. checked.
  destruct (Z.eqb_spec k 0) as [|_]; [lia|]. cbn [mbind outcome_bind]. rewrite ?Z.abs_eq by lia.
  pose proof (Z.mod_pos_bound (u - (f + p)) k Hk) as Hm.
  pose proof (Z.mod_le (u - (f + p)) k ltac:(lia) Hk) as Hmle.
  checked. unfold IsPositive.
  destruct (Z.ltb_spec 0 (u - (f + p) - (u - (f + p)) mod k)), (Z.leb_spec k u); cbn [negb andb];
    repeat checked; eauto.
Qed.

(** C36: a redemption is decomposed exactly.  At a validated rate, for any surrendered
    amount of at least one toman and any non-negative fee and penalty, the split
    returns; burned, fee, penalty and dust are not negative and add up to the amount
    surrendered, the burn is positive and worth exactly the whole number of toman
    paid out, and the dust is less than one toman. *)
Theorem redeem_split_exact u fee pen rate :
  good_rate rate → uphi_per_toman rate ≤ u < 2 ^ 255 → 0 ≤ fee < 2 ^ 255 → 0 ≤ pen < 2 ^ 255 →
  ∃ s, ComputeRedeemSplit u fee pen rate = Ok s ∧
    Burned s + SplitFee s + Penalty s + Dust s = u ∧ Carved s = u - Burned s ∧
    0 < Burned s ≤ u ∧ Burned s = TomanOut s * uphi_per_toman rate ∧
    0 ≤ SplitFee s ∧ 0 ≤ Penalty s ∧ 0 ≤ Dust s < uphi_per_toman rate.
Proof.
  intros Hg Hu Hf Hp. destruct (ComputeRedeemSplit_run u fee pen rate Hg Hu Hf Hp) as (s & Hs & [_ Hp1 [Hc _] Hb Ht Hn]).
  exists s. split_and!; try done; lia.
Qed.
Lemma redeem_split_exact_witness :
  ∃ s, ComputeRedeemSplit 1000 20 977 100000 = Ok s ∧ Burned s + SplitFee s + Penalty s + Dust s = 1000.
Proof.
  destruct (redeem_split_exact 1000 20 977 100000) as (s & Hs & Hp & _); [by vm_compute|split; by vm_compute|lia..|eauto].
Defined.
