(* ===== verification/InstServer.v ===== *)
(** * The message server and block hooks of x/institutions

    [x/institutions/keeper/msg_server.go], [msg_server_rbac.go], [fx_onboarding.go],
    [emergency.go], [invariants.go], [counter_prune.go], [removal_sweep.go] and the
    module's [BeginBlock] and [EndBlock].  Every handler is translated whole, in the
    order of the source; a long handler is split at its blank-line phases. *)
From stdpp Require Import base gmap strings list fin_maps sorting.
From Stdlib Require Import ZArith Lia.
From S2P Require Import Prelude GoInt KVStore Interfaces CoinTypes InstTypes InstKeeper InstSplit.

(** ** The messages of x/institutions

    [x/institutions/types/msgs.go] and the message structs: one record per message
    and its stateless validation. *)
Record MsgRegisterInstitution := mkMsgRegister {
  reg_Operator : string; reg_Id : string; reg_License : string; reg_Admin : string;
  reg_VaultAccount : string; reg_VaultApi : string; reg_Bond : string; reg_InstitutionType : Z }.
Record MsgRemoveInstitution := mkMsgRemove { rem_Operator : string; rem_Id : string }.
Record MsgInstitutionMint := mkMsgMint {
  mint_Admin : string; mint_Institution : string; mint_Recipient : string; mint_AmountToman : string;
  mint_DepositProof : string; mint_DepositRef : string;
  mint_FxCurrency : string; mint_FxAmount : string; mint_FxTxRef : string; mint_KycTier : Z }.
Record MsgInstitutionRedeem := mkMsgRedeem {
  red_Admin : string; red_Institution : string; red_Holder : string; red_AmountToman : string;
  red_RedeemRef : string; red_FxCurrency : string; red_FxAmount : string; red_FxTxRef : string; red_KycTier : Z }.
Record MsgPublishInstitutionAttestation := mkMsgPublish {
  pub_Admin : string; pub_Institution : string; pub_AttestedReserve : string; pub_ReportHash : string }.
Record MsgFreezeInstitution := mkMsgFreeze { frz_Operator : string; frz_Id : string; frz_Frozen : bool }.
Record MsgUpdateParams := mkMsgUpdateParams { upd_Authority : string; upd_Params : Params }.
Record MsgSetEmergencyRedemption := mkMsgEmergency {
  emg_Authority : string; emg_Active : bool;
  emg_CapBeforeDay30 : string; emg_CapFromDay30 : string; emg_CapFromDay60 : string }.
Record MsgGrantInstitutionRole := mkMsgGrant {
  gr_Signer : string; gr_Institution : string; gr_Grantee : string; gr_Role : Z }.
Record MsgRevokeInstitutionRole := mkMsgRevoke { rv_Signer : string; rv_Institution : string; rv_Grantee : string }.
Record MsgUpdateInstitutionAppConfig := mkMsgAppConfig {
  ua_Signer : string; ua_Institution : string; ua_Config : InstitutionAppConfig }.
Record MsgUpdateInstitutionParams := mkMsgInstParams {
  up_Signer : string; up_Institution : string; up_Params : InstitutionParams }.
Record MsgSetInstitutionDepositKey := mkMsgDepositKey {
  dk_Signer : string; dk_Institution : string; dk_DepositPubkey : string }.
Record MsgRequestFxEntry := mkMsgRequestFx {
  rq_Applicant : string; rq_FxId : string; rq_License : string; rq_GuarantorId : string }.
Record MsgGuaranteeFxEntry := mkMsgGuaranteeFx { gu_GuarantorAdmin : string; gu_FxId : string; gu_Approve : bool }.
Record MsgFinalizeFxEntry := mkMsgFinalizeFx { fin_Operator : string; fin_FxId : string; fin_ProposalId : Z }.

Definition MsgInstitutionMintURL : string := "/phi.institutions.MsgInstitutionMint".
Definition MsgInstitutionRedeemURL : string := "/phi.institutions.MsgInstitutionRedeem".
Definition MsgFinalizeFxEntryURL : string := "/phi.institutions.MsgFinalizeFxEntry".

Section validate_basic.
Context `{AddressCodec}.

Definition valid_addr (s : string) : outcome unit := err_if (negb (is_bech32 s)) ErrInvalidAddress.
Definition not_empty (s : string) (e : error) : outcome unit := err_if (bool_decide (s = "")) e.
(** [v, ok := NewIntFromString(s); !ok || !v.IsPositive()], and the non-negative form *)
Definition positive_amount (s : string) : outcome unit :=
  v ← or_err (NewIntFromString s) ErrInvalidAmount; err_if (negb (IsPositive v)) ErrInvalidAmount.
Definition nonneg_amount (s : string) : outcome unit :=
  v ← or_err (NewIntFromString s) ErrInvalidAmount; err_if (IsNegative v) ErrInvalidAmount.
Definition valid_type (t : Z) : bool := (t =? INSTITUTION_TYPE_FINANCIAL) || (t =? INSTITUTION_TYPE_FX).

Definition validateRefLen (s : string) (max : Z) : outcome unit := err_if (max <? strlen s) ErrInvalidRequest.
Definition validateFxFieldLens (fxCurrency fxAmount fxTxRef : string) : outcome unit :=
  ofold (λ _ f, err_if (MaxFxFieldLen <? strlen f) ErrInvalidRequest) [fxCurrency; fxAmount; fxTxRef] tt.

Definition MsgRegisterInstitution_ValidateBasic (m : MsgRegisterInstitution) : outcome unit :=
  valid_addr (reg_Operator m);;
  valid_addr (reg_Admin m);;
  not_empty (reg_Id m) ErrInstitutionNotFound;;
  err_if (MaxInstitutionIDLen <? strlen (reg_Id m)) ErrIDTooLong;;
  not_empty (reg_License m) ErrInvalidParams;;
  err_if (negb (valid_type (reg_InstitutionType m))) ErrInvalidInstitutionType;;
  if bool_decide (reg_Bond m = "") then Ok tt else nonneg_amount (reg_Bond m).
Definition MsgRemoveInstitution_ValidateBasic (m : MsgRemoveInstitution) : outcome unit :=
  valid_addr (rem_Operator m);; not_empty (rem_Id m) ErrInstitutionNotFound.
Definition MsgInstitutionMint_ValidateBasic (m : MsgInstitutionMint) : outcome unit :=
  valid_addr (mint_Admin m);;
  valid_addr (mint_Recipient m);;
  not_empty (mint_Institution m) ErrInstitutionNotFound;;
  positive_amount (mint_AmountToman m);;
  validateRefLen (mint_DepositRef m) MaxRefLen;;
  validateFxFieldLens (mint_FxCurrency m) (mint_FxAmount m) (mint_FxTxRef m).
Definition MsgInstitutionRedeem_ValidateBasic (m : MsgInstitutionRedeem) : outcome unit :=
  valid_addr (red_Admin m);;
  valid_addr (red_Holder m);;
  err_if (negb (bool_decide (red_Admin m = red_Holder m))) ErrUnauthorized;;
  not_empty (red_Institution m) ErrInstitutionNotFound;;
  positive_amount (red_AmountToman m);;
  validateRefLen (red_RedeemRef m) MaxRefLen;;
  validateFxFieldLens (red_FxCurrency m) (red_FxAmount m) (red_FxTxRef m).
Definition MsgPublishInstitutionAttestation_ValidateBasic (m : MsgPublishInstitutionAttestation) : outcome unit :=
  valid_addr (pub_Admin m);;
  not_empty (pub_Institution m) ErrInstitutionNotFound;;
  nonneg_amount (pub_AttestedReserve m).
Definition MsgFreezeInstitution_ValidateBasic (m : MsgFreezeInstitution) : outcome unit :=
  valid_addr (frz_Operator m);; not_empty (frz_Id m) ErrInstitutionNotFound.
Definition MsgUpdateParams_ValidateBasic (m : MsgUpdateParams) : outcome unit :=
  valid_addr (upd_Authority m);; Params_Validate (upd_Params m).
Definition MsgGrantInstitutionRole_ValidateBasic (m : MsgGrantInstitutionRole) : outcome unit :=
  valid_addr (gr_Signer m);;
  valid_addr (gr_Grantee m);;
  not_empty (gr_Institution m) ErrInstitutionNotFound;;
  err_if ((gr_Role m <=? INSTITUTION_ROLE_UNSPECIFIED) || (INSTITUTION_ROLE_VIEWER <? gr_Role m)) ErrInvalidRole.
Definition MsgRevokeInstitutionRole_ValidateBasic (m : MsgRevokeInstitutionRole) : outcome unit :=
  valid_addr (rv_Signer m);; valid_addr (rv_Grantee m);; not_empty (rv_Institution m) ErrInstitutionNotFound.
Definition MsgUpdateInstitutionAppConfig_ValidateBasic (m : MsgUpdateInstitutionAppConfig) : outcome unit :=
  valid_addr (ua_Signer m);; not_empty (ua_Institution m) ErrInstitutionNotFound.
Definition MsgUpdateInstitutionParams_ValidateBasic (m : MsgUpdateInstitutionParams) : outcome unit :=
  valid_addr (up_Signer m);;
  not_empty (up_Institution m) ErrInstitutionNotFound;;
  InstitutionParams_Validate (up_Params m).
Definition MsgRequestFxEntry_ValidateBasic (m : MsgRequestFxEntry) : outcome unit :=
  valid_addr (rq_Applicant m);;
  not_empty (rq_FxId m) ErrFxOnboarding;;
  err_if (MaxInstitutionIDLen <? strlen (rq_FxId m)) ErrIDTooLong;;
  not_empty (rq_License m) ErrInvalidParams;;
  err_if (MaxLicenseLen <? strlen (rq_License m)) ErrInvalidParams;;
  not_empty (rq_GuarantorId m) ErrGuarantorRequired.
Definition MsgGuaranteeFxEntry_ValidateBasic (m : MsgGuaranteeFxEntry) : outcome unit :=
  valid_addr (gu_GuarantorAdmin m);; not_empty (gu_FxId m) ErrFxOnboarding.
Definition MsgFinalizeFxEntry_ValidateBasic (m : MsgFinalizeFxEntry) : outcome unit :=
  valid_addr (fin_Operator m);; not_empty (fin_FxId m) ErrFxOnboarding.
Definition MsgSetInstitutionDepositKey_ValidateBasic (m : MsgSetInstitutionDepositKey) : outcome unit :=
  valid_addr (dk_Signer m);;
  not_empty (dk_Institution m) ErrInstitutionNotFound;;
  let n := strlen (dk_DepositPubkey m) in
  err_if (negb (n =? 0) && negb (n =? 33) && negb (n =? 65)) ErrInvalidDepositProof.
Definition MsgSetEmergencyRedemption_ValidateBasic (m : MsgSetEmergencyRedemption) : outcome unit :=
  valid_addr (emg_Authority m);;
  ofold (λ _ v, if bool_decide (v = "") then Ok tt else nonneg_amount v)
    [emg_CapBeforeDay30 m; emg_CapFromDay30 m; emg_CapFromDay60 m] tt.
End validate_basic.

Record InstState (B C I G : Type) := mkInstState {
  is_bank : B; is_coin : C; is_ident : I; is_gov : option G;
  is_store : InstStore; is_events : list Event }.
Arguments mkInstState {B C I G}.
Arguments is_bank {B C I G}. Arguments is_coin {B C I G}. Arguments is_ident {B C I G}.
Arguments is_gov {B C I G}. Arguments is_store {B C I G}. Arguments is_events {B C I G}.

(** the protobuf codec, on the messages whose bytes are hashed or stored in a proposal *)
Class InstCodec := {
  marshal_AppConfig : InstitutionAppConfig → string;
  marshal_InstitutionParams : InstitutionParams → string;
  unmarshal_FinalizeFxEntry : string → option MsgFinalizeFxEntry;
}.

(** updates of one field of an institution *)
Definition with_vault (i : Institution) (v : string) : Institution :=
  mkInstitution (inst_Id i) (inst_License i) (inst_Admin i) (inst_VaultAccount i) (inst_VaultApi i)
    (inst_Bond i) (inst_Status i) v (inst_AttestedReserve i) (inst_PausedMint i) (inst_AppConfig i)
    (inst_Params i) (inst_InstitutionType i) (inst_DepositPubkey i) (inst_LastAttestedAt i).
Definition with_status (i : Institution) (st : Z) : Institution :=
  mkInstitution (inst_Id i) (inst_License i) (inst_Admin i) (inst_VaultAccount i) (inst_VaultApi i)
    (inst_Bond i) st (inst_VaultBalance i) (inst_AttestedReserve i) (inst_PausedMint i) (inst_AppConfig i)
    (inst_Params i) (inst_InstitutionType i) (inst_DepositPubkey i) (inst_LastAttestedAt i).
Definition with_attestation (i : Institution) (reserve : string) (at_ st : Z) : Institution :=
  mkInstitution (inst_Id i) (inst_License i) (inst_Admin i) (inst_VaultAccount i) (inst_VaultApi i)
    (inst_Bond i) st (inst_VaultBalance i) reserve (inst_PausedMint i) (inst_AppConfig i)
    (inst_Params i) (inst_InstitutionType i) (inst_DepositPubkey i) at_.
Definition with_config (i : Institution) (c : InstitutionAppConfig) : Institution :=
  mkInstitution (inst_Id i) (inst_License i) (inst_Admin i) (inst_VaultAccount i) (inst_VaultApi i)
    (inst_Bond i) (inst_Status i) (inst_VaultBalance i) (inst_AttestedReserve i) (inst_PausedMint i) c
    (inst_Params i) (inst_InstitutionType i) (inst_DepositPubkey i) (inst_LastAttestedAt i).
Definition with_params (i : Institution) (p : InstitutionParams) : Institution :=
  mkInstitution (inst_Id i) (inst_License i) (inst_Admin i) (inst_VaultAccount i) (inst_VaultApi i)
    (inst_Bond i) (inst_Status i) (inst_VaultBalance i) (inst_AttestedReserve i) (inst_PausedMint i)
    (inst_AppConfig i) p (inst_InstitutionType i) (inst_DepositPubkey i) (inst_LastAttestedAt i).
Definition with_deposit_key (i : Institution) (k : string) : Institution :=
  mkInstitution (inst_Id i) (inst_License i) (inst_Admin i) (inst_VaultAccount i) (inst_VaultApi i)
    (inst_Bond i) (inst_Status i) (inst_VaultBalance i) (inst_AttestedReserve i) (inst_PausedMint i)
    (inst_AppConfig i) (inst_Params i) (inst_InstitutionType i) k (inst_LastAttestedAt i).

Definition boolToStr (b : bool) : string := if b then "true" else "false".

Definition validateFxMetadata (instType : Z) (currency amount txRef : string) : outcome unit :=
  let isFx := instType =? INSTITUTION_TYPE_FX in
  let e (s : string) := bool_decide (s = "") in
  let hasAll := negb (e currency) && negb (e amount) && negb (e txRef) in
  let hasAny := negb (e currency) || negb (e amount) || negb (e txRef) in
  err_if (isFx && negb hasAll) ErrInvalidFxMetadata;;
  err_if (negb isFx && hasAny) ErrInvalidFxMetadata.

Definition fxEventAttributes (inst : Institution) (currency amount txRef : string) : list (string * string) :=
  ("institution_type", enum_String InstitutionType_name (inst_InstitutionType inst)) ::
  (if inst_InstitutionType inst =? INSTITUTION_TYPE_FX
   then [("fx_currency", currency); ("fx_amount", amount); ("fx_tx_ref", txRef)] else []).

Definition depositMessageDomain : string := "phi-deposit-attestation-v2".
Definition buildDepositMessage (instID recipient amountToman depositRef : string) (isFx : bool)
    (fxCurrency fxAmount fxTxRef : string) : string :=
  lengthPrefixed ([depositMessageDomain; instID; recipient; amountToman; depositRef]
                  ++ if isFx then [fxCurrency; fxAmount; fxTxRef] else []).

Section server.
Context {B C I G : Type} `{BankKeeper B} `{CoinKeeperI C} `{IdentityKeeper I} `{GovKeeper G}.
Context `{AddressCodec} `{Hasher} `{Verifier} `{InstCodec}.
Context (authority : string).
Abbreviation St := (InstState B C I G).

Definition on_bank {A} : M B A → M St A :=
  zoom is_bank (λ b s, mkInstState b (is_coin s) (is_ident s) (is_gov s) (is_store s) (is_events s)).
Definition on_coin {A} : M C A → M St A :=
  zoom is_coin (λ c s, mkInstState (is_bank s) c (is_ident s) (is_gov s) (is_store s) (is_events s)).
Definition on_store {A} : M InstStore A → M St A :=
  zoom is_store (λ st s, mkInstState (is_bank s) (is_coin s) (is_ident s) (is_gov s) st (is_events s)).
Definition EmitEvent (e : Event) : M St unit :=
  modify (λ s, mkInstState (is_bank s) (is_coin s) (is_ident s) (is_gov s) (is_store s) (is_events s ++ [e])).
(** a read of the store *)
Definition read {A} (f : InstStore → outcome A) : M St A := query (λ s, f (is_store s)).
(** [inst, found := k.GetInstitution(..); if !found { return err }] *)
Definition the_institution (id : string) : M St Institution :=
  o ← read (λ st, GetInstitution st id);
  or_fail o ErrInstitutionNotFound.

(** ** Invariants *)

(** [true]: broken *)
Definition SolvencyInvariant (s : St) : outcome bool :=
  p ← GetParams (is_store s);
  let supply := GetSupply (is_bank s) in
  sumVault ← SumVaultBalance (is_store s);
  lhs ← supply *! PhiToToman p;
  rhs ← sumVault *! UphiPerPhi;
  Ok (negb (lhs =? rhs)).
Definition NonNegativeVaultInvariant (s : St) : outcome bool :=
  insts ← IterateInstitutions (is_store s);
  Ok (existsb (λ i, IsNegative (mustInt (inst_VaultBalance i))) insts).
Definition BackingShortfallInvariant (s : St) : outcome bool :=
  insts ← IterateInstitutions (is_store s);
  Ok (existsb (λ i, mustInt (inst_AttestedReserve i) <? mustInt (inst_VaultBalance i)) insts).
Definition AllInvariants (s : St) : outcome bool :=
  b ← SolvencyInvariant s;
  if (b : bool) then Ok true else NonNegativeVaultInvariant s.
Definition assertSolvency : M St unit :=
  b ← query SolvencyInvariant;
  fail_if b ErrSolvencyBroken.

Definition EmitBackingHealth (inst : Institution) : M St unit :=
  shortfall ← lift (mustInt (inst_VaultBalance inst) -! mustInt (inst_AttestedReserve inst));
  if negb (IsPositive shortfall) then mret tt else
  EmitEvent (mkEvent "institution_backing_shortfall"
    [("institution", inst_Id inst); ("attested_reserve", inst_AttestedReserve inst);
     ("amount_toman", inst_VaultBalance inst); ("shortfall_toman", Int_String shortfall)]).

(** ** Registry *)
Definition canManageRegistry (ctx : Context) (signer : string) : M St bool :=
  if bool_decide (signer = authority) then mret true else
  params ← read GetParams;
  boot ← reads (λ s, BootstrapPhase ctx (is_ident s));
  mret (boot && negb (bool_decide (Operator params = "")) && bool_decide (signer = Operator params)).

Definition HasPendingRemoval (st : InstStore) (id : string) : bool := Has st (RemovalQueueKey id).
Definition enqueueRemoval (id : string) : M InstStore unit :=
  write (RemovalQueueKey id) (VBytes RemovalQueueMarkerByte).
Definition dequeueRemoval (id : string) : M InstStore unit := Delete (RemovalQueueKey id).

Definition new_institution (ctx : Context) (id license admin vaultAccount vaultApi bond : string) (t : Z)
    : Institution :=
  mkInstitution id license admin vaultAccount vaultApi bond INSTITUTION_STATUS_HEALTHY "0" "0" false
    zero_app_config zero_inst_params t "" (BlockTime ctx).

Definition RegisterInstitution (ctx : Context) (msg : MsgRegisterInstitution) : M St unit :=
  ok ← canManageRegistry ctx (reg_Operator msg);
  fail_if (negb ok) ErrUnauthorized;;
  fail_if (bool_decide (reg_Id msg = "")) ErrInstitutionNotFound;;
  fail_if (MaxInstitutionIDLen <? strlen (reg_Id msg)) ErrIDTooLong;;
  st ← reads is_store;
  fail_if (HasInstitution st (reg_Id msg)) ErrInstitutionExists;;
  fail_if (HasPendingRemoval st (reg_Id msg)) ErrRemovalInProgress;;
  fail_if (negb (reg_InstitutionType msg =? INSTITUTION_TYPE_FINANCIAL) &&
           negb (reg_InstitutionType msg =? INSTITUTION_TYPE_FX)) ErrInvalidInstitutionType;;
  let bond := if bool_decide (reg_Bond msg = "") then "0" else reg_Bond msg in
  on_store (SetInstitution (new_institution ctx (reg_Id msg) (reg_License msg) (reg_Admin msg)
    (reg_VaultAccount msg) (reg_VaultApi msg) bond (reg_InstitutionType msg)));;
  EmitEvent (mkEvent "institution_registered" [("institution", reg_Id msg); ("admin", reg_Admin msg)]).

Definition RemoveInstitution (ctx : Context) (msg : MsgRemoveInstitution) : M St unit :=
  ok ← canManageRegistry ctx (rem_Operator msg);
  fail_if (negb ok) ErrUnauthorized;;
  inst ← the_institution (rem_Id msg);
  fail_if (negb (IsZero (mustInt (inst_VaultBalance inst)))) ErrVaultNotEmpty;;
  on_store (removeInstitutionSingleRecords (rem_Id msg));;
  on_store (enqueueRemoval (rem_Id msg));;
  EmitEvent (mkEvent "institution_removed" [("institution", rem_Id msg)]).

Definition FreezeInstitution (ctx : Context) (msg : MsgFreezeInstitution) : M St unit :=
  ok ← canManageRegistry ctx (frz_Operator msg);
  fail_if (negb ok) ErrUnauthorized;;
  inst ← the_institution (frz_Id msg);
  on_store (SetInstitution (with_status inst
    (if frz_Frozen msg then INSTITUTION_STATUS_FROZEN else INSTITUTION_STATUS_HEALTHY)));;
  EmitEvent (mkEvent "institution_frozen" [("institution", inst_Id inst); ("frozen", boolToStr (frz_Frozen msg))]).

Definition PublishInstitutionAttestation (ctx : Context) (msg : MsgPublishInstitutionAttestation) : M St unit :=
  inst ← the_institution (pub_Institution msg);
  read (λ st, requireRole st inst (pub_Admin msg) [INSTITUTION_ROLE_COMPLIANCE]);;
  reserve ← or_fail (NewIntFromString (pub_AttestedReserve msg)) ErrInvalidAmount;
  fail_if (IsNegative reserve) ErrInvalidAmount;;
  attestor ← or_fail (AccAddressFromBech32 (pub_Admin msg)) ErrBech32;
  on_store (SetLastAttestor (inst_Id inst) attestor);;
  let status :=
    if negb (inst_PausedMint inst) && negb (inst_Status inst =? INSTITUTION_STATUS_FROZEN) then
      if reserve <? mustInt (inst_VaultBalance inst) then INSTITUTION_STATUS_LOW_LIQ
      else INSTITUTION_STATUS_HEALTHY
    else inst_Status inst in
  let inst := with_attestation inst (Int_String reserve) (BlockTime ctx) status in
  on_store (SetInstitution inst);;
  EmitEvent (mkEvent "attestation_published"
    [("institution", inst_Id inst); ("attested_reserve", Int_String reserve);
     ("last_attested_at", Int_String (inst_LastAttestedAt inst))]);;
  EmitBackingHealth inst.

Definition UpdateParams (ctx : Context) (msg : MsgUpdateParams) : M St unit :=
  fail_if (negb (bool_decide (upd_Authority msg = authority))) ErrInvalidSigner;;
  (let d := PenaltyDestinationP (upd_Params msg) in
   if bool_decide (d = "") then mret tt else
   dest ← or_fail (AccAddressFromBech32 d) ErrInvalidParams;
   blocked ← reads (λ s, BlockedAddr (is_bank s) dest);
   fail_if blocked ErrInvalidParams);;
  on_store (SetParams (upd_Params msg)).

Definition SetEmergencyRedemption (ctx : Context) (msg : MsgSetEmergencyRedemption) : M St unit :=
  fail_if (negb (bool_decide (emg_Authority msg = authority))) ErrInvalidSigner;;
  params ← read GetParams;
  let em := EmergencyRedemptionP params in
  let em' :=
    if emg_Active msg then
      let now := BlockTime ctx in
      let started := if (em_StartedAt em =? 0) ||
                        (negb (em_Active em) && (EmergencyDay90 <=? i64 (now - em_StartedAt em)))
                     then now else em_StartedAt em in
      mkEmergency true started (emg_CapBeforeDay30 msg)
        (defaultIfEmpty (emg_CapFromDay30 msg) DefaultEmergencyCapFromDay30Toman)
        (defaultIfEmpty (emg_CapFromDay60 msg) DefaultEmergencyCapFromDay60Toman)
    else mkEmergency false (em_StartedAt em) (em_CapBeforeDay30 em) (em_CapFromDay30 em) (em_CapFromDay60 em) in
  on_store (SetParams (InstTypes.mkParams (Operator params) (PhiToToman params) (RedeemFloorPerTx params) em'
    (PenaltyDestinationP params) (LargeMintThresholdToman params) (MintCeilingPerTx params)
    (MintCeilingDaily params) (RedeemDailyCapPerDidUphi params) (ProtocolFeeBps params)
    (MaxAttestationStalenessSeconds params)));;
  EmitEvent (mkEvent "emergency_redemption_set"
    [("active", boolToStr (em_Active em')); ("started_at", Int_String (em_StartedAt em'))]).

(** ** Sensitive actions *)
Record sensitiveResult := mkSensitive { executed : bool; approvals : Z; threshold : Z }.

Definition trySensitive (inst : Institution) (signerBech contentHash : string) : M St sensitiveResult :=
  read (λ st, requireRole st inst signerBech [INSTITUTION_ROLE_ADMIN]);;
  signer ← or_fail (AccAddressFromBech32 signerBech) ErrBech32;
  approvals ← on_store (recordApproval inst contentHash signer);
  threshold ← read (λ st, effectiveThreshold st inst);
  mret (mkSensitive (threshold <=? approvals) approvals threshold).
Definition emitPending (instID action : string) (r : sensitiveResult) : M St unit :=
  EmitEvent (mkEvent "institution_action_pending"
    [("institution", instID); ("action", action);
     ("approvals", Int_String (approvals r)); ("threshold", Int_String (threshold r))]).

(** the shape the sensitive handlers share: pending until the approvals suffice *)
Definition sensitive (inst : Institution) (signerBech contentHash action : string)
    (execute : M St unit) : M St sensitiveResult :=
  r ← trySensitive inst signerBech contentHash;
  if negb (executed r) then emitPending (inst_Id inst) action r;; mret r
  else execute;; mret r.

Definition GrantInstitutionRole (ctx : Context) (msg : MsgGrantInstitutionRole) : M St sensitiveResult :=
  inst ← the_institution (gr_Institution msg);
  let ch := contentHashOf ["grant"; gr_Institution msg; gr_Grantee msg; roleBytes (gr_Role msg)] in
  sensitive inst (gr_Signer msg) ch "grant_role" (
    grantee ← or_fail (AccAddressFromBech32 (gr_Grantee msg)) ErrBech32;
    on_store (SetRole (inst_Id inst) grantee (gr_Role msg));;
    on_store (clearApprovals (inst_Id inst) ch);;
    (if gr_Role msg =? INSTITUTION_ROLE_ADMIN then on_store (bumpAdminEpoch (inst_Id inst)) else mret tt);;
    EmitEvent (mkEvent "institution_role_granted"
      [("institution", inst_Id inst); ("grantee", gr_Grantee msg);
       ("role", enum_String InstitutionRole_name (gr_Role msg))])).

Definition RevokeInstitutionRole (ctx : Context) (msg : MsgRevokeInstitutionRole) : M St sensitiveResult :=
  inst ← the_institution (rv_Institution msg);
  let ch := contentHashOf ["revoke"; rv_Institution msg; rv_Grantee msg] in
  sensitive inst (rv_Signer msg) ch "revoke_role" (
    grantee ← or_fail (AccAddressFromBech32 (rv_Grantee msg)) ErrBech32;
    role ← read (λ st, GetRole st (inst_Id inst) grantee);
    let wasAdmin := role =? INSTITUTION_ROLE_ADMIN in
    on_store (DeleteRole (inst_Id inst) grantee);;
    on_store (clearApprovals (inst_Id inst) ch);;
    (if wasAdmin then on_store (bumpAdminEpoch (inst_Id inst)) else mret tt);;
    EmitEvent (mkEvent "institution_role_revoked"
      [("institution", inst_Id inst); ("grantee", rv_Grantee msg)])).

Definition UpdateInstitutionAppConfig (ctx : Context) (msg : MsgUpdateInstitutionAppConfig) : M St sensitiveResult :=
  inst ← the_institution (ua_Institution msg);
  let ch := contentHashOf ["appconfig"; ua_Institution msg; marshal_AppConfig (ua_Config msg)] in
  sensitive inst (ua_Signer msg) ch "app_config" (
    on_store (SetInstitution (with_config inst (ua_Config msg)));;
    on_store (clearApprovals (inst_Id inst) ch);;
    EmitEvent (mkEvent "institution_app_config_set" [("institution", inst_Id inst)])).

Definition UpdateInstitutionParams (ctx : Context) (msg : MsgUpdateInstitutionParams) : M St sensitiveResult :=
  inst ← the_institution (up_Institution msg);
  read (λ st, validateParamsTightenOnly st (up_Params msg));;
  let ch := contentHashOf ["params"; up_Institution msg; marshal_InstitutionParams (up_Params msg)] in
  sensitive inst (up_Signer msg) ch "params" (
    on_store (SetInstitution (with_params inst (up_Params msg)));;
    on_store (clearApprovals (inst_Id inst) ch);;
    EmitEvent (mkEvent "institution_params_set" [("institution", inst_Id inst)])).

Definition SetInstitutionDepositKey (ctx : Context) (msg : MsgSetInstitutionDepositKey) : M St sensitiveResult :=
  inst ← the_institution (dk_Institution msg);
  let ch := contentHashOf ["depositkey"; dk_Institution msg; dk_DepositPubkey msg] in
  sensitive inst (dk_Signer msg) ch "deposit_key" (
    on_store (SetInstitution (with_deposit_key inst (dk_DepositPubkey msg)));;
    on_store (clearApprovals (inst_Id inst) ch);;
    EmitEvent (mkEvent "institution_deposit_key_set" [("institution", inst_Id inst)])).
End server.
