(* ===== verification/InstMint.v ===== *)
(** * Minting, redemption, onboarding and the block hooks of x/institutions

    The rest of the message server: [InstitutionMint] and [InstitutionRedeem] of
    [msg_server.go] (each split at the phases of the source), the fx onboarding of
    [fx_onboarding.go], the slashed-stake compensation of [keeper.go], and the hooks
    of [module.go] with their sweeps ([counter_prune.go], [removal_sweep.go]). *)
From stdpp Require Import base gmap strings list fin_maps sorting.
From Stdlib Require Import ZArith Lia.
From S2P Require Import Prelude GoInt KVStore Interfaces CoinTypes InstTypes InstServer InstKeeper InstSplit.

Section mint.
Context {B C I G : Type} `{BankKeeper B} `{CoinKeeperI C} `{IdentityKeeper I} `{GovKeeper G}.
Context `{AddressCodec} `{Hasher} `{Verifier} `{InstCodec}.
Context (authority : string).
Abbreviation St := (InstState B C I G).

Definition emitRevenue (msgTypeURL stream : string) (amount : Z) : M St unit :=
  EmitEvent (mkEvent "revenue_collected"
    [("stream", stream); ("msg_type", msgTypeURL); ("amount", Int_String amount)]).
Definition StreamProtocol : string := "protocol".
Definition StreamPenalty : string := "penalty".

(** ** Mint *)

(** the gates before the amount is read *)
Definition mint_gates (ctx : Context) (inst : Institution) (msg : MsgInstitutionMint) : M St unit :=
  read (λ st, requireRole st inst (mint_Admin msg) [INSTITUTION_ROLE_OPERATOR; INSTITUTION_ROLE_ADMIN]);;
  lift (validateFxMetadata (inst_InstitutionType inst) (mint_FxCurrency msg) (mint_FxAmount msg) (mint_FxTxRef msg));;
  fail_if (bool_decide (mint_DepositRef msg = "")) ErrMissingRef;;
  seen ← reads (λ s, depositSeen (is_store s) (inst_Id inst) "mint" (mint_DepositRef msg));
  fail_if seen ErrDuplicateDeposit;;
  fail_if (inst_Status inst =? INSTITUTION_STATUS_FROZEN) ErrInstitutionFrozen;;
  fail_if (inst_PausedMint inst) ErrMintPaused;;
  p ← read GetParams;
  fail_if (IsStaleAt inst (BlockTime ctx) (MaxAttestationStalenessSeconds p)) ErrAttestationStale;;
  read (λ st, requireMintSeparation st inst (mint_Admin msg)).

(** the amount, the deposit proof, the conversion, the backing and the caps:
    (toman, uphi, newVault, recipient) *)
Definition mint_amounts (ctx : Context) (inst : Institution) (msg : MsgInstitutionMint)
    : M St (Z * Z * Z * string) :=
  toman ← or_fail (NewIntFromString (mint_AmountToman msg)) ErrInvalidAmount;
  fail_if (negb (IsPositive toman)) ErrInvalidAmount;;
  fail_if (negb (strlen (inst_DepositPubkey inst) =? 0) &&
           negb (VerifySignature Secp256r1 (inst_DepositPubkey inst)
                   (buildDepositMessage (inst_Id inst) (mint_Recipient msg) (mint_AmountToman msg)
                      (mint_DepositRef msg) (inst_InstitutionType inst =? INSTITUTION_TYPE_FX)
                      (mint_FxCurrency msg) (mint_FxAmount msg) (mint_FxTxRef msg))
                   (mint_DepositProof msg))) ErrInvalidDepositProof;;
  p ← read GetParams;
  '(uphi, integral) ← lift (MintedUphiForToman toman (PhiToToman p));
  fail_if (negb integral || negb (IsPositive uphi)) ErrNonIntegralMint;;
  newVault ← lift (mustInt (inst_VaultBalance inst) +! toman);
  fail_if (mustInt (inst_AttestedReserve inst) <? newVault) ErrMintExceedsBacking;;
  recipient ← or_fail (AccAddressFromBech32 (mint_Recipient msg)) ErrBech32;
  read (λ st, enforceMintCaps ctx st inst recipient toman (mint_KycTier msg));;
  mret (toman, uphi, newVault, recipient).

(** the large-mint multisig: [false] when the mint stays pending *)
Definition mint_approved (inst : Institution) (msg : MsgInstitutionMint) (toman : Z) : M St bool :=
  p ← read GetParams;
  let lim := CapInt (LargeMintThresholdToman p) in
  if negb (IsPositive lim && (lim <=? toman)) then mret true else
  let ch := contentHashOf ["mint"; inst_Id inst; mint_Recipient msg; mint_AmountToman msg;
              mint_DepositRef msg; mint_FxCurrency msg; mint_FxAmount msg; mint_FxTxRef msg] in
  r ← trySensitive inst (mint_Admin msg) ch;
  if negb (executed r) then emitPending (inst_Id inst) "mint" r;; mret false
  else on_store (clearApprovals (inst_Id inst) ch);; mret true.

(** the coin movements: mint the backed amount, distribute it; returns (fee, toCustomer) *)
Definition mint_coins (ctx : Context) (msg : MsgInstitutionMint) (uphi : Z) (recipient : string) : M St (Z * Z) :=
  p ← read GetParams;
  protocolFee ← lift (ProtocolFee p uphi);
  toCustomer ← lift (uphi -! protocolFee);
  c1 ← lift (CoinsOf uphi);
  on_bank (MintCoins InstModuleName c1);;
  c2 ← lift (CoinsOf toCustomer);
  on_bank (SendCoinsFromModuleToAccount InstModuleName recipient c2);;
  (if IsPositive protocolFee then
     c3 ← lift (CoinsOf protocolFee);
     on_bank (SendCoinsFromModuleToModule InstModuleName RevenueAccountName c3);;
     emitRevenue MsgInstitutionMintURL StreamProtocol protocolFee
   else mret tt);;
  on_coin (coin_AddCoins (mint_Recipient msg) toCustomer (BlockTime ctx));;
  mret (protocolFee, toCustomer).

(** the records: the vault, the counters, the anti-replay marker *)
Definition mint_records (ctx : Context) (inst : Institution) (msg : MsgInstitutionMint)
    (toman newVault : Z) (recipient : string) : M St unit :=
  on_store (SetInstitution (with_vault inst (Int_String newVault)));;
  on_store (addMintCounters ctx inst recipient toman);;
  on_store (markDeposit (inst_Id inst) "mint" (mint_DepositRef msg)).

Definition InstitutionMint (ctx : Context) (msg : MsgInstitutionMint) : M St string :=
  inst ← the_institution (mint_Institution msg);
  mint_gates ctx inst msg;;
  '(toman, uphi, newVault, recipient) ← mint_amounts ctx inst msg;
  approved ← mint_approved inst msg toman;
  if negb approved then mret "0" else
  '(protocolFee, toCustomer) ← mint_coins ctx msg uphi recipient;
  mint_records ctx inst msg toman newVault recipient;;
  assertSolvency;;
  EmitEvent (mkEvent "institution_minted"
    ([("institution", inst_Id inst); ("recipient", mint_Recipient msg); ("amount_toman", Int_String toman);
      ("minted_uphi", Int_String uphi); ("protocol_fee_uphi", Int_String protocolFee);
      ("recipient_uphi", Int_String toCustomer)]
     ++ fxEventAttributes inst (mint_FxCurrency msg) (mint_FxAmount msg) (mint_FxTxRef msg)));;
  mret (Int_String uphi).

(** ** Redeem *)

(** the gates, the amounts and the caps: (toman, uphi, rate, holder) *)
Definition redeem_amounts (ctx : Context) (inst : Institution) (msg : MsgInstitutionRedeem)
    : M St (Z * Z * Z * string) :=
  fail_if (negb (bool_decide (red_Admin msg = red_Holder msg))) ErrUnauthorized;;
  lift (validateFxMetadata (inst_InstitutionType inst) (red_FxCurrency msg) (red_FxAmount msg) (red_FxTxRef msg));;
  fail_if (bool_decide (red_RedeemRef msg = "")) ErrMissingRef;;
  seen ← reads (λ s, depositSeen (is_store s) (inst_Id inst) "redeem" (red_RedeemRef msg));
  fail_if seen ErrDuplicateDeposit;;
  toman ← or_fail (NewIntFromString (red_AmountToman msg)) ErrInvalidAmount;
  fail_if (negb (IsPositive toman)) ErrInvalidAmount;;
  fail_if (mustInt (inst_VaultBalance inst) <? toman) ErrInsufficientVault;;
  p ← read GetParams;
  '(uphi, integral) ← lift (MintedUphiForToman toman (PhiToToman p));
  fail_if (negb integral || negb (IsPositive uphi)) ErrNonIntegralMint;;
  holder ← or_fail (AccAddressFromBech32 (red_Holder msg)) ErrBech32;
  ident ← reads is_ident;
  read (λ st, enforceRedeemCaps ctx ident st inst holder toman uphi);;
  mret (toman, uphi, PhiToToman p, holder).

(** the decomposition of the surrendered coin *)
Definition redeem_split (ctx : Context) (msg : MsgInstitutionRedeem) (uphi rate : Z) : M St RedeemSplit :=
  pen ← on_coin (coin_EarlyRedeemPenalty ctx (red_Holder msg) uphi);
  let penalty := if IsNegative pen then 0 else pen in
  minRedeem ← lift (UphiPerToman rate);
  fail_if (uphi <? minRedeem) ErrBelowMinRedeem;;
  p ← read GetParams;
  fee ← lift (ProtocolFee p uphi);
  split ← lift (ComputeRedeemSplit uphi fee penalty rate);
  fail_if (negb (IsPositive (Burned split))) ErrNothingRedeemed;;
  mret split.

Definition redeem_coins (holder : string) (uphi : Z) (split : RedeemSplit) : M St unit :=
  c1 ← lift (CoinsOf uphi);
  on_bank (SendCoinsFromAccountToModule holder InstModuleName c1);;
  (if IsPositive (Carved split) then
     c2 ← lift (CoinsOf (Carved split));
     on_bank (SendCoinsFromModuleToModule InstModuleName RevenueAccountName c2)
   else mret tt);;
  c3 ← lift (CoinsOf (Burned split));
  on_bank (BurnCoins InstModuleName c3).

Definition redeem_records (ctx : Context) (inst : Institution) (msg : MsgInstitutionRedeem) (holder : string)
    (toman uphi : Z) (split : RedeemSplit) : M St unit :=
  v ← lift (mustInt (inst_VaultBalance inst) -! TomanOut split);
  on_store (SetInstitution (with_vault inst (Int_String v)));;
  (if IsPositive (SplitFee split)
   then emitRevenue MsgInstitutionRedeemURL StreamProtocol (SplitFee split) else mret tt);;
  penalties ← lift (Penalty split +! Dust split);
  (if IsPositive penalties
   then emitRevenue MsgInstitutionRedeemURL StreamPenalty penalties else mret tt);;
  ident ← reads is_ident;
  on_store (addRedeemCounters ctx ident inst holder toman uphi);;
  on_store (markDeposit (inst_Id inst) "redeem" (red_RedeemRef msg)).

Definition InstitutionRedeem (ctx : Context) (msg : MsgInstitutionRedeem) : M St string :=
  inst ← the_institution (red_Institution msg);
  '(toman, uphi, rate, holder) ← redeem_amounts ctx inst msg;
  split ← redeem_split ctx msg uphi rate;
  redeem_coins holder uphi split;;
  redeem_records ctx inst msg holder toman uphi split;;
  assertSolvency;;
  EmitEvent (mkEvent "institution_redeemed"
    ([("institution", inst_Id inst); ("holder", red_Holder msg); ("amount_toman", Int_String toman);
      ("redeemed_uphi", Int_String uphi); ("burned_uphi", Int_String (Burned split));
      ("protocol_fee_uphi", Int_String (SplitFee split)); ("penalty_uphi", Int_String (Penalty split));
      ("dust_uphi", Int_String (Dust split)); ("payout_toman", Int_String (TomanOut split))]
     ++ fxEventAttributes inst (red_FxCurrency msg) (red_FxAmount msg) (red_FxTxRef msg)));;
  mret (Int_String (Burned split)).

(** ** Slashed-stake compensation *)
Definition PenaltyDestination (st : InstStore) : outcome (option string) :=
  p ← GetParams st;
  Ok (fold_right (λ candidate rest,
        if bool_decide (candidate = "") then rest else
        match AccAddressFromBech32 candidate with Some a => Some a | None => rest end)
      None [PenaltyDestinationP p; Operator p; authority]).

Definition emitPenaltyEscrowed (escrowedUphi : Z) (reason : string) : M St unit :=
  EmitEvent (mkEvent "institution_penalty_escrowed"
    [("escrowed_uphi", Int_String escrowedUphi); ("reason", reason)]).

Definition RedirectSlashedToPenalty (slashedUphi : Z) : M St unit :=
  if negb (IsPositive slashedUphi) then mret tt else
  coins ← lift (CoinsOf slashedUphi);
  on_bank (MintCoins InstModuleName coins);;
  dest ← read PenaltyDestination;
  match dest with
  | None => emitPenaltyEscrowed slashedUphi "no penalty destination resolved"
  | Some d =>
      sent ← attempt (on_bank (SendCoinsFromModuleToAccount InstModuleName d coins));
      match sent with
      | inl _ => mret tt
      | inr _ => emitPenaltyEscrowed slashedUphi "send failed"
      end
  end.

(** ** Fx onboarding *)
Definition decode_Fx (v : inst_val) : outcome FxEntryRequest :=
  match v with VFxRequest r => Ok r | _ => Panic "unmarshal" end.
Definition SetFxRequest (req : FxEntryRequest) : M InstStore unit :=
  write (FxRequestKey (fx_FxId req)) (VFxRequest req).
Definition GetFxRequest (st : InstStore) (fxID : string) : outcome (option FxEntryRequest) :=
  match st !! FxRequestKey fxID with
  | None => Ok None
  | Some v => r ← decode_Fx v; Ok (Some r)
  end.
Definition HasFxRequest (st : InstStore) (fxID : string) : bool := Has st (FxRequestKey fxID).
Definition DeleteFxRequest (fxID : string) : M InstStore unit := Delete (FxRequestKey fxID).
Definition IterateFxRequests (st : InstStore) : outcome (list FxEntryRequest) :=
  ofold (λ acc kv, r ← decode_Fx kv.2; Ok (acc ++ [r])) (KVStorePrefixIterator st FxRequestPrefix) [].

Definition isActiveFinancialGuarantor (inst : Institution) : bool :=
  ((inst_InstitutionType inst =? INSTITUTION_TYPE_FINANCIAL) ||
   (inst_InstitutionType inst =? INSTITUTION_TYPE_UNSPECIFIED)) &&
  negb (inst_Status inst =? INSTITUTION_STATUS_FROZEN).

(** [guarantor, found := GetInstitution; if !found || !active { return err }] *)
Definition the_guarantor (id : string) : M St Institution :=
  o ← read (λ st, GetInstitution st id);
  g ← or_fail o ErrGuarantorRequired;
  fail_if (negb (isActiveFinancialGuarantor g)) ErrGuarantorRequired;;
  mret g.

Definition RequestFxEntry (ctx : Context) (msg : MsgRequestFxEntry) : M St unit :=
  fail_if (bool_decide (rq_FxId msg = "")) ErrFxOnboarding;;
  fail_if (MaxInstitutionIDLen <? strlen (rq_FxId msg)) ErrIDTooLong;;
  st ← reads is_store;
  fail_if (HasInstitution st (rq_FxId msg)) ErrInstitutionExists;;
  fail_if (HasPendingRemoval st (rq_FxId msg)) ErrRemovalInProgress;;
  fail_if (HasFxRequest st (rq_FxId msg)) ErrFxOnboarding;;
  the_guarantor (rq_GuarantorId msg);;
  on_store (SetFxRequest (mkFxEntryRequest (rq_FxId msg) (rq_Applicant msg) (rq_License msg)
    (rq_GuarantorId msg) FX_ENTRY_REQUESTED));;
  EmitEvent (mkEvent "fx_entry_requested"
    [("fx_id", rq_FxId msg); ("applicant", rq_Applicant msg); ("guarantor_id", rq_GuarantorId msg)]).

Definition GuaranteeFxEntry (ctx : Context) (msg : MsgGuaranteeFxEntry) : M St unit :=
  o ← read (λ st, GetFxRequest st (gu_FxId msg));
  req ← or_fail o ErrFxOnboarding;
  fail_if (negb (fx_Status req =? FX_ENTRY_REQUESTED)) ErrFxOnboarding;;
  guarantor ← the_guarantor (fx_GuarantorId req);
  read (λ st, requireRole st guarantor (gu_GuarantorAdmin msg) [INSTITUTION_ROLE_ADMIN; INSTITUTION_ROLE_OPERATOR]);;
  if negb (gu_Approve msg) then
    on_store (DeleteFxRequest (gu_FxId msg));;
    EmitEvent (mkEvent "fx_entry_declined" [("fx_id", gu_FxId msg); ("guarantor_id", fx_GuarantorId req)])
  else
    on_store (SetFxRequest (mkFxEntryRequest (fx_FxId req) (fx_Applicant req) (fx_License req)
      (fx_GuarantorId req) FX_ENTRY_GUARANTEED));;
    EmitEvent (mkEvent "fx_entry_guaranteed" [("fx_id", gu_FxId msg); ("guarantor_id", fx_GuarantorId req)]).

Definition authorizes (fxID : string) (a : Any) : bool :=
  bool_decide (any_TypeUrl a = MsgFinalizeFxEntryURL) &&
  match unmarshal_FinalizeFxEntry (any_Value a) with
  | Some fm => bool_decide (fin_FxId fm = fxID)
  | None => false
  end.
Definition requirePassedProposalFor (gov : option G) (proposalID : Z) (fxID : string) : outcome unit :=
  err_if (proposalID =? 0) ErrFxOnboarding;;
  g ← or_err gov ErrFxOnboarding;
  prop ← or_err (gov_Proposal g proposalID) ErrFxOnboarding;
  err_if (negb (prop_Status prop =? PROPOSAL_STATUS_PASSED)) ErrFxOnboarding;;
  err_if (negb (existsb (authorizes fxID) (prop_Messages prop))) ErrFxOnboarding.

Definition FinalizeFxEntry (ctx : Context) (msg : MsgFinalizeFxEntry) : M St unit :=
  params ← read GetParams;
  let isOperator := negb (bool_decide (Operator params = "")) && bool_decide (fin_Operator msg = Operator params) in
  let isAuthority := bool_decide (fin_Operator msg = authority) in
  fail_if (negb isOperator && negb isAuthority) ErrUnauthorized;;
  o ← read (λ st, GetFxRequest st (fin_FxId msg));
  req ← or_fail o ErrFxOnboarding;
  fail_if (negb (fx_Status req =? FX_ENTRY_GUARANTEED)) ErrFxOnboarding;;
  st ← reads is_store;
  fail_if (HasInstitution st (fin_FxId msg)) ErrInstitutionExists;;
  fail_if (HasPendingRemoval st (fin_FxId msg)) ErrRemovalInProgress;;
  bootstrap ← reads (λ s, BootstrapPhase ctx (is_ident s));
  (if negb bootstrap && negb isAuthority then
     gov ← reads is_gov; lift (requirePassedProposalFor gov (fin_ProposalId msg) (fx_FxId req))
   else mret tt);;
  on_store (SetInstitution (new_institution ctx (fx_FxId req) (fx_License req) (fx_Applicant req) "" "" "0"
    INSTITUTION_TYPE_FX));;
  on_store (DeleteFxRequest (fx_FxId req));;
  EmitEvent (mkEvent "fx_entry_finalized"
    [("fx_id", fx_FxId req); ("admin", fx_Applicant req); ("proposal_id", Int_String (fin_ProposalId msg))]).
End mint.

(** ** Counter pruning *)
Definition pruneRedeemSubjectCounters (staleBefore : Z) (st : InstStore) : InstStore :=
  delete_keys (firstn CounterPruneBudget
    (map fst (Iterator st RedeemSubjectPrefix (Some (RedeemSubjectDayBound staleBefore))))) st.

Definition stale_counter (staleBefore : Z) (key : string) : bool :=
  match ParseCounterKeyDay key with
  | Some (kind, day) => IsPrunableCounterKind kind && (day <? staleBefore)
  | None => false
  end.
Definition pruneCounterPrefix (staleBefore : Z) : M InstStore unit :=
  cur ← query (λ st, raw st CounterPruneCursorKey);
  let start := match cur with
               | Some c => if 0 <? strlen c then c +:+ key_prefix 0 else CounterPrefix
               | None => CounterPrefix
               end in
  st ← get_state;
  let all := map fst (Iterator st start (PrefixEndBytes CounterPrefix)) in
  let examined := firstn CounterPruneBudget all in
  let exhausted := (length all <=? CounterPruneBudget)%nat in
  modify (delete_keys (List.filter (stale_counter staleBefore) examined));;
  match last examined with
  | Some key => if exhausted then Delete CounterPruneCursorKey else write CounterPruneCursorKey (VBytes key)
  | None => Delete CounterPruneCursorKey
  end.
Definition PruneStaleCounters (ctx : Context) : M InstStore unit :=
  let staleBefore := dayIndex ctx - CounterRetentionDays in
  if staleBefore <=? 0 then mret tt else
  modify (pruneRedeemSubjectCounters staleBefore);;
  pruneCounterPrefix staleBefore.

(** ** Removal sweep *)
Definition firstPendingRemoval (st : InstStore) : option string :=
  match KVStorePrefixIterator st RemovalQueuePrefix with
  | [] => None
  | kv :: _ => ParseRemovalQueueKey kv.1
  end.
Fixpoint drain_prefixes (prefixes : list string) (budget deleted : nat) (st : InstStore) : nat * InstStore :=
  match prefixes with
  | [] => (deleted, st)
  | p :: ps =>
      if (budget <=? deleted)%nat then (deleted, st) else
      let keys := firstn (budget - deleted) (map fst (KVStorePrefixIterator st p)) in
      drain_prefixes ps budget (deleted + length keys) (delete_keys keys st)
  end.
Definition drainInstitutionRanged (id : string) (budget : nat) (st : InstStore) : nat * InstStore :=
  drain_prefixes (PerInstitutionRangePrefixes id) budget 0 st.
Definition institutionRangedEmpty (st : InstStore) (id : string) : bool :=
  forallb (λ p, match KVStorePrefixIterator st p with [] => true | _ => false end)
    (PerInstitutionRangePrefixes id).
(** every round spends budget, so the budget is fuel enough *)
Fixpoint sweep_loop (fuel budget : nat) (st : InstStore) : InstStore :=
  match fuel with
  | O => st
  | S f =>
      if (budget =? 0)%nat then st else
      match firstPendingRemoval st with
      | None => st
      | Some id =>
          let '(n, st1) := drainInstitutionRanged id budget st in
          if institutionRangedEmpty st1 id
          then sweep_loop f (budget - n - 1) (delete (RemovalQueueKey id) st1)
          else st1
      end
  end.
Definition SweepRemovals (st : InstStore) : InstStore := sweep_loop (S RemovalPruneBudget) RemovalPruneBudget st.

(** ** Block hooks *)
Section hooks.
Context {B C I G : Type} `{BankKeeper B}.
Definition BeginBlock (ctx : Context) : M (InstState B C I G) unit :=
  on_store (PruneStaleCounters ctx);;
  on_store (modify SweepRemovals).
Definition EndBlock : M (InstState B C I G) unit :=
  broken ← query AllInvariants;
  if (broken : bool) then lift (Panic "solvency invariant broken in EndBlock") else mret tt.
End hooks.
