(* ===== verification/InstSolvency.v ===== *)
(** * Solvency

    The global invariant of the chain: the supply, at the fixed rate, is worth
    exactly what the vaults hold.  The registry's records are related by [keeps]: the
    well-formedness, the total of the vaults and the rate are unchanged.  Most of
    the module only writes records outside the registry ([same_core]), the rest is a
    registry write that leaves the vault alone, a mint or a redemption. *)
From stdpp Require Import base gmap strings list fin_maps sorting.
From Stdlib Require Import ZArith Lia.
From S2P Require Import Prelude GoInt KVStore Interfaces CoinTypes InstTypes InstServer InstKeeper InstSplit InstMint.

(** ** The registry *)

(** an onboarding request is filed under its own id *)
Definition fx_wf (st : InstStore) : Prop :=
  ∀ k v, st !! k = Some v → has_prefix FxRequestPrefix k = true →
    ∃ r, v = VFxRequest r ∧ k = FxRequestKey (fx_FxId r).

Record inst_wf `{AddressCodec} (st : InstStore) : Prop := {
  iw_params : ∃ p, GetParams st = Ok p ∧ Params_Validate p = Ok tt ∧
    0 ≤ PhiToToman p < 2 ^ 64 ∧ 0 ≤ ProtocolFeeBps p < 2 ^ 32;
  iw_insts : ∀ k v, st !! k = Some v → has_prefix InstitutionPrefix k = true →
    ∃ i z, v = VInstitution i ∧ k = InstitutionKey (inst_Id i) ∧
           NewIntFromString (inst_VaultBalance i) = Some z ∧ 0 ≤ z;
  iw_fx : fx_wf st;
}.

Definition vault_of (v : inst_val) : Z :=
  match v with VInstitution i => mustInt (inst_VaultBalance i) | _ => 0 end.
Definition vault_at (k : string) (v : inst_val) : Z := if has_prefix InstitutionPrefix k then vault_of v else 0.
Definition total_vault (st : InstStore) : Z := map_sum vault_at st.
Definition rate (st : InstStore) : Z := match GetParams st with Ok p => PhiToToman p | _ => 0 end.

(** the records the invariant reads *)
Definition core_key (k : string) : Prop := k = ParamsKey ∨ has_prefix InstitutionPrefix k = true.
#[export] Instance core_key_dec k : Decision (core_key k).
Proof. unfold core_key. apply _. Defined.

Definition same_core (st st' : InstStore) : Prop :=
  (∀ k, core_key k → st' !! k = st !! k) ∧ (fx_wf st → fx_wf st').
#[export] Instance same_core_preorder : PreOrder same_core.
Proof.
  split; [by intros st|]. intros a b c [Hab Fab] [Hbc Fbc]. split; [|auto].
  intros k Hk. by rewrite Hbc, Hab.
Qed.
Lemma fx_wf_insert st k v : has_prefix FxRequestPrefix k = false → fx_wf st → fx_wf (<[k := v]> st).
Proof.
  intros Hk Hf k' v' Hk' Hp. apply lookup_insert_Some in Hk' as [[<- <-]|[_ Hk']]; [congruence|]. by eapply Hf.
Qed.
Lemma fx_wf_delete st k : fx_wf st → fx_wf (delete k st).
Proof. intros Hf k' v' Hk' Hp. apply lookup_delete_Some in Hk' as [_ Hk']. by eapply Hf. Qed.

Section registry.
Context `{AddressCodec}.
Implicit Types st : InstStore.

Definition keeps st st' : Prop :=
  inst_wf st → inst_wf st' ∧ total_vault st' = total_vault st ∧ rate st' = rate st.
#[export] Instance keeps_preorder : PreOrder keeps.
Proof.
  split; [by intros st Hwf|]. intros a b c Hab Hbc Hwf.
  destruct (Hab Hwf) as (Hb & Ht & Hr). destruct (Hbc Hb) as (Hc & Ht' & Hr'). split_and!; [done|lia|lia].
Qed.

Lemma same_core_keeps st st' : same_core st st' → keeps st st'.
Proof.
  intros [Hs Hfx] Hwf. assert (GetParams st' = GetParams st) as Hp.
  { unfold GetParams. rewrite Hs; [done|by left]. }
  split_and!.
  - constructor; [by rewrite Hp; apply iw_params| |by apply Hfx, iw_fx]. intros k v Hk Hpre.
    rewrite Hs in Hk by by right. by eapply iw_insts.
  - apply (map_sum_agree _ core_key); [|exact Hs]. intros k v Hk. unfold vault_at, core_key in *.
    destruct (has_prefix InstitutionPrefix k); [|done]. exfalso. auto.
  - unfold rate. by rewrite Hp.
Qed.

Lemma has_prefix_InstitutionKey id : has_prefix InstitutionPrefix (InstitutionKey id) = true.
Proof. apply has_prefix_app. Qed.
Lemma InstitutionKey_inj a b : InstitutionKey a = InstitutionKey b → a = b.
Proof. apply str_app_inj_l. Qed.

Lemma vault_nonneg st k v : inst_wf st → st !! k = Some v → 0 ≤ vault_at k v.
Proof.
  intros Hwf Hk. unfold vault_at. destruct (has_prefix InstitutionPrefix k) eqn:Hp; [|lia].
  destruct (iw_insts _ Hwf _ _ Hk Hp) as (i & z & -> & _ & Hz & Hnn). simpl. unfold mustInt. by rewrite Hz.
Qed.
Lemma total_vault_nonneg st : inst_wf st → 0 ≤ total_vault st.
Proof. intros Hwf. apply map_sum_nonneg. intros k v. by apply vault_nonneg. Qed.

(** writing an institution's record *)
Lemma SetInstitution_wf st i z :
  inst_wf st → NewIntFromString (inst_VaultBalance i) = Some z → 0 ≤ z →
  inst_wf (<[InstitutionKey (inst_Id i) := VInstitution i]> st).
Proof.
  intros Hwf Hz Hnn. constructor.
  - destruct (iw_params _ Hwf) as (p & Hp & Hv). exists p. split; [|done].
    rewrite <- Hp. unfold GetParams. by rewrite lookup_insert_ne.
  - intros k v Hk Hpre. apply lookup_insert_Some in Hk as [[<- <-]|[_ Hk]]; [|by eapply iw_insts]. by exists i, z.
  - apply fx_wf_insert; [done|by apply iw_fx].
Qed.
Lemma rate_SetInstitution st i :
  rate (<[InstitutionKey (inst_Id i) := VInstitution i]> st) = rate st.
Proof. unfold rate, GetParams. by rewrite lookup_insert_ne. Qed.

(** the record of [i] is the one in the store *)
Definition inst_at st (i : Institution) : Prop := st !! InstitutionKey (inst_Id i) = Some (VInstitution i).
Lemma inst_at_core st st' i : same_core st st' → inst_at st i → inst_at st' i.
Proof. unfold inst_at. intros [Hs _] Hi. rewrite Hs; [done|]. right. apply has_prefix_InstitutionKey. Qed.

Lemma total_vault_update st i i' :
  inst_at st i → inst_Id i' = inst_Id i →
  total_vault (<[InstitutionKey (inst_Id i') := VInstitution i']> st) =
  total_vault st - mustInt (inst_VaultBalance i) + mustInt (inst_VaultBalance i').
Proof.
  intros Hi Hid. rewrite Hid. unfold total_vault. rewrite (map_sum_insert vault_at _ _ _ _ Hi).
  unfold vault_at. by rewrite has_prefix_InstitutionKey.
Qed.
Lemma inst_at_vault st i : inst_wf st → inst_at st i →
  ∃ z, NewIntFromString (inst_VaultBalance i) = Some z ∧ 0 ≤ z ∧ mustInt (inst_VaultBalance i) = z.
Proof.
  intros Hwf Hi. destruct (iw_insts _ Hwf _ _ Hi (has_prefix_InstitutionKey _)) as (j & z & Hj & _ & Hz & Hnn).
  injection Hj as <-. exists z. unfold mustInt. by rewrite Hz.
Qed.

(** a registry write that leaves the vault alone *)
Lemma SetInstitution_keeps st i i' :
  inst_at st i → inst_Id i' = inst_Id i → inst_VaultBalance i' = inst_VaultBalance i →
  keeps st (<[InstitutionKey (inst_Id i') := VInstitution i']> st).
Proof.
  intros Hi Hid Hv Hwf. destruct (inst_at_vault st i Hwf Hi) as (z & Hz & Hnn & _).
  split_and!; [eapply SetInstitution_wf; [done|by rewrite Hv|done]| |apply rate_SetInstitution].
  rewrite (total_vault_update st i i' Hi Hid), Hv. lia.
Qed.
(** a new institution starts with an empty vault *)
Lemma new_institution_keeps st i :
  st !! InstitutionKey (inst_Id i) = None → inst_VaultBalance i = "0" →
  keeps st (<[InstitutionKey (inst_Id i) := VInstitution i]> st).
Proof.
  intros Hn Hv Hwf. assert (NewIntFromString (inst_VaultBalance i) = Some 0) as Hz by by rewrite Hv.
  split_and!; [by eapply SetInstitution_wf| |apply rate_SetInstitution].
  unfold total_vault. rewrite map_sum_insert_new by done. unfold vault_at at 1.
  rewrite has_prefix_InstitutionKey. simpl. unfold mustInt. rewrite Hz. simpl. lia.
Qed.
(** removing one whose vault is empty *)
Lemma remove_institution_keeps st i :
  inst_at st i → mustInt (inst_VaultBalance i) = 0 → keeps st (delete (InstitutionKey (inst_Id i)) st).
Proof.
  intros Hi Hz Hwf. split_and!.
  - constructor.
    + destruct (iw_params _ Hwf) as (p & Hp & Hv). exists p. split; [|done].
      rewrite <- Hp. unfold GetParams. by rewrite lookup_delete_ne.
    + intros k v Hk Hpre. apply lookup_delete_Some in Hk as [_ Hk]. by eapply iw_insts.
    + apply fx_wf_delete, iw_fx, Hwf.
  - unfold total_vault. rewrite (map_sum_delete vault_at _ _ _ Hi). unfold vault_at at 2.
    rewrite has_prefix_InstitutionKey. simpl. lia.
  - unfold rate, GetParams. by rewrite lookup_delete_ne.
Qed.

(** ** The sum the code computes *)
Lemma SumVaultBalance_spec st :
  inst_wf st → total_vault st < 2 ^ 256 → SumVaultBalance st = Ok (total_vault st).
Proof.
  intros Hwf Hb. unfold SumVaultBalance, total_vault, vault_at.
  assert (map_sum (λ k v, if has_prefix InstitutionPrefix k then vault_of v else 0) st =
    sumZ (λ kv, vault_of kv.2) (KVStorePrefixIterator st InstitutionPrefix)) as Heq
    by by rewrite (sumZ_prefix_iterator (λ kv, vault_of kv.2)).
  change (map_sum (λ k v, if has_prefix InstitutionPrefix k then vault_of v else 0) st) with (total_vault st) in Heq |- *.
  rewrite Heq in Hb |- *. clear Heq.
  assert (∀ kv, kv ∈ KVStorePrefixIterator st InstitutionPrefix →
    ∃ i z, kv.2 = VInstitution i ∧ NewIntFromString (inst_VaultBalance i) = Some z ∧ 0 ≤ z) as Hall.
  { intros [k v] [Hk Hp]%elem_of_prefix_iterator.
    destruct (iw_insts _ Hwf _ _ Hk Hp) as (i & z & -> & _ & Hz). by exists i, z. }
  revert Hb Hall. generalize (KVStorePrefixIterator st InstitutionPrefix). intros l Hb Hall.
  assert (∀ acc, 0 ≤ acc → acc + sumZ (λ kv, vault_of kv.2) l < 2 ^ 256 →
    ofold (λ sum kv, i ← decode_Institution kv.2; v ← mustIntStrict (inst_VaultBalance i); sum +! v) l acc
    = Ok (acc + sumZ (λ kv, vault_of kv.2) l)) as Hgen; [|by rewrite (Hgen 0) by lia].
  clear Hb. induction l as [|kv l IH]; intros acc Ha Hb; [simpl; f_equal; unfold sumZ; simpl; lia|].
  destruct (Hall kv ltac:(left)) as (i & z & Hi & Hz & Hnn). rewrite sumZ_cons in *.
  assert (0 ≤ sumZ (λ kv, vault_of kv.2) l) as Hl.
  { apply sumZ_nonneg. intros kv' Hin. destruct (Hall kv' ltac:(by right)) as (j & w & -> & Hw & Hn).
    simpl. unfold mustInt. by rewrite Hw. }
  rewrite Hi in *. cbn [ofold]. rewrite Hi. cbn [decode_Institution mbind outcome_bind]. unfold mustIntStrict.
  rewrite Hz. cbn [mbind outcome_bind]. unfold Int_Add.
  cbn [vault_of] in *. unfold mustInt in *. rewrite Hz in *. simpl default in *.
  rewrite Int_checked_in by (unfold in_range; lia). cbn [mbind outcome_bind].
  rewrite IH; [f_equal; lia|set_solver|lia|lia].
Qed.

Lemma SumVaultBalance_Ok st v : inst_wf st → SumVaultBalance st = Ok v → v = total_vault st.
Proof.
  intros Hwf Hs. destruct (Z.lt_ge_cases (total_vault st) (2 ^ 256)) as [Hb|Hb].
  { rewrite SumVaultBalance_spec in Hs by done. by injection Hs. }
  exfalso. revert Hs Hb. unfold SumVaultBalance, total_vault, vault_at.
  change (map_sum _ st) with (map_sum (λ k v, if has_prefix InstitutionPrefix k then (λ kv, vault_of kv.2) (k, v) else 0) st).
  rewrite <- (sumZ_prefix_iterator (λ kv, vault_of kv.2)).
  generalize (KVStorePrefixIterator st InstitutionPrefix). intros l.
  assert (∀ acc, in_range acc →
    ofold (λ sum kv, i ← decode_Institution kv.2; v ← mustIntStrict (inst_VaultBalance i); sum +! v) l acc = Ok v →
    v = acc + sumZ (λ kv, vault_of kv.2) l ∧ in_range v) as Hgen.
  { induction l as [|kv l IH]; intros acc Ha Hs; cbn [ofold] in Hs.
    { injection Hs as <-. unfold sumZ. simpl. split; [lia|done]. }
    unfold mustIntStrict in Hs. int_inv. go_cases. rename select (ofold _ _ _ = _) into Hf.
    apply IH in Hf as [-> Hv]; [|done]. split; [|done]. rewrite sumZ_cons.
    destruct (kv.2) as [| |i | |]; try done. rename select (decode_Institution _ = _) into Hi. injection Hi as ->.
    cbn [vault_of]. unfold mustInt. rename select (NewIntFromString _ = _) into Hn. rewrite Hn. simpl. lia. }
  intros Hs Hb. apply Hgen in Hs as [-> Hv]; unfold in_range in *; lia.
Qed.

(** ** Solvency *)
Definition solvent (supply : Z) st : Prop :=
  inst_wf st ∧ supply * rate st = total_vault st * UphiPerPhi.

Lemma solvent_keeps supply st st' : solvent supply st → keeps st st' → solvent supply st'.
Proof. intros [Hwf He] Hk. destruct (Hk Hwf) as (Hwf' & Ht & Hr). split; [done|]. by rewrite Ht, Hr. Qed.

Lemma validated_rate p : Params_Validate p = Ok tt → 0 ≤ PhiToToman p < 2 ^ 64 → good_rate (PhiToToman p).
Proof. unfold Params_Validate. intros Hv Hty. go_inv. bool_prop. split; [lia|done]. Qed.
Lemma wf_rate st : inst_wf st → good_rate (rate st).
Proof.
  intros Hwf. destruct (iw_params _ Hwf) as (p & Hp & Hv & Hty & _). unfold rate. rewrite Hp. by apply validated_rate.
Qed.
End registry.

(** ** Actions that stay outside the registry *)
Definition quiet {A} (m : M InstStore A) : Prop := ∀ st a st', m st = (Ok a, st') → same_core st st'.

(** keys that hold neither a registry record nor an onboarding request *)
Definition plain_key (k : string) : Prop := ¬ core_key k ∧ has_prefix FxRequestPrefix k = false.

Lemma same_core_insert st k v : plain_key k → same_core st (<[k := v]> st).
Proof.
  intros [Hk Hp]. split; [|by apply fx_wf_insert]. intros k' Hk'. apply lookup_insert_ne. intros <-. done.
Qed.
Lemma same_core_delete st k : ¬ core_key k → same_core st (delete k st).
Proof.
  intros Hk. split; [|apply fx_wf_delete]. intros k' Hk'. apply lookup_delete_ne. intros <-. done.
Qed.
Lemma same_core_delete_keys st keys : (∀ k, k ∈ keys → ¬ core_key k) → same_core st (delete_keys keys st).
Proof.
  unfold delete_keys. revert st. induction keys as [|k keys IH]; intros st Hk; simpl; [done|].
  etransitivity; [apply (same_core_delete st k); apply Hk; left|]. apply IH. intros k' Hk'. apply Hk. by right.
Qed.
Lemma not_core_prefix z k : z ≠ 0 → z ≠ 16 → 0 ≤ z < 256 → has_prefix (key_prefix z) k = true → ¬ core_key k.
Proof.
  intros H0 H16 Hz Hp. apply has_prefix_spec in Hp as [t ->]. intros [Hc|Hc].
  - apply (f_equal (has_prefix (key_prefix z))) in Hc. rewrite has_prefix_app in Hc.
    unfold ParamsKey in Hc. rewrite <- (str_app_nil_r (key_prefix 0)), has_prefix_byte in Hc by lia.
    symmetry in Hc. bool_prop. lia.
  - unfold InstitutionPrefix in Hc. rewrite has_prefix_byte in Hc by lia. bool_prop. lia.
Qed.
Lemma plain_prefix z t : z ≠ 0 → z ≠ 16 → z ≠ 96 → 0 ≤ z < 256 → plain_key (key_prefix z +:+ t).
Proof.
  intros. split; [eapply not_core_prefix; [..|apply has_prefix_app]; lia|].
  unfold FxRequestPrefix. rewrite has_prefix_byte by lia. apply Z.eqb_neq. lia.
Qed.
Ltac plain := apply plain_prefix; lia.
Lemma plain_keys :
  (∀ a b, plain_key (RoleKey a b)) ∧ (∀ a b c, plain_key (ApprovalKey a b c)) ∧
  (∀ a b c, plain_key (CounterTotalKey a b c)) ∧ (∀ a b c d, plain_key (CounterUserKey a b c d)) ∧
  (∀ a b c, plain_key (DepositKey a b c)) ∧
  (∀ a, plain_key (AdminEpochKey a)) ∧ (∀ a b c, plain_key (RedeemSubjectCounterKey a b c)) ∧
  (∀ a b, plain_key (HolderKycTierKey a b)) ∧ (∀ a, plain_key (LastAttestorKey a)) ∧
  (∀ a, plain_key (RemovalQueueKey a)) ∧ plain_key CounterPruneCursorKey.
Proof.
  split_and!; intros; try plain.
Qed.
Lemma plain_not_core k : plain_key k → ¬ core_key k.
Proof. by intros [? _]. Qed.
#[export] Hint Extern 1 (plain_key _) => apply plain_keys : phi.
#[export] Hint Resolve same_core_insert same_core_delete plain_not_core : phi.

Lemma quiet_write k v : plain_key k → quiet (write k v).
Proof. intros Hk st a st' Hr. unfold write in Hr. go_inv. by apply same_core_insert. Qed.
Lemma quiet_Delete k : ¬ core_key k → quiet (Delete k).
Proof. intros Hk st a st' Hr. unfold Delete in Hr. go_inv. by apply same_core_delete. Qed.
Lemma quiet_bind {A B} (m : M InstStore A) (f : A → M InstStore B) :
  quiet m → (∀ a, quiet (f a)) → quiet (m ≫= f).
Proof. intros Hm Hf st b st' Hr. go_inv. etransitivity; [by eapply Hm|by eapply Hf]. Qed.
Lemma quiet_query {A} (f : InstStore → outcome A) : quiet (query f).
Proof. intros st a st' Hr. by go_inv. Qed.
Lemma quiet_ret {A} (a : A) : quiet (mret a).
Proof. intros st b st' Hr. by go_inv. Qed.
Lemma quiet_lift {A} (o : outcome A) : quiet (lift o).
Proof. intros st b st' Hr. by go_inv. Qed.
#[export] Hint Resolve quiet_write quiet_Delete quiet_bind quiet_query quiet_ret quiet_lift : phi.

Lemma quiet_add_counter k amt : plain_key k → quiet (add_counter k amt).
Proof. intros Hk. unfold add_counter. eauto 6 with phi. Qed.
Lemma quiet_clearApprovals id ch : quiet (clearApprovals id ch).
Proof.
  intros st a st' Hr. unfold clearApprovals in Hr. go_inv. apply same_core_delete_keys.
  intros k Hk. apply list_elem_of_fmap in Hk as ([k' v] & -> & Hin).
  apply elem_of_prefix_iterator in Hin as [_ Hp]. unfold ApprovalPrefixFor in Hp.
  eapply (not_core_prefix 48); [lia..|]. by apply has_prefix_trans in Hp.
Qed.
#[export] Hint Resolve quiet_add_counter quiet_clearApprovals : phi.

Section quiet_ops.
Context `{AddressCodec}.
Lemma quiet_SetRole a b r : quiet (SetRole a b r).
Proof. unfold SetRole. auto with phi. Qed.
Lemma quiet_DeleteRole a b : quiet (DeleteRole a b).
Proof. unfold DeleteRole. auto with phi. Qed.
Lemma quiet_bumpAdminEpoch id : quiet (bumpAdminEpoch id).
Proof. unfold bumpAdminEpoch. auto with phi. Qed.
Lemma quiet_recordApproval i ch s : quiet (recordApproval i ch s).
Proof. unfold recordApproval. auto 6 with phi. Qed.
Lemma quiet_SetLastAttestor id a : quiet (SetLastAttestor id a).
Proof. unfold SetLastAttestor. auto with phi. Qed.
Lemma quiet_addMintCounters ctx i r t : quiet (addMintCounters ctx i r t).
Proof. unfold addMintCounters, addCounterTotal, addCounterUser. auto 6 with phi. Qed.
Lemma quiet_addRedeemCounters {I} `{IdentityKeeper I} ctx (ident : I) i h t u :
  quiet (addRedeemCounters ctx ident i h t u).
Proof.
  unfold addRedeemCounters, addCounterTotal, addCounterUser, addRedeemSubjectTotal.
  apply quiet_bind; [auto with phi|intros _]. apply quiet_bind; [auto with phi|intros _].
  apply quiet_bind; [destruct (redeemSubject ident h); auto with phi|intros _].
  apply quiet_bind; [auto with phi|intros p]. repeat case_match; auto with phi.
Qed.
Lemma quiet_markDeposit a b c : quiet (markDeposit a b c).
Proof. unfold markDeposit. auto with phi. Qed.
Lemma quiet_SetFxRequest r : quiet (SetFxRequest r).
Proof.
  intros st a st' Hr. unfold SetFxRequest, write in Hr. go_inv. split.
  - intros k Hk. apply lookup_insert_ne. intros <-.
    eapply (not_core_prefix 96); [..|exact Hk]; [lia..|apply has_prefix_app].
  - intros Hf k v Hk Hp. apply lookup_insert_Some in Hk as [[<- <-]|[_ Hk]]; [by eexists|by eapply Hf].
Qed.
Lemma quiet_DeleteFxRequest id : quiet (DeleteFxRequest id).
Proof.
  unfold DeleteFxRequest. apply quiet_Delete. eapply (not_core_prefix 96); [lia..|apply has_prefix_app].
Qed.
Lemma quiet_enqueueRemoval id : quiet (enqueueRemoval id).
Proof. unfold enqueueRemoval. auto with phi. Qed.
End quiet_ops.
#[export] Hint Resolve quiet_SetRole quiet_DeleteRole quiet_bumpAdminEpoch quiet_recordApproval
  quiet_SetLastAttestor quiet_addMintCounters quiet_addRedeemCounters quiet_markDeposit
  quiet_SetFxRequest quiet_DeleteFxRequest quiet_enqueueRemoval : phi.

(** ** Handlers that leave solvency alone

    A small program logic over the message server: a [calm] action changes neither
    the bank nor the registry, a [steady] one keeps the supply, the total of the
    vaults and the rate, and [after i] is [steady] for code that runs while [i] is
    the record in the store.  Every handler but mint, redeem and the parameter
    updates is [steady]. *)
Section logic.
Context {B C I G : Type} `{BankKeeper B} `{AddressCodec}.
Abbreviation St := (InstState B C I G).

Definition calm {A} (m : M St A) : Prop :=
  ∀ s a s', m s = (Ok a, s') → is_bank s' = is_bank s ∧ same_core (is_store s) (is_store s').
(** what a steady action guarantees of the state it leaves *)
Definition kept (s s' : St) : Prop :=
  GetSupply (is_bank s') = GetSupply (is_bank s) ∧ inst_wf (is_store s') ∧
  total_vault (is_store s') = total_vault (is_store s) ∧ rate (is_store s') = rate (is_store s).
Definition steady {A} (m : M St A) : Prop :=
  ∀ s a s', inst_wf (is_store s) → m s = (Ok a, s') → kept s s'.
Definition after {A} (i : Institution) (m : M St A) : Prop :=
  ∀ s a s', inst_wf (is_store s) → inst_at (is_store s) i → m s = (Ok a, s') → kept s s'.

Lemma kept_trans s1 s2 s3 : kept s1 s2 → kept s2 s3 → kept s1 s3.
Proof. unfold kept. intros (? & ? & ? & ?) (? & ? & ? & ?). split_and!; [congruence|done|congruence..]. Qed.
Lemma kept_keeps s s' : inst_wf (is_store s) → is_bank s' = is_bank s → keeps (is_store s) (is_store s') → kept s s'.
Proof. intros Hwf Hb Hk. unfold kept. rewrite Hb. destruct (Hk Hwf) as (? & ? & ?). done. Qed.
Lemma calm_steady {A} (m : M St A) : calm m → steady m.
Proof. intros Hm s a s' Hwf Hr. apply Hm in Hr as [Hb Hs]. apply kept_keeps; [done..|]. by apply same_core_keeps. Qed.
Lemma steady_after {A} i (m : M St A) : steady m → after i m.
Proof. intros Hm s a s' Hwf _ Hr. by eapply Hm. Qed.

Lemma calm_ret {A} (a : A) : calm (mret a).
Proof. intros s b s' Hr. by go_inv. Qed.
Lemma calm_lift {A} (o : outcome A) : calm (lift o).
Proof. intros s b s' Hr. by go_inv. Qed.
Lemma calm_fail_if c e : calm (fail_if c e).
Proof. intros s b s' Hr. by go_inv. Qed.
Lemma calm_fail {A} e : calm (fail e : M St A).
Proof. intros s b s' Hr. by go_inv. Qed.
Lemma calm_or_fail {A} (o : option A) e : calm (or_fail o e).
Proof. intros s b s' Hr. by go_inv. Qed.
Lemma calm_reads {A} (f : St → A) : calm (reads f).
Proof. intros s b s' Hr. by go_inv. Qed.
Lemma calm_query {A} (f : St → outcome A) : calm (query f).
Proof. intros s b s' Hr. by go_inv. Qed.
Lemma calm_read {A} (f : InstStore → outcome A) : calm (read f).
Proof. apply calm_query. Qed.
Lemma calm_EmitEvent e : calm (EmitEvent e).
Proof. intros s b s' Hr. unfold EmitEvent in Hr. by go_inv. Qed.
Lemma calm_on_store {A} (m : M InstStore A) : quiet m → calm (on_store m).
Proof. intros Hm s a s' Hr. unfold on_store in Hr. go_inv. split; [done|]. by eapply Hm. Qed.
Lemma calm_on_coin {A} (m : M C A) : calm (on_coin m).
Proof. intros s a s' Hr. unfold on_coin in Hr. by go_inv. Qed.
Lemma calm_bind {A D} (m : M St A) (f : A → M St D) : calm m → (∀ a, calm (f a)) → calm (m ≫= f).
Proof.
  intros Hm Hf s d s' Hr. go_inv.
  repeat match goal with Hx : m _ = _ |- _ => apply Hm in Hx as [? ?] | Hx : f _ _ = _ |- _ => apply Hf in Hx as [? ?] end.
  split; [congruence|by etransitivity].
Qed.
Lemma steady_bind {A D} (m : M St A) (f : A → M St D) : steady m → (∀ a, steady (f a)) → steady (m ≫= f).
Proof.
  intros Hm Hf s d s' Hwf Hr. go_inv. rename select (m _ = _) into Hx. apply Hm in Hx; [|done].
  rename select (f _ _ = _) into Hy. apply Hf in Hy; [|by apply Hx]. by eapply kept_trans.
Qed.
Lemma after_calm {A D} i (m : M St A) (f : A → M St D) : calm m → (∀ a, after i (f a)) → after i (m ≫= f).
Proof.
  intros Hm Hf s d s' Hwf Hi Hr. go_inv. rename select (m _ = _) into Hx.
  pose proof (calm_steady m Hm _ _ _ Hwf Hx) as Hk. apply Hm in Hx as [Hb Hc].
  rename select (f _ _ = _) into Hy. apply Hf in Hy; [|by apply Hk|by eapply inst_at_core]. by eapply kept_trans.
Qed.
Lemma after_bind {A D} i (m : M St A) (f : A → M St D) : after i m → (∀ a, steady (f a)) → after i (m ≫= f).
Proof.
  intros Hm Hf s d s' Hwf Hi Hr. go_inv. rename select (m _ = _) into Hx. apply Hm in Hx; [|done..].
  rename select (f _ _ = _) into Hy. apply Hf in Hy; [|by apply Hx]. by eapply kept_trans.
Qed.
(** overwriting the record without touching the vault *)
Lemma after_set i i' : inst_Id i' = inst_Id i → inst_VaultBalance i' = inst_VaultBalance i →
  after i (on_store (SetInstitution i')).
Proof.
  intros Hid Hv s a s' Hwf Hi Hr. unfold on_store, SetInstitution, write in Hr. go_inv.
  apply kept_keeps; [done..|]. by eapply SetInstitution_keeps.
Qed.
(** fetching a record: what is returned is the record in the store *)
Lemma GetInstitution_at st id i : inst_wf st → GetInstitution st id = Ok (Some i) → inst_at st i ∧ inst_Id i = id.
Proof.
  intros Hwf Hg. unfold GetInstitution in Hg. destruct (st !! InstitutionKey id) as [v|] eqn:Hv; [|done].
  destruct (iw_insts _ Hwf _ _ Hv (has_prefix_InstitutionKey _)) as (j & z & -> & Hk & _).
  cbn in Hg. injection Hg as ->. apply InstitutionKey_inj in Hk as ->. done.
Qed.
Lemma the_institution_at (s : St) id i s' : inst_wf (is_store s) → the_institution id s = (Ok i, s') →
  s' = s ∧ inst_at (is_store s) i ∧ inst_Id i = id.
Proof.
  intros Hwf Hr. unfold the_institution, read in Hr. go_inv. split; [done|]. by apply GetInstitution_at.
Qed.
Lemma steady_the_institution {A} id (f : Institution → M St A) :
  (∀ i, after i (f i)) → steady (the_institution id ≫= f).
Proof.
  intros Hf s a s' Hwf Hr. go_inv. rename select (the_institution _ _ = _) into Hx.
  apply the_institution_at in Hx as (-> & Hi & _); [|done]. by eapply Hf.
Qed.
Lemma calm_the_institution id : calm (the_institution id).
Proof. unfold the_institution. apply calm_bind; [apply calm_read|intros o; apply calm_or_fail]. Qed.
End logic.

#[export] Hint Resolve calm_ret calm_lift calm_fail_if calm_fail calm_or_fail calm_reads calm_query calm_read
  calm_EmitEvent calm_on_store calm_on_coin calm_the_institution : phi.

(** [calm_tac] decomposes an action into its steps *)
Ltac calm_tac :=
  repeat first
    [ progress auto 3 with phi
    | match goal with
      | |- calm (mbind _ _) => apply calm_bind; [|intros ?]
      | |- calm (if ?c then _ else _) => destruct c
      | |- calm (match ?o with _ => _ end) => destruct o
      | |- calm (let '(_, _) := ?x in _) => destruct x
      end ].
Ltac steady_calm := apply calm_steady; calm_tac.
(** ** The handlers *)
Section handlers.
Context {B C I G : Type} `{BankKeeper B} `{CoinKeeperI C} `{IdentityKeeper I} `{GovKeeper G}.
Context `{AddressCodec} `{Hasher} `{Verifier} `{InstCodec}.
Context (authority : string).
Abbreviation St := (InstState B C I G).

Lemma calm_canManageRegistry ctx signer : calm (B:=B) (C:=C) (G:=G) (canManageRegistry (I:=I) authority ctx signer).
Proof. unfold canManageRegistry. calm_tac. Qed.
Lemma calm_trySensitive i s ch : calm (B:=B) (C:=C) (I:=I) (G:=G) (trySensitive i s ch).
Proof. unfold trySensitive. calm_tac. Qed.
Lemma calm_emitPending id a r : calm (B:=B) (C:=C) (I:=I) (G:=G) (emitPending id a r).
Proof. unfold emitPending. calm_tac. Qed.
Lemma calm_EmitBackingHealth i : calm (B:=B) (C:=C) (I:=I) (G:=G) (EmitBackingHealth i).
Proof. unfold EmitBackingHealth. calm_tac. Qed.
#[local] Hint Resolve calm_canManageRegistry calm_trySensitive calm_emitPending calm_EmitBackingHealth : phi.

Lemma after_sensitive i s ch act (e : M St unit) : after i e → after i (sensitive i s ch act e).
Proof.
  intros He. unfold sensitive. apply after_calm; [auto with phi|intros r].
  destruct (negb (executed r)).
  - apply steady_after. steady_calm.
  - apply after_bind; [done|intros _; steady_calm].
Qed.

Lemma steady_Freeze ctx msg : steady (B:=B) (C:=C) (G:=G) (FreezeInstitution (I:=I) authority ctx msg).
Proof.
  unfold FreezeInstitution. apply steady_bind; [steady_calm|intros ok].
  apply steady_bind; [steady_calm|intros _]. apply steady_the_institution. intros i.
  apply after_bind; [by apply after_set|intros _; steady_calm].
Qed.
Lemma steady_Publish ctx msg : steady (B:=B) (C:=C) (I:=I) (G:=G) (PublishInstitutionAttestation ctx msg).
Proof.
  unfold PublishInstitutionAttestation. apply steady_the_institution. intros i.
  do 5 (apply after_calm; [by calm_tac|intros ?]).
  apply after_bind; [by apply after_set|intros _; steady_calm].
Qed.
Lemma steady_Grant ctx msg : steady (B:=B) (C:=C) (I:=I) (G:=G) (GrantInstitutionRole ctx msg).
Proof.
  unfold GrantInstitutionRole. apply steady_the_institution. intros i. apply after_sensitive.
  apply steady_after. steady_calm.
Qed.
Lemma steady_Revoke ctx msg : steady (B:=B) (C:=C) (I:=I) (G:=G) (RevokeInstitutionRole ctx msg).
Proof.
  unfold RevokeInstitutionRole. apply steady_the_institution. intros i. apply after_sensitive.
  apply steady_after. steady_calm.
Qed.
Lemma steady_AppConfig ctx msg : steady (B:=B) (C:=C) (I:=I) (G:=G) (UpdateInstitutionAppConfig ctx msg).
Proof.
  unfold UpdateInstitutionAppConfig. apply steady_the_institution. intros i. apply after_sensitive.
  apply after_bind; [by apply after_set|intros _; steady_calm].
Qed.
Lemma steady_InstParams ctx msg : steady (B:=B) (C:=C) (I:=I) (G:=G) (UpdateInstitutionParams ctx msg).
Proof.
  unfold UpdateInstitutionParams. apply steady_the_institution. intros i.
  apply after_calm; [calm_tac|intros _]. apply after_sensitive.
  apply after_bind; [by apply after_set|intros _; steady_calm].
Qed.
Lemma steady_DepositKey ctx msg : steady (B:=B) (C:=C) (I:=I) (G:=G) (SetInstitutionDepositKey ctx msg).
Proof.
  unfold SetInstitutionDepositKey. apply steady_the_institution. intros i. apply after_sensitive.
  apply after_bind; [by apply after_set|intros _; steady_calm].
Qed.
Lemma calm_the_guarantor id : calm (B:=B) (C:=C) (I:=I) (G:=G) (the_guarantor id).
Proof. unfold the_guarantor. calm_tac. Qed.
#[local] Hint Resolve calm_the_guarantor : phi.
Lemma steady_RequestFx ctx msg : steady (B:=B) (C:=C) (I:=I) (G:=G) (RequestFxEntry ctx msg).
Proof. unfold RequestFxEntry. steady_calm. Qed.
Lemma steady_GuaranteeFx ctx msg : steady (B:=B) (C:=C) (I:=I) (G:=G) (GuaranteeFxEntry ctx msg).
Proof. unfold GuaranteeFxEntry. steady_calm. Qed.
End handlers.
