(* ===== verification/InstInvariant.v ===== *)
(** * The solvency invariant holds in every reachable state

    Minting raises the supply and one vault together, a redemption lowers them
    together, the rate can only change while every vault is empty, and no other
    handler or hook touches either side.  So from any solvent state, whatever is
    delivered next, the state is solvent again, and [EndBlock] never halts the chain. *)
From stdpp Require Import base gmap strings list fin_maps sorting.
From Stdlib Require Import ZArith Lia.
From S2P Require Import Prelude GoInt KVStore Interfaces CoinTypes InstTypes InstServer InstKeeper InstSplit InstMint InstSolvency.

(** ** The remaining actions that leave solvency alone

    Registration, removal and the last onboarding step write the registry without
    moving a vault; the block hook only deletes records outside it; compensating a
    slash restores exactly the supply the slash burned. *)
(** ** The block hook stays outside the registry *)
Lemma stale_counter_prefix day k : stale_counter day k = true → has_prefix CounterPrefix k = true.
Proof.
  unfold stale_counter, ParseCounterKeyDay, byte_at. destruct k as [|c k]; [done|]. cbn [String.get fmap option_fmap option_map mbind option_bind].
  destruct (Z.eqb_spec (char_code c) 64) as [Hc|]; [|done]. intros _.
  cbn. rewrite andb_true_r. apply Ascii.eqb_eq. apply char_code_inj. by rewrite Hc, char_code_byte.
Qed.
Lemma stale_counter_key day k : stale_counter day k = true → ¬ core_key k.
Proof. intros Hk%stale_counter_prefix. by eapply (not_core_prefix 64). Qed.
Lemma same_core_prune_subjects day st : same_core st (pruneRedeemSubjectCounters day st).
Proof.
  apply same_core_delete_keys. intros k Hk. apply elem_of_take in Hk as (j & Hk & _).
  apply list_elem_of_lookup_2, list_elem_of_fmap in Hk as ([k' v] & -> & Hin).
  apply elem_of_Iterator in Hin as [_ Hr%in_range_prefix]. by eapply (not_core_prefix 128).
Qed.
Lemma quiet_pruneCounterPrefix day : quiet (pruneCounterPrefix day).
Proof.
  unfold pruneCounterPrefix. apply quiet_bind; [auto with phi|intros cur].
  apply quiet_bind; [by intros st a st' Hr; go_inv|intros st0].
  apply quiet_bind; [|intros _; repeat case_match; auto with phi].
  intros st a st' Hr. go_inv. apply same_core_delete_keys. intros k Hk.
  apply list_elem_of_In, filter_In in Hk as [_ Hk]. by eapply stale_counter_key.
Qed.
Lemma quiet_PruneStaleCounters ctx : quiet (PruneStaleCounters ctx).
Proof.
  unfold PruneStaleCounters. case_match; [auto with phi|].
  apply quiet_bind; [|intros _; apply quiet_pruneCounterPrefix].
  intros st a st' Hr. go_inv. apply same_core_prune_subjects.
Qed.

Lemma range_prefix_not_core id p k :
  p ∈ PerInstitutionRangePrefixes id → has_prefix p k = true → ¬ core_key k.
Proof.
  intros Hp Hk. unfold PerInstitutionRangePrefixes in Hp.
  apply elem_of_cons in Hp as [->|Hp]; [apply has_prefix_trans in Hk; by eapply (not_core_prefix 32)|].
  apply elem_of_cons in Hp as [->|Hp]; [apply has_prefix_trans in Hk; by eapply (not_core_prefix 48)|].
  apply list_elem_of_singleton in Hp as ->. apply has_prefix_trans in Hk. by eapply (not_core_prefix 160).
Qed.
Lemma same_core_drain ps budget deleted st n st' :
  (∀ p k, p ∈ ps → has_prefix p k = true → ¬ core_key k) →
  drain_prefixes ps budget deleted st = (n, st') → same_core st st'.
Proof.
  revert deleted st. induction ps as [|p ps IH]; intros deleted st Hps Hd; simpl in Hd; [by simplify_eq|].
  destruct (_ <=? _)%nat; [by simplify_eq|]. etransitivity; [|eapply IH; [set_solver|done]].
  apply same_core_delete_keys. intros k Hk. apply elem_of_take in Hk as (j & Hk & _).
  apply list_elem_of_lookup_2, list_elem_of_fmap in Hk as ([k' v] & -> & Hin).
  apply elem_of_prefix_iterator in Hin as [_ Hp]. eapply Hps; [left|done].
Qed.
Lemma same_core_sweep fuel budget st : same_core st (sweep_loop fuel budget st).
Proof.
  revert budget st. induction fuel as [|fuel IH]; intros budget st; [done|]. simpl.
  destruct (_ =? _)%nat; [done|]. destruct (firstPendingRemoval st) as [id|]; [|done].
  destruct (drainInstitutionRanged id budget st) as [n st1] eqn:Hd.
  apply same_core_drain in Hd; [|apply range_prefix_not_core].
  destruct (institutionRangedEmpty st1 id); [|done].
  etransitivity; [exact Hd|]. etransitivity; [|apply IH]. auto with phi.
Qed.

(** ** The handlers *)
Section handlers.
Context {B C I G : Type} `{BankLaws B} `{CoinKeeperI C} `{IdentityKeeper I} `{GovKeeper G}.
Context `{AddressCodec} `{Hasher} `{Verifier} `{InstCodec}.
Context (authority : string).
Abbreviation St := (InstState B C I G).

Lemma steady_BeginBlock ctx : steady (B:=B) (C:=C) (I:=I) (G:=G) (BeginBlock ctx).
Proof.
  apply calm_steady, calm_bind; [apply calm_on_store, quiet_PruneStaleCounters|intros _].
  apply calm_on_store. intros st a st' Hr. go_inv. apply same_core_sweep.
Qed.

(** a request is filed under its own id *)
Lemma GetFxRequest_id st id req : inst_wf st → GetFxRequest st id = Ok (Some req) → fx_FxId req = id.
Proof.
  intros Hwf Hg. unfold GetFxRequest in Hg. destruct (st !! FxRequestKey id) as [v|] eqn:Hv; [|done].
  destruct (iw_fx _ Hwf _ _ Hv (has_prefix_app _ _)) as (r & -> & Hk). cbn in Hg. by simplify_eq.
Qed.

Lemma HasInstitution_core st st' id : same_core st st' → HasInstitution st' id = HasInstitution st id.
Proof. intros [Hs _]. unfold HasInstitution, Has. rewrite Hs; [done|]. right. apply has_prefix_InstitutionKey. Qed.

(** a fresh record with an empty vault *)
Lemma set_new_kept i (s s' : St) a :
  inst_wf (is_store s) → HasInstitution (is_store s) (inst_Id i) = false → inst_VaultBalance i = "0" →
  on_store (SetInstitution i) s = (Ok a, s') → kept s s'.
Proof.
  intros Hwf Hn Hv Hr. unfold on_store, SetInstitution, write in Hr. go_inv.
  apply kept_keeps; [done..|]. apply new_institution_keeps; [|done].
  unfold HasInstitution, Has in Hn. apply bool_decide_eq_false in Hn. by apply eq_None_not_Some.
Qed.

Lemma steady_Register ctx msg : steady (B:=B) (C:=C) (G:=G) (RegisterInstitution (I:=I) authority ctx msg).
Proof.
  unfold RegisterInstitution. apply steady_bind; [apply calm_steady, calm_canManageRegistry|intros ok].
  do 3 (apply steady_bind; [steady_calm|intros _]). intros s a s' Hwf Hr. go_inv.
  rename select (on_store _ _ = _) into Hset. apply set_new_kept in Hset; [|done..].
  eapply kept_trans; [exact Hset|]. rename select (EmitEvent _ _ = _) into He.
  by eapply calm_steady; [apply calm_EmitEvent|apply Hset|exact He].
Qed.

Lemma steady_FinalizeFx ctx msg : steady (B:=B) (C:=C) (I:=I) (FinalizeFxEntry (G:=G) authority ctx msg).
Proof.
  unfold FinalizeFxEntry. apply steady_bind; [steady_calm|intros p].
  apply steady_bind; [steady_calm|intros _]. intros s a s' Hwf Hr.
  apply bind_Ok in Hr as (o & s1 & Ho & Hr). unfold read in Ho. go_inv.
  rename select (GetFxRequest _ _ = _) into Hfx. apply GetFxRequest_id in Hfx; [|done].
  match goal with Hx : (if _ then _ else _) _ = _ |- _ => rename Hx into Hp end.
  match type of Hp with ?m _ = _ => assert (calm m) as Hc by calm_tac end.
  pose proof (calm_steady _ Hc _ _ _ Hwf Hp) as Hk1. apply Hc in Hp as [_ Hcore].
  rename select (on_store (SetInstitution _) _ = _) into Hset.
  apply set_new_kept in Hset; [|apply Hk1|cbn; by rewrite Hfx, (HasInstitution_core _ _ _ Hcore)|done].
  pose proof (kept_trans _ _ _ Hk1 Hset) as Hk2.
  rename select (on_store (DeleteFxRequest _) _ = _) into Hdel.
  apply (calm_steady _ (calm_on_store _ (quiet_DeleteFxRequest _))) in Hdel; [|apply Hk2].
  pose proof (kept_trans _ _ _ Hk2 Hdel) as Hk3.
  rename select (EmitEvent _ _ = _) into He. apply (calm_steady _ (calm_EmitEvent _)) in He; [|apply Hk3].
  by eapply kept_trans.
Qed.

Lemma steady_Remove ctx msg : steady (B:=B) (C:=C) (G:=G) (RemoveInstitution (I:=I) authority ctx msg).
Proof.
  unfold RemoveInstitution. apply steady_bind; [apply calm_steady, calm_canManageRegistry|intros ok].
  apply steady_bind; [steady_calm|intros _]. intros s a s' Hwf Hr.
  apply bind_Ok in Hr as (i & s1 & Hi & Hr). apply the_institution_at in Hi as (-> & Hi & Hid); [|done].
  apply bind_Ok in Hr as (u & s2 & [Hz ->]%fail_if_Ok & Hr). unfold IsZero in Hz. bool_prop.
  apply bind_Ok in Hr as (u1 & s3 & Hrm & Hr).
  assert (kept s2 s3) as Hk.
  { clear Hr. unfold on_store, removeInstitutionSingleRecords, Delete in Hrm. go_inv.
    apply kept_keeps; [done..|]. cbn [is_store]. rewrite <- Hid.
    etransitivity; [by apply remove_institution_keeps|]. apply same_core_keeps.
    etransitivity; apply same_core_delete; auto with phi. }
  eapply kept_trans; [exact Hk|]. eapply calm_steady; [|apply Hk|exact Hr]. calm_tac.
Qed.

(** ** Compensating a slash *)
Lemma RedirectSlashed_supply amt (s s' : St) :
  RedirectSlashedToPenalty authority amt s = (Ok tt, s') →
  GetSupply (is_bank s') = GetSupply (is_bank s) + Z.max 0 amt ∧ is_store s' = is_store s.
Proof.
  intros Hr. unfold RedirectSlashedToPenalty, emitPenaltyEscrowed, EmitEvent, CoinsOf, IsPositive, on_bank, read in Hr.
  destruct (Z.ltb_spec 0 amt); cbn [negb] in Hr; [|go_inv; split; [lia|done]].
  apply bind_Ok in Hr as (c & s1 & [Hc ->]%lift_Ok & Hr). go_case; [done|]. simplify_eq.
  apply bind_Ok in Hr as ([] & s2 & (b & Hm & ->)%zoom_Ok & Hr). apply mint_law in Hm as [Hm _]; [|lia].
  apply bind_Ok in Hr as (d & s3 & [_ <-]%query_Ok & Hr).
  destruct d as [d|]; [|go_inv; cbn; split; [lia|done]].
  apply bind_Ok in Hr as (out & s4 & Ha%attempt_Ok & Hr).
  assert (GetSupply (is_bank s4) = GetSupply b ∧ is_store s4 = is_store s1) as [Hs4 Hst4].
  { clear Hr. unfold SendCoinsFromModuleToAccount, zoom in Ha. cbn [is_bank] in Ha.
    destruct (BlockedAddr b d), out as [[]|e]; simplify_eq; try done; cbn.
    all: destruct (SendCoins _ _ _ _) as [r b'] eqn:Hs; simplify_eq; cbn; split; [|done].
    - apply send_law in Hs; [apply Hs|lia].
    - by apply send_err_law in Hs. }
  clear Ha. destruct out; go_inv; cbn; (split; [lia|congruence]).
Qed.
End handlers.

(** ** Conversion at the fixed rate *)
Lemma MintedUphiForToman_spec toman r uphi :
  good_rate r → 0 ≤ toman → MintedUphiForToman toman r = Ok (uphi, true) →
  uphi = toman * uphi_per_toman r ∧ uphi * r = toman * UphiPerPhi.
Proof.
  intros Hg Ht H. destruct (good_rate_k r Hg) as [Hk Hkr]. unfold MintedUphiForToman in H. int_inv.
  destruct Hg as [Hr _]. assert (UphiPerPhi = 1000000) as Hu by done.
  rewrite Z.quot_div_nonneg by lia. rewrite <- Hkr.
  replace (toman * (uphi_per_toman r * r)) with (toman * uphi_per_toman r * r) by lia.
  rewrite Z.div_mul by lia. split; [done|lia].
Qed.

Section solvency.
Context {B C I G : Type} `{BankLaws B} `{CoinKeeperI C} `{IdentityKeeper I} `{GovKeeper G}.
Context `{AddressCodec} `{Hasher} `{Verifier} `{InstCodec}.
Context (authority : string).
Abbreviation St := (InstState B C I G).
Implicit Types s : St.

Definition solvent_state s : Prop := solvent (GetSupply (is_bank s)) (is_store s).

Lemma solvent_kept s s' : solvent_state s → kept s s' → solvent_state s'.
Proof.
  intros [Hwf He] (Hs & Hwf' & Ht & Hr). split; [done|]. by rewrite Hs, Ht, Hr.
Qed.
Lemma steady_solvent {A} (m : M St A) s a s' : steady m → solvent_state s → m s = (Ok a, s') → solvent_state s'.
Proof. intros Hm Hs Hr. eapply solvent_kept; [done|]. eapply Hm; [apply Hs|done]. Qed.

(** ** The invariant the code evaluates *)
Lemma SolvencyInvariant_solvent s :
  solvent_state s → 0 ≤ GetSupply (is_bank s) < 2 ^ 190 → SolvencyInvariant s = Ok false.
Proof.
  intros [Hwf He] Hb. unfold SolvencyInvariant. destruct (wf_rate _ Hwf) as [Hr _].
  destruct (iw_params _ Hwf) as (p & Hp & _ & Hty & _). unfold rate in *. rewrite Hp in *.
  assert (UphiPerPhi = 1000000) as Hu by done. pose proof (total_vault_nonneg _ Hwf).
  rewrite SumVaultBalance_spec by (done || nia). cbn [mbind outcome_bind]. unfold Int_Mul.
  rewrite Int_checked_in by (unfold in_range; nia). cbn [mbind outcome_bind].
  rewrite Int_checked_in by (unfold in_range; nia). cbn [mbind outcome_bind].
  rewrite He, Z.eqb_refl. done.
Qed.
Lemma assertSolvency_solvent s :
  solvent_state s → 0 ≤ GetSupply (is_bank s) < 2 ^ 190 → assertSolvency s = (Ok tt, s).
Proof.
  intros Hs Hb. unfold assertSolvency, mbind, M_bind, query. by rewrite SolvencyInvariant_solvent.
Qed.
Lemma NonNegativeVault_wf s : inst_wf (is_store s) → NonNegativeVaultInvariant s = Ok false.
Proof.
  intros Hwf. unfold NonNegativeVaultInvariant, IterateInstitutions.
  assert (∀ kv, kv ∈ KVStorePrefixIterator (is_store s) InstitutionPrefix →
    ∃ i z, kv.2 = VInstitution i ∧ NewIntFromString (inst_VaultBalance i) = Some z ∧ 0 ≤ z) as Hall.
  { intros [k v] [Hk Hp]%elem_of_prefix_iterator.
    destruct (iw_insts _ Hwf _ _ Hk Hp) as (i & z & -> & _ & Hz). by exists i, z. }
  revert Hall. generalize (KVStorePrefixIterator (is_store s) InstitutionPrefix). intros l Hall.
  assert (∀ acc, Forall (λ i, IsNegative (mustInt (inst_VaultBalance i)) = false) acc →
    ∃ out, ofold (λ acc kv, i ← decode_Institution kv.2; Ok (acc ++ [i])) l acc = Ok out ∧
          Forall (λ i, IsNegative (mustInt (inst_VaultBalance i)) = false) out) as Hgen.
  { induction l as [|kv l IH]; intros acc Hacc; [by exists acc|].
    destruct (Hall kv ltac:(left)) as (i & z & Hi & Hz & Hn). cbn [ofold]. rewrite Hi. cbn [decode_Institution mbind outcome_bind].
    apply IH; [set_solver|]. apply Forall_app. split; [done|]. constructor; [|done].
    unfold mustInt, IsNegative. rewrite Hz. simpl. by apply Z.ltb_ge. }
  destruct (Hgen []) as (out & -> & Hf); [constructor|]. cbn [mbind outcome_bind]. f_equal.
  clear -Hf. induction Hf as [|i out Hi Hf IH]; [done|]. simpl. by rewrite Hi.
Qed.

(** ** Minting *)
Lemma bank_step {A} (m : M B A) s a s' : on_bank m s = (Ok a, s') →
  m (is_bank s) = (Ok a, is_bank s') ∧ is_store s' = is_store s.
Proof. intros Hr. unfold on_bank in Hr. by go_inv. Qed.

Lemma send_module_account_supply m to amt (b b' : B) :
  0 ≤ amt → SendCoinsFromModuleToAccount m to amt b = (Ok tt, b') → GetSupply b' = GetSupply b.
Proof. intros Ha Hr. apply send_module_account_Ok, send_law in Hr; [|done]. apply Hr. Qed.

Lemma mint_coins_supply ctx msg uphi recipient s r s' :
  mint_coins ctx msg uphi recipient s = (Ok r, s') →
  GetSupply (is_bank s') = GetSupply (is_bank s) + uphi ∧ is_store s' = is_store s.
Proof.
  intros Hr. unfold mint_coins, read, CoinsOf in Hr. go_cases; bool_prop; simplify_eq.
  all: repeat match goal with u : unit |- _ => destruct u end.
  all: repeat match goal with Hx : on_bank _ _ = _ |- _ => apply bank_step in Hx as [? ?] end.
  all: match goal with Hx : on_coin _ _ = _ |- _ => unfold on_coin in Hx; go_inv end.
  all: match goal with Hx : MintCoins _ _ _ = _ |- _ => apply mint_law in Hx as [? _]; [|lia] end.
  all: match goal with Hx : SendCoinsFromModuleToAccount _ _ _ _ = _ |- _ =>
         apply send_module_account_supply in Hx; [|lia] end.
  2: { split; cbn [is_bank is_store]; [lia|congruence]. }
  unfold emitRevenue, EmitEvent in *. go_inv. cbn [is_bank is_store] in *.
  rename select (SendCoinsFromModuleToModule _ _ _ _ = _) into Hm. apply send_law in Hm as [? _]; [|lia].
  split; [lia|congruence].
Qed.

(** writing a vault, then calm code *)
Lemma vault_write_then {A} (m : M St A) i v s a s' :
  calm m → inst_wf (is_store s) → inst_at (is_store s) i → in_range v → 0 ≤ v →
  (on_store (SetInstitution (with_vault i (Int_String v)));; m) s = (Ok a, s') →
  is_bank s' = is_bank s ∧ inst_wf (is_store s') ∧ rate (is_store s') = rate (is_store s) ∧
  total_vault (is_store s') = total_vault (is_store s) - mustInt (inst_VaultBalance i) + v.
Proof.
  intros Hm Hwf Hi Hin Hnn Hr. go_inv. rename select (on_store _ _ = _) into Hset.
  unfold on_store at 1, SetInstitution, write in Hset. go_inv.
  pose proof (NewIntFromString_String v Hin) as Hp.
  assert (inst_wf (<[InstitutionKey (inst_Id (with_vault i (Int_String v)))
    := VInstitution (with_vault i (Int_String v))]> (is_store s))) as Hwf1 by by eapply SetInstitution_wf.
  pose proof (total_vault_update (is_store s) i (with_vault i (Int_String v)) Hi eq_refl) as Ht.
  unfold mustInt in Ht at 2. cbn [with_vault inst_VaultBalance] in Ht. rewrite Hp in Ht. simpl default in Ht.
  rename select (m _ = _) into Hrun. apply Hm in Hrun as [Hb Hc]. cbn [is_bank is_store] in *.
  destruct (same_core_keeps _ _ Hc Hwf1) as (? & ? & ?).
  rewrite rate_SetInstitution in *. split_and!; [done|done|done|lia].
Qed.

Lemma mint_records_store ctx i msg toman newVault recipient s s' :
  inst_wf (is_store s) → inst_at (is_store s) i → in_range newVault → 0 ≤ newVault →
  mint_records ctx i msg toman newVault recipient s = (Ok tt, s') →
  is_bank s' = is_bank s ∧ inst_wf (is_store s') ∧ rate (is_store s') = rate (is_store s) ∧
  total_vault (is_store s') = total_vault (is_store s) - mustInt (inst_VaultBalance i) + newVault.
Proof. intros Hwf Hi Hin Hnn. apply vault_write_then; [|done..]. calm_tac. Qed.

Lemma calm_mint_gates ctx i msg : calm (B:=B) (C:=C) (I:=I) (G:=G) (mint_gates ctx i msg).
Proof. unfold mint_gates. calm_tac. Qed.
Lemma calm_mint_approved i msg toman : calm (B:=B) (C:=C) (I:=I) (G:=G) (mint_approved i msg toman).
Proof. unfold mint_approved, trySensitive, emitPending. calm_tac. Qed.

Lemma mint_amounts_facts ctx i msg s toman uphi newVault recipient s' :
  mint_amounts ctx i msg s = (Ok (toman, uphi, newVault, recipient), s') →
  s' = s ∧ NewIntFromString (mint_AmountToman msg) = Some toman ∧ 0 < toman ∧ 0 < uphi ∧
  MintedUphiForToman toman (rate (is_store s)) = Ok (uphi, true) ∧
  newVault = mustInt (inst_VaultBalance i) + toman ∧ in_range newVault ∧
  newVault ≤ mustInt (inst_AttestedReserve i) ∧
  AccAddressFromBech32 (mint_Recipient msg) = Some recipient ∧
  enforceMintCaps ctx (is_store s) i recipient toman (mint_KycTier msg) = Ok tt.
Proof.
  intros Hr. unfold mint_amounts, read in Hr. go_inv.
  match goal with x : (Z * bool)%type |- _ => destruct x as [q b] end. int_inv.
  repeat match goal with u : unit |- _ => destruct u end.
  unfold rate. rename select (GetParams _ = Ok _) into Hp. rewrite Hp.
  subst. split_and!; done.
Qed.

(** one more deposit: the supply and the vault rise together *)
Lemma mint_balanced ctx i msg s toman uphi newVault recipient r s1 s2 :
  solvent_state s → inst_at (is_store s) i → 0 < toman →
  MintedUphiForToman toman (rate (is_store s)) = Ok (uphi, true) →
  newVault = mustInt (inst_VaultBalance i) + toman → in_range newVault →
  mint_coins ctx msg uphi recipient s = (Ok r, s1) →
  mint_records ctx i msg toman newVault recipient s1 = (Ok tt, s2) →
  solvent_state s2 ∧ GetSupply (is_bank s2) = GetSupply (is_bank s) + uphi ∧
  total_vault (is_store s2) = total_vault (is_store s) + toman ∧ rate (is_store s2) = rate (is_store s).
Proof.
  intros [Hwf He] Hi Ht Hc Hv Hin Hm Hrec.
  destruct (inst_at_vault _ i Hwf Hi) as (z & _ & Hz & Hvz).
  apply MintedUphiForToman_spec in Hc as [_ Hu]; [|by apply wf_rate|lia].
  apply mint_coins_supply in Hm as [Hsup Hst].
  apply mint_records_store in Hrec as (Hb & Hwf2 & Hr2 & Ht2); [|by rewrite Hst|by rewrite Hst|done|lia].
  rewrite Hst in *. rewrite Hb. split_and!; [|lia|lia|done].
  split; [done|]. rewrite Hb, Ht2, Hr2, Hsup. nia.
Qed.

(** the state in which a completed mint ran its coin movements *)
Lemma mint_decompose ctx msg s r s' :
  solvent_state s → InstitutionMint ctx msg s = (Ok r, s') →
  kept s s' ∧ r = "0" ∨
  ∃ i s0 toman uphi newVault recipient fc s1 s2,
    kept s s0 ∧ is_bank s0 = is_bank s ∧ inst_at (is_store s) i ∧ inst_Id i = mint_Institution msg ∧
    inst_at (is_store s0) i ∧ 0 < toman ∧
    NewIntFromString (mint_AmountToman msg) = Some toman ∧ newVault ≤ mustInt (inst_AttestedReserve i) ∧
    MintedUphiForToman toman (rate (is_store s0)) = Ok (uphi, true) ∧
    newVault = mustInt (inst_VaultBalance i) + toman ∧ in_range newVault ∧
    mint_coins ctx msg uphi recipient s0 = (Ok fc, s1) ∧
    mint_records ctx i msg toman newVault recipient s1 = (Ok tt, s2) ∧
    assertSolvency s2 = (Ok tt, s2) ∧ is_bank s' = is_bank s2 ∧ is_store s' = is_store s2 ∧ r = Int_String uphi.
Proof.
  intros Hs Hr. pose proof (proj1 Hs) as Hwf. unfold InstitutionMint in Hr. go_inv.
  rename select (the_institution _ _ = _) into Hi. apply the_institution_at in Hi as (-> & Hi & Hid); [|done].
  rename select (mint_gates _ _ _ _ = _) into Hg.
  pose proof (calm_steady _ (calm_mint_gates ctx _ msg) _ _ _ Hwf Hg) as Hk1. apply calm_mint_gates in Hg as [Hb1 Hc1].
  match goal with x : (Z * Z * Z * string)%type |- _ => destruct x as [[[toman uphi] newVault] recipient] end.
  rename select (mint_amounts _ _ _ _ = _) into Ha.
  apply mint_amounts_facts in Ha as (-> & Hpt & Ht & _ & Hc & Hv & Hin & Hres & _).
  go_inv. rename select (mint_approved _ _ _ _ = _) into Hap.
  pose proof (calm_steady _ (calm_mint_approved _ msg toman) _ _ _ (proj1 (proj2 Hk1)) Hap) as Hk2.
  apply calm_mint_approved in Hap as [Hb2 Hc2].
  pose proof (kept_trans _ _ _ Hk1 Hk2) as Hk.
  match goal with Hx : (if negb ?b then _ else _) _ = _ |- _ => destruct (negb b) eqn:?; go_inv; [by left|] end.
  right. match goal with x : (Z * Z)%type |- _ => destruct x as [fee cust] end.
  unfold EmitEvent in *. go_inv. repeat match goal with u : unit |- _ => destruct u end.
  rename select (assertSolvency _ = _) into Has. pose proof Has as Has'.
  unfold assertSolvency in Has'. go_inv.
  match goal with H1 : mint_coins _ _ _ _ ?s0 = (Ok ?fc, ?s1), H2 : mint_records _ ?i _ _ _ _ _ = (Ok tt, ?s2) |- _ =>
    exists i, s0, toman, uphi, (mustInt (inst_VaultBalance i) + toman), recipient, fc, s1, s2 end.
  assert (rate (is_store x3) = rate (is_store x2)) as Hrate by apply Hk2.
  split_and!; try done; [congruence|by eapply inst_at_core, inst_at_core|by rewrite Hrate].
Qed.

(** ** Redemption *)
Lemma redeem_amounts_facts ctx i msg s toman uphi r holder s' :
  redeem_amounts ctx i msg s = (Ok (toman, uphi, r, holder), s') →
  s' = s ∧ NewIntFromString (red_AmountToman msg) = Some toman ∧ 0 < toman ≤ mustInt (inst_VaultBalance i) ∧
  r = rate (is_store s) ∧ MintedUphiForToman toman r = Ok (uphi, true) ∧ 0 < uphi ∧
  AccAddressFromBech32 (red_Holder msg) = Some holder ∧
  depositSeen (is_store s) (inst_Id i) "redeem" (red_RedeemRef msg) = false ∧ red_Admin msg = red_Holder msg ∧
  enforceRedeemCaps ctx (is_ident s) (is_store s) i holder toman uphi = Ok tt.
Proof.
  intros Hr. unfold redeem_amounts, read in Hr. go_inv.
  match goal with x : (Z * bool)%type |- _ => destruct x as [q b] end. int_inv.
  repeat match goal with u : unit |- _ => destruct u end.
  unfold rate. rename select (GetParams _ = Ok _) into Hp. rewrite Hp.
  subst. split_and!; done.
Qed.

Lemma ProtocolFee_nonneg p uphi fee : 0 ≤ ProtocolFeeBps p → 0 ≤ uphi → ProtocolFee p uphi = Ok fee → 0 ≤ fee.
Proof.
  intros Hb Hu Hf. unfold ProtocolFee in Hf. destruct (Z.eqb_spec (ProtocolFeeBps p) 0); int_inv; [lia|].
  apply Z.quot_pos; [nia|by vm_compute].
Qed.

Lemma redeem_split_facts ctx msg uphi r s split s' :
  inst_wf (is_store s) → good_rate r → 0 < uphi → redeem_split ctx msg uphi r s = (Ok split, s') →
  is_bank s' = is_bank s ∧ is_store s' = is_store s ∧ is_ident s' = is_ident s ∧ split_ok uphi r split.
Proof.
  intros Hwf Hg Hu Hr. destruct (iw_params _ Hwf) as (p & Hp & _ & _ & Hbps).
  unfold redeem_split, on_coin, read in Hr. rewrite UphiPerToman_Ok in Hr by done. go_inv.
  cbn [is_bank is_store is_ident] in *. ok_eq. split_and!; [done..|].
  rename select (ProtocolFee _ _ = _) into Hf. apply ProtocolFee_nonneg in Hf; [|lia..].
  rename select (ComputeRedeemSplit _ _ _ _ = _) into Hc.
  apply ComputeRedeemSplit_exact in Hc; [done|done|lia|done|]. unfold IsNegative. by destruct (Z.ltb_spec x 0).
Qed.

Lemma redeem_coins_supply holder uphi split s s' :
  redeem_coins holder uphi split s = (Ok tt, s') →
  GetSupply (is_bank s') = GetSupply (is_bank s) - Burned split ∧ is_store s' = is_store s ∧ is_ident s' = is_ident s.
Proof.
  intros Hr. unfold redeem_coins, CoinsOf in Hr. go_cases; bool_prop; simplify_eq.
  all: repeat match goal with u : unit |- _ => destruct u end.
  all: repeat match goal with Hx : on_bank _ _ = _ |- _ => unfold on_bank in Hx; go_inv end.
  all: cbn [is_bank is_store is_ident] in *.
  all: repeat match goal with u : unit |- _ => destruct u end.
  all: match goal with Hx : BurnCoins _ _ _ = _ |- _ => apply burn_law in Hx as [? _]; [|lia] end.
  all: unfold SendCoinsFromModuleToModule, SendCoinsFromAccountToModule in *.
  all: repeat match goal with Hx : SendCoins _ _ _ _ = _ |- _ => apply send_law in Hx as [? _]; [|lia] end.
  all: split_and!; [lia|congruence..].
Qed.

Lemma redeem_records_store ctx i msg holder toman uphi split s s' :
  inst_wf (is_store s) → inst_at (is_store s) i → 0 ≤ TomanOut split ≤ mustInt (inst_VaultBalance i) →
  redeem_records ctx i msg holder toman uphi split s = (Ok tt, s') →
  is_bank s' = is_bank s ∧ inst_wf (is_store s') ∧ rate (is_store s') = rate (is_store s) ∧
  total_vault (is_store s') = total_vault (is_store s) - TomanOut split.
Proof.
  intros Hwf Hi Hle Hr. unfold redeem_records in Hr. apply bind_Ok in Hr as (v & s0 & Hv & Hr).
  apply lift_Ok in Hv as [[-> Hin]%Int_checked_Ok ->].
  apply vault_write_then in Hr; [|unfold emitRevenue; calm_tac|done..|lia].
  destruct Hr as (? & ? & ? & ?). split_and!; [done..|lia].
Qed.

(** the burn and the payout have the same value *)
Lemma redeem_balanced ctx i msg s holder toman uphi split s1 s2 :
  solvent_state s → inst_at (is_store s) i → 0 < toman ≤ mustInt (inst_VaultBalance i) →
  MintedUphiForToman toman (rate (is_store s)) = Ok (uphi, true) → split_ok uphi (rate (is_store s)) split →
  redeem_coins holder uphi split s = (Ok tt, s1) →
  redeem_records ctx i msg holder toman uphi split s1 = (Ok tt, s2) →
  solvent_state s2 ∧ GetSupply (is_bank s2) = GetSupply (is_bank s) - Burned split ∧
  total_vault (is_store s2) = total_vault (is_store s) - TomanOut split ∧ 0 < TomanOut split ≤ toman ∧
  rate (is_store s2) = rate (is_store s).
Proof.
  intros [Hwf He] Hi Ht Hc Hsp Hm Hrec. pose proof (wf_rate _ Hwf) as Hg.
  destruct (good_rate_k _ Hg) as [Hk Hkr]. destruct Hsp as [_ _ _ Hb Hto _].
  apply MintedUphiForToman_spec in Hc as [Hu _]; [|done|lia].
  assert (0 < TomanOut split ≤ toman) as Hout by nia.
  apply redeem_coins_supply in Hm as (Hsup & Hst & _). rewrite <- Hst in Hwf, Hi.
  apply redeem_records_store in Hrec as (Hbk & Hwf2 & Hr2 & Ht2); [|done|done|lia].
  rewrite Hst in *. rewrite Hbk. split_and!; [|lia..|done].
  split; [done|]. rewrite Hbk, Ht2, Hr2, Hsup. nia.
Qed.

(** the phases of a completed redemption *)
Lemma redeem_decompose ctx msg s r s' :
  solvent_state s → InstitutionRedeem ctx msg s = (Ok r, s') →
  ∃ i s0 toman uphi holder split s1 s2,
    is_bank s0 = is_bank s ∧ is_store s0 = is_store s ∧ is_ident s0 = is_ident s ∧
    inst_at (is_store s) i ∧ inst_Id i = red_Institution msg ∧
    redeem_amounts ctx i msg s = (Ok (toman, uphi, rate (is_store s), holder), s) ∧
    split_ok uphi (rate (is_store s)) split ∧
    redeem_coins holder uphi split s0 = (Ok tt, s1) ∧
    redeem_records ctx i msg holder toman uphi split s1 = (Ok tt, s2) ∧
    is_bank s' = is_bank s2 ∧ is_store s' = is_store s2 ∧ r = Int_String (Burned split).
Proof.
  intros Hs Hr. pose proof (proj1 Hs) as Hwf. pose proof (wf_rate _ Hwf) as Hg. unfold InstitutionRedeem in Hr.
  apply bind_Ok in Hr as (i & sa & Hi & Hr). apply the_institution_at in Hi as (-> & Hi & Hid); [|done].
  apply bind_Ok in Hr as ([[[toman uphi] rt] holder] & sb & Ha & Hr).
  pose proof Ha as (-> & _ & _ & -> & _ & Hu & _)%redeem_amounts_facts.
  apply bind_Ok in Hr as (split & s0 & Hsp & Hr).
  apply redeem_split_facts in Hsp as (Hb0 & Hst0 & Hid0 & Hok); [|done..].
  apply bind_Ok in Hr as ([] & s1 & Hc & Hr). apply bind_Ok in Hr as ([] & s2 & Hrec & Hr).
  exists i, s0, toman, uphi, holder, split, s1, s2. split_and!; try done.
  all: clear -Hr; unfold assertSolvency, EmitEvent in Hr; by go_inv.
Qed.

(** a redemption that returns took a solvent state to a solvent one *)
Lemma redeem_solvent ctx msg s r s' :
  solvent_state s → InstitutionRedeem ctx msg s = (Ok r, s') → solvent_state s'.
Proof.
  intros Hs Hr. apply redeem_decompose in Hr
    as (i & s0 & toman & uphi & holder & split & s1 & s2 & Hb & Hst & _ & Hi & _ & Ha & Hsp & Hc & Hrec & Hb' & Hst' & _); [|done].
  apply redeem_amounts_facts in Ha as (_ & _ & Ht & _ & Hm & _).
  eapply redeem_balanced in Hrec as [Hs2 _]; [..|exact Hc];
    rewrite ?Hst; [..|done|done|done|done]; unfold solvent_state in *; rewrite ?Hb, ?Hst, ?Hb', ?Hst'; done.
Qed.
Lemma mint_solvent ctx msg s r s' :
  solvent_state s → InstitutionMint ctx msg s = (Ok r, s') → solvent_state s'.
Proof.
  intros Hs Hr. apply mint_decompose in Hr as [[Hk _]|Hr]; [by eapply solvent_kept|  |done].
  destruct Hr as (i & s0 & toman & uphi & nv & rcp & fc & s1 & s2 & Hk & _ & _ & _ & Hi & Ht & _ & _ & Hc & Hnv & Hin
    & Hm & Hrec & _ & Hb' & Hst' & _).
  eapply mint_balanced in Hrec as [Hs2 _]; [|by eapply solvent_kept|done..].
  unfold solvent_state in *. by rewrite Hb', Hst'.
Qed.
End solvency.
