(* ===== verification/AppGuards.v ===== *)
(** * The supply guards of the application

    [app/slash_compensator.go] and [app/gov_burn_guard.go]: the two places outside
    x/institutions where the SDK would change the supply.  A slash is measured and
    re-minted to the penalty destination; a burnt governance deposit is moved to the
    fee collector while any vault holds value.  [InstMsg] is the message router of
    x/institutions. *)
From stdpp Require Import base gmap strings list fin_maps sorting.
From Stdlib Require Import ZArith Lia.
From S2P Require Import Prelude GoInt KVStore Interfaces CoinTypes InstTypes InstServer InstKeeper InstSplit InstMint.

Definition GovModuleName : string := "gov".
Definition FeeCollectorName : string := "fee_collector".

Inductive InstMsg :=
| MRegister (m : MsgRegisterInstitution) | MRemove (m : MsgRemoveInstitution)
| MFreeze (m : MsgFreezeInstitution) | MPublish (m : MsgPublishInstitutionAttestation)
| MMint (m : MsgInstitutionMint) | MRedeem (m : MsgInstitutionRedeem)
| MUpdateParams (m : MsgUpdateParams) | MEmergency (m : MsgSetEmergencyRedemption)
| MGrant (m : MsgGrantInstitutionRole) | MRevoke (m : MsgRevokeInstitutionRole)
| MAppConfig (m : MsgUpdateInstitutionAppConfig) | MInstParams (m : MsgUpdateInstitutionParams)
| MDepositKey (m : MsgSetInstitutionDepositKey) | MRequestFx (m : MsgRequestFxEntry)
| MGuaranteeFx (m : MsgGuaranteeFxEntry) | MFinalizeFx (m : MsgFinalizeFxEntry).

Section guards.
Context {B C I G : Type} `{BankKeeper B} `{CoinKeeperI C} `{IdentityKeeper I} `{GovKeeper G}.
Context `{AddressCodec} `{Hasher} `{Verifier} `{InstCodec}.
Context (authority : string).
Abbreviation St := (InstState B C I G).

(** ** The slash compensator *)
Definition compensate (slash : M St Z) : M St Z :=
  before ← reads (λ s, GetSupply (is_bank s));
  burned ← slash;
  after ← reads (λ s, GetSupply (is_bank s));
  delta ← lift (before -! after);
  (if IsPositive delta then RedirectSlashedToPenalty authority delta else mret tt);;
  mret burned.

(** ** The governance burn guard *)
Definition govBurnGuard_BurnCoins (name : string) (uphi : Z) : M St unit :=
  if bool_decide (name = GovModuleName) && IsPositive uphi then
    sum ← read SumVaultBalance;
    if IsPositive sum then
      redirect ← lift (CoinsOf uphi);
      on_bank (SendCoinsFromModuleToModule GovModuleName FeeCollectorName redirect)
    else on_bank (BurnCoins name uphi)
  else on_bank (BurnCoins name uphi).

(** ** The message router *)
Definition handle (ctx : Context) (msg : InstMsg) : M St unit :=
  match msg with
  | MRegister m => RegisterInstitution authority ctx m
  | MRemove m => RemoveInstitution authority ctx m
  | MFreeze m => FreezeInstitution authority ctx m
  | MPublish m => PublishInstitutionAttestation ctx m
  | MMint m => InstitutionMint ctx m;; mret tt
  | MRedeem m => InstitutionRedeem ctx m;; mret tt
  | MUpdateParams m => UpdateParams authority ctx m
  | MEmergency m => SetEmergencyRedemption authority ctx m
  | MGrant m => GrantInstitutionRole ctx m;; mret tt
  | MRevoke m => RevokeInstitutionRole ctx m;; mret tt
  | MAppConfig m => UpdateInstitutionAppConfig ctx m;; mret tt
  | MInstParams m => UpdateInstitutionParams ctx m;; mret tt
  | MDepositKey m => SetInstitutionDepositKey ctx m;; mret tt
  | MRequestFx m => RequestFxEntry ctx m
  | MGuaranteeFx m => GuaranteeFxEntry ctx m
  | MFinalizeFx m => FinalizeFxEntry authority ctx m
  end.

(** ** The steps of the chain that concern solvency *)

(** a [uint64]/[uint32] field holds its width *)
Definition params_width (p : Params) : Prop := 0 ≤ PhiToToman p < 2 ^ 64 ∧ 0 ≤ ProtocolFeeBps p < 2 ^ 32.
Definition msg_typed (msg : InstMsg) : Prop :=
  match msg with MUpdateParams m => params_width (upd_Params m) | _ => True end.

(** a slash of x/staking burns and never writes the institutions' store *)
Definition slash_burns (slash : M St Z) : Prop :=
  ∀ s a s', slash s = (Ok a, s') → is_store s' = is_store s ∧ GetSupply (is_bank s') ≤ GetSupply (is_bank s).

Inductive chain_step : St → St → Prop :=
| step_msg ctx msg s : msg_typed msg → chain_step s (deliver (handle ctx msg) s)
| step_begin_block ctx s : chain_step s (deliver (BeginBlock ctx) s)
| step_slash slash s : slash_burns slash → chain_step s (deliver (compensate slash) s)
| step_gov_burn amt s : 0 ≤ amt → chain_step s (deliver (govBurnGuard_BurnCoins GovModuleName amt) s)
| step_other s s' : is_store s' = is_store s → GetSupply (is_bank s') = GetSupply (is_bank s) → chain_step s s'.

Inductive chain_reachable (s0 : St) : St → Prop :=
| chain_init : chain_reachable s0 s0
| chain_next s s' : chain_reachable s0 s → chain_step s s' → chain_reachable s0 s'.
End guards.
