(* ===== verification/InstDemo.v ===== *)
(** * A concrete chain

    The services the handlers are parametrised by, instantiated: the vendored bank's
    ledger, x/coin itself, an identity registry in which everyone is identified, a
    governance with one passed proposal.  [demo_funded] is the state a short script of
    messages leads to from an empty registry: one institution with three admins, a
    compliance officer and an operator, an attested reserve, and one mint. *)
From stdpp Require Import base gmap strings list fin_maps sorting.
From Stdlib Require Import ZArith Lia.
From S2P Require Import Prelude GoInt KVStore Interfaces CoinTypes CoinAge CoinKeeper InstTypes InstServer InstKeeper InstSplit InstMint InstSolvency InstInvariant AppGuards.

#[export] Instance demo_codec : AddressCodec := plain_codec.
#[export] Instance demo_ident : IdentityKeeper unit := demo_identity.
#[export] Instance demo_gov : GovKeeper unit :=
  {| gov_Proposal _ n := if n =? 1 then Some (mkProposal PROPOSAL_STATUS_PASSED [mkAny MsgFinalizeFxEntryURL "fx1"]) else None |}.
(** a digest of 32 bytes: the length and the first characters, padded *)
#[export] Instance demo_hasher : Hasher := {| sha256 s := String.substring 0 32 (s +:+ "--------------------------------") |}.
#[export] Instance demo_verifier : Verifier := {| VerifySignature _ _ _ sig := bool_decide (sig = "signed") |}.
#[export] Instance demo_inst_codec : InstCodec := {|
  marshal_AppConfig c := ac_DisplayNameEn c;
  marshal_InstitutionParams p := ip_VaultApiEndpoint p;
  unmarshal_FinalizeFxEntry bz := Some (mkMsgFinalizeFx "" bz 0);
|}.

Definition DemoState : Type := InstState Ledger.ledger CoinStore unit unit.
Definition demo_bank (supply : Z) : Ledger.ledger :=
  Ledger.mkLedger ∅ supply ∅ ∅ {[InstModuleName]} {[InstModuleName; GovModuleName]}.
Definition demo_genesis : DemoState := mkInstState (demo_bank 0) ∅ tt (Some tt) ∅ [].

Definition demo_grant (signer grantee : string) (role : Z) : InstMsg := MGrant (mkMsgGrant signer "bank" grantee role).
Definition demo_mint (ref amount : string) : MsgInstitutionMint :=
  mkMsgMint "op" "bank" "alice" amount "" ref "" "" "" 0.
Definition demo_redeem (ref amount : string) : MsgInstitutionRedeem :=
  mkMsgRedeem "alice" "bank" "alice" amount ref "" "" "" 0.
Definition demo_setup : list InstMsg :=
  [ MRegister (mkMsgRegister "gov" "bank" "licence" "root" "" "" "" INSTITUTION_TYPE_FINANCIAL);
    demo_grant "root" "amy" INSTITUTION_ROLE_ADMIN;
    demo_grant "root" "bob" INSTITUTION_ROLE_ADMIN; demo_grant "amy" "bob" INSTITUTION_ROLE_ADMIN;
    demo_grant "root" "op" INSTITUTION_ROLE_OPERATOR; demo_grant "amy" "op" INSTITUTION_ROLE_OPERATOR;
    demo_grant "root" "comp" INSTITUTION_ROLE_COMPLIANCE; demo_grant "amy" "comp" INSTITUTION_ROLE_COMPLIANCE;
    MPublish (mkMsgPublish "comp" "bank" "1000000" "") ].
Definition demo_script : list InstMsg := demo_setup ++ [MMint (demo_mint "d1" "500000")].

Definition run_script (s : DemoState) (l : list InstMsg) : DemoState :=
  foldl (λ s m, deliver (handle "gov" demo_ctx m) s) s l.
Definition demo_ready : DemoState := Eval vm_compute in run_script demo_genesis demo_setup.
Definition demo_funded : DemoState := Eval vm_compute in run_script demo_genesis demo_script.

Lemma run_script_reachable s0 s l :
  Forall msg_typed l → chain_reachable "gov" s0 s → chain_reachable "gov" s0 (run_script s l).
Proof.
  intros Hl. revert s. induction Hl as [|m l Hm Hl IH]; intros s Hs; [done|]. simpl. apply IH.
  eapply chain_next; [exact Hs|]. by apply step_msg.
Qed.

Lemma demo_genesis_solvent : solvent_state demo_genesis.
Proof.
  split; [|done]. constructor.
  - exists DefaultParams. split_and!; [done|by vm_compute|done..].
  - intros k v Hk. cbn in Hk. by rewrite lookup_empty in Hk.
  - intros k v Hk. cbn in Hk. by rewrite lookup_empty in Hk.
Qed.
Lemma demo_funded_reachable : chain_reachable "gov" demo_genesis demo_funded.
Proof.
  replace demo_funded with (run_script demo_genesis demo_script) by (vm_compute; reflexivity).
  apply run_script_reachable; [by repeat constructor|constructor].
Qed.
Lemma demo_ready_reachable : chain_reachable "gov" demo_genesis demo_ready.
Proof.
  replace demo_ready with (run_script demo_genesis demo_setup) by (vm_compute; reflexivity).
  apply run_script_reachable; [by repeat constructor|constructor].
Qed.
Definition demo_bank_record : Institution :=
  Eval vm_compute in match GetInstitution (is_store demo_ready) "bank" with
  | Ok (Some i) => i
  | _ => mkInstitution "" "" "" "" "" "" 0 "" "" false zero_app_config zero_inst_params 0 "" 0
  end.
