(* ===== verification/AppSolvency.v ===== *)
(** * The chain stays solvent

    Every message of x/institutions, the block hook, a slash, a burnt governance
    deposit: each takes a solvent state to a solvent state.  So solvency holds in
    every state reachable from a solvent one, and the invariant check of [EndBlock],
    which halts the chain when it fails, always passes. *)
From stdpp Require Import base gmap strings list fin_maps sorting.
From Stdlib Require Import ZArith Lia.
From S2P Require Import Prelude GoInt KVStore Interfaces CoinTypes CoinKeeper InstTypes InstServer InstKeeper InstSplit InstMint InstSolvency InstInvariant AppGuards InstDemo.

Section solvency.
Context {B C I G : Type} `{BankLaws B} `{CoinKeeperI C} `{IdentityKeeper I} `{GovKeeper G}.
Context `{AddressCodec} `{Hasher} `{Verifier} `{InstCodec}.
Context (authority : string).
Abbreviation St := (InstState B C I G).
Implicit Types s : St.

Lemma solvent_supply_nonneg s : solvent_state s → 0 ≤ GetSupply (is_bank s).
Proof.
  intros [Hwf He]. pose proof (total_vault_nonneg _ Hwf). destruct (wf_rate _ Hwf) as [Hr _].
  assert (UphiPerPhi = 1000000) by done. nia.
Qed.
Lemma solvent_empty s : solvent_state s → total_vault (is_store s) = 0 → GetSupply (is_bank s) = 0.
Proof.
  intros [Hwf He] Ht. destruct (wf_rate _ Hwf) as [Hr _]. rewrite Ht in He. nia.
Qed.

(** ** Parameters: the rate moves only while every vault is empty *)
Lemma SetParams_solvent p s s' :
  params_width p → solvent_state s → on_store (SetParams p) s = (Ok tt, s') → solvent_state s'.
Proof.
  intros [Hw Hw'] Hs Hr. pose proof (solvent_empty _ Hs) as Hz. destruct Hs as [Hwf He].
  unfold on_store, SetParams, write in Hr. go_inv. repeat match goal with u : unit |- _ => destruct u end.
  set (st' := <[ParamsKey := VParams p]> (is_store s)).
  assert (GetParams st' = Ok p) as Hp by (unfold GetParams, st'; by rewrite lookup_insert).
  assert (inst_wf st') as Hwf'.
  { constructor; [by exists p| |].
    - intros k v Hk Hpre. unfold st' in Hk. apply lookup_insert_Some in Hk as [[<- <-]|[_ Hk]]; [done|]. by eapply iw_insts.
    - apply fx_wf_insert; [done|by apply iw_fx]. }
  assert (total_vault st' = total_vault (is_store s)) as Ht.
  { apply (map_sum_agree _ (λ k, has_prefix InstitutionPrefix k = true)).
    - intros k v Hk. unfold vault_at. by destruct (has_prefix InstitutionPrefix k).
    - intros k Hk. unfold st'. apply lookup_insert_ne. by intros <-. }
  rename select (GetParams (is_store s) = Ok _) into Hc.
  assert (rate (is_store s) = PhiToToman x2) as Hrate by (unfold rate; by rewrite Hc).
  assert (rate st' = PhiToToman p) as Hrate' by (unfold rate; by rewrite Hp).
  go_case; bool_prop; go_inv.
  - split; [done|]. cbn [is_bank is_store]. fold st'. congruence.
  - rename select (SumVaultBalance _ = _) into Hsum. apply SumVaultBalance_Ok in Hsum as ->; [|done].
    unfold IsPositive in *. bool_prop. pose proof (total_vault_nonneg _ Hwf).
    split; [done|]. cbn [is_bank is_store]. fold st'. rewrite Ht, Hz; lia.
Qed.

Lemma UpdateParams_solvent ctx msg s s' :
  params_width (upd_Params msg) → solvent_state s → UpdateParams authority ctx msg s = (Ok tt, s') → solvent_state s'.
Proof.
  intros Hw Hs Hr. unfold UpdateParams in Hr.
  apply bind_Ok in Hr as (u & s1 & [_ ->]%fail_if_Ok & Hr). apply bind_Ok in Hr as (u1 & s2 & Hd & Hr).
  assert (s2 = s1) as -> by (clear -Hd; go_cases; done). by eapply SetParams_solvent.
Qed.
Lemma SetEmergency_solvent ctx msg s s' :
  solvent_state s → SetEmergencyRedemption authority ctx msg s = (Ok tt, s') → solvent_state s'.
Proof.
  intros Hs Hr. unfold SetEmergencyRedemption, read in Hr.
  apply bind_Ok in Hr as (u & s1 & [_ ->]%fail_if_Ok & Hr). apply bind_Ok in Hr as (p & s2 & [Hp ->]%query_Ok & Hr).
  apply bind_Ok in Hr as ([] & s3 & Hset & Hr).
  destruct (iw_params _ (proj1 Hs)) as (p' & Hp' & _ & Hw & Hw'). ok_eq.
  apply SetParams_solvent in Hset; [|by split|done]. by eapply steady_solvent; [apply calm_steady, calm_EmitEvent|..].
Qed.

(** ** The guards *)
Lemma compensate_solvent slash s a s' :
  slash_burns slash → solvent_state s → compensate authority slash s = (Ok a, s') →
  solvent_state s' ∧ GetSupply (is_bank s') = GetSupply (is_bank s).
Proof.
  intros Hsl Hs Hr. unfold compensate in Hr.
  apply bind_Ok in Hr as (before & s1 & [<- <-]%reads_Ok & Hr). apply bind_Ok in Hr as (burned & s2 & Hsl2 & Hr).
  apply Hsl in Hsl2 as [Hst Hle]. apply bind_Ok in Hr as (aft & s3 & [<- <-]%reads_Ok & Hr).
  apply bind_Ok in Hr as (delta & s4 & [[-> _]%Int_checked_Ok <-]%lift_Ok & Hr).
  apply bind_Ok in Hr as ([] & s5 & Hred & [_ <-]%ret_Ok).
  assert (GetSupply (is_bank s5) = GetSupply (is_bank s) ∧ is_store s5 = is_store s) as [Hsup Hst5].
  { unfold IsPositive in Hred. destruct (Z.ltb_spec 0 (GetSupply (is_bank s) - GetSupply (is_bank s2))).
    - apply RedirectSlashed_supply in Hred as [? ?]. split; [lia|congruence].
    - go_inv. split; [lia|done]. }
  split; [|done]. unfold solvent_state in *. by rewrite Hsup, Hst5.
Qed.
Lemma gov_burn_solvent amt s s' :
  0 ≤ amt → solvent_state s → govBurnGuard_BurnCoins GovModuleName amt s = (Ok tt, s') →
  solvent_state s' ∧ GetSupply (is_bank s') = GetSupply (is_bank s).
Proof.
  intros Ha Hs Hr. pose proof (solvent_empty _ Hs) as Hz. unfold govBurnGuard_BurnCoins, on_bank, read, IsPositive, CoinsOf in Hr.
  assert (GetSupply (is_bank s') = GetSupply (is_bank s) ∧ is_store s' = is_store s) as [Hsup Hst].
  { rewrite bool_decide_eq_true_2 in Hr by done. cbn [andb] in Hr. destruct (Z.ltb_spec 0 amt).
    - apply bind_Ok in Hr as (sum & s1 & [Hsum <-]%query_Ok & Hr).
      apply SumVaultBalance_Ok in Hsum as ->; [|apply Hs].
      destruct (Z.ltb_spec 0 (total_vault (is_store s))); go_cases; cbn; (split; [|done]).
      + rename select (SendCoinsFromModuleToModule _ _ _ _ = _) into Hm. by apply send_law in Hm as [? _].
      + rename select (BurnCoins _ _ _ = _) into Hm. apply burn_law in Hm as (Hm & Hp & _); [|done].
        pose proof (total_vault_nonneg _ (proj1 Hs)). lia.
    - go_inv. cbn. split; [|done]. rename select (BurnCoins _ _ _ = _) into Hm. apply burn_law in Hm as (Hm & _); lia. }
  split; [|done]. unfold solvent_state in *. by rewrite Hsup, Hst.
Qed.

(** ** Every step *)
Lemma then_ret {A} (m : M St A) s s' : (m;; mret tt) s = (Ok tt, s') → ∃ a, m s = (Ok a, s').
Proof. intros (a & s1 & Hm & [_ <-]%ret_Ok)%bind_Ok. eauto. Qed.

Lemma handle_solvent ctx msg s s' :
  msg_typed msg → solvent_state s → handle authority ctx msg s = (Ok tt, s') → solvent_state s'.
Proof.
  intros Hty Hs Hr. destruct msg; cbn [handle msg_typed] in *.
  5: apply then_ret in Hr as [a Hr]; by eapply mint_solvent.
  5: apply then_ret in Hr as [a Hr]; by eapply redeem_solvent.
  5: by eapply UpdateParams_solvent.
  5: by eapply SetEmergency_solvent.
  5,6,7,8,9: apply then_ret in Hr as [a Hr].
  all: eapply steady_solvent; [|exact Hs|exact Hr].
  - apply steady_Register.
  - apply steady_Remove.
  - apply steady_Freeze.
  - apply steady_Publish.
  - apply steady_Grant.
  - apply steady_Revoke.
  - apply steady_AppConfig.
  - apply steady_InstParams.
  - apply steady_DepositKey.
  - apply steady_RequestFx.
  - apply steady_GuaranteeFx.
  - apply steady_FinalizeFx.
Qed.

Lemma chain_step_solvent s s' : chain_step authority s s' → solvent_state s → solvent_state s'.
Proof.
  intros Hstep Hs. destruct Hstep as [ctx msg s Ht|ctx s|slash s Hb|amt s Ha|s s' Hst Hsup].
  - destruct (deliver_run (handle authority ctx msg) s) as [->|[[] Hr]]; [done|]. by eapply handle_solvent.
  - destruct (deliver_run (BeginBlock ctx) s) as [->|[[] Hr]]; [done|].
    by eapply steady_solvent; [apply steady_BeginBlock|..].
  - destruct (deliver_run (compensate authority slash) s) as [->|[a Hr]]; [done|].
    eapply (compensate_solvent slash); [done|exact Hs|exact Hr].
  - destruct (deliver_run (govBurnGuard_BurnCoins GovModuleName amt) s) as [->|[[] Hr]]; [done|].
    by eapply gov_burn_solvent.
  - unfold solvent_state. by rewrite Hst, Hsup.
Qed.

Lemma chain_solvent s s' : chain_reachable authority s s' → solvent_state s → solvent_state s'.
Proof. induction 1 as [|s1 s2 _ IH Hstep]; [done|]. intros Hs. eapply chain_step_solvent; [done|]. by apply IH. Qed.

(** C1: the chain is always solvent and never halts on it.  From a solvent state, after
    any sequence of delivered messages of x/institutions (failed and panicking ones
    included), block hooks, compensated slashes, burnt governance deposits and moves
    of other modules that keep the supply, the supply at the fixed rate is worth
    exactly the sum of the vaults, every vault is non-negative, and the [EndBlock]
    check returns without halting. *)
Theorem solvency_always s0 s :
  solvent_state s0 → chain_reachable authority s0 s →
  GetSupply (is_bank s) * rate (is_store s) = total_vault (is_store s) * UphiPerPhi ∧
  inst_wf (is_store s) ∧
  (GetSupply (is_bank s) < 2 ^ 190 → EndBlock s = (Ok tt, s)).
Proof.
  intros Hs Hr. pose proof (chain_solvent _ _ Hr Hs) as Hsol.
  split_and!; [apply Hsol..|]. intros Hb. unfold EndBlock, AllInvariants, query, mbind, M_bind.
  rewrite SolvencyInvariant_solvent; [|done|split; [by apply solvent_supply_nonneg|done]].
  cbn [mbind outcome_bind]. by rewrite NonNegativeVault_wf by apply Hsol.
Qed.
End solvency.

Lemma solvency_always_witness :
  GetSupply (is_bank demo_funded) = 5000000 ∧ total_vault (is_store demo_funded) = 500000 ∧
  EndBlock demo_funded = (Ok tt, demo_funded).
Proof.
  destruct (solvency_always "gov" demo_genesis demo_funded demo_genesis_solvent demo_funded_reachable) as (He & Hwf & Hend).
  split_and!; [done| |by apply Hend].
  assert (GetSupply (is_bank demo_funded) = 5000000) as Hs by done.
  assert (rate (is_store demo_funded) = 100000) as Hr by done.
  rewrite Hs, Hr in He. assert (UphiPerPhi = 1000000) by done. lia.
Defined.
Lemma demo_reachable_solvent s : chain_reachable "gov" demo_genesis s → solvent_state s.
Proof. intros Hr. eapply chain_solvent; [exact Hr|apply demo_genesis_solvent]. Qed.
