(* ===== verification/InstReplay.v ===== *)
(** * References are spent once

    A deposit or redemption reference is recorded when it is used and the record is
    never deleted: not by a handler, not by the block hooks, not by the removal of the
    institution.  [marking] actions keep every such record. *)
From stdpp Require Import base gmap strings list fin_maps sorting.
From Stdlib Require Import ZArith Lia.
From S2P Require Import Prelude GoInt KVStore Interfaces CoinTypes CoinKeeper InstTypes InstServer InstKeeper InstSplit InstMint InstSolvency InstInvariant AppGuards InstDemo AppSolvency.

Definition marks_kept (st st' : InstStore) : Prop :=
  ∀ k, has_prefix DepositPrefix k = true → is_Some (st !! k) → is_Some (st' !! k).
#[export] Instance marks_kept_preorder : PreOrder marks_kept.
Proof. split; [by intros st k|]. intros a b c Hab Hbc k Hk Ha. auto. Qed.

Lemma marks_insert st k v : marks_kept st (<[k := v]> st).
Proof. intros k' _ Hs. destruct (decide (k = k')) as [->|Hne]; [by rewrite lookup_insert_eq; eauto|by rewrite lookup_insert_ne]. Qed.
Lemma marks_delete st k : has_prefix DepositPrefix k = false → marks_kept st (delete k st).
Proof. intros Hk k' Hk' Hs. rewrite lookup_delete_ne; [done|]. intros <-. congruence. Qed.
Lemma marks_delete_keys st keys :
  (∀ k, k ∈ keys → has_prefix DepositPrefix k = false) → marks_kept st (delete_keys keys st).
Proof.
  unfold delete_keys. revert st. induction keys as [|k keys IH]; intros st Hk; simpl; [done|].
  etransitivity; [apply (marks_delete st k); apply Hk; left|]. apply IH. intros k' Hk'. apply Hk. by right.
Qed.
Lemma other_prefix z k : z ≠ 80 → 0 ≤ z < 256 → has_prefix (key_prefix z) k = true → has_prefix DepositPrefix k = false.
Proof.
  intros Hz Hr [t ->]%has_prefix_spec. unfold DepositPrefix. rewrite has_prefix_byte by lia. apply Z.eqb_neq. lia.
Qed.

Definition smarking {A} (m : M InstStore A) : Prop := ∀ st a st', m st = (Ok a, st') → marks_kept st st'.
Lemma smarking_bind {A B} (m : M InstStore A) (f : A → M InstStore B) :
  smarking m → (∀ a, smarking (f a)) → smarking (m ≫= f).
Proof. intros Hm Hf st b st' Hr. go_inv. etransitivity; [by eapply Hm|by eapply Hf]. Qed.
Lemma smarking_write k v : smarking (write k v).
Proof. intros st a st' Hr. unfold write in Hr. go_inv. apply marks_insert. Qed.
Lemma smarking_Delete k : has_prefix DepositPrefix k = false → smarking (Delete k).
Proof. intros Hk st a st' Hr. unfold Delete in Hr. go_inv. by apply marks_delete. Qed.
Lemma smarking_query {A} (f : InstStore → outcome A) : smarking (query f).
Proof. intros st a st' Hr. by go_inv. Qed.
Lemma smarking_ret {A} (a : A) : smarking (mret a).
Proof. intros st b st' Hr. by go_inv. Qed.
Lemma smarking_lift {A} (o : outcome A) : smarking (lift o).
Proof. intros st b st' Hr. by go_inv. Qed.
Lemma smarking_fail_if c e : smarking (fail_if c e).
Proof. intros st b st' Hr. by go_inv. Qed.
Lemma smarking_get_state : smarking get_state.
Proof. intros st b st' Hr. by go_inv. Qed.
Lemma smarking_modify f : (∀ st, marks_kept st (f st)) → smarking (modify f).
Proof. intros Hf st b st' Hr. go_inv. apply Hf. Qed.
Lemma marks_clearApprovals id ch st :
  marks_kept st (delete_keys (map fst (KVStorePrefixIterator st (ApprovalPrefixFor id ch))) st).
Proof.
  apply marks_delete_keys. intros k Hk. apply list_elem_of_fmap in Hk as ([k' v] & -> & Hin).
  apply elem_of_prefix_iterator in Hin as [_ Hp]. unfold ApprovalPrefixFor in Hp.
  apply has_prefix_trans in Hp. by eapply (other_prefix 48).
Qed.
Lemma smarking_add_counter k amt : smarking (add_counter k amt).
Proof.
  unfold add_counter. apply smarking_bind; [apply smarking_query|intros c].
  apply smarking_bind; [apply smarking_lift|intros v]. apply smarking_write.
Qed.
#[export] Hint Resolve smarking_add_counter smarking_write smarking_Delete smarking_query smarking_ret smarking_lift smarking_fail_if
  smarking_get_state smarking_modify marks_clearApprovals : phi.

(** the store actions of the module, unfolded to writes and deletions *)
Ltac smarking_tac :=
  unfold SetInstitution, removeInstitutionSingleRecords, SetParams, SetRole, DeleteRole, bumpAdminEpoch, recordApproval,
    clearApprovals, SetLastAttestor, addMintCounters, addRedeemCounters, addCounterTotal, addCounterUser,
    addRedeemSubjectTotal, markDeposit, enqueueRemoval, SetFxRequest, DeleteFxRequest in *;
  repeat first
    [ progress auto 2 with phi
    | match goal with
      | |- smarking (mbind _ _) => apply smarking_bind; [|intros ?]
      | |- smarking (if ?c then _ else _) => destruct c
      | |- smarking (match ?o with _ => _ end) => destruct o
      end ].

(** ** The sweep deletes roles, approvals and tiers, never a reference *)
Lemma marks_drain ps budget deleted st n st' :
  (∀ p k, p ∈ ps → has_prefix p k = true → has_prefix DepositPrefix k = false) →
  drain_prefixes ps budget deleted st = (n, st') → marks_kept st st'.
Proof.
  revert deleted st. induction ps as [|p ps IH]; intros deleted st Hps Hd; simpl in Hd; [by simplify_eq|].
  destruct (_ <=? _)%nat; [by simplify_eq|]. etransitivity; [|eapply IH; [set_solver|done]].
  apply marks_delete_keys. intros k Hk. apply elem_of_take in Hk as (j & Hk & _).
  apply list_elem_of_lookup_2, list_elem_of_fmap in Hk as ([k' v] & -> & Hin).
  apply elem_of_prefix_iterator in Hin as [_ Hp]. eapply Hps; [left|done].
Qed.
Lemma range_prefix_other id p k :
  p ∈ PerInstitutionRangePrefixes id → has_prefix p k = true → has_prefix DepositPrefix k = false.
Proof.
  intros Hp Hk. unfold PerInstitutionRangePrefixes in Hp.
  apply elem_of_cons in Hp as [->|Hp]; [apply has_prefix_trans in Hk; by eapply (other_prefix 32)|].
  apply elem_of_cons in Hp as [->|Hp]; [apply has_prefix_trans in Hk; by eapply (other_prefix 48)|].
  apply list_elem_of_singleton in Hp as ->. apply has_prefix_trans in Hk. by eapply (other_prefix 160).
Qed.
Lemma marks_sweep fuel budget st : marks_kept st (sweep_loop fuel budget st).
Proof.
  revert budget st. induction fuel as [|fuel IH]; intros budget st; [done|]. simpl.
  destruct (_ =? _)%nat; [done|]. destruct (firstPendingRemoval st) as [id|]; [|done].
  destruct (drainInstitutionRanged id budget st) as [n st1] eqn:Hd.
  apply marks_drain in Hd; [|apply range_prefix_other].
  destruct (institutionRangedEmpty st1 id); [|done].
  etransitivity; [exact Hd|]. etransitivity; [|apply IH]. by apply marks_delete.
Qed.

Section marking.
Context {B C I G : Type} `{BankLaws B} `{CoinKeeperI C} `{IdentityKeeper I} `{GovKeeper G}.
Context `{AddressCodec} `{Hasher} `{Verifier} `{InstCodec}.
Context (authority : string).
Abbreviation St := (InstState B C I G).

Definition marking {A} (m : M St A) : Prop :=
  ∀ s a s', m s = (Ok a, s') → marks_kept (is_store s) (is_store s').
Lemma marking_bind {A D} (m : M St A) (f : A → M St D) : marking m → (∀ a, marking (f a)) → marking (m ≫= f).
Proof. intros Hm Hf s d s' Hr. go_inv. etransitivity; [by eapply Hm|by eapply Hf]. Qed.
Lemma marking_ret {A} (a : A) : marking (mret a).
Proof. intros s b s' Hr. by go_inv. Qed.
Lemma marking_lift {A} (o : outcome A) : marking (lift o).
Proof. intros s b s' Hr. by go_inv. Qed.
Lemma marking_fail_if c e : marking (fail_if c e).
Proof. intros s b s' Hr. by go_inv. Qed.
Lemma marking_or_fail {A} (o : option A) e : marking (or_fail o e).
Proof. intros s b s' Hr. by go_inv. Qed.
Lemma marking_reads {A} (f : St → A) : marking (reads f).
Proof. intros s b s' Hr. by go_inv. Qed.
Lemma marking_query {A} (f : St → outcome A) : marking (query f).
Proof. intros s b s' Hr. by go_inv. Qed.
Lemma marking_read {A} (f : InstStore → outcome A) : marking (read f).
Proof. apply marking_query. Qed.
Lemma marking_EmitEvent e : marking (EmitEvent e).
Proof. intros s b s' Hr. unfold EmitEvent in Hr. by go_inv. Qed.
Lemma marking_on_coin {A} (m : M C A) : marking (on_coin m).
Proof. intros s a s' Hr. unfold on_coin in Hr. by go_inv. Qed.
Lemma marking_on_bank {A} (m : M B A) : marking (on_bank m).
Proof. intros s a s' Hr. unfold on_bank in Hr. by go_inv. Qed.
Lemma marking_on_store {A} (m : M InstStore A) : smarking m → marking (on_store m).
Proof. intros Hm s a s' Hr. unfold on_store in Hr. go_inv. by eapply Hm. Qed.
End marking.
#[export] Hint Resolve marking_ret marking_lift marking_fail_if marking_or_fail marking_reads marking_query
  marking_read marking_EmitEvent marking_on_coin marking_on_bank : phi.

Ltac marking_tac :=
  repeat first
    [ progress auto 2 with phi
    | match goal with
      | |- marking (mbind _ _) => apply marking_bind; [|intros ?]
      | |- marking (on_store _) => apply marking_on_store; smarking_tac
      | |- marking (if ?c then _ else _) => destruct c
      | |- marking (match ?o with _ => _ end) => destruct o
      end ].

Section handlers.
Context {B C I G : Type} `{BankLaws B} `{CoinKeeperI C} `{IdentityKeeper I} `{GovKeeper G}.
Context `{AddressCodec} `{Hasher} `{Verifier} `{InstCodec}.
Context (authority : string).
Abbreviation St := (InstState B C I G).

Lemma marking_handle ctx msg : marking (B:=B) (C:=C) (I:=I) (G:=G) (handle authority ctx msg).
Proof.
  destruct msg; cbn [handle]; unfold RegisterInstitution, RemoveInstitution, FreezeInstitution,
    PublishInstitutionAttestation, InstitutionMint, InstitutionRedeem, UpdateParams, SetEmergencyRedemption,
    GrantInstitutionRole, RevokeInstitutionRole, UpdateInstitutionAppConfig, UpdateInstitutionParams,
    SetInstitutionDepositKey, RequestFxEntry, GuaranteeFxEntry, FinalizeFxEntry, sensitive, trySensitive, emitPending,
    canManageRegistry, the_institution, the_guarantor, EmitBackingHealth, mint_gates, mint_amounts, mint_approved,
    mint_coins, mint_records, redeem_amounts, redeem_split, redeem_coins, redeem_records, assertSolvency, emitRevenue,
    trySensitive, emitPending.
  all: marking_tac.
Qed.

Lemma marking_BeginBlock ctx : marking (B:=B) (C:=C) (I:=I) (G:=G) (BeginBlock ctx).
Proof.
  apply marking_bind; [|intros _]; apply marking_on_store.
  - unfold PruneStaleCounters, pruneCounterPrefix. smarking_tac.
    + apply smarking_modify. intros st. apply marks_delete_keys. intros k Hk. apply elem_of_take in Hk as (j & Hk & _).
      apply list_elem_of_lookup_2, list_elem_of_fmap in Hk as ([k' v] & -> & Hin).
      apply elem_of_Iterator in Hin as [_ Hr%in_range_prefix]. by eapply (other_prefix 128).
    + apply smarking_modify. intros st. apply marks_delete_keys. intros k Hk.
      apply list_elem_of_In, filter_In in Hk as [_ Hk]. apply stale_counter_prefix in Hk. by eapply (other_prefix 64).
  - apply smarking_modify. intros st. apply marks_sweep.
Qed.

Lemma chain_step_marks (s s' : St) : chain_step authority s s' → marks_kept (is_store s) (is_store s').
Proof.
  intros Hstep. destruct Hstep as [ctx msg s Ht|ctx s|slash s Hb|amt s Ha|s s' Hst Hsup].
  - destruct (deliver_run (handle authority ctx msg) s) as [->|[a Hr]]; [done|]. by eapply marking_handle.
  - destruct (deliver_run (BeginBlock ctx) s) as [->|[a Hr]]; [done|]. by eapply marking_BeginBlock.
  - destruct (deliver_run (compensate authority slash) s) as [->|[a Hr]]; [done|].
    unfold compensate in Hr. apply bind_Ok in Hr as (b & s1 & [_ <-]%reads_Ok & Hr).
    apply bind_Ok in Hr as (burned & s2 & Hsl & Hr). destruct (Hb _ _ _ Hsl) as [<- _].
    match type of Hr with ?m _ = _ => assert (marking m) as Hm; [|by eapply Hm] end. marking_tac.
    intros s3 [] s4 Hred. by apply RedirectSlashed_supply in Hred as [_ ->].
  - destruct (deliver_run (govBurnGuard_BurnCoins GovModuleName amt) s) as [->|[a Hr]]; [done|].
    match type of Hr with ?m _ = _ => assert (marking m) as Hm; [|by eapply Hm] end.
    unfold govBurnGuard_BurnCoins. marking_tac.
  - by rewrite Hst.
Qed.
Lemma chain_marks (s s' : St) : chain_reachable authority s s' → marks_kept (is_store s) (is_store s').
Proof. induction 1 as [|s1 s2 _ IH Hstep]; [done|]. etransitivity; [exact IH|]. by eapply chain_step_marks. Qed.

Lemma seen_kept (s s' : St) id dir ref :
  chain_reachable authority s s' → depositSeen (is_store s) id dir ref = true → depositSeen (is_store s') id dir ref = true.
Proof.
  intros Hr Hs. unfold depositSeen, Has in *. apply bool_decide_eq_true in Hs. apply bool_decide_eq_true.
  eapply chain_marks; [done|apply has_prefix_app|done].
Qed.
Lemma mark_seen id dir ref (s s' : St) u :
  on_store (markDeposit id dir ref) s = (Ok u, s') → depositSeen (is_store s') id dir ref = true.
Proof.
  intros Hr. unfold on_store, markDeposit, write in Hr. go_inv. cbn. unfold depositSeen, Has.
  rewrite lookup_insert_eq. by apply bool_decide_eq_true_2.
Qed.
Lemma mint_marks ctx msg (s s' : St) r :
  solvent_state s → InstitutionMint ctx msg s = (Ok r, s') →
  kept s s' ∧ r = "0" ∨ depositSeen (is_store s') (mint_Institution msg) "mint" (mint_DepositRef msg) = true.
Proof.
  intros Hs Hr. apply mint_decompose in Hr as [?|Hr]; [by left| |done]. right.
  destruct Hr as (i & s0 & toman & uphi & nv & rcp & fc & s1 & s2 & _ & _ & _ & Hid & _ & _ & _ & _ & _ & _ & _
    & _ & Hrec & _ & _ & Hst' & _).
  unfold mint_records in Hrec. apply bind_Ok in Hrec as (u1 & sa & _ & Hrec).
  apply bind_Ok in Hrec as (u2 & sb & _ & Hrec). rewrite Hst', <- Hid. by eapply mark_seen.
Qed.
Lemma redeem_marks ctx msg (s s' : St) r :
  solvent_state s → InstitutionRedeem ctx msg s = (Ok r, s') →
  depositSeen (is_store s') (red_Institution msg) "redeem" (red_RedeemRef msg) = true.
Proof.
  intros Hs Hr. apply redeem_decompose in Hr
    as (i & s0 & toman & uphi & holder & split & s1 & s2 & _ & _ & _ & _ & Hid & _ & _ & _ & Hrec & _ & Hst' & _); [|done].
  unfold redeem_records in Hrec. repeat (apply bind_Ok in Hrec as (? & ? & _ & Hrec)).
  rewrite Hst', <- Hid. by eapply mark_seen.
Qed.

(** C10: a reference is honoured once.  After a mint (or a redemption) that executed, in
    every later state of the chain (the institution may even have been removed, swept
    and registered again under its id) no mint (redemption) at that institution with
    the same reference returns. *)
Theorem reference_used_once ctx (s s1 s2 s3 : St) ctx' r r' :
  solvent_state s →
  (∀ msg msg', InstitutionMint ctx msg s = (Ok r, s1) → r ≠ "0" → chain_reachable authority s1 s2 →
     mint_Institution msg' = mint_Institution msg → mint_DepositRef msg' = mint_DepositRef msg →
     InstitutionMint ctx' msg' s2 ≠ (Ok r', s3)) ∧
  (∀ msg msg', InstitutionRedeem ctx msg s = (Ok r, s1) → chain_reachable authority s1 s2 →
     red_Institution msg' = red_Institution msg → red_RedeemRef msg' = red_RedeemRef msg →
     InstitutionRedeem ctx' msg' s2 ≠ (Ok r', s3)).
Proof.
  intros Hs. split; intros msg msg' Hr.
  - intros Hne Hreach Hi Href Hr'. pose proof (mint_solvent _ _ _ _ _ Hs Hr) as Hs1.
    apply mint_marks in Hr as [[_ ->]|Hseen]; [done| |done].
    apply (seen_kept _ _ _ _ _ Hreach) in Hseen. apply (chain_solvent authority) in Hreach; [|done].
    unfold InstitutionMint in Hr'. apply bind_Ok in Hr' as (i & sa & Hinst & Hr').
    apply the_institution_at in Hinst as (-> & _ & Hid); [|apply Hreach].
    apply bind_Ok in Hr' as (u & sb & Hg & _). unfold mint_gates, read in Hg. go_inv. congruence.
  - intros Hreach Hi Href Hr'. pose proof (redeem_solvent _ _ _ _ _ Hs Hr) as Hs1. apply redeem_marks in Hr as Hseen; [|done].
    apply (seen_kept _ _ _ _ _ Hreach) in Hseen. apply (chain_solvent authority) in Hreach; [|done].
    apply redeem_decompose in Hr'
      as (i & s0 & toman & uphi & holder & split & sa & sb & _ & _ & _ & _ & Hid & Ha & _); [|done].
    apply redeem_amounts_facts in Ha as (_ & _ & _ & _ & _ & _ & _ & Hns & _). congruence.
Qed.
End handlers.

Lemma reference_used_once_witness :
  InstitutionMint CoinKeeper.demo_ctx (demo_mint "d1" "7") demo_funded ≠ (Ok "70", demo_funded).
Proof.
  refine (proj1 (reference_used_once "gov" CoinKeeper.demo_ctx demo_ready demo_funded demo_funded demo_funded CoinKeeper.demo_ctx
    "5000000" "70" _) (demo_mint "d1" "500000") (demo_mint "d1" "7") _ _ _ _ _).
  - apply demo_reachable_solvent, demo_ready_reachable.
  - vm_compute. reflexivity.
  - done.
  - constructor.
  - done.
  - done.
Defined.

(** ** What a mint and a redemption do

    The two operations that move the supply, specified as wholes: how much is created
    or destroyed, on which backing, and that a deposit or redemption reference is
    spent once for all. *)
Section ledger.
Context {B C I G : Type} `{BankLaws B} `{CoinKeeperI C} `{IdentityKeeper I} `{GovKeeper G}.
Context `{AddressCodec} `{Hasher} `{Verifier} `{InstCodec}.
Context (authority : string).
Abbreviation St := (InstState B C I G).
Implicit Types s : St.

(** C3: coin is only minted against attested reserve.  When a mint executes from a solvent
    state, the institution's vault plus the deposit does not exceed its attested
    reserve, the supply rises by exactly the value of the deposit at the fixed rate,
    the total of the vaults by exactly the deposit, and the state stays solvent; when it
    stays pending, neither the supply nor a vault changes. *)
Theorem mint_is_backed ctx msg s r s' :
  solvent_state s → InstitutionMint ctx msg s = (Ok r, s') →
  solvent_state s' ∧
  (r = "0" ∧ GetSupply (is_bank s') = GetSupply (is_bank s) ∧ total_vault (is_store s') = total_vault (is_store s) ∨
   ∃ i toman, inst_at (is_store s) i ∧ inst_Id i = mint_Institution msg ∧
     NewIntFromString (mint_AmountToman msg) = Some toman ∧ 0 < toman ∧
     mustInt (inst_VaultBalance i) + toman ≤ mustInt (inst_AttestedReserve i) ∧
     r = Int_String (toman * uphi_per_toman (rate (is_store s))) ∧
     GetSupply (is_bank s') = GetSupply (is_bank s) + toman * uphi_per_toman (rate (is_store s)) ∧
     total_vault (is_store s') = total_vault (is_store s) + toman).
Proof.
  intros Hs Hr. split; [by eapply mint_solvent|]. apply mint_decompose in Hr as [[Hk ->]|Hr]; [| |done].
  { left. by destruct Hk as (? & _ & ? & _). }
  destruct Hr as (i & s0 & toman & uphi & nv & rcp & fc & s1 & s2 & Hk & Hb & Hi & Hid & Hi0 & Ht & Hp & Hres & Hc & Hnv
    & Hin & Hm & Hrec & _ & Hb' & Hst' & ->).
  right. exists i, toman. destruct Hk as (Hsup & Hwf0 & Htot & Hrate).
  assert (solvent_state s0) as Hs0 by (split; [done|]; rewrite Hsup, Htot, Hrate; apply Hs).
  eapply mint_balanced in Hrec as (_ & Hs2 & Ht2 & _); [|done..].
  apply MintedUphiForToman_spec in Hc as [-> _]; [|by apply wf_rate|lia].
  rewrite Hb', Hst', Hs2, Ht2, Hsup, Htot, Hrate. subst nv. split_and!; done.
Qed.

(** C9: a redemption pays exactly what it destroys.  When a redemption returns, a positive
    whole number of toman, at most the amount asked and at most the vault, leaves the
    vaults; the supply falls by exactly its value at the fixed rate; and the state stays
    solvent. *)
Theorem redeem_pays_exactly ctx msg s r s' :
  solvent_state s → InstitutionRedeem ctx msg s = (Ok r, s') →
  solvent_state s' ∧
  ∃ i toman payout, inst_at (is_store s) i ∧ inst_Id i = red_Institution msg ∧
    NewIntFromString (red_AmountToman msg) = Some toman ∧
    0 < payout ≤ toman ∧ toman ≤ mustInt (inst_VaultBalance i) ∧
    r = Int_String (payout * uphi_per_toman (rate (is_store s))) ∧
    GetSupply (is_bank s') = GetSupply (is_bank s) - payout * uphi_per_toman (rate (is_store s)) ∧
    total_vault (is_store s') = total_vault (is_store s) - payout.
Proof.
  intros Hs Hr. split; [by eapply redeem_solvent|]. apply redeem_decompose in Hr
    as (i & s0 & toman & uphi & holder & split & s1 & s2 & Hb & Hst & _ & Hi & Hid & Ha & Hsp & Hc & Hrec & Hb' & Hst' & ->); [|done].
  apply redeem_amounts_facts in Ha as (_ & Hp & Ht & _ & Hm & _).
  exists i, toman, (TomanOut split). pose proof (so_toman _ _ _ Hsp) as Hto.
  eapply redeem_balanced in Hrec as (_ & Hs2 & Ht2 & Hout & _); [..|exact Hc];
    rewrite ?Hst; [..|done|done|done|done]; [|by unfold solvent_state; rewrite Hb, Hst].
  rewrite Hb', Hst', Hs2, Ht2, Hb, Hst, Hto. split_and!; (done || lia).
Qed.
End ledger.

Lemma mint_is_backed_witness : GetSupply (is_bank demo_funded) = GetSupply (is_bank demo_ready) + 500000 * 10.
Proof.
  assert (InstitutionMint CoinKeeper.demo_ctx (demo_mint "d1" "500000") demo_ready = (Ok "5000000", demo_funded)) as Hr
    by (vm_compute; reflexivity).
  assert (solvent_state demo_ready) as Hs by apply demo_reachable_solvent, demo_ready_reachable.
  destruct (mint_is_backed _ _ _ _ _ Hs Hr) as [_ [[? _]|(i & toman & _ & _ & Ht & _ & _ & _ & Hsup & _)]]; [done|].
  rewrite Hsup. replace toman with 500000 by (vm_compute in Ht; congruence). reflexivity.
Defined.

Definition demo_redeemed : DemoState :=
  Eval vm_compute in snd (InstitutionRedeem CoinKeeper.demo_ctx (demo_redeem "r1" "100000") demo_funded).
Lemma redeem_pays_exactly_witness : solvent_state demo_redeemed.
Proof.
  assert (∃ r, InstitutionRedeem CoinKeeper.demo_ctx (demo_redeem "r1" "100000") demo_funded = (Ok r, demo_redeemed)) as [r Hr]
    by (eexists; vm_compute; reflexivity).
  assert (solvent_state demo_funded) as Hs by apply demo_reachable_solvent, demo_funded_reachable.
  exact (proj1 (redeem_pays_exactly _ _ _ _ _ Hs Hr)).
Defined.
