(* ===== verification/InstSweep.v ===== *)
(** * The deferred removal of an institution

    [RemoveInstitution] deletes the authority records at once and queues the id; the
    sweep drains the ranged records (roles, approvals, tiers) under a budget.  It
    touches nobody else's records, and it finishes as soon as its budget covers what is
    left. *)
From stdpp Require Import base gmap strings list fin_maps sorting.
From Stdlib Require Import ZArith Lia.
From S2P Require Import Prelude GoInt KVStore Interfaces CoinTypes InstTypes InstServer InstKeeper InstSplit InstMint InstSolvency InstInvariant.

(** ** Keys, pruning and the removal sweep

    The composite keys decode to what they were built from, pruning deletes only
    expired counters, and the sweep deletes only the records of removed institutions,
    all of them once its budget covers them. *)
(** ** Decoding *)
Lemma get_app_r p s n : String.get (String.length p + n) (p +:+ s) = String.get n s.
Proof. induction p as [|c p IH]; simpl; [done|apply IH]. Qed.
Lemma get_app_0 p s : String.get (String.length p) (p +:+ s) = String.get 0 s.
Proof. by rewrite <- (get_app_r p s 0), Nat.add_0_r. Qed.
Lemma byte_len s : strlen s ≤ 255 → char_code (byte (strlen s)) = strlen s.
Proof. intros Hs. rewrite char_code_byte, Z.mod_small; [done|]. unfold strlen in *. lia. Qed.
Lemma to_nat_strlen s : Z.to_nat (strlen s) = String.length s.
Proof. unfold strlen. lia. Qed.

Lemma IDFromLenPrefixedKey_spec p id rest :
  strlen id ≤ 255 → IDFromLenPrefixedKey (p +:+ lenPrefixedID id +:+ rest) p = Some id.
Proof.
  intros Hid. unfold IDFromLenPrefixedKey, byte_at. rewrite has_prefix_app, orb_false_r, str_app_length.
  unfold lenPrefixedID. cbn [String.append String.length].
  destruct (Nat.ltb_spec (String.length p + S (String.length (id +:+ rest))) (String.length p + 1)); [lia|].
  rewrite get_app_0. cbn [String.get fmap option_fmap option_map mbind option_bind].
  rewrite byte_len, to_nat_strlen by done.
  destruct (Nat.ltb_spec (String.length p + S (String.length (id +:+ rest))) (String.length p + 1 + String.length id)) as [Hl|_];
    [rewrite str_app_length in Hl; lia|].
  f_equal. rewrite substring_app_r. cbn [String.substring]. apply substring_app_l.
Qed.

Lemma ParseCounterKeyDay_spec id kind day rest :
  strlen id ≤ 255 → strlen kind ≤ 255 → - 2 ^ 63 ≤ day < 2 ^ 63 →
  ParseCounterKeyDay (CounterTotalKey id kind day +:+ rest) = Some (kind, day).
Proof.
  intros Hid Hkind Hd. unfold CounterTotalKey, CounterPrefix, i64be. rewrite !str_app_assoc.
  pose proof (be_length 8 day) as HD. fold (be64 day) in HD. pose proof (BigEndian_be64 day) as HB.
  assert (i64 (u64 day) = day) as Hi by by apply i64_u64.
  remember (be64 day) as D. clear HeqD.
  unfold ParseCounterKeyDay. set (key := key_prefix 64 +:+ _).
  assert (String.length key = (3 + String.length id + String.length kind + 8 + String.length rest)%nat) as Hlen.
  { unfold key, lenPrefixedID. cbn. rewrite !str_app_length. cbn. rewrite !str_app_length, HD. lia. }
  assert (byte_at key 0 = Some 64) as -> by done. cbn [mbind option_bind]. cbn [Z.eqb Pos.eqb negb].
  assert (byte_at key 1 = Some (strlen id)) as -> by (unfold byte_at, key; cbn; by rewrite byte_len).
  cbn [mbind option_bind]. rewrite !to_nat_strlen. rewrite Hlen.
  destruct (Nat.ltb_spec (3 + String.length id + String.length kind + 8 + String.length rest) (2 + String.length id)); [lia|].
  assert (byte_at key (2 + String.length id) = Some (strlen kind)) as ->
    by (unfold byte_at, key; cbn; rewrite get_app_0; cbn; by rewrite byte_len).
  cbn [mbind option_bind]. rewrite !to_nat_strlen.
  destruct (Nat.ltb_spec (3 + String.length id + String.length kind + 8 + String.length rest)
    (2 + String.length id + 1 + String.length kind)); [lia|].
  destruct (Nat.ltb_spec (3 + String.length id + String.length kind + 8 + String.length rest)
    (2 + String.length id + 1 + String.length kind + 8)); [lia|].
  assert (String.substring (2 + String.length id + 1) (String.length kind) key = kind) as ->.
  { unfold key. cbn. rewrite substring_app_r. cbn. apply substring_app_l. }
  assert (String.substring (2 + String.length id + 1 + String.length kind) 8 key = D) as ->; [|by rewrite HB, Hi].
  unfold key. cbn [Nat.add key_prefix str1 String.append lenPrefixedID String.substring].
  rewrite <- Nat.add_assoc, substring_app_r. cbn [Nat.add String.substring].
  rewrite <- (Nat.add_0_r (String.length kind)), substring_app_r, <- HD. apply substring_app_l.
Qed.

(** ** Pruning *)
Lemma delete_keys_lookup keys st k : k ∉ keys → delete_keys keys st !! k = st !! k.
Proof. intros Hk. unfold delete_keys. rewrite foldl_delete_lookup. by rewrite bool_decide_eq_false_2. Qed.

(** a key the pruning of a day may delete *)
Definition prunable (staleBefore : Z) (k : string) : Prop :=
  in_key_range RedeemSubjectPrefix (Some (RedeemSubjectDayBound staleBefore)) k = true ∨
  stale_counter staleBefore k = true ∨ k = CounterPruneCursorKey.

Lemma PruneStaleCounters_frame ctx st st' k :
  PruneStaleCounters ctx st = (Ok tt, st') → ¬ prunable (dayIndex ctx - CounterRetentionDays) k → st' !! k = st !! k.
Proof.
  intros Hr Hk. unfold prunable in Hk. unfold PruneStaleCounters in Hr.
  set (sb := dayIndex ctx - CounterRetentionDays) in *. destruct (sb <=? 0); [by go_inv|].
  apply bind_Ok in Hr as ([] & st1 & Hm%modify_Ok & Hr). rewrite <- (delete_keys_lookup
    (firstn CounterPruneBudget (map fst (Iterator st RedeemSubjectPrefix (Some (RedeemSubjectDayBound sb))))) st k).
  2: { intros Hin. apply Hk. left. apply elem_of_take in Hin as (j & Hin & _).
       apply list_elem_of_lookup_2, list_elem_of_fmap in Hin as ([k' v] & -> & Hin).
       by apply elem_of_Iterator in Hin as [_ Hin]. }
  fold (pruneRedeemSubjectCounters sb st). rewrite Hm.
  unfold pruneCounterPrefix in Hr. apply bind_Ok in Hr as (cur & st2 & [_ <-]%query_Ok & Hr).
  apply bind_Ok in Hr as (st3 & st4 & [-> <-]%get_state_Ok & Hr).
  apply bind_Ok in Hr as ([] & st5 & <-%modify_Ok & Hr).
  match type of Hr with context [delete_keys ?l _] => rewrite <- (delete_keys_lookup l st1 k) end.
  2: { intros Hin. apply Hk. right. left. by apply list_elem_of_In, filter_In in Hin as [_ Hin]. }
  unfold Delete, write in Hr. assert (k ≠ CounterPruneCursorKey) by (intros ->; apply Hk; auto).
  repeat case_match; go_inv; by rewrite ?lookup_delete_ne, ?lookup_insert_ne.
Qed.

(** Pruning keeps every counter still in use.  Whatever the cursor and the budget, one
    block's pruning leaves the counters of the last two days, the emergency counters of any
    age, the per-subject totals of the last two days, and every record that is not a
    counter. *)
Theorem prune_keeps_live ctx st st' :
  PruneStaleCounters ctx st = (Ok tt, st') →
  (∀ id kind day rest, strlen id ≤ 255 → strlen kind ≤ 255 → - 2 ^ 63 ≤ day < 2 ^ 63 →
     dayIndex ctx - 2 ≤ day ∨ IsPrunableCounterKind kind = false →
     st' !! (CounterTotalKey id kind day +:+ rest) = st !! (CounterTotalKey id kind day +:+ rest)) ∧
  (∀ day kind subject, 0 ≤ dayIndex ctx < 2 ^ 63 → 0 ≤ day < 2 ^ 63 → dayIndex ctx - 2 ≤ day →
     st' !! RedeemSubjectCounterKey day kind subject = st !! RedeemSubjectCounterKey day kind subject) ∧
  (∀ k, has_prefix CounterPrefix k = false → has_prefix RedeemSubjectPrefix k = false → k ≠ CounterPruneCursorKey →
     st' !! k = st !! k).
Proof.
  intros Hr. split_and!.
  - intros id kind day rest Hid Hkind Hd Hlive. eapply PruneStaleCounters_frame; [done|].
    intros [Hin|[Hs|Hc]]; [by apply in_range_prefix in Hin| |done].
    unfold stale_counter in Hs. rewrite ParseCounterKeyDay_spec in Hs by done. apply andb_true_iff in Hs as [Hk Hlt].
    destruct Hlive as [Hday|Hnk]; [|congruence]. bool_prop. unfold CounterRetentionDays in *. lia.
  - intros day kind subject Hi Hd Hlive. 
    destruct (Z.le_gt_cases (dayIndex ctx - CounterRetentionDays) 0) as [Hle|Hgt].
    { unfold PruneStaleCounters in Hr. rewrite (proj2 (Z.leb_le _ _)) in Hr by done. by go_inv. }
    eapply PruneStaleCounters_frame; [exact Hr|].
    intros [Hin|[Hs%stale_counter_prefix|Hc]]; [|done|done].
    unfold RedeemSubjectDayBound, RedeemSubjectCounterKey, i64be, CounterRetentionDays in *.
    rewrite day_range in Hin by lia. bool_prop. lia.
  - intros k H1 H2 H3. eapply PruneStaleCounters_frame; [done|].
    intros [Hin%in_range_prefix|[Hs%stale_counter_prefix|Hc]]; congruence.
Qed.

Definition demo_counters : InstStore :=
  {[ CounterTotalKey "bank" "md" 5 := VBytes "700"; CounterTotalKey "bank" "er" 5 := VBytes "900";
     CounterTotalKey "bank" "md" 19674 := VBytes "300" ]}.
Definition demo_today : Context := mkContext 1700000000 10 "phi-1".
Definition demo_pruned : InstStore := Eval vm_compute in snd (PruneStaleCounters demo_today demo_counters).
Lemma prune_keeps_live_witness :
  demo_pruned !! CounterTotalKey "bank" "md" 5 = None ∧
  demo_pruned !! (CounterTotalKey "bank" "er" 5 +:+ "") = demo_counters !! (CounterTotalKey "bank" "er" 5 +:+ "").
Proof.
  assert (PruneStaleCounters demo_today demo_counters = (Ok tt, demo_pruned)) as Hr by (vm_compute; reflexivity).
  split; [vm_compute; reflexivity|].
  apply (proj1 (prune_keeps_live demo_today demo_counters demo_pruned Hr) "bank" "er" 5 "");
    [vm_compute; discriminate|vm_compute; discriminate|lia|right; vm_compute; reflexivity].
Defined.

(** Composite keys decode to their parts.  The day and kind pruning reads back from a
    counter key, and the id the sweep reads back from a queue key, are the ones the key was
    built from, whatever bytes follow. *)
Theorem counter_key_roundtrip id kind day rest :
  strlen id ≤ 255 → strlen kind ≤ 255 → - 2 ^ 63 ≤ day < 2 ^ 63 →
  ParseCounterKeyDay (CounterUserKey id kind day rest) = Some (kind, day) ∧
  ParseRemovalQueueKey (RemovalQueueKey id) = Some id.
Proof.
  intros Hid Hk Hd. split; [by apply ParseCounterKeyDay_spec|]. unfold ParseRemovalQueueKey, RemovalQueueKey.
  rewrite <- (str_app_nil_r (RemovalQueuePrefix +:+ lenPrefixedID id)), str_app_assoc. by apply IDFromLenPrefixedKey_spec.
Qed.
Lemma counter_key_roundtrip_witness :
  ParseCounterKeyDay (CounterUserKey "bank" "ru" 19675 "alice") = Some ("ru", 19675) ∧
  ParseRemovalQueueKey (RemovalQueueKey "bank") = Some "bank".
Proof. apply (counter_key_roundtrip "bank" "ru" 19675 "alice"); by vm_compute. Defined.

(** ** Which keys are whose *)
Lemma range_prefix_form id p : p ∈ PerInstitutionRangePrefixes id →
  ∃ z, (z = 32 ∨ z = 48 ∨ z = 160) ∧ p = key_prefix z +:+ lenPrefixedID id.
Proof.
  unfold PerInstitutionRangePrefixes. intros [->|[->|[->|[]%not_elem_of_nil]%elem_of_cons]%elem_of_cons]%elem_of_cons;
    [exists 32|exists 48|exists 160]; auto.
Qed.
Lemma range_prefix_owner id id' p p' k :
  strlen id ≤ 255 → strlen id' ≤ 255 → p ∈ PerInstitutionRangePrefixes id → p' ∈ PerInstitutionRangePrefixes id' →
  has_prefix p k = true → has_prefix p' k = true → id = id'.
Proof.
  intros Hl Hl' (z & Hz & ->)%range_prefix_form (z' & Hz' & ->)%range_prefix_form [t ->]%has_prefix_spec Hp.
  pose proof (has_prefix_trans _ _ _ Hp) as Hb. rewrite str_app_assoc in Hb.
  rewrite has_prefix_byte in Hb by lia. apply Z.eqb_eq in Hb as ->.
  apply has_prefix_spec in Hp as [t' Hp]. rewrite !str_app_assoc in Hp. apply str_app_inj_l in Hp.
  by apply lenPrefixedID_inj in Hp as [-> _].
Qed.
Lemma queue_not_ranged id id' p : p ∈ PerInstitutionRangePrefixes id → has_prefix p (RemovalQueueKey id') = false.
Proof.
  intros (z & Hz & ->)%range_prefix_form. apply not_true_is_false. intros Hp%has_prefix_trans.
  unfold RemovalQueueKey, RemovalQueuePrefix in Hp. rewrite has_prefix_byte in Hp by lia. bool_prop. lia.
Qed.

(** ** Deleting a batch *)
Lemma delete_keys_sub keys st : delete_keys keys st ⊆ st.
Proof.
  apply map_subseteq_spec. intros k v. unfold delete_keys. rewrite foldl_delete_lookup. by case_bool_decide.
Qed.
Definition ranged (st : InstStore) (p : string) : list string := map fst (KVStorePrefixIterator st p).
Lemma elem_of_ranged st p k : k ∈ ranged st p ↔ is_Some (st !! k) ∧ has_prefix p k = true.
Proof.
  unfold ranged. rewrite list_elem_of_fmap. split.
  - intros ([k' v] & -> & [Hk Hp]%elem_of_prefix_iterator). split; [by exists v|done].
  - intros [[v Hv] Hp]. exists (k, v). split; [done|]. by apply elem_of_prefix_iterator.
Qed.
Lemma ranged_sub st st' p : st' ⊆ st → (length (ranged st' p) ≤ length (ranged st p))%nat.
Proof.
  intros Hs. apply submseteq_length, NoDup_submseteq; [apply Iterator_NoDup|].
  intros k [[v Hv] Hp]%elem_of_ranged. apply elem_of_ranged. split; [|done]. exists v. by eapply lookup_weaken.
Qed.
Lemma ranged_nil st p : ranged st p = [] ↔ ∀ k, has_prefix p k = true → st !! k = None.
Proof.
  split.
  - intros Hn k Hp. apply eq_None_not_Some. intros Hs. assert (k ∈ ranged st p) as Hin by by apply elem_of_ranged.
    rewrite Hn in Hin. by apply not_elem_of_nil in Hin.
  - intros Hn. destruct (ranged st p) as [|k l] eqn:He; [done|].
    assert (k ∈ ranged st p) as [[v Hv] Hp]%elem_of_ranged by (rewrite He; left). rewrite Hn in Hv; done.
Qed.
Definition ranged_total (st : InstStore) (ps : list string) : nat :=
  foldr (λ p n, (length (ranged st p) + n)%nat) 0%nat ps.
Lemma ranged_total_sub st st' ps : st' ⊆ st → (ranged_total st' ps ≤ ranged_total st ps)%nat.
Proof.
  intros Hs. unfold ranged_total. induction ps as [|p ps IH]; simpl; [done|]. pose proof (ranged_sub st st' p Hs). lia.
Qed.

Lemma drain_sub ps budget deleted st n st' : drain_prefixes ps budget deleted st = (n, st') → st' ⊆ st.
Proof.
  revert deleted st. induction ps as [|p ps IH]; intros deleted st Hd; cbn in Hd; [by simplify_eq|].
  destruct (_ <=? _)%nat; [by simplify_eq|]. apply IH in Hd. etransitivity; [exact Hd|]. apply delete_keys_sub.
Qed.
Lemma drain_frame ps budget deleted st n st' k :
  (∀ p, p ∈ ps → has_prefix p k = false) → drain_prefixes ps budget deleted st = (n, st') → st' !! k = st !! k.
Proof.
  revert deleted st. induction ps as [|p ps IH]; intros deleted st Hk Hd; cbn in Hd; [by simplify_eq|].
  destruct (_ <=? _)%nat; [by simplify_eq|]. apply IH in Hd; [|set_solver]. rewrite Hd. apply delete_keys_lookup.
  intros Hin. apply elem_of_take in Hin as (j & Hin & _). apply list_elem_of_lookup_2, elem_of_ranged in Hin as [_ Hp].
  specialize (Hk p ltac:(left)). congruence.
Qed.
(** enough budget drains everything *)
Lemma drain_complete ps budget deleted st n st' :
  (deleted + ranged_total st ps ≤ budget)%nat → drain_prefixes ps budget deleted st = (n, st') →
  ∀ p, p ∈ ps → ranged st' p = [].
Proof.
  revert deleted st. induction ps as [|p ps IH]; intros deleted st Hb Hd q Hq; [by apply not_elem_of_nil in Hq|].
  change (deleted + (length (ranged st p) + ranged_total st ps) ≤ budget)%nat in Hb.
  cbn in Hd. destruct (Nat.leb_spec budget deleted) as [Hle|Hlt].
  { simplify_eq. assert (length (ranged st' p) = 0 ∧ ranged_total st' ps = 0)%nat as [H1 H2] by lia.
    apply elem_of_cons in Hq as [->|Hq]; [by apply length_zero_iff_nil|].
    clear -H2 Hq. induction ps as [|p' ps IH]; [by apply not_elem_of_nil in Hq|].
    change (length (ranged st' p') + ranged_total st' ps = 0)%nat in H2.
    apply elem_of_cons in Hq as [->|Hq]; [apply length_zero_iff_nil; lia|apply IH; (done || lia)]. }
  fold (ranged st p) in Hd. rewrite firstn_all2 in Hd by lia.
  pose proof (ranged_total_sub st (delete_keys (ranged st p) st) ps (delete_keys_sub _ _)) as Hsub.
  apply elem_of_cons in Hq as [->|Hq]; [|eapply IH; [|exact Hd|done]; lia].
  apply ranged_nil. intros k Hp. apply drain_sub in Hd. eapply lookup_weaken_None; [|exact Hd].
  unfold delete_keys. rewrite foldl_delete_lookup. case_bool_decide as Hin; [done|].
  apply eq_None_not_Some. intros Hs. apply Hin. by apply elem_of_ranged.
Qed.

(** ** The sweep *)
Lemma sweep_sub fuel budget st : sweep_loop fuel budget st ⊆ st.
Proof.
  revert budget st. induction fuel as [|fuel IH]; intros budget st; [done|]. cbn [sweep_loop].
  destruct (_ =? _)%nat; [done|]. destruct (firstPendingRemoval st) as [id|]; [|done].
  destruct (drainInstitutionRanged id budget st) as [n st1] eqn:Hd. apply drain_sub in Hd.
  destruct (institutionRangedEmpty st1 id); [|done].
  etransitivity; [apply IH|]. etransitivity; [apply delete_subseteq|done].
Qed.

(** the queue holds nothing but queued ids *)
Definition queue_wf (st : InstStore) : Prop :=
  ∀ k, has_prefix RemovalQueuePrefix k = true → is_Some (st !! k) → ∃ id, strlen id ≤ 255 ∧ k = RemovalQueueKey id.
Lemma queue_wf_sub st st' : st' ⊆ st → queue_wf st → queue_wf st'.
Proof. intros Hs Hq k Hp [v Hv]. apply Hq; [done|]. exists v. by eapply lookup_weaken. Qed.
Lemma firstPending_queued st id : queue_wf st → firstPendingRemoval st = Some id →
  strlen id ≤ 255 ∧ HasPendingRemoval st id = true.
Proof.
  intros Hq Hf. unfold firstPendingRemoval in Hf. destruct (KVStorePrefixIterator st RemovalQueuePrefix) as [|[k v] l] eqn:He; [done|].
  assert ((k, v) ∈ KVStorePrefixIterator st RemovalQueuePrefix) as [Hk Hp]%elem_of_prefix_iterator by (rewrite He; left).
  destruct (Hq k Hp ltac:(eauto)) as (id' & Hl & ->). cbn [fst] in Hf. unfold ParseRemovalQueueKey, RemovalQueueKey in Hf.
  rewrite <- (str_app_nil_r (RemovalQueuePrefix +:+ lenPrefixedID id')), str_app_assoc, IDFromLenPrefixedKey_spec in Hf by done.
  injection Hf as ->. split; [done|]. unfold HasPendingRemoval, Has. apply bool_decide_eq_true. eauto.
Qed.

Lemma sweep_frame fuel budget st id p k :
  queue_wf st → strlen id ≤ 255 → HasPendingRemoval st id = false → p ∈ PerInstitutionRangePrefixes id →
  has_prefix p k = true → sweep_loop fuel budget st !! k = st !! k.
Proof.
  intros Hq Hl Hnp Hin Hp. revert budget st Hq Hnp. induction fuel as [|fuel IH]; intros budget st Hq Hnp; [done|]. cbn [sweep_loop].
  destruct (_ =? _)%nat; [done|]. destruct (firstPendingRemoval st) as [id'|] eqn:Hf; [|done].
  apply firstPending_queued in Hf as [Hl' Hp']; [|done].
  destruct (drainInstitutionRanged id' budget st) as [n st1] eqn:Hd.
  assert (st1 !! k = st !! k) as Hk.
  { eapply drain_frame; [|exact Hd]. intros q Hq'. apply not_true_is_false. intros Hqk.
    assert (id = id') as <-; [|congruence]. by eapply (range_prefix_owner id id' p q k). }
  destruct (institutionRangedEmpty st1 id'); [|done].
  assert (delete (RemovalQueueKey id') st1 ⊆ st) as Hsub.
  { etransitivity; [apply delete_subseteq|]. by eapply drain_sub. }
  rewrite IH; [|by eapply queue_wf_sub|].
  - rewrite lookup_delete_ne; [done|]. intros <-. rewrite (queue_not_ranged id) in Hp; done.
  - unfold HasPendingRemoval, Has in *. apply bool_decide_eq_false. apply bool_decide_eq_false in Hnp.
    intros [v Hv]. apply Hnp. exists v. by eapply lookup_weaken.
Qed.

(** one round with budget enough for the first queued institution *)
Lemma sweep_first fuel budget st id :
  budget ≠ 0%nat → firstPendingRemoval st = Some id →
  (ranged_total st (PerInstitutionRangePrefixes id) ≤ budget)%nat →
  HasPendingRemoval (sweep_loop (S fuel) budget st) id = false ∧
  ∀ p k, p ∈ PerInstitutionRangePrefixes id → has_prefix p k = true → sweep_loop (S fuel) budget st !! k = None.
Proof.
  intros Hz Hf Hb. cbn [sweep_loop]. rewrite Hf. destruct (Nat.eqb_spec budget 0) as [|_]; [done|].
  destruct (drainInstitutionRanged id budget st) as [n st1] eqn:Hd. unfold drainInstitutionRanged in Hd.
  pose proof (drain_complete _ _ 0 _ _ _ Hb Hd) as Hc.
  assert (institutionRangedEmpty st1 id = true) as ->.
  { unfold institutionRangedEmpty. apply forallb_forall. intros p Hp%list_elem_of_In. apply Hc in Hp.
    unfold ranged in Hp. by destruct (KVStorePrefixIterator st1 p). }
  set (st2 := delete (RemovalQueueKey id) st1). pose proof (sweep_sub fuel (budget - n - 1) st2) as Hsub. split.
  - unfold HasPendingRemoval, Has. apply bool_decide_eq_false. intros [v Hv]. eapply lookup_weaken in Hv; [|exact Hsub].
    unfold st2 in Hv. by rewrite lookup_delete_eq in Hv.
  - intros p k Hp Hk. eapply lookup_weaken_None; [|exact Hsub]. unfold st2. apply lookup_delete_None. right.
    apply (ranged_nil st1 p); [by apply Hc|done].
Qed.

(** The sweep touches nobody else and finishes.  It leaves every role, approval and tier
    of an institution that is not queued for removal, and when the first queued institution
    has no more such records than the block's budget, none of them survives the sweep and the
    institution leaves the queue, so that its id can be registered again. *)
Theorem sweep_exact st :
  queue_wf st →
  (∀ id p k, strlen id ≤ 255 → HasPendingRemoval st id = false → p ∈ PerInstitutionRangePrefixes id →
     has_prefix p k = true → SweepRemovals st !! k = st !! k) ∧
  (∀ id, firstPendingRemoval st = Some id → (ranged_total st (PerInstitutionRangePrefixes id) ≤ RemovalPruneBudget)%nat →
     HasPendingRemoval (SweepRemovals st) id = false ∧
     ∀ p k, p ∈ PerInstitutionRangePrefixes id → has_prefix p k = true → SweepRemovals st !! k = None).
Proof.
  intros Hq. unfold SweepRemovals. assert (RemovalPruneBudget ≠ 0%nat) as Hz by done. revert Hz.
  generalize RemovalPruneBudget as budget. intros budget Hz. split.
  - intros id p k. by apply sweep_frame.
  - intros id Hf Hb. by apply sweep_first.
Qed.

(** a removed institution with two roles left, next to a live one *)
Definition demo_queue : InstStore :=
  {[ RemovalQueueKey "old" := VBytes RemovalQueueMarkerByte;
     RoleKey "old" "amy" := VRole (mkRoleGrant "old" "amy" INSTITUTION_ROLE_ADMIN);
     RoleKey "old" "bob" := VRole (mkRoleGrant "old" "bob" INSTITUTION_ROLE_OPERATOR);
     RoleKey "new" "amy" := VRole (mkRoleGrant "new" "amy" INSTITUTION_ROLE_ADMIN) ]}.
Lemma sweep_exact_witness :
  HasPendingRemoval (SweepRemovals demo_queue) "old" = false ∧ SweepRemovals demo_queue !! RoleKey "old" "bob" = None ∧
  SweepRemovals demo_queue !! RoleKey "new" "amy" = demo_queue !! RoleKey "new" "amy".
Proof.
  assert (queue_wf demo_queue) as Hq.
  { intros k Hp Hk. unfold demo_queue in Hk. rewrite !lookup_insert_is_Some, lookup_singleton_is_Some in Hk.
    destruct Hk as [<-|[_ [<-|[_ [<-|[_ <-]]]]]]; [|done..]. by exists "old". }
  destruct (sweep_exact demo_queue Hq) as [Hlive Hgone].
  destruct (Hgone "old") as [Hn Hnone]; [by vm_compute|by vm_compute; lia|].
  split_and!; [done|apply (Hnone (RolePrefixFor "old")); [left|by vm_compute]|].
  apply (Hlive "new" (RolePrefixFor "new")); [by vm_compute|by vm_compute|left|by vm_compute].
Defined.
