(* ===== verification/InstRbac.v ===== *)
(** * Roles, approvals and the separation of duties

    A sensitive action executes only on a quorum of distinct current admins who
    approved that very content in the current epoch; a mint needs an operator who did
    not publish the attestation it draws on. *)
From stdpp Require Import base gmap strings list fin_maps sorting.
From Stdlib Require Import ZArith Lia.
From S2P Require Import Prelude GoInt KVStore Interfaces CoinTypes CoinKeeper InstTypes InstServer InstKeeper InstSplit InstMint InstSolvency InstInvariant AppGuards InstDemo.

(** ** Approvals *)
Lemma key_rest_app p x : key_rest p (p +:+ x) = x.
Proof.
  unfold key_rest. rewrite str_app_length. replace (String.length p + String.length x - String.length p)%nat with (String.length x) by lia.
  induction p as [|c p IH]; simpl; [by apply substring_all|done].
Qed.

Section quorum.
Context `{AddressCodec}.

(** the recorded approval of [a] counts *)
Definition approved (st : InstStore) (inst : Institution) (ch : string) (a : string) : Prop :=
  effectiveRole st inst a = Ok INSTITUTION_ROLE_ADMIN ∧
  ∃ bz e, st !! ApprovalKey (inst_Id inst) ch a = Some (VBytes bz) ∧
          adminEpoch st (inst_Id inst) = Ok e ∧ BigEndian_Uint64 bz = Ok e.

Lemma approval_counts_true st inst ch e k v :
  adminEpoch st (inst_Id inst) = Ok e → st !! k = Some v → has_prefix (ApprovalPrefixFor (inst_Id inst) ch) k = true →
  approval_counts st inst (ApprovalPrefixFor (inst_Id inst) ch) e (k, v) = Ok true →
  k = ApprovalPrefixFor (inst_Id inst) ch +:+ key_rest (ApprovalPrefixFor (inst_Id inst) ch) k ∧
  approved st inst ch (key_rest (ApprovalPrefixFor (inst_Id inst) ch) k).
Proof.
  intros He Hk [t ->]%has_prefix_spec Hc. rewrite key_rest_app. split; [done|].
  unfold approval_counts in Hc. cbn [fst snd] in Hc. rewrite key_rest_app in Hc.
  destruct v as [| | | |bz]; try done. go_cases. bool_prop. split; [congruence|].
  exists bz, e. split_and!; [|done|congruence].
  rewrite <- Hk. f_equal. unfold ApprovalKey, ApprovalPrefixFor. by rewrite !str_app_assoc.
Qed.

Lemma count_approvals_fold st inst ch e l n0 n :
  adminEpoch st (inst_Id inst) = Ok e →
  (∀ kv, kv ∈ l → st !! kv.1 = Some kv.2 ∧ has_prefix (ApprovalPrefixFor (inst_Id inst) ch) kv.1 = true) →
  NoDup l.*1 → 0 ≤ n0 →
  ofold (λ n kv, c ← approval_counts st inst (ApprovalPrefixFor (inst_Id inst) ch) e kv;
                 Ok (if (c : bool) then u32 (n + 1) else n)) l n0 = Ok n →
  ∃ signers, NoDup signers ∧ n ≤ n0 + Z.of_nat (length signers) ∧ Forall (approved st inst ch) signers ∧
    ∀ a, a ∈ signers → ApprovalPrefixFor (inst_Id inst) ch +:+ a ∈ l.*1.
Proof.
  intros He. revert n0. induction l as [|[k v] l IH]; intros n0 Hl Hnd Hn0 Hf; cbn [ofold] in Hf.
  { injection Hf as <-. exists []. split_and!; [constructor|simpl; lia|constructor|by intros a []%not_elem_of_nil]. }
  apply NoDup_cons in Hnd as [Hk Hnd]. go_inv.
  rename select (approval_counts _ _ _ _ _ = Ok _) into Hc. rename select (ofold _ _ _ = _) into Hf'.
  destruct (Hl (k, v) ltac:(left)) as [Hlk Hpk]. cbn [fst snd] in *.
  assert (∀ kv, kv ∈ l → st !! kv.1 = Some kv.2 ∧ has_prefix (ApprovalPrefixFor (inst_Id inst) ch) kv.1 = true) as Hl'
    by (intros kv Hkv; apply Hl; by right).
  match type of Hf' with context [if ?b then _ else _] => destruct b end.
  - apply IH in Hf' as (sg & Hnds & Hlen & Hall & Hin); [|done|done|unfold u32; apply Z.mod_pos_bound; lia].
    apply (approval_counts_true st inst ch e) in Hc as [Hkey Hap]; [|done..].
    set (a := key_rest (ApprovalPrefixFor (inst_Id inst) ch) k) in *.
    exists (a :: sg). split_and!.
    + constructor; [|done]. intros Ha. apply Hk. rewrite Hkey. by apply Hin.
    + pose proof (Z.mod_le (n0 + 1) (2 ^ 32) ltac:(lia) ltac:(lia)) as Hu. unfold u32 in *. simpl length. lia.
    + by constructor.
    + intros b [->|Hb]%elem_of_cons; apply elem_of_cons; [left; by rewrite <- Hkey|right; by apply Hin].
  - apply IH in Hf' as (sg & Hnds & Hlen & Hall & Hin); [|done..]. exists sg. split_and!; [done..|].
    intros a Ha. apply elem_of_cons. right. by apply Hin.
Qed.

Lemma countApprovals_quorum st inst ch n :
  countApprovals st inst ch = Ok n →
  ∃ signers, NoDup signers ∧ n ≤ Z.of_nat (length signers) ∧ Forall (approved st inst ch) signers.
Proof.
  intros Hc. unfold countApprovals in Hc. go_inv. rename select (adminEpoch _ _ = _) into He.
  rename select (ofold _ _ _ = _) into Hf.
  apply count_approvals_fold in Hf as (sg & ? & ? & ? & _); [by exists sg|done| |apply Iterator_NoDup|done].
  intros [k v] Hin. by apply elem_of_prefix_iterator in Hin.
Qed.
End quorum.

Section rbac.
Context {B C I G : Type} `{BankKeeper B} `{CoinKeeperI C} `{IdentityKeeper I} `{GovKeeper G}.
Context `{AddressCodec} `{Hasher} `{Verifier} `{InstCodec}.
Context (authority : string).
Abbreviation St := (InstState B C I G).

(** C19: a sensitive action needs its quorum.  When [trySensitive] lets an action execute, at
    least as many distinct accounts as the effective threshold approved exactly this
    content, each an admin of the institution at this moment and each stamped with the
    current admin epoch; and the signer is one of the admins. *)
Theorem sensitive_needs_quorum inst signer ch (s s' : St) r :
  trySensitive inst signer ch s = (Ok r, s') → executed r = true →
  ∃ t signers, effectiveThreshold (is_store s') inst = Ok t ∧ NoDup signers ∧ t ≤ Z.of_nat (length signers) ∧
    Forall (approved (is_store s') inst ch) signers ∧
    ∃ a, AccAddressFromBech32 signer = Some a ∧ effectiveRole (is_store s) inst a = Ok INSTITUTION_ROLE_ADMIN.
Proof.
  intros Hr He. unfold trySensitive, read in Hr. go_inv. cbn in He. bool_prop.
  rename select (on_store _ _ = _) into Hrec. unfold on_store, recordApproval in Hrec. go_inv. cbn [is_store] in *.
  rename select (countApprovals _ _ _ = _) into Hc. apply countApprovals_quorum in Hc as (sg & Hnd & Hlen & Hall).
  eexists _, sg. split_and!; [done|done|lia|done|].
  rename select (requireRole _ _ _ _ = _) into Hq. unfold requireRole in Hq. go_cases. eexists. split; [done|].
  rename select (existsb _ _ = true) into Hx. cbn in Hx. rewrite orb_false_r in Hx. bool_prop. congruence.
Qed.

Lemma mint_gates_facts ctx i msg (s s' : St) u :
  mint_gates ctx i msg s = (Ok u, s') →
  s' = s ∧ ∃ minter role attestor p n,
    AccAddressFromBech32 (mint_Admin msg) = Some minter ∧ effectiveRole (is_store s) i minter = Ok role ∧
    (role = INSTITUTION_ROLE_OPERATOR ∨ role = INSTITUTION_ROLE_ADMIN) ∧
    LastAttestor (is_store s) (inst_Id i) = Ok (Some attestor) ∧ attestor ≠ minter ∧
    countAdmins (is_store s) i = Ok n ∧ 2 ≤ n ∧
    GetParams (is_store s) = Ok p ∧ IsStaleAt i (BlockTime ctx) (MaxAttestationStalenessSeconds p) = false ∧
    inst_Status i ≠ INSTITUTION_STATUS_FROZEN ∧ inst_PausedMint i = false.
Proof.
  intros Hr. unfold mint_gates, read in Hr. go_inv. split; [done|].
  rename select (requireMintSeparation _ _ _ = _) into Hsep. unfold requireMintSeparation in Hsep. go_cases.
  rename select (requireRole _ _ _ _ = _) into Hq. unfold requireRole in Hq. go_cases. simplify_eq.
  rename select (existsb _ _ = true) into Hx. cbn in Hx. rewrite orb_false_r in Hx. bool_prop.
  eexists _, _, _, _, _. split_and!; try done. apply orb_true_iff in Hx as [Hx|Hx]; bool_prop; auto.
Qed.
Lemma mint_amounts_proof ctx i msg (s s' : St) q :
  mint_amounts ctx i msg s = (Ok q, s') → inst_DepositPubkey i ≠ "" →
  VerifySignature Secp256r1 (inst_DepositPubkey i)
    (buildDepositMessage (inst_Id i) (mint_Recipient msg) (mint_AmountToman msg) (mint_DepositRef msg)
       (inst_InstitutionType i =? INSTITUTION_TYPE_FX) (mint_FxCurrency msg) (mint_FxAmount msg) (mint_FxTxRef msg))
    (mint_DepositProof msg) = true.
Proof.
  intros Hr Hk. unfold mint_amounts in Hr. do 2 (apply bind_Ok in Hr as (? & ? & _ & Hr)).
  apply bind_Ok in Hr as (u & s1 & [Hv _]%fail_if_Ok & _).
  destruct (Z.eqb_spec (strlen (inst_DepositPubkey i)) 0) as [Hz|_]; [|cbn in Hv; by bool_prop].
  unfold strlen in Hz. destruct (inst_DepositPubkey i); [done|]. simpl in Hz. lia.
Qed.

(** C23: a mint is authorised and four-eyed.  When a mint returns, its signer decodes to an
    account whose role is operator or admin, the institution has at least two admins, its
    latest attestation was published by somebody else and is not stale, the institution is
    neither frozen nor mint-paused, and, when a deposit key is set, the deposit proof
    verifies under it for exactly this institution, recipient, amount and reference. *)
Theorem mint_is_authorised ctx msg (s s' : St) r :
  InstitutionMint ctx msg s = (Ok r, s') →
  ∃ i minter role attestor p n,
    GetInstitution (is_store s) (mint_Institution msg) = Ok (Some i) ∧
    AccAddressFromBech32 (mint_Admin msg) = Some minter ∧ effectiveRole (is_store s) i minter = Ok role ∧
    (role = INSTITUTION_ROLE_OPERATOR ∨ role = INSTITUTION_ROLE_ADMIN) ∧
    LastAttestor (is_store s) (inst_Id i) = Ok (Some attestor) ∧ attestor ≠ minter ∧
    countAdmins (is_store s) i = Ok n ∧ 2 ≤ n ∧
    GetParams (is_store s) = Ok p ∧ IsStaleAt i (BlockTime ctx) (MaxAttestationStalenessSeconds p) = false ∧
    inst_Status i ≠ INSTITUTION_STATUS_FROZEN ∧ inst_PausedMint i = false ∧
    (inst_DepositPubkey i ≠ "" →
     VerifySignature Secp256r1 (inst_DepositPubkey i)
       (buildDepositMessage (inst_Id i) (mint_Recipient msg) (mint_AmountToman msg) (mint_DepositRef msg)
          (inst_InstitutionType i =? INSTITUTION_TYPE_FX) (mint_FxCurrency msg) (mint_FxAmount msg) (mint_FxTxRef msg))
       (mint_DepositProof msg) = true).
Proof.
  intros Hr. unfold InstitutionMint in Hr. apply bind_Ok in Hr as (i & s1 & Hi & Hr).
  apply bind_Ok in Hr as (u & s2 & Hgate & Hr). apply bind_Ok in Hr as ([[[toman uphi] nv] rcp] & s3 & Ha & _).
  assert (s1 = s ∧ GetInstitution (is_store s) (mint_Institution msg) = Ok (Some i)) as [-> Hg]
    by (unfold the_institution, read in Hi; by go_inv).
  apply mint_gates_facts in Hgate as (-> & minter & role & attestor & p & n & Hgate). pose proof (mint_amounts_proof _ _ _ _ _ _ Ha) as Hproof.
  exists i, minter, role, attestor, p, n. by split_and!; try apply Hgate.
Qed.
End rbac.

(** ** The admin epoch *)
Definition demo_key (signer : string) : MsgSetInstitutionDepositKey := mkMsgDepositKey signer "bank" "newkey".
Definition three_of_three : InstitutionParams := mkInstParams zero_caps [] (mkAutoSuspend 0) "" 3.
(** three admins, threshold three, and an action two of them approved *)
Definition demo_pending : DemoState := Eval vm_compute in
  run_script demo_ready
    [ MInstParams (mkMsgInstParams "root" "bank" three_of_three); MInstParams (mkMsgInstParams "amy" "bank" three_of_three);
      MDepositKey (demo_key "root"); MDepositKey (demo_key "amy") ].

(** Demoting an admin leaves stale approvals alive.  Three admins, threshold three, two of
    whom approved an action.  Removing the third with [RevokeInstitutionRole] invalidates the
    approvals: resubmitting the action finds one approval of the two now needed.  Removing
    them by granting a lesser role ([GrantInstitutionRole]) shrinks the admin set just the same,
    but the approvals survive and the action executes at once. *)
Theorem demotion_keeps_stale_approvals :
  let revoked := run_script demo_pending
    [MRevoke (mkMsgRevoke "root" "bank" "bob"); MRevoke (mkMsgRevoke "amy" "bank" "bob"); MRevoke (mkMsgRevoke "bob" "bank" "bob")] in
  let demoted := run_script demo_pending
    [demo_grant "root" "bob" INSTITUTION_ROLE_OPERATOR; demo_grant "amy" "bob" INSTITUTION_ROLE_OPERATOR;
     demo_grant "bob" "bob" INSTITUTION_ROLE_OPERATOR] in
  countAdmins (is_store revoked) demo_bank_record = Ok 2 ∧ countAdmins (is_store demoted) demo_bank_record = Ok 2 ∧
  fst (SetInstitutionDepositKey CoinKeeper.demo_ctx (demo_key "root") revoked) = Ok (mkSensitive false 1 2) ∧
  fst (SetInstitutionDepositKey CoinKeeper.demo_ctx (demo_key "root") demoted) = Ok (mkSensitive true 2 2).
Proof. vm_compute. auto. Qed.

Lemma sensitive_needs_quorum_witness :
  ∃ t signers, effectiveThreshold (is_store (snd (trySensitive demo_bank_record "root" "h" demo_genesis))) demo_bank_record = Ok t ∧
    t ≤ Z.of_nat (length (A:=string) signers).
Proof.
  assert (trySensitive demo_bank_record "root" "h" demo_genesis =
    (Ok (mkSensitive true 1 1), snd (trySensitive demo_bank_record "root" "h" demo_genesis))) as Hr
    by (vm_compute; reflexivity).
  destruct (sensitive_needs_quorum _ _ _ _ _ _ Hr eq_refl) as (t & sg & Ht & _ & Hle & _). eauto.
Defined.
Lemma mint_is_authorised_witness :
  ∃ n, countAdmins (is_store demo_ready) demo_bank_record = Ok n ∧ 2 ≤ n.
Proof.
  assert (InstitutionMint CoinKeeper.demo_ctx (demo_mint "d1" "500000") demo_ready = (Ok "5000000", demo_funded)) as Hr
    by (vm_compute; reflexivity).
  destruct (mint_is_authorised _ _ _ _ _ Hr) as (i & m & ro & a & p & n & Hi & _ & _ & _ & _ & _ & Hn & Hge & _).
  exists n. split; [|done]. replace demo_bank_record with i; [done|]. vm_compute in Hi. vm_compute. congruence.
Defined.
