(* ===== verification/InstLive.v ===== *)
(** * A redemption within the floor goes through

    Totality of [InstitutionRedeem]: on the vendored bank's ledger and any x/coin that
    keeps its promise, a holder with the coin, at an institution whose vault covers the
    amount, redeems up to the floor.  Nothing the institution controls (its caps, its
    status, a mint pause, a stale attestation) can prevent it. *)
From stdpp Require Import base gmap strings list fin_maps sorting.
From Stdlib Require Import ZArith Lia.
From S2P Require Import Prelude GoInt KVStore Interfaces CoinTypes CoinKeeper InstTypes InstServer InstKeeper InstSplit InstMint InstSolvency InstInvariant AppGuards InstDemo AppSolvency.

(** ** The caps

    The redemption floor is a promise of the protocol: whatever an institution sets as
    its own caps, what a holder redeems in a day up to the floor passes them.
    Conversely a mint that passes its caps is within every one of them, and the counters
    it leaves account for it. *)
Lemma AtLeastFloor_le cap floor amt :
  0 < amt ≤ floor → over_limit (AtLeastFloor cap floor) amt = false.
Proof.
  intros Ha. unfold over_limit, AtLeastFloor, IsPositive.
  destruct (Z.ltb_spec 0 cap), (Z.ltb_spec 0 floor), (Z.ltb_spec cap floor); simpl; try lia.
  all: try (destruct (Z.ltb_spec 0 floor); simpl; try lia). all: try (destruct (Z.ltb_spec 0 cap); simpl; try lia; try done).
  all: try (apply Z.ltb_ge; lia).
Qed.
Lemma check_total_room cap floor c amt e :
  0 ≤ c → 0 < amt → c + amt ≤ floor → in_range (c + amt) → check_total (AtLeastFloor cap floor) (Ok c) amt e = Ok tt.
Proof.
  intros Hc Ha Hf Hin. unfold check_total. destruct (IsPositive (AtLeastFloor cap floor)) eqn:Hp; [|done]. cbn [negb mbind outcome_bind].
  unfold Int_Add. rewrite Int_checked_in by done. cbn [mbind outcome_bind].
  pose proof (AtLeastFloor_le cap floor (c + amt) ltac:(lia)) as Ho. unfold over_limit in Ho. rewrite Hp in Ho. simpl in Ho. by rewrite Ho.
Qed.
Lemma CapInt_nonneg s : 0 ≤ CapInt s.
Proof. unfold CapInt. repeat case_match; try lia. unfold IsNegative in *. bool_prop. lia. Qed.
Lemma validated_floor `{AddressCodec} p : Params_Validate p = Ok tt → 0 < CapInt (RedeemFloorPerTx p).
Proof. unfold Params_Validate. intros Hv. go_inv. unfold IsPositive in *. bool_prop. lia. Qed.

Section floor.
Context {I : Type} `{IdentityKeeper I} `{AddressCodec}.

(** what the holder and their subject have redeemed today leaves room for the amount under
    the floor; holders without an identity share one subject *)
Definition room_today (ctx : Context) (ident : I) (st : InstStore) (i : Institution) (holder : string) (p : Params) (toman : Z) : Prop :=
  (∃ c, getCounterUser st (inst_Id i) "ru" (dayIndex ctx) holder = Ok c ∧ 0 ≤ c ∧ c + toman ≤ CapInt (RedeemFloorPerTx p)) ∧
  (let '(kind, subject) := redeemSubject ident holder in
   ∃ c, getRedeemSubjectTotal st (dayIndex ctx) kind subject = Ok c ∧ 0 ≤ c ∧
     c + toman * uphi_per_toman (PhiToToman p) ≤ CapInt (RedeemFloorPerTx p) * uphi_per_toman (PhiToToman p)).
(** no emergency schedule is in force, or the amount fits under its cap *)
Definition emergency_room (ctx : Context) (st : InstStore) (i : Institution) (holder : string) (p : Params) (toman : Z) : Prop :=
  let em := EmergencyRedemptionP p in
  em_Active em = false ∨
  match emergencyCapForElapsed em (i64 (BlockTime ctx - em_StartedAt em)) with
  | None => True
  | Some capToman => ∃ c, getCounterUser st (inst_Id i) "er" (em_StartedAt em) holder = Ok c ∧ 0 ≤ c ∧ c + toman ≤ capToman
  end.

Lemma floor_uphi p toman :
  good_rate (PhiToToman p) → CapInt (RedeemFloorPerTx p) = toman → 0 < toman → in_range (toman * UphiPerPhi) →
  RedeemFloorUphi p = Ok (toman * uphi_per_toman (PhiToToman p)) ∧
  MintedUphiForToman toman (PhiToToman p) = Ok (toman * uphi_per_toman (PhiToToman p), true).
Proof.
  intros Hg Hf Ht Hin. destruct (good_rate_k _ Hg) as [Hk Hkr]. destruct Hg as [Hr _].
  unfold RedeemFloorUphi, MintedUphiForToman. rewrite Hf. unfold IsPositive.
  destruct (Z.ltb_spec 0 toman); [|lia]. destruct (Z.eqb_spec (PhiToToman p) 0); [lia|]. cbn [negb orb].
  unfold Int_Mul. rewrite Int_checked_in by done. cbn [mbind outcome_bind]. unfold Int_Mod, Int_Quo.
  destruct (Z.eqb_spec (PhiToToman p) 0); [lia|]. cbn [mbind outcome_bind].
  rewrite Z.abs_eq by lia. rewrite <- Hkr.
  replace (toman * (uphi_per_toman (PhiToToman p) * PhiToToman p)) with
    (toman * uphi_per_toman (PhiToToman p) * PhiToToman p) by lia.
  rewrite Z.mod_mul by lia. rewrite Z.quot_div_nonneg, Z.div_mul by nia. done.
Qed.

Lemma CapInt_range s : in_range (CapInt s).
Proof.
  unfold CapInt. destruct (NewIntFromString s) as [v|] eqn:E; [apply NewIntFromString_range in E|]; repeat case_match; unfold in_range in *; lia.
Qed.
Lemma emergency_cap_range em x c : emergencyCapForElapsed em x = Some c → in_range c.
Proof.
  unfold emergencyCapForElapsed, emergencyCapOrDefault. repeat case_match; intros [= <-]; apply CapInt_range.
Qed.
Lemma check_emergency_room ctx st i holder toman p :
  GetParams st = Ok p → 0 < toman → emergency_room ctx st i holder p toman → check_emergency ctx st i holder toman = Ok tt.
Proof.
  intros Hp Ht Hem. unfold check_emergency. rewrite Hp. cbn [mbind outcome_bind].
  destruct (em_Active (EmergencyRedemptionP p)) eqn:Ha; [|done]. cbn [negb].
  destruct Hem as [?|Hem]; [congruence|]. destruct (emergencyCapForElapsed _ _) as [cap|] eqn:Ecap; [|done].
  apply emergency_cap_range in Ecap. destruct Hem as (c & -> & Hc & Hle). cbn [mbind outcome_bind].
  unfold Int_Add. rewrite Int_checked_in by (unfold in_range in *; lia). cbn [mbind outcome_bind]. by rewrite (proj2 (Z.ltb_ge _ _)) by lia.
Qed.

(** the institution's daily total may be exhausted: the reservation lets the holder through *)
Lemma check_redeem_daily_room ctx ident st i holder lim toman uphi c p :
  GetParams st = Ok p → good_rate (PhiToToman p) →
  0 < CapInt (RedeemFloorPerTx p) → in_range (CapInt (RedeemFloorPerTx p) * UphiPerPhi) →
  getCounterTotal st (inst_Id i) "rd" (dayIndex ctx) = Ok c → in_range (c + toman) →
  room_today ctx ident st i holder p toman → uphi = toman * uphi_per_toman (PhiToToman p) → 0 < uphi →
  in_range (CapInt (RedeemFloorPerTx p) * uphi_per_toman (PhiToToman p)) →
  check_redeem_daily ctx ident st i holder lim toman uphi = Ok tt.
Proof.
  intros Hp Hg Hf Hin Hc Hr [_ Hs] -> Hu Hinu. unfold check_redeem_daily.
  destruct (IsPositive lim); [|done]. cbn [negb]. rewrite Hc. cbn [mbind outcome_bind]. unfold Int_Add at 1.
  rewrite Int_checked_in by done. cbn [mbind outcome_bind]. destruct (lim <? c + toman); [|done]. cbn [negb].
  unfold withinFloorReservation. rewrite Hp. cbn [mbind outcome_bind]. unfold IsPositive at 1.
  destruct (Z.ltb_spec 0 (CapInt (RedeemFloorPerTx p))); [|lia]. cbn [negb].
  destruct (floor_uphi p _ Hg eq_refl Hf Hin) as [_ ->]. cbn [mbind outcome_bind negb orb].
  destruct (redeemSubject ident holder) as [kind subject]. destruct Hs as (t & Hs & Ht & Hle).
  unfold IsPositive. destruct (Z.ltb_spec 0 (CapInt (RedeemFloorPerTx p) * uphi_per_toman (PhiToToman p))); [|lia]. cbn [negb].
  rewrite Hs. cbn [mbind outcome_bind].
  unfold Int_Add. rewrite Int_checked_in by (unfold in_range in *; lia). cbn [mbind outcome_bind].
  by rewrite (proj2 (Z.leb_le _ _)) by lia.
Qed.

(** the caps let the floor through *)
Lemma floor_caps_pass ctx (ident : I) st i holder toman uphi p c tier :
  inst_wf st → GetParams st = Ok p → emergency_room ctx st i holder p toman → room_today ctx ident st i holder p toman →
  0 < toman ≤ CapInt (RedeemFloorPerTx p) → in_range (CapInt (RedeemFloorPerTx p) * UphiPerPhi) →
  uphi = toman * uphi_per_toman (PhiToToman p) →
  getCounterTotal st (inst_Id i) "rd" (dayIndex ctx) = Ok c → in_range (c + toman) →
  HolderKycTier st (inst_Id i) holder = Ok tier →
  enforceRedeemCaps ctx ident st i holder toman uphi = Ok tt.
Proof.
  intros Hwf Hp Hem Hfr Ht Hin -> Hc Hinc Hk.
  assert (good_rate (PhiToToman p)) as Hg.
  { pose proof (wf_rate _ Hwf) as Hg. unfold rate in Hg. by rewrite Hp in Hg. }
  destruct (good_rate_k _ Hg) as [Hkp Hkr]. assert (UphiPerPhi = 1000000) as Hu by done.
  pose proof (proj1 Hg) as Hr0. pose proof (floor_uphi p _ Hg eq_refl ltac:(lia) Hin) as [Hfu _].
  assert (uphi_per_toman (PhiToToman p) ≤ UphiPerPhi) as Hkle by nia.
  assert (in_range (CapInt (RedeemFloorPerTx p)) ∧ in_range (CapInt (RedeemFloorPerTx p) * uphi_per_toman (PhiToToman p))) as [Hint Hinu].
  { unfold in_range in *. split; nia. }
  unfold enforceRedeemCaps. rewrite Hp. cbn [mbind outcome_bind].
  rewrite AtLeastFloor_le by done. cbn [err_if mbind outcome_bind].
  rewrite (check_redeem_daily_room _ _ _ _ _ _ _ _ c p) by (done || nia). cbn [mbind outcome_bind].
  destruct Hfr as [(cu & Hru & Hcu & Hleu) Hrs]. rewrite Hru, check_total_room by (done || lia || (unfold in_range in *; lia)). cbn [mbind outcome_bind].
  unfold effectiveKycDailyLimit. rewrite Hk. cbn [mbind outcome_bind]. rewrite check_total_room by (done || lia || (unfold in_range in *; lia)).
  cbn [mbind outcome_bind]. rewrite Hfu. cbn [mbind outcome_bind].
  destruct (redeemSubject ident holder) as [kind subject]. destruct Hrs as (ct & -> & Hct & Hlet).
  rewrite check_total_room by (done || nia || (unfold in_range in *; nia)). cbn [mbind outcome_bind]. apply (check_emergency_room _ _ _ _ _ p); (done || lia).
Qed.

(** No institution can close the floor.  Under validated parameters, whatever caps,
    KYC limits, status and totals the institution has, a holder whose redemptions of the
    day leave room under the protocol's floor passes the redemption caps, as long as an
    emergency schedule in force leaves room too. *)
Theorem redeem_floor_open ctx (ident : I) st i holder toman uphi p c tier :
  inst_wf st → GetParams st = Ok p → emergency_room ctx st i holder p toman → room_today ctx ident st i holder p toman →
  0 < toman ≤ CapInt (RedeemFloorPerTx p) → in_range (CapInt (RedeemFloorPerTx p) * UphiPerPhi) →
  uphi = toman * uphi_per_toman (PhiToToman p) →
  getCounterTotal st (inst_Id i) "rd" (dayIndex ctx) = Ok c → in_range (c + toman) →
  HolderKycTier st (inst_Id i) holder = Ok tier →
  enforceRedeemCaps ctx ident st i holder toman uphi = Ok tt.
Proof.
  apply floor_caps_pass.
Qed.
End floor.

Import Ledger.

(** ** The ledger runs forward *)
Definition lock_of (b : ledger) (a : string) : Z := default 0 (locked b !! a).

Lemma sub_run a amt (b : ledger) :
  0 ≤ amt ≤ balance b a - lock_of b a → 0 ≤ lock_of b a → balance b a < 2 ^ 255 →
  subUnlockedCoins a amt b = (Ok tt, if amt =? 0 then b else setBalance a (balance b a - amt) b).
Proof.
  intros Ha Hl Hb. unfold subUnlockedCoins, lock_of in *. destruct (Z.eqb_spec amt 0) as [->|Hne]; [done|].
  do 2 (erewrite run_bind by done). unfold fail_if.
  destruct (Z.ltb_spec (balance b a - default 0 (locked b !! a)) 0); [lia|].
  destruct (Z.ltb_spec (balance b a - default 0 (locked b !! a) - amt) 0); [lia|].
  do 2 (erewrite run_bind by done). unfold Int_Sub. rewrite Int_checked_in by (unfold in_range; lia). done.
Qed.
Lemma add_run a amt (b : ledger) :
  in_range (balance b a + amt) →
  addCoins a amt b = (Ok tt, if amt =? 0 then b else setBalance a (balance b a + amt) b).
Proof.
  intros Hin. unfold addCoins. destruct (Z.eqb_spec amt 0) as [->|Hne]; [done|].
  erewrite run_bind by done. unfold Int_Add. by rewrite Int_checked_in.
Qed.
Lemma send_run f t amt (b : ledger) :
  0 ≤ amt ≤ balance b f - lock_of b f → 0 ≤ lock_of b f → balance b f < 2 ^ 254 → 0 ≤ balance b t < 2 ^ 254 →
  ∃ b', SendCoins f t amt b = (Ok tt, b') ∧ locked b' = locked b ∧ burners b' = burners b.
Proof.
  intros Ha Hl Hf Ht. cbn. unfold sendCoins. erewrite run_bind by (apply sub_run; lia).
  rewrite add_run; [destruct (amt =? 0); eauto|].
  destruct (Z.eqb_spec amt 0); [subst; unfold in_range; lia|]. rewrite balance_setBalance.
  unfold in_range. case_bool_decide; subst; lia.
Qed.
Lemma burn_run m amt (b : ledger) :
  m ∈ burners b → 0 < amt ≤ balance b (moduleAddress m) - lock_of b (moduleAddress m) →
  0 ≤ lock_of b (moduleAddress m) → balance b (moduleAddress m) < 2 ^ 255 → amt ≤ supply b < 2 ^ 255 →
  ∃ b', BurnCoins m amt b = (Ok tt, b').
Proof.
  intros Hm Ha Hl Hb Hs. cbn. unfold burnCoins. erewrite run_bind by done.
  rewrite bool_decide_eq_true_2 by done. erewrite run_bind by done.
  erewrite run_bind by (apply sub_run; lia). destruct (Z.eqb_spec amt 0); [lia|].
  erewrite run_bind by done. cbn [supply setBalance]. unfold Int_Sub. rewrite Int_checked_in by (unfold in_range; lia).
  erewrite run_bind by done. destruct (Z.ltb_spec (supply b - amt) 0); [lia|].
  erewrite run_bind by done. by eexists.
Qed.

(** what the ledger must hold for a redemption of [uphi] *)
Record redeem_funds (b : ledger) (holder : string) (uphi : Z) : Prop := {
  rf_holder : uphi ≤ balance b holder - lock_of b holder ∧ 0 ≤ lock_of b holder ∧ balance b holder < 2 ^ 250;
  rf_module : lock_of b (moduleAddress InstModuleName) = 0 ∧ 0 ≤ balance b (moduleAddress InstModuleName) < 2 ^ 250;
  rf_revenue : 0 ≤ balance b (moduleAddress RevenueAccountName) < 2 ^ 250;
  rf_burner : InstModuleName ∈ burners b;
  rf_other : holder ≠ moduleAddress InstModuleName;
  rf_supply : uphi ≤ supply b < 2 ^ 250;
}.

Section live.
Context {C I G : Type} `{CoinKeeperLaws C} `{IdentityKeeper I} `{GovKeeper G}.
Context `{AddressCodec} `{Hasher} `{Verifier} `{InstCodec}.
Abbreviation St := (InstState ledger C I G).
Implicit Types s : St.

Lemma on_bank_run {A} (m : M ledger A) s a b' :
  m (is_bank s) = (Ok a, b') →
  on_bank m s = (Ok a, mkInstState b' (is_coin s) (is_ident s) (is_gov s) (is_store s) (is_events s)).
Proof. intros Hm. unfold on_bank, zoom. by rewrite Hm. Qed.

Lemma redeem_coins_run holder uphi r split s :
  redeem_funds (is_bank s) holder uphi → split_ok uphi r split →
  ∃ s', redeem_coins holder uphi split s = (Ok tt, s') ∧ is_store s' = is_store s ∧ is_ident s' = is_ident s.
Proof.
  intros [(Hh & Hl & Hhb) (Hml & Hmb) Hrb Hbu Hne Hsup] [_ _ [Hc Hc0] Hb _ _].
  cut (∃ s', redeem_coins holder uphi split s = (Ok tt, s')).
  { intros [s' Hr]. exists s'. split; [done|]. apply redeem_coins_supply in Hr. apply Hr. }
  unfold redeem_coins, CoinsOf. destruct (Z.ltb_spec uphi 0); [lia|]. erewrite run_bind by done.
  destruct (send_run holder (moduleAddress InstModuleName) uphi (is_bank s)) as (b1 & Hs1 & Hl1 & Hbu1); [lia..|].
  erewrite run_bind by (apply on_bank_run; exact Hs1). apply send_law in Hs1 as [Hsup1 Hbal1]; [|lia].
  cbn [GetBalance GetSupply ledger_bank] in *.
  pose proof (Hbal1 (moduleAddress InstModuleName)) as Hm1. unfold delta in Hm1.
  rewrite bool_decide_eq_false_2, bool_decide_eq_true_2 in Hm1 by done.
  pose proof (Hbal1 (moduleAddress RevenueAccountName)) as Hr1. unfold delta in Hr1.
  rewrite (bool_decide_eq_false_2 (moduleAddress RevenueAccountName = moduleAddress InstModuleName)) in Hr1 by done.
  assert (0 ≤ balance b1 (moduleAddress RevenueAccountName) < 2 ^ 251) as Hrb1 by (case_bool_decide; subst; lia).
  assert (lock_of b1 (moduleAddress InstModuleName) = 0) as Hlk1 by (unfold lock_of in *; by rewrite Hl1).
  set (s1 := mkInstState b1 (is_coin s) (is_ident s) (is_gov s) (is_store s) (is_events s)).
  assert (∃ s2, (if IsPositive (Carved split) then
     c2 ← lift (CoinsOf (Carved split)); on_bank (SendCoinsFromModuleToModule InstModuleName RevenueAccountName c2)
   else mret tt) s1 = (Ok tt, s2) ∧ supply (is_bank s2) = supply b1 ∧ burners (is_bank s2) = burners b1 ∧
     lock_of (is_bank s2) (moduleAddress InstModuleName) = 0 ∧
     balance (is_bank s2) (moduleAddress InstModuleName) = balance b1 (moduleAddress InstModuleName) - Carved split) as (s2 & Hr2 & Hs2 & Hbu2 & Hlk2 & Hm2).
  { unfold IsPositive. destruct (Z.ltb_spec 0 (Carved split)); [|exists s1; split_and!; try done; cbn; lia].
    unfold CoinsOf. destruct (Z.ltb_spec (Carved split) 0); [lia|]. erewrite run_bind by done.
    destruct (send_run (moduleAddress InstModuleName) (moduleAddress RevenueAccountName) (Carved split) b1)
      as (b2 & Hsd & Hl2 & Hbu2); [lia..|].
    eexists. split; [by apply on_bank_run|]. cbn [is_bank]. apply send_law in Hsd as [Hsup2 Hbal2]; [|lia].
    cbn [GetBalance GetSupply ledger_bank] in *. pose proof (Hbal2 (moduleAddress InstModuleName)) as Hm2. unfold delta in Hm2.
    rewrite bool_decide_eq_true_2, bool_decide_eq_false_2 in Hm2 by done.
    split_and!; [done|done|unfold lock_of in *; by rewrite Hl2|lia]. }
  erewrite run_bind by exact Hr2. destruct (Z.ltb_spec (Burned split) 0); [lia|]. erewrite run_bind by done.
  destruct (burn_run InstModuleName (Burned split) (is_bank s2)) as [b3 Hb3]; [congruence|lia..|].
  eexists. by apply on_bank_run.
Qed.

(** ** The decomposition *)
Lemma ProtocolFee_run p uphi :
  Params_Validate p = Ok tt → 0 ≤ ProtocolFeeBps p → 0 ≤ uphi < 2 ^ 190 →
  ∃ fee, ProtocolFee p uphi = Ok fee ∧ 0 ≤ fee < 2 ^ 255.
Proof.
  intros Hv Hb Hu. assert (ProtocolFeeBps p ≤ MaxProtocolFeeBps) as Hm.
  { unfold Params_Validate in Hv. go_inv. bool_prop. lia. }
  unfold MaxProtocolFeeBps in Hm. unfold ProtocolFee. destruct (Z.eqb_spec (ProtocolFeeBps p) 0); [exists 0; split; [done|lia]|].
  unfold Int_Mul. rewrite Int_checked_in by (unfold in_range; nia). cbn [mbind outcome_bind]. unfold Int_Quo.
  assert (BpsDenominator = 10000) as -> by done. simpl. eexists. split; [done|].
  rewrite Z.quot_div_nonneg by nia. split; [apply Z.div_pos; nia|]. apply Z.div_lt_upper_bound; nia.
Qed.

Lemma redeem_split_run ctx msg toman s :
  inst_wf (is_store s) → coin_ok ctx (is_coin s) → 0 < toman →
  toman * uphi_per_toman (rate (is_store s)) < 2 ^ 190 →
  ∃ split s', redeem_split ctx msg (toman * uphi_per_toman (rate (is_store s))) (rate (is_store s)) s = (Ok split, s') ∧
    is_bank s' = is_bank s ∧ is_store s' = is_store s ∧ is_ident s' = is_ident s ∧
    split_ok (toman * uphi_per_toman (rate (is_store s))) (rate (is_store s)) split.
Proof.
  intros Hwf Hco Ht Hu. pose proof (wf_rate _ Hwf) as Hg. destruct (good_rate_k _ Hg) as [Hk _].
  destruct (iw_params _ Hwf) as (p & Hp & Hv & _ & Hbps).
  set (r := rate (is_store s)) in *. set (u := toman * uphi_per_toman r) in *.
  assert (uphi_per_toman r ≤ u) as Hku by nia.
  destruct (penalty_law ctx (red_Holder msg) u (is_coin s) Hco ltac:(nia)) as (pen & c' & Hpen & _ & Hp0 & Hp9).
  destruct (ProtocolFee_run p u Hv ltac:(lia) ltac:(nia)) as (fee & Hfee & Hf).
  destruct (ComputeRedeemSplit_run u fee pen r Hg ltac:(lia) Hf ltac:(lia)) as (split & Hsp & Hok).
  eexists split, _. unfold redeem_split, on_coin, zoom, read. cbn [is_coin].
  erewrite run_bind by by rewrite Hpen. unfold IsNegative. destruct (Z.ltb_spec pen 0); [lia|].
  rewrite UphiPerToman_Ok by done. erewrite run_bind by done. destruct (Z.ltb_spec u (uphi_per_toman r)); [lia|].
  erewrite run_bind by done. erewrite run_bind by by unfold query; cbn [is_store]; rewrite Hp.
  rewrite Hfee. erewrite run_bind by done. rewrite Hsp. erewrite run_bind by done.
  pose proof (so_burned _ _ _ Hok). unfold IsPositive. destruct (Z.ltb_spec 0 (Burned split)); [|lia].
  erewrite run_bind by done. split_and!; done.
Qed.

(** ** The records *)
Lemma add_counter_run k amt st c :
  get_counter st k = Ok c → in_range (c + amt) →
  add_counter k amt st = (Ok tt, <[k := VBytes (Int_String (c + amt))]> st).
Proof.
  intros Hc Hin. unfold add_counter. erewrite run_bind by by unfold query; rewrite Hc.
  unfold Int_Add. rewrite Int_checked_in by done. by erewrite run_bind.
Qed.
Lemma get_counter_other st k k' v : k' ≠ k → get_counter (<[k' := v]> st) k = get_counter st k.
Proof. intros Hk. unfold get_counter, raw. by rewrite lookup_insert_ne. Qed.
Lemma rd_not_ru id d a : CounterTotalKey id "rd" d ≠ CounterUserKey id "ru" d a.
Proof.
  unfold CounterUserKey, CounterTotalKey. rewrite !str_app_assoc. intros He.
  by do 2 apply str_app_inj_l in He.
Qed.
Lemma rd_not_er id d d' a : CounterTotalKey id "rd" d ≠ CounterUserKey id "er" d' a.
Proof. unfold CounterUserKey, CounterTotalKey. rewrite !str_app_assoc. intros He. by do 2 apply str_app_inj_l in He. Qed.
Lemma ru_not_er id d d' a : CounterUserKey id "ru" d a ≠ CounterUserKey id "er" d' a.
Proof. unfold CounterUserKey, CounterTotalKey. rewrite !str_app_assoc. intros He. by do 2 apply str_app_inj_l in He. Qed.
Lemma addRedeemCounters_run ctx ident i holder toman uphi st p c :
  GetParams st = Ok p → emergency_room ctx st i holder p toman → room_today ctx ident st i holder p toman →
  getCounterTotal st (inst_Id i) "rd" (dayIndex ctx) = Ok c → in_range (c + toman) → 0 < toman →
  uphi = toman * uphi_per_toman (PhiToToman p) → 0 < uphi → in_range (CapInt (RedeemFloorPerTx p) * uphi_per_toman (PhiToToman p)) →
  ∃ st', addRedeemCounters ctx ident i holder toman uphi st = (Ok tt, st').
Proof.
  intros Hp Hem [(cu & Hru & Hcu & Hleu) Hrs] Hc Hin Ht -> Hu Hinu. pose proof (CapInt_range (RedeemFloorPerTx p)) as Hfl. unfold in_range in Hfl, Hinu.
  unfold addRedeemCounters, addCounterTotal, addCounterUser, addRedeemSubjectTotal.
  unfold getCounterTotal, getCounterUser, getRedeemSubjectTotal, emergency_room, getCounterUser in *.
  erewrite run_bind by by apply add_counter_run.
  erewrite run_bind by (apply (add_counter_run _ _ _ cu); [by rewrite get_counter_other by apply rd_not_ru|unfold in_range; lia]).
  destruct (redeemSubject ident holder) as [kind subject]. destruct Hrs as (ct & Hrs & Hct & Hlet).
  erewrite run_bind by (apply (add_counter_run _ _ _ ct); [by rewrite !get_counter_other by done|unfold in_range; lia]).
  erewrite run_bind. 2: { unfold query, GetParams. rewrite !lookup_insert_ne by done. fold (GetParams st). by rewrite Hp. }
  destruct (em_Active (EmergencyRedemptionP p)) eqn:Ha; [|by eexists]. cbn [negb].
  destruct Hem as [?|Hem]; [congruence|]. destruct (emergencyCapForElapsed _ _) as [cap|] eqn:Ecap; [|by eexists].
  apply emergency_cap_range in Ecap. destruct Hem as (ce & He & Hce & Hlee). eexists. apply (add_counter_run _ _ _ ce).
  - rewrite !get_counter_other; [done|apply rd_not_er|apply ru_not_er|done].
  - unfold in_range in *. lia.
Qed.

Lemma on_store_run {A} (m : M InstStore A) s a st' :
  m (is_store s) = (Ok a, st') →
  on_store m s = (Ok a, mkInstState (is_bank s) (is_coin s) (is_ident s) (is_gov s) st' (is_events s)).
Proof. intros Hm. unfold on_store, zoom. by rewrite Hm. Qed.
Lemma emit_if_run (c : bool) u st' amt s :
  ∃ s', (if c then emitRevenue u st' amt else mret tt) s = (Ok tt, s') ∧ is_bank s' = is_bank s ∧
    is_store s' = is_store s ∧ is_ident s' = is_ident s.
Proof. destruct c; [|by exists s]. eexists. split; [done|]. done. Qed.

Lemma redeem_records_run ctx i msg holder toman uphi r split s p c :
  GetParams (is_store s) = Ok p → emergency_room ctx (is_store s) i holder p toman → room_today ctx (is_ident s) (is_store s) i holder p toman →
  getCounterTotal (is_store s) (inst_Id i) "rd" (dayIndex ctx) = Ok c → in_range (c + toman) → 0 < toman →
  uphi = toman * uphi_per_toman (PhiToToman p) → in_range (CapInt (RedeemFloorPerTx p) * uphi_per_toman (PhiToToman p)) →
  0 ≤ TomanOut split ≤ mustInt (inst_VaultBalance i) → in_range (mustInt (inst_VaultBalance i)) → uphi < 2 ^ 190 →
  split_ok uphi r split → good_rate r →
  ∃ s', redeem_records ctx i msg holder toman uphi split s = (Ok tt, s').
Proof.
  intros Hp Hem Hfr Hc Hin Hint Eu Hfl Hto Hv Hu Hok Hg. destruct (good_rate_k _ Hg) as [Hk _].
  pose proof (so_parts _ _ _ Hok). pose proof (so_nonneg _ _ _ Hok). pose proof (so_burned _ _ _ Hok).
  unfold redeem_records. unfold Int_Sub. rewrite Int_checked_in by (unfold in_range in *; lia).
  erewrite run_bind by done. erewrite run_bind by by apply on_store_run.
  set (i' := with_vault i _). set (s1 := mkInstState _ _ _ _ _ _).
  destruct (emit_if_run (IsPositive (SplitFee split)) MsgInstitutionRedeemURL StreamProtocol (SplitFee split) s1)
    as (s2 & Hr2 & _ & Hst2 & Hid2). erewrite run_bind by exact Hr2.
  unfold Int_Add. rewrite Int_checked_in by (unfold in_range; lia). erewrite run_bind by done.
  destruct (emit_if_run (IsPositive (Penalty split + Dust split)) MsgInstitutionRedeemURL StreamPenalty
    (Penalty split + Dust split) s2) as (s3 & Hr3 & _ & Hst3 & Hid3). erewrite run_bind by exact Hr3.
  erewrite run_bind by done.
  destruct (addRedeemCounters_run ctx (is_ident s3) i holder toman uphi (is_store s3) p c) as [st4 Hcnt].
  - rewrite Hst3, Hst2. cbn. unfold GetParams. by rewrite lookup_insert_ne.
  - rewrite Hst3, Hst2. cbn. unfold emergency_room, getCounterUser in *. by rewrite get_counter_other by done.
  - rewrite Hst3, Hst2, Hid3, Hid2. cbn. unfold room_today, getCounterUser, getRedeemSubjectTotal in *.
    destruct (redeemSubject (is_ident s) holder). by rewrite !get_counter_other by done.
  - rewrite Hst3, Hst2. cbn. unfold getCounterTotal. by rewrite get_counter_other by done.
  - done.
  - done.
  - done.
  - lia.
  - done.
  - erewrite run_bind by (apply on_store_run; exact Hcnt). eexists. by apply on_store_run.
Qed.

(** ** The whole handler *)

(** a redemption by the holder that keeps the holder's redemptions of the day, at the
    institution and as a subject, within the floor, under a fresh reference and with valid
    metadata, at an institution whose vault covers it; nothing is asked of the institution's
    caps, status or attestation *)
Record floor_request (ctx : Context) (msg : MsgInstitutionRedeem) s (i : Institution) (holder : string) (toman : Z) : Prop := {
  fr_inst : inst_at (is_store s) i ∧ inst_Id i = red_Institution msg;
  fr_signer : red_Admin msg = red_Holder msg ∧ AccAddressFromBech32 (red_Holder msg) = Some holder;
  fr_meta : validateFxMetadata (inst_InstitutionType i) (red_FxCurrency msg) (red_FxAmount msg) (red_FxTxRef msg) = Ok tt;
  fr_ref : red_RedeemRef msg ≠ "" ∧ depositSeen (is_store s) (inst_Id i) "redeem" (red_RedeemRef msg) = false;
  fr_amount : NewIntFromString (red_AmountToman msg) = Some toman;
  fr_vault : 0 < toman ≤ mustInt (inst_VaultBalance i);
  fr_floor : ∃ p, GetParams (is_store s) = Ok p ∧ toman ≤ CapInt (RedeemFloorPerTx p) ∧
    in_range (CapInt (RedeemFloorPerTx p) * UphiPerPhi) ∧ emergency_room ctx (is_store s) i holder p toman ∧
    room_today ctx (is_ident s) (is_store s) i holder p toman;
  fr_counter : ∃ c, getCounterTotal (is_store s) (inst_Id i) "rd" (dayIndex ctx) = Ok c ∧ in_range (c + toman);
  fr_tier : ∃ tier, HolderKycTier (is_store s) (inst_Id i) holder = Ok tier;
  fr_funds : redeem_funds (is_bank s) holder (toman * uphi_per_toman (rate (is_store s)));
  fr_bound : toman * uphi_per_toman (rate (is_store s)) < 2 ^ 190;
}.

Lemma MintedUphi_run toman r :
  good_rate r → 0 < toman → in_range (toman * UphiPerPhi) →
  MintedUphiForToman toman r = Ok (toman * uphi_per_toman r, true).
Proof.
  intros Hg Ht Hin. destruct (good_rate_k _ Hg) as [Hk Hkr]. destruct Hg as [Hr _].
  unfold MintedUphiForToman, Int_Mul. rewrite Int_checked_in by done. cbn [mbind outcome_bind]. unfold Int_Mod, Int_Quo.
  destruct (Z.eqb_spec r 0); [lia|]. cbn [mbind outcome_bind]. rewrite Z.abs_eq by lia. rewrite <- Hkr.
  replace (toman * (uphi_per_toman r * r)) with (toman * uphi_per_toman r * r) by lia.
  rewrite Z.mod_mul by lia. rewrite Z.quot_div_nonneg, Z.div_mul by nia. done.
Qed.

Lemma redeem_amounts_run ctx msg s i holder toman :
  inst_wf (is_store s) → floor_request ctx msg s i holder toman →
  redeem_amounts ctx i msg s =
    (Ok (toman, toman * uphi_per_toman (rate (is_store s)), rate (is_store s), holder), s).
Proof.
  intros Hwf [_ [Hadm Hh] Hm [Href Hns] Hp Hv (p & Hg & Hfl & Hfin & Hem & Hfr) (c & Hc & Hin) (tier & Hk) _ _].
  pose proof (wf_rate _ Hwf) as Hgr. assert (rate (is_store s) = PhiToToman p) as Hrate by (unfold rate; by rewrite Hg).
  rewrite Hrate in *. destruct (good_rate_k _ Hgr) as [Hkp _].
  assert (in_range (toman * UphiPerPhi)) as Hint by (unfold in_range, UphiPerPhi in *; nia).
  unfold redeem_amounts, read. rewrite (bool_decide_eq_true_2 (red_Admin msg = red_Holder msg)) by done. erewrite run_bind by done.
  rewrite Hm. erewrite run_bind by done. rewrite (bool_decide_eq_false_2 (red_RedeemRef msg = "")) by done. erewrite run_bind by done.
  erewrite run_bind by done. rewrite Hns. erewrite run_bind by done. rewrite Hp. erewrite run_bind by done.
  unfold IsPositive. rewrite (proj2 (Z.ltb_lt 0 toman)) by lia. erewrite run_bind by done.
  rewrite (proj2 (Z.ltb_ge (mustInt (inst_VaultBalance i)) toman)) by lia. erewrite run_bind by done.
  erewrite run_bind by by unfold query; rewrite Hg. rewrite (MintedUphi_run toman _ Hgr) by (lia || done).
  erewrite run_bind by done. cbn [negb orb]. rewrite (proj2 (Z.ltb_lt 0 _)) by nia. erewrite run_bind by done.
  rewrite Hh. erewrite run_bind by done. erewrite run_bind by done.
  erewrite run_bind; [done|]. unfold query. f_equal. apply (floor_caps_pass _ _ _ _ _ _ _ p c tier); (done || lia).
Qed.

Lemma the_institution_run s i id :
  inst_at (is_store s) i → inst_Id i = id → the_institution id s = (Ok i, s).
Proof.
  intros Hi <-. unfold the_institution, read, GetInstitution. unfold inst_at in Hi.
  erewrite run_bind by by unfold query; rewrite Hi. done.
Qed.

(** C4: the floor is live.  Let the state be solvent with a supply below 2^190, and let a
    holder ask for a redemption that keeps what they redeemed at the institution today, and
    what their identity redeemed at all institutions today (all holders without an identity
    count as one), within the protocol's floor, and within the cap of an emergency schedule
    if one is in force.  If the reference is fresh, the metadata valid, the holder's spendable
    balance and the institution's vault cover the amount, and no sum leaves the range of the
    integers, the redemption returns and leaves a solvent state.  Nothing is asked of the
    institution's own caps and limits, of its daily total, of its status (frozen or not), of
    a mint pause or of the age of its attestation. *)
Theorem redeem_floor_live ctx msg s i holder toman :
  solvent_state s → GetSupply (is_bank s) < 2 ^ 190 → coin_ok ctx (is_coin s) →
  floor_request ctx msg s i holder toman →
  ∃ r s', InstitutionRedeem ctx msg s = (Ok r, s') ∧ solvent_state s'.
Proof.
  intros Hs Hsup Hco Hreq. pose proof (proj1 Hs) as Hwf. pose proof (wf_rate _ Hwf) as Hg.
  pose proof (redeem_amounts_run _ _ _ _ _ _ Hwf Hreq) as Ha.
  pose proof Ha as (_ & _ & Ht & _ & Hm & _)%redeem_amounts_facts.
  destruct Hreq as [[Hi Hid] _ _ _ _ Hv (p & Hp & Hfl & Hfin & Hem & Hfr) (c & Hc & Hin) _ Hfunds Hb].
  destruct (redeem_split_run ctx msg toman s Hwf Hco ltac:(lia) Hb) as (split & s1 & Hsp & Hb1 & Hst1 & Hid1 & Hok).
  set (u := toman * uphi_per_toman (rate (is_store s))) in *.
  destruct (redeem_coins_run holder u (rate (is_store s)) split s1) as (s2 & Hco2 & Hst2 & Hid2); [by rewrite Hb1|done|].
  destruct (inst_at_vault _ _ Hwf Hi) as (z & Hz & Hz0 & Hvz). apply NewIntFromString_range in Hz.
  destruct (good_rate_k _ Hg) as [Hk _]. pose proof (so_toman _ _ _ Hok) as Hto. pose proof (so_burned _ _ _ Hok) as Hbu.
  destruct (redeem_records_run ctx i msg holder toman u (rate (is_store s)) split s2 p c) as [s3 Hrec].
  all: rewrite ?Hst2, ?Hst1, ?Hid2, ?Hid1; try done; try lia.
  { unfold u, rate. by rewrite Hp. }
  { unfold rate in Hg, Hk. rewrite Hp in Hg, Hk. destruct (good_rate_k _ Hg) as [_ Hkr]. pose proof (proj1 Hg).
    assert (uphi_per_toman (PhiToToman p) ≤ UphiPerPhi) by (unfold UphiPerPhi in *; nia). unfold in_range, UphiPerPhi in *. nia. }
  { unfold u in Hbu. nia. }
  { by rewrite Hvz. }
  assert (solvent_state s1) as Hs1 by (unfold solvent_state; by rewrite Hb1, Hst1).
  eapply redeem_balanced in Hrec as Hbal; [|exact Hs1|rewrite ?Hst1; done..|rewrite Hst1; exact Hok|exact Hco2].
  destruct Hbal as (Hs3 & Hsup3 & _ & _ & _). unfold InstitutionRedeem.
  erewrite run_bind by by apply the_institution_run. erewrite run_bind by exact Ha. cbn beta iota.
  erewrite run_bind by exact Hsp. erewrite run_bind by exact Hco2. erewrite run_bind by exact Hrec.
  erewrite run_bind.
  2: { apply assertSolvency_solvent; [done|]. split; [by apply solvent_supply_nonneg|]. rewrite Hsup3, Hb1. lia. }
  eexists _, _. split; [done|]. apply Hs3.
Qed.
End live.

Lemma demo_coin_ok : coin_ok CoinKeeper.demo_ctx (is_coin demo_funded).
Proof.
  assert (is_coin demo_funded = {[CoinKeeper.CoinAgeKey "alice" := CoinKeeper.VCoinAge
    (mkCoinAge "alice" [mkLot "4990000" 1700000000])]}) as -> by (vm_compute; reflexivity).
  split; [constructor|split].
  - eexists. split; [by vm_compute|apply CoinKeeper.default_params_ok].
  - intros k v Hk _. apply lookup_singleton_Some in Hk as [<- <-].
    eexists. split_and!; [done..|]. split_and!; repeat constructor; simpl; lia.
  - by unfold CoinAge.sane_time; simpl.
  - intros p Hp. vm_compute in Hp. injection Hp as <-. by vm_compute.
Qed.
Definition demo_bank_inst : Institution :=
  Eval vm_compute in match GetInstitution (is_store demo_funded) "bank" with Ok (Some i) => i | _ => mkInstitution "" "" "" "" "" "" 0 "" "" false zero_app_config zero_inst_params 0 "" 0 end.
Lemma redeem_floor_open_witness :
  enforceRedeemCaps CoinKeeper.demo_ctx tt (is_store demo_funded) demo_bank_inst "alice" 100000 1000000 = Ok tt.
Proof.
  refine (redeem_floor_open CoinKeeper.demo_ctx tt (is_store demo_funded) demo_bank_inst "alice" 100000 1000000
    DefaultParams 0 None _ _ _ _ _ _ _ _ _ _).
  1: apply demo_reachable_solvent, demo_funded_reachable.
  all: try (vm_compute; reflexivity).
  - by left.
  - split; exists 0; (split; [vm_compute; reflexivity|split; vm_compute; discriminate]).
  - vm_compute. split; [reflexivity|discriminate].
Defined.
Lemma redeem_floor_live_witness :
  ∃ r s', InstitutionRedeem CoinKeeper.demo_ctx (demo_redeem "r1" "100000") demo_funded = (Ok r, s') ∧ solvent_state s'.
Proof.
  refine (redeem_floor_live CoinKeeper.demo_ctx (demo_redeem "r1" "100000") demo_funded demo_bank_inst "alice" 100000 _ _ _ _).
  - apply demo_reachable_solvent, demo_funded_reachable.
  - by vm_compute.
  - apply demo_coin_ok.
  - constructor.
    + by split; vm_compute.
    + by split; vm_compute.
    + by vm_compute.
    + split; [done|by vm_compute].
    + by vm_compute.
    + by vm_compute.
    + exists DefaultParams. split_and!; [by vm_compute|by vm_compute|by vm_compute|by left|].
      split; exists 0; (split; [vm_compute; reflexivity|split; vm_compute; discriminate]).
    + exists 0. by split; vm_compute.
    + exists None. by vm_compute.
    + constructor; try (by vm_compute); split_and!; by vm_compute.
    + by vm_compute.
Defined.
