(* ===== verification/InstGenesis.v ===== *)
(** * x/institutions: genesis

    [x/institutions/types/genesis.go] and [x/institutions/keeper/genesis.go]: validation of
    a genesis, its import and the export of a store.  The registry, the role grants and the
    onboarding requests are exported as records, everything else verbatim as raw entries;
    the removal queue and the pruning cursor are not exported, and neither are the records
    of institutions whose removal is pending. *)
From stdpp Require Import base gmap strings list fin_maps sorting.
From Stdlib Require Import ZArith Lia.
From S2P Require Import Prelude GoInt KVStore StoreEntry Interfaces CoinTypes InstTypes InstServer InstKeeper InstSplit InstMint InstSolvency InstInvariant InstSweep.

Record InstGenesisState := mkInstGenesis {
  ig_Params : Params; ig_Institutions : list Institution; ig_RoleGrants : list RoleGrant;
  ig_FxRequests : list FxEntryRequest; ig_DepositMarkers : list KV; ig_CapCounters : list KV;
  ig_Approvals : list KV; ig_StoreEntries : list KV }.
Definition DefaultInstGenesis : InstGenesisState := mkInstGenesis DefaultParams [] [] [] [] [] [] [].

(** ** Validation *)
Definition genesisTimestamps (gs : InstGenesisState) : list Z :=
  em_StartedAt (EmergencyRedemptionP (ig_Params gs)) :: map inst_LastAttestedAt (ig_Institutions gs).

Definition validateDepositMarkerValue (v : string) : outcome unit :=
  err_if (negb (bool_decide (v = DepositMarkerByte))) (Plain "value is not the deposit marker sentinel").
Definition validateCapCounterValue (v : string) : outcome unit :=
  amt ← or_err (NewIntFromString v) (Plain "value is not a decimal integer counter");
  err_if (IsNegative amt) (Plain "value is a negative counter").
Definition validateApprovalValue (v : string) : outcome unit :=
  err_if (negb (strlen v =? 8)) (Plain "value is not an 8-byte approval epoch").
(** [sdk.VerifyAddressFormat] *)
Definition validateAttestorValue (v : string) : outcome unit :=
  err_if ((strlen v =? 0) || (255 <? strlen v)) (Plain "value is not an account address").
Definition deposit_rules : list Rule := [mkRule "deposit marker" DepositPrefix (Some validateDepositMarkerValue)].
Definition counter_rules : list Rule := [mkRule "cap counter" CounterPrefix (Some validateCapCounterValue)].
Definition approval_rules : list Rule := [mkRule "approval epoch" ApprovalPrefix (Some validateApprovalValue)].
Definition residualRules : list Rule :=
  [mkRule "admin-set epoch" AdminEpochPrefix (Some (FixedLen 8));
   mkRule "holder KYC tier" HolderKycTierPrefix (Some (FixedLen 4));
   mkRule "last attestor" LastAttestorPrefix (Some validateAttestorValue);
   mkRule "redeem-subject counter" RedeemSubjectPrefix (Some validateCapCounterValue)].

Section validate.
Context `{AddressCodec}.

(** the checks of one institution, before and after its id is recorded *)
Definition check_institution (floor : Z) (inst : Institution) : outcome unit :=
  err_if (negb (is_bech32 (inst_Admin inst))) (Plain "invalid admin address");;
  err_if (negb (inst_InstitutionType inst =? INSTITUTION_TYPE_FINANCIAL) &&
          negb (inst_InstitutionType inst =? INSTITUTION_TYPE_FX)) (Plain "invalid institution_type");;
  vb ← or_err (NewIntFromString (inst_VaultBalance inst)) (Plain "invalid vault_balance");
  err_if (IsNegative vb) (Plain "negative vault_balance");;
  ar ← or_err (NewIntFromString (inst_AttestedReserve inst)) (Plain "invalid attested_reserve");
  err_if (IsNegative ar) (Plain "invalid attested_reserve");;
  InstitutionParams_Validate (inst_Params inst);;
  match RedeemCapsBelowFloor (inst_Params inst) floor with
  | Some _ => Err (Plain "institution cap is below the protocol redeem floor")
  | None => Ok tt
  end.
Fixpoint validate_institutions (floor : Z) (seen : gset string) (l : list Institution) : outcome (gset string) :=
  match l with
  | [] => Ok seen
  | inst :: l' =>
      err_if (bool_decide (inst_Id inst = "")) (Plain "institution with empty id");;
      err_if (MaxInstitutionIDLen <? strlen (inst_Id inst)) (Plain "institution id length");;
      err_if (bool_decide (inst_Id inst ∈ seen)) (Plain "duplicate institution id");;
      check_institution floor inst;;
      validate_institutions floor ({[inst_Id inst]} ∪ seen) l'
  end.

Definition dedupKey (rg : RoleGrant) : string := rg_Institution rg +:+ NUL +:+ rg_Address rg.
Fixpoint validate_roles (seen roleSeen : gset string) (l : list RoleGrant) : outcome unit :=
  match l with
  | [] => Ok tt
  | rg :: l' =>
      err_if (negb (bool_decide (rg_Institution rg ∈ seen))) (Plain "role_grant: unknown institution");;
      err_if (negb (is_bech32 (rg_Address rg))) (Plain "role_grant: invalid address");;
      err_if ((rg_Role rg <=? INSTITUTION_ROLE_UNSPECIFIED) || (INSTITUTION_ROLE_VIEWER <? rg_Role rg))
        (Plain "role_grant: invalid role");;
      err_if (bool_decide (dedupKey rg ∈ roleSeen)) (Plain "role_grant: duplicate grant");;
      validate_roles seen ({[dedupKey rg]} ∪ roleSeen) l'
  end.

Fixpoint validate_fx (seen fxSeen : gset string) (l : list FxEntryRequest) : outcome unit :=
  match l with
  | [] => Ok tt
  | req :: l' =>
      err_if (bool_decide (fx_FxId req = "")) (Plain "fx_request: empty fx_id");;
      err_if (MaxInstitutionIDLen <? strlen (fx_FxId req)) (Plain "fx_request: fx_id length");;
      err_if (bool_decide (fx_FxId req ∈ fxSeen)) (Plain "fx_request: duplicate fx_id");;
      err_if (bool_decide (fx_FxId req ∈ seen)) (Plain "fx_request: fx_id is already a registered institution");;
      err_if (negb (is_bech32 (fx_Applicant req))) (Plain "fx_request: invalid applicant");;
      err_if (bool_decide (fx_GuarantorId req = "")) (Plain "fx_request: empty guarantor_id");;
      err_if (negb (fx_Status req =? FX_ENTRY_REQUESTED) && negb (fx_Status req =? FX_ENTRY_GUARANTEED))
        (Plain "fx_request: non-pending status");;
      validate_fx seen ({[fx_FxId req]} ∪ fxSeen) l'
  end.

Definition InstGenesis_Validate (gs : InstGenesisState) : outcome unit :=
  Params_Validate (ig_Params gs);;
  err_if (existsb (λ t, t <? 0) (genesisTimestamps gs)) (Plain "timestamp is negative");;
  seen ← validate_institutions (CapInt (RedeemFloorPerTx (ig_Params gs))) ∅ (ig_Institutions gs);
  validate_roles seen ∅ (ig_RoleGrants gs);;
  validate_fx seen ∅ (ig_FxRequests gs);;
  Validate (ig_DepositMarkers gs) deposit_rules;;
  Validate (ig_CapCounters gs) counter_rules;;
  Validate (ig_Approvals gs) approval_rules;;
  Validate (ig_StoreEntries gs) residualRules.
Definition ValidateAtTime (gs : InstGenesisState) (blockTime : Z) : outcome unit :=
  InstGenesis_Validate gs;;
  err_if (existsb (λ t, blockTime <? t) (genesisTimestamps gs)) (Plain "timestamp is after the genesis block time").

(** ** Import *)
Definition attest_at (now : Z) (i : Institution) : Institution :=
  if inst_LastAttestedAt i =? 0
  then with_attestation i (inst_AttestedReserve i) now (inst_Status i) else i.
Definition import_institution (now : Z) (inst : Institution) : M InstStore unit :=
  SetInstitution (attest_at now inst);;
  match AccAddressFromBech32 (inst_Admin inst) with
  | Some admin => SetLastAttestor (inst_Id inst) admin
  | None => mret tt
  end.
Definition import_role (rg : RoleGrant) : M InstStore unit :=
  match AccAddressFromBech32 (rg_Address rg) with
  | Some addr => SetRole (rg_Institution rg) addr (rg_Role rg)
  | None => lift (Panic "role_grant: invalid address")
  end.
Definition importStoreEntries (prefix : string) (entries : list KV) : M InstStore unit :=
  for_each entries (λ e,
    if (strlen (Key e) <=? strlen prefix) || negb (has_prefix prefix (Key e))
    then lift (Panic "key is not under the expected prefix") else write (Key e) (VBytes (Value e))).
Definition importResidualEntries (entries : list KV) : M InstStore unit :=
  for_each entries (λ e,
    if negb (IsResidualStoreKey (Key e)) then lift (Panic "key is not under a residual store prefix")
    else write (Key e) (VBytes (Value e))).
Definition import_store (now : Z) (gs : InstGenesisState) : M InstStore unit :=
  or_panic (lift (ValidateAtTime gs now));;
  or_panic (SetParams (ig_Params gs));;
  for_each (ig_Institutions gs) (import_institution now);;
  for_each (ig_RoleGrants gs) import_role;;
  for_each (ig_FxRequests gs) SetFxRequest;;
  importStoreEntries DepositPrefix (ig_DepositMarkers gs);;
  importStoreEntries CounterPrefix (ig_CapCounters gs);;
  importStoreEntries ApprovalPrefix (ig_Approvals gs);;
  importResidualEntries (ig_StoreEntries gs).
End validate.

Definition Inst_InitGenesis {B C I G} `{BankKeeper B} `{AddressCodec} (ctx : Context) (gs : InstGenesisState)
  : M (InstState B C I G) unit :=
  on_store (import_store (BlockTime ctx) gs);;
  broken ← query AllInvariants;
  if (broken : bool) then lift (Panic "invariant broken at genesis") else mret tt.

(** ** Export *)
Definition export_entry (kv : string * inst_val) : outcome KV :=
  match kv.2 with VBytes bz => Ok (mkKV kv.1 bz) | _ => Panic "not a raw value" end.
Definition export_entries (l : list (string * inst_val)) : outcome (list KV) :=
  ofold (λ acc kv, e ← export_entry kv; Ok (acc ++ [e])) l [].
Definition exportStoreEntries (st : InstStore) (prefix : string) : outcome (list KV) :=
  export_entries (KVStorePrefixIterator st prefix).
Definition pendingRemovalSet (st : InstStore) : gset string :=
  list_to_set (omap (λ kv, ParseRemovalQueueKey kv.1) (KVStorePrefixIterator st RemovalQueuePrefix)).
(** the id a key is filed under belongs to a pending removal *)
Definition of_pending (pending : gset string) (prefix key : string) : bool :=
  match IDFromLenPrefixedKey key prefix with Some id => bool_decide (id ∈ pending) | None => false end.
Definition exportStoreEntriesExcludingPending (st : InstStore) (prefix : string) (pending : gset string) : outcome (list KV) :=
  if bool_decide (pending = ∅) then exportStoreEntries st prefix else
  export_entries (List.filter (λ kv, negb (of_pending pending prefix kv.1)) (KVStorePrefixIterator st prefix)).
Definition exportResidualEntries (st : InstStore) (pending : gset string) : outcome (list KV) :=
  ofold (λ out prefix,
    es ← (if bool_decide (prefix = HolderKycTierPrefix) then exportStoreEntriesExcludingPending st prefix pending
          else exportStoreEntries st prefix);
    Ok (out ++ es)) ResidualStorePrefixes [].
Definition Inst_ExportGenesis (st : InstStore) : outcome InstGenesisState :=
  let pending := pendingRemovalSet st in
  insts ← IterateInstitutions st;
  grants ← IterateAllRoles st;
  fxReqs ← IterateFxRequests st;
  params ← GetParams st;
  deposits ← exportStoreEntries st DepositPrefix;
  counters ← exportStoreEntries st CounterPrefix;
  approvals ← exportStoreEntriesExcludingPending st ApprovalPrefix pending;
  entries ← exportResidualEntries st pending;
  Ok (mkInstGenesis params insts (List.filter (λ rg, negb (bool_decide (rg_Institution rg ∈ pending))) grants)
        fxReqs deposits counters approvals entries).

(** ** Sound records

    What every record of a store is, by its key. *)
Definition id_ok (id : string) : Prop := 0 < strlen id ≤ MaxInstitutionIDLen.
Definition amount_text (s : string) : Prop := ∃ z, NewIntFromString s = Some z ∧ 0 ≤ z.

Section records.
Context `{AddressCodec}.

Record institution_ok (i : Institution) : Prop := {
  io_id : id_ok (inst_Id i);
  io_admin : is_bech32 (inst_Admin i) = true;
  io_type : inst_InstitutionType i = INSTITUTION_TYPE_FINANCIAL ∨ inst_InstitutionType i = INSTITUTION_TYPE_FX;
  io_vault : amount_text (inst_VaultBalance i);
  io_reserve : amount_text (inst_AttestedReserve i);
  io_params : InstitutionParams_Validate (inst_Params i) = Ok tt;
}.
Record fx_ok (r : FxEntryRequest) : Prop := {
  fo_id : id_ok (fx_FxId r);
  fo_applicant : is_bech32 (fx_Applicant r) = true;
  fo_guarantor : fx_GuarantorId r ≠ "";
  fo_status : fx_Status r = FX_ENTRY_REQUESTED ∨ fx_Status r = FX_ENTRY_GUARANTEED;
}.
Inductive record_ok : string → inst_val → Prop :=
| ok_params p : Params_Validate p = Ok tt → record_ok ParamsKey (VParams p)
| ok_institution i : institution_ok i → record_ok (InstitutionKey (inst_Id i)) (VInstitution i)
| ok_role id addr r : id_ok id → valid_address addr → INSTITUTION_ROLE_UNSPECIFIED < r ≤ INSTITUTION_ROLE_VIEWER →
    record_ok (RoleKey id addr) (VRole (mkRoleGrant id (AccAddress_String addr) r))
| ok_fx r : fx_ok r → record_ok (FxRequestKey (fx_FxId r)) (VFxRequest r)
| ok_deposit id dir ref : record_ok (DepositKey id dir ref) (VBytes DepositMarkerByte)
| ok_counter id kind day rest n : 0 ≤ n → in_range n →
    record_ok (CounterUserKey id kind day rest) (VBytes (Int_String n))
| ok_approval id ch signer e : id_ok id → record_ok (ApprovalKey id ch signer) (VBytes (be64 e))
| ok_epoch id e : record_ok (AdminEpochKey id) (VBytes (be64 e))
| ok_subject day kind subject n : 0 ≤ n → in_range n →
    record_ok (RedeemSubjectCounterKey day kind subject) (VBytes (Int_String n))
| ok_tier id holder t : id_ok id → record_ok (HolderKycTierKey id holder) (VBytes (be32 t))
| ok_attestor id a : id_ok id → valid_address a → record_ok (LastAttestorKey id) (VBytes a)
| ok_removal id : id_ok id → record_ok (RemovalQueueKey id) (VBytes RemovalQueueMarkerByte)
| ok_cursor c : record_ok CounterPruneCursorKey (VBytes c).

(** the records fit together: a role grant belongs to an institution that is registered or
    being removed, and none is both *)
Record records_ok (st : InstStore) : Prop := {
  ro_record k v : st !! k = Some v → record_ok k v;
  ro_role id addr v : id_ok id → st !! RoleKey id addr = Some v →
    HasInstitution st id = true ∨ HasPendingRemoval st id = true;
  ro_pending id : id_ok id → HasPendingRemoval st id = true → HasInstitution st id = false;
}.
End records.

(** the kind of a record is the first byte of its key *)
Ltac record_inv H Hp :=
  destruct H;
  unfold ParamsKey, InstitutionKey, RoleKey, FxRequestKey, DepositKey, CounterUserKey, CounterTotalKey, ApprovalKey, AdminEpochKey,
    RedeemSubjectCounterKey, HolderKycTierKey, LastAttestorKey, RemovalQueueKey, CounterPruneCursorKey,
    InstitutionPrefix, RolePrefix, FxRequestPrefix, DepositPrefix, CounterPrefix, ApprovalPrefix, AdminEpochPrefix, RedeemSubjectPrefix,
    HolderKycTierPrefix, LastAttestorPrefix, RemovalQueuePrefix, CounterPruneCursorPrefix in Hp |- *;
  try discriminate Hp.

Section kinds.
Context `{AddressCodec}.
Lemma record_institution k v : record_ok k v → has_prefix InstitutionPrefix k = true →
  ∃ i, institution_ok i ∧ k = InstitutionKey (inst_Id i) ∧ v = VInstitution i.
Proof. intros Hr Hp. record_inv Hr Hp; eauto. Qed.
Lemma record_role k v : record_ok k v → has_prefix RolePrefix k = true →
  ∃ id addr r, id_ok id ∧ valid_address addr ∧ INSTITUTION_ROLE_UNSPECIFIED < r ≤ INSTITUTION_ROLE_VIEWER ∧ k = RoleKey id addr ∧ v = VRole (mkRoleGrant id (AccAddress_String addr) r).
Proof. intros Hr Hp. record_inv Hr Hp; eauto 10. Qed.
Lemma record_fx k v : record_ok k v → has_prefix FxRequestPrefix k = true →
  ∃ r, fx_ok r ∧ k = FxRequestKey (fx_FxId r) ∧ v = VFxRequest r.
Proof. intros Hr Hp. record_inv Hr Hp; eauto. Qed.
End kinds.

(** ** Raw records pass their rules *)
Lemma strlen_lenPrefixedID id : strlen (lenPrefixedID id) = 1 + strlen id.
Proof. unfold lenPrefixedID, strlen. cbn [String.append String.length]. lia. Qed.
Lemma strlen_counter n : in_range n → strlen (Int_String n) ≤ MaxValueLen.
Proof. intros Hn%Int_String_length. unfold strlen, MaxValueLen. lia. Qed.
Lemma counter_valid n : 0 ≤ n → in_range n → validateCapCounterValue (Int_String n) = Ok tt.
Proof.
  intros H0 Hn. unfold validateCapCounterValue. rewrite NewIntFromString_String by done. cbn.
  unfold IsNegative. by destruct (Z.ltb_spec n 0); [lia|].
Qed.
Lemma attestor_valid a : valid_address a → validateAttestorValue a = Ok tt ∧ strlen a ≤ MaxValueLen.
Proof.
  intros Ha. unfold valid_address, validateAttestorValue, MaxValueLen in *.
  destruct (Z.eqb_spec (strlen a) 0), (Z.ltb_spec 255 (strlen a)); try lia. split; [done|lia].
Qed.

(** a key is longer than its prefix *)
Ltac under_tac :=
  unfold DepositKey, CounterUserKey, CounterTotalKey, ApprovalKey, AdminEpochKey, RedeemSubjectCounterKey,
    HolderKycTierKey, LastAttestorKey, DepositPrefix, CounterPrefix, ApprovalPrefix, AdminEpochPrefix, RedeemSubjectPrefix,
    HolderKycTierPrefix, LastAttestorPrefix, i64be; cbn [rule_Prefix];
  rewrite ?str_app_assoc, strictly_under_byte by lia; cbn [Z.eqb Pos.eqb andb]; apply Z.ltb_lt;
  rewrite ?strlen_app, ?strlen_lenPrefixedID, ?strlen_be64;
  repeat match goal with |- context [strlen ?s] => lazymatch goal with H : 0 ≤ strlen s |- _ => fail | _ => pose proof (strlen_nonneg s) end end; lia.


Section raw.
Context `{AddressCodec}.
Definition raw_ok (rules : list Rule) (k : string) (v : inst_val) : Prop :=
  ∃ bz, v = VBytes bz ∧ accepted rules (mkKV k bz).
Lemma record_deposit k v : record_ok k v → has_prefix DepositPrefix k = true → raw_ok deposit_rules k v.
Proof.
  intros Hr Hp. record_inv Hr Hp. eexists. split; [done|].
  eapply accepted_byte; [by apply (bool_decide_unpack _)|apply list_elem_of_here|under_tac|done|by intros f [= <-]].
Qed.
Lemma record_counter k v : record_ok k v → has_prefix CounterPrefix k = true → raw_ok counter_rules k v.
Proof.
  intros Hr Hp. record_inv Hr Hp. eexists. split; [done|].
  eapply accepted_byte; [by apply (bool_decide_unpack _)|apply list_elem_of_here|under_tac|by apply strlen_counter|].
  intros f [= <-]. by apply counter_valid.
Qed.
Lemma record_approval k v : record_ok k v → has_prefix ApprovalPrefix k = true → raw_ok approval_rules k v.
Proof.
  intros Hr Hp. record_inv Hr Hp. eexists. split; [done|].
  eapply accepted_byte; [by apply (bool_decide_unpack _)|apply list_elem_of_here|under_tac|by rewrite strlen_be64|].
  intros f [= <-]. unfold validateApprovalValue. by rewrite strlen_be64.
Qed.
Lemma record_residual p k v : p ∈ ResidualStorePrefixes → record_ok k v → has_prefix p k = true →
  raw_ok residualRules k v ∧ IsResidualStoreKey k = true.
Proof.
  intros Hin Hr Hp. enough (raw_ok residualRules k v) as Ho.
  { split; [done|]. destruct Ho as (bz & _ & _ & r & (Hr' & Hu & _) & _). unfold IsResidualStoreKey. apply existsb_exists.
    exists (rule_Prefix r). split; [|done]. unfold residualRules in Hr'.
    repeat (apply elem_of_cons in Hr' as [->|Hr']; [by vm_compute; auto 10|]). by apply not_elem_of_nil in Hr'. }
  unfold ResidualStorePrefixes in Hin. repeat apply elem_of_cons in Hin as [->|Hin]; [| | | |by apply not_elem_of_nil in Hin].
  all: record_inv Hr Hp; eexists; (split; [done|]).
  - eapply (accepted_byte _ (mkRule "admin-set epoch" AdminEpochPrefix (Some (FixedLen 8)))); [by apply (bool_decide_unpack _)|unfold residualRules; by repeat constructor|under_tac|by rewrite strlen_be64|].
    intros f [= <-]. unfold FixedLen. by rewrite strlen_be64.
  - eapply (accepted_byte _ (mkRule "redeem-subject counter" RedeemSubjectPrefix (Some validateCapCounterValue))); [by apply (bool_decide_unpack _)|unfold residualRules; by repeat constructor|under_tac|by apply strlen_counter|].
    intros f [= <-]. by apply counter_valid.
  - eapply (accepted_byte _ (mkRule "holder KYC tier" HolderKycTierPrefix (Some (FixedLen 4)))); [by apply (bool_decide_unpack _)|unfold residualRules; by repeat constructor|under_tac|by rewrite strlen_be32|].
    intros f [= <-]. unfold FixedLen. by rewrite strlen_be32.
  - rename select (valid_address _) into Ha. rename select (id_ok _) into Hi. unfold id_ok in Hi. apply attestor_valid in Ha as [Ha Hl].
    eapply (accepted_byte _ (mkRule "last attestor" LastAttestorPrefix (Some validateAttestorValue))); [by apply (bool_decide_unpack _)|unfold residualRules; by repeat constructor|under_tac|done|].
    by intros f [= <-].
Qed.
End raw.

(** ** What is exported *)
Definition enc_inst (i : Institution) : string * inst_val := (InstitutionKey (inst_Id i), VInstitution i).
Definition enc_fx (r : FxEntryRequest) : string * inst_val := (FxRequestKey (fx_FxId r), VFxRequest r).
Definition enc_kv (e : KV) : string * inst_val := (Key e, VBytes (Value e)).
(** the records of a prefix that do not belong to a pending removal *)
Definition live_entries (st : InstStore) (p : string) : list (string * inst_val) :=
  List.filter (λ kv, negb (of_pending (pendingRemovalSet st) p kv.1)) (KVStorePrefixIterator st p).
Definition residual_entries (st : InstStore) : list (string * inst_val) :=
  KVStorePrefixIterator st AdminEpochPrefix ++ KVStorePrefixIterator st RedeemSubjectPrefix ++
  live_entries st HolderKycTierPrefix ++ KVStorePrefixIterator st LastAttestorPrefix.

Lemma iterate_decoded {A B} (dec : A → outcome B) (enc : B → A) (l : list A) :
  Forall (λ a, ∃ b, a = enc b ∧ dec a = Ok b) l →
  ∃ bs, ofold (λ acc a, b ← dec a; Ok (acc ++ [b])) l [] = Ok bs ∧ l = enc <$> bs.
Proof.
  intros Hl. enough (∀ acc, ∃ bs, ofold (λ acc a, b ← dec a; Ok (acc ++ [b])) l acc = Ok (acc ++ bs) ∧ l = enc <$> bs) as Hg
    by (destruct (Hg []) as (bs & ? & ?); by exists bs).
  induction Hl as [|a l (b & Ha & Hd) Hl IH]; intros acc.
  { exists []. by rewrite app_nil_r. }
  cbn [ofold]. rewrite Hd. cbn [mbind outcome_bind]. destruct (IH (acc ++ [b])) as (bs & -> & ->).
  exists (b :: bs). rewrite <- app_assoc. by rewrite Ha.
Qed.
Lemma elem_of_live st p k v :
  (k, v) ∈ live_entries st p ↔ st !! k = Some v ∧ has_prefix p k = true ∧ of_pending (pendingRemovalSet st) p k = false.
Proof.
  unfold live_entries. rewrite list_elem_of_In, filter_In, <- list_elem_of_In, elem_of_prefix_iterator, negb_true_iff. naive_solver.
Qed.
Lemma live_NoDup st p : NoDup ((live_entries st p).*1).
Proof. apply filter_keys_NoDup, Iterator_NoDup. Qed.
Lemma export_excluding st p :
  exportStoreEntriesExcludingPending st p (pendingRemovalSet st) = export_entries (live_entries st p).
Proof.
  unfold exportStoreEntriesExcludingPending. case_bool_decide as Hp; [|done]. unfold exportStoreEntries, live_entries. f_equal.
  rewrite Hp. assert (∀ k, of_pending ∅ p k = false) as Hn by (intros k; unfold of_pending; by case_match).
  induction (KVStorePrefixIterator st p) as [|kv l IH]; [done|]. cbn. by rewrite Hn, <- IH.
Qed.

Section export.
Context `{AddressCodecLaws}.
Definition enc_role (rg : RoleGrant) : string * inst_val :=
  (RoleKey (rg_Institution rg) (default "" (AccAddressFromBech32 (rg_Address rg))), VRole rg).
Definition live_role (st : InstStore) (rg : RoleGrant) : bool := negb (bool_decide (rg_Institution rg ∈ pendingRemovalSet st)).

Lemma raw_exported rules (l : list (string * inst_val)) :
  Forall (λ kv, raw_ok rules kv.1 kv.2) l → ∃ es, export_entries l = Ok es ∧ l = enc_kv <$> es.
Proof.
  intros Hl. apply iterate_decoded. eapply Forall_impl; [done|]. intros [k v] Hr. cbn in Hr. destruct Hr as (bz & -> & _). by exists (mkKV k bz).
Qed.

(** the lists of a genesis that carries the records of a store *)
Record exports (st : InstStore) (gs : InstGenesisState) : Prop := {
  ex_params : GetParams st = Ok (ig_Params gs);
  ex_insts : KVStorePrefixIterator st InstitutionPrefix = enc_inst <$> ig_Institutions gs;
  ex_roles : ∃ grants, KVStorePrefixIterator st RolePrefix = enc_role <$> grants ∧ ig_RoleGrants gs = List.filter (live_role st) grants;
  ex_fx : KVStorePrefixIterator st FxRequestPrefix = enc_fx <$> ig_FxRequests gs;
  ex_deposits : KVStorePrefixIterator st DepositPrefix = enc_kv <$> ig_DepositMarkers gs;
  ex_counters : KVStorePrefixIterator st CounterPrefix = enc_kv <$> ig_CapCounters gs;
  ex_approvals : live_entries st ApprovalPrefix = enc_kv <$> ig_Approvals gs;
  ex_residual : residual_entries st = enc_kv <$> ig_StoreEntries gs;
}.
Lemma prefix_Forall (P : string * inst_val → Prop) st p :
  (∀ k v, st !! k = Some v → has_prefix p k = true → P (k, v)) → Forall P (KVStorePrefixIterator st p).
Proof. intros HP. apply Forall_forall. intros [k v] [Hk Hp]%elem_of_prefix_iterator. by apply HP. Qed.
Lemma live_Forall (P : string * inst_val → Prop) st p :
  (∀ k v, st !! k = Some v → has_prefix p k = true → P (k, v)) → Forall P (live_entries st p).
Proof. intros HP. apply Forall_forall. intros [k v] (Hk & Hp & _)%elem_of_live. by apply HP. Qed.

Lemma export_residual st : records_ok st →
  ∃ es, exportResidualEntries st (pendingRemovalSet st) = Ok es ∧ residual_entries st = enc_kv <$> es.
Proof.
  intros Hok. assert (∀ p k v, p ∈ ResidualStorePrefixes → st !! k = Some v → has_prefix p k = true → raw_ok residualRules k v) as Hres.
  { intros p k v Hp Hk Hpre. eapply record_residual; [exact Hp|by eapply ro_record|done]. }
  unfold exportResidualEntries, residual_entries, ResidualStorePrefixes. cbn [ofold].
  destruct (raw_exported residualRules (KVStorePrefixIterator st AdminEpochPrefix)) as (e1 & H1 & ->).
  { apply prefix_Forall. intros k v. apply Hres. unfold ResidualStorePrefixes. by repeat constructor. }
  destruct (raw_exported residualRules (KVStorePrefixIterator st RedeemSubjectPrefix)) as (e2 & H2 & ->).
  { apply prefix_Forall. intros k v. apply Hres. unfold ResidualStorePrefixes. by repeat constructor. }
  destruct (raw_exported residualRules (live_entries st HolderKycTierPrefix)) as (e3 & H3 & ->).
  { apply live_Forall. intros k v. apply Hres. unfold ResidualStorePrefixes. by repeat constructor. }
  destruct (raw_exported residualRules (KVStorePrefixIterator st LastAttestorPrefix)) as (e4 & H4 & ->).
  { apply prefix_Forall. intros k v. apply Hres. unfold ResidualStorePrefixes. by repeat constructor. }
  exists (e1 ++ e2 ++ e3 ++ e4). rewrite !fmap_app. split; [|done].
  rewrite !(bool_decide_eq_false_2 (_ = HolderKycTierPrefix)), (bool_decide_eq_true_2 (HolderKycTierPrefix = _)) by done.
  unfold exportStoreEntries. rewrite H1, H2, export_excluding, H3, H4. cbn [mbind outcome_bind]. by rewrite !app_assoc.
Qed.
Lemma export_spec st : records_ok st → ∀ p, GetParams st = Ok p → ∃ gs, Inst_ExportGenesis st = Ok gs ∧ exports st gs.
Proof.
  intros Hok p Hp. pose proof (ro_record st Hok) as Hrec. unfold Inst_ExportGenesis.
  destruct (iterate_decoded (λ kv, decode_Institution kv.2) enc_inst (KVStorePrefixIterator st InstitutionPrefix)) as (is' & H1 & E1).
  { apply prefix_Forall. intros k v Hk Hpre.
    apply Hrec in Hk. apply record_institution in Hk as (i & _ & -> & ->); [|done]. by exists i. }
  destruct (iterate_decoded (λ kv, decode_Role kv.2) enc_role (KVStorePrefixIterator st RolePrefix)) as (rs & H2 & E2).
  { apply prefix_Forall. intros k v Hk Hpre.
    apply Hrec in Hk. apply record_role in Hk as (id & addr & r & _ & Ha & _ & -> & ->); [|done]. eexists. split; [|done].
    unfold enc_role. cbn. by rewrite decode_encode. }
  destruct (iterate_decoded (λ kv, decode_Fx kv.2) enc_fx (KVStorePrefixIterator st FxRequestPrefix)) as (fs & H3 & E3).
  { apply prefix_Forall. intros k v Hk Hpre.
    apply Hrec in Hk. apply record_fx in Hk as (i & _ & -> & ->); [|done]. by exists i. }
  destruct (raw_exported deposit_rules (KVStorePrefixIterator st DepositPrefix)) as (ds & H4 & E4).
  { apply prefix_Forall. intros k v Hk. apply record_deposit; auto. }
  destruct (raw_exported counter_rules (KVStorePrefixIterator st CounterPrefix)) as (cs & H5 & E5).
  { apply prefix_Forall. intros k v Hk. apply record_counter; auto. }
  destruct (raw_exported approval_rules (live_entries st ApprovalPrefix)) as (aps & H6 & E6).
  { apply live_Forall. intros k v Hk. apply record_approval; auto. }
  destruct (export_residual st Hok) as (es & H7 & E7).
  unfold IterateInstitutions, IterateAllRoles, iterate_roles, IterateFxRequests, exportStoreEntries.
  rewrite H1, H2, H3, Hp, H4, H5, export_excluding, H6, H7. cbn [mbind outcome_bind]. eexists. split; [done|].
  constructor; cbn; try done. by exists rs.
Qed.
End export.
