(* ===== verification/InstRestore.v ===== *)
(** * x/institutions: what an import leaves

    The records a genesis carries over, and that an importer which starts from the
    exported genesis validates it and ends with exactly those: import is a list of
    writes, and every write is a record of the exported store or names an admin as
    attestor. *)
From stdpp Require Import base gmap strings list fin_maps sorting.
From Stdlib Require Import ZArith Lia.
From S2P Require Import Prelude GoInt KVStore StoreEntry Interfaces CoinTypes InstTypes InstServer InstKeeper InstSplit InstMint InstSolvency InstInvariant InstSweep InstGenesis.

(** ** What an import leaves

    A removal that was pending is complete, the pruning cursor starts over, and an
    institution without a recorded attestor has its admin as attestor; every other record
    is as it was. *)
Definition dropped (st : InstStore) (k : string) : bool :=
  has_prefix RemovalQueuePrefix k || bool_decide (k = CounterPruneCursorKey) ||
  existsb (λ p, of_pending (pendingRemovalSet st) p k) [RolePrefix; ApprovalPrefix; HolderKycTierPrefix].
Definition carried (st : InstStore) : InstStore := filter (λ kv, dropped st kv.1 = false) st.
Section settled.
Context `{AddressCodec}.
Definition attestor_of (kv : string * inst_val) : option (string * inst_val) :=
  match kv.2 with
  | VInstitution i => (λ a, (LastAttestorKey (inst_Id i), VBytes a)) <$> AccAddressFromBech32 (inst_Admin i)
  | _ => None
  end.
Definition admin_attestors (st : InstStore) : InstStore :=
  list_to_map (omap attestor_of (KVStorePrefixIterator st InstitutionPrefix)).
Definition settled (st : InstStore) : InstStore := carried st ∪ admin_attestors st.
End settled.

(** *** Import as a list of writes *)
Definition puts (l : list (string * inst_val)) (st : InstStore) : InstStore := foldl (λ s kv, <[kv.1 := kv.2]> s) st l.
Lemma puts_app l l' st : puts (l ++ l') st = puts l' (puts l st).
Proof. apply foldl_app. Qed.
Lemma for_each_puts {A} (f : A → M InstStore unit) (enc : A → list (string * inst_val)) l st :
  (∀ a s, a ∈ l → f a s = (Ok tt, puts (enc a) s)) → for_each l f st = (Ok tt, puts (concat (map enc l)) st).
Proof.
  revert st. induction l as [|a l IH]; intros st Hf; [done|]. cbn [for_each map concat]. rewrite puts_app.
  erewrite run_bind by (apply Hf; left). apply IH. intros b s Hb. apply Hf. by right.
Qed.
Lemma for_each_put {A} (f : A → M InstStore unit) (enc : A → string * inst_val) l st :
  (∀ a s, a ∈ l → f a s = (Ok tt, <[(enc a).1 := (enc a).2]> s)) → for_each l f st = (Ok tt, puts (enc <$> l) st).
Proof.
  intros Hf. rewrite (for_each_puts _ (λ a, [enc a])) by done. do 2 f_equal. clear. induction l as [|a l IH]; [done|]. cbn. by rewrite IH.
Qed.
Lemma import_raw_entries p l st :
  Forall (λ e, strictly_under (Key e) p = true) l → importStoreEntries p l st = (Ok tt, puts (enc_kv <$> l) st).
Proof.
  rewrite Forall_forall. intros Hl. apply for_each_put. intros e s He. apply Hl in He. unfold strictly_under in He.
  apply andb_true_iff in He as [Hlt Hp]. rewrite Hp. cbn [negb]. rewrite orb_false_r.
  apply Z.ltb_lt in Hlt. by destruct (Z.leb_spec (strlen (Key e)) (strlen p)); [lia|].
Qed.
Lemma import_residual l st :
  Forall (λ e, IsResidualStoreKey (Key e) = true) l → importResidualEntries l st = (Ok tt, puts (enc_kv <$> l) st).
Proof. rewrite Forall_forall. intros Hl. apply for_each_put. intros e s He. by rewrite (Hl e He). Qed.

Section import.
Context `{AddressCodecLaws}.
Definition admin_of (i : Institution) : string := default "" (AccAddressFromBech32 (inst_Admin i)).
Definition attest_put (i : Institution) : string * inst_val := (LastAttestorKey (inst_Id i), VBytes (admin_of i)).
Definition genesis_puts (gs : InstGenesisState) : list (string * inst_val) :=
  [(ParamsKey, VParams (ig_Params gs))] ++ concat (map (λ i, [enc_inst i; attest_put i]) (ig_Institutions gs)) ++
  (enc_role <$> ig_RoleGrants gs) ++ (enc_fx <$> ig_FxRequests gs).
Definition genesis_raw (gs : InstGenesisState) : list (string * inst_val) :=
  enc_kv <$> ig_DepositMarkers gs ++ ig_CapCounters gs ++ ig_Approvals gs ++ ig_StoreEntries gs.

Lemma SetParams_empty p : Params_Validate p = Ok tt → SetParams p ∅ = (Ok tt, <[ParamsKey := VParams p]> ∅).
Proof.
  intros Hv. unfold SetParams. erewrite run_bind by (unfold lift; by rewrite Hv). erewrite run_bind by done.
  destruct (PhiToToman _ =? PhiToToman p); by erewrite run_bind.
Qed.
Lemma import_store_puts now gs :
  ValidateAtTime gs now = Ok tt → Params_Validate (ig_Params gs) = Ok tt →
  Forall (λ i, inst_LastAttestedAt i ≠ 0 ∧ is_bech32 (inst_Admin i) = true) (ig_Institutions gs) →
  Forall (λ rg, ∃ addr, valid_address addr ∧ rg_Address rg = AccAddress_String addr) (ig_RoleGrants gs) →
  Forall (λ e, strictly_under (Key e) DepositPrefix = true) (ig_DepositMarkers gs) →
  Forall (λ e, strictly_under (Key e) CounterPrefix = true) (ig_CapCounters gs) →
  Forall (λ e, strictly_under (Key e) ApprovalPrefix = true) (ig_Approvals gs) →
  Forall (λ e, IsResidualStoreKey (Key e) = true) (ig_StoreEntries gs) →
  import_store now gs ∅ = (Ok tt, puts (genesis_raw gs) (puts (genesis_puts gs) ∅)).
Proof.
  intros Hv Hp Hi Hr Hd Hc Ha He. unfold import_store.
  pose proof (proj1 (Forall_forall _ _) Hi) as Hi'. pose proof (proj1 (Forall_forall _ _) Hr) as Hr'.
  erewrite run_bind by (unfold or_panic, lift; by rewrite Hv).
  erewrite run_bind by (unfold or_panic; by rewrite SetParams_empty).
  erewrite run_bind.
  2:{ apply (for_each_puts _ (λ i, [enc_inst i; attest_put i])). intros i s Hin. destruct (Hi' i Hin) as [Ht [a Hb]%bool_decide_eq_true].
      unfold import_institution, attest_at, attest_put, admin_of. rewrite (proj2 (Z.eqb_neq _ _) Ht).
      erewrite run_bind by done. by rewrite Hb. }
  erewrite run_bind.
  2:{ apply (for_each_put _ enc_role). intros rg s Hin. destruct (Hr' rg Hin) as (addr & Hva & E). unfold import_role, enc_role.
      rewrite E, decode_encode by done. cbn. destruct rg as [i ad r]. cbn in *. by subst ad. }
  erewrite run_bind by by apply (for_each_put _ enc_fx).
  erewrite run_bind by by apply import_raw_entries. erewrite run_bind by by apply import_raw_entries.
  erewrite run_bind by by apply import_raw_entries. rewrite import_residual by done.
  unfold genesis_raw, genesis_puts. rewrite !fmap_app, !puts_app. done.
Qed.
End import.

(** *** The imported store *)
Lemma of_pending_prefix s p k : of_pending s p k = true → has_prefix p k = true.
Proof.
  unfold of_pending, IDFromLenPrefixedKey. destruct (has_prefix p k); [done|]. by rewrite orb_true_r.
Qed.
Lemma prefix_bytes_distinct z w k : 0 ≤ z < 256 → 0 ≤ w < 256 →
  has_prefix (key_prefix z) k = true → has_prefix (key_prefix w) k = true → z = w.
Proof. intros Hz Hw [t ->]%has_prefix_spec. rewrite has_prefix_byte by done. intros E. bool_prop. lia. Qed.
Lemma not_dropped st z k : 0 ≤ z < 256 → z ∉ [32; 48; 160; 176; 144] → has_prefix (key_prefix z) k = true → dropped st k = false.
Proof.
  intros Hz Hn Hk. unfold dropped. assert (∀ w, 0 ≤ w < 256 → w ∈ [32; 48; 160; 176; 144] → has_prefix (key_prefix w) k = false) as Hd.
  { intros w Hw Hin. apply not_true_iff_false. intros Hp. rewrite (prefix_bytes_distinct z w k) in Hn by done. done. }
  assert (∀ w s, 0 ≤ w < 256 → w ∈ [32; 48; 160; 176; 144] → of_pending s (key_prefix w) k = false) as Ho.
  { intros w s Hw Hin. apply not_true_iff_false. intros Hp%of_pending_prefix. by rewrite Hd in Hp. }
  unfold RemovalQueuePrefix, RolePrefix, ApprovalPrefix, HolderKycTierPrefix. cbn [existsb].
  rewrite Hd, !Ho by (done || by repeat constructor). cbn [orb]. rewrite orb_false_r. apply bool_decide_eq_false. intros ->.
  specialize (Hd 144 ltac:(lia) ltac:(by repeat constructor)). done.
Qed.
Lemma dropped_ranged st z k : z ∈ [32; 48; 160] → has_prefix (key_prefix z) k = true →
  dropped st k = of_pending (pendingRemovalSet st) (key_prefix z) k.
Proof.
  intros Hz Hk. assert (0 ≤ z < 256) as Hb by (repeat (apply elem_of_cons in Hz as [->|Hz]; [lia|]); by apply not_elem_of_nil in Hz).
  assert (∀ w, 0 ≤ w < 256 → w ≠ z → has_prefix (key_prefix w) k = false) as Hd.
  { intros w Hw Hne. apply not_true_iff_false. intros Hp. by rewrite (prefix_bytes_distinct w z k) in Hne. }
  assert (∀ w s, 0 ≤ w < 256 → w ≠ z → of_pending s (key_prefix w) k = false) as Ho.
  { intros w s Hw Hne. apply not_true_iff_false. intros Hp%of_pending_prefix. by rewrite Hd in Hp. }
  unfold dropped. rewrite (bool_decide_eq_false_2 (k = CounterPruneCursorKey)).
  2:{ intros ->. assert (z = 144) as -> by by (eapply (prefix_bytes_distinct _ 144); [| |exact Hk|]). by repeat (apply elem_of_cons in Hz as [Hz|Hz]; [lia|]); apply not_elem_of_nil in Hz. }
  unfold RemovalQueuePrefix, RolePrefix, ApprovalPrefix, HolderKycTierPrefix. cbn [existsb].
  repeat (apply elem_of_cons in Hz as [->|Hz]; [|]); [..|by apply not_elem_of_nil in Hz].
  - rewrite (Hd 176), (Ho 48), (Ho 160) by lia. cbn [orb]. by rewrite orb_false_r.
  - rewrite (Hd 176), (Ho 32), (Ho 160) by lia. cbn [orb]. by rewrite orb_false_r.
  - rewrite (Hd 176), (Ho 32), (Ho 48) by lia. cbn [orb]. by rewrite orb_false_r.
Qed.
Lemma carried_Some st k v : carried st !! k = Some v ↔ st !! k = Some v ∧ dropped st k = false.
Proof. unfold carried. apply map_lookup_filter_Some. Qed.

Lemma of_pending_key s p id rest : strlen id ≤ 255 →
  of_pending s p (p +:+ lenPrefixedID id +:+ rest) = bool_decide (id ∈ s).
Proof. intros Hid. unfold of_pending. by rewrite IDFromLenPrefixedKey_spec. Qed.

Section restore.
Context `{AddressCodecLaws}.
Context (st : InstStore) (gs : InstGenesisState) (Hok : records_ok st) (Hp : st !! ParamsKey = Some (VParams (ig_Params gs))) (Hex : exports st gs).

Lemma listed_inst i : i ∈ ig_Institutions gs ↔ st !! InstitutionKey (inst_Id i) = Some (VInstitution i).
Proof.
  assert (i ∈ ig_Institutions gs ↔ enc_inst i ∈ KVStorePrefixIterator st InstitutionPrefix) as ->.
  { rewrite (ex_insts _ _ Hex), list_elem_of_fmap. unfold enc_inst. split; [by exists i|]. by intros (j & [= _ ->] & Hj). }
  unfold enc_inst. rewrite elem_of_prefix_iterator. split; [by intros []|]. intros Hi. split; [done|]. apply has_prefix_InstitutionKey.
Qed.
Lemma listed_fx r : r ∈ ig_FxRequests gs ↔ st !! FxRequestKey (fx_FxId r) = Some (VFxRequest r).
Proof.
  assert (r ∈ ig_FxRequests gs ↔ enc_fx r ∈ KVStorePrefixIterator st FxRequestPrefix) as ->.
  { rewrite (ex_fx _ _ Hex), list_elem_of_fmap. unfold enc_fx. split; [by exists r|]. by intros (j & [= _ ->] & Hj). }
  unfold enc_fx. rewrite elem_of_prefix_iterator. split; [by intros []|]. intros Hi. split; [done|]. apply has_prefix_app.
Qed.
(** the grants that are exported are the canonical ones of live institutions *)
Lemma listed_role rg : rg ∈ ig_RoleGrants gs ↔
  ∃ addr, id_ok (rg_Institution rg) ∧ valid_address addr ∧ INSTITUTION_ROLE_UNSPECIFIED < rg_Role rg ≤ INSTITUTION_ROLE_VIEWER ∧
    rg_Address rg = AccAddress_String addr ∧ st !! RoleKey (rg_Institution rg) addr = Some (VRole rg) ∧ rg_Institution rg ∉ pendingRemovalSet st.
Proof.
  destruct (ex_roles _ _ Hex) as (grants & Hg & ->). rewrite list_elem_of_In, filter_In, <- list_elem_of_In.
  assert (rg ∈ grants ↔ enc_role rg ∈ KVStorePrefixIterator st RolePrefix) as ->.
  { rewrite Hg, list_elem_of_fmap. unfold enc_role. split; [by exists rg|]. by intros (j & [= _ _ ->] & Hj). }
  unfold live_role. rewrite negb_true_iff, bool_decide_eq_false. unfold enc_role. rewrite elem_of_prefix_iterator. split.
  - intros [[Hk Hpre] Hn]. pose proof (ro_record _ Hok _ _ Hk) as Hr.
    apply record_role in Hr as (id & addr & r & Hi & Ha & Hr & Ek & [= ->]); [|done]. cbn in *.
    exists addr. rewrite decode_encode in Hk by done. done.
  - intros (addr & Hi & Ha & Hr & E & Hk & Hn). rewrite E, decode_encode by done. cbn. by split.
Qed.
Lemma admin_text i : i ∈ ig_Institutions gs → AccAddressFromBech32 (inst_Admin i) = Some (admin_of i) ∧ institution_ok i.
Proof.
  intros Hi%listed_inst. apply (ro_record _ Hok) in Hi. apply record_institution in Hi as (j & Hj & _ & [= <-]); [|apply has_prefix_InstitutionKey].
  split; [|done]. pose proof (io_admin _ Hj) as [a Ha]%bool_decide_eq_true. unfold admin_of. by rewrite Ha.
Qed.
Lemma ids_NoDup : NoDup (inst_Id <$> ig_Institutions gs).
Proof.
  pose proof (Iterator_NoDup st InstitutionPrefix (PrefixEndBytes InstitutionPrefix)) as Hn.
  change (Iterator _ _ _) with (KVStorePrefixIterator st InstitutionPrefix) in Hn. rewrite (ex_insts _ _ Hex), <- list_fmap_compose in Hn.
  apply (NoDup_fmap_1 (λ id, InstitutionKey id)). by rewrite <- list_fmap_compose.
Qed.
Lemma attestors_eq : admin_attestors st = list_to_map (attest_put <$> ig_Institutions gs).
Proof.
  unfold admin_attestors. f_equal. rewrite (ex_insts _ _ Hex). pose proof (λ i Hi, proj1 (admin_text i Hi)) as Ha. revert Ha.
  generalize (ig_Institutions gs). intros l. induction l as [|i l IH]; intros Ha; [done|]. cbn [fmap list_fmap omap list_omap].
  unfold attestor_of at 1. cbn [enc_inst snd]. rewrite (Ha i) by left. cbn. f_equal. apply IH. intros j Hj. apply Ha. by right.
Qed.
Lemma attestors_Some k v : admin_attestors st !! k = Some v ↔ ∃ i, i ∈ ig_Institutions gs ∧ k = LastAttestorKey (inst_Id i) ∧ v = VBytes (admin_of i).
Proof.
  rewrite attestors_eq, <- elem_of_list_to_map, list_elem_of_fmap; [unfold attest_put; naive_solver|].
  rewrite <- list_fmap_compose. pose proof ids_NoDup as Hn. apply (NoDup_fmap_2 (λ id, LastAttestorKey id)) in Hn.
  by rewrite <- list_fmap_compose in Hn.
Qed.
Lemma attestor_key k v : admin_attestors st !! k = Some v → has_prefix LastAttestorPrefix k = true ∧ dropped st k = false.
Proof.
  intros (i & _ & -> & _)%attestors_Some. split; [apply has_prefix_app|]. eapply (not_dropped _ 161); [lia|by apply (bool_decide_unpack _)|apply has_prefix_app].
Qed.
Lemma attestors_None z k : 0 ≤ z < 256 → z ≠ 161 → has_prefix (key_prefix z) k = true → admin_attestors st !! k = None.
Proof.
  intros Hz Hne Hk. apply eq_None_not_Some. intros [v [Hpre _]%attestor_key]. by rewrite (prefix_bytes_distinct z 161 k) in Hne.
Qed.

(** every write is a record of the store, or names an admin as attestor *)
Lemma carried_put z k v : 0 ≤ z < 256 → z ∉ [32; 48; 160; 176; 144; 161] → has_prefix (key_prefix z) k = true →
  st !! k = Some v → (admin_attestors st ∪ carried st) !! k = Some v.
Proof.
  intros Hz Hn Hk Hv. rewrite lookup_union_r by (eapply attestors_None; [done| |done]; set_solver). apply carried_Some. split; [done|].
  eapply not_dropped; [done| |done]. set_solver.
Qed.
Lemma elem_of_puts kv : kv ∈ genesis_puts gs ↔
  kv = (ParamsKey, VParams (ig_Params gs)) ∨ (∃ i, i ∈ ig_Institutions gs ∧ (kv = enc_inst i ∨ kv = attest_put i)) ∨
  (∃ rg, kv = enc_role rg ∧ rg ∈ ig_RoleGrants gs) ∨ (∃ r, kv = enc_fx r ∧ r ∈ ig_FxRequests gs).
Proof.
  unfold genesis_puts. rewrite !elem_of_app, list_elem_of_singleton, !list_elem_of_fmap.
  assert (kv ∈ concat (map (λ i, [enc_inst i; attest_put i]) (ig_Institutions gs)) ↔ ∃ i, i ∈ ig_Institutions gs ∧ (kv = enc_inst i ∨ kv = attest_put i)) as ->; [|done].
  rewrite list_elem_of_In, in_concat. split.
  - intros (l & (i & <- & Hi)%in_map_iff & Hin). exists i. rewrite list_elem_of_In. split; [done|]. destruct Hin as [|[|[]]]; auto.
  - intros (i & Hi & Hkv). exists [enc_inst i; attest_put i]. rewrite in_map_iff. split; [exists i; by rewrite <- list_elem_of_In|].
    cbn. naive_solver.
Qed.
Definition under (p k : string) (v : inst_val) : Prop := st !! k = Some v ∧ has_prefix p k = true.
Definition live_under (p k : string) (v : inst_val) : Prop :=
  st !! k = Some v ∧ has_prefix p k = true ∧ of_pending (pendingRemovalSet st) p k = false.
Lemma elem_of_raw k v : (k, v) ∈ genesis_raw gs ↔
  under DepositPrefix k v ∨ under CounterPrefix k v ∨ live_under ApprovalPrefix k v ∨ under AdminEpochPrefix k v ∨
  under RedeemSubjectPrefix k v ∨ live_under HolderKycTierPrefix k v ∨ under LastAttestorPrefix k v.
Proof.
  unfold genesis_raw. rewrite !fmap_app, <- (ex_deposits _ _ Hex), <- (ex_counters _ _ Hex), <- (ex_approvals _ _ Hex), <- (ex_residual _ _ Hex).
  unfold residual_entries, live_under, under. rewrite !elem_of_app, !elem_of_prefix_iterator, !elem_of_live. done.
Qed.
Lemma puts_sound kv : kv ∈ genesis_puts gs → (admin_attestors st ∪ carried st) !! kv.1 = Some kv.2.
Proof.
  rewrite elem_of_puts. intros [->|[(i & Hi & [->| ->])|[(rg & -> & Hrg)|(r & -> & Hr)]]].
  - by apply (carried_put 0); [lia|by apply (bool_decide_unpack _)| |].
  - apply (carried_put 16); [lia|by apply (bool_decide_unpack _)|apply has_prefix_app|]. by apply listed_inst.
  - apply lookup_union_Some_l. apply attestors_Some. by exists i.
  - apply listed_role in Hrg as (addr & Hi & Ha & _ & E & Hk & Hn). unfold enc_role. rewrite E, decode_encode by done. cbn [fst snd default].
    rewrite lookup_union_r by (eapply (attestors_None 32); [lia|lia|apply has_prefix_app]). apply carried_Some. split; [done|].
    rewrite (dropped_ranged _ 32); [|by repeat constructor|apply has_prefix_app]. unfold RoleKey.
    fold RolePrefix. rewrite of_pending_key by (unfold id_ok, MaxInstitutionIDLen in Hi; lia). by apply bool_decide_eq_false.
  - apply (carried_put 96); [lia|by apply (bool_decide_unpack _)|apply has_prefix_app|]. by apply listed_fx.
Qed.
Lemma raw_sound kv : kv ∈ genesis_raw gs → carried st !! kv.1 = Some kv.2.
Proof.
  destruct kv as [k v]. rewrite elem_of_raw. cbn [fst snd]. rewrite carried_Some.
  assert (∀ z, 0 ≤ z < 256 → z ∉ [32; 48; 160; 176; 144] → under (key_prefix z) k v → st !! k = Some v ∧ dropped st k = false) as Hplain
    by (intros z Hz Hn [? ?]; split; [done|by eapply not_dropped]).
  assert (∀ z, z ∈ [32; 48; 160] → live_under (key_prefix z) k v → st !! k = Some v ∧ dropped st k = false) as Hranged
    by (intros z Hz (? & ? & ?); split; [done|by erewrite dropped_ranged]).
  intros [Hk|[Hk|[Hk|[Hk|[Hk|[Hk|Hk]]]]]].
  - by apply (Hplain 80); [lia|apply (bool_decide_unpack _)|].
  - by apply (Hplain 64); [lia|apply (bool_decide_unpack _)|].
  - by apply (Hranged 48); [repeat constructor|].
  - by apply (Hplain 112); [lia|apply (bool_decide_unpack _)|].
  - by apply (Hplain 128); [lia|apply (bool_decide_unpack _)|].
  - by apply (Hranged 160); [repeat constructor|].
  - by apply (Hplain 161); [lia|apply (bool_decide_unpack _)|].
Qed.
Lemma parse_removal id : id_ok id → ParseRemovalQueueKey (RemovalQueueKey id) = Some id.
Proof.
  intros Hid. unfold ParseRemovalQueueKey, RemovalQueueKey. rewrite <- (str_app_nil_r (RemovalQueuePrefix +:+ _)), str_app_assoc.
  apply IDFromLenPrefixedKey_spec. unfold id_ok, MaxInstitutionIDLen in *. lia.
Qed.
Lemma pending_key id : id_ok id → id ∈ pendingRemovalSet st ↔ HasPendingRemoval st id = true.
Proof.
  intros Hid. unfold pendingRemovalSet, HasPendingRemoval, Has. rewrite elem_of_list_to_set, list_elem_of_omap, bool_decide_eq_true. split.
  - intros ([k v] & [Hk Hpre]%elem_of_prefix_iterator & Hq). pose proof (ro_record _ Hok _ _ Hk) as Hr. cbn [fst] in Hq.
    record_inv Hr Hpre. rewrite parse_removal in Hq by done. injection Hq as ->. by exists (VBytes RemovalQueueMarkerByte).
  - intros [v Hk]. exists (RemovalQueueKey id, v). rewrite elem_of_prefix_iterator. split; [split; [done|apply has_prefix_app]|].
    by apply parse_removal.
Qed.

(** every record that is carried over is written *)
Lemma carried_listed k v : carried st !! k = Some v → k ∈ (genesis_puts gs).*1 ∨ k ∈ (genesis_raw gs).*1.
Proof.
  intros [Hk Hd]%carried_Some. pose proof (ro_record _ Hok _ _ Hk) as Hr.
  assert (∀ e, e ∈ genesis_puts gs → e.1 = k → k ∈ (genesis_puts gs).*1 ∨ k ∈ (genesis_raw gs).*1) as Hput
    by (intros e He <-; left; apply list_elem_of_fmap; by exists e).
  assert ((k, v) ∈ genesis_raw gs → k ∈ (genesis_puts gs).*1 ∨ k ∈ (genesis_raw gs).*1) as Hraw
    by (intros He; right; apply list_elem_of_fmap; by exists (k, v)).
  rewrite elem_of_raw in Hraw. setoid_rewrite elem_of_puts in Hput.
  destruct Hr as [p|i Hi|id addr r Hid Ha Hr|r Hr|id dir ref|id kind day rest n|id ch signer e|id e|day kind subject n|id holder t|id a|id|c].
  - eapply Hput; [by left|done].
  - apply (Hput (enc_inst i)); [right; left|done]. exists i. split; [by apply listed_inst|by left].
  - set (rg := mkRoleGrant id (AccAddress_String addr) r) in *. apply (Hput (enc_role rg)).
    + right; right; left. exists rg. split; [done|]. apply listed_role. exists addr. refine (conj Hid (conj Ha (conj Hr (conj eq_refl (conj Hk _))))).
      rewrite (dropped_ranged _ 32) in Hd; [|by repeat constructor|apply has_prefix_app]. unfold RoleKey in Hd. fold RolePrefix in Hd.
      rewrite of_pending_key in Hd by (unfold id_ok, MaxInstitutionIDLen in Hid; lia). by apply bool_decide_eq_false in Hd.
    + unfold enc_role, rg. cbn [rg_Institution rg_Address fst]. by rewrite decode_encode.
  - apply (Hput (enc_fx r)); [right; right; right|done]. exists r. split; [done|]. by apply listed_fx.
  - apply Hraw. left. split; [done|apply has_prefix_app].
  - apply Hraw. right; left. split; [done|]. unfold CounterUserKey, CounterTotalKey. rewrite !str_app_assoc. apply has_prefix_app.
  - apply Hraw. do 2 right. left. split_and!; [done|apply has_prefix_app|].
    rewrite <- Hd. symmetry. apply dropped_ranged; [by repeat constructor|apply has_prefix_app].
  - apply Hraw. do 3 right. left. split; [done|apply has_prefix_app].
  - apply Hraw. do 4 right. left. split; [done|apply has_prefix_app].
  - apply Hraw. do 5 right. left. split_and!; [done|apply has_prefix_app|].
    rewrite <- Hd. symmetry. apply dropped_ranged; [by repeat constructor|apply has_prefix_app].
  - apply Hraw. do 6 right. split; [done|apply has_prefix_app].
  - exfalso. revert Hd. unfold dropped, RemovalQueueKey. by rewrite has_prefix_app.
  - exfalso. revert Hd. unfold dropped. rewrite (bool_decide_eq_true_2 (_ = CounterPruneCursorKey)) by done. by rewrite orb_true_r.
Qed.
Lemma attestor_raw k v : carried st !! k = Some v → has_prefix LastAttestorPrefix k = true → k ∈ (genesis_raw gs).*1.
Proof.
  intros [Hk _]%carried_Some Hpre. apply list_elem_of_fmap. exists (k, v). split; [done|]. apply elem_of_raw. do 6 right. by split.
Qed.
Lemma restored : puts (genesis_raw gs) (puts (genesis_puts gs) ∅) = settled st.
Proof.
  apply map_eq. intros k. unfold puts, settled. rewrite (foldl_insert_lookup (carried st)) by apply raw_sound.
  rewrite (foldl_insert_lookup (admin_attestors st ∪ carried st)) by apply puts_sound. rewrite lookup_empty.
  destruct (carried st !! k) as [v|] eqn:Hc.
  - rewrite (lookup_union_Some_l (carried st) _ _ _ Hc). case_bool_decide as Hr; [done|].
    destruct (carried_listed _ _ Hc) as [Hin|]; [|done]. rewrite bool_decide_eq_true_2 by done.
    rewrite lookup_union_r; [done|]. apply eq_None_not_Some. intros [a [Hpre _]%attestor_key]. by eapply Hr, attestor_raw.
  - rewrite (lookup_union_r (carried st)) by done. rewrite bool_decide_eq_false_2.
    2:{ intros ([k' v'] & -> & Hin)%list_elem_of_fmap. apply raw_sound in Hin. cbn in *. congruence. }
    destruct (admin_attestors st !! k) as [a|] eqn:Ha.
    + rewrite bool_decide_eq_true_2; [by apply lookup_union_Some_l|]. apply attestors_Some in Ha as (i & Hi & -> & ->).
      apply list_elem_of_fmap. exists (attest_put i). split; [done|]. apply elem_of_puts. right; left. exists i. auto.
    + case_bool_decide as Hin; [|done]. by rewrite lookup_union_r, Hc.
Qed.
End restore.

(** ** The exported genesis is valid *)
Section valid.
Context `{AddressCodecLaws} `{!AddressText}.

Lemma id_ok_ne id : id_ok id → id ≠ "".
Proof. intros [Hi _] ->. done. Qed.
Lemma check_institution_ok floor i :
  institution_ok i → RedeemCapsBelowFloor (inst_Params i) floor = None → check_institution floor i = Ok tt.
Proof.
  intros [Hid Ha Ht (v & Hv & Hv0) (r & Hr & Hr0) Hp] Hf. unfold check_institution, IsNegative.
  rewrite Ha, Hv, Hr, Hp, Hf. cbn [mbind outcome_bind or_err negb err_if].
  rewrite (proj2 (Z.ltb_ge v 0)), (proj2 (Z.ltb_ge r 0)) by lia. by destruct Ht as [-> | ->].
Qed.
Lemma validate_institutions_ok floor seen l :
  Forall (λ i, institution_ok i ∧ RedeemCapsBelowFloor (inst_Params i) floor = None) l →
  NoDup (inst_Id <$> l) → (∀ i, i ∈ l → inst_Id i ∉ seen) →
  ∃ seen', validate_institutions floor seen l = Ok seen' ∧ ∀ x, x ∈ seen' ↔ x ∈ seen ∨ x ∈ inst_Id <$> l.
Proof.
  intros Hl. revert seen. induction Hl as [|i l [Hi Hf] Hl IH]; intros seen Hn Hs.
  { exists seen. split; [done|]. set_solver. }
  cbn [fmap list_fmap] in Hn. apply NoDup_cons in Hn as [Hni Hn]. cbn [validate_institutions].
  rewrite (bool_decide_eq_false_2 (inst_Id i = "")) by apply id_ok_ne, (io_id _ Hi).
  rewrite (proj2 (Z.ltb_ge _ _)) by apply (io_id _ Hi). rewrite (bool_decide_eq_false_2 (_ ∈ seen)) by (apply Hs; left).
  rewrite check_institution_ok by done. cbn [err_if mbind outcome_bind].
  destruct (IH ({[inst_Id i]} ∪ seen)) as (seen' & -> & Hx); [done| |].
  { intros j Hj. rewrite not_elem_of_union, not_elem_of_singleton. split; [|apply Hs; by right].
    intros E. apply Hni. rewrite <- E. apply list_elem_of_fmap. eauto. }
  exists seen'. split; [done|]. intros x. rewrite Hx. cbn [fmap list_fmap]. set_solver.
Qed.
Lemma validate_roles_ok seen roleSeen l :
  Forall (λ rg, rg_Institution rg ∈ seen ∧ is_bech32 (rg_Address rg) = true ∧
    INSTITUTION_ROLE_UNSPECIFIED < rg_Role rg ≤ INSTITUTION_ROLE_VIEWER) l →
  NoDup (dedupKey <$> l) → (∀ rg, rg ∈ l → dedupKey rg ∉ roleSeen) → validate_roles seen roleSeen l = Ok tt.
Proof.
  intros Hl. revert roleSeen. induction Hl as [|rg l (Hi & Ha & Hr) Hl IH]; intros roleSeen Hn Hs; [done|].
  cbn [fmap list_fmap] in Hn. apply NoDup_cons in Hn as [Hni Hn]. cbn [validate_roles].
  rewrite (bool_decide_eq_true_2 (rg_Institution rg ∈ seen)), Ha by done. cbn [negb err_if mbind outcome_bind].
  rewrite (proj2 (Z.leb_gt _ _)), (proj2 (Z.ltb_ge _ _)) by lia. cbn [orb err_if mbind outcome_bind].
  rewrite bool_decide_eq_false_2 by (apply Hs; left). cbn [err_if mbind outcome_bind]. apply IH; [done|].
  intros rg' Hin. rewrite not_elem_of_union, not_elem_of_singleton. split; [|apply Hs; by right].
  intros E. apply Hni. rewrite <- E. apply list_elem_of_fmap. eauto.
Qed.
Lemma validate_fx_ok seen fxSeen l :
  Forall (λ r, fx_ok r ∧ fx_FxId r ∉ seen) l → NoDup (fx_FxId <$> l) → (∀ r, r ∈ l → fx_FxId r ∉ fxSeen) →
  validate_fx seen fxSeen l = Ok tt.
Proof.
  intros Hl. revert fxSeen. induction Hl as [|r l [[Hi Ha Hg Ht] Hr] Hl IH]; intros fxSeen Hn Hs; [done|].
  cbn [fmap list_fmap] in Hn. apply NoDup_cons in Hn as [Hni Hn]. cbn [validate_fx].
  rewrite (bool_decide_eq_false_2 (fx_FxId r = "")) by by apply id_ok_ne.
  rewrite (proj2 (Z.ltb_ge _ _)) by apply Hi. rewrite (bool_decide_eq_false_2 (_ ∈ fxSeen)) by (apply Hs; left).
  rewrite (bool_decide_eq_false_2 (_ ∈ seen)), Ha, (bool_decide_eq_false_2 (_ = "")) by done. cbn [negb err_if mbind outcome_bind].
  assert (negb (fx_Status r =? FX_ENTRY_REQUESTED) && negb (fx_Status r =? FX_ENTRY_GUARANTEED) = false) as -> by by destruct Ht as [-> | ->].
  cbn [err_if mbind outcome_bind]. apply IH; [done|].
  intros r' Hin. rewrite not_elem_of_union, not_elem_of_singleton. split; [|apply Hs; by right].
  intros E. apply Hni. rewrite <- E. apply list_elem_of_fmap. eauto.
Qed.
(** a bech32 text has no zero byte, so the key of a grant determines it *)
Lemma dedupKey_inj rg rg' : is_bech32 (rg_Address rg) = true → is_bech32 (rg_Address rg') = true → dedupKey rg = dedupKey rg' →
  rg_Institution rg = rg_Institution rg' ∧ rg_Address rg = rg_Address rg'.
Proof.
  intros [a [_ Ha]%address_text]%bool_decide_eq_true [a' [_ Ha']%address_text]%bool_decide_eq_true E. by apply nul_split_last in E.
Qed.
Lemma raw_list_valid rules (l : list (string * inst_val)) es :
  NoDup (rule_Prefix <$> rules) → NoDup l.*1 → Forall (λ kv, raw_ok rules kv.1 kv.2) l → l = enc_kv <$> es → Validate es rules = Ok tt.
Proof.
  intros Hr Hn Hl ->. rewrite <- list_fmap_compose in Hn. apply validate_loop_spec; [done|]. split_and!; [exact Hn|set_solver|].
  intros [k v] He. rewrite Forall_forall in Hl. destruct (Hl (enc_kv (mkKV k v))) as (bz & [= <-] & Ho); [|done].
  apply list_elem_of_fmap. eauto.
Qed.

(** what the handlers do not guarantee of a store and validation demands *)
Record importable (now : Z) (st : InstStore) (p : Params) : Prop := {
  im_caps i : st !! InstitutionKey (inst_Id i) = Some (VInstitution i) →
    RedeemCapsBelowFloor (inst_Params i) (CapInt (RedeemFloorPerTx p)) = None;
  im_fx r : st !! FxRequestKey (fx_FxId r) = Some (VFxRequest r) → HasInstitution st (fx_FxId r) = false;
  im_started : 0 ≤ em_StartedAt (EmergencyRedemptionP p) ≤ now;
  im_attested i : st !! InstitutionKey (inst_Id i) = Some (VInstitution i) → 0 < inst_LastAttestedAt i ≤ now;
}.

Context (st : InstStore) (gs : InstGenesisState) (Hok : records_ok st) (Hp : st !! ParamsKey = Some (VParams (ig_Params gs))) (Hex : exports st gs).

Lemma has_listed id : HasInstitution st id = true ↔ id ∈ inst_Id <$> ig_Institutions gs.
Proof.
  unfold HasInstitution, Has. rewrite bool_decide_eq_true, list_elem_of_fmap. split.
  - intros [v Hv]. pose proof (ro_record _ Hok _ _ Hv) as Hr. apply record_institution in Hr as (i & _ & Ek & ->); [|apply has_prefix_InstitutionKey].
    apply InstitutionKey_inj in Ek as ->. exists i. split; [done|]. by apply (listed_inst st).
  - intros (i & -> & Hi). apply (listed_inst st) in Hi; [by eexists|done].
Qed.
Lemma roles_NoDup : NoDup (dedupKey <$> ig_RoleGrants gs).
Proof.
  apply NoDup_fmap_2_strong.
  - intros rg rg' (a & _ & Ha & _ & Ea & Hk & _)%(listed_role st gs Hok Hex) (a' & _ & Ha' & _ & Ea' & Hk' & _)%(listed_role st gs Hok Hex) E.
    assert (∀ a, valid_address a → is_bech32 (AccAddress_String a) = true) as Hb
      by (intros x Hx; apply bool_decide_eq_true; by rewrite decode_encode).
    apply dedupKey_inj in E as [Ei Ea2]; [|rewrite ?Ea, ?Ea'; auto..]. rewrite Ea, Ea' in Ea2. apply AccAddress_String_inj in Ea2 as ->; [|done..].
    rewrite Ei in Hk. congruence.
  - destruct (ex_roles _ _ Hex) as (grants & Hg & ->). apply NoDup_ListNoDup, List.NoDup_filter, NoDup_ListNoDup.
    pose proof (Iterator_NoDup st RolePrefix (PrefixEndBytes RolePrefix)) as Hn. change (Iterator _ _ _) with (KVStorePrefixIterator st RolePrefix) in Hn.
    rewrite Hg, <- list_fmap_compose in Hn. by apply NoDup_fmap_1 in Hn.
Qed.
Lemma fx_NoDup : NoDup (fx_FxId <$> ig_FxRequests gs).
Proof.
  pose proof (Iterator_NoDup st FxRequestPrefix (PrefixEndBytes FxRequestPrefix)) as Hn.
  change (Iterator _ _ _) with (KVStorePrefixIterator st FxRequestPrefix) in Hn. rewrite (ex_fx _ _ Hex), <- list_fmap_compose in Hn.
  apply (NoDup_fmap_1 (λ id, FxRequestKey id)). by rewrite <- list_fmap_compose.
Qed.
Lemma roles_listed : Forall (λ rg, ∃ addr, valid_address addr ∧ rg_Address rg = AccAddress_String addr) (ig_RoleGrants gs).
Proof. apply Forall_forall. intros rg (a & _ & Ha & _ & Ea & _)%(listed_role st gs Hok Hex). by exists a. Qed.
Lemma residual_NoDup : NoDup ((residual_entries st).*1).
Proof.
  unfold residual_entries. rewrite !fmap_app, !NoDup_app.
  assert (∀ z k, k ∈ (KVStorePrefixIterator st (key_prefix z)).*1 → has_prefix (key_prefix z) k = true) as Hu
    by (intros z k ([k' v] & -> & [_ ?]%elem_of_prefix_iterator)%list_elem_of_fmap; done).
  assert (∀ z k, k ∈ (live_entries st (key_prefix z)).*1 → has_prefix (key_prefix z) k = true) as Hl
    by (intros z k ([k' v] & -> & (_ & ? & _)%elem_of_live)%list_elem_of_fmap; done).
  assert (∀ z w k, 0 ≤ z < 256 → 0 ≤ w < 256 → z ≠ w → has_prefix (key_prefix z) k = true → has_prefix (key_prefix w) k = true → False) as Hd
    by (intros z w k ? ? Hne ? ?; by apply Hne, (prefix_bytes_distinct z w k)).
  split_and!; [apply Iterator_NoDup| |apply Iterator_NoDup| |apply live_NoDup| |apply Iterator_NoDup].
  all: intros k Hk; rewrite ?elem_of_app; intros Hin.
  - apply (Hu 112) in Hk. destruct Hin as [Hin%(Hu 128)|[Hin%(Hl 160)|Hin%(Hu 161)]]; (eapply Hd; [| | |exact Hk|exact Hin]; lia).
  - apply (Hu 128) in Hk. destruct Hin as [Hin%(Hl 160)|Hin%(Hu 161)]; (eapply Hd; [| | |exact Hk|exact Hin]; lia).
  - apply (Hl 160) in Hk. apply (Hu 161) in Hin. eapply Hd; [| | |exact Hk|exact Hin]; lia.
Qed.
Lemma residual_raw : Forall (λ kv, raw_ok residualRules kv.1 kv.2 ∧ IsResidualStoreKey kv.1 = true) (residual_entries st).
Proof.
  assert (∀ p k v, p ∈ ResidualStorePrefixes → st !! k = Some v → has_prefix p k = true → raw_ok residualRules k v ∧ IsResidualStoreKey k = true) as Hres
    by (intros p k v Hin Hk Hpre; eapply record_residual; [exact Hin|by eapply ro_record|done]).
  unfold residual_entries. rewrite !Forall_app. split_and!; (apply prefix_Forall || apply live_Forall).
  all: intros k v; apply Hres; unfold ResidualStorePrefixes; by repeat constructor.
Qed.
Lemma deposits_raw : Forall (λ kv, raw_ok deposit_rules kv.1 kv.2) (KVStorePrefixIterator st DepositPrefix).
Proof. apply prefix_Forall. intros k v Hk. apply record_deposit. by apply (ro_record _ Hok). Qed.
Lemma counters_raw : Forall (λ kv, raw_ok counter_rules kv.1 kv.2) (KVStorePrefixIterator st CounterPrefix).
Proof. apply prefix_Forall. intros k v Hk. apply record_counter. by apply (ro_record _ Hok). Qed.
Lemma approvals_raw : Forall (λ kv, raw_ok approval_rules kv.1 kv.2) (live_entries st ApprovalPrefix).
Proof. apply live_Forall. intros k v Hk. apply record_approval. by apply (ro_record _ Hok). Qed.
Lemma raw_entries_valid :
  Validate (ig_DepositMarkers gs) deposit_rules = Ok tt ∧ Validate (ig_CapCounters gs) counter_rules = Ok tt ∧
  Validate (ig_Approvals gs) approval_rules = Ok tt ∧ Validate (ig_StoreEntries gs) residualRules = Ok tt.
Proof.
  split_and!.
  - eapply raw_list_valid; [by apply (bool_decide_unpack _)|apply Iterator_NoDup|apply deposits_raw|apply (ex_deposits _ _ Hex)].
  - eapply raw_list_valid; [by apply (bool_decide_unpack _)|apply Iterator_NoDup|apply counters_raw|apply (ex_counters _ _ Hex)].
  - eapply raw_list_valid; [by apply (bool_decide_unpack _)|apply live_NoDup|apply approvals_raw|apply (ex_approvals _ _ Hex)].
  - eapply raw_list_valid; [by apply (bool_decide_unpack _)|apply residual_NoDup| |apply (ex_residual _ _ Hex)].
    eapply Forall_impl; [apply residual_raw|]. by intros kv [].
Qed.
Lemma timestamps_none (f : Z → bool) : (∀ t, t ∈ genesisTimestamps gs → f t = false) → existsb f (genesisTimestamps gs) = false.
Proof. intros Hf. apply not_true_iff_false. intros (t & Hin%list_elem_of_In & Ht)%existsb_exists. by rewrite Hf in Ht. Qed.

Context (now : Z) (Him : importable now st (ig_Params gs)).
Lemma timestamps_within t : t ∈ genesisTimestamps gs → 0 ≤ t ≤ now.
Proof.
  unfold genesisTimestamps. intros [->|(i & -> & Hi)%list_elem_of_fmap]%elem_of_cons; [apply (im_started _ _ _ Him)|].
  apply (listed_inst st) in Hi; [|done]. apply (im_attested _ _ _ Him) in Hi. lia.
Qed.
Lemma exported_params_valid : Params_Validate (ig_Params gs) = Ok tt.
Proof. pose proof (ro_record _ Hok _ _ Hp) as Hr. by inversion Hr. Qed.
Lemma exported_roles_valid seen : (∀ id, id ∈ seen ↔ HasInstitution st id = true) → validate_roles seen ∅ (ig_RoleGrants gs) = Ok tt.
Proof.
  intros Hs. apply validate_roles_ok; [apply Forall_forall|apply roles_NoDup|set_solver].
  intros rg (a & Hi & Ha & Hr & Ea & Hk & Hn)%(listed_role st gs Hok Hex). split; [|split; [|done]].
  - apply Hs. destruct (ro_role _ Hok _ _ _ Hi Hk) as [?|Hpend]; [done|]. by apply (pending_key st Hok) in Hpend.
  - rewrite Ea. apply bool_decide_eq_true. by rewrite decode_encode.
Qed.
Lemma exported_fx_valid seen : (∀ id, id ∈ seen ↔ HasInstitution st id = true) → validate_fx seen ∅ (ig_FxRequests gs) = Ok tt.
Proof.
  intros Hs. apply validate_fx_ok; [apply Forall_forall|apply fx_NoDup|set_solver].
  intros r Hr%(listed_fx st gs Hex). split.
  - pose proof (ro_record _ Hok _ _ Hr) as Hro. apply record_fx in Hro as (r' & Hr' & _ & [= <-]); [done|apply has_prefix_app].
  - by rewrite Hs, (im_fx _ _ _ Him _ Hr).
Qed.
Lemma inst_exported_valid : ValidateAtTime gs now = Ok tt.
Proof.
  unfold ValidateAtTime, InstGenesis_Validate. rewrite exported_params_valid. cbn [mbind outcome_bind].
  rewrite timestamps_none by (intros t Ht%timestamps_within; apply Z.ltb_ge; lia). cbn [err_if mbind outcome_bind].
  destruct (validate_institutions_ok (CapInt (RedeemFloorPerTx (ig_Params gs))) ∅ (ig_Institutions gs)) as (seen & -> & Hseen).
  - apply Forall_forall. intros i Hi. split; [by eapply (admin_text st)|]. apply (im_caps _ _ _ Him). by apply (listed_inst st gs Hex).
  - by eapply ids_NoDup.
  - set_solver.
  - cbn [mbind outcome_bind]. assert (∀ id, id ∈ seen ↔ HasInstitution st id = true) as Hs by (intros id; rewrite Hseen, has_listed; set_solver).
    destruct raw_entries_valid as (Hd & Hc & Ha & Hr). rewrite exported_roles_valid, exported_fx_valid, Hd, Hc, Ha, Hr by done.
    cbn [mbind outcome_bind]. by rewrite timestamps_none by (intros t Ht%timestamps_within; apply Z.ltb_ge; lia).
Qed.
Lemma raw_keys rules l es (P : string → Prop) : Forall (λ kv, raw_ok rules kv.1 kv.2 ∧ P kv.1) l → l = enc_kv <$> es → Forall (λ e, P (Key e)) es.
Proof.
  intros Hl ->. apply Forall_fmap in Hl. eapply Forall_impl; [exact Hl|]. by intros e [_ ?].
Qed.
Lemma rule_under rules p k v : (∀ r, r ∈ rules → rule_Prefix r = p) → raw_ok rules k v → raw_ok rules k v ∧ strictly_under k p = true.
Proof. intros Hr Ho. split; [done|]. destruct Ho as (bz & _ & _ & r & (Hin & Hu & _) & _). by rewrite <- (Hr r Hin). Qed.
Lemma import_settles : import_store now gs ∅ = (Ok tt, settled st).
Proof.
  rewrite import_store_puts; [by rewrite (restored st)|apply inst_exported_valid|apply exported_params_valid| |apply roles_listed| | | |].
  - apply Forall_forall. intros i Hi. destruct (admin_text st gs Hok Hex i Hi) as [_ Hio]. apply (listed_inst st gs Hex) in Hi.
    apply (im_attested _ _ _ Him) in Hi. split; [lia|apply (io_admin _ Hio)].
  - eapply (raw_keys deposit_rules _ _ (λ k, strictly_under k DepositPrefix = true)); [|apply (ex_deposits _ _ Hex)].
    eapply Forall_impl; [apply deposits_raw|]. intros kv. apply rule_under. by intros r ->%list_elem_of_singleton.
  - eapply (raw_keys counter_rules _ _ (λ k, strictly_under k CounterPrefix = true)); [|apply (ex_counters _ _ Hex)].
    eapply Forall_impl; [apply counters_raw|]. intros kv. apply rule_under. by intros r ->%list_elem_of_singleton.
  - eapply (raw_keys approval_rules _ _ (λ k, strictly_under k ApprovalPrefix = true)); [|apply (ex_approvals _ _ Hex)].
    eapply Forall_impl; [apply approvals_raw|]. intros kv. apply rule_under. by intros r ->%list_elem_of_singleton.
  - eapply (raw_keys residualRules _ _ (λ k, IsResidualStoreKey k = true)); [|apply (ex_residual _ _ Hex)]. apply residual_raw.
Qed.
End valid.
