(* ===== verification/LegacyDec.v ===== *)
(** * math.LegacyDec

    The 18-decimal fixed-point number of [vendor/cosmossdk.io/math/legacy_dec.go]:
    a decimal is the integer [i] that stands for [i / 10^18].  Products and quotients
    round half to even; a result outside the 256-bit range panics. *)
From stdpp Require Import base gmap strings list.
From Stdlib Require Import ZArith Lia Ascii String.
From S2P Require Import Prelude GoInt KVStore.

Definition LegacyPrecision : Z := 18.
Definition precisionReuse : Z := 10 ^ 18.
Definition fivePrecision : Z := precisionReuse / 2.
Definition upperLimit : Z := 2 ^ 256 * precisionReuse - 1.

Definition IsInValidRange (d : Z) : bool := (d <=? upperLimit) && (- upperLimit <=? d).
Definition assertInValidRange (d : Z) : outcome Z :=
  if IsInValidRange d then Ok d else Panic "Int overflow".

Definition LegacyZeroDec : Z := 0.
Definition LegacyOneDec : Z := precisionReuse.
Definition LegacyNewDecFromInt (i : Z) : Z := i * precisionReuse.

(** on a non-negative integer *)
Definition chop_nonneg (d : Z) : Z :=
  let quo := Z.quot d precisionReuse in
  let rem := Z.rem d precisionReuse in
  if rem =? 0 then quo
  else match Z.compare rem fivePrecision with
       | Lt => quo
       | Gt => quo + 1
       | Eq => if Z.even quo then quo else quo + 1
       end.
Definition chopPrecisionAndRound (d : Z) : Z :=
  if d <? 0 then - chop_nonneg (- d) else chop_nonneg d.

Definition Dec_Add (a b : Z) : outcome Z := assertInValidRange (a + b).
Definition Dec_Mul (a b : Z) : outcome Z := assertInValidRange (chopPrecisionAndRound (a * b)).
Definition Dec_Quo (a b : Z) : outcome Z :=
  if b =? 0 then Panic "division by zero"
  else assertInValidRange (chopPrecisionAndRound (Z.quot (a * (precisionReuse * precisionReuse)) b)).

(** ** Text *)

(** [new(big.Int).SetString(s, 10)]: an optional sign and decimal digits, no
    separators *)
Fixpoint decimal_digits (s : string) (acc : Z) : option Z :=
  match s with
  | EmptyString => Some acc
  | String c s' => if digit_value c <? 10 then decimal_digits s' (acc * 10 + digit_value c) else None
  end.
Definition decimal_nat (s : string) : option Z :=
  match s with EmptyString => None | _ => decimal_digits s 0 end.
Definition SetString10 (s : string) : option Z :=
  match s with
  | String "-" s' => Z.opp <$> decimal_nat s'
  | String "+" s' => decimal_nat s'
  | _ => decimal_nat s
  end.

(** [strings.Split(s, ".")] *)
Fixpoint split_dot (s : string) : list string :=
  match s with
  | EmptyString => [EmptyString]
  | String c s' =>
      if Ascii.eqb c "." then EmptyString :: split_dot s'
      else match split_dot s' with
           | [] => [str1 c]
           | p :: ps => String c p :: ps
           end
  end.
Fixpoint repeat_zero (n : nat) : string :=
  match n with O => EmptyString | S n' => String "0" (repeat_zero n') end.

Definition scaled (neg : bool) (combined : string) (lenDecs : Z) : option Z :=
  if LegacyPrecision <? lenDecs then None else
  z ← SetString10 (combined +:+ repeat_zero (Z.to_nat (LegacyPrecision - lenDecs)));
  let r := if neg : bool then - z else z in
  if IsInValidRange r then Some r else None.

Definition LegacyNewDecFromStr (str : string) : option Z :=
  let '(neg, s) := match str with String "-" s => (true, s) | _ => (false, str) end in
  if strlen s =? 0 then None else
  match split_dot s with
  | [whole] => scaled neg whole 0
  | [whole; frac] =>
      if (strlen frac =? 0) || (strlen whole =? 0) then None
      else scaled neg (whole +:+ frac) (strlen frac)
  | _ => None
  end.

Example dec_parse :
  LegacyNewDecFromStr "0.5" = Some (5 * 10 ^ 17) ∧ LegacyNewDecFromStr "-1" = Some (- 10 ^ 18) ∧
  LegacyNewDecFromStr "1.000000000000000000" = Some LegacyOneDec ∧
  LegacyNewDecFromStr ".5" = None ∧ LegacyNewDecFromStr "1." = None ∧ LegacyNewDecFromStr "1.2.3" = None ∧
  LegacyNewDecFromStr "0.0000000000000000001" = None ∧ LegacyNewDecFromStr "1_0" = None.
Proof. vm_compute. done. Qed.

(** ** Rounding *)

(** rounding moves a product by at most half a unit in the last place *)
Lemma chop_error d : 2 * Z.abs (d - chopPrecisionAndRound d * precisionReuse) ≤ precisionReuse.
Proof.
  assert (∀ n, 0 ≤ n → 2 * Z.abs (n - chop_nonneg n * precisionReuse) ≤ precisionReuse) as Hn.
  { intros n Hn. unfold chop_nonneg, fivePrecision, precisionReuse.
    rewrite Z.quot_div_nonneg, Z.rem_mod_nonneg by lia.
    pose proof (Z.div_mod n (10 ^ 18) ltac:(lia)). pose proof (Z.mod_pos_bound n (10 ^ 18) ltac:(lia)).
    change (10 ^ 18 / 2) with (5 * 10 ^ 17).
    destruct (Z.eqb_spec (n mod 10 ^ 18) 0); [lia|].
    destruct (Z.compare_spec (n mod 10 ^ 18) (5 * 10 ^ 17)); [destruct (Z.even _); lia|lia|lia]. }
  unfold chopPrecisionAndRound. destruct (Z.ltb_spec d 0); [|by apply Hn].
  specialize (Hn (- d) ltac:(lia)). lia.
Qed.
Lemma chop_exact n : chopPrecisionAndRound (n * precisionReuse) = n.
Proof.
  pose proof (chop_error (n * precisionReuse)) as H. unfold precisionReuse in *. lia.
Qed.
Lemma chop_mono_nonneg d : 0 ≤ d → 0 ≤ chopPrecisionAndRound d.
Proof.
  intros Hd. pose proof (chop_error d) as H. unfold precisionReuse in *. lia.
Qed.

Lemma assertInValidRange_Ok d c : assertInValidRange d = Ok c ↔ c = d ∧ Z.abs d ≤ upperLimit.
Proof.
  unfold assertInValidRange, IsInValidRange.
  destruct (Z.leb_spec d upperLimit), (Z.leb_spec (- upperLimit) d); simpl; naive_solver lia.
Qed.

(** multiplying an integer by a decimal is exact *)
Lemma Dec_Mul_int n s : Z.abs (n * s) ≤ upperLimit → Dec_Mul (LegacyNewDecFromInt n) s = Ok (n * s).
Proof.
  intros H. unfold Dec_Mul, LegacyNewDecFromInt.
  replace (n * precisionReuse * s) with (n * s * precisionReuse) by lia.
  rewrite chop_exact. by apply assertInValidRange_Ok.
Qed.

(** the quotient of two integers: off by at most half a unit in the last place, plus
    what the truncated division at double precision drops *)
Lemma Dec_Quo_int a b q :
  0 ≤ a → 0 < b → Dec_Quo (LegacyNewDecFromInt a) (LegacyNewDecFromInt b) = Ok q →
  0 ≤ q ∧ 2 * Z.abs (a * precisionReuse - q * b) * precisionReuse ≤ b * (precisionReuse + 2).
Proof.
  intros Ha Hb. unfold Dec_Quo, LegacyNewDecFromInt.
  assert (0 < precisionReuse) as HP by done. revert HP.
  assert (∀ t, 0 ≤ t → 0 ≤ chopPrecisionAndRound t) as Hc by apply chop_mono_nonneg.
  assert (∀ d, 2 * Z.abs (d - chopPrecisionAndRound d * precisionReuse) ≤ precisionReuse) as He by apply chop_error.
  revert Hc He. generalize precisionReuse as P. intros P Hc He HP.
  destruct (Z.eqb_spec (b * P) 0) as [E|_]; [nia|]. intros [-> _]%assertInValidRange_Ok.
  replace (a * P * (P * P)) with (a * (P * P) * P) by lia.
  rewrite Z.quot_mul_cancel_r by lia. rewrite Z.quot_div_nonneg by nia.
  pose proof (Z.div_mod (a * (P * P)) b ltac:(lia)) as Hd.
  pose proof (Z.mod_pos_bound (a * (P * P)) b ltac:(lia)) as Hm.
  assert (0 ≤ a * (P * P) / b) as Ht by (apply Z.div_pos; nia).
  specialize (Hc _ Ht). specialize (He (a * (P * P) / b)). split; [done|].
  revert Hd Hm Ht Hc He. generalize (a * (P * P) / b) as t. generalize ((a * (P * P)) mod b) as r.
  intros r t. generalize (chopPrecisionAndRound t) as c. intros c Hd Hm Ht Hc He.
  replace (2 * Z.abs (a * P - c * b) * P) with (2 * Z.abs (b * (t - c * P) + r)); [nia|].
  replace (b * (t - c * P) + r) with ((a * P - c * b) * P) by lia. rewrite Z.abs_mul. lia.
Qed.
