(* ===== verification/GovTypes.v ===== *)
(** * x/governance: types

    [x/governance/types]: the vote-route table and the classifier, the store keys of
    the running tally, the genesis record.  The classifier's contract is stated and
    proved here: a proposal is technical exactly when it is non-empty and every one of
    its messages is listed as technical, and no table whatever can make a change of
    the table itself technical. *)
From stdpp Require Import base gmap strings list fin_maps sorting.
From Stdlib Require Import ZArith Lia.
From S2P Require Import Prelude GoInt KVStore StoreEntry.

Definition MappingUpdateMsgTypeURL : string := "/phi.governance.MsgUpdateParams".

(** ** The route table *)

(** [VoteRoute] is an open protobuf enum: a decoded message may carry any int32 *)
Definition VOTE_ROUTE_UNSPECIFIED : Z := 0.
Definition VOTE_ROUTE_PUBLIC : Z := 1.
Definition VOTE_ROUTE_TECHNICAL : Z := 2.

Record VoteRouteEntry := mkRoute { MsgTypeUrl : string; Route : Z }.
Record Params := mkParams { VoteRoutes : list VoteRouteEntry }.

Definition DefaultTechnicalMsgTypeURLs : list string :=
  ["/cosmos.consensus.v1.MsgUpdateParams";
   "/cosmos.distribution.v1beta1.MsgUpdateParams";
   "/cosmos.slashing.v1beta1.MsgUpdateParams";
   "/cosmos.staking.v1beta1.MsgUpdateParams";
   "/cosmos.upgrade.v1beta1.MsgCancelUpgrade";
   "/cosmos.upgrade.v1beta1.MsgSoftwareUpgrade"].
Definition DefaultParams : Params :=
  mkParams (map (λ url, mkRoute url VOTE_ROUTE_TECHNICAL) DefaultTechnicalMsgTypeURLs).

(** one row, given the urls of the rows before it *)
Definition validate_route (seen : gset string) (e : VoteRouteEntry) : outcome unit :=
  err_if (bool_decide (MsgTypeUrl e = "")) (Plain "empty msg_type_url");;
  err_if (negb (has_prefix "/" (MsgTypeUrl e))) (Plain "must start with '/'");;
  err_if (bool_decide (MsgTypeUrl e ∈ seen)) (Plain "duplicate vote_route entry");;
  err_if (negb (Route e =? VOTE_ROUTE_PUBLIC) && negb (Route e =? VOTE_ROUTE_TECHNICAL))
    (Plain "must be PUBLIC or TECHNICAL");;
  err_if (bool_decide (MsgTypeUrl e = MappingUpdateMsgTypeURL)) (Plain "not table-governed").
Fixpoint validate_routes (seen : gset string) (l : list VoteRouteEntry) : outcome unit :=
  match l with
  | [] => Ok tt
  | e :: l' => validate_route seen e;; validate_routes ({[MsgTypeUrl e]} ∪ seen) l'
  end.
Definition Params_Validate (p : Params) : outcome unit := validate_routes ∅ (VoteRoutes p).

(** a later row replaces an earlier one of the same url *)
Definition RouteTable (p : Params) : gmap string Z :=
  foldl (λ m e, <[MsgTypeUrl e := Route e]> m) ∅ (VoteRoutes p).

(** a missing key of a Go map reads as the zero route *)
Definition RouteFor (msgTypeURL : string) (table : gmap string Z) : Z :=
  if bool_decide (msgTypeURL = MappingUpdateMsgTypeURL) then VOTE_ROUTE_PUBLIC
  else if default VOTE_ROUTE_UNSPECIFIED (table !! msgTypeURL) =? VOTE_ROUTE_TECHNICAL
  then VOTE_ROUTE_TECHNICAL
  else VOTE_ROUTE_PUBLIC.

(** a message enters the classifier through its type url only *)
Fixpoint classify_loop (msgs : list string) (table : gmap string Z) : bool :=
  match msgs with
  | [] => false
  | m :: ms => (RouteFor m table =? VOTE_ROUTE_PUBLIC) || classify_loop ms table
  end.
Definition Classify (msgs : list string) (table : gmap string Z) : Z :=
  if classify_loop msgs table then VOTE_ROUTE_PUBLIC
  else if Z.of_nat (length msgs) =? 0 then VOTE_ROUTE_PUBLIC
  else VOTE_ROUTE_TECHNICAL.

(** ** Keys *)
Definition ParamsKey : string := key_prefix 0x00.
Definition TallyCountPrefix : string := key_prefix 0x10.
Definition TallyTurnoutPrefix : string := key_prefix 0x11.
Definition CountedVotePrefix : string := key_prefix 0x12.
Definition ProposalEligibilityPrefix : string := key_prefix 0x13.
Definition PrunePrefix : string := key_prefix 0x14.

Definition GenesisStorePrefixes : list string :=
  [TallyCountPrefix; TallyTurnoutPrefix; CountedVotePrefix; ProposalEligibilityPrefix; PrunePrefix].
Definition IsGenesisStoreKey (key : string) : bool :=
  existsb (strictly_under key) GenesisStorePrefixes.

Definition IneligibleVoteMarker : Z := 0xFF.

Definition Uint64Key (v : Z) : string := be64 v.
(** the proposal's part of the running counts *)
Definition TallyCountPrefixFor (proposalID : Z) : string := TallyCountPrefix +:+ Uint64Key proposalID.
Definition TallyCountKey (proposalID option : Z) : string :=
  TallyCountPrefixFor proposalID +:+ str1 (byte option).
Definition TallyTurnoutKey (proposalID : Z) : string := TallyTurnoutPrefix +:+ Uint64Key proposalID.
Definition CountedVotePrefixFor (proposalID : Z) : string := CountedVotePrefix +:+ Uint64Key proposalID.
Definition CountedVoteKey (proposalID : Z) (voter : string) : string :=
  CountedVotePrefixFor proposalID +:+ voter.
Definition ProposalEligibilityKey (proposalID : Z) : string :=
  ProposalEligibilityPrefix +:+ Uint64Key proposalID.
Definition PruneKey (proposalID : Z) : string := PrunePrefix +:+ Uint64Key proposalID.

#[global] Arguments TallyCountPrefixFor : simpl never.
#[global] Arguments TallyCountKey : simpl never.
#[global] Arguments TallyTurnoutKey : simpl never.
#[global] Arguments CountedVotePrefixFor : simpl never.
#[global] Arguments CountedVoteKey : simpl never.
#[global] Arguments ProposalEligibilityKey : simpl never.
#[global] Arguments PruneKey : simpl never.

Definition AllStorePrefixes : list Prefix :=
  [mkPrefix "params" ParamsKey CarryExact "";
   mkPrefix "tally_counts" TallyCountPrefix CarryExact "";
   mkPrefix "tally_turnout" TallyTurnoutPrefix CarryExact "";
   mkPrefix "counted_votes" CountedVotePrefix CarryExact "";
   mkPrefix "proposal_eligibility" ProposalEligibilityPrefix CarryExact "";
   mkPrefix "prune_queue" PrunePrefix CarryExact ""].

(** ** Genesis *)
Record GenesisState := mkGenesis { gs_Params : Params; gs_StoreEntries : list KV }.
Definition DefaultGenesis : GenesisState := mkGenesis DefaultParams [].

Definition storeEntryRules : list Rule :=
  [mkRule "running tally count" TallyCountPrefix (Some Uint64NoOverflow);
   mkRule "turnout" TallyTurnoutPrefix (Some Uint64NoOverflow);
   mkRule "counted-vote marker" CountedVotePrefix (Some (FixedLen 1));
   mkRule "frozen eligibility basis" ProposalEligibilityPrefix (Some (OneOfLen [16; 24]));
   mkRule "pruning-queue marker" PrunePrefix (Some NonEmpty)].
Definition GenesisState_Validate (gs : GenesisState) : outcome unit :=
  Params_Validate (gs_Params gs);;
  StoreEntry.Validate (gs_StoreEntries gs) storeEntryRules.

(** ** The classifier *)
Lemma RouteFor_technical url table :
  RouteFor url table = VOTE_ROUTE_TECHNICAL ↔
  url ≠ MappingUpdateMsgTypeURL ∧ table !! url = Some VOTE_ROUTE_TECHNICAL.
Proof.
  unfold RouteFor. case_bool_decide as Hu; [naive_solver|].
  destruct (table !! url) as [r|]; simpl; [|naive_solver].
  destruct (Z.eqb_spec r VOTE_ROUTE_TECHNICAL); naive_solver.
Qed.
Lemma RouteFor_cases url table :
  RouteFor url table = VOTE_ROUTE_PUBLIC ∨ RouteFor url table = VOTE_ROUTE_TECHNICAL.
Proof. unfold RouteFor. repeat case_match; auto. Qed.
Lemma classify_loop_false msgs table :
  classify_loop msgs table = false ↔ Forall (λ m, RouteFor m table = VOTE_ROUTE_TECHNICAL) msgs.
Proof.
  induction msgs as [|m ms IH]; simpl; [by rewrite Forall_nil|].
  rewrite Forall_cons, <- IH, orb_false_iff, Z.eqb_neq.
  destruct (RouteFor_cases m table) as [->| ->]; naive_solver.
Qed.
Lemma Classify_technical msgs table :
  Classify msgs table = VOTE_ROUTE_TECHNICAL ↔
  msgs ≠ [] ∧ Forall (λ m, m ≠ MappingUpdateMsgTypeURL ∧ table !! m = Some VOTE_ROUTE_TECHNICAL) msgs.
Proof.
  unfold Classify.
  assert (Forall (λ m, m ≠ MappingUpdateMsgTypeURL ∧ table !! m = Some VOTE_ROUTE_TECHNICAL) msgs ↔
          classify_loop msgs table = false) as ->.
  { rewrite classify_loop_false. apply Forall_iff. intros m. symmetry. apply RouteFor_technical. }
  destruct (classify_loop msgs table); [naive_solver|].
  destruct msgs; simpl; naive_solver.
Qed.

(** ** The table *)
Lemma validate_routes_Ok seen l :
  validate_routes seen l = Ok tt ↔
  NoDup (MsgTypeUrl <$> l) ∧ (∀ e, e ∈ l → MsgTypeUrl e ∉ seen) ∧
  Forall (λ e, has_prefix "/" (MsgTypeUrl e) = true ∧
               (Route e = VOTE_ROUTE_PUBLIC ∨ Route e = VOTE_ROUTE_TECHNICAL) ∧
               MsgTypeUrl e ≠ MappingUpdateMsgTypeURL) l.
Proof.
  revert seen. induction l as [|e l IH]; intros seen.
  { simpl. split; [|done]. intros _. split_and!; [constructor|set_solver|constructor]. }
  cbn [validate_routes]. rewrite fmap_cons, NoDup_cons, Forall_cons. split.
  - intros H. unfold validate_route in H. go_inv. bool_prop.
    match goal with H : validate_routes _ _ = Ok ?u |- _ => destruct u; apply IH in H as (Hd & Hs & Hf) end.
    split_and!; [|done|set_solver|done| |done|done].
    + intros [e' [He' Hin]]%list_elem_of_fmap. specialize (Hs e' Hin). set_solver.
    + match goal with H : _ && _ = false |- _ => apply andb_false_iff in H as [H|H] end; bool_prop; auto.
  - intros ([Hk Hd] & Hs & (Hp & Hr & Hm) & Hf). unfold validate_route.
    rewrite (bool_decide_eq_false_2 (MsgTypeUrl e = "")) by (intros E; rewrite E in Hp; done).
    rewrite Hp. cbn [negb err_if mbind outcome_bind].
    rewrite (bool_decide_eq_false_2 (MsgTypeUrl e ∈ seen)) by (apply Hs; left). cbn [err_if mbind outcome_bind].
    assert (negb (Route e =? VOTE_ROUTE_PUBLIC) && negb (Route e =? VOTE_ROUTE_TECHNICAL) = false) as ->
      by (destruct Hr as [-> | ->]; done). cbn [err_if mbind outcome_bind].
    rewrite bool_decide_eq_false_2 by done. cbn [err_if mbind outcome_bind].
    apply IH. split_and!; [done| |done]. intros e' He'. rewrite not_elem_of_union, not_elem_of_singleton.
    split; [|by apply Hs; right]. intros E. apply Hk. rewrite <- E. apply list_elem_of_fmap. eauto.
Qed.

(** without duplicate rows the table is the list, whatever the order of the rows *)
Lemma RouteTable_lookup p url r :
  NoDup (MsgTypeUrl <$> VoteRoutes p) →
  RouteTable p !! url = Some r ↔ mkRoute url r ∈ VoteRoutes p.
Proof.
  unfold RouteTable. generalize (VoteRoutes p) as l. intros l Hnd.
  assert (∀ m : gmap string Z, (∀ e, e ∈ l → m !! MsgTypeUrl e = None) →
    foldl (λ m e, <[MsgTypeUrl e := Route e]> m) m l !! url = Some r ↔ mkRoute url r ∈ l ∨ m !! url = Some r) as Hg.
  { induction l as [|e l IH]; intros m Hm; simpl; [set_solver|].
    rewrite fmap_cons in Hnd. apply NoDup_cons in Hnd as [Hk Hnd].
    rewrite IH; [|done|].
    - rewrite elem_of_cons, lookup_insert_Some. destruct e as [u q]. simpl in *.
      specialize (Hm (mkRoute u q) ltac:(left)). simpl in Hm. naive_solver.
    - intros e' He'. rewrite lookup_insert_ne; [apply Hm; by right|]. intros E. apply Hk. rewrite E.
      apply list_elem_of_fmap. eauto. }
  rewrite Hg by set_solver. rewrite lookup_empty. naive_solver.
Qed.

(** C34: the vote route of a proposal.  Under a validated table, [Classify] answers
    TECHNICAL exactly when the proposal carries at least one message and every message
    has a TECHNICAL row in the table; everything else, the empty proposal and unlisted
    messages included, is PUBLIC.  In particular no validated table has a row for the
    message that changes the table, so a change of the table is always PUBLIC, alone
    or bundled with technical messages. *)
Theorem classify_no_capture p msgs :
  Params_Validate p = Ok tt →
  (Classify msgs (RouteTable p) = VOTE_ROUTE_TECHNICAL ↔
     msgs ≠ [] ∧ ∀ m, m ∈ msgs → mkRoute m VOTE_ROUTE_TECHNICAL ∈ VoteRoutes p) ∧
  (Classify msgs (RouteTable p) ≠ VOTE_ROUTE_TECHNICAL → Classify msgs (RouteTable p) = VOTE_ROUTE_PUBLIC) ∧
  (MappingUpdateMsgTypeURL ∈ msgs → ∀ table, Classify msgs table = VOTE_ROUTE_PUBLIC).
Proof.
  intros (Hnd & _ & Hf)%validate_routes_Ok. rewrite Forall_forall in Hf.
  assert (∀ t, Classify msgs t ≠ VOTE_ROUTE_TECHNICAL → Classify msgs t = VOTE_ROUTE_PUBLIC) as Hc.
  { intros t. unfold Classify. repeat case_match; naive_solver. }
  split_and!; [|apply Hc|].
  - rewrite Classify_technical, Forall_forall. setoid_rewrite RouteTable_lookup; [|done].
    split; intros [Hne H]; (split; [done|]); intros m Hm; [by apply H|].
    split; [|by apply H]. by destruct (Hf _ (H m Hm)) as (_ & _ & ?).
  - intros Hm t. apply Hc. intros [_ H]%Classify_technical. rewrite Forall_forall in H.
    by destruct (H _ Hm).
Qed.
Lemma classify_no_capture_witness :
  Classify ["/cosmos.upgrade.v1beta1.MsgSoftwareUpgrade"; MappingUpdateMsgTypeURL] (RouteTable DefaultParams)
  = VOTE_ROUTE_PUBLIC.
Proof.
  refine (proj2 (proj2 (classify_no_capture DefaultParams _ _)) _ _); [vm_compute; reflexivity|].
  right. left.
Defined.
