(* ===== verification/GovKeeper.v ===== *)
(** * x/governance: the keeper and its running tally

    [x/governance/keeper]: the frozen eligibility basis, the per-option counts, the
    turnout and the per-voter records, the pruning queue, genesis and the parameter
    update.  The parameters are the one protobuf record of the store; its key [0x00]
    lies under none of the raw prefixes, so the store is the parameters and the raw
    records. *)
From stdpp Require Import base gmap strings list fin_maps sorting.
From Stdlib Require Import ZArith Lia.
From S2P Require Import Prelude GoInt KVStore StoreEntry Interfaces GovTypes.

Record GovStore := mkGovStore {
  gs_params : option Params;
  gs_raw : KVStore string;
}.
Definition set_raw (k v : string) (st : GovStore) : GovStore :=
  mkGovStore (gs_params st) (<[k := v]> (gs_raw st)).
Definition del_raw (k : string) (st : GovStore) : GovStore :=
  mkGovStore (gs_params st) (delete k (gs_raw st)).

(** ** Parameters *)
Definition GetParams (st : GovStore) : Params := default DefaultParams (gs_params st).
Definition SetParams (p : Params) : M GovStore unit :=
  lift (Params_Validate p);;
  modify (λ st, mkGovStore (Some p) (gs_raw st)).
Definition VoteRouteTable (st : GovStore) : gmap string Z := RouteTable (GetParams st).

Record MsgUpdateParams := mkMsgUpdateParams { up_Authority : string; up_Params : Params }.
Definition UpdateParams (authority : string) (msg : MsgUpdateParams) : M GovStore unit :=
  fail_if (negb (bool_decide (up_Authority msg = authority))) ErrInvalidSigner;;
  SetParams (up_Params msg).

(** ** Integers *)
Definition encodeUint64 (v : Z) : string := be64 v.
(** a nil value reads as the empty byte string *)
Definition decodeUint64 (bz : option string) : Z :=
  match bz with
  | Some b => if strlen b =? 8 then BigEndian_Uint b else 0
  | None => 0
  end.
Definition applyDelta (cur d : Z) : Z :=
  if d <? 0 then
    let m := u64 (i64 (- d)) in
    if cur <? m then 0 else cur - m
  else u64 (cur + u64 d).

(** ** The frozen basis *)
Record FrozenEligibility := mkFrozen { Denominator : Z; Cutoff : Z; FrozenAt : Z }.

Definition SetProposalEligibility (proposalID : Z) (e : FrozenEligibility) : GovStore → GovStore :=
  set_raw (ProposalEligibilityKey proposalID)
    (be64 (Denominator e) +:+ be64 (u64 (Cutoff e)) +:+ be64 (u64 (FrozenAt e))).

Definition GetProposalEligibility (proposalID : Z) (st : GovStore) : option FrozenEligibility :=
  match gs_raw st !! ProposalEligibilityKey proposalID with
  | Some bz =>
      let den := BigEndian_Uint (String.substring 0 8 bz) in
      let cut := i64 (BigEndian_Uint (String.substring 8 8 bz)) in
      if strlen bz =? 24 then Some (mkFrozen den cut (i64 (BigEndian_Uint (String.substring 16 8 bz))))
      else if strlen bz =? 16 then Some (mkFrozen den cut 0)
      else None
  | None => None
  end.

(** ** The running tally *)
Record RunningTally := mkRunning { Counts : gmap Z Z; Turnout : Z }.

(** the last byte of a running-count key is the option *)
Definition last_byte (k : string) : Z :=
  match String.get (Nat.pred (String.length k)) k with Some c => char_code c | None => 0 end.

Definition count_record (prefix : string) (kv : string * string) : bool :=
  strlen kv.1 =? strlen prefix + 1.
Definition GetRunningTally (proposalID : Z) (st : GovStore) : RunningTally :=
  let prefix := TallyCountPrefixFor proposalID in
  mkRunning
    (foldl (λ m kv, <[last_byte kv.1 := decodeUint64 (Some kv.2)]> m) ∅
       (List.filter (count_record prefix) (KVStorePrefixIterator (gs_raw st) prefix)))
    (decodeUint64 (gs_raw st !! TallyTurnoutKey proposalID)).

Definition addOptionCount (proposalID option d : Z) (st : GovStore) : GovStore :=
  let key := TallyCountKey proposalID option in
  let cur := decodeUint64 (gs_raw st !! key) in
  set_raw key (encodeUint64 (applyDelta cur d)) st.
Definition addTurnout (proposalID d : Z) (st : GovStore) : GovStore :=
  let cur := decodeUint64 (gs_raw st !! TallyTurnoutKey proposalID) in
  set_raw (TallyTurnoutKey proposalID) (encodeUint64 (applyDelta cur d)) st.

(** a one-byte value *)
Definition marker_of (bz : string) : option Z :=
  match bz with String c EmptyString => Some (char_code c) | _ => None end.
Definition GetCountedVote (proposalID : Z) (voter : string) (st : GovStore) : option Z :=
  gs_raw st !! CountedVoteKey proposalID voter ≫= marker_of.
Definition setCountedVote (proposalID : Z) (voter : string) (marker : Z) : GovStore → GovStore :=
  set_raw (CountedVoteKey proposalID voter) (str1 (byte marker)).

Definition RecordVote (proposalID : Z) (voter : string) (option : Z) (eligible : bool)
    (st : GovStore) : bool * GovStore :=
  match GetCountedVote proposalID voter st with
  | Some prev =>
      if prev =? IneligibleVoteMarker then (false, st)
      else if prev =? option then (true, st)
      else
        let st := addOptionCount proposalID prev (-1) st in
        let st := addOptionCount proposalID option 1 st in
        (true, setCountedVote proposalID voter option st)
  | None =>
      if negb eligible then (false, setCountedVote proposalID voter IneligibleVoteMarker st)
      else
        let st := addTurnout proposalID 1 st in
        let st := addOptionCount proposalID option 1 st in
        (true, setCountedVote proposalID voter option st)
  end.

(** ** Scans *)
Definition id_after (prefix key : string) : Z :=
  BigEndian_Uint (String.substring (String.length prefix) 8 key).
Definition ids_under (st : GovStore) (prefix : string) : list Z :=
  map (λ kv, id_after prefix kv.1)
    (List.filter (λ kv, strlen prefix + 8 <=? strlen kv.1) (KVStorePrefixIterator (gs_raw st) prefix)).
Definition TalliedProposalIDs (st : GovStore) : list Z :=
  merge_sort Z.le (elements (list_to_set (C := gset Z)
    (concat (map (ids_under st)
       [ProposalEligibilityPrefix; TallyTurnoutPrefix; CountedVotePrefix; TallyCountPrefix])))).

(** every per-voter record of a proposal, in key order: the callback never stops the
    scan in the sources *)
Definition IterateCountedVotes (proposalID : Z) (st : GovStore) : list (string * Z) :=
  let prefix := CountedVotePrefixFor proposalID in
  omap (λ kv, m ← marker_of kv.2;
              Some (String.substring (String.length prefix) (String.length kv.1 - String.length prefix) kv.1, m))
    (KVStorePrefixIterator (gs_raw st) prefix).

(** ** Pruning *)
Definition EnqueueForPruning (proposalID : Z) : GovStore → GovStore :=
  set_raw (PruneKey proposalID) (str1 (byte 1)).
Definition IsQueuedForPruning (proposalID : Z) (st : GovStore) : bool :=
  bool_decide (is_Some (gs_raw st !! PruneKey proposalID)).

Definition del_keys (keys : list string) (st : GovStore) : GovStore :=
  mkGovStore (gs_params st) (foldl (λ s k, delete k s) (gs_raw st) keys).

Definition queued_ids (st : GovStore) : list Z :=
  map (λ kv, id_after PrunePrefix kv.1)
    (List.filter (λ kv, strlen kv.1 =? strlen PrunePrefix + 8) (KVStorePrefixIterator (gs_raw st) PrunePrefix)).

(** the aggregates of a proposal: its counts, then its turnout, basis and queue marker;
    the last three count as one deletion *)
Definition prune_aggregates (proposalID : Z) (st : GovStore) : Z * GovStore :=
  let tallyKeys := (KVStorePrefixIterator (gs_raw st) (TallyCountPrefixFor proposalID)).*1 in
  let st := del_keys tallyKeys st in
  let st := del_raw (TallyTurnoutKey proposalID) st in
  let st := del_raw (ProposalEligibilityKey proposalID) st in
  (Z.of_nat (length tallyKeys) + 1, del_raw (PruneKey proposalID) st).

Fixpoint prune_loop (budget : Z) (queued : list Z) (deleted : Z) (st : GovStore) : Z * GovStore :=
  match queued with
  | [] => (deleted, st)
  | proposalID :: queued' =>
      if budget <=? deleted then (deleted, st)
      else
        let batch := take (Z.to_nat (budget - deleted))
          (KVStorePrefixIterator (gs_raw st) (CountedVotePrefixFor proposalID)).*1 in
        let st := del_keys batch st in
        let deleted := deleted + Z.of_nat (length batch) in
        if (0 <? length batch)%nat then prune_loop budget queued' deleted st
        else
          let '(n, st) := prune_aggregates proposalID st in
          prune_loop budget queued' (deleted + n) st
  end.
Definition PruneStep (budget : Z) (st : GovStore) : Z * GovStore :=
  if budget <=? 0 then (0, st) else prune_loop budget (queued_ids st) 0 st.

Definition PruneBudgetPerBlock : Z := 100.
Definition EndBlock (st : GovStore) : GovStore := snd (PruneStep PruneBudgetPerBlock st).

(** ** Genesis *)
Definition InitGenesis (gs : GenesisState) : M GovStore unit :=
  lift (match GenesisState_Validate gs with Ok _ => Ok tt | _ => Panic "genesis" end);;
  lift (match Params_Validate (gs_Params gs) with Ok _ => Ok tt | _ => Panic "genesis" end);;
  modify (λ st, mkGovStore (Some (gs_Params gs)) (gs_raw st));;
  for_each (gs_StoreEntries gs) (λ e,
    if negb (IsGenesisStoreKey (Key e)) then lift (Panic "key is not under an exported prefix")
    else modify (set_raw (Key e) (Value e))).

Definition exportStoreEntries (st : GovStore) : list KV :=
  concat (map (λ prefix, map (λ kv, mkKV kv.1 kv.2) (KVStorePrefixIterator (gs_raw st) prefix))
    GenesisStorePrefixes).
Definition ExportGenesis (st : GovStore) : GenesisState :=
  mkGenesis (GetParams st) (exportStoreEntries st).
