(* ===== verification/GovTally.v ===== *)
(** * x/governance: tally, hooks and the registered invariant

    [x/governance/tally.go], [tally_live.go], [hooks.go], [validators.go] and
    [invariants.go].  The SDK's x/gov and x/staking and the identity module are the
    interfaces the sources declare; a block's view of all of them is [Env].  Times are
    nanoseconds since the epoch, as in [time.Time]. *)
From stdpp Require Import base gmap strings list fin_maps sorting.
From Stdlib Require Import ZArith Lia.
From S2P Require Import Prelude GoInt KVStore LegacyDec Interfaces GovTypes GovKeeper.

(** ** Time *)
Definition timeFromUnix (sec : Z) : Z := sec * nano.

Lemma Unix_timeFromUnix sec : - 2 ^ 63 ≤ sec < 2 ^ 63 → Unix (timeFromUnix sec) = sec.
Proof. intros Hs. unfold Unix, timeFromUnix. rewrite Z.div_mul by done. by apply i64_id. Qed.

(** ** Interfaces *)
Class IdentitySource (I : Type) := {
  IsEligibleControllerAt : I → string → Z → Z → bool;
  IsEligibleControllerSince : I → string → Z → Z → Z → bool;
  CountEligibleControllersAt : I → Z → Z → Z;
  EligibleControllerTotal : I → Z;
  MinIdentityAge : I → Z;
}.

(** x/gov's records, as far as the sources read them; [None] for messages that do not
    unpack ([GetMsgs] fails) *)
Record WeightedVoteOption := mkWeighted { wo_Option : Z; wo_Weight : string }.
Record Vote := mkVote { vote_Voter : string; vote_Options : list WeightedVoteOption }.
Record GovProposal := mkGovProposal {
  gp_Id : Z;
  gp_Status : Z;
  gp_Expedited : bool;
  gp_VotingStartTime : option Z;
  gp_Msgs : option (list string);
}.
Definition StatusVotingPeriod : Z := 2.
Class XGov (G : Type) := {
  gov_Proposals : G → Z → option GovProposal;
  gov_Votes : G → Z → string → option Vote;
}.
(** [GetValidator]: the validator of an operator address, if any, and whether it is bonded *)
Class StakingKeeper (T : Type) := { GetValidator : T → string → option bool }.

Record Env (I G T : Type) := mkEnv { env_ctx : Context; env_id : I; env_gov : G; env_stk : T }.
Arguments mkEnv {I G T}.
Arguments env_ctx {I G T}.
Arguments env_id {I G T}.
Arguments env_gov {I G T}.
Arguments env_stk {I G T}.

(** ** Vote options *)
Definition OptionYes : Z := 1.
Definition OptionAbstain : Z := 2.
Definition OptionNo : Z := 3.
Definition OptionNoWithVeto : Z := 4.

(** the option of the largest weight; a tie at the top is an abstention *)
Definition dominant_step (acc : Z * Z * bool) (o : WeightedVoteOption) : Z * Z * bool :=
  let '(best, bestW, tie) := acc in
  match LegacyNewDecFromStr (wo_Weight o) with
  | None => acc
  | Some w =>
      if bestW <? w then (wo_Option o, w, false)
      else if (w =? bestW) && negb (bestW =? 0) then (best, bestW, true)
      else acc
  end.
Definition dominantOption (opts : list WeightedVoteOption) : Z :=
  let '(best, _, tie) := foldl dominant_step (OptionAbstain, LegacyZeroDec, false) opts in
  if tie : bool then OptionAbstain else best.

(** ** The reference count *)
Record VoteRecord := mkVoteRecord { vr_Voter : string; vr_Option : Z }.
Record OneHumanTally := mkOneHuman {
  Yes : Z; No : Z; NoWithVeto : Z; Abstain : Z; TotalEligible : Z }.

Definition count_option (o : Z) (res : OneHumanTally) : OneHumanTally :=
  if o =? OptionYes then mkOneHuman (u64 (Yes res + 1)) (No res) (NoWithVeto res) (Abstain res) (TotalEligible res)
  else if o =? OptionNo then mkOneHuman (Yes res) (u64 (No res + 1)) (NoWithVeto res) (Abstain res) (TotalEligible res)
  else if o =? OptionNoWithVeto then mkOneHuman (Yes res) (No res) (u64 (NoWithVeto res + 1)) (Abstain res) (TotalEligible res)
  else if o =? OptionAbstain then mkOneHuman (Yes res) (No res) (NoWithVeto res) (u64 (Abstain res + 1)) (TotalEligible res)
  else res.
Fixpoint tally_loop (eligible : string → bool) (counted : gset string) (votes : list VoteRecord)
    (res : OneHumanTally) : OneHumanTally :=
  match votes with
  | [] => res
  | v :: vs =>
      if bool_decide (vr_Voter v ∈ counted) then tally_loop eligible counted vs res
      else if negb (eligible (vr_Voter v)) then tally_loop eligible counted vs res
      else tally_loop eligible ({[vr_Voter v]} ∪ counted) vs (count_option (vr_Option v) res)
  end.
Definition TallyOneHumanOneVote {I : Type} `{IdentitySource I} (idk : I) (votingStart : Z) (votes : list VoteRecord) : OneHumanTally :=
  let minAge := MinIdentityAge idk in
  tally_loop (λ v, IsEligibleControllerAt idk v votingStart minAge) ∅ votes
    (mkOneHuman 0 0 0 0 (CountEligibleControllersAt idk votingStart minAge)).

Definition decFromU64 (x : Z) : Z := LegacyNewDecFromInt x.
Definition Passes (t : OneHumanTally) (quorum threshold vetoThreshold : Z) : outcome bool :=
  if TotalEligible t =? 0 then Ok false else
  let totalVotes := u64 (Yes t + No t + NoWithVeto t + Abstain t) in
  if totalVotes =? 0 then Ok false else
  turnout ← Dec_Quo (decFromU64 totalVotes) (decFromU64 (TotalEligible t));
  if turnout <? quorum then Ok false else
  veto ← Dec_Quo (decFromU64 (NoWithVeto t)) (decFromU64 totalVotes);
  if vetoThreshold <? veto then Ok false else
  let nonAbstain := u64 (Yes t + No t + NoWithVeto t) in
  if nonAbstain =? 0 then Ok false else
  yesRatio ← Dec_Quo (decFromU64 (Yes t)) (decFromU64 nonAbstain);
  Ok (threshold <? yesRatio).

(** ** The live tally *)
Record ValidatorGovInfo := mkValInfo { vi_Address : string; vi_BondedTokens : Z }.

Definition emptyResults : gmap Z Z :=
  <[OptionYes := LegacyZeroDec]> (<[OptionAbstain := LegacyZeroDec]>
  (<[OptionNo := LegacyZeroDec]> {[OptionNoWithVeto := LegacyZeroDec]})).

Definition scale_counts (scale : Z) (counts : list (Z * Z)) : outcome (gmap Z Z) :=
  ofold (λ m oc, r ← Dec_Mul (LegacyNewDecFromInt oc.2) scale; Ok (<[oc.1 := r]> m)) counts emptyResults.
Definition scalePublicResults (counts : gmap Z Z) (turnout totalEligible totalBonded : Z) : outcome (Z * gmap Z Z) :=
  if (turnout =? 0) || (totalEligible =? 0) || (totalBonded =? 0) then Ok (LegacyZeroDec, emptyResults) else
  scale ← Dec_Quo (LegacyNewDecFromInt totalBonded) (LegacyNewDecFromInt totalEligible);
  results ← scale_counts scale (map_to_list counts);
  totalPower ← Dec_Mul (LegacyNewDecFromInt turnout) scale;
  Ok (totalPower, results).

Definition sumBonded (validators : gmap string ValidatorGovInfo) : outcome Z :=
  ofold (λ t kv, t +! vi_BondedTokens kv.2) (map_to_list validators) 0.

Record valBallot := mkBallot { vb_bonded : Z; vb_options : list WeightedVoteOption }.

(** an option outside the four has no entry: adding to Go's zero decimal dereferences nil *)
Definition add_ballot_option (power : Z) (results : gmap Z Z) (o : WeightedVoteOption) : outcome (gmap Z Z) :=
  w ← or_err (LegacyNewDecFromStr (wo_Weight o)) (Plain "invalid decimal");
  p ← Dec_Mul power w;
  match results !! wo_Option o with
  | None => Panic "nil pointer dereference"
  | Some r => r' ← Dec_Add r p; Ok (<[wo_Option o := r']> results)
  end.
Definition tallyValidatorBallots (ballots : list valBallot) : outcome (Z * gmap Z Z) :=
  ofold (λ acc b,
    let power := LegacyNewDecFromInt (vb_bonded b) in
    results ← ofold (add_ballot_option power) (vb_options b) acc.2;
    total ← Dec_Add acc.1 power;
    Ok (total, results)) ballots (LegacyZeroDec, emptyResults).

Definition RoutePublic : Z := VOTE_ROUTE_PUBLIC.
Definition RouteTechnical : Z := VOTE_ROUTE_TECHNICAL.

Section tally.
Context {I G T : Type} `{IdentitySource I} `{XGov G} `{StakingKeeper T}.
Implicit Types e : Env I G T.

Definition ClassifyByMsgType (st : GovStore) (msgs : list string) : Z := Classify msgs (VoteRouteTable st).

Definition tallyPublicLive e (proposal : GovProposal) (validators : gmap string ValidatorGovInfo)
    (st : GovStore) : outcome (Z * gmap Z Z) :=
  let running := GetRunningTally (gp_Id proposal) st in
  let totalEligible :=
    match GetProposalEligibility (gp_Id proposal) st with
    | Some basis => Denominator basis
    | None => EligibleControllerTotal (env_id e)
    end in
  bonded ← sumBonded validators;
  scalePublicResults (Counts running) (Turnout running) totalEligible bonded.

Definition validator_ballot e (proposal : GovProposal) (kv : string * ValidatorGovInfo) : option valBallot :=
  vote ← gov_Votes (env_gov e) (gp_Id proposal) (vi_Address kv.2);
  Some (mkBallot (vi_BondedTokens kv.2) (vote_Options vote)).
(** the validators in the order of their operator addresses *)
Definition tallyTechnicalLive e (proposal : GovProposal) (validators : gmap string ValidatorGovInfo) : outcome (Z * gmap Z Z) :=
  tallyValidatorBallots (omap (validator_ballot e proposal) (entries validators)).

Definition prunableAtTally (proposal : GovProposal) : bool := negb (gp_Expedited proposal).

Definition NewPhiTallyFn e (proposal : GovProposal) (validators : gmap string ValidatorGovInfo)
    : M GovStore (Z * gmap Z Z) :=
  msgs ← or_fail (gp_Msgs proposal) (Plain "GetMsgs");
  (if prunableAtTally proposal then modify (EnqueueForPruning (gp_Id proposal)) else mret tt);;
  query (λ st,
    if ClassifyByMsgType st msgs =? RouteTechnical then tallyTechnicalLive e proposal validators
    else tallyPublicLive e proposal validators st).

(** ** Hooks *)
Definition IsActiveValidatorOperator e (addr : string) : bool :=
  default false (GetValidator (env_stk e) addr).

Definition freezeEligibilityOnce e (proposal : GovProposal) (st : GovStore) : FrozenEligibility * GovStore :=
  match GetProposalEligibility (gp_Id proposal) st with
  | Some basis => (basis, st)
  | None =>
      let minAge := MinIdentityAge (env_id e) in
      let cutoff := match gp_VotingStartTime proposal with
                    | Some votingStart => Unix (votingStart + i64 (- minAge))
                    | None => 0
                    end in
      let basis := mkFrozen (CountEligibleControllersAt (env_id e) (timeFromUnix cutoff) 0) cutoff
                     (BlockTime (env_ctx e)) in
      (basis, SetProposalEligibility (gp_Id proposal) basis st)
  end.

Definition routeOf (st : GovStore) (proposal : GovProposal) : Z :=
  match gp_Msgs proposal with
  | None => RoutePublic
  | Some msgs => ClassifyByMsgType st msgs
  end.

Definition ErrNotEligibleToVote : error := Registered "governance" 2.

Definition recordBallot e (proposal : GovProposal) (voter voterAddr : string) (options : list WeightedVoteOption)
    : M GovStore unit := λ st,
  let '(basis, st) := freezeEligibilityOnce e proposal st in
  if routeOf st proposal =? RouteTechnical then
    if negb (IsActiveValidatorOperator e voterAddr) then (Err ErrNotEligibleToVote, st) else (Ok tt, st)
  else if negb (IsEligibleControllerSince (env_id e) voter (timeFromUnix (Cutoff basis)) 0
                  (timeFromUnix (FrozenAt basis)))
  then (Err ErrNotEligibleToVote, st)
  else (Ok tt, snd (RecordVote (gp_Id proposal) voterAddr (dominantOption options) true st)).

Definition AfterProposalDeposit e (proposalID : Z) : M GovStore unit := λ st,
  match gov_Proposals (env_gov e) proposalID with
  | None => (Ok tt, st)
  | Some proposal =>
      if negb (gp_Status proposal =? StatusVotingPeriod) then (Ok tt, st)
      else (Ok tt, snd (freezeEligibilityOnce e proposal st))
  end.
Definition AfterProposalVote e (proposalID : Z) (voterAddr : string) : M GovStore unit := λ st,
  match gov_Proposals (env_gov e) proposalID with
  | None => (Ok tt, st)
  | Some proposal =>
      match gov_Votes (env_gov e) proposalID voterAddr with
      | None => (Ok tt, st)
      | Some vote => recordBallot e proposal (vote_Voter vote) voterAddr (vote_Options vote) st
      end
  end.
Definition prunableAfterVoting (status : Z) : bool := negb (status =? StatusVotingPeriod).
Definition AfterProposalVotingPeriodEnded e (proposalID : Z) : M GovStore unit := λ st,
  match gov_Proposals (env_gov e) proposalID with
  | None => (Ok tt, st)
  | Some proposal =>
      if negb (prunableAfterVoting (gp_Status proposal)) then (Ok tt, st)
      else (Ok tt, EnqueueForPruning proposalID st)
  end.
End tally.

(** ** The registered invariant *)
Definition sumCounts (t : RunningTally) : Z :=
  foldl (λ total oc, u64 (total + oc.2)) 0 (map_to_list (Counts t)).
Definition count_ballots (l : list (string * Z)) : Z :=
  foldl (λ n vm, if vm.2 =? IneligibleVoteMarker then n else u64 (n + 1)) 0 l.

(** the report of one proposal: [None] when consistent *)
Definition check_proposal (st : GovStore) (proposalID : Z) : option string :=
  let running := GetRunningTally proposalID st in
  let counted := count_ballots (IterateCountedVotes proposalID st) in
  match GetProposalEligibility proposalID st with
  | None =>
      if (counted =? 0) && (Turnout running =? 0) && (sumCounts running =? 0) then None
      else Some "counted ballots with NO frozen eligibility basis"
  | Some basis =>
      if Denominator basis <? Turnout running then Some "turnout exceeds its frozen denominator"
      else if negb (sumCounts running =? Turnout running) then Some "per-option counts do not sum to the turnout"
      else if negb (counted =? Turnout running) then Some "counted ballots differ from the turnout"
      else None
  end.
Fixpoint check_proposals (st : GovStore) (ids : list Z) : string * bool :=
  match ids with
  | [] => ("", false)
  | id :: ids' =>
      match check_proposal st id with
      | None => check_proposals st ids'
      | Some msg => (msg, true)
      end
  end.
(** the message and whether the invariant is broken *)
Definition TurnoutWithinFrozenBasisInvariant (st : GovStore) : string * bool :=
  check_proposals st (TalliedProposalIDs st).
