(* ===== verification/GovCount.v ===== *)
(** * x/governance: what the running tally counts

    The running tally is a cache: per-option counts and a turnout, kept in step with
    the per-voter records by [RecordVote].  Here the cache is related to the records it
    caches (a sum over the store), every branch of [RecordVote] is shown to keep the
    two in step, and the result is compared with the reference count
    [TallyOneHumanOneVote] over the ballots cast. *)
From stdpp Require Import base gmap strings list fin_maps sorting.
From Stdlib Require Import ZArith Lia.
From S2P Require Import Prelude GoInt KVStore StoreEntry LegacyDec Interfaces GovTypes GovKeeper GovTally.

Definition is_u64 (z : Z) : Prop := 0 ≤ z < 2 ^ 64.

(** ** Keys *)
Lemma has_prefix_be64 p a b t : is_u64 a → is_u64 b →
  has_prefix (p +:+ be64 a) (p +:+ be64 b +:+ t) = bool_decide (a = b).
Proof.
  intros Ha Hb. case_bool_decide as E.
  - subst. apply has_prefix_spec. exists t. by rewrite str_app_assoc.
  - apply not_true_iff_false. intros [s Hs]%has_prefix_spec. rewrite str_app_assoc in Hs.
    apply str_app_inj_l, str_app_inj in Hs as [Hs _]; [|unfold be64; by rewrite !be_length].
    apply be64_inj in Hs; [done|done|done].
Qed.
Lemma votes_prefix_key p q v : is_u64 p → is_u64 q →
  has_prefix (CountedVotePrefixFor p) (CountedVoteKey q v) = bool_decide (p = q).
Proof.
  intros Hp Hq. unfold CountedVoteKey, CountedVotePrefixFor, Uint64Key.
  rewrite str_app_assoc. by apply has_prefix_be64.
Qed.
Lemma counts_prefix_key p q o : is_u64 p → is_u64 q →
  has_prefix (TallyCountPrefixFor p) (TallyCountKey q o) = bool_decide (p = q).
Proof.
  intros Hp Hq. unfold TallyCountKey, TallyCountPrefixFor, Uint64Key.
  rewrite str_app_assoc. by apply has_prefix_be64.
Qed.
Lemma byte_inj a b : 0 ≤ a < 256 → 0 ≤ b < 256 → byte a = byte b → a = b.
Proof.
  intros Ha Hb E. apply (f_equal char_code) in E. rewrite !char_code_byte, !Z.mod_small in E by done. done.
Qed.
Lemma TallyCountKey_inj p q a b : is_u64 p → is_u64 q → 0 ≤ a < 256 → 0 ≤ b < 256 →
  TallyCountKey p a = TallyCountKey q b → p = q ∧ a = b.
Proof.
  intros Hp Hq Ha Hb. unfold TallyCountKey, TallyCountPrefixFor, Uint64Key. rewrite !str_app_assoc.
  intros E%str_app_inj_l. apply str_app_inj in E as [E1 E2]; [|unfold be64; by rewrite !be_length].
  injection E2 as E2. split; [by apply be64_inj|by apply byte_inj].
Qed.
Lemma CountedVoteKey_inj p q v w : is_u64 p → is_u64 q → CountedVoteKey p v = CountedVoteKey q w → p = q ∧ v = w.
Proof.
  intros Hp Hq. unfold CountedVoteKey, CountedVotePrefixFor, Uint64Key. rewrite !str_app_assoc.
  intros E%str_app_inj_l. apply str_app_inj in E as [E1 E2]; [|unfold be64; by rewrite !be_length].
  split; [by apply be64_inj|done].
Qed.
Lemma TallyCountKey_length p o : strlen (TallyCountKey p o) = strlen (TallyCountPrefixFor p) + 1.
Proof. unfold TallyCountKey, strlen. rewrite str_app_length. simpl (String.length (str1 _)). lia. Qed.
(** keys under different one-byte prefixes never meet *)
Lemma key_disjoint a b s t : byte a ≠ byte b → key_prefix a +:+ s ≠ key_prefix b +:+ t.
Proof. intros Hab E. cbn in E. by injection E. Qed.
Lemma has_prefix_disjoint a b s t : byte a ≠ byte b → has_prefix (key_prefix a +:+ s) (key_prefix b +:+ t) = false.
Proof.
  intros Hab. apply not_true_iff_false. intros [u E]%has_prefix_spec. rewrite str_app_assoc in E.
  by apply key_disjoint in E.
Qed.

(** ** Integers *)
Lemma decode_encode_u64 z : is_u64 z → decodeUint64 (Some (encodeUint64 z)) = z.
Proof.
  intros Hz. unfold decodeUint64, encodeUint64, strlen. unfold be64 at 1. rewrite be_length.
  change (Z.of_nat 8 =? 8) with true. cbn [Z.eqb]. by rewrite BigEndian_be64, u64_id.
Qed.
Lemma decode_range bz : is_u64 (decodeUint64 bz).
Proof.
  unfold decodeUint64, is_u64. destruct bz as [b|]; [|lia]. destruct (Z.eqb_spec (strlen b) 8) as [Hl|]; [|lia].
  pose proof (be_value_range b 0 ltac:(lia)) as Hr. rewrite Hl in Hr. unfold BigEndian_Uint.
  change ((0 + 1) * 256 ^ 8) with (2 ^ 64) in Hr. lia.
Qed.
Lemma applyDelta_up c : 0 ≤ c < 2 ^ 64 - 1 → applyDelta c 1 = c + 1.
Proof. intros Hc. unfold applyDelta. change (1 <? 0) with false. change (u64 1) with 1. cbv iota. rewrite u64_id; lia. Qed.
Lemma applyDelta_down c : 1 ≤ c < 2 ^ 64 → applyDelta c (-1) = c - 1.
Proof.
  intros Hc. unfold applyDelta. change (-1 <? 0) with true. change (u64 (i64 (- -1))) with 1.
  cbv beta iota zeta. destruct (Z.ltb_spec c 1); lia.
Qed.

(** ** What is counted *)

(** a total over the per-voter records of a proposal *)
Definition vote_weight (f : Z → Z) (p : Z) (k bz : string) : Z :=
  if has_prefix (CountedVotePrefixFor p) k
  then match marker_of bz with Some m => f m | None => 0 end else 0.
Definition votes_sum (f : Z → Z) (p : Z) (st : GovStore) : Z := map_sum (vote_weight f p) (gs_raw st).
Definition is_counted (m : Z) : Z := if m =? IneligibleVoteMarker then 0 else 1.
Definition is_option (o m : Z) : Z := if m =? o then 1 else 0.
(** ballots counted, and ballots counted for one option *)
Definition counted (p : Z) (st : GovStore) : Z := votes_sum is_counted p st.
Definition counted_for (o p : Z) (st : GovStore) : Z := votes_sum (is_option o) p st.

(** the cached numbers *)
Definition option_count (p o : Z) (st : GovStore) : Z := decodeUint64 (gs_raw st !! TallyCountKey p o).
Definition turnout (p : Z) (st : GovStore) : Z := decodeUint64 (gs_raw st !! TallyTurnoutKey p).
Definition count_weight (p : Z) (k bz : string) : Z :=
  if has_prefix (TallyCountPrefixFor p) k && (strlen k =? strlen (TallyCountPrefixFor p) + 1)
  then decodeUint64 (Some bz) else 0.
Definition counts_sum (p : Z) (st : GovStore) : Z := map_sum (count_weight p) (gs_raw st).

(** the cache agrees with the records *)
Record tally_ok (p : Z) (st : GovStore) : Prop := {
  ok_turnout : turnout p st = counted p st;
  ok_options : ∀ o, 0 ≤ o < IneligibleVoteMarker → option_count p o st = counted_for o p st;
  ok_sum : counts_sum p st = counted p st;
}.

(** ** Writes that do not matter *)
Lemma votes_sum_other f p k v st :
  has_prefix (CountedVotePrefixFor p) k = false → votes_sum f p (set_raw k v st) = votes_sum f p st.
Proof.
  intros Hk. unfold votes_sum. simpl. apply map_sum_insert_irrelevant; unfold vote_weight; by rewrite Hk.
Qed.
Lemma counts_sum_other p k v st :
  has_prefix (TallyCountPrefixFor p) k = false → counts_sum p (set_raw k v st) = counts_sum p st.
Proof.
  intros Hk. unfold counts_sum. simpl. apply map_sum_insert_irrelevant; unfold count_weight; by rewrite Hk.
Qed.
Lemma tally_ok_other p k v st :
  has_prefix (CountedVotePrefixFor p) k = false → has_prefix (TallyCountPrefixFor p) k = false →
  k ≠ TallyTurnoutKey p → tally_ok p st → tally_ok p (set_raw k v st).
Proof.
  intros H1 H2 H3 [Ht Ho Hs]. unfold counted, counted_for in *. constructor.
  - unfold turnout, counted in *. rewrite votes_sum_other by done. simpl. by rewrite lookup_insert_ne.
  - intros o Hr. unfold option_count, counted_for in *. rewrite votes_sum_other by done. simpl.
    rewrite lookup_insert_ne; [by apply Ho|]. intros ->. unfold TallyCountKey in H2. by rewrite has_prefix_app in H2.
  - unfold counted. by rewrite votes_sum_other, counts_sum_other.
Qed.

(** ** The three writes of [RecordVote] *)
Lemma marker_str1 m : 0 ≤ m < 256 → marker_of (str1 (byte m)) = Some m.
Proof. intros Hm. cbn. by rewrite char_code_byte, Z.mod_small. Qed.

Lemma votes_sum_vote f p q v m st : is_u64 p → is_u64 q → 0 ≤ m < 256 →
  votes_sum f p (setCountedVote q v m st) =
  votes_sum f p st +
    (if bool_decide (p = q) then f m - match GetCountedVote q v st with Some m0 => f m0 | None => 0 end else 0).
Proof.
  intros Hp Hq Hm. unfold setCountedVote. case_bool_decide as E.
  - subst q. unfold votes_sum, GetCountedVote. simpl.
    assert (∀ bz, vote_weight f p (CountedVoteKey p v) bz = match marker_of bz with Some m => f m | None => 0 end) as Hw.
    { intros bz. unfold vote_weight. by rewrite votes_prefix_key, bool_decide_eq_true_2. }
    destruct (gs_raw st !! CountedVoteKey p v) as [bz|] eqn:Hk; simpl.
    + rewrite (map_sum_insert _ _ _ bz) by done. rewrite !Hw, marker_str1 by done. lia.
    + rewrite map_sum_insert_new by done. rewrite Hw, marker_str1 by done. lia.
  - rewrite votes_sum_other by (rewrite votes_prefix_key by done; by apply bool_decide_eq_false_2). lia.
Qed.

Lemma option_count_range p o st : is_u64 (option_count p o st).
Proof. apply decode_range. Qed.
Lemma turnout_range p st : is_u64 (turnout p st).
Proof. apply decode_range. Qed.

Lemma addOptionCount_spec p o d st c' : is_u64 p → 0 ≤ o < 256 →
  applyDelta (option_count p o st) d = c' → is_u64 c' →
  (∀ o', 0 ≤ o' < 256 → option_count p o' (addOptionCount p o d st) = if o' =? o then c' else option_count p o' st) ∧
  counts_sum p (addOptionCount p o d st) = counts_sum p st - option_count p o st + c' ∧
  turnout p (addOptionCount p o d st) = turnout p st ∧
  (∀ f, votes_sum f p (addOptionCount p o d st) = votes_sum f p st) ∧
  (∀ v, GetCountedVote p v (addOptionCount p o d st) = GetCountedVote p v st).
Proof.
  intros Hp Ho Hc Hr. unfold addOptionCount. fold (option_count p o st). rewrite Hc. split_and!.
  - intros o' Ho'. unfold option_count. simpl. destruct (Z.eqb_spec o' o) as [->|Hne].
    + rewrite lookup_insert_eq. by apply decode_encode_u64.
    + rewrite lookup_insert_ne; [done|]. intros E%TallyCountKey_inj; [naive_solver|done..].
  - unfold counts_sum, option_count. simpl.
    assert (∀ bz, count_weight p (TallyCountKey p o) bz = decodeUint64 (Some bz)) as Hw.
    { intros bz. unfold count_weight. rewrite counts_prefix_key, bool_decide_eq_true_2, TallyCountKey_length by done.
      by rewrite Z.eqb_refl. }
    destruct (gs_raw st !! TallyCountKey p o) as [bz|] eqn:Hk.
    + rewrite (map_sum_insert _ _ _ bz) by done. rewrite !Hw, decode_encode_u64 by done. lia.
    + rewrite map_sum_insert_new by done. rewrite Hw, decode_encode_u64 by done. simpl. lia.
  - unfold turnout. simpl. rewrite lookup_insert_ne; [done|]. by apply key_disjoint.
  - intros f. apply votes_sum_other. unfold CountedVotePrefixFor, TallyCountKey, TallyCountPrefixFor.
    rewrite str_app_assoc. by apply has_prefix_disjoint.
  - intros v. unfold GetCountedVote. simpl. rewrite lookup_insert_ne; [done|].
    unfold TallyCountKey, TallyCountPrefixFor, CountedVoteKey, CountedVotePrefixFor. rewrite !str_app_assoc.
    by apply key_disjoint.
Qed.
Lemma addTurnout_spec p d st c' : is_u64 p → applyDelta (turnout p st) d = c' → is_u64 c' →
  turnout p (addTurnout p d st) = c' ∧
  (∀ o, option_count p o (addTurnout p d st) = option_count p o st) ∧
  counts_sum p (addTurnout p d st) = counts_sum p st ∧
  (∀ f, votes_sum f p (addTurnout p d st) = votes_sum f p st) ∧
  (∀ v, GetCountedVote p v (addTurnout p d st) = GetCountedVote p v st).
Proof.
  intros Hp Hc Hr. unfold addTurnout. fold (turnout p st). rewrite Hc. split_and!.
  - unfold turnout. simpl. rewrite lookup_insert_eq. by apply decode_encode_u64.
  - intros o. unfold option_count. simpl. rewrite lookup_insert_ne; [done|].
    unfold TallyCountKey, TallyCountPrefixFor. rewrite str_app_assoc. by apply key_disjoint.
  - apply counts_sum_other. by apply has_prefix_disjoint.
  - intros f. apply votes_sum_other. by apply has_prefix_disjoint.
  - intros v. unfold GetCountedVote. simpl. rewrite lookup_insert_ne; [done|].
    unfold CountedVoteKey, CountedVotePrefixFor. rewrite !str_app_assoc. by apply key_disjoint.
Qed.
Lemma setCountedVote_spec p v m st : is_u64 p → 0 ≤ m < 256 →
  turnout p (setCountedVote p v m st) = turnout p st ∧
  (∀ o, option_count p o (setCountedVote p v m st) = option_count p o st) ∧
  counts_sum p (setCountedVote p v m st) = counts_sum p st ∧
  (∀ w, GetCountedVote p w (setCountedVote p v m st) = if bool_decide (w = v) then Some m else GetCountedVote p w st).
Proof.
  intros Hp Hm. unfold setCountedVote. split_and!.
  - unfold turnout. simpl. rewrite lookup_insert_ne; [done|]. unfold CountedVoteKey, CountedVotePrefixFor.
    rewrite str_app_assoc. by apply key_disjoint.
  - intros o. unfold option_count. simpl. rewrite lookup_insert_ne; [done|].
    unfold TallyCountKey, TallyCountPrefixFor, CountedVoteKey, CountedVotePrefixFor. rewrite !str_app_assoc.
    by apply key_disjoint.
  - apply counts_sum_other. unfold CountedVoteKey, CountedVotePrefixFor. rewrite str_app_assoc.
    by apply has_prefix_disjoint.
  - intros w. unfold GetCountedVote. simpl. case_bool_decide as E.
    + subst. rewrite lookup_insert_eq. cbn [mbind option_bind]. by apply marker_str1.
    + rewrite lookup_insert_ne; [done|]. intros E'%CountedVoteKey_inj; [naive_solver|done..].
Qed.

(** ** [RecordVote], on every branch *)
Lemma votes_sum_member f p v m st : is_u64 p → (∀ z, 0 ≤ f z) →
  GetCountedVote p v st = Some m → f m ≤ votes_sum f p st.
Proof.
  intros Hp Hf Hv. unfold GetCountedVote in Hv.
  destruct (gs_raw st !! CountedVoteKey p v) as [bz|] eqn:Hk; simpl in Hv; [|done].
  assert (vote_weight f p (CountedVoteKey p v) bz = f m) as <-.
  { unfold vote_weight. by rewrite votes_prefix_key, bool_decide_eq_true_2, Hv. }
  apply map_sum_elem_le; [|done]. intros k' v' _. unfold vote_weight.
  destruct (has_prefix _ _); [|lia]. destruct (marker_of v'); [apply Hf|lia].
Qed.
Lemma votes_sum_le f g p st : (∀ m, f m ≤ g m) → votes_sum f p st ≤ votes_sum g p st.
Proof.
  intros Hfg. unfold votes_sum, map_sum. induction (map_to_list (gs_raw st)) as [|[k bz] l IH]; [done|].
  rewrite !sumZ_cons. simpl. enough (vote_weight f p k bz ≤ vote_weight g p k bz) by lia.
  unfold vote_weight. destruct (has_prefix _ _); [|lia]. destruct (marker_of bz); [apply Hfg|lia].
Qed.
Lemma counted_for_le o p st : o ≠ IneligibleVoteMarker → counted_for o p st ≤ counted p st.
Proof.
  intros Ho. apply votes_sum_le. intros m. unfold is_option, is_counted.
  destruct (Z.eqb_spec m o), (Z.eqb_spec m IneligibleVoteMarker); lia.
Qed.
Lemma counted_nonneg p st : 0 ≤ counted p st.
Proof.
  apply map_sum_nonneg. intros k bz _. unfold vote_weight, is_counted. repeat case_match; lia.
Qed.
Lemma marker_range bz m : marker_of bz = Some m → 0 ≤ m < 256.
Proof.
  destruct bz as [|c [|]]; cbn [marker_of]; [done| |done]. intros E. injection E as <-. apply char_code_range.
Qed.
Lemma GetCountedVote_range p v st m : GetCountedVote p v st = Some m → 0 ≤ m < 256.
Proof.
  unfold GetCountedVote. destruct (gs_raw st !! _) as [bz|]; simpl; [|done]. apply marker_range.
Qed.

(** the record a ballot leaves behind *)
Definition next_marker (prev : option Z) (o : Z) (eligible : bool) : Z :=
  match prev with
  | Some m => if m =? IneligibleVoteMarker then IneligibleVoteMarker else o
  | None => if eligible then o else IneligibleVoteMarker
  end.
Definition weight_of (f : Z → Z) (prev : option Z) : Z :=
  match prev with Some m => f m | None => 0 end.

Record vote_effect (p : Z) (v : string) (o : Z) (el : bool) (st st' : GovStore) (b : bool) : Prop := {
  ef_result : b = negb (next_marker (GetCountedVote p v st) o el =? IneligibleVoteMarker);
  ef_votes : ∀ w, GetCountedVote p w st' =
    if bool_decide (w = v) then Some (next_marker (GetCountedVote p v st) o el) else GetCountedVote p w st;
  ef_sums : ∀ f, votes_sum f p st' =
    votes_sum f p st + f (next_marker (GetCountedVote p v st) o el) - weight_of f (GetCountedVote p v st);
  ef_ok : tally_ok p st';
}.

Ltac marker_cases :=
  unfold counted, counted_for, is_counted, is_option, IneligibleVoteMarker in *;
  repeat (match goal with |- context [?a =? ?b] => destruct (Z.eqb_spec a b) end); try lia.

(** nothing changes but the marker of an ineligible voter *)
Lemma vote_effect_ineligible p v o st : is_u64 p → tally_ok p st → GetCountedVote p v st = None →
  vote_effect p v o false st (setCountedVote p v IneligibleVoteMarker st) false.
Proof.
  intros Hp Hok Hv. destruct (setCountedVote_spec p v IneligibleVoteMarker st Hp ltac:(done)) as (H1 & H2 & H3 & H4).
  assert (∀ f, votes_sum f p (setCountedVote p v IneligibleVoteMarker st) = votes_sum f p st + f IneligibleVoteMarker) as Hs.
  { intros f. rewrite votes_sum_vote, bool_decide_eq_true_2, Hv by done. lia. }
  constructor; rewrite ?Hv; [done|done|intros f; rewrite Hs; simpl; lia|].
  destruct Hok as [Ht Ho Hc]. constructor.
  - rewrite H1, Ht. unfold counted. rewrite Hs. by marker_cases.
  - intros q Hq. rewrite H2, Ho by done. unfold counted_for. rewrite Hs. marker_cases.
  - rewrite H3, Hc. unfold counted. rewrite Hs. by marker_cases.
Qed.

(** a first ballot raises the turnout and one count *)
Lemma vote_effect_first p v o st : is_u64 p → 0 ≤ o < IneligibleVoteMarker → tally_ok p st →
  counted p st + 1 < 2 ^ 64 → GetCountedVote p v st = None →
  vote_effect p v o true st (setCountedVote p v o (addOptionCount p o 1 (addTurnout p 1 st))) true.
Proof.
  intros Hp Ho [Ht Hop Hc] Hlt Hv. pose proof (counted_nonneg p st) as Hnn.
  pose proof (counted_for_le o p st ltac:(lia)) as Hle. pose proof (option_count_range p o st) as Hor.
  assert (0 ≤ o < 256) as Ho2 by (unfold IneligibleVoteMarker in Ho; lia).
  destruct (addTurnout_spec p 1 st (turnout p st + 1)) as (A1 & A2 & A3 & A4 & A5);
    [done|apply applyDelta_up; lia|unfold is_u64; lia|].
  set (s1 := addTurnout p 1 st) in *.
  assert (option_count p o s1 = counted_for o p st) as Hoc by (rewrite A2; by apply Hop).
  destruct (addOptionCount_spec p o 1 s1 (option_count p o s1 + 1)) as (B1 & B2 & B3 & B4 & B5);
    [done|done|apply applyDelta_up; unfold is_u64 in *; rewrite A2 in *; lia|unfold is_u64 in *; rewrite A2 in *; lia|].
  set (s2 := addOptionCount p o 1 s1) in *.
  destruct (setCountedVote_spec p v o s2 Hp Ho2) as (C1 & C2 & C3 & C4).
  assert (GetCountedVote p v s2 = None) as Hv2 by by rewrite B5, A5.
  assert (∀ f, votes_sum f p (setCountedVote p v o s2) = votes_sum f p st + f o) as Hs.
  { intros f. rewrite votes_sum_vote, bool_decide_eq_true_2, Hv2, B4, A4 by done. lia. }
  constructor; rewrite ?Hv; cbn [next_marker weight_of].
  - by destruct (Z.eqb_spec o IneligibleVoteMarker); [lia|].
  - intros w. rewrite C4, B5, A5. done.
  - intros f. rewrite Hs. lia.
  - constructor.
    + rewrite C1, B3, A1, Ht. unfold counted. rewrite Hs. marker_cases.
    + intros q Hq. rewrite C2, B1, !A2 by (unfold IneligibleVoteMarker in Hq; lia).
      rewrite (Hop q Hq), (Hop o Ho). unfold counted_for at 3. rewrite Hs.
      unfold counted_for, is_option. destruct (Z.eqb_spec q o), (Z.eqb_spec o q); subst; lia.
    + rewrite C3, B2, A3, Hc. unfold counted. rewrite Hs. marker_cases.
Qed.

(** a changed ballot moves one vote from the old option to the new one *)
Lemma vote_effect_change p v o prev el st : is_u64 p → 0 ≤ o < IneligibleVoteMarker → tally_ok p st →
  counted p st < 2 ^ 64 → GetCountedVote p v st = Some prev → prev ≠ IneligibleVoteMarker → prev ≠ o →
  vote_effect p v o el st (setCountedVote p v o (addOptionCount p o 1 (addOptionCount p prev (-1) st))) true.
Proof.
  intros Hp Ho [Ht Hop Hc] Hlt Hv Hprev Hne. pose proof (GetCountedVote_range _ _ _ _ Hv) as Hpr.
  unfold IneligibleVoteMarker in Hprev.
  assert (counted_for prev p st + counted_for o p st ≤ counted p st) as Hsum.
  { assert (counted_for prev p st + counted_for o p st = votes_sum (λ m, is_option prev m + is_option o m) p st) as ->.
    { unfold counted_for, votes_sum, map_sum. induction (map_to_list (gs_raw st)) as [|[k bz] l IH]; [done|].
      rewrite !sumZ_cons. simpl. rewrite <- IH. unfold vote_weight. repeat case_match; lia. }
    apply votes_sum_le. intros m. unfold is_option, is_counted, IneligibleVoteMarker in *.
    destruct (Z.eqb_spec m prev), (Z.eqb_spec m o), (Z.eqb_spec m 255); lia. }
  assert (1 ≤ counted_for prev p st) as Hge.
  { pose proof (votes_sum_member (is_option prev) p v prev st Hp) as Hm. unfold is_option at 2 in Hm.
    rewrite Z.eqb_refl in Hm. apply Hm; [|done]. intros z. unfold is_option. case_match; lia. }
  assert (0 ≤ o < 256) as Ho2 by (unfold IneligibleVoteMarker in Ho; lia).
  pose proof (option_count_range p prev st) as Hr1. pose proof (option_count_range p o st) as Hr2.
  assert (option_count p prev st = counted_for prev p st) as E1 by (apply Hop; unfold IneligibleVoteMarker; lia).
  assert (option_count p o st = counted_for o p st) as E2 by by apply Hop. unfold is_u64 in Hr1, Hr2.
  destruct (addOptionCount_spec p prev (-1) st (option_count p prev st - 1)) as (A1 & A2 & A3 & A4 & A5);
    [done|done|apply applyDelta_down; lia|unfold is_u64; lia|].
  set (s1 := addOptionCount p prev (-1) st) in *.
  assert (option_count p o s1 = option_count p o st) as E3 by (rewrite A1 by done; by destruct (Z.eqb_spec o prev)).
  destruct (addOptionCount_spec p o 1 s1 (option_count p o s1 + 1)) as (B1 & B2 & B3 & B4 & B5);
    [done|done|apply applyDelta_up; lia|unfold is_u64; lia|].
  set (s2 := addOptionCount p o 1 s1) in *.
  destruct (setCountedVote_spec p v o s2 Hp Ho2) as (C1 & C2 & C3 & C4).
  assert (GetCountedVote p v s2 = Some prev) as Hv2 by by rewrite B5, A5.
  assert (∀ f, votes_sum f p (setCountedVote p v o s2) = votes_sum f p st + f o - f prev) as Hs.
  { intros f. rewrite votes_sum_vote, bool_decide_eq_true_2, Hv2, B4, A4 by done. lia. }
  assert (next_marker (Some prev) o el = o) as Hnm.
  { simpl. unfold IneligibleVoteMarker. by destruct (Z.eqb_spec prev 255). }
  constructor; rewrite ?Hv, ?Hnm.
  - by destruct (Z.eqb_spec o IneligibleVoteMarker); [lia|].
  - intros w. by rewrite C4, B5, A5.
  - intros f. rewrite Hs. done.
  - constructor.
    + rewrite C1, B3, A3, Ht. unfold counted. rewrite Hs. unfold IneligibleVoteMarker in *. marker_cases.
    + intros q Hq. assert (0 ≤ q < 256) by (unfold IneligibleVoteMarker in Hq; lia).
      rewrite C2, B1, E3, A1 by done. rewrite (Hop q Hq). unfold counted_for at 2. rewrite Hs.
      unfold counted_for, is_option in *.
      destruct (Z.eqb_spec q o), (Z.eqb_spec o q), (Z.eqb_spec q prev), (Z.eqb_spec prev q); subst; lia.
    + rewrite C3, B2, A2, E3, Hc. unfold counted. rewrite Hs. unfold IneligibleVoteMarker in *. marker_cases.
Qed.

Lemma vote_effect_same p v o el st prev : tally_ok p st → GetCountedVote p v st = Some prev →
  next_marker (Some prev) o el = prev →
  vote_effect p v o el st st (negb (prev =? IneligibleVoteMarker)).
Proof.
  intros Hok Hv Hn. constructor; rewrite ?Hv, ?Hn; [done| | |done].
  - intros w. case_bool_decide; congruence.
  - intros f. simpl. lia.
Qed.

Lemma RecordVote_effect p v o el st : is_u64 p → 0 ≤ o < IneligibleVoteMarker → tally_ok p st →
  (GetCountedVote p v st = None → counted p st + 1 < 2 ^ 64) →
  vote_effect p v o el st (snd (RecordVote p v o el st)) (fst (RecordVote p v o el st)).
Proof.
  intros Hp Ho Hok Hlt. unfold RecordVote. destruct (GetCountedVote p v st) as [prev|] eqn:Hv.
  - destruct (Z.eqb_spec prev IneligibleVoteMarker) as [->|H1].
    { by apply (vote_effect_same p v o el st IneligibleVoteMarker). }
    destruct (Z.eqb_spec prev o) as [->|H2].
    { simpl. replace true with (negb (o =? IneligibleVoteMarker)) by (destruct (Z.eqb_spec o IneligibleVoteMarker); lia).
      apply (vote_effect_same p v o el st o); [done|done|]. simpl. by destruct (Z.eqb_spec o IneligibleVoteMarker). }
    simpl. apply (vote_effect_change p v o prev); [done|done|done| |done..].
    rewrite <- (ok_turnout _ _ Hok). apply turnout_range.
  - specialize (Hlt eq_refl). destruct el; simpl; [by apply vote_effect_first|by apply vote_effect_ineligible].
Qed.

(** ** The live tally and the reference count *)

(** a sequence of cast ballots (address, option), folded in as they arrive *)
Definition cast_all (p : Z) (el : string → bool) (ballots : list (string * Z)) (st : GovStore) : GovStore :=
  foldl (λ st b, snd (RecordVote p b.1 b.2 (el b.1) st)) st ballots.
(** the last ballot of every eligible voter *)
Definition record_ballot (el : string → bool) (b : string * Z) (m : gmap string Z) : gmap string Z :=
  if el b.1 then <[b.1 := b.2]> m else m.
Definition latest (el : string → bool) (ballots : list (string * Z)) : gmap string Z :=
  foldl (λ m b, record_ballot el b m) ∅ ballots.

(** a proposal nobody has voted on *)
Definition fresh (p : Z) (st : GovStore) : Prop :=
  (∀ v, GetCountedVote p v st = None) ∧ tally_ok p st ∧ ∀ f, votes_sum f p st = 0.

Definition valid_ballot (b : string * Z) : Prop := 0 ≤ b.2 < IneligibleVoteMarker.

Lemma map_sum_record (f : Z → Z) v o (m : gmap string Z) :
  map_sum (λ _ x, f x) (<[v := o]> m) = map_sum (λ _ x, f x) m + f o - weight_of f (m !! v).
Proof.
  destruct (m !! v) as [x|] eqn:Hv; simpl.
  - rewrite (map_sum_insert _ _ _ x) by done. lia.
  - rewrite map_sum_insert_new by done. lia.
Qed.

(** the store holds the ballots [m], cast in at most [n] votes *)
Record tracks (p : Z) (el : string → bool) (n : Z) (st : GovStore) (m : gmap string Z) : Prop := {
  tr_ok : tally_ok p st;
  tr_el : ∀ v, el v = true → GetCountedVote p v st = m !! v;
  tr_no : ∀ v, el v = false → m !! v = None ∧
            (GetCountedVote p v st = None ∨ GetCountedVote p v st = Some IneligibleVoteMarker);
  tr_sums : ∀ f, f IneligibleVoteMarker = 0 → votes_sum f p st = map_sum (λ _ o, f o) m;
  tr_len : counted p st ≤ n;
  tr_valid : ∀ v o, m !! v = Some o → 0 ≤ o < IneligibleVoteMarker;
}.

Lemma tracks_step p el n st m b : is_u64 p → valid_ballot b → n + 1 < 2 ^ 64 → tracks p el n st m →
  tracks p el (n + 1) (snd (RecordVote p b.1 b.2 (el b.1) st)) (record_ballot el b m).
Proof.
  intros Hp Hb Hn [Hok Hel Hno Hs Hlen Hval].
  destruct (RecordVote_effect p b.1 b.2 (el b.1) st Hp Hb Hok (λ _, ltac:(lia))) as [_ Hv Hsum Hok'].
  set (st' := snd _) in *. unfold record_ballot.
  assert (∀ mk, is_counted mk ≤ 1 ∧ 0 ≤ is_counted mk) as Hc1 by (intros mk; unfold is_counted; case_match; lia).
  assert (counted p st' ≤ n + 1) as Hc.
  { unfold counted in *. rewrite Hsum. pose proof (Hc1 (next_marker (GetCountedVote p b.1 st) b.2 (el b.1))).
    destruct (GetCountedVote p b.1 st) as [z|]; simpl weight_of; [pose proof (Hc1 z)|]; lia. }
  destruct (el b.1) eqn:He.
  - assert (next_marker (GetCountedVote p b.1 st) b.2 true = b.2) as Hnm.
    { rewrite (Hel _ He). destruct (m !! b.1) as [x|] eqn:Hx; [|done]. simpl. apply Hval in Hx.
      destruct (Z.eqb_spec x IneligibleVoteMarker); [lia|done]. }
    rewrite Hnm in Hv, Hsum. constructor; [done| | | |done|].
    + intros v Hv'. rewrite Hv. case_bool_decide; [subst; by rewrite lookup_insert_eq|].
      rewrite lookup_insert_ne by done. by apply Hel.
    + intros v Hv'. assert (v ≠ b.1) by congruence. rewrite Hv, bool_decide_eq_false_2, lookup_insert_ne by done.
      by apply Hno.
    + intros f Hf. rewrite Hsum, map_sum_record, (Hs f Hf), (Hel _ He). lia.
    + intros v o [[<- <-]|[_ Ho]]%lookup_insert_Some; [done|by eapply Hval].
  - destruct (Hno _ He) as [Hm Hg].
    assert (next_marker (GetCountedVote p b.1 st) b.2 false = IneligibleVoteMarker) as Hnm
      by (destruct Hg as [-> | ->]; done).
    rewrite Hnm in Hv, Hsum. constructor; [done| | | |done|done].
    + intros v Hv'. assert (v ≠ b.1) by congruence. rewrite Hv, bool_decide_eq_false_2 by done. by apply Hel.
    + intros v Hv'. rewrite Hv. split; [by apply Hno|]. case_bool_decide; [by right|by apply Hno].
    + intros f Hf. rewrite Hsum, <- (Hs f Hf), Hf. destruct Hg as [-> | ->]; simpl; lia.
Qed.
Lemma cast_all_tracks p el ballots st :
  is_u64 p → fresh p st → Forall valid_ballot ballots → Z.of_nat (length ballots) < 2 ^ 64 →
  tracks p el (Z.of_nat (length ballots)) (cast_all p el ballots st) (latest el ballots).
Proof.
  intros Hp (Hf & Hok & Hs) Hb Hlen. unfold cast_all, latest.
  induction ballots as [|b ballots IH] using rev_ind.
  { constructor; simpl; [done|by intros; rewrite Hf|intros v _; rewrite Hf; auto| |unfold counted; by rewrite Hs|done].
    intros f _. by rewrite Hs, map_sum_empty. }
  rewrite length_app in Hlen |- *. cbn [length] in *. rewrite Forall_app in Hb. destruct Hb as [Hb1 Hb2].
  rewrite Forall_singleton in Hb2. rewrite !foldl_app. cbn [foldl].
  replace (Z.of_nat (length ballots + 1)) with (Z.of_nat (length ballots) + 1) by lia.
  apply tracks_step; [done|done|lia|]. apply IH; [done|lia].
Qed.

(** the reference counts the first ballot of each voter *)
Definition tally_get (q : Z) (res : OneHumanTally) : Z :=
  if q =? OptionYes then Yes res else if q =? OptionNo then No res
  else if q =? OptionNoWithVeto then NoWithVeto res else Abstain res.
Definition is_choice (q : Z) : Prop := q ∈ [OptionYes; OptionNo; OptionNoWithVeto; OptionAbstain].
Lemma tally_get_count q o res : is_choice q → is_choice o → 0 ≤ tally_get q res < 2 ^ 64 - 1 →
  tally_get q (count_option o res) = tally_get q res + is_option q o.
Proof.
  unfold is_choice. intros Hq Ho Hr.
  repeat (apply elem_of_cons in Hq as [->|Hq]); try (by apply not_elem_of_nil in Hq);
  repeat (apply elem_of_cons in Ho as [->|Ho]); try (by apply not_elem_of_nil in Ho);
  unfold tally_get, count_option, is_option in *; simpl in *; rewrite ?u64_id; lia.
Qed.

Definition unseen_weight (C : gset string) (q : Z) (v : string) (o : Z) : Z :=
  if bool_decide (v ∈ C) then 0 else is_option q o.
Lemma unseen_insert C q v o (m : gmap string Z) : v ∉ C →
  map_sum (unseen_weight C q) (<[v := o]> m) = is_option q o + map_sum (unseen_weight ({[v]} ∪ C) q) m.
Proof.
  intros Hv. rewrite <- insert_delete_eq, map_sum_insert_new by apply lookup_delete_eq.
  unfold unseen_weight at 1. rewrite bool_decide_eq_false_2 by done. f_equal.
  rewrite (map_sum_agree _ (λ k, k ≠ v) m (delete v m)).
  - unfold map_sum. apply sumZ_ext. intros [w x] Hin%elem_of_map_to_list%lookup_delete_Some. simpl.
    unfold unseen_weight. destruct Hin as [Hne _]. repeat case_bool_decide; try done; set_solver.
  - intros k x Hk. unfold unseen_weight. apply dec_stable in Hk as ->. rewrite bool_decide_eq_true_2; set_solver.
  - intros k Hk. by rewrite lookup_delete_ne.
Qed.

Lemma tally_loop_spec (el : string → bool) q votes C res : is_choice q →
  Forall (λ b, is_choice b.2) votes → 0 ≤ tally_get q res → tally_get q res + Z.of_nat (length votes) < 2 ^ 64 →
  ∀ enc : string → string, (∀ b w, b ∈ votes → w ∈ votes → enc b.1 = enc w.1 → b.1 = w.1) →
  ∀ D, (∀ b, b ∈ votes → enc b.1 ∈ C ↔ b.1 ∈ D) → (∀ v, v ∈ D → el v = true) →
  ∀ el', (∀ b, b ∈ votes → el' (enc b.1) = el b.1) →
  tally_get q (tally_loop el' C (map (λ b, mkVoteRecord (enc b.1) b.2) votes) res) =
  tally_get q res + map_sum (unseen_weight D q) (foldr (record_ballot el) ∅ votes).
Proof.
  intros Hq. revert C res. induction votes as [|b votes IH]; intros C res Hf H0 Hlen enc Hinj D HD HDe el' Hel'.
  { cbn [map tally_loop foldr]. rewrite map_sum_empty. lia. }
  apply Forall_cons in Hf as [Hb Hf]. cbn [length] in Hlen.
  cbn [map tally_loop foldr vr_Voter vr_Option]. unfold record_ballot at 1.
  rewrite (Hel' b) by left.
  assert (∀ C' res' D', 0 ≤ tally_get q res' → tally_get q res' ≤ tally_get q res + 1 →
    (∀ w, w ∈ votes → enc w.1 ∈ C' ↔ w.1 ∈ D') → (∀ v, v ∈ D' → el v = true) →
    tally_get q (tally_loop el' C' (map (λ b, mkVoteRecord (enc b.1) b.2) votes) res') =
    tally_get q res' + map_sum (unseen_weight D' q) (foldr (record_ballot el) ∅ votes)) as IH'.
  { intros C' res' D' H1 H2 H3 H4. apply IH; [done|done|lia| |done|done|].
    - intros x y Hx Hy. apply Hinj; by right.
    - intros x Hx. apply Hel'. by right. }
  assert (∀ w, w ∈ votes → enc w.1 ∈ C ↔ w.1 ∈ D) as HDt by (intros w Hw; apply HD; by right).
  case_bool_decide as Hin.
  - apply (HD b) in Hin; [|left]. rewrite (HDe _ Hin). rewrite (IH' C res D) by (lia || done). f_equal.
    apply (map_sum_agree _ (λ k, k ∉ D)).
    + intros k x Hk. unfold unseen_weight. apply dec_stable in Hk. by rewrite bool_decide_eq_true_2.
    + intros k Hk. rewrite lookup_insert_ne; [done|]. by intros <-.
  - assert (b.1 ∉ D) as HbD by (rewrite <- (HD b) by left; done). destruct (el b.1) eqn:He; cbn [negb].
    + assert (tally_get q (count_option b.2 res) = tally_get q res + is_option q b.2) as Hg
        by (apply tally_get_count; [done|done|lia]).
      assert (0 ≤ is_option q b.2 ≤ 1) by (unfold is_option; case_match; lia).
      rewrite (IH' _ _ ({[b.1]} ∪ D)); [rewrite unseen_insert by done; lia|lia|lia| |].
      * intros w Hw. rewrite !elem_of_union, !elem_of_singleton, (HDt w Hw).
        split; (intros [E|?]; [left|by right]); [|by rewrite E].
        apply Hinj; [by right|by left|done].
      * intros v [->%elem_of_singleton|Hv]%elem_of_union; [done|by apply HDe].
    + apply IH'; [lia|lia|done|done].
Qed.

Lemma latest_in el ballots v o : latest el ballots !! v = Some o → (v, o) ∈ ballots.
Proof.
  unfold latest. induction ballots as [|b l IH] using rev_ind; [done|]. rewrite foldl_app, elem_of_app.
  cbn [foldl]. unfold record_ballot at 1. destruct (el b.1); [|by left; apply IH].
  rewrite lookup_insert_Some. intros [[<- <-]|[_ Ho]]; [right; destruct b; by left|left; by apply IH].
Qed.
(** a counted ballot is for exactly one of the four options *)
Lemma is_counted_choices o : is_choice o →
  is_counted o = is_option OptionYes o + is_option OptionNo o + is_option OptionNoWithVeto o + is_option OptionAbstain o.
Proof.
  unfold is_choice. intros Ho. repeat (apply elem_of_cons in Ho as [->|Ho]); [done..|by apply not_elem_of_nil in Ho].
Qed.

(** C12: the live tally is the recount.  Whatever ballots are cast on a proposal, in
    whatever order and with whatever changes of mind, the four running counts are those
    [TallyOneHumanOneVote] computes from scratch over the same ballots taken latest
    first (it keeps the first ballot it meets of each voter), under the same
    eligibility test; and the turnout is their sum.  The fold needs no recount and no
    pass over the voters. *)
Theorem live_tally_is_recount {I} `{IdentitySource I} `{AddressCodecLaws} (idk : I) start p st ballots :
  is_u64 p → fresh p st → Z.of_nat (length ballots) < 2 ^ 64 →
  Forall (λ b, valid_address b.1 ∧ is_choice b.2) ballots →
  let el v := IsEligibleControllerAt idk (AccAddress_String v) start (MinIdentityAge idk) in
  let st' := cast_all p el ballots st in
  let ref := TallyOneHumanOneVote idk start
               (map (λ b, mkVoteRecord (AccAddress_String b.1) b.2) (rev ballots)) in
  option_count p OptionYes st' = Yes ref ∧ option_count p OptionNo st' = No ref ∧
  option_count p OptionNoWithVeto st' = NoWithVeto ref ∧ option_count p OptionAbstain st' = Abstain ref ∧
  turnout p st' = Yes ref + No ref + NoWithVeto ref + Abstain ref.
Proof.
  intros Hp Hfr Hlen Hb el st' ref.
  assert (Forall valid_ballot ballots) as Hvb.
  { eapply Forall_impl; [exact Hb|]. intros b [_ Hc]. unfold valid_ballot, is_choice, IneligibleVoteMarker in *.
    repeat (apply elem_of_cons in Hc as [->|Hc]); [done..|by apply not_elem_of_nil in Hc]. }
  destruct (cast_all_tracks p el ballots st Hp Hfr Hvb Hlen) as [Hok _ _ Hsum _ _]. fold st' in Hok, Hsum.
  rewrite Forall_forall in Hb.
  assert (∀ q, is_choice q → counted_for q p st' = tally_get q ref) as Hq.
  { intros q Hq. unfold ref, TallyOneHumanOneVote.
    rewrite (tally_loop_spec el q (rev ballots) ∅ _ Hq) with (D := ∅).
    - unfold counted_for. rewrite Hsum.
      + unfold latest. rewrite foldl_foldr_rev. unfold tally_get. repeat case_match; simpl; done.
      + unfold is_option, is_choice, IneligibleVoteMarker in *.
        repeat (apply elem_of_cons in Hq as [->|Hq]); [done..|by apply not_elem_of_nil in Hq].
    - apply Forall_forall. intros b Hb'. apply Hb. by rewrite <- Permutation_rev in Hb'.
    - unfold tally_get. repeat case_match; done.
    - rewrite length_rev. unfold tally_get. repeat case_match; simpl; lia.
    - intros b w Hb1 Hw1. rewrite <- Permutation_rev in Hb1, Hw1. apply AccAddress_String_inj; by apply Hb.
    - intros b _. by rewrite !elem_of_empty.
    - intros v Hv. by apply elem_of_empty in Hv.
    - done. }
  assert (∀ q, is_choice q → option_count p q st' = tally_get q ref) as Hoc.
  { intros q Hc. rewrite <- Hq by done. apply (ok_options _ _ Hok). unfold is_choice, IneligibleVoteMarker in *.
    repeat (apply elem_of_cons in Hc as [->|Hc]); [done..|by apply not_elem_of_nil in Hc]. }
  split_and!; [apply (Hoc OptionYes)|apply (Hoc OptionNo)|apply (Hoc OptionNoWithVeto)|apply (Hoc OptionAbstain)|];
    [unfold is_choice; by repeat constructor..|].
  rewrite (ok_turnout _ _ Hok). unfold counted. rewrite Hsum by done.
  rewrite (map_sum_ext _ (λ _ o, is_option OptionYes o + is_option OptionNo o + is_option OptionNoWithVeto o
    + is_option OptionAbstain o)) by (intros v o Ho%latest_in; by apply is_counted_choices, (Hb (v, o))).
  rewrite !map_sum_add, <- !Hsum by done.
  change (Yes ref) with (tally_get OptionYes ref). change (No ref) with (tally_get OptionNo ref).
  change (NoWithVeto ref) with (tally_get OptionNoWithVeto ref). change (Abstain ref) with (tally_get OptionAbstain ref).
  by rewrite <- !Hq by (unfold is_choice; by repeat constructor).
Qed.

(** ** Witness *)

(** a fixed roll of controllers *)
Definition roll_source (roll : gset string) : IdentitySource unit := {|
  IsEligibleControllerAt _ c _ _ := bool_decide (c ∈ roll);
  IsEligibleControllerSince _ c _ _ _ := bool_decide (c ∈ roll);
  CountEligibleControllersAt _ _ _ := Z.of_nat (size roll);
  EligibleControllerTotal _ := Z.of_nat (size roll);
  MinIdentityAge _ := 0;
|}.
Definition empty_store : GovStore := mkGovStore None ∅.
Lemma fresh_empty p : fresh p empty_store.
Proof.
  assert (∀ f, votes_sum f p empty_store = 0) as Hs by (intros f; apply map_sum_empty).
  split_and!; [intros v; unfold GetCountedVote; simpl; by rewrite lookup_empty| |done].
  constructor; unfold counted, counted_for, turnout, option_count, counts_sum; simpl;
    [by rewrite Hs, lookup_empty|by intros; rewrite Hs, lookup_empty|by rewrite Hs, map_sum_empty].
Qed.

Lemma live_tally_is_recount_witness :
  turnout 7 (cast_all 7 (λ v, bool_decide (v ∈ ({["alice"; "bob"]} : gset string)))
    [("alice", OptionNo); ("carol", OptionYes); ("bob", OptionYes); ("alice", OptionYes)] empty_store) = 2.
Proof.
  refine (eq_trans (proj2 (proj2 (proj2 (proj2 (@live_tally_is_recount _ (roll_source {["alice"; "bob"]})
    plain_codec plain_codec_laws tt 0 7 empty_store
    [("alice", OptionNo); ("carol", OptionYes); ("bob", OptionYes); ("alice", OptionYes)] _ _ _ _))))) _).
  - split; [done|reflexivity].
  - apply fresh_empty.
  - reflexivity.
  - repeat constructor; done.
  - vm_compute. reflexivity.
Defined.
