(* ===== verification/GovCheck.v ===== *)
(** * x/governance: what the registered invariant computes

    [TurnoutWithinFrozenBasisInvariant] scans the store; here its scans are related to
    the sums of [GovCount], so that a proposal whose cache agrees with its records and
    whose ballots stay within the frozen basis passes the check. *)
From stdpp Require Import base gmap strings list fin_maps sorting.
From Stdlib Require Import ZArith Lia.
From S2P Require Import Prelude GoInt KVStore StoreEntry Interfaces GovTypes GovKeeper GovTally GovCount.

(** a uint64 accumulator *)
Lemma foldl_u64_sum {A} (f : A → Z) l acc :
  foldl (λ t a, u64 (t + f a)) (u64 acc) l = u64 (acc + sumZ f l).
Proof.
  revert acc. induction l as [|a l IH]; intros acc; simpl; [f_equal; lia|].
  replace (u64 (u64 acc + f a)) with (u64 (acc + f a)) by (unfold u64; by rewrite Zplus_mod_idemp_l).
  rewrite IH. f_equal. lia.
Qed.

(** a map filled from a list of distinct keys holds the list *)
Lemma map_sum_foldl {K A} `{Countable K} (key : A → K) (val : A → Z) (l : list A) (m : gmap K Z) :
  NoDup (key <$> l) → (∀ a, a ∈ l → m !! key a = None) →
  map_sum (λ _ z, z) (foldl (λ m a, <[key a := val a]> m) m l) = map_sum (λ _ z, z) m + sumZ val l.
Proof.
  revert m. induction l as [|a l IH]; intros m Hnd Hm; simpl; [lia|].
  rewrite fmap_cons in Hnd. apply NoDup_cons in Hnd as [Ha Hnd].
  rewrite IH; [|done|].
  - rewrite map_sum_insert_new by (apply Hm; left). lia.
  - intros b Hb. rewrite lookup_insert_ne; [apply Hm; by right|]. intros E. apply Ha. rewrite E.
    by apply list_elem_of_fmap_2.
Qed.

(** a prefix and one byte: the byte decides the key *)
Lemma last_byte_key p k : has_prefix p k = true → strlen k = strlen p + 1 → k = p +:+ str1 (byte (last_byte k)).
Proof.
  intros [t ->]%has_prefix_spec. unfold strlen. rewrite str_app_length. intros Hl.
  destruct t as [|c [|]]; simpl in Hl; try lia. f_equal. unfold last_byte. rewrite str_app_length. simpl.
  assert (String.get (Nat.pred (String.length p + 1)) (p +:+ String c "") = Some c) as ->.
  { replace (Nat.pred (String.length p + 1)) with (String.length p) by lia.
    induction p as [|d p IH]; [done|]. simpl. apply IH. simpl in Hl. lia. }
  unfold str1. f_equal. apply char_code_inj. rewrite char_code_byte, Z.mod_small by apply char_code_range. done.
Qed.

Lemma sumCounts_counts p st : sumCounts (GetRunningTally p st) = u64 (counts_sum p st).
Proof.
  unfold sumCounts, GetRunningTally. cbn [Counts].
  set (l := List.filter _ _).
  rewrite (foldl_u64_sum (λ oc : Z * Z, oc.2) _ 0). rewrite Z.add_0_l.
  assert (sumZ (λ oc : Z * Z, oc.2) (map_to_list (foldl (λ m kv, <[last_byte kv.1 := decodeUint64 (Some kv.2)]> m) ∅ l)) =
    map_sum (λ _ z, z) (foldl (λ m (kv : string * string), <[last_byte kv.1 := decodeUint64 (Some kv.2)]> m) ∅ l)) as -> by done.
  rewrite (map_sum_foldl (λ kv : string * string, last_byte kv.1)); [| |by intros; apply lookup_empty].
  - rewrite map_sum_empty, Z.add_0_l. f_equal. unfold l, counts_sum.
    rewrite sumZ_filter, (sumZ_prefix_iterator (λ kv, if count_record _ kv then _ else 0)).
    apply map_sum_ext. intros k bz _. unfold count_weight, count_record. cbn [fst snd].
    by destruct (has_prefix (TallyCountPrefixFor p) k), (strlen k =? strlen (TallyCountPrefixFor p) + 1).
  - assert (∀ kv, kv ∈ l → kv.1 = TallyCountPrefixFor p +:+ str1 (byte (last_byte kv.1))) as Hk.
    { intros [k v] [Hin Hc]%list_elem_of_In%filter_In. apply list_elem_of_In, elem_of_prefix_iterator in Hin as [_ Hin].
      unfold count_record in Hc. apply Z.eqb_eq in Hc. by apply last_byte_key. }
    assert (NoDup (l.*1)) as Hnd by (apply filter_keys_NoDup, Iterator_NoDup).
    apply (NoDup_fmap_1 (λ b, TallyCountPrefixFor p +:+ str1 (byte b))).
    rewrite <- list_fmap_compose. erewrite list_fmap_ext; [exact Hnd|].
    intros i kv Hi. simpl. symmetry. apply Hk. by eapply list_elem_of_lookup_2.
Qed.

Lemma counted_iterate p st : counted p st = sumZ (λ vm, is_counted vm.2) (IterateCountedVotes p st).
Proof.
  unfold counted, votes_sum, IterateCountedVotes.
  rewrite <- (map_sum_ext (λ k v, if has_prefix (CountedVotePrefixFor p) k then
    match marker_of v with Some m => is_counted m | None => 0 end else 0)) by done.
  rewrite <- (sumZ_prefix_iterator (λ kv, match marker_of kv.2 with Some m => is_counted m | None => 0 end)).
  induction (KVStorePrefixIterator (gs_raw st) (CountedVotePrefixFor p)) as [|[k v] l IH]; [done|].
  rewrite sumZ_cons, IH. cbn [omap list_omap snd fst]. by destruct (marker_of v).
Qed.
Lemma count_ballots_counted p st : count_ballots (IterateCountedVotes p st) = u64 (counted p st).
Proof.
  unfold count_ballots.
  assert (∀ l : list (string * Z), foldl (λ n vm, if vm.2 =? IneligibleVoteMarker then n else u64 (n + 1)) 0 l =
    u64 (sumZ (λ vm, is_counted vm.2) l)) as Hf.
  { intros l. rewrite <- (Z.add_0_l (sumZ _ l)), <- foldl_u64_sum. change (u64 0) with 0.
    enough (∀ acc, is_u64 acc →
      foldl (λ n (vm : string * Z), if vm.2 =? IneligibleVoteMarker then n else u64 (n + 1)) acc l =
      foldl (λ t (vm : string * Z), u64 (t + is_counted vm.2)) acc l) as He by (apply He; split; [done|reflexivity]).
    induction l as [|[v m] l IH]; intros acc Ha; [done|]. cbn [foldl snd].
    assert (is_counted m = if m =? IneligibleVoteMarker then 0 else 1) as -> by done.
    destruct (m =? IneligibleVoteMarker).
    - rewrite Z.add_0_r, u64_id by done. by apply IH.
    - apply IH, u64_range. }
  by rewrite Hf, counted_iterate.
Qed.

(** the turnout the invariant reads is the cached one *)
Lemma Turnout_turnout p st : Turnout (GetRunningTally p st) = turnout p st.
Proof. done. Qed.

(** a proposal that passes *)
Definition within_basis (p : Z) (st : GovStore) : Prop :=
  match GetProposalEligibility p st with
  | None => counted p st = 0
  | Some b => counted p st ≤ Denominator b
  end.
Lemma check_proposal_ok p st : tally_ok p st → within_basis p st → check_proposal st p = None.
Proof.
  intros Hok Hw. unfold check_proposal. rewrite count_ballots_counted, sumCounts_counts, Turnout_turnout.
  rewrite (ok_sum _ _ Hok), (ok_turnout _ _ Hok).
  pose proof (turnout_range p st) as Hr. rewrite (ok_turnout _ _ Hok) in Hr. rewrite u64_id by done.
  unfold within_basis in Hw. destruct (GetProposalEligibility p st) as [b|].
  - destruct (Z.ltb_spec (Denominator b) (counted p st)); [lia|]. by rewrite Z.eqb_refl.
  - by rewrite Hw.
Qed.
Lemma check_proposals_ok st ids : (∀ p, p ∈ ids → check_proposal st p = None) → check_proposals st ids = ("", false).
Proof.
  induction ids as [|p ids IH]; intros Hc; [done|]. simpl. rewrite (Hc p) by left.
  apply IH. intros q Hq. apply Hc. by right.
Qed.
Lemma check_proposals_true st ids : (check_proposals st ids).2 = true → ∃ p, p ∈ ids ∧ check_proposal st p ≠ None.
Proof.
  induction ids as [|p ids IH]; [done|]. cbn [check_proposals]. destruct (check_proposal st p) as [msg|] eqn:E.
  - intros _. exists p. split; [left|by rewrite E].
  - intros (q & Hq & Hc)%IH. exists q. split; [by right|done].
Qed.
Lemma substring_strlen n m s : strlen (String.substring n m s) ≤ Z.of_nat m.
Proof.
  unfold strlen. revert n m. induction s as [|c s IH]; intros [|n] [|m]; simpl; try lia; try apply IH.
  specialize (IH 0%nat m). lia.
Qed.
(** the ids of the scan are uint64 values *)
Lemma TalliedProposalIDs_u64 st p : p ∈ TalliedProposalIDs st → is_u64 p.
Proof.
  unfold TalliedProposalIDs. rewrite merge_sort_Permutation, elem_of_elements, elem_of_list_to_set.
  intros Hp. apply list_elem_of_In, in_concat in Hp as (l & Hl & Hp). apply in_map_iff in Hl as (pre & <- & _).
  unfold ids_under in Hp. apply in_map_iff in Hp as ([k v] & <- & _). simpl. unfold id_after, BigEndian_Uint, is_u64.
  pose proof (be_value_range (String.substring (String.length pre) 8 k) 0 ltac:(lia)) as Hr.
  pose proof (substring_strlen (String.length pre) 8 k).
  pose proof (Z.pow_le_mono_r 256 (strlen (String.substring (String.length pre) 8 k)) 8 ltac:(lia) ltac:(lia)).
  change (256 ^ 8) with (2 ^ 64) in *. lia.
Qed.
