(* ===== verification/GovPrune.v ===== *)
(** * x/governance: pruning

    [PruneStep] runs in every block on a budget.  A step removes only records of queued
    proposals, a proposal leaves the queue with nothing left behind, and repeated steps
    empty the queue. *)
From stdpp Require Import base gmap strings list fin_maps sorting.
From Stdlib Require Import ZArith Lia.
From S2P Require Import Prelude GoInt KVStore StoreEntry Interfaces GovTypes GovKeeper GovTally GovCount GovCheck.

(** ** x/governance: which records belong to a proposal

    Everything the tally keeps about a proposal lies under keys of that proposal, so an
    operation on one proposal leaves the others alone.  Pruning is described the same
    way: which keys a step may remove, what is left when a proposal leaves the queue,
    and that the queue empties. *)
(** ** The frozen basis is stored exactly *)
Lemma substring_app a b c n m : String.length a = n → String.length b = m →
  String.substring n m (a +:+ b +:+ c) = b.
Proof.
  intros <- <-. induction a as [|x a IH]; simpl; [|apply IH].
  induction b as [|x b IH]; simpl; [by destruct c|by rewrite IH].
Qed.

Definition basis_typed (b : FrozenEligibility) : Prop :=
  is_u64 (Denominator b) ∧ - 2 ^ 63 ≤ Cutoff b < 2 ^ 63 ∧ - 2 ^ 63 ≤ FrozenAt b < 2 ^ 63.

Lemma ProposalEligibilityKey_inj p q : is_u64 p → is_u64 q →
  ProposalEligibilityKey p = ProposalEligibilityKey q → p = q.
Proof. intros Hp Hq E%str_app_inj_l. by apply be64_inj. Qed.

Lemma GetProposalEligibility_set p q b st : is_u64 p → is_u64 q → basis_typed b →
  GetProposalEligibility p (SetProposalEligibility q b st) =
  if bool_decide (p = q) then Some b else GetProposalEligibility p st.
Proof.
  intros Hp Hq (Hd & Hc & Hf). unfold GetProposalEligibility, SetProposalEligibility. cbn [set_raw gs_raw].
  case_bool_decide as E; [subst q; rewrite lookup_insert_eq|
    rewrite lookup_insert_ne; [done|intros E'%ProposalEligibilityKey_inj; naive_solver]].
  assert (∀ z, String.length (be64 z) = 8%nat) as Hl by (intros z; apply be_length).
  set (x := be64 (Denominator b)). set (y := be64 (u64 (Cutoff b))). set (z := be64 (u64 (FrozenAt b))).
  assert (strlen (x +:+ y +:+ z) = 24) as ->.
  { unfold strlen, x, y, z. rewrite !str_app_length, !Hl. done. }
  assert (String.substring 0 8 (x +:+ y +:+ z) = x) as -> by (apply (substring_app "" x); [done|apply Hl]).
  assert (String.substring 8 8 (x +:+ y +:+ z) = y) as -> by (apply substring_app; apply Hl).
  assert (String.substring 16 8 (x +:+ y +:+ z) = z) as ->.
  { rewrite <- (str_app_nil_r z) at 1. rewrite <- str_app_assoc.
    apply substring_app; [unfold x, y; by rewrite str_app_length, !Hl|apply Hl]. }
  unfold x, y, z. rewrite !BigEndian_be64, u64_id by done.
  rewrite !(u64_id (u64 _)) by apply u64_range. rewrite !i64_u64 by done. by destruct b.
Qed.

(** ** Framing *)
Definition belongs (p : Z) (k : string) : bool :=
  has_prefix (CountedVotePrefixFor p) k || has_prefix (TallyCountPrefixFor p) k ||
  bool_decide (k = TallyTurnoutKey p) || bool_decide (k = ProposalEligibilityKey p).
Definition agree (p : Z) (st st' : GovStore) : Prop :=
  ∀ k, belongs p k = true → gs_raw st' !! k = gs_raw st !! k.

(** keys of different kinds differ in their first byte *)
Ltac first_byte :=
  unfold CountedVoteKey, TallyCountKey, CountedVotePrefixFor, TallyCountPrefixFor, TallyTurnoutKey,
    ProposalEligibilityKey, PruneKey, TallyCountPrefix, TallyTurnoutPrefix, CountedVotePrefix,
    ProposalEligibilityPrefix, PrunePrefix;
  rewrite ?str_app_assoc, ?has_prefix_disjoint by done;
  repeat (rewrite bool_decide_eq_false_2 by (apply key_disjoint; done)).

Lemma belongs_vote p q v : is_u64 p → is_u64 q → p ≠ q → belongs p (CountedVoteKey q v) = false.
Proof.
  intros Hp Hq Hne. unfold belongs. rewrite votes_prefix_key, bool_decide_eq_false_2 by done. by first_byte.
Qed.
Lemma belongs_count p q o : is_u64 p → is_u64 q → p ≠ q → belongs p (TallyCountKey q o) = false.
Proof.
  intros Hp Hq Hne. unfold belongs. rewrite counts_prefix_key, (bool_decide_eq_false_2 (p = q)) by done.
  by first_byte.
Qed.
Lemma belongs_turnout p q : is_u64 p → is_u64 q → p ≠ q → belongs p (TallyTurnoutKey q) = false.
Proof.
  intros Hp Hq Hne. unfold belongs. rewrite (bool_decide_eq_false_2 (TallyTurnoutKey q = _)); [by first_byte|].
  intros E%str_app_inj_l%be64_inj; [naive_solver|done|done].
Qed.
Lemma belongs_basis p q : is_u64 p → is_u64 q → p ≠ q → belongs p (ProposalEligibilityKey q) = false.
Proof.
  intros Hp Hq Hne. unfold belongs. rewrite (bool_decide_eq_false_2 (ProposalEligibilityKey q = ProposalEligibilityKey p)); [by first_byte|].
  intros E%ProposalEligibilityKey_inj; naive_solver.
Qed.
Lemma belongs_prune p q : belongs p (PruneKey q) = false.
Proof. unfold belongs. by first_byte. Qed.

Lemma agree_refl p st : agree p st st.
Proof. done. Qed.
Lemma agree_trans p s1 s2 s3 : agree p s1 s2 → agree p s2 s3 → agree p s1 s3.
Proof. intros H1 H2 k Hk. by rewrite H2, H1. Qed.
Lemma agree_set p k v st : belongs p k = false → agree p st (set_raw k v st).
Proof. intros Hk k' Hk'. simpl. rewrite lookup_insert_ne; [done|]. intros ->. congruence. Qed.

Section agreed.
Context (p : Z) (st st' : GovStore) (Hag : agree p st st').
Lemma agree_vote v : GetCountedVote p v st' = GetCountedVote p v st.
Proof.
  unfold GetCountedVote. rewrite Hag; [done|]. unfold belongs, CountedVoteKey. by rewrite has_prefix_app.
Qed.
Lemma agree_votes_sum f : votes_sum f p st' = votes_sum f p st.
Proof.
  apply (map_sum_agree _ (λ k, has_prefix (CountedVotePrefixFor p) k = true)).
  - intros k v Hk. apply not_true_iff_false in Hk. unfold vote_weight. by rewrite Hk.
  - intros k Hk. apply Hag. unfold belongs. by rewrite Hk.
Qed.
Lemma agree_counts_sum : counts_sum p st' = counts_sum p st.
Proof.
  apply (map_sum_agree _ (λ k, has_prefix (TallyCountPrefixFor p) k = true)).
  - intros k v Hk. apply not_true_iff_false in Hk. unfold count_weight. by rewrite Hk.
  - intros k Hk. apply Hag. unfold belongs. by rewrite Hk, orb_true_r.
Qed.
Lemma agree_basis : GetProposalEligibility p st' = GetProposalEligibility p st.
Proof.
  unfold GetProposalEligibility. rewrite Hag; [done|]. unfold belongs.
  by rewrite (bool_decide_eq_true_2 (ProposalEligibilityKey p = ProposalEligibilityKey p)), !orb_true_r.
Qed.
Lemma agree_tally_ok : tally_ok p st → tally_ok p st'.
Proof.
  intros [Ht Ho Hs]. unfold counted, counted_for in *. constructor.
  - unfold turnout, counted in *. rewrite agree_votes_sum, Hag; [done|]. unfold belongs.
    by rewrite (bool_decide_eq_true_2 (TallyTurnoutKey p = TallyTurnoutKey p)), !orb_true_r.
  - intros o Hr. unfold option_count, counted_for in *. rewrite agree_votes_sum, Hag; [by apply Ho|].
    unfold belongs, TallyCountKey. by rewrite (has_prefix_app (TallyCountPrefixFor p)), orb_true_r.
  - unfold counted. by rewrite agree_votes_sum, agree_counts_sum.
Qed.
End agreed.

Lemma RecordVote_frame p q v o el st : is_u64 p → is_u64 q → p ≠ q →
  agree p st (snd (RecordVote q v o el st)).
Proof.
  intros Hp Hq Hne. unfold RecordVote.
  assert (∀ m s, agree p s (setCountedVote q v m s)) as H1 by (intros; by apply agree_set, belongs_vote).
  assert (∀ o d s, agree p s (addOptionCount q o d s)) as H2 by (intros; by apply agree_set, belongs_count).
  assert (∀ d s, agree p s (addTurnout q d s)) as H3 by (intros; by apply agree_set, belongs_turnout).
  destruct (GetCountedVote q v st) as [prev|]; repeat case_match; cbn [snd]; [done|done| |apply H1|];
    (eapply agree_trans; [|apply H1]); (eapply agree_trans; [|apply H2]); auto.
Qed.

(** no operation on ballots touches the queue *)
Definition queue_kept (st st' : GovStore) : Prop :=
  ∀ q, gs_raw st' !! PruneKey q = gs_raw st !! PruneKey q.
Lemma queue_kept_set k v st : (∀ q, k ≠ PruneKey q) → queue_kept st (set_raw k v st).
Proof. intros Hk q. simpl. by rewrite lookup_insert_ne. Qed.
Lemma queue_kept_trans s1 s2 s3 : queue_kept s1 s2 → queue_kept s2 s3 → queue_kept s1 s3.
Proof. intros H1 H2 q. by rewrite H2, H1. Qed.
Lemma RecordVote_queue q v o el st : queue_kept st (snd (RecordVote q v o el st)).
Proof.
  unfold RecordVote.
  assert (∀ m s, queue_kept s (setCountedVote q v m s)) as H1.
  { intros. apply queue_kept_set. intros x. unfold CountedVoteKey, CountedVotePrefixFor, PruneKey.
    rewrite str_app_assoc. by apply key_disjoint. }
  assert (∀ o d s, queue_kept s (addOptionCount q o d s)) as H2.
  { intros. apply queue_kept_set. intros x. unfold TallyCountKey, TallyCountPrefixFor, PruneKey.
    rewrite str_app_assoc. by apply key_disjoint. }
  assert (∀ d s, queue_kept s (addTurnout q d s)) as H3.
  { intros. apply queue_kept_set. intros x. by apply key_disjoint. }
  destruct (GetCountedVote q v st) as [prev|]; repeat case_match; cbn [snd]; [done|done| |apply H1|];
    (eapply queue_kept_trans; [|apply H1]); (eapply queue_kept_trans; [|apply H2]); auto.
Qed.
Lemma queue_kept_queued st st' q : queue_kept st st' → IsQueuedForPruning q st' = IsQueuedForPruning q st.
Proof. intros Hk. unfold IsQueuedForPruning. by rewrite Hk. Qed.

(** nor the basis *)
Lemma RecordVote_basis p q v o el st :
  gs_raw (snd (RecordVote q v o el st)) !! ProposalEligibilityKey p = gs_raw st !! ProposalEligibilityKey p.
Proof.
  assert (∀ k bz s, k ≠ ProposalEligibilityKey p → gs_raw (set_raw k bz s) !! ProposalEligibilityKey p =
    gs_raw s !! ProposalEligibilityKey p) as Hs by (intros k bz s Hk; simpl; by rewrite lookup_insert_ne).
  assert (CountedVoteKey q v ≠ ProposalEligibilityKey p) as H1.
  { unfold CountedVoteKey, CountedVotePrefixFor. rewrite str_app_assoc. by apply key_disjoint. }
  assert (∀ o, TallyCountKey q o ≠ ProposalEligibilityKey p) as H2.
  { intros o'. unfold TallyCountKey, TallyCountPrefixFor. rewrite str_app_assoc. by apply key_disjoint. }
  assert (TallyTurnoutKey q ≠ ProposalEligibilityKey p) as H3 by by apply key_disjoint.
  unfold RecordVote, setCountedVote, addOptionCount, addTurnout.
  destruct (GetCountedVote q v st) as [prev|]; repeat case_match; cbn [snd]; [done|done|..];
    rewrite ?Hs by auto; done.
Qed.

(** ** Queue ids and queue keys *)
Lemma be64_BigEndian s : strlen s = 8 → be64 (BigEndian_Uint s) = s.
Proof.
  unfold strlen, be64, BigEndian_Uint. intros Hs. pose proof (be_be_value 0 s 0) as H.
  replace (0 + String.length s)%nat with 8%nat in H by lia. exact H.
Qed.
Lemma elem_of_queued_ids st p : p ∈ queued_ids st ↔ is_u64 p ∧ is_Some (gs_raw st !! PruneKey p).
Proof.
  unfold queued_ids. rewrite list_elem_of_In, in_map_iff. split.
  - intros ([k v] & <- & [Hin Hl]%filter_In). apply list_elem_of_In, elem_of_prefix_iterator in Hin as [Hk Hp].
    simpl in Hl |- *. apply Z.eqb_eq in Hl. apply has_prefix_spec in Hp as [t ->].
    unfold strlen in Hl. rewrite str_app_length in Hl. assert (strlen t = 8) as Ht by (unfold strlen; lia).
    assert (id_after PrunePrefix (PrunePrefix +:+ t) = BigEndian_Uint t) as ->.
    { unfold id_after. f_equal. rewrite <- (str_app_nil_r t) at 1. apply substring_app; [done|unfold strlen in Ht; lia]. }
    split.
    + pose proof (be_value_range t 0 ltac:(lia)) as Hr. rewrite Ht in Hr. unfold is_u64, BigEndian_Uint.
      change ((0 + 1) * 256 ^ 8) with (2 ^ 64) in Hr. lia.
    + unfold PruneKey, Uint64Key. rewrite be64_BigEndian by done. eauto.
  - intros [Hp [v Hv]]. exists (PruneKey p, v).
    assert (String.length (be64 p) = 8%nat) as Hl by apply be_length. split.
    + simpl. unfold id_after, PruneKey, Uint64Key. rewrite <- (str_app_nil_r (be64 p)).
      rewrite (substring_app PrunePrefix (be64 p)) by done. by rewrite BigEndian_be64, u64_id.
    + apply filter_In. split; [apply list_elem_of_In, elem_of_prefix_iterator; split; [done|apply has_prefix_app]|].
      cbn [fst]. unfold PruneKey, strlen, Uint64Key. by rewrite str_app_length, Hl.
Qed.

(** ** What a step removes *)
Definition owned (p : Z) (k : string) : bool := belongs p k || bool_decide (k = PruneKey p).
Lemma PruneKey_inj p q : is_u64 p → is_u64 q → PruneKey p = PruneKey q → p = q.
Proof. intros Hp Hq E%str_app_inj_l. by apply be64_inj. Qed.
Lemma owned_PruneKey p q : is_u64 p → is_u64 q → owned p (PruneKey q) = bool_decide (p = q).
Proof.
  intros Hp Hq. unfold owned. rewrite belongs_prune. simpl. apply bool_decide_ext. split; [|naive_solver].
  intros E. by apply PruneKey_inj in E.
Qed.

(** the state only loses records, and only records of the proposals in [ids] *)
Definition loses (ids : list Z) (st st' : GovStore) : Prop :=
  ∀ k, gs_raw st' !! k = gs_raw st !! k ∨
       (gs_raw st' !! k = None ∧ ∃ p, p ∈ ids ∧ owned p k = true).
Definition gone (p : Z) (st : GovStore) : Prop := ∀ k, owned p k = true → gs_raw st !! k = None.

Lemma loses_refl ids st : loses ids st st.
Proof. intros k. by left. Qed.
Lemma loses_trans ids s1 s2 s3 : loses ids s1 s2 → loses ids s2 s3 → loses ids s1 s3.
Proof. intros H1 H2 k. destruct (H2 k) as [->|?]; [apply H1|by right]. Qed.
Lemma loses_weaken ids ids' s1 s2 : ids ⊆ ids' → loses ids s1 s2 → loses ids' s1 s2.
Proof. intros Hi H1 k. destruct (H1 k) as [?|(? & p & ? & ?)]; [by left|right; split; [done|exists p; auto]]. Qed.
Lemma loses_gone ids p s1 s2 : loses ids s1 s2 → gone p s1 → gone p s2.
Proof. intros H1 Hg k Hk. destruct (H1 k) as [->|[-> _]]; [by apply Hg|done]. Qed.
Lemma loses_agree ids p st st' : is_u64 p → (∀ q, q ∈ ids → is_u64 q) → p ∉ ids → loses ids st st' →
  (∀ q k, q ∈ ids → owned q k = true → belongs p k = false) → agree p st st'.
Proof.
  intros Hp Hids Hni Hl Hd k Hk. destruct (Hl k) as [?|(_ & q & Hq & Ho)]; [done|].
  by rewrite (Hd q k Hq Ho) in Hk.
Qed.
(** records of different proposals are different *)
Lemma owned_disjoint p q k : is_u64 p → is_u64 q → p ≠ q → owned q k = true → belongs p k = false.
Proof.
  intros Hp Hq Hne. unfold owned. rewrite orb_true_iff, bool_decide_eq_true.
  intros [Hb| ->]; [|apply belongs_prune]. unfold belongs in Hb. rewrite !orb_true_iff, !bool_decide_eq_true in Hb.
  destruct Hb as [[[[t ->]%has_prefix_spec|[t ->]%has_prefix_spec]| ->]| ->].
  - by apply (belongs_vote p q t).
  - assert (has_prefix (TallyCountPrefixFor p) (TallyCountPrefixFor q +:+ t) = false) as Hf.
    { unfold TallyCountPrefixFor, Uint64Key. rewrite str_app_assoc, has_prefix_be64 by done.
      by apply bool_decide_eq_false_2. }
    unfold belongs. rewrite Hf. by first_byte.
  - by apply belongs_turnout.
  - by apply belongs_basis.
Qed.

Lemma del_keys_lookup keys st k :
  gs_raw (del_keys keys st) !! k = if bool_decide (k ∈ keys) then None else gs_raw st !! k.
Proof. apply foldl_delete_lookup. Qed.
Lemma loses_del_keys ids keys st :
  (∀ k, k ∈ keys → ∃ p, p ∈ ids ∧ owned p k = true) → loses ids st (del_keys keys st).
Proof.
  intros Hk k. rewrite del_keys_lookup. case_bool_decide as Hin; [|by left]. right. auto.
Qed.
Lemma loses_del_raw ids p k st : p ∈ ids → owned p k = true → loses ids st (del_raw k st).
Proof.
  intros Hp Ho k'. simpl. destruct (decide (k' = k)) as [->|Hne]; [|left; by rewrite lookup_delete_ne].
  right. rewrite lookup_delete_eq. eauto.
Qed.
Lemma owned_votes p k : has_prefix (CountedVotePrefixFor p) k = true → owned p k = true.
Proof. intros H. unfold owned, belongs. by rewrite H. Qed.
Lemma owned_counts p k : has_prefix (TallyCountPrefixFor p) k = true → owned p k = true.
Proof. intros H. unfold owned, belongs. by rewrite H, orb_true_r. Qed.
Lemma owned_single p k : k ∈ [TallyTurnoutKey p; ProposalEligibilityKey p; PruneKey p] → owned p k = true.
Proof.
  unfold owned, belongs. intros Hk.
  repeat (apply elem_of_cons in Hk as [->|Hk]); [..|by apply not_elem_of_nil in Hk];
    rewrite !orb_true_iff, !bool_decide_eq_true; auto.
Qed.
Lemma elem_of_iterator_keys st p k :
  k ∈ (KVStorePrefixIterator (gs_raw st) p).*1 ↔ is_Some (gs_raw st !! k) ∧ has_prefix p k = true.
Proof.
  rewrite list_elem_of_fmap. split.
  - intros ([k' v] & -> & [Hk Hp]%elem_of_prefix_iterator). simpl. eauto.
  - intros [[v Hv] Hp]. exists (k, v). by rewrite elem_of_prefix_iterator.
Qed.

Lemma prune_aggregates_spec p st :
  (∀ k, has_prefix (CountedVotePrefixFor p) k = true → gs_raw st !! k = None) →
  loses [p] st (snd (prune_aggregates p st)) ∧ gone p (snd (prune_aggregates p st)).
Proof.
  intros Hv. unfold prune_aggregates. cbn [snd]. set (keys := _.*1).
  assert (∀ k, k ∈ keys ↔ is_Some (gs_raw st !! k) ∧ has_prefix (TallyCountPrefixFor p) k = true) as Hk
    by (intros k; apply elem_of_iterator_keys).
  split.
  - eapply loses_trans; [|apply (loses_del_raw _ p); [left|apply owned_single; by repeat constructor]].
    eapply loses_trans; [|apply (loses_del_raw _ p); [left|apply owned_single; by repeat constructor]].
    eapply loses_trans; [|apply (loses_del_raw _ p); [left|apply owned_single; by repeat constructor]].
    apply loses_del_keys. intros k [_ Hp]%Hk. exists p. split; [left|by apply owned_counts].
  - intros k. unfold owned, belongs. rewrite !orb_true_iff, !bool_decide_eq_true. cbn [del_raw gs_raw].
    rewrite !lookup_delete_None, del_keys_lookup. intros [[[[Ho|Ho]| ->]| ->]| ->]; [| |by auto..].
    + right. right. right. rewrite Hv by done. by case_bool_decide.
    + right. right. right. case_bool_decide as Hin; [done|]. rewrite Hk in Hin.
      apply eq_None_not_Some. naive_solver.
Qed.

(** one proposal of the queue: either some of its ballots go, or everything does *)
Lemma prune_loop_spec budget queued deleted st :
  (∀ p, p ∈ queued → is_u64 p) →
  loses queued st (snd (prune_loop budget queued deleted st)) ∧
  ∀ p, is_u64 p → is_Some (gs_raw st !! PruneKey p) →
    is_Some (gs_raw (snd (prune_loop budget queued deleted st)) !! PruneKey p) ∨
    gone p (snd (prune_loop budget queued deleted st)).
Proof.
  revert deleted st. induction queued as [|q queued IH]; intros deleted st Hu; cbn [prune_loop snd].
  { split; [apply loses_refl|auto]. }
  destruct (Z.leb_spec budget deleted) as [_|Hb]; [split; [apply loses_refl|auto]|].
  set (batch := take _ _). set (s1 := del_keys batch st).
  assert (∀ k, k ∈ batch → is_Some (gs_raw st !! k) ∧ has_prefix (CountedVotePrefixFor q) k = true) as Hba.
  { intros k Hk. apply elem_of_iterator_keys. unfold batch in Hk. by apply elem_of_take in Hk as (i & Hi & _);
      eapply list_elem_of_lookup_2. }
  assert (loses [q] st s1) as Hl1.
  { apply loses_del_keys. intros k [_ Hk]%Hba. exists q. split; [left|by apply owned_votes]. }
  assert (∀ p, gs_raw s1 !! PruneKey p = gs_raw st !! PruneKey p) as Hp1.
  { intros p. unfold s1. rewrite del_keys_lookup, bool_decide_eq_false_2; [done|]. intros [_ Hk]%Hba.
    by revert Hk; first_byte. }
  assert (is_u64 q) as Hq by (apply Hu; left).
  assert (∀ s2 d, loses [q] st s2 → (∀ p, is_u64 p → is_Some (gs_raw st !! PruneKey p) →
      is_Some (gs_raw s2 !! PruneKey p) ∨ gone p s2) →
    loses (q :: queued) st (snd (prune_loop budget queued d s2)) ∧
    ∀ p, is_u64 p → is_Some (gs_raw st !! PruneKey p) →
      is_Some (gs_raw (snd (prune_loop budget queued d s2)) !! PruneKey p) ∨
      gone p (snd (prune_loop budget queued d s2))) as Hgo.
  { intros s2 d Hl2 Hk2. destruct (IH d s2 (λ p Hp, Hu p (list_elem_of_further p q queued Hp))) as [IH1 IH2]. split.
    - eapply loses_trans; [eapply loses_weaken; [|exact Hl2]; set_solver|].
      eapply loses_weaken; [|exact IH1]. set_solver.
    - intros p Hp Hs. destruct (Hk2 p Hp Hs) as [Hs2|Hg]; [by apply IH2|right; by eapply loses_gone]. }
  destruct (0 <? length batch)%nat eqn:Hlen.
  - apply Hgo; [done|]. intros p _ Hs. left. by rewrite Hp1.
  - assert (batch = []) as Hnil by (apply Nat.ltb_ge in Hlen; by apply nil_length_inv; lia).
    assert (s1 = st) as Hs1 by (unfold s1; rewrite Hnil; by destruct st).
    destruct (prune_aggregates_spec q s1) as [Ha1 Ha2].
    { intros k Hk. rewrite Hs1. apply eq_None_not_Some. intros Hs.
      assert (k ∈ (KVStorePrefixIterator (gs_raw st) (CountedVotePrefixFor q)).*1) as Hin by by apply elem_of_iterator_keys.
      unfold batch in Hnil. destruct (_.*1) eqn:E; [by apply not_elem_of_nil in Hin|].
      destruct (Z.to_nat (budget - deleted)) eqn:En; [lia|done]. }
    destruct (prune_aggregates q s1) as [n s2] eqn:E. cbn [snd] in *. rewrite Hs1 in Ha1.
    apply Hgo; [done|]. intros p Hp Hs. destruct (decide (p = q)) as [->|Hne]; [by right|]. left.
    destruct (Ha1 (PruneKey p)) as [->|(_ & r & ->%list_elem_of_singleton & Ho)]; [done|].
    rewrite owned_PruneKey in Ho by done. apply bool_decide_eq_true in Ho. congruence.
Qed.

Lemma PruneStep_loses budget st : loses (queued_ids st) st (snd (PruneStep budget st)).
Proof.
  unfold PruneStep. destruct (budget <=? 0); [apply loses_refl|].
  apply prune_loop_spec. intros p Hp. by apply elem_of_queued_ids in Hp as [? _].
Qed.
Lemma PruneStep_leaves budget st p : p ∈ queued_ids st →
  p ∈ queued_ids (snd (PruneStep budget st)) ∨ gone p (snd (PruneStep budget st)).
Proof.
  intros [Hp Hs]%elem_of_queued_ids. unfold PruneStep.
  destruct (budget <=? 0); [left; by apply elem_of_queued_ids|].
  destruct (prune_loop_spec budget (queued_ids st) 0 st) as [_ Hk].
  { intros q Hq. by apply elem_of_queued_ids in Hq as [? _]. }
  destruct (Hk p Hp Hs); [left; by apply elem_of_queued_ids|by right].
Qed.
Lemma loses_queued ids st st' p : loses ids st st' → p ∈ queued_ids st' → p ∈ queued_ids st.
Proof.
  intros Hl [Hp [v Hv]]%elem_of_queued_ids. apply elem_of_queued_ids. split; [done|].
  destruct (Hl (PruneKey p)) as [E|[E _]]; rewrite E in Hv; [eauto|done].
Qed.

(** ** Progress *)
Lemma loses_size ids st st' : loses ids st st' → (size (gs_raw st') ≤ size (gs_raw st))%nat.
Proof.
  intros Hl. apply map_subseteq_size. apply map_subseteq_spec. intros k v Hk.
  destruct (Hl k) as [E|[E _]]; congruence.
Qed.
Lemma loses_size_lt ids st st' k : loses ids st st' → is_Some (gs_raw st !! k) → gs_raw st' !! k = None →
  (size (gs_raw st') < size (gs_raw st))%nat.
Proof.
  intros Hl [v Hv] Hk. apply map_subset_size. apply map_subset_alt. split.
  - apply map_subseteq_spec. intros k' v' Hk'. destruct (Hl k') as [E|[E _]]; congruence.
  - exists k. split; [done|eauto].
Qed.
(** while the queue is not empty, a step removes something *)
Lemma PruneStep_progress budget st : 0 < budget → queued_ids st ≠ [] →
  (size (gs_raw (snd (PruneStep budget st))) < size (gs_raw st))%nat.
Proof.
  intros Hb Hne. pose proof (PruneStep_loses budget st) as Hl.
  assert (∀ p, p ∈ queued_ids st → is_u64 p ∧ is_Some (gs_raw st !! PruneKey p)) as Hq by (intros p; apply elem_of_queued_ids).
  revert Hl. unfold PruneStep. destruct (Z.leb_spec budget 0); [lia|].
  destruct (queued_ids st) as [|q queued]; [done|]. intros Hl.
  assert (∃ k, is_Some (gs_raw st !! k) ∧ gs_raw (snd (prune_loop budget (q :: queued) 0 st)) !! k = None) as (k & Hk & Hk');
    [|by eapply loses_size_lt].
  assert (∀ d s k, gs_raw s !! k = None → gs_raw (snd (prune_loop budget queued d s)) !! k = None) as Hkeep.
  { intros d s k Hk. destruct (prune_loop_spec budget queued d s) as [Hl' _]; [intros p Hp; apply Hq; by right|].
    destruct (Hl' k) as [->|[-> _]]; done. }
  destruct (Hq q) as [Hqu Hqs]; [left|]. cbn [prune_loop]. destruct (Z.leb_spec budget 0); [lia|].
  set (batch := take _ _).
  assert (∀ k, k ∈ batch → is_Some (gs_raw st !! k)) as Hin.
  { intros k (i & Hi & _)%elem_of_take. apply list_elem_of_lookup_2, elem_of_iterator_keys in Hi. apply Hi. }
  clearbody batch. destruct (0 <? length batch)%nat eqn:Hlen.
  - apply Nat.ltb_lt in Hlen. destruct batch as [|k b]; [simpl in Hlen; lia|]. exists k. split.
    + apply Hin. left.
    + apply Hkeep. rewrite del_keys_lookup, bool_decide_eq_true_2; [done|left].
  - assert (batch = []) as -> by (apply Nat.ltb_ge in Hlen; apply nil_length_inv; lia).
    exists (PruneKey q). split; [done|].
    replace (del_keys [] st) with st by by destruct st.
    destruct (prune_aggregates q st) as [n s2] eqn:E. apply Hkeep.
    unfold prune_aggregates in E. simplify_eq. simpl. apply lookup_delete_eq.
Qed.

(** repeated end-of-block steps *)
Fixpoint prune_blocks (budget : Z) (n : nat) (st : GovStore) : GovStore :=
  match n with O => st | S n' => prune_blocks budget n' (snd (PruneStep budget st)) end.

(** C35: pruning finishes and removes exactly what was queued.  With any positive
    budget, after at most as many blocks as the store holds records the deletion queue
    is empty; every record of every proposal that was queued is gone (ballots, counts,
    turnout, frozen basis, queue marker) and every other record is as it was. *)
Theorem prune_completes budget st :
  0 < budget →
  ∃ n, (n ≤ size (gs_raw st))%nat ∧
    let st' := prune_blocks budget n st in
    queued_ids st' = [] ∧
    (∀ p k, p ∈ queued_ids st → owned p k = true → gs_raw st' !! k = None) ∧
    (∀ k, (∀ p, p ∈ queued_ids st → owned p k = false) → gs_raw st' !! k = gs_raw st !! k).
Proof.
  intros Hb.
  assert (∀ m s, (size (gs_raw s) ≤ m)%nat → loses (queued_ids st) st s →
    (∀ p, p ∈ queued_ids st → p ∈ queued_ids s ∨ gone p s) →
    ∃ n, (n ≤ m)%nat ∧ queued_ids (prune_blocks budget n s) = [] ∧
      loses (queued_ids st) st (prune_blocks budget n s) ∧
      ∀ p, p ∈ queued_ids st → gone p (prune_blocks budget n s)) as Hrun.
  { induction m as [|m IH]; intros s Hm Hl Hp; destruct (queued_ids s) as [|q qs] eqn:Hq.
    1, 3: exists 0%nat; split_and!; [lia|done|done|];
      intros p Hin; by destruct (Hp p Hin) as [?%not_elem_of_nil|]; [exfalso|].
    { pose proof (PruneStep_progress budget s Hb ltac:(by rewrite Hq)). lia. }
    pose proof (PruneStep_progress budget s Hb ltac:(by rewrite Hq)) as Hlt. rewrite <- Hq in Hp.
    destruct (IH (snd (PruneStep budget s))) as (n & Hn & Hrest); [lia| | |exists (S n); split; [lia|done]].
    - eapply loses_trans; [exact Hl|]. eapply loses_weaken; [|apply PruneStep_loses].
      intros p Hin. by eapply loses_queued.
    - intros p Hin. destruct (Hp p Hin) as [Hin'|Hg]; [by apply PruneStep_leaves|].
      right. eapply loses_gone; [apply PruneStep_loses|done]. }
  destruct (Hrun (size (gs_raw st)) st) as (n & Hn & Hq & Hl & Hg); [done|apply loses_refl|auto|].
  exists n. split; [done|]. split_and!; [done|intros p k Hp; by apply Hg|].
  intros k Hk. destruct (Hl k) as [?|(_ & p & Hp & Ho)]; [done|]. by rewrite (Hk p Hp) in Ho.
Qed.
