(* ===== verification/GovSafety.v ===== *)
(** * x/governance: one human, one vote

    The hooks run against an identity registry that keeps changing while a vote is
    open.  [IdentityRoll] is what x/governance relies on: the registry counts distinct
    eligible controllers, and the frozen membership test only admits controllers that
    were eligible at a moment of the second in which the basis was taken, whole seconds
    being all it compares.  Under it, in every reachable state and for every proposal not
    being pruned, the ballots counted exceed the frozen denominator by no more than the
    voters who joined the roll in that second after the basis was taken, and the
    registered invariant reports nothing else. *)
From stdpp Require Import base gmap strings list fin_maps sorting.
From Stdlib Require Import ZArith Lia.
From S2P Require Import Prelude GoInt KVStore StoreEntry LegacyDec Interfaces GovTypes GovKeeper GovTally GovCount GovCheck GovPrune.

(** ** What is relied on *)

(** [evolves (c0, i0) (c1, i1)]: the registry [i0] of the moment [c0] can have become
    [i1] at [c1] *)
Class IdentityRoll (I : Type) `{IdentitySource I} (evolves : Context * I → Context * I → Prop) : Prop := {
  evolves_refl x : evolves x x;
  evolves_trans x y z : evolves x y → evolves y z → evolves x z;
  roll_count_range i t : is_u64 (CountEligibleControllersAt i t 0);
  roll_count i t cs : NoDup cs → (∀ c, c ∈ cs → IsEligibleControllerAt i c t 0 = true) →
    Z.of_nat (length cs) ≤ CountEligibleControllersAt i t 0;
  roll_frozen c0 i0 c1 i1 c t : evolves (c0, i0) (c1, i1) →
    IsEligibleControllerSince i1 c t 0 (timeFromUnix (BlockTime c0)) = true →
    ∃ c' i', evolves (c0, i0) (c', i') ∧ evolves (c', i') (c1, i1) ∧ BlockTime c' = BlockTime c0 ∧
      IsEligibleControllerAt i' c t 0 = true;
}.

(** x/gov keeps a proposal under its own id, a vote under its voter's address, and only
    the four options *)
Class XGovLaws (G : Type) `{XGov G} `{AddressCodec} : Prop := {
  proposal_law g pid p : gov_Proposals g pid = Some p → gp_Id p = pid ∧ is_u64 pid;
  vote_law g pid a v : gov_Votes g pid a = Some v →
    valid_address a ∧ vote_Voter v = AccAddress_String a ∧
    Forall (λ o, is_choice (wo_Option o)) (vote_Options v);
}.

(** ** Voters *)
Definition voters (p : Z) (st : GovStore) : list string :=
  (filter (λ vm, vm.2 ≠ IneligibleVoteMarker) (IterateCountedVotes p st)).*1.

Lemma substring_tail a t :
  String.substring (String.length a) (String.length (a +:+ t) - String.length a) (a +:+ t) = t.
Proof.
  rewrite str_app_length. replace (String.length a + String.length t - String.length a)%nat with (String.length t) by lia.
  rewrite <- (str_app_nil_r t) at 2. by apply substring_app.
Qed.
Lemma IterateCountedVotes_spec p st :
  NoDup ((IterateCountedVotes p st).*1) ∧
  ∀ v m, (v, m) ∈ IterateCountedVotes p st ↔ GetCountedVote p v st = Some m.
Proof.
  unfold IterateCountedVotes. set (pre := CountedVotePrefixFor p).
  pose proof (Iterator_NoDup (gs_raw st) pre (PrefixEndBytes pre)) as Hnd.
  assert (∀ kv, kv ∈ KVStorePrefixIterator (gs_raw st) pre ↔ gs_raw st !! kv.1 = Some kv.2 ∧ has_prefix pre kv.1 = true) as Hin
    by (intros [k v]; apply elem_of_prefix_iterator).
  fold (KVStorePrefixIterator (gs_raw st) pre) in Hnd. split.
  - assert (∀ kv, kv ∈ KVStorePrefixIterator (gs_raw st) pre → has_prefix pre kv.1 = true) as Hp by (intros; by apply Hin).
    revert Hnd Hp. generalize (KVStorePrefixIterator (gs_raw st) pre) as l. clear Hin.
    induction l as [|[k bz] l IH]; [constructor|]. intros [Hk Hnd]%NoDup_cons Hp.
    assert (has_prefix pre k = true) as [t ->]%has_prefix_spec by (apply (Hp (k, bz)); left).
    cbn [omap list_omap fst snd]. destruct (marker_of bz) as [m|]; cbn [mbind option_bind];
      [|apply IH; [done|intros kv Hkv; apply Hp; by right]].
    rewrite substring_tail, fmap_cons. apply NoDup_cons. split; [|apply IH; [done|intros kv Hkv; apply Hp; by right]].
    intros ([v m'] & E & Hv)%list_elem_of_fmap. simpl in E. subst v.
    apply list_elem_of_omap in Hv as ([k' bz'] & Hk' & Hm). cbn [fst snd] in Hm.
    destruct (marker_of bz'); [|done]. cbn [mbind option_bind] in Hm.
    assert (has_prefix pre k' = true) as [t' ->]%has_prefix_spec by (apply (Hp (k', bz')); by right).
    rewrite substring_tail in Hm. simplify_eq. apply Hk, list_elem_of_fmap. by eexists (_, bz').
  - intros v m. rewrite list_elem_of_omap. unfold GetCountedVote, CountedVoteKey. fold pre. split.
    + intros ([k bz] & [Hk Hp]%Hin & Hm). cbn [fst snd] in *. apply has_prefix_spec in Hp as [t ->].
      destruct (marker_of bz) eqn:Hb; [|done].
      cbn [mbind option_bind] in Hm. rewrite substring_tail in Hm. simplify_eq. by rewrite Hk.
    + destruct (gs_raw st !! (pre +:+ v)) as [bz|] eqn:Hk; cbn [mbind option_bind]; [|done]. intros Hm.
      exists (pre +:+ v, bz). split; [apply Hin; split; [done|apply has_prefix_app]|].
      cbn [fst snd]. rewrite Hm.
      cbn [mbind option_bind]. by rewrite substring_tail.
Qed.

Lemma voters_spec p st :
  NoDup (voters p st) ∧ counted p st = Z.of_nat (length (voters p st)) ∧
  ∀ v, v ∈ voters p st ↔ ∃ m, GetCountedVote p v st = Some m ∧ m ≠ IneligibleVoteMarker.
Proof.
  destruct (IterateCountedVotes_spec p st) as [Hnd Hin]. unfold voters. split_and!.
  - eapply sublist_NoDup; [exact Hnd|]. apply fmap_sublist, sublist_filter.
  - rewrite length_fmap, counted_iterate. clear Hnd Hin. induction (IterateCountedVotes p st) as [|[v m] l IH]; [done|].
    rewrite sumZ_cons, IH. unfold is_counted at 1. simpl.
    destruct (Z.eqb_spec m IneligibleVoteMarker); [rewrite filter_cons_False by (simpl; naive_solver)|
      rewrite filter_cons_True by done; simpl]; lia.
  - intros v. rewrite list_elem_of_fmap. split.
    + intros ([w m] & -> & [Hm Hw%Hin]%list_elem_of_filter). eauto.
    + intros (m & Hm & Hne). exists (v, m). split; [done|]. apply list_elem_of_filter. split; [done|by apply Hin].
Qed.

Lemma dominantOption_choice opts :
  Forall (λ o, is_choice (wo_Option o)) opts → is_choice (dominantOption opts).
Proof.
  intros Hf. unfold dominantOption.
  assert (∀ acc, is_choice acc.1.1 → is_choice (foldl dominant_step acc opts).1.1) as Hg.
  { induction Hf as [|o opts Ho Hf IH]; intros acc Ha; [done|]. simpl. apply IH.
    destruct acc as [[best bestW] tie]. unfold dominant_step. repeat case_match; done. }
  specialize (Hg (OptionAbstain, LegacyZeroDec, false) ltac:(unfold is_choice; by repeat constructor)).
  destruct (foldl _ _ opts) as [[best w] []]; [unfold is_choice; by repeat constructor|done].
Qed.
Lemma is_choice_range o : is_choice o → 0 ≤ o < IneligibleVoteMarker.
Proof.
  unfold is_choice, IneligibleVoteMarker. intros Ho.
  repeat (apply elem_of_cons in Ho as [->|Ho]); [done..|by apply not_elem_of_nil in Ho].
Qed.

(** block times of a live chain *)
Definition live_time (c : Context) : Prop := 0 < BlockTime c < 2 ^ 63.

Section safety.
Context {I G T : Type} `{IdentitySource I} `{XGov G} `{StakingKeeper T} `{AddressCodec}.
Context (evolves : Context * I → Context * I → Prop).
Context `{!IdentityRoll I evolves} `{!AddressCodecLaws} `{!XGovLaws G}.
Implicit Types e : Env I G T.

Definition moment e : Context * I := (env_ctx e, env_id e).

(** [c] was on the roll at a moment of the second of [(c0, i0)], then or later *)
Definition in_second (now : Context * I) (c0 : Context) (i0 : I) (t : Z) (c : string) : Prop :=
  ∃ c' i', evolves (c0, i0) (c', i') ∧ evolves (c', i') now ∧ BlockTime c' = BlockTime c0 ∧ IsEligibleControllerAt i' c t 0 = true.
(** the ballots of a proposal were cast by accounts on the roll in the second the basis was
    taken *)
Record basis_from (p : Z) (st : GovStore) (b : FrozenEligibility) (now : Context * I) (c0 : Context) (i0 : I) : Prop := {
  bf_evolves : evolves (c0, i0) now;
  bf_basis : b = mkFrozen (CountEligibleControllersAt i0 (timeFromUnix (Cutoff b)) 0) (Cutoff b) (BlockTime c0);
  bf_members : ∀ v m, GetCountedVote p v st = Some m → m ≠ IneligibleVoteMarker →
    valid_address v ∧ in_second now c0 i0 (timeFromUnix (Cutoff b)) (AccAddress_String v);
}.
Definition ballots_ok (now : Context * I) (p : Z) (st : GovStore) : Prop :=
  match GetProposalEligibility p st with
  | None => ∀ v m, GetCountedVote p v st = Some m → m = IneligibleVoteMarker
  | Some b => ∃ c0 i0, basis_from p st b now c0 i0
  end.
Definition proposal_ok (now : Context * I) (p : Z) (st : GovStore) : Prop := tally_ok p st ∧ ballots_ok now p st.

(** distinct members of the registry are distinct controllers *)
Lemma members_counted i t (vs : list string) : NoDup vs →
  (∀ v, v ∈ vs → valid_address v ∧ IsEligibleControllerAt i (AccAddress_String v) t 0 = true) →
  Z.of_nat (length vs) ≤ CountEligibleControllersAt i t 0.
Proof.
  intros Hnd Hv. rewrite <- (length_fmap AccAddress_String). apply roll_count.
  - induction Hnd as [|v vs Hnin Hnd IH]; [constructor|].
    rewrite fmap_cons. apply NoDup_cons. split; [|apply IH; intros w Hw; apply Hv; by right].
    intros (w & E & Hw)%list_elem_of_fmap. apply AccAddress_String_inj in E; [by subst|apply Hv; left|apply Hv; by right].
  - intros c (v & -> & Hin)%list_elem_of_fmap. by apply Hv.
Qed.

(** the voters of [p] that were not on the roll [i0] the basis counts *)
Definition latecomers (i0 : I) (b : FrozenEligibility) (p : Z) (st : GovStore) : list string :=
  filter (λ v, IsEligibleControllerAt i0 (AccAddress_String v) (timeFromUnix (Cutoff b)) 0 = false) (voters p st).
Lemma elem_of_latecomers i0 b p st v : v ∈ latecomers i0 b p st ↔
  v ∈ voters p st ∧ IsEligibleControllerAt i0 (AccAddress_String v) (timeFromUnix (Cutoff b)) 0 = false.
Proof. unfold latecomers. rewrite list_elem_of_filter. tauto. Qed.
Lemma basis_bounds now p st b c0 i0 : basis_from p st b now c0 i0 →
  counted p st ≤ Denominator b + Z.of_nat (length (latecomers i0 b p st)).
Proof.
  intros [_ Hb Hm]. destruct (voters_spec p st) as (Hnd & -> & Hin).
  set (here := λ v, IsEligibleControllerAt i0 (AccAddress_String v) (timeFromUnix (Cutoff b)) 0 = true).
  assert (length (voters p st) = length (filter here (voters p st)) + length (latecomers i0 b p st))%nat as ->.
  { unfold latecomers, here. clear. induction (voters p st) as [|v l IH]; [done|]. rewrite !filter_cons.
    destruct (IsEligibleControllerAt _ _ _ _); do 2 case_decide; simpl in *; try done; lia. }
  pose proof (f_equal Denominator Hb) as Hd. cbn [Denominator] in Hd. pose proof (members_counted i0 (timeFromUnix (Cutoff b)) (filter here (voters p st))) as Hc.
  enough (Z.of_nat (length (filter here (voters p st))) ≤ CountEligibleControllersAt i0 (timeFromUnix (Cutoff b)) 0) by lia.
  apply Hc; [by apply NoDup_filter|]. intros v [Hh (m & Hv & Hne)%Hin]%list_elem_of_filter. split; [by eapply Hm|done].
Qed.
(** a counted voter joined the roll in the second of the freeze, after it *)
Definition joined_late (now : Context * I) (p : Z) (st : GovStore) (v : string) : Prop :=
  ∃ b c0 i0, GetProposalEligibility p st = Some b ∧ basis_from p st b now c0 i0 ∧ v ∈ latecomers i0 b p st.
Lemma ballots_within now p st : ballots_ok now p st → within_basis p st ∨ ∃ v, joined_late now p st v.
Proof.
  unfold ballots_ok, within_basis. destruct (GetProposalEligibility p st) as [b|] eqn:Hb.
  - intros (c0 & i0 & Hba). pose proof (basis_bounds _ _ _ _ _ _ Hba) as Hle. destruct (latecomers i0 b p st) as [|v l] eqn:El.
    + left. cbn [length] in Hle. lia.
    + right. exists v, b, c0, i0. split_and!; [done|done|]. rewrite El. left.
  - intros Hno. left. destruct (voters_spec p st) as (_ & -> & Hin). destruct (voters p st) as [|v vs]; [done|]. exfalso.
    destruct (proj1 (Hin v)) as (m & Hv & Hne); [left|]. by apply Hno in Hv.
Qed.
Lemma check_proposal_late now p st : proposal_ok now p st →
  check_proposal st p = None ∨
  check_proposal st p = Some "turnout exceeds its frozen denominator" ∧ ∃ v, joined_late now p st v.
Proof.
  intros [Hok Hb]. destruct (ballots_within _ _ _ Hb) as [Hw|Hj]; [left; by apply check_proposal_ok|].
  assert (is_Some (GetProposalEligibility p st)) as [b Eb] by (destruct Hj as (v & b & c0 & i0 & E & _); eauto).
  destruct (decide (counted p st ≤ Denominator b)); [left; apply check_proposal_ok; [done|]; unfold within_basis; by rewrite Eb|].
  right. split; [|done]. unfold check_proposal. rewrite Eb, Turnout_turnout, (ok_turnout _ _ Hok).
  by destruct (Z.ltb_spec (Denominator b) (counted p st)); [|lia].
Qed.

Lemma proposal_ok_agree now p st st' : agree p st st' → proposal_ok now p st → proposal_ok now p st'.
Proof.
  intros Ha [Ht Hb]. split; [by apply (agree_tally_ok p st)|]. unfold ballots_ok in *. rewrite (agree_basis p st st' Ha).
  destruct (GetProposalEligibility p st) as [b|].
  - destruct Hb as (c0 & i0 & [H1' H2' H3']). exists c0, i0. constructor; [done|done|].
    intros v m. rewrite (agree_vote p st st' Ha). apply H3'.
  - intros v m. rewrite (agree_vote p st st' Ha). apply Hb.
Qed.
Lemma proposal_ok_evolves now now' p st : evolves now now' → proposal_ok now p st → proposal_ok now' p st.
Proof.
  intros He [Ht Hb]. split; [done|]. unfold ballots_ok in *. destruct (GetProposalEligibility p st) as [b|]; [|done].
  destruct Hb as (c0 & i0 & [H1' H2' H3']). exists c0, i0. constructor; [by eapply evolves_trans|done|].
  intros v m Hv Hne. destruct (H3' v m Hv Hne) as (? & c' & i' & ? & ? & ? & ?). split; [done|]. exists c', i'.
  split_and!; [done|by eapply evolves_trans|done|done].
Qed.

(** ** The hooks *)
Lemma freeze_spec e p st b st' : is_u64 (gp_Id p) → live_time (env_ctx e) →
  freezeEligibilityOnce e p st = (b, st') →
  GetProposalEligibility (gp_Id p) st' = Some b ∧
  (GetProposalEligibility (gp_Id p) st = Some b ∧ st' = st ∨
   GetProposalEligibility (gp_Id p) st = None ∧ st' = SetProposalEligibility (gp_Id p) b st ∧
   b = mkFrozen (CountEligibleControllersAt (env_id e) (timeFromUnix (Cutoff b)) 0) (Cutoff b) (BlockTime (env_ctx e))).
Proof.
  intros Hp Ht. unfold freezeEligibilityOnce.
  destruct (GetProposalEligibility (gp_Id p) st) as [b0|] eqn:Hb; intros E; simplify_eq; [auto|].
  set (cut := match gp_VotingStartTime p with Some v => _ | None => 0 end). split; [|auto].
  rewrite GetProposalEligibility_set, bool_decide_eq_true_2; [done..|].
  split; [apply roll_count_range|]. unfold live_time in Ht. cbn [Cutoff FrozenAt]. split; [|lia].
  unfold cut. destruct (gp_VotingStartTime p); [apply i64_range|lia].
Qed.

Lemma freeze_votes e p st b st' : freezeEligibilityOnce e p st = (b, st') → ∀ q v, GetCountedVote q v st' = GetCountedVote q v st.
Proof.
  unfold freezeEligibilityOnce. destruct (GetProposalEligibility (gp_Id p) st); intros E q v; simplify_eq; [done|].
  unfold GetCountedVote, SetProposalEligibility. cbn [set_raw gs_raw]. rewrite lookup_insert_ne; [done|].
  unfold ProposalEligibilityKey, CountedVoteKey, CountedVotePrefixFor. rewrite str_app_assoc. by apply key_disjoint.
Qed.
Lemma freeze_ok e p st b st' : is_u64 (gp_Id p) → live_time (env_ctx e) →
  freezeEligibilityOnce e p st = (b, st') →
  (proposal_ok (moment e) (gp_Id p) st → proposal_ok (moment e) (gp_Id p) st') ∧
  (∀ q, is_u64 q → q ≠ gp_Id p → agree q st st') ∧ queue_kept st st'.
Proof.
  intros Hp Ht Hf. destruct (freeze_spec e p st b st' Hp Ht Hf) as [Hg [[_ ->]|(Hn & -> & Hb)]]; [done|].
  split_and!.
  - intros [Hok Hba]. unfold ballots_ok in Hba. rewrite Hn in Hba.
    assert (tally_ok (gp_Id p) (SetProposalEligibility (gp_Id p) b st)) as Hok'.
    { apply tally_ok_other; [by first_byte|by first_byte| |done]. apply key_disjoint. done. }
    split; [done|]. unfold ballots_ok. rewrite Hg. exists (env_ctx e), (env_id e). constructor; [apply evolves_refl|done|].
    intros v m Hv Hne. exfalso. apply Hne, (Hba v). by rewrite <- Hv, (freeze_votes _ _ _ _ _ Hf).
  - intros q Hq Hne. by apply agree_set, belongs_basis.
  - apply queue_kept_set. intros q. by apply key_disjoint.
Qed.

(** one more voter can be counted *)
Definition voters_fit (p : Z) (st : GovStore) : Prop := Z.of_nat (length (voters p st)) + 1 < 2 ^ 64.
Lemma voters_fit_same p st st' : (∀ v, GetCountedVote p v st' = GetCountedVote p v st) → voters_fit p st → voters_fit p st'.
Proof.
  intros Ha. unfold voters_fit. enough (length (voters p st') = length (voters p st)) as -> by done.
  destruct (voters_spec p st) as (N1 & _ & Hin), (voters_spec p st') as (N2 & _ & Hin'). apply Permutation_length, NoDup_Permutation; [done..|].
  intros v. rewrite Hin, Hin'. by setoid_rewrite Ha.
Qed.
Lemma record_ok e p v o st b : is_u64 p → is_choice o → valid_address v → voters_fit p st → proposal_ok (moment e) p st →
  GetProposalEligibility p st = Some b →
  IsEligibleControllerSince (env_id e) (AccAddress_String v) (timeFromUnix (Cutoff b)) 0
    (timeFromUnix (FrozenAt b)) = true →
  proposal_ok (moment e) p (snd (RecordVote p v o true st)).
Proof.
  intros Hp Ho Hv Hfit [Hok Hba] Hb Hel. pose proof Hba as Hba'. unfold ballots_ok in Hba'. rewrite Hb in Hba'.
  destruct Hba' as (c0 & i0 & [He Hbb Hm]).
  assert (in_second (moment e) c0 i0 (timeFromUnix (Cutoff b)) (AccAddress_String v)) as Hin.
  { rewrite Hbb in Hel. cbn [Cutoff FrozenAt] in Hel. by apply roll_frozen. }
  assert (GetCountedVote p v st = None → counted p st + 1 < 2 ^ 64) as Hlt.
  { intros _. destruct (voters_spec p st) as (_ & -> & _). exact Hfit. }
  destruct (RecordVote_effect p v o true st Hp (is_choice_range _ Ho) Hok Hlt) as [_ Hvotes _ Hok'].
  set (st' := snd _) in *. split; [done|]. unfold ballots_ok.
  assert (GetProposalEligibility p st' = Some b) as ->.
  { rewrite <- Hb. unfold GetProposalEligibility, st'. by rewrite RecordVote_basis. }
  exists c0, i0. constructor; [done|done|]. intros w m. rewrite Hvotes. case_bool_decide as E; [by subst|apply Hm].
Qed.

(** ** Reachable states *)

(** what x/gov, governance and the block loop can do to the tally; a hook runs inside a
    message and its writes are kept only if it succeeds; the voters of a proposal are fewer
    than 2^64 *)
Inductive gov_step : Env I G T * GovStore → Env I G T * GovStore → Prop :=
| step_world e e' st : live_time (env_ctx e') → evolves (moment e) (moment e') → gov_step (e, st) (e', st)
| step_deposit e pid st : gov_step (e, st) (e, deliver (AfterProposalDeposit e pid) st)
| step_vote e pid a st : voters_fit pid st → gov_step (e, st) (e, deliver (AfterProposalVote e pid a) st)
| step_ended e pid st : gov_step (e, st) (e, deliver (AfterProposalVotingPeriodEnded e pid) st)
| step_tally e p vals st : is_u64 (gp_Id p) → gov_step (e, st) (e, snd (NewPhiTallyFn e p vals st))
| step_end_block e st : gov_step (e, st) (e, EndBlock st)
| step_params e auth msg st : gov_step (e, st) (e, deliver (UpdateParams auth msg) st).

Inductive gov_reachable : Env I G T * GovStore → Prop :=
| reach_start e ps : live_time (env_ctx e) → gov_reachable (e, mkGovStore ps ∅)
| reach_step x y : gov_reachable x → gov_step x y → gov_reachable y.

Definition gov_inv (e : Env I G T) (st : GovStore) : Prop :=
  live_time (env_ctx e) ∧
  ∀ p, is_u64 p → IsQueuedForPruning p st = false → proposal_ok (moment e) p st.

Lemma tally_gone_ok now p st : gone p st → proposal_ok now p st.
Proof.
  intros Hg.
  assert (∀ k, belongs p k = true → gs_raw st !! k = None) as Hb by (intros k Hk; apply Hg; unfold owned; by rewrite Hk).
  apply (proposal_ok_agree now p empty_store); [intros k Hk; simpl; by rewrite Hb, lookup_empty|].
  destruct (fresh_empty p) as (Hf & Hok & _). split; [done|]. unfold ballots_ok, GetProposalEligibility. simpl.
  rewrite lookup_empty. intros v m Hv. by rewrite Hf in Hv.
Qed.

Lemma vote_hook_ok e pid a st : voters_fit pid st → gov_inv e st → gov_inv e (deliver (AfterProposalVote e pid a) st).
Proof.
  intros Hfit [Ht Hinv]. split; [done|]. unfold deliver, AfterProposalVote.
  destruct (gov_Proposals (env_gov e) pid) as [p|] eqn:Hp; [|done]. apply proposal_law in Hp as [<- Hu].
  destruct (gov_Votes (env_gov e) (gp_Id p) a) as [vote|] eqn:Hv; [|done].
  apply vote_law in Hv as (Hav & -> & Hch). unfold recordBallot.
  destruct (freezeEligibilityOnce e p st) as [b s1] eqn:Hf.
  destruct (freeze_ok e p st b s1 Hu Ht Hf) as (Hok1 & Hag1 & Hq1).
  destruct (freeze_spec e p st b s1 Hu Ht Hf) as [Hb1 _].
  assert (∀ q, is_u64 q → IsQueuedForPruning q s1 = false → proposal_ok (moment e) q s1) as Hinv1.
  { intros q Hq Hnq. rewrite (queue_kept_queued st s1) in Hnq by done.
    destruct (decide (q = gp_Id p)) as [->|Hne]; [by apply Hok1, Hinv|].
    eapply proposal_ok_agree; [by apply Hag1|by apply Hinv]. }
  destruct (routeOf s1 p =? RouteTechnical); [by destruct (IsActiveValidatorOperator e a)|].
  destruct (IsEligibleControllerSince _ _ _ _ _) eqn:Hel; cbn [negb]; [|done].
  intros q Hq Hnq. rewrite (queue_kept_queued s1) in Hnq by apply RecordVote_queue.
  destruct (decide (q = gp_Id p)) as [->|Hne].
  - eapply record_ok; eauto using dominantOption_choice. eapply voters_fit_same; [|exact Hfit]. intros v. by eapply freeze_votes.
  - eapply proposal_ok_agree; [by apply RecordVote_frame|by apply Hinv1].
Qed.
Lemma enqueue_ok e pid st : is_u64 pid → gov_inv e st → gov_inv e (EnqueueForPruning pid st).
Proof.
  intros Hp [Ht Hinv]. split; [done|]. intros q Hq Hnq.
  eapply proposal_ok_agree; [apply agree_set, belongs_prune|]. apply Hinv; [done|].
  unfold IsQueuedForPruning, EnqueueForPruning in *. cbn [set_raw gs_raw] in Hnq.
  apply bool_decide_eq_false in Hnq. apply bool_decide_eq_false. rewrite lookup_insert_ne in Hnq; [done|].
  intros E. rewrite E, lookup_insert_eq in Hnq. apply Hnq. eauto.
Qed.
Lemma prune_ok e st : gov_inv e st → gov_inv e (EndBlock st).
Proof.
  intros [Ht Hinv]. split; [done|]. unfold EndBlock. intros p Hp Hnq.
  destruct (decide (p ∈ queued_ids st)) as [Hin|Hni].
  - destruct (PruneStep_leaves PruneBudgetPerBlock st p Hin) as [[_ Hs]%elem_of_queued_ids|Hg].
    + unfold IsQueuedForPruning in Hnq. by apply bool_decide_eq_false in Hnq.
    + by apply tally_gone_ok.
  - eapply proposal_ok_agree.
    + eapply (loses_agree (queued_ids st) p); [done| |done|apply PruneStep_loses|].
      * intros q Hq. by apply elem_of_queued_ids in Hq as [? _].
      * intros q k Hq Ho. apply (owned_disjoint p q); [done|by apply elem_of_queued_ids in Hq as [? _]| |done].
        intros ->. done.
    + apply Hinv; [done|]. unfold IsQueuedForPruning. apply bool_decide_eq_false. intros Hs. by apply Hni, elem_of_queued_ids.
Qed.
Lemma gov_inv_params e st ps : gov_inv e st → gov_inv e (mkGovStore ps (gs_raw st)).
Proof. intros [Ht Hinv]. split; [done|]. intros p Hp Hnq. by apply (proposal_ok_agree _ p st), Hinv. Qed.

Lemma gov_step_inv e st e' st' : gov_step (e, st) (e', st') → gov_inv e st → gov_inv e' st'.
Proof.
  intros Hs Hi. inversion Hs; subst; clear Hs.
  - destruct Hi as [_ Hi]. split; [done|]. intros p Hp Hnq. eapply proposal_ok_evolves; [done|by apply Hi].
  - unfold deliver, AfterProposalDeposit. destruct (gov_Proposals (env_gov e') pid) as [p|] eqn:Hp; [|done].
    destruct (negb (gp_Status p =? StatusVotingPeriod)); [done|]. apply proposal_law in Hp as [<- Hu].
    destruct Hi as [Ht Hi]. destruct (freezeEligibilityOnce e' p st) as [b s1] eqn:Hf.
    destruct (freeze_ok e' p st b s1 Hu Ht Hf) as (Hok1 & Hag1 & Hq1). split; [done|]. cbn [snd]. intros q Hq Hnq.
    rewrite (queue_kept_queued st s1) in Hnq by done.
    destruct (decide (q = gp_Id p)) as [->|Hne]; [by apply Hok1, Hi|]. eapply proposal_ok_agree; [by apply Hag1|by apply Hi].
  - by apply vote_hook_ok.
  - unfold deliver, AfterProposalVotingPeriodEnded. destruct (gov_Proposals (env_gov e') pid) as [p|] eqn:Hp; [|done].
    apply proposal_law in Hp as [_ Hu]. destruct (negb _); [done|by apply enqueue_ok].
  - unfold NewPhiTallyFn. destruct (gp_Msgs p) as [msgs|]; [|done]. cbn [or_fail mbind M_bind mret M_ret].
    unfold mbind, M_bind, mret, M_ret. destruct (prunableAtTally p); cbn [modify query snd]; [by apply enqueue_ok|done].
  - by apply prune_ok.
  - unfold deliver. destruct (UpdateParams auth msg st) as [[u| |] s1] eqn:Hu; [|done|done].
    unfold UpdateParams, SetParams in Hu. go_inv. by apply gov_inv_params.
Qed.
Lemma gov_reachable_inv x : gov_reachable x → gov_inv x.1 x.2.
Proof.
  induction 1 as [e ps Ht|[e st] [e' st'] _ IH Hs]; [|by eapply gov_step_inv].
  split; [done|]. intros p _ _. apply tally_gone_ok. intros k _. simpl. apply lookup_empty.
Qed.

(** C8: the turnout and its basis.  In every state that deposits, votes, tallies, blocks and
    parameter changes can lead to, for every proposal that is not being pruned: the basis
    counts the roll of one registry of the chain's past, the counted voters are distinct,
    each was on the roll at a moment of the second the basis was frozen in, and the turnout
    exceeds the frozen denominator by at most the number of those who were not yet on it at
    the freeze itself.  The invariant registered with x/crisis finds nothing wrong with the
    proposal, or finds that its turnout exceeds its denominator and there is such a
    latecomer.  So it reports a state only if a proposal is being pruned or has a
    latecomer. *)
Theorem turnout_within_basis e st :
  gov_reachable (e, st) →
  (∀ p b, is_u64 p → IsQueuedForPruning p st = false → GetProposalEligibility p st = Some b →
     ∃ c0 i0, evolves (c0, i0) (moment e) ∧
       b = mkFrozen (CountEligibleControllersAt i0 (timeFromUnix (Cutoff b)) 0) (Cutoff b) (BlockTime c0) ∧
       NoDup (voters p st) ∧ (∀ v, v ∈ voters p st → in_second (moment e) c0 i0 (timeFromUnix (Cutoff b)) (AccAddress_String v)) ∧
       Turnout (GetRunningTally p st) = Z.of_nat (length (voters p st)) ∧
       Turnout (GetRunningTally p st) ≤ Denominator b + Z.of_nat (length (latecomers i0 b p st))) ∧
  (∀ p, is_u64 p → IsQueuedForPruning p st = false →
     check_proposal st p = None ∨
     check_proposal st p = Some "turnout exceeds its frozen denominator" ∧ ∃ v, joined_late (moment e) p st v) ∧
  ((TurnoutWithinFrozenBasisInvariant st).2 = true →
     ∃ p, is_u64 p ∧ (IsQueuedForPruning p st = true ∨ ∃ v, joined_late (moment e) p st v)).
Proof.
  intros [_ Hinv]%gov_reachable_inv. cbn [fst snd] in Hinv. split_and!.
  - intros p b Hp Hnq Hb. destruct (Hinv p Hp Hnq) as [Hok Hba]. unfold ballots_ok in Hba. rewrite Hb in Hba.
    destruct Hba as (c0 & i0 & Hba). pose proof (basis_bounds _ _ _ _ _ _ Hba) as Hle. destruct Hba as [He Hbb Hm].
    destruct (voters_spec p st) as (Hnd & Hcnt & Hin). exists c0, i0. rewrite Turnout_turnout, (ok_turnout _ _ Hok).
    split_and!; [done..| |done|done]. intros v (m & Hv & Hne)%Hin. by eapply Hm.
  - intros p Hp Hnq. by apply check_proposal_late, Hinv.
  - unfold TurnoutWithinFrozenBasisInvariant. intros (p & Hp%TalliedProposalIDs_u64 & Hc)%check_proposals_true. exists p. split; [done|].
    destruct (IsQueuedForPruning p st) eqn:Hq; [by left|right]. destruct (check_proposal_late _ _ _ (Hinv p Hp Hq)) as [?|[_ ?]]; done.
Qed.
End safety.
