(* ===== verification/GovDemo.v ===== *)
(** * x/governance: a concrete vote

    Instances of the interfaces (a fixed roll of controllers, an x/gov that holds one
    proposal and its votes) on which the theorems are exercised, and what pruning does
    to the registered invariant. *)
From stdpp Require Import base gmap strings list fin_maps sorting.
From Stdlib Require Import ZArith Lia.
From S2P Require Import Prelude GoInt KVStore StoreEntry LegacyDec Interfaces GovTypes GovKeeper GovTally GovCount GovCheck GovPrune GovSafety.

Definition demo_roll : gset string := {["alice"; "bob"]}.
#[export] Instance demo_source : IdentitySource unit := roll_source demo_roll.
Definition demo_evolves (x y : Context * unit) : Prop := True.
#[export] Instance demo_identity_roll : IdentityRoll unit demo_evolves.
Proof.
  constructor; [done|done|by vm_compute| |].
  - intros i t cs Hnd Hin. cbn in *. apply inj_le. rewrite <- (size_list_to_set (C := gset string) cs) by done.
    apply subseteq_size. intros c Hc%elem_of_list_to_set. eapply bool_decide_eq_true_1, Hin, Hc.
  - intros c0 i0 c1 i1 c t _ Hc. by exists c0, i0.
Qed.

(** x/gov with one proposal and the options voted for on it *)
Record demo_gov := mkDemoGov { dg_proposal : GovProposal; dg_votes : gmap string Z }.
Definition choice_of (o : Z) : Z :=
  if bool_decide (o ∈ [OptionYes; OptionNo; OptionNoWithVeto]) then o else OptionAbstain.
#[export] Instance demo_codec : AddressCodec := plain_codec.
#[export] Instance demo_codec_laws : AddressCodecLaws := plain_codec_laws.
#[export] Instance demo_xgov : XGov demo_gov := {
  gov_Proposals g pid :=
    if (gp_Id (dg_proposal g) =? pid) && (0 <=? pid) && (pid <? 2 ^ 64) then Some (dg_proposal g) else None;
  gov_Votes g pid a :=
    if is_bech32 a then o ← dg_votes g !! a; Some (mkVote a [mkWeighted (choice_of o) "1.0"]) else None;
}.
#[export] Instance demo_xgov_laws : XGovLaws demo_gov.
Proof.
  constructor.
  - intros g pid p. cbn [gov_Proposals demo_xgov]. destruct (_ && _) eqn:Hb; intros E; simplify_eq.
    bool_prop. split; [done|]. unfold is_u64. lia.
  - intros g pid a v. cbn [gov_Votes demo_xgov]. destruct (is_bech32 a) eqn:Hb; [|done].
    destruct (dg_votes g !! a) as [o|]; simpl; [|done]. intros E. simplify_eq. cbn.
    unfold is_bech32 in Hb. apply bool_decide_eq_true in Hb as [x Hx]. split_and!; [|done|].
    + assert (x = a) as ->; [|by eapply decode_valid]. cbn in Hx. by case_match; simplify_eq.
    + apply Forall_singleton. unfold is_choice, choice_of. cbn [wo_Option].
      case_bool_decide as Ho; [|by repeat constructor].
      repeat (apply elem_of_cons in Ho as [->|Ho]); [by repeat constructor..|by apply not_elem_of_nil in Ho].
Qed.
#[export] Instance demo_staking : StakingKeeper unit := { GetValidator _ _ := None }.

Definition demo_proposal (status : Z) : GovProposal :=
  mkGovProposal 7 status false (Some (timeFromUnix 1000)) (Some ["/cosmos.bank.v1beta1.MsgSend"]).
Definition demo_env (status : Z) (votes : gmap string Z) : Env unit demo_gov unit :=
  mkEnv (mkContext 1000 5 "phi-1") tt (mkDemoGov (demo_proposal status) votes) tt.
Definition demo_open : Env unit demo_gov unit :=
  demo_env StatusVotingPeriod {["alice" := OptionYes; "bob" := OptionNo]}.
Definition demo_closed : Env unit demo_gov unit :=
  demo_env PROPOSAL_STATUS_PASSED {["alice" := OptionYes; "bob" := OptionNo]}.

(** the proposal enters its voting period, two controllers vote *)
Definition demo_voted : GovStore := Eval vm_compute in
  deliver (AfterProposalVote demo_open 7 "bob")
    (deliver (AfterProposalVote demo_open 7 "alice")
       (deliver (AfterProposalDeposit demo_open 7) (mkGovStore None ∅))).
(** the voting period ends *)
Definition demo_ended : GovStore := Eval vm_compute in
  deliver (AfterProposalVotingPeriodEnded demo_closed 7) demo_voted.

Lemma demo_voted_reachable : gov_reachable demo_evolves (demo_open, demo_voted).
Proof.
  assert (demo_voted = deliver (AfterProposalVote demo_open 7 "bob")
    (deliver (AfterProposalVote demo_open 7 "alice")
       (deliver (AfterProposalDeposit demo_open 7) (mkGovStore None ∅)))) as -> by (vm_compute; reflexivity).
  eapply reach_step; [|by apply step_vote]. eapply reach_step; [|by apply step_vote].
  eapply reach_step; [|apply step_deposit]. apply reach_start. done.
Qed.
Lemma demo_ended_reachable : gov_reachable demo_evolves (demo_closed, demo_ended).
Proof.
  assert (demo_ended = deliver (AfterProposalVotingPeriodEnded demo_closed 7) demo_voted) as -> by (vm_compute; reflexivity).
  eapply reach_step; [|apply step_ended]. eapply reach_step; [apply demo_voted_reachable|]. by apply step_world.
Qed.

Lemma turnout_within_basis_witness :
  TurnoutWithinFrozenBasisInvariant demo_voted = ("", false) ∧
  Turnout (GetRunningTally 7 demo_voted) = 2 ∧ 2 ≤ Denominator (mkFrozen 2 1000 1000).
Proof.
  split; [vm_compute; reflexivity|].
  destruct (turnout_within_basis demo_evolves demo_open demo_voted demo_voted_reachable) as (Hb & _ & _).
  destruct (Hb 7 (mkFrozen 2 1000 1000)) as (c0 & i0 & _ & _ & _ & _ & Ht & Hle); [by unfold is_u64|vm_compute; reflexivity..|].
  assert (latecomers i0 (mkFrozen 2 1000 1000) 7 demo_voted = []) as El by (destruct i0; vm_compute; reflexivity).
  rewrite El in Hle. assert (Turnout (GetRunningTally 7 demo_voted) = 2) as E by (vm_compute; reflexivity). rewrite E in Hle.
  split; [exact E|]. cbn [length] in Hle. by rewrite Z.add_0_r in Hle.
Defined.

Lemma prune_completes_witness :
  ∃ n, queued_ids (prune_blocks PruneBudgetPerBlock n demo_ended) = [] ∧
       gs_raw (prune_blocks PruneBudgetPerBlock n demo_ended) !! CountedVoteKey 7 "alice" = None.
Proof.
  destruct (prune_completes PruneBudgetPerBlock demo_ended) as (n & _ & Hq & Hg & _); [vm_compute; reflexivity|].
  exists n. split; [exact Hq|]. apply (Hg 7); [|vm_compute; reflexivity].
  assert (queued_ids demo_ended = [7]) as Hids by (vm_compute; reflexivity). rewrite Hids. left.
Defined.

(** Pruning breaks the registered invariant.  There is a reachable state in which
    the invariant holds and one proposal has just ended; after the next end of block the
    invariant reports that proposal as broken.  The step removes the ballots of a
    finished proposal and leaves its turnout and counts for a later block, and the
    invariant does not skip proposals in the deletion queue. *)
Theorem prune_breaks_invariant :
  ∃ e st, gov_reachable demo_evolves (e, st) ∧
    TurnoutWithinFrozenBasisInvariant st = ("", false) ∧
    gov_step demo_evolves (e, st) (e, EndBlock st) ∧
    TurnoutWithinFrozenBasisInvariant (EndBlock st) = ("counted ballots differ from the turnout", true).
Proof.
  exists demo_closed, demo_ended. split_and!; [apply demo_ended_reachable|vm_compute; reflexivity|constructor|].
  vm_compute. reflexivity.
Qed.
