(* ===== verification/GovGenesis.v ===== *)
(** * x/governance: genesis round trip

    A vote in progress survives an export and an import: the genesis carries the raw
    records, so the frozen bases, the ballots, the running counts and the deletion
    queue come back exactly. *)
From stdpp Require Import base gmap strings list fin_maps sorting.
From Stdlib Require Import ZArith Lia.
From S2P Require Import Prelude GoInt KVStore StoreEntry LegacyDec Interfaces GovTypes GovKeeper GovTally GovCount GovSafety GovDemo.

Definition to_kv (kv : string * string) : KV := mkKV kv.1 kv.2.
Lemma exportStoreEntries_eq st :
  exportStoreEntries st = map to_kv (concat (map (KVStorePrefixIterator (gs_raw st)) GenesisStorePrefixes)).
Proof. unfold exportStoreEntries. by rewrite concat_map, map_map. Qed.

(** every record lies under one exported prefix, and is exported once *)
Lemma elem_of_exported st k v :
  (k, v) ∈ concat (map (KVStorePrefixIterator (gs_raw st)) GenesisStorePrefixes) ↔
  gs_raw st !! k = Some v ∧ ∃ p, p ∈ GenesisStorePrefixes ∧ has_prefix p k = true.
Proof.
  rewrite list_elem_of_In, in_concat. setoid_rewrite in_map_iff. split.
  - intros (l & (p & <- & Hp) & Hin). apply list_elem_of_In, elem_of_prefix_iterator in Hin as [Hk Hpre].
    split; [done|]. exists p. by rewrite list_elem_of_In.
  - intros [Hk (p & Hp & Hpre)]. exists (KVStorePrefixIterator (gs_raw st) p). split; [exists p; by rewrite <- list_elem_of_In|].
    by apply list_elem_of_In, elem_of_prefix_iterator.
Qed.
Lemma prefixes_disjoint p q k : p ∈ GenesisStorePrefixes → q ∈ GenesisStorePrefixes →
  has_prefix p k = true → has_prefix q k = true → p = q.
Proof.
  intros Hp Hq [s ->]%has_prefix_spec. unfold GenesisStorePrefixes in *.
  repeat (apply elem_of_cons in Hp as [->|Hp]); try (by apply not_elem_of_nil in Hp);
  repeat (apply elem_of_cons in Hq as [->|Hq]); try (by apply not_elem_of_nil in Hq); done.
Qed.
Lemma exported_NoDup st :
  NoDup ((concat (map (KVStorePrefixIterator (gs_raw st)) GenesisStorePrefixes)).*1).
Proof.
  assert (∀ ps, ps ⊆ GenesisStorePrefixes → NoDup ps →
    NoDup ((concat (map (KVStorePrefixIterator (gs_raw st)) ps)).*1)) as Hg.
  { induction ps as [|p ps IH]; intros Hsub Hnd; [constructor|]. apply NoDup_cons in Hnd as [Hp Hnd].
    simpl. rewrite fmap_app. apply NoDup_app. split_and!; [apply Iterator_NoDup| |apply IH; set_solver].
    intros k ([k1 v1] & -> & [_ H1]%elem_of_prefix_iterator)%list_elem_of_fmap ([k2 v2] & E & H2)%list_elem_of_fmap.
    simpl in *. subst k2. apply list_elem_of_In, in_concat in H2 as (l & Hl & H2).
    apply in_map_iff in Hl as (q & <- & Hq). apply list_elem_of_In in Hq.
    apply list_elem_of_In, elem_of_prefix_iterator in H2 as [_ H2]. apply Hp.
    rewrite (prefixes_disjoint p q k1); [done|set_solver|set_solver|done|done]. }
  apply Hg; [done|]. by apply (bool_decide_unpack _).
Qed.

Lemma import_records (l : list (string * string)) st :
  (∀ kv, kv ∈ l → IsGenesisStoreKey kv.1 = true) →
  for_each (map to_kv l) (λ e,
    if negb (IsGenesisStoreKey (Key e)) then lift (Panic "key is not under an exported prefix")
    else modify (set_raw (Key e) (Value e))) st =
  (Ok tt, mkGovStore (gs_params st) (foldl (λ s kv, <[kv.1 := kv.2]> s) (gs_raw st) l)).
Proof.
  revert st. induction l as [|kv l IH]; intros st Hk; [by destruct st|]. cbn [map for_each Key to_kv].
  rewrite (Hk kv) by left. cbn [negb]. erewrite run_bind by done. apply IH. intros x Hx. apply Hk. by right.
Qed.

(** a record under a rule lies under an exported prefix *)
Lemma accepted_prefix k v : accepted storeEntryRules (mkKV k v) →
  IsGenesisStoreKey k = true ∧ ∃ p, p ∈ GenesisStorePrefixes ∧ has_prefix p k = true.
Proof.
  intros [_ (r & (Hr & Hu & _) & _)]. simpl in Hu.
  assert (rule_Prefix r ∈ GenesisStorePrefixes) as Hp.
  { unfold storeEntryRules in Hr. repeat (apply elem_of_cons in Hr as [->|Hr]); [by repeat constructor..|].
    by apply not_elem_of_nil in Hr. }
  split.
  - unfold IsGenesisStoreKey. apply existsb_exists. exists (rule_Prefix r). by rewrite <- list_elem_of_In.
  - exists (rule_Prefix r). split; [done|]. unfold strictly_under in Hu. by apply andb_true_iff in Hu as [_ ?].
Qed.

(** Governance export and import are inverse.  From any store with a validated route
    table whose records decode under their prefixes, [ExportGenesis] gives a genesis that
    validates, and [InitGenesis] on an empty store rebuilds the store record for
    record: a vote in progress keeps its frozen basis and every cast ballot. *)
Theorem gov_genesis_roundtrip st p :
  gs_params st = Some p → Params_Validate p = Ok tt →
  (∀ k v, gs_raw st !! k = Some v → accepted storeEntryRules (mkKV k v)) →
  GenesisState_Validate (ExportGenesis st) = Ok tt ∧
  InitGenesis (ExportGenesis st) (mkGovStore None ∅) = (Ok tt, st).
Proof.
  intros Hp Hv Hacc. set (l := concat (map (KVStorePrefixIterator (gs_raw st)) GenesisStorePrefixes)).
  assert (gs_Params (ExportGenesis st) = p) as Hpe by (simpl; unfold GetParams; by rewrite Hp).
  assert (gs_StoreEntries (ExportGenesis st) = map to_kv l) as Hle by apply exportStoreEntries_eq.
  assert (∀ kv, kv ∈ l → gs_raw st !! kv.1 = Some kv.2) as Hl by (intros [k v] [? _]%elem_of_exported; done).
  assert (GenesisState_Validate (ExportGenesis st) = Ok tt) as Hval.
  { unfold GenesisState_Validate. rewrite Hpe, Hle, Hv. cbn [mbind outcome_bind]. apply validate_loop_spec.
    { by apply (bool_decide_unpack _). }
    split_and!; [|set_solver|].
    - rewrite <- list_fmap_compose. apply exported_NoDup.
    - intros e ([k v] & -> & Hin)%list_elem_of_fmap. apply Hacc. by apply (Hl (k, v)). }
  split; [done|]. unfold InitGenesis. rewrite Hval, Hpe, Hv, Hle.
  erewrite run_bind by done. erewrite run_bind by done. erewrite run_bind by done.
  rewrite import_records; [|intros [k v] Hin; by eapply accepted_prefix, Hacc, (Hl (k, v))].
  f_equal. destruct st as [ps raw]. cbn [gs_params gs_raw] in *. subst ps. f_equal. apply map_eq. intros k.
  rewrite (foldl_insert_lookup raw) by done. case_bool_decide as Hk; [done|]. rewrite lookup_empty. symmetry.
  apply eq_None_not_Some. intros [v Hkv]. apply Hk, list_elem_of_fmap. exists (k, v). split; [done|].
  apply (elem_of_exported (mkGovStore (Some p) raw)). split; [done|]. by eapply accepted_prefix, Hacc.
Qed.

Lemma gov_genesis_roundtrip_witness :
  InitGenesis (ExportGenesis (mkGovStore (Some DefaultParams) (gs_raw demo_ended))) (mkGovStore None ∅)
  = (Ok tt, mkGovStore (Some DefaultParams) (gs_raw demo_ended)).
Proof.
  refine (proj2 (gov_genesis_roundtrip _ DefaultParams _ _ _)); [reflexivity|vm_compute; reflexivity|].
  intros k v Hk. apply check_entry_spec; [by apply (bool_decide_unpack _)|].
  assert (map_Forall (λ k v, check_entry (sort_rules storeEntryRules) (mkKV k v) = Ok tt) (gs_raw demo_ended)) as Hall.
  { apply map_Forall_to_list, Forall_forall. intros [k' v'] Hin. revert Hin.
    apply (proj1 (Forall_forall _ _)). vm_compute. repeat constructor. }
  by apply Hall.
Defined.

(** ** x/governance: from ballots to voting power

    x/gov decides a proposal on voting power.  [scalePublicResults] turns head counts
    into power so that x/gov's own quorum and threshold ratios become ratios of heads;
    [tallyValidatorBallots] weighs the validators' own ballots. *)
Lemma scale_counts_spec scale l :
  NoDup (l.*1) → (∀ oc, oc ∈ l → Z.abs (oc.2 * scale) ≤ upperLimit) →
  ∃ results, scale_counts scale l = Ok results ∧
    ∀ o, results !! o = match (list_to_map l : gmap Z Z) !! o with
                        | Some c => Some (c * scale)
                        | None => emptyResults !! o
                        end.
Proof.
  unfold scale_counts. intros Hnd Hl.
  assert (∀ m : gmap Z Z, ∃ results,
    ofold (λ m oc, r ← Dec_Mul (LegacyNewDecFromInt oc.2) scale; Ok (<[oc.1 := r]> m)) l m = Ok results ∧
    ∀ o, results !! o = match (list_to_map l : gmap Z Z) !! o with
                        | Some c => Some (c * scale) | None => m !! o end) as Hg; [|by apply Hg].
  induction l as [|[o c] l IH]; intros m; [by exists m|].
  rewrite fmap_cons in Hnd. apply NoDup_cons in Hnd as [Ho Hnd]. cbn [ofold fst snd].
  rewrite Dec_Mul_int by (apply (Hl (o, c)); left). cbn [mbind outcome_bind].
  destruct (IH Hnd (λ oc Hoc, Hl oc (list_elem_of_further _ _ _ Hoc)) (<[o := c * scale]> m)) as (r & Hr & Hlook).
  exists r. split; [done|]. intros q. rewrite Hlook. cbn [list_to_map foldr fst snd].
  destruct (decide (q = o)) as [->|Hne].
  - rewrite lookup_insert_eq. apply (not_elem_of_list_to_map_1 (M := gmap Z)) in Ho. cbn [fst] in Ho. by rewrite Ho, lookup_insert_eq.
  - by rewrite !lookup_insert_ne.
Qed.

(** Voting power is proportional to heads.  For a public proposal with a positive
    turnout within its denominator and option counts within the turnout,
    [scalePublicResults] returns, and there is one factor, the bonded stake divided by
    the denominator (rounded to 18 decimals), such that the total power is the factor
    times the turnout and each option's result is the factor times its ballots.  So an
    option's share of the power is exactly its share of the ballots, and the turnout
    ratio x/gov computes from the power is the head ratio up to the rounding of the one
    factor. *)
Theorem public_power_proportional counts turnout eligible bonded :
  0 < turnout ≤ eligible → eligible < 2 ^ 64 → 0 < bonded < 2 ^ 255 →
  (∀ o c, counts !! o = Some c → 0 ≤ c ≤ turnout) →
  ∃ factor results,
    scalePublicResults counts turnout eligible bonded = Ok (turnout * factor, results) ∧
    0 ≤ factor ∧
    2 * Z.abs (bonded * precisionReuse - factor * eligible) * precisionReuse ≤ eligible * (precisionReuse + 2) ∧
    (∀ o, results !! o = match counts !! o with Some c => Some (c * factor) | None => emptyResults !! o end).
Proof.
  intros Ht He Hb Hc. unfold scalePublicResults.
  destruct (Z.eqb_spec turnout 0), (Z.eqb_spec eligible 0), (Z.eqb_spec bonded 0); try lia. cbn [orb].
  assert (∃ q, Dec_Quo (LegacyNewDecFromInt bonded) (LegacyNewDecFromInt eligible) = Ok q) as [q Hq].
  { unfold Dec_Quo, LegacyNewDecFromInt. destruct (Z.eqb_spec (eligible * precisionReuse) 0) as [E|_].
    { unfold precisionReuse in E. lia. }
    eexists. apply assertInValidRange_Ok. split; [done|]. set (t := Z.quot _ _).
    assert (0 ≤ t ≤ bonded * (precisionReuse * precisionReuse)) as Hbt.
    { unfold t. replace (bonded * precisionReuse * (precisionReuse * precisionReuse))
        with (bonded * (precisionReuse * precisionReuse) * precisionReuse) by lia.
      rewrite Z.quot_mul_cancel_r by (unfold precisionReuse; lia).
      rewrite Z.quot_div_nonneg by (unfold precisionReuse; lia). split; [apply Z.div_pos; unfold precisionReuse; lia|].
      apply Z.div_le_upper_bound; [lia|]. unfold precisionReuse. nia. }
    pose proof (chop_error t) as Hch. pose proof (chop_mono_nonneg t ltac:(lia)).
    unfold upperLimit. change (2 ^ 256) with (2 * 2 ^ 255). unfold precisionReuse in *. nia. }
  rewrite Hq. cbn [mbind outcome_bind].
  destruct (Dec_Quo_int bonded eligible q ltac:(lia) ltac:(lia) Hq) as [Hq0 Herr].
  assert (q * eligible ≤ upperLimit) as Hqe.
  { unfold upperLimit. change (2 ^ 256) with (2 * 2 ^ 255). unfold precisionReuse in *. nia. }
  assert (∀ c, 0 ≤ c ≤ eligible → Z.abs (c * q) ≤ upperLimit) as Hup by (intros c Hr; nia).
  destruct (scale_counts_spec q (map_to_list counts)) as (r & Hr & Hlook).
  { apply NoDup_fst_map_to_list. }
  { intros [o c] Hin%elem_of_map_to_list. apply Hup. apply Hc in Hin. simpl. lia. }
  rewrite Hr. cbn [mbind outcome_bind]. rewrite Dec_Mul_int by (apply Hup; lia). cbn [mbind outcome_bind].
  exists q, r. split_and!; [done|done|done|]. intros o. by rewrite Hlook, list_to_map_to_list.
Qed.
Lemma public_power_proportional_witness :
  ∃ factor results,
    scalePublicResults {[OptionYes := 2; OptionNo := 1]} 3 7 1000 = Ok (3 * factor, results) ∧
    results !! OptionYes = Some (2 * factor).
Proof.
  destruct (public_power_proportional {[OptionYes := 2; OptionNo := 1]} 3 7 1000) as (f & r & H1 & _ & _ & H2).
  - lia.
  - lia.
  - lia.
  - intros o c Hc. apply lookup_insert_Some in Hc as [[_ <-]|[_ Hc]]; [lia|].
    apply lookup_singleton_Some in Hc as [_ <-]. lia.
  - exists f, r. split; [exact H1|]. rewrite H2. vm_compute. reflexivity.
Defined.
