(* ===== verification/PhiDid.v ===== *)
(** * phicrypto: the did:phi derivation

    [phicrypto/did.go]: a DID is the hash of a curve tag and the canonical SEC1 form of
    the public key.  The two short-Weierstrass curves are modelled as
    [crypto/elliptic] and [decred/secp256k1] parse them: a coordinate below the field
    prime, a point on the curve, and, for the compressed forms, the square root by
    exponentiation (both primes are 3 modulo 4).  The hash is the one parameter. *)
From stdpp Require Import base gmap strings list.
From Stdlib Require Import ZArith Lia Ascii String.
From S2P Require Import Prelude GoInt KVStore Interfaces.

(** ** Text *)
Definition hex_char (d : Z) : ascii := byte (if d <? 10 then 48 + d else 87 + d).
(** [hex.EncodeToString] *)
Fixpoint hex_encode (s : string) : string :=
  match s with
  | EmptyString => EmptyString
  | String c s' => String (hex_char (char_code c / 16)) (String (hex_char (char_code c mod 16)) (hex_encode s'))
  end.

(** A codec whose text is the address in hexadecimal, read in both cases: it satisfies the
    laws, and its text is printable. *)
Module HexCodec.
Definition hex_value (c : ascii) : option Z :=
  let z := char_code c in
  if (48 <=? z) && (z <=? 57) then Some (z - 48)
  else if (97 <=? z) && (z <=? 102) then Some (z - 87)
  else if (65 <=? z) && (z <=? 70) then Some (z - 55)
  else None.
Fixpoint hex_decode (s : string) : option string :=
  match s with
  | EmptyString => Some EmptyString
  | String a (String b s') =>
      x ← hex_value a; y ← hex_value b; r ← hex_decode s'; Some (String (byte (16 * x + y)) r)
  | _ => None
  end.
#[export] Instance hex_codec : AddressCodec := {
  AccAddressFromBech32 s := a ← hex_decode s; if (0 <? strlen a) && (strlen a <=? 255) then Some a else None;
  AccAddress_String := hex_encode;
}.
Lemma hex_decode_encode s : hex_decode (hex_encode s) = Some s.
Proof.
  induction s as [|c s IH]; [done|]. cbn [hex_encode hex_decode]. rewrite IH.
  destruct c as [[] [] [] [] [] [] [] []]; vm_compute; reflexivity.
Qed.
Lemma strlen_valid a : (0 <? strlen a) && (strlen a <=? 255) = true ↔ valid_address a.
Proof. unfold valid_address. rewrite andb_true_iff, Z.ltb_lt, Z.leb_le. done. Qed.
#[export] Instance hex_codec_laws : AddressCodecLaws.
Proof.
  constructor; cbn.
  - intros a Ha. rewrite hex_decode_encode. cbn. by rewrite (proj2 (strlen_valid a) Ha).
  - intros s a (b & Hb & Hr)%bind_Some. case_match eqn:E; [|done]. injection Hr as <-. by apply strlen_valid.
Qed.
Lemma hex_decode_nul_free s a : hex_decode s = Some a → nul_free s.
Proof.
  revert a. induction s as [s IH] using (induction_ltof1 _ String.length). unfold ltof in IH. intros a.
  destruct s as [|c [|d s]]; cbn [hex_decode]; [done|done|].
  intros (x & Hx & (y & Hy & (r & Hr & _)%bind_Some)%bind_Some)%bind_Some.
  assert (∀ c x, hex_value c = Some x → negb (is_nul c) = true) as Hc.
  { intros c' x'. unfold hex_value, is_nul. destruct (Z.eqb_spec (char_code c') 0) as [->|]; done. }
  assert (nul_free s) as Hs by (eapply IH; [cbn; lia|exact Hr]).
  unfold nul_free in *. cbn. by rewrite (Hc _ _ Hx), (Hc _ _ Hy).
Qed.
#[export] Instance hex_text : AddressText.
Proof.
  constructor. cbn. intros s a (b & Hb & Hr)%bind_Some. split; [|by eapply hex_decode_nul_free].
  intros ->. injection Hb as <-. done.
Qed.
End HexCodec.

(** ** Field arithmetic *)
Fixpoint pow_mod (b : Z) (e : positive) (m : Z) : Z :=
  match e with
  | xH => b mod m
  | xO e' => let h := pow_mod b e' m in (h * h) mod m
  | xI e' => let h := pow_mod b e' m in ((h * h) mod m * b) mod m
  end.
Definition pow_modZ (b e m : Z) : Z :=
  match e with Zpos p => pow_mod b p m | _ => 1 mod m end.

Record CurveParams := mkCurve { field_P : Z; coeff_A : Z; coeff_B : Z }.
Definition p256_params : CurveParams :=
  mkCurve (2 ^ 256 - 2 ^ 224 + 2 ^ 192 + 2 ^ 96 - 1) (-3)
    0x5ac635d8aa3a93e7b3ebbd55769886bc651d06b0cc53b0f63bce3c3e27d2604b.
Definition k256_params : CurveParams := mkCurve (2 ^ 256 - 2 ^ 32 - 977) 0 7.

Definition curve_rhs (c : CurveParams) (x : Z) : Z :=
  (x * x * x + coeff_A c * x + coeff_B c) mod field_P c.
Definition isOnCurve (c : CurveParams) (x y : Z) : bool := (y * y) mod field_P c =? curve_rhs c x.
Definition sqrt_mod (c : CurveParams) (v : Z) : option Z :=
  let r := pow_modZ v ((field_P c + 1) / 4) (field_P c) in
  if (r * r) mod field_P c =? v then Some r else None.
Definition DecompressY (c : CurveParams) (x : Z) (odd : bool) : option Z :=
  r ← sqrt_mod c (curve_rhs c x);
  Some (if Bool.eqb (Z.odd r) odd then r else (- r) mod field_P c).

(** ** SEC1 points *)
Definition be32_bytes (z : Z) : string := be 32 z.
Definition first_byte_of (b : string) : Z :=
  match b with String c _ => char_code c | EmptyString => -1 end.
Definition coord_at (n : nat) (b : string) : Z := BigEndian_Uint (String.substring n 32 b).

Definition in_field (c : CurveParams) (z : Z) : bool := z <? field_P c.
Definition parse_full (c : CurveParams) (b : string) : option (Z * Z) :=
  let x := coord_at 1 b in
  let y := coord_at 33 b in
  if in_field c x && in_field c y && isOnCurve c x y then Some (x, y) else None.
Definition parse_compressed (c : CurveParams) (b : string) : option (Z * Z) :=
  let x := coord_at 1 b in
  if negb (in_field c x) then None else
  y ← DecompressY c x (first_byte_of b =? 3);
  Some (x, y).

Definition marshal_uncompressed (pt : Z * Z) : string :=
  String (byte 4) (be32_bytes pt.1 +:+ be32_bytes pt.2).
Definition SerializeCompressed (pt : Z * Z) : string :=
  String (byte (if Z.odd pt.2 then 3 else 2)) (be32_bytes pt.1).

(** [elliptic.Unmarshal] and [elliptic.UnmarshalCompressed] on P-256 *)
Definition parseP256 (b : string) : option (Z * Z) :=
  if strlen b =? 0 then None
  else if first_byte_of b =? 4 then if strlen b =? 65 then parse_full p256_params b else None
  else if (first_byte_of b =? 2) || (first_byte_of b =? 3)
  then if strlen b =? 33 then parse_compressed p256_params b else None
  else None.

(** [secp256k1.ParsePubKey]: the hybrid forms too *)
Definition ParsePubKey (b : string) : option (Z * Z) :=
  let format := first_byte_of b in
  if strlen b =? 65 then
    if format =? 4 then parse_full k256_params b
    else if (format =? 6) || (format =? 7) then
      pt ← parse_full k256_params b;
      if Bool.eqb (Z.odd pt.2) (format =? 7) then Some pt else None
    else None
  else if strlen b =? 33 then
    if (format =? 2) || (format =? 3) then parse_compressed k256_params b else None
  else None.

(** ** The derivation *)
Definition DIDMethodPrefix : string := "did:phi:".

Definition did_preimage (curve : Curve) (pubKey : string) : option string :=
  match curve with
  | Secp256r1 => pt ← parseP256 pubKey; Some (String (byte 2) (marshal_uncompressed pt))
  | Secp256k1 => pt ← ParsePubKey pubKey; Some (String (byte 1) (SerializeCompressed pt))
  end.

Definition DeriveDID `{Hasher} (curve : Curve) (pubKey : string) : option string :=
  pre ← did_preimage curve pubKey;
  Some (DIDMethodPrefix +:+ hex_encode (sha256 pre)).

(** ** The canonical form *)
Lemma hex_encode_length s : String.length (hex_encode s) = (2 * String.length s)%nat.
Proof. induction s as [|c s IH]; cbn; [done|]. rewrite IH. lia. Qed.

Lemma hex_char_inj a b : 0 ≤ a < 16 → 0 ≤ b < 16 → hex_char a = hex_char b → a = b.
Proof.
  intros Ha Hb E. apply (f_equal char_code) in E. unfold hex_char in E. rewrite !char_code_byte in E.
  destruct (Z.ltb_spec a 10), (Z.ltb_spec b 10); rewrite !Z.mod_small in E by lia; lia.
Qed.
Lemma hex_encode_inj s t : hex_encode s = hex_encode t → s = t.
Proof.
  revert t. induction s as [|c s IH]; intros [|d t]; cbn [hex_encode]; try done. intros E. injection E as E1 E2 E3.
  pose proof (char_code_range c). pose proof (char_code_range d).
  apply hex_char_inj in E1, E2; [|Z.to_euclidean_division_equations; lia..]. f_equal; [|by apply IH].
  apply char_code_inj. Z.to_euclidean_division_equations. lia.
Qed.
Lemma substring_be x y : String.substring 1 32 (String (byte 4) (be32_bytes x +:+ be32_bytes y)) = be32_bytes x.
Proof.
  change (String.substring 1 32 (String (byte 4) (be32_bytes x +:+ be32_bytes y)))
    with (String.substring 0 32 (be32_bytes x +:+ be32_bytes y)).
  rewrite <- (be_length 32 x) at 1. apply substring_app_l.
Qed.
Lemma substring_be_y x y : String.substring 33 32 (String (byte 4) (be32_bytes x +:+ be32_bytes y)) = be32_bytes y.
Proof.
  change (String.substring 33 32 (String (byte 4) (be32_bytes x +:+ be32_bytes y)))
    with (String.substring 32 32 (be32_bytes x +:+ be32_bytes y)).
  rewrite <- (be_length 32 x) at 1. fold (be32_bytes x). rewrite substring_skip.
  apply substring_all, be_length.
Qed.
Lemma BigEndian_be32_bytes z : 0 ≤ z < 2 ^ 256 → BigEndian_Uint (be32_bytes z) = z.
Proof.
  intros Hz. unfold BigEndian_Uint, be32_bytes. rewrite be_value_be.
  change (256 ^ Z.of_nat 32) with (2 ^ 256). rewrite Z.mod_small; lia.
Qed.

Lemma pow_modZ_range b e m : 0 < m → 0 ≤ pow_modZ b e m < m.
Proof.
  intros Hm. destruct e as [|p|p]; cbn [pow_modZ]; [by apply Z.mod_pos_bound| |by apply Z.mod_pos_bound].
  destruct p; by apply Z.mod_pos_bound.
Qed.
Section points.
Context (c : CurveParams) (Hp : 0 < field_P c).
Definition on_field_curve (pt : Z * Z) : Prop :=
  0 ≤ pt.1 < field_P c ∧ 0 ≤ pt.2 < field_P c ∧ isOnCurve c pt.1 pt.2 = true.
Lemma coord_at_nonneg n b : 0 ≤ coord_at n b.
Proof.
  unfold coord_at, BigEndian_Uint. by destruct (be_value_range (String.substring n 32 b) 0 ltac:(lia)).
Qed.
Lemma parse_full_on b pt : parse_full c b = Some pt → on_field_curve pt.
Proof.
  unfold parse_full. destruct (in_field _ _ && _ && _) eqn:E; [|done]. intros [= <-].
  unfold in_field in E. rewrite !andb_true_iff, !Z.ltb_lt in E. destruct E as [[E1 E2] E3].
  pose proof (coord_at_nonneg 1 b). pose proof (coord_at_nonneg 33 b). split_and!; auto.
Qed.
Lemma parse_compressed_on b pt : parse_compressed c b = Some pt → on_field_curve pt.
Proof.
  pose proof (coord_at_nonneg 1 b) as H0.
  unfold parse_compressed, in_field. destruct (Z.ltb_spec (coord_at 1 b) (field_P c)) as [Hx|]; [|done].
  cbn [negb]. unfold DecompressY, sqrt_mod.
  set (v := curve_rhs _ _). pose proof (pow_modZ_range v ((field_P c + 1) / 4) (field_P c) Hp) as Hrr.
  set (r := pow_modZ _ _ _) in *. clearbody r.
  destruct (Z.eqb_spec ((r * r) mod field_P c) v) as [Hr|]; [|done]. cbn [mbind option_bind].
  assert (∀ z, z = r ∨ z = (- r) mod field_P c → isOnCurve c (coord_at 1 b) z = true) as Hon.
  { intros z Hz. unfold isOnCurve. fold v. rewrite <- Hr. apply Z.eqb_eq.
    destruct Hz as [->| ->]; [done|]. rewrite <- Zmult_mod. f_equal. lia. }
  intros [= <-]. split_and!; [done|done|..]; cbn [fst snd]; case_match; try lia; try (apply Hon; auto).
  all: by apply Z.mod_pos_bound.
Qed.
End points.
Lemma p256_field : 0 < field_P p256_params < 2 ^ 256.
Proof. done. Qed.
#[global] Opaque p256_params.
Lemma parseP256_on_curve b pt : parseP256 b = Some pt → on_field_curve p256_params pt.
Proof.
  unfold parseP256. repeat case_match; try done.
  - apply parse_full_on.
  - apply parse_compressed_on, p256_field.
Qed.

(** the uncompressed form of a parsed point parses back to the point: every accepted
    encoding of a P-256 key derives the DID of its canonical form *)
Lemma DeriveDID_canonical `{Hasher} b pt : parseP256 b = Some pt →
  DeriveDID Secp256r1 (marshal_uncompressed pt) = DeriveDID Secp256r1 b.
Proof.
  intros Hb. destruct (parseP256_on_curve _ _ Hb) as (Hx & Hy & Hon).
  pose proof p256_field as Hp. destruct pt as [x y]. cbn [fst snd] in *.
  assert (parseP256 (marshal_uncompressed (x, y)) = Some (x, y)) as Hm; [|unfold DeriveDID, did_preimage; by rewrite Hb, Hm].
  assert (strlen (marshal_uncompressed (x, y)) = 65) as Hl.
  { unfold strlen, marshal_uncompressed. cbn [fst snd String.length].
    rewrite str_app_length. unfold be32_bytes. by rewrite !be_length. }
  unfold parseP256. rewrite Hl.
  replace (first_byte_of (marshal_uncompressed (x, y))) with 4 by done.
  change (65 =? 0) with false. change (4 =? 4) with true. change (65 =? 65) with true. cbv iota.
  unfold parse_full, coord_at, marshal_uncompressed. cbn [fst snd].
  rewrite substring_be, substring_be_y, !BigEndian_be32_bytes by lia.
  unfold in_field. rewrite Hon, (proj2 (Z.ltb_lt x _)), (proj2 (Z.ltb_lt y _)) by lia. done.
Qed.
#[global] Transparent p256_params.

(** the generator of P-256 *)
Example p256_generator :
  let gx := 0x6b17d1f2e12c4247f8bce6e563a440f277037d812deb33a0f4a13945d898c296 in
  let gy := 0x4fe342e2fe1a7f9b8ee7eb4a7c0f9e162bce33576b315ececbb6406837bf51f5 in
  parseP256 (marshal_uncompressed (gx, gy)) = Some (gx, gy) ∧
  parseP256 "" = None.
Proof. vm_compute. done. Qed.
(** the generator of secp256k1; a point of the other curve is refused *)
Example k256_generator :
  let gx := 0x79be667ef9dcbbac55a06295ce870b07029bfcdb2dce28d959f2815b16f81798 in
  let gy := 0x483ada7726a3c4655da4fbfc0e1108a8fd17b448a68554199c47d08ffb10d4b8 in
  ParsePubKey (marshal_uncompressed (gx, gy)) = Some (gx, gy) ∧
  parseP256 (marshal_uncompressed (gx, gy)) = None.
Proof. vm_compute. done. Qed.
