(* ===== verification/InstRecords.v ===== *)
(** * x/institutions: every record a chain writes is sound

    [records_ok] is kept by every validated message and by the block hook, so it holds in
    every state of a chain.  A small program logic: a [still] action leaves the store as it
    is, a [keeping] one keeps the records sound and every institution registered, and
    [keeping_at id] is [keeping] for code that runs while [id] is registered. *)
From stdpp Require Import base gmap strings list fin_maps sorting.
From Stdlib Require Import ZArith Lia.
From S2P Require Import Prelude GoInt KVStore StoreEntry Interfaces CoinTypes CoinKeeper InstTypes InstServer InstKeeper InstSplit InstMint InstSolvency InstInvariant AppGuards AppSolvency PhiDid InstDemo InstSweep InstGenesis InstRestore.

Create HintDb records.

Definition lives (st st' : InstStore) : Prop := ∀ id, HasInstitution st id = true → HasInstitution st' id = true.
(** keys that neither register, grant nor queue *)
Definition loose_key (k : string) : Prop :=
  has_prefix InstitutionPrefix k = false ∧ has_prefix RolePrefix k = false ∧ has_prefix RemovalQueuePrefix k = false.
Lemma loose_prefix z t : 0 ≤ z < 256 → z ≠ 16 → z ≠ 32 → z ≠ 176 → loose_key (key_prefix z +:+ t).
Proof.
  intros. unfold loose_key, InstitutionPrefix, RolePrefix, RemovalQueuePrefix. rewrite !has_prefix_byte by lia.
  by rewrite !(proj2 (Z.eqb_neq _ _)) by lia.
Qed.
Lemma loose_not k : loose_key k → (∀ id, k ≠ InstitutionKey id) ∧ (∀ id a, k ≠ RoleKey id a) ∧ (∀ id, k ≠ RemovalQueueKey id).
Proof.
  intros (H1 & H2 & H3). split_and!; intros; intros ->.
  - by rewrite has_prefix_InstitutionKey in H1.
  - unfold RoleKey in H2. by rewrite has_prefix_app in H2.
  - unfold RemovalQueueKey in H3. by rewrite has_prefix_app in H3.
Qed.
Lemma RoleKey_inj id id' a a' : id_ok id → id_ok id' → RoleKey id a = RoleKey id' a' → id = id' ∧ a = a'.
Proof.
  unfold id_ok, MaxInstitutionIDLen. intros Hi Hi' E. apply str_app_inj_l in E. apply lenPrefixedID_inj in E; [done|lia..].
Qed.
Lemma RemovalQueueKey_inj id id' : id_ok id → id_ok id' → RemovalQueueKey id = RemovalQueueKey id' → id = id'.
Proof. intros Hi Hi' E%(f_equal ParseRemovalQueueKey). rewrite !parse_removal in E by done. by injection E. Qed.
Lemma Has_insert_ne (st : InstStore) k k' v : k ≠ k' → Has (<[k := v]> st) k' = Has st k'.
Proof. intros Hne. unfold Has. by rewrite lookup_insert_ne. Qed.
Lemma Has_insert_eq (st : InstStore) k v : Has (<[k := v]> st) k = true.
Proof. unfold Has. rewrite lookup_insert_eq. by apply bool_decide_eq_true_2. Qed.
Lemma Has_delete_ne (st : InstStore) k k' : k ≠ k' → Has (delete k st) k' = Has st k'.
Proof. intros Hne. unfold Has. by rewrite lookup_delete_ne. Qed.
Lemma Has_delete_eq (st : InstStore) k : Has (delete k st) k = false.
Proof. unfold Has. rewrite lookup_delete_eq. by apply bool_decide_eq_false_2, is_Some_None. Qed.
Section records.
Context `{AddressCodec}.
Implicit Types st : InstStore.

Definition sound st st' : Prop := records_ok st → records_ok st' ∧ lives st st'.
#[export] Instance sound_preorder : PreOrder sound.
Proof.
  split; [by intros st Hs; split; [|intros id]|]. intros a b c Hab Hbc Ha. destruct (Hab Ha) as [Hb L1]. destruct (Hbc Hb) as [Hc L2].
  split; [done|]. intros id Hid. auto.
Qed.

(** ** Writes *)
Lemma put_loose st k v : loose_key k → record_ok k v → sound st (<[k := v]> st).
Proof.
  intros (N1 & N2 & N3)%loose_not Hr [R1 R2 R3]. split.
  - constructor.
    + intros k' v' [[<- <-]|[_ Hk]]%lookup_insert_Some; [done|by apply R1].
    + intros id a v' Hi Hk. rewrite lookup_insert_ne in Hk by apply N2. unfold HasInstitution, HasPendingRemoval.
      rewrite !Has_insert_ne by auto. by eapply R2.
    + intros id Hi. unfold HasInstitution, HasPendingRemoval. rewrite !Has_insert_ne by auto. by apply R3.
  - intros id. unfold HasInstitution. by rewrite Has_insert_ne by auto.
Qed.
Lemma put_institution st i : institution_ok i → HasPendingRemoval st (inst_Id i) = false →
  sound st (<[InstitutionKey (inst_Id i) := VInstitution i]> st).
Proof.
  intros Hi Hn [R1 R2 R3]. set (st' := <[_ := _]> st).
  assert (∀ id, HasInstitution st id = true → HasInstitution st' id = true) as Hl.
  { intros id. unfold HasInstitution, st'. destruct (decide (inst_Id i = id)) as [->|Hne]; [by rewrite Has_insert_eq|].
    rewrite Has_insert_ne; [done|]. by intros E%InstitutionKey_inj. }
  assert (∀ id, HasPendingRemoval st' id = HasPendingRemoval st id) as Hq by (intros id; unfold HasPendingRemoval, st'; by rewrite Has_insert_ne).
  split; [|exact Hl]. constructor.
  - intros k v [[<- <-]|[_ Hk]]%lookup_insert_Some; [by constructor|by apply R1].
  - intros id a v Hid Hk. unfold st' in Hk. rewrite lookup_insert_ne in Hk by done. rewrite Hq. destruct (R2 _ _ _ Hid Hk); auto.
  - intros id Hid Hp. rewrite Hq in Hp. destruct (decide (inst_Id i = id)) as [<-|Hne]; [congruence|].
    unfold HasInstitution, st'. rewrite Has_insert_ne; [by apply R3|]. by intros E%InstitutionKey_inj.
Qed.
Lemma registered_not_pending st id : records_ok st → id_ok id → HasInstitution st id = true → HasPendingRemoval st id = false.
Proof. intros Hok Hid Hh. apply not_true_iff_false. intros Hp%(ro_pending _ Hok); [congruence|done]. Qed.
Lemma put_role st id a r : id_ok id → valid_address a → INSTITUTION_ROLE_UNSPECIFIED < r ≤ INSTITUTION_ROLE_VIEWER →
  HasInstitution st id = true → sound st (<[RoleKey id a := VRole (mkRoleGrant id (AccAddress_String a) r)]> st).
Proof.
  intros Hi Ha Hr Hh [R1 R2 R3]. split; [|intros id'; unfold HasInstitution; by rewrite Has_insert_ne].
  constructor.
  - intros k v [[<- <-]|[_ Hk]]%lookup_insert_Some; [by constructor|by apply R1].
  - intros id' a' v Hid Hk. unfold HasInstitution, HasPendingRemoval. rewrite !Has_insert_ne by done.
    apply lookup_insert_Some in Hk as [[E _]|[_ Hk]]; [|by eapply R2]. apply RoleKey_inj in E as [<- _]; [by left|done..].
  - intros id' Hid. unfold HasInstitution, HasPendingRemoval. rewrite !Has_insert_ne by done. by apply R3.
Qed.

(** ** Deletions *)
Lemma delete_sound st k : has_prefix InstitutionPrefix k = false → has_prefix RemovalQueuePrefix k = false → sound st (delete k st).
Proof.
  intros N1 N3 [R1 R2 R3].
  assert (∀ id, k ≠ InstitutionKey id) as Hi by (intros id ->; by rewrite has_prefix_InstitutionKey in N1).
  assert (∀ id, k ≠ RemovalQueueKey id) as Hq by (intros id ->; unfold RemovalQueueKey in N3; by rewrite has_prefix_app in N3).
  split; [|intros id; unfold HasInstitution; by rewrite Has_delete_ne by auto]. constructor.
  - intros k' v [_ Hk]%lookup_delete_Some. by apply R1.
  - intros id a v Hid [_ Hk]%lookup_delete_Some. unfold HasInstitution, HasPendingRemoval. rewrite !Has_delete_ne by auto. by eapply R2.
  - intros id Hid. unfold HasInstitution, HasPendingRemoval. rewrite !Has_delete_ne by auto. by apply R3.
Qed.
Lemma delete_prefixed st z k : 0 ≤ z < 256 → z ≠ 16 → z ≠ 176 → has_prefix (key_prefix z) k = true → sound st (delete k st).
Proof.
  intros Hz H16 H176 [t ->]%has_prefix_spec. apply delete_sound; unfold InstitutionPrefix, RemovalQueuePrefix;
    rewrite has_prefix_byte by lia; apply Z.eqb_neq; lia.
Qed.
Lemma delete_keys_sound st keys :
  (∀ k, k ∈ keys → ∃ z, 0 ≤ z < 256 ∧ z ≠ 16 ∧ z ≠ 176 ∧ has_prefix (key_prefix z) k = true) → sound st (delete_keys keys st).
Proof.
  unfold delete_keys. revert st. induction keys as [|k keys IH]; intros st Hk; simpl; [done|].
  destruct (Hk k) as (z & ? & ? & ? & ?); [left|]. etransitivity; [by eapply delete_prefixed|]. apply IH. intros k' Hk'. apply Hk. by right.
Qed.
(** a removal: the record goes and the id is queued *)
Lemma remove_sound st id : id_ok id → records_ok st → records_ok (<[RemovalQueueKey id := VBytes RemovalQueueMarkerByte]> (delete (InstitutionKey id) st)).
Proof.
  intros Hid [R1 R2 R3]. set (st' := <[_ := _]> _).
  assert (∀ id', HasInstitution st' id' = negb (bool_decide (id = id')) && HasInstitution st id') as Hi.
  { intros id'. unfold HasInstitution, st'. rewrite Has_insert_ne by done. case_bool_decide as E; [subst; by rewrite Has_delete_eq|].
    rewrite Has_delete_ne; [done|]. by intros ?%InstitutionKey_inj. }
  assert (∀ id', id_ok id' → HasPendingRemoval st' id' = bool_decide (id = id') || HasPendingRemoval st id') as Hq.
  { intros id' Hid'. unfold HasPendingRemoval, st'. case_bool_decide as E; [subst; by rewrite Has_insert_eq|].
    rewrite Has_insert_ne by (by intros ?%RemovalQueueKey_inj). by rewrite Has_delete_ne. }
  constructor.
  - intros k v [[<- <-]|[_ [_ Hk]%lookup_delete_Some]]%lookup_insert_Some; [by constructor|by apply R1].
  - intros id' a v Hid' Hk. unfold st' in Hk. rewrite lookup_insert_ne, lookup_delete_ne in Hk by done. rewrite Hi, Hq by done.
    destruct (R2 _ _ _ Hid' Hk) as [-> | ->]; case_bool_decide; auto.
  - intros id' Hid'. rewrite Hi, Hq by done. case_bool_decide; [done|]. cbn. by apply R3.
Qed.
(** the end of a removal: nothing is left of the roles, and the id leaves the queue *)
Lemma dequeue_sound st id : id_ok id → (∀ k, has_prefix (RolePrefixFor id) k = true → st !! k = None) →
  sound st (delete (RemovalQueueKey id) st).
Proof.
  intros Hid Hr [R1 R2 R3].
  assert (∀ id', id_ok id' → id ≠ id' → HasPendingRemoval (delete (RemovalQueueKey id) st) id' = HasPendingRemoval st id') as Hq.
  { intros id' Hid' Hne. apply Has_delete_ne. by intros ?%RemovalQueueKey_inj. }
  assert (∀ id', HasInstitution (delete (RemovalQueueKey id) st) id' = HasInstitution st id') as Hi by (intros; by apply Has_delete_ne).
  split; [|intros id'; by rewrite Hi]. constructor.
  - intros k v [_ Hk]%lookup_delete_Some. by apply R1.
  - intros id' a v Hid' [_ Hk]%lookup_delete_Some. rewrite Hi. destruct (decide (id = id')) as [<-|Hne].
    + rewrite Hr in Hk; [done|]. unfold RoleKey, RolePrefixFor. rewrite <- str_app_assoc. apply has_prefix_app.
    + rewrite Hq by done. by eapply R2.
  - intros id' Hid' Hp. rewrite Hi. destruct (decide (id = id')) as [<-|Hne].
    + unfold HasPendingRemoval in Hp. by rewrite Has_delete_eq in Hp.
    + rewrite Hq in Hp by done. by apply R3.
Qed.

(** ** The block hook *)
Lemma firstPending_ok st id : records_ok st → firstPendingRemoval st = Some id → id_ok id.
Proof.
  intros Hok Hf. unfold firstPendingRemoval in Hf. destruct (KVStorePrefixIterator st RemovalQueuePrefix) as [|[k v] l] eqn:He; [done|].
  assert ((k, v) ∈ KVStorePrefixIterator st RemovalQueuePrefix) as [Hk Hp]%elem_of_prefix_iterator by (rewrite He; left).
  pose proof (ro_record _ Hok _ _ Hk) as Hr. cbn [fst] in Hf. clear He Hk. record_inv Hr Hp.
  fold RemovalQueuePrefix in Hf. fold (RemovalQueueKey id0) in Hf. rewrite parse_removal in Hf by done. by simplify_eq.
Qed.
Lemma drain_sound ps budget deleted st n st' : (∀ p, p ∈ ps → ∃ id, p ∈ PerInstitutionRangePrefixes id) →
  drain_prefixes ps budget deleted st = (n, st') → sound st st'.
Proof.
  revert deleted st. induction ps as [|p ps IH]; intros deleted st Hps Hd; cbn in Hd; [by simplify_eq|].
  destruct (_ <=? _)%nat; [by simplify_eq|]. etransitivity; [|eapply IH; [|exact Hd]; intros q Hq; apply Hps; by right].
  apply delete_keys_sound. intros k Hk. apply elem_of_take in Hk as (j & Hk & _).
  apply list_elem_of_lookup_2, elem_of_ranged in Hk as [_ Hk]. destruct (Hps p) as [id (z & Hz & ->)%range_prefix_form]; [left|].
  exists z. apply has_prefix_trans in Hk. split_and!; [lia..|done].
Qed.
Lemma sweep_sound fuel budget st : sound st (sweep_loop fuel budget st).
Proof.
  revert budget st. induction fuel as [|fuel IH]; intros budget st; [done|]. cbn [sweep_loop].
  destruct (_ =? _)%nat; [done|]. destruct (firstPendingRemoval st) as [id|] eqn:Hf; [|done].
  destruct (drainInstitutionRanged id budget st) as [n st1] eqn:Hd.
  apply drain_sound in Hd; [|intros p Hp; by exists id].
  destruct (institutionRangedEmpty st1 id) eqn:He; [|done]. intros Hok.
  pose proof (firstPending_ok _ _ Hok Hf) as Hl. revert Hok. change (sound st (sweep_loop fuel (budget - n - 1) (delete (RemovalQueueKey id) st1))).
  etransitivity; [exact Hd|]. etransitivity; [|apply IH]. apply dequeue_sound; [done|].
  unfold institutionRangedEmpty in He. rewrite forallb_forall in He. apply ranged_nil.
  specialize (He (RolePrefixFor id) ltac:(by left)). unfold ranged. by destruct (KVStorePrefixIterator st1 _).
Qed.
Lemma prune_subjects_sound day st : sound st (pruneRedeemSubjectCounters day st).
Proof.
  apply delete_keys_sound. intros k Hk. exists 128. apply elem_of_take in Hk as (j & Hk & _).
  apply list_elem_of_lookup_2, list_elem_of_fmap in Hk as ([k' v] & -> & Hin). by apply elem_of_Iterator in Hin as [_ Hin%in_range_prefix].
Qed.
Lemma prune_counters_sound day st st' : pruneCounterPrefix day st = (Ok tt, st') → sound st st'.
Proof.
  unfold pruneCounterPrefix. intros (cur & st2 & [_ <-]%query_Ok & Hr)%bind_Ok.
  apply bind_Ok in Hr as (st3 & st4 & [-> <-]%get_state_Ok & Hr). apply bind_Ok in Hr as ([] & st5 & <-%modify_Ok & Hr).
  match type of Hr with context [delete_keys ?l ?s] => assert (sound s (delete_keys l s)) as Hd end.
  { apply delete_keys_sound. intros k Hk. exists 64. by apply list_elem_of_In, filter_In in Hk as [_ Hk%stale_counter_prefix]. }
  etransitivity; [exact Hd|]. unfold Delete, write in Hr. repeat case_match; go_inv; try (eapply (delete_prefixed _ 144); [lia..|done]).
  all: apply put_loose; [by apply (loose_prefix 144 "")|constructor].
Qed.
Lemma prune_sound ctx st st' : PruneStaleCounters ctx st = (Ok tt, st') → sound st st'.
Proof.
  unfold PruneStaleCounters. destruct (_ <=? 0); [intros Hr; by go_inv|]. intros (u & st1 & <-%modify_Ok & Hr)%bind_Ok.
  etransitivity; [apply prune_subjects_sound|by eapply prune_counters_sound].
Qed.
End records.

(** ** The program logic *)
Section logic.
Context {B C I G : Type} `{AddressCodec}.
Abbreviation St := (InstState B C I G).

Definition still {A} (m : M St A) : Prop := ∀ s a s', m s = (Ok a, s') → is_store s' = is_store s.
Definition keeping {A} (m : M St A) : Prop := ∀ s a s', m s = (Ok a, s') → sound (is_store s) (is_store s').
Definition keeping_at {A} (id : string) (m : M St A) : Prop :=
  ∀ s a s', HasInstitution (is_store s) id = true → m s = (Ok a, s') → sound (is_store s) (is_store s').

Lemma still_ret {A} (a : A) : still (mret a).
Proof. intros s b s' Hr. by go_inv. Qed.
Lemma still_lift {A} (o : outcome A) : still (lift o).
Proof. intros s b s' Hr. by go_inv. Qed.
Lemma still_fail_if c e : still (fail_if c e).
Proof. intros s b s' Hr. by go_inv. Qed.
Lemma still_fail {A} e : still (fail e : M St A).
Proof. intros s b s' Hr. by go_inv. Qed.
Lemma still_or_fail {A} (o : option A) e : still (or_fail o e).
Proof. intros s b s' Hr. by go_inv. Qed.
Lemma still_reads {A} (f : St → A) : still (reads f).
Proof. intros s b s' Hr. by go_inv. Qed.
Lemma still_query {A} (f : St → outcome A) : still (query f).
Proof. intros s b s' Hr. by go_inv. Qed.
Lemma still_read {A} (f : InstStore → outcome A) : still (read f).
Proof. apply still_query. Qed.
Lemma still_EmitEvent e : still (EmitEvent e).
Proof. intros s b s' Hr. unfold EmitEvent in Hr. by go_inv. Qed.
Lemma still_on_coin {A} (m : M C A) : still (on_coin m).
Proof. intros s a s' Hr. unfold on_coin in Hr. by go_inv. Qed.
Lemma still_on_bank {A} (m : M B A) : still (on_bank m).
Proof. intros s a s' Hr. unfold on_bank in Hr. by go_inv. Qed.
Lemma still_bind {A D} (m : M St A) (f : A → M St D) : still m → (∀ a, still (f a)) → still (m ≫= f).
Proof.
  intros Hm Hf s d s' Hr. go_inv. rename select (m _ = _) into Hx. apply Hm in Hx as <-. by eapply Hf.
Qed.

Lemma still_keeping {A} (m : M St A) : still m → keeping m.
Proof. intros Hm s a s' ->%Hm. done. Qed.
Lemma keeping_here {A} id (m : M St A) : keeping m → keeping_at id m.
Proof. intros Hm s a s' _. apply Hm. Qed.
Lemma keeping_bind {A D} (m : M St A) (f : A → M St D) : keeping m → (∀ a, keeping (f a)) → keeping (m ≫= f).
Proof. intros Hm Hf s d s' Hr. go_inv. etransitivity; [by eapply Hm|by eapply Hf]. Qed.
Lemma keeping_on_store {A} (m : M InstStore A) : (∀ st a st', m st = (Ok a, st') → sound st st') → keeping (on_store m).
Proof. intros Hm s a s' Hr. unfold on_store in Hr. go_inv. by eapply Hm. Qed.
(** what the first action returns is known to the rest *)
Lemma keeping_post {A D} (Q : A → Prop) (m : M St A) (f : A → M St D) :
  still m → (∀ s a s', m s = (Ok a, s') → Q a) → (∀ a, Q a → keeping (f a)) → keeping (m ≫= f).
Proof.
  intros Hm HQ Hf s d s' Hr. go_inv. rename select (m _ = _) into Hx. pose proof (HQ _ _ _ Hx) as Ha. apply Hm in Hx as Hs.
  rewrite <- Hs. by eapply Hf.
Qed.
Lemma keeping_at_bind {A D} id (m : M St A) (f : A → M St D) : id_ok id →
  keeping_at id m → (∀ a, keeping_at id (f a)) → keeping_at id (m ≫= f).
Proof.
  intros Hid Hm Hf s d s' Hh Hr. go_inv. rename select (m _ = _) into Hx. pose proof (Hm _ _ _ Hh Hx) as S1.
  intros Hok. destruct (S1 Hok) as [Hok1 L1]. rename select (f _ _ = _) into Hy.
  destruct (Hf _ _ _ _ (L1 _ Hh) Hy Hok1) as [Hok2 L2]. split; [done|]. intros id' Hid'. auto.
Qed.
Lemma keeping_at_post {A D} id (Q : A → Prop) (m : M St A) (f : A → M St D) :
  still m → (∀ s a s', m s = (Ok a, s') → Q a) → (∀ a, Q a → keeping_at id (f a)) → keeping_at id (m ≫= f).
Proof.
  intros Hm HQ Hf s d s' Hh Hr. go_inv. rename select (m _ = _) into Hx. pose proof (HQ _ _ _ Hx) as Ha. apply Hm in Hx as Hs.
  rewrite <- Hs in Hh |- *. by eapply Hf.
Qed.

(** ** Fetching an institution *)
Lemma GetInstitution_ok st id i : records_ok st → GetInstitution st id = Ok (Some i) →
  institution_ok i ∧ inst_Id i = id ∧ HasInstitution st id = true.
Proof.
  intros Hok Hg. unfold GetInstitution in Hg. destruct (st !! InstitutionKey id) as [v|] eqn:Hv; [|done].
  pose proof (ro_record _ Hok _ _ Hv) as Hr. apply record_institution in Hr as (j & Hj & Ek & ->); [|apply has_prefix_InstitutionKey].
  cbn in Hg. injection Hg as ->. apply InstitutionKey_inj in Ek as ->. split_and!; [done..|].
  unfold HasInstitution, Has. rewrite Hv. by apply bool_decide_eq_true_2.
Qed.
Lemma keeping_the_institution {A} id (f : Institution → M St A) :
  (∀ i, institution_ok i → keeping_at (inst_Id i) (f i)) → keeping (the_institution id ≫= f).
Proof.
  intros Hf s a s' Hr. go_inv. rename select (the_institution _ _ = _) into Hx. unfold the_institution, read in Hx. go_inv.
  intros Hok. rename select (GetInstitution _ _ = _) into Hg. apply GetInstitution_ok in Hg as (Hi & <- & Hh); [|done].
  by eapply Hf.
Qed.
Lemma keeping_set_institution i : institution_ok i → keeping_at (inst_Id i) (on_store (SetInstitution i)).
Proof.
  intros Hi s a s' Hh Hr Hok. unfold on_store, SetInstitution, write in Hr. go_inv. cbn [is_store].
  apply put_institution; [done| |done]. apply registered_not_pending; [done|apply (io_id _ Hi)|done].
Qed.
Lemma keeping_set_role id a r : id_ok id → valid_address a → INSTITUTION_ROLE_UNSPECIFIED < r ≤ INSTITUTION_ROLE_VIEWER →
  keeping_at id (on_store (SetRole id a r)).
Proof. intros Hi Ha Hrr s u s' Hh Hr. unfold on_store, SetRole, write in Hr. go_inv. by apply put_role. Qed.
End logic.
#[export] Hint Resolve still_ret still_lift still_fail_if still_fail still_or_fail still_reads still_query still_read
  still_EmitEvent still_on_coin still_on_bank : records.

Ltac still_tac :=
  repeat first
    [ progress auto 2 with records
    | match goal with
      | |- still (mbind _ _) => apply still_bind; [|intros ?]
      | |- still (if ?c then _ else _) => destruct c
      | |- still (match ?o with _ => _ end) => destruct o
      end ].

(** ** The store actions *)
Section actions.
Context `{AddressCodec}.
Definition ssound {A} (m : M InstStore A) : Prop := ∀ st a st', m st = (Ok a, st') → sound st st'.
Lemma ssound_bind {A D} (m : M InstStore A) (f : A → M InstStore D) : ssound m → (∀ a, ssound (f a)) → ssound (m ≫= f).
Proof. intros Hm Hf st d st' Hr. go_inv. etransitivity; [by eapply Hm|by eapply Hf]. Qed.
Lemma ssound_write k v : loose_key k → record_ok k v → ssound (write k v).
Proof. intros Hk Hv st a st' Hr. unfold write in Hr. go_inv. by apply put_loose. Qed.
Lemma ssound_query {A} (f : InstStore → outcome A) : ssound (query f).
Proof. intros st a st' Hr. by go_inv. Qed.
Lemma ssound_ret {A} (a : A) : ssound (mret a).
Proof. intros st b st' Hr. by go_inv. Qed.

(** a counter reads as a non-negative number *)
Lemma get_counter_nonneg st k c : records_ok st → get_counter st k = Ok c →
  has_prefix CounterPrefix k = true ∨ has_prefix RedeemSubjectPrefix k = true → 0 ≤ c.
Proof.
  intros Hok Hg Hp. unfold get_counter, raw in Hg. destruct (st !! k) as [v|] eqn:Hv; [|cbn in Hg; injection Hg as <-; done].
  pose proof (ro_record _ Hok _ _ Hv) as Hr.
  assert (∃ n, v = VBytes (Int_String n) ∧ 0 ≤ n ∧ in_range n) as (n & -> & Hn & Hin).
  { destruct Hp as [Hp|Hp]; record_inv Hr Hp; eauto. }
  cbn in Hg. injection Hg as <-. by rewrite NewIntFromString_String.
Qed.
Lemma ssound_add_counter k amt : loose_key k → 0 ≤ amt → (∀ n, 0 ≤ n → in_range n → record_ok k (VBytes (Int_String n))) →
  has_prefix CounterPrefix k = true ∨ has_prefix RedeemSubjectPrefix k = true → ssound (add_counter k amt).
Proof.
  intros Hk Ha Hrec Hp st a st' Hr Hok. unfold add_counter, write in Hr. go_inv.
  rename select (get_counter _ _ = _) into Hc. apply get_counter_nonneg in Hc; [|done..].
  rename select (_ +! _ = _) into Hv. apply Int_checked_Ok in Hv as [-> Hin]. apply put_loose; [done| |done]. apply Hrec; [lia|done].
Qed.
Lemma ssound_counter_user id kind day rest amt : 0 ≤ amt → ssound (add_counter (CounterUserKey id kind day rest) amt).
Proof.
  intros Ha. assert (has_prefix CounterPrefix (CounterUserKey id kind day rest) = true) as Hp
    by (unfold CounterUserKey, CounterTotalKey; rewrite !str_app_assoc; apply has_prefix_app).
  apply ssound_add_counter; [|done|by constructor|by left].
  unfold CounterUserKey, CounterTotalKey. rewrite !str_app_assoc. by apply loose_prefix.
Qed.
Lemma ssound_counter_total id kind day amt : 0 ≤ amt → ssound (addCounterTotal id kind day amt).
Proof.
  intros Ha. unfold addCounterTotal. rewrite <- (str_app_nil_r (CounterTotalKey id kind day)). by apply (ssound_counter_user id kind day "").
Qed.
Lemma ssound_addMintCounters ctx i r t : 0 ≤ t → ssound (addMintCounters ctx i r t).
Proof.
  intros Ht. unfold addMintCounters. apply ssound_bind; [by apply ssound_counter_total|intros _]. by apply ssound_counter_user.
Qed.
Lemma ssound_addRedeemCounters {I} `{IdentityKeeper I} ctx (ident : I) i h t u : 0 ≤ t → 0 ≤ u → ssound (addRedeemCounters ctx ident i h t u).
Proof.
  intros Ht Hu. unfold addRedeemCounters, addCounterUser. apply ssound_bind; [by apply ssound_counter_total|intros _].
  apply ssound_bind; [by apply ssound_counter_user|intros _]. apply ssound_bind.
  { destruct (redeemSubject ident h) as [kind subject]. unfold addRedeemSubjectTotal.
    apply ssound_add_counter; [by apply loose_prefix|done|by constructor|right; apply has_prefix_app]. }
  intros _. apply ssound_bind; [apply ssound_query|intros p]. repeat case_match; (apply ssound_ret || by apply ssound_counter_user).
Qed.
Lemma ssound_markDeposit id dir ref : ssound (markDeposit id dir ref).
Proof. apply ssound_write; [by apply loose_prefix|by constructor]. Qed.
Lemma ssound_bumpAdminEpoch id : ssound (bumpAdminEpoch id).
Proof.
  unfold bumpAdminEpoch. apply ssound_bind; [apply ssound_query|intros e]. apply ssound_write; [by apply loose_prefix|by constructor].
Qed.
Lemma ssound_recordApproval i ch s : id_ok (inst_Id i) → ssound (recordApproval i ch s).
Proof.
  intros Hi. unfold recordApproval. apply ssound_bind; [apply ssound_query|intros e].
  apply ssound_bind; [|intros _; apply ssound_query]. apply ssound_write; [by apply loose_prefix|by constructor].
Qed.
Lemma ssound_clearApprovals id ch : ssound (clearApprovals id ch).
Proof.
  intros st a st' Hr. unfold clearApprovals in Hr. go_inv. apply delete_keys_sound. intros k Hk.
  apply list_elem_of_fmap in Hk as ([k' v] & -> & [_ Hp]%elem_of_prefix_iterator). exists 48. split_and!; try lia.
  unfold ApprovalPrefixFor in Hp. by apply has_prefix_trans in Hp.
Qed.
Lemma ssound_SetLastAttestor id a : id_ok id → valid_address a → ssound (SetLastAttestor id a).
Proof. intros Hi Ha. apply ssound_write; [by apply loose_prefix|by constructor]. Qed.
Lemma ssound_SetParams p : ssound (SetParams p).
Proof.
  intros st a st' Hr. unfold SetParams, write in Hr. apply bind_Ok in Hr as ([] & s1 & [Hv ->]%lift_Ok & Hr).
  apply bind_Ok in Hr as (c & s2 & [_ ->]%query_Ok & Hr). apply bind_Ok in Hr as (u & s3 & Hc & Hr).
  assert (s3 = s2) as -> by (clear -Hc; go_cases; done). go_inv. apply put_loose; [|by constructor]. done.
Qed.
Lemma ssound_SetFxRequest r : fx_ok r → ssound (SetFxRequest r).
Proof. intros Hr. apply ssound_write; [by apply loose_prefix|by constructor]. Qed.
Lemma ssound_DeleteFxRequest id : ssound (DeleteFxRequest id).
Proof.
  intros st a st' Hr. unfold DeleteFxRequest, Delete in Hr. go_inv. eapply (delete_prefixed _ 96); [lia..|apply has_prefix_app].
Qed.
Lemma ssound_DeleteRole id a : ssound (DeleteRole id a).
Proof. intros st u st' Hr. unfold DeleteRole, Delete in Hr. go_inv. eapply (delete_prefixed _ 32); [lia..|apply has_prefix_app]. Qed.
End actions.

(** ** The handlers *)
Section handlers.
Context {B C I G : Type} `{BankLaws B} `{CoinKeeperI C} `{IdentityKeeper I} `{GovKeeper G}.
Context `{AddressCodecLaws} `{Hasher} `{Verifier} `{InstCodec}.
Context (authority : string).
Abbreviation St := (InstState B C I G).

Lemma still_canManageRegistry ctx signer : still (B:=B) (C:=C) (G:=G) (canManageRegistry (I:=I) authority ctx signer).
Proof. unfold canManageRegistry. still_tac. Qed.
Lemma still_EmitBackingHealth i : still (B:=B) (C:=C) (I:=I) (G:=G) (EmitBackingHealth i).
Proof. unfold EmitBackingHealth. still_tac. Qed.
Lemma still_emitPending id a r : still (B:=B) (C:=C) (I:=I) (G:=G) (emitPending id a r).
Proof. unfold emitPending. still_tac. Qed.
Lemma still_the_guarantor id : still (B:=B) (C:=C) (I:=I) (G:=G) (the_guarantor id).
Proof. unfold the_guarantor. still_tac. Qed.
#[local] Hint Resolve still_canManageRegistry still_EmitBackingHealth still_emitPending still_the_guarantor : records.

Lemma keeping_trySensitive i s ch : id_ok (inst_Id i) → keeping (B:=B) (C:=C) (I:=I) (G:=G) (trySensitive i s ch).
Proof.
  intros Hi. unfold trySensitive. apply keeping_bind; [apply still_keeping; still_tac|intros _].
  apply keeping_bind; [apply still_keeping; still_tac|intros a].
  apply keeping_bind; [apply keeping_on_store; by apply ssound_recordApproval|intros n]. apply still_keeping. still_tac.
Qed.
Lemma keeping_sensitive i s ch act (e : M St unit) : id_ok (inst_Id i) → keeping_at (inst_Id i) e → keeping_at (inst_Id i) (sensitive i s ch act e).
Proof.
  intros Hi He. unfold sensitive. apply keeping_at_bind; [done|by apply keeping_here, keeping_trySensitive|intros r].
  destruct (negb (executed r)); [apply keeping_here, still_keeping; still_tac|].
  apply keeping_at_bind; [done..|intros _]. apply keeping_here, still_keeping. still_tac.
Qed.
Ltac at_still := apply keeping_here, still_keeping; still_tac.
Ltac at_store lem := apply keeping_here, keeping_on_store; by apply lem.
(** a rewritten record: only fields the record's soundness does not read, or sound ones *)
Lemma keeping_set i i' : institution_ok i' → inst_Id i' = inst_Id i → keeping_at (B:=B) (C:=C) (I:=I) (G:=G) (inst_Id i) (on_store (SetInstitution i')).
Proof. intros Hi' <-. by apply keeping_set_institution. Qed.

Lemma keeping_Freeze ctx msg : keeping (B:=B) (C:=C) (G:=G) (FreezeInstitution (I:=I) authority ctx msg).
Proof.
  unfold FreezeInstitution. apply keeping_bind; [apply still_keeping; still_tac|intros ok].
  apply keeping_bind; [apply still_keeping; still_tac|intros _]. apply keeping_the_institution. intros i Hi.
  apply keeping_at_bind; [apply (io_id _ Hi)|apply keeping_set; [by destruct Hi|done]|intros _]. at_still.
Qed.
Lemma keeping_Publish ctx msg : keeping (B:=B) (C:=C) (I:=I) (G:=G) (PublishInstitutionAttestation ctx msg).
Proof.
  unfold PublishInstitutionAttestation. apply keeping_the_institution. intros i Hi. pose proof (io_id _ Hi) as Hid.
  apply keeping_at_bind; [done|at_still|intros _].
  apply (keeping_at_post _ (λ z, NewIntFromString (pub_AttestedReserve msg) = Some z)); [auto with records|by intros s a s' Hr; go_inv|intros z Hz].
  apply (keeping_at_post _ (λ _, IsNegative z = false)); [auto with records|by intros s a s' Hr; go_inv|intros _ Hn].
  apply (keeping_at_post _ (λ a, AccAddressFromBech32 (pub_Admin msg) = Some a)); [auto with records|by intros s a s' Hr; go_inv|intros a Ha].
  apply keeping_at_bind; [done|apply keeping_here, keeping_on_store, ssound_SetLastAttestor; [done|by eapply decode_valid]|intros _].
  apply keeping_at_bind; [done|apply keeping_set; [|done]|intros _; at_still].
  destruct Hi. constructor; try done. exists z. unfold IsNegative in Hn. bool_prop. split; [|lia].
  cbn. by apply NewIntFromString_String, (NewIntFromString_range (pub_AttestedReserve msg)).
Qed.
Lemma keeping_Grant ctx msg : MsgGrantInstitutionRole_ValidateBasic msg = Ok tt → keeping (B:=B) (C:=C) (I:=I) (G:=G) (GrantInstitutionRole ctx msg).
Proof.
  intros Hv. unfold MsgGrantInstitutionRole_ValidateBasic in Hv. go_inv. bool_prop.
  unfold GrantInstitutionRole. apply keeping_the_institution. intros i Hi. pose proof (io_id _ Hi) as Hid. apply keeping_sensitive; [done|].
  apply (keeping_at_post _ (λ a, AccAddressFromBech32 (gr_Grantee msg) = Some a)); [auto with records|by intros s a s' Hr; go_inv|intros a Ha].
  apply keeping_at_bind; [done|apply keeping_set_role; [done|by eapply decode_valid|lia]|intros _].
  apply keeping_at_bind; [done|at_store ssound_clearApprovals|intros _].
  apply keeping_at_bind; [done|destruct (gr_Role msg =? INSTITUTION_ROLE_ADMIN); [at_store ssound_bumpAdminEpoch|at_still]|intros _; at_still].
Qed.
Lemma keeping_Revoke ctx msg : keeping (B:=B) (C:=C) (I:=I) (G:=G) (RevokeInstitutionRole ctx msg).
Proof.
  unfold RevokeInstitutionRole. apply keeping_the_institution. intros i Hi. pose proof (io_id _ Hi) as Hid. apply keeping_sensitive; [done|].
  apply keeping_at_bind; [done|at_still|intros a]. apply keeping_at_bind; [done|at_still|intros r].
  apply keeping_at_bind; [done|at_store ssound_DeleteRole|intros _].
  apply keeping_at_bind; [done|at_store ssound_clearApprovals|intros _].
  apply keeping_at_bind; [done|destruct (r =? INSTITUTION_ROLE_ADMIN); [at_store ssound_bumpAdminEpoch|at_still]|intros _; at_still].
Qed.
(** the sensitive updates of the record *)
Lemma keeping_update i i' s ch act ev : institution_ok i → institution_ok i' → inst_Id i' = inst_Id i →
  keeping_at (B:=B) (C:=C) (I:=I) (G:=G) (inst_Id i) (sensitive i s ch act (on_store (SetInstitution i');; on_store (clearApprovals (inst_Id i) ch);; EmitEvent ev)).
Proof.
  intros Hi Hi' E. pose proof (io_id _ Hi) as Hid. apply keeping_sensitive; [done|].
  apply keeping_at_bind; [done|by apply keeping_set|intros _]. apply keeping_at_bind; [done|at_store ssound_clearApprovals|intros _; at_still].
Qed.
Lemma keeping_AppConfig ctx msg : keeping (B:=B) (C:=C) (I:=I) (G:=G) (UpdateInstitutionAppConfig ctx msg).
Proof.
  unfold UpdateInstitutionAppConfig. apply keeping_the_institution. intros i Hi. apply keeping_update; [done|by destruct Hi|done].
Qed.
Lemma keeping_DepositKey ctx msg : keeping (B:=B) (C:=C) (I:=I) (G:=G) (SetInstitutionDepositKey ctx msg).
Proof.
  unfold SetInstitutionDepositKey. apply keeping_the_institution. intros i Hi. apply keeping_update; [done|by destruct Hi|done].
Qed.
Lemma keeping_InstParams ctx msg : MsgUpdateInstitutionParams_ValidateBasic msg = Ok tt →
  keeping (B:=B) (C:=C) (I:=I) (G:=G) (UpdateInstitutionParams ctx msg).
Proof.
  intros Hv. unfold MsgUpdateInstitutionParams_ValidateBasic in Hv. go_inv.
  unfold UpdateInstitutionParams. apply keeping_the_institution. intros i Hi.
  apply keeping_at_bind; [apply (io_id _ Hi)|at_still|intros _]. apply keeping_update; [done|by destruct Hi|done].
Qed.
Lemma keeping_UpdateParams ctx msg : keeping (B:=B) (C:=C) (I:=I) (G:=G) (UpdateParams authority ctx msg).
Proof.
  unfold UpdateParams. apply keeping_bind; [apply still_keeping; still_tac|intros _].
  apply keeping_bind; [apply still_keeping; still_tac|intros _]. apply keeping_on_store, ssound_SetParams.
Qed.
Lemma keeping_Emergency ctx msg : keeping (B:=B) (C:=C) (I:=I) (G:=G) (SetEmergencyRedemption authority ctx msg).
Proof.
  unfold SetEmergencyRedemption. apply keeping_bind; [apply still_keeping; still_tac|intros _].
  apply keeping_bind; [apply still_keeping; still_tac|intros p].
  apply keeping_bind; [apply keeping_on_store, ssound_SetParams|intros _]. apply still_keeping. still_tac.
Qed.

(** ** Registration, removal and onboarding *)
Lemma new_institution_ok ctx id license admin va vapi bond t : id_ok id → is_bech32 admin = true →
  t = INSTITUTION_TYPE_FINANCIAL ∨ t = INSTITUTION_TYPE_FX → institution_ok (new_institution ctx id license admin va vapi bond t).
Proof. intros Hid Ha Ht. constructor; cbn; try done; by exists 0. Qed.
Lemma set_new_sound i (s s' : St) u : institution_ok i → HasPendingRemoval (is_store s) (inst_Id i) = false →
  on_store (SetInstitution i) s = (Ok u, s') → sound (is_store s) (is_store s').
Proof. intros Hi Hn Hr. unfold on_store, SetInstitution, write in Hr. go_inv. by apply put_institution. Qed.
Lemma keeping_Register ctx msg : MsgRegisterInstitution_ValidateBasic msg = Ok tt →
  keeping (B:=B) (C:=C) (G:=G) (RegisterInstitution (I:=I) authority ctx msg).
Proof.
  intros Hv. assert (id_ok (reg_Id msg) ∧ is_bech32 (reg_Admin msg) = true ∧
    (reg_InstitutionType msg = INSTITUTION_TYPE_FINANCIAL ∨ reg_InstitutionType msg = INSTITUTION_TYPE_FX)) as (Hid & Ha & Ht).
  { unfold MsgRegisterInstitution_ValidateBasic, valid_addr, not_empty, valid_type in Hv.
    apply obind_Ok in Hv as ([] & _ & Hv). apply obind_Ok in Hv as ([] & Ha & Hv). apply obind_Ok in Hv as ([] & Hne & Hv).
    apply obind_Ok in Hv as ([] & Hl & Hv). apply obind_Ok in Hv as ([] & _ & Hv). apply obind_Ok in Hv as ([] & Ht & _). go_inv. bool_prop.
    split_and!; [|done|].
    - unfold id_ok. split; [|lia]. pose proof (strlen_nonneg (reg_Id msg)). destruct (Z.eq_dec (strlen (reg_Id msg)) 0) as [E%strlen_0|]; [done|lia].
    - rename select (_ || _ = true) into Ho. apply orb_true_iff in Ho as [Ho|Ho]; bool_prop; auto. }
  unfold RegisterInstitution. apply keeping_bind; [apply still_keeping; still_tac|intros ok].
  do 3 (apply keeping_bind; [apply still_keeping; still_tac|intros _]). intros s a s' Hr. go_inv.
  rename select (on_store _ _ = _) into Hset. apply set_new_sound in Hset; [|by apply new_institution_ok|done].
  rename select (EmitEvent _ _ = _) into He. apply still_EmitEvent in He. by rewrite He.
Qed.
Lemma fx_institution_ok ctx r : fx_ok r → institution_ok (new_institution ctx (fx_FxId r) (fx_License r) (fx_Applicant r) "" "" "0" INSTITUTION_TYPE_FX).
Proof. intros [Hid Ha _ _]. apply new_institution_ok; auto. Qed.
Lemma GetFxRequest_ok st id r : records_ok st → GetFxRequest st id = Ok (Some r) → fx_ok r ∧ fx_FxId r = id.
Proof.
  intros Hok Hg. unfold GetFxRequest in Hg. destruct (st !! FxRequestKey id) as [v|] eqn:Hv; [|done].
  pose proof (ro_record _ Hok _ _ Hv) as Hr. apply record_fx in Hr as (r' & Hr' & Ek & ->); [|apply has_prefix_app].
  cbn in Hg. injection Hg as ->. split; [done|]. by apply str_app_inj_l in Ek.
Qed.
Lemma keeping_RequestFx ctx msg : MsgRequestFxEntry_ValidateBasic msg = Ok tt → keeping (B:=B) (C:=C) (I:=I) (G:=G) (RequestFxEntry ctx msg).
Proof.
  intros Hv. assert (fx_ok (mkFxEntryRequest (rq_FxId msg) (rq_Applicant msg) (rq_License msg) (rq_GuarantorId msg) FX_ENTRY_REQUESTED)) as Hfx.
  { unfold MsgRequestFxEntry_ValidateBasic, valid_addr, not_empty in Hv. go_inv. bool_prop. constructor; cbn; [|done|done|by left].
    split; [|lia]. pose proof (strlen_nonneg (rq_FxId msg)). destruct (Z.eq_dec (strlen (rq_FxId msg)) 0) as [E%strlen_0|]; [done|lia]. }
  unfold RequestFxEntry. repeat first [apply keeping_bind; [apply still_keeping; by still_tac|intros ?]].
  apply keeping_bind; [apply keeping_on_store; by apply ssound_SetFxRequest|intros _]. apply still_keeping. still_tac.
Qed.
Lemma keeping_fetch_fx {A} id (f : FxEntryRequest → M St A) : (∀ r, fx_ok r → keeping (f r)) →
  keeping (o ← read (λ st, GetFxRequest st id); req ← or_fail o ErrFxOnboarding; f req).
Proof.
  intros Hf s a s' Hr Hok. unfold read in Hr. go_inv. rename select (GetFxRequest _ _ = _) into Hg. apply GetFxRequest_ok in Hg as [Hfx _]; [|done]. by eapply Hf.
Qed.
Lemma keeping_GuaranteeFx ctx msg : keeping (B:=B) (C:=C) (I:=I) (G:=G) (GuaranteeFxEntry ctx msg).
Proof.
  unfold GuaranteeFxEntry. apply keeping_fetch_fx. intros r Hr.
  do 3 (apply keeping_bind; [apply still_keeping; still_tac|intros ?]). destruct (negb (gu_Approve msg)).
  - apply keeping_bind; [apply keeping_on_store, ssound_DeleteFxRequest|intros _]. apply still_keeping. still_tac.
  - apply keeping_bind; [apply keeping_on_store, ssound_SetFxRequest|intros _; apply still_keeping; still_tac]. destruct Hr. constructor; try done. by right.
Qed.
Lemma keeping_FinalizeFx ctx msg : keeping (B:=B) (C:=C) (I:=I) (FinalizeFxEntry (G:=G) authority ctx msg).
Proof.
  unfold FinalizeFxEntry. apply keeping_bind; [apply still_keeping; still_tac|intros p]. apply keeping_bind; [apply still_keeping; still_tac|intros _].
  intros s a s' Hr Hok. apply bind_Ok in Hr as (o & s1 & Ho & Hr). unfold read in Ho. go_inv.
  rename select (GetFxRequest _ _ = _) into Hfx. apply GetFxRequest_ok in Hfx as [Hfx Hid]; [|done].
  match goal with Hx : (if _ then _ else _) _ = _ |- _ => rename Hx into Hp end.
  match type of Hp with ?m _ = _ => assert (still m) as Hc by still_tac end. apply Hc in Hp.
  rename select (on_store (SetInstitution _) _ = _) into Hset. rename select (on_store (DeleteFxRequest _) _ = _) into Hdel.
  rename select (EmitEvent _ _ = _) into He. apply still_EmitEvent in He.
  apply set_new_sound in Hset; [|by apply fx_institution_ok|cbn; by rewrite Hp, Hid].
  apply (keeping_on_store _ (ssound_DeleteFxRequest _)) in Hdel. rewrite He. rewrite Hp in Hset.
  destruct (Hset Hok) as [Hok2 L2]. destruct (Hdel Hok2) as [Hok3 L3]. split; [done|]. intros id' Hi. auto.
Qed.
Lemma Remove_records ctx msg (s s' : St) a :
  records_ok (is_store s) → RemoveInstitution authority ctx msg s = (Ok a, s') → records_ok (is_store s').
Proof.
  intros Hok Hr. unfold RemoveInstitution in Hr. apply bind_Ok in Hr as (ok & s1 & H1' & Hr). apply still_canManageRegistry in H1'.
  apply bind_Ok in Hr as (u & s2 & [_ ->]%fail_if_Ok & Hr). apply bind_Ok in Hr as (i & s3 & Hi & Hr).
  unfold the_institution, read in Hi. go_inv. rename select (GetInstitution _ _ = _) into Hg. rewrite H1' in Hg.
  apply GetInstitution_ok in Hg as (Hi & Hid & _); [|done]. pose proof (io_id _ Hi) as Hid'. rewrite Hid in Hid'.
  rename select (on_store (removeInstitutionSingleRecords _) _ = _) into Hrm. rename select (on_store (enqueueRemoval _) _ = _) into Hq.
  rename select (EmitEvent _ _ = _) into He. apply still_EmitEvent in He. rewrite He.
  unfold on_store, enqueueRemoval, write in Hq. go_inv. unfold on_store, removeInstitutionSingleRecords, Delete in Hrm. go_inv. cbn [is_store].
  rewrite H1', (delete_delete _ (AdminEpochKey (rem_Id msg)) (InstitutionKey (rem_Id msg))),
    (delete_delete _ (LastAttestorKey (rem_Id msg)) (InstitutionKey (rem_Id msg))).
  apply remove_sound; [done|]. eapply (delete_prefixed _ 161); [lia..|apply has_prefix_app|]. eapply (delete_prefixed _ 112); [lia..|apply has_prefix_app|done].
Qed.

(** ** Minting and redeeming *)
Lemma still_mint_gates ctx i msg : still (B:=B) (C:=C) (I:=I) (G:=G) (mint_gates ctx i msg).
Proof. unfold mint_gates. still_tac. Qed.
Lemma still_assertSolvency : still (B:=B) (C:=C) (I:=I) (G:=G) assertSolvency.
Proof. unfold assertSolvency. still_tac. Qed.
#[local] Hint Resolve still_assertSolvency : records.
Lemma keeping_mint_approved i msg t : id_ok (inst_Id i) → keeping (B:=B) (C:=C) (I:=I) (G:=G) (mint_approved i msg t).
Proof.
  intros Hi. unfold mint_approved. apply keeping_bind; [apply still_keeping; still_tac|intros p]. destruct (negb _); [apply still_keeping; still_tac|].
  apply keeping_bind; [by apply keeping_trySensitive|intros r]. destruct (negb (executed r)); [apply still_keeping; still_tac|].
  apply keeping_bind; [apply keeping_on_store, ssound_clearApprovals|intros _]. apply still_keeping. still_tac.
Qed.
Lemma still_mint_coins ctx msg uphi r : still (B:=B) (C:=C) (I:=I) (G:=G) (mint_coins ctx msg uphi r).
Proof. unfold mint_coins, emitRevenue. still_tac. Qed.
Lemma with_vault_ok i v : institution_ok i → 0 ≤ v → in_range v → institution_ok (with_vault i (Int_String v)).
Proof. intros [? ? ? ? ? ?] Hv Hin. constructor; try done. exists v. split; [by apply NewIntFromString_String|done]. Qed.
Lemma vault_nonneg_ok i : institution_ok i → 0 ≤ mustInt (inst_VaultBalance i).
Proof. intros Hi. destruct (io_vault _ Hi) as (z & Hz & H0'). unfold mustInt. by rewrite Hz. Qed.
Lemma keeping_Mint ctx msg : keeping (B:=B) (C:=C) (I:=I) (G:=G) (InstitutionMint ctx msg).
Proof.
  unfold InstitutionMint. apply keeping_the_institution. intros i Hi. pose proof (io_id _ Hi) as Hid. pose proof (vault_nonneg_ok _ Hi) as Hv0.
  apply keeping_at_bind; [done|apply keeping_here, still_keeping, still_mint_gates|intros _].
  apply (keeping_at_post _ (λ '(toman, _, nv, _), 0 < toman ∧ nv = mustInt (inst_VaultBalance i) + toman ∧ in_range nv)).
  { intros s [[[t u] nv] r] s' Hr. by apply mint_amounts_facts in Hr as (-> & _). }
  { intros s [[[t u] nv] r] s' Hr. by apply mint_amounts_facts in Hr as (_ & _ & ? & _ & _ & ? & ? & _). }
  intros [[[toman uphi] nv] recipient] (Ht & Hnv & Hin).
  apply keeping_at_bind; [done|by apply keeping_here, keeping_mint_approved|intros approved]. destruct (negb approved); [at_still|].
  apply keeping_at_bind; [done|apply keeping_here, still_keeping, still_mint_coins|intros [fee cust]].
  apply keeping_at_bind; [done| |intros _; at_still].
  unfold mint_records. apply keeping_at_bind; [done|apply keeping_set; [apply with_vault_ok; [done|lia|done]|done]|intros _].
  apply keeping_at_bind; [done|apply keeping_here, keeping_on_store, ssound_addMintCounters; lia|intros _]. at_store ssound_markDeposit.
Qed.
Lemma keeping_redeem_records ctx i msg holder toman uphi split : institution_ok i → 0 ≤ TomanOut split ≤ mustInt (inst_VaultBalance i) → 0 ≤ toman → 0 ≤ uphi →
  keeping_at (B:=B) (C:=C) (I:=I) (G:=G) (inst_Id i) (redeem_records ctx i msg holder toman uphi split).
Proof.
  intros Hi Ht H0' Hu. pose proof (io_id _ Hi) as Hid. unfold redeem_records.
  apply (keeping_at_post _ (λ v, v = mustInt (inst_VaultBalance i) - TomanOut split ∧ in_range v)); [auto with records| |intros v [-> Hin]].
  { intros s v s' [[-> Hin]%Int_checked_Ok ->]%lift_Ok. done. }
  apply keeping_at_bind; [done|apply keeping_set; [apply with_vault_ok; [done|lia|done]|done]|intros _].
  apply keeping_at_bind; [done|unfold emitRevenue; at_still|intros _]. apply keeping_at_bind; [done|at_still|intros pens].
  apply keeping_at_bind; [done|unfold emitRevenue; at_still|intros _]. apply keeping_at_bind; [done|at_still|intros ident].
  apply keeping_at_bind; [done|apply keeping_here, keeping_on_store; by apply ssound_addRedeemCounters|intros _]. at_store ssound_markDeposit.
Qed.
Lemma Redeem_records ctx msg (s s' : St) r : solvent_state s → records_ok (is_store s) →
  InstitutionRedeem ctx msg s = (Ok r, s') → records_ok (is_store s').
Proof.
  intros Hs Hok Hr. apply redeem_decompose in Hr
    as (i & s0 & toman & uphi & holder & split & s1 & s2 & Hb & Hst & _ & Hi & Hid & Ha & Hsp & Hc & Hrec & Hb' & Hst' & _); [|done].
  apply redeem_amounts_facts in Ha as (_ & _ & Ht & _ & Hm & Hu & _). rewrite Hst'.
  assert (institution_ok i) as Hio.
  { pose proof (ro_record _ Hok _ _ Hi) as Hr. apply record_institution in Hr as (j & Hj & _ & [= <-]); [done|apply has_prefix_InstitutionKey]. }
  assert (0 < TomanOut split ≤ toman) as Hout.
  { eapply redeem_balanced in Hrec as (_ & _ & _ & Hout & _); [exact Hout|..|exact Hc]; rewrite ?Hst; try done; unfold solvent_state in *; by rewrite ?Hb, ?Hst. }
  apply redeem_coins_supply in Hc as (_ & Hst1 & _).
  apply keeping_redeem_records in Hrec; [|done|lia|lia|lia|]; rewrite Hst1, Hst in *; [by apply Hrec|].
  unfold inst_at in Hi. unfold HasInstitution, Has. rewrite Hi. by apply bool_decide_eq_true_2.
Qed.

(** ** Chains of validated messages *)
Definition InstMsg_ValidateBasic (msg : InstMsg) : outcome unit :=
  match msg with
  | MRegister m => MsgRegisterInstitution_ValidateBasic m
  | MRemove m => MsgRemoveInstitution_ValidateBasic m
  | MFreeze m => MsgFreezeInstitution_ValidateBasic m
  | MPublish m => MsgPublishInstitutionAttestation_ValidateBasic m
  | MMint m => MsgInstitutionMint_ValidateBasic m
  | MRedeem m => MsgInstitutionRedeem_ValidateBasic m
  | MUpdateParams m => MsgUpdateParams_ValidateBasic m
  | MEmergency m => MsgSetEmergencyRedemption_ValidateBasic m
  | MGrant m => MsgGrantInstitutionRole_ValidateBasic m
  | MRevoke m => MsgRevokeInstitutionRole_ValidateBasic m
  | MAppConfig m => MsgUpdateInstitutionAppConfig_ValidateBasic m
  | MInstParams m => MsgUpdateInstitutionParams_ValidateBasic m
  | MDepositKey m => MsgSetInstitutionDepositKey_ValidateBasic m
  | MRequestFx m => MsgRequestFxEntry_ValidateBasic m
  | MGuaranteeFx m => MsgGuaranteeFxEntry_ValidateBasic m
  | MFinalizeFx m => MsgFinalizeFxEntry_ValidateBasic m
  end.

(** the steps of a chain whose messages passed [ValidateBasic] *)
Inductive checked_step : St → St → Prop :=
| checked_msg ctx msg s : msg_typed msg → InstMsg_ValidateBasic msg = Ok tt → checked_step s (deliver (handle authority ctx msg) s)
| checked_begin_block ctx s : checked_step s (deliver (BeginBlock ctx) s)
| checked_rest s s' : chain_step authority s s' → is_store s' = is_store s → checked_step s s'.
Inductive checked_reachable (s0 : St) : St → Prop :=
| checked_init : checked_reachable s0 s0
| checked_next s s' : checked_reachable s0 s → checked_step s s' → checked_reachable s0 s'.

Lemma checked_chain_step s s' : checked_step s s' → chain_step authority s s'.
Proof. intros [ctx msg s1 Ht _|ctx s1|s1 s2 Hs _]; [by constructor|constructor|done]. Qed.
Lemma checked_chain s0 s : checked_reachable s0 s → chain_reachable authority s0 s.
Proof. induction 1 as [|s s' _ IH Hs]; [constructor|]. eapply chain_next; [exact IH|by apply checked_chain_step]. Qed.

Lemma keeping_BeginBlock ctx : keeping (B:=B) (C:=C) (I:=I) (G:=G) (BeginBlock ctx).
Proof.
  unfold BeginBlock. apply keeping_bind; [apply keeping_on_store; intros st [] st'; apply prune_sound|intros _].
  apply keeping_on_store. intros st [] st' <-%modify_Ok. apply sweep_sound.
Qed.
Lemma handle_records ctx msg s s' : InstMsg_ValidateBasic msg = Ok tt → solvent_state s → records_ok (is_store s) →
  handle authority ctx msg s = (Ok tt, s') → records_ok (is_store s').
Proof.
  intros Hv Hs Hok Hr. destruct msg; cbn [handle InstMsg_ValidateBasic] in *.
  2: by eapply Remove_records.
  5: apply then_ret in Hr as [a Hr]; by eapply Redeem_records.
  4,7,8,9,10,11: apply then_ret in Hr as [a Hr].
  all: match type of Hr with ?m _ = _ => assert (keeping m) as Hk; [|by apply Hk in Hr as [? _]] end.
  - by apply keeping_Register.
  - apply keeping_Freeze.
  - apply keeping_Publish.
  - apply keeping_Mint.
  - by apply keeping_Grant.
  - apply keeping_Revoke.
  - apply keeping_AppConfig.
  - by apply keeping_InstParams.
  - apply keeping_DepositKey.
  - apply keeping_UpdateParams.
  - apply keeping_Emergency.
  - by apply keeping_RequestFx.
  - apply keeping_GuaranteeFx.
  - apply keeping_FinalizeFx.
Qed.
Lemma checked_step_records s s' : checked_step s s' → solvent_state s → records_ok (is_store s) → records_ok (is_store s').
Proof.
  intros [ctx msg s1 _ Hv|ctx s1|s1 s2 _ Hst] Hs Hok.
  - destruct (deliver_run (handle authority ctx msg) s1) as [->|[[] Hr]]; [done|by eapply handle_records].
  - destruct (deliver_run (BeginBlock ctx) s1) as [->|[[] Hr]]; [done|]. by apply keeping_BeginBlock in Hr as [? _].
  - by rewrite Hst.
Qed.
Lemma checked_records s0 s : checked_reachable s0 s → solvent_state s0 → records_ok (is_store s0) → records_ok (is_store s).
Proof.
  intros Hr Hs Hok. induction Hr as [|s s' Hr IH Hstep]; [done|]. eapply checked_step_records; [exact Hstep| |done].
  eapply chain_solvent; [by apply checked_chain|done].
Qed.

(** ** The imported chain is solvent *)
Lemma settled_core st gs : records_ok st → exports st gs → same_core st (settled st).
Proof.
  intros Hok Hex. split.
  - intros k Hk. unfold settled. rewrite lookup_union.
    assert (∃ z, 0 ≤ z < 256 ∧ (z ∉ [32; 48; 160; 176; 144]) ∧ z ≠ 161 ∧ has_prefix (key_prefix z) k = true) as (z & Hz & Hn & Hne & Hpre).
    { destruct Hk as [->|Hk]; [exists 0|exists 16]; (split_and!; [lia..|set_solver|lia|done]). }
    rewrite (attestors_None st gs Hok Hex z k) by done. rewrite (right_id_L None _).
    unfold carried. destruct (st !! k) as [v|] eqn:Hv; [|by apply map_lookup_filter_None; left].
    apply map_lookup_filter_Some. split; [done|]. by eapply not_dropped.
  - intros Hfx k v Hk Hpre. apply Hfx; [|done]. unfold settled in Hk. apply lookup_union_Some_raw in Hk as [[Hk _]%carried_Some|[_ Hk]]; [done|].
    rewrite (attestors_None st gs Hok Hex 96 k) in Hk; [done|lia..|done].
Qed.
Lemma settled_has_institution st gs id : records_ok st → exports st gs → HasInstitution (settled st) id = HasInstitution st id.
Proof. intros Hok Hex. by apply HasInstitution_core, (settled_core st gs). Qed.
Lemma settled_records st gs : records_ok st → exports st gs → records_ok (settled st).
Proof.
  intros Hok Hex. assert (∀ id, HasPendingRemoval (settled st) id = false) as Hq.
  { intros id. apply bool_decide_eq_false. intros [v Hv]. apply lookup_union_Some_raw in Hv as [[_ Hv]%carried_Some|[_ Hv]].
    - unfold dropped, RemovalQueueKey in Hv. by rewrite has_prefix_app in Hv.
    - rewrite (attestors_None st gs Hok Hex 176) in Hv; [done|lia..|apply has_prefix_app]. }
  constructor.
  - intros k v [[Hk _]%carried_Some|[_ Hk]]%lookup_union_Some_raw; [by apply (ro_record _ Hok)|].
    apply (attestors_Some st gs Hok Hex) in Hk as (i & Hi & -> & ->). destruct (admin_text st gs Hok Hex i Hi) as [Ha Hio].
    constructor; [apply (io_id _ Hio)|by eapply decode_valid].
  - intros id a v Hid Hk. left. rewrite (settled_has_institution st gs) by done.
    apply lookup_union_Some_raw in Hk as [[Hk Hd]%carried_Some|[_ Hk]].
    + destruct (ro_role _ Hok _ _ _ Hid Hk) as [?|Hpend]; [done|]. exfalso. apply (pending_key st Hok) in Hpend; [|done].
      rewrite (dropped_ranged st 32) in Hd; [|set_solver|apply has_prefix_app]. unfold RoleKey, RolePrefix in Hd.
      rewrite of_pending_key in Hd by (unfold id_ok, MaxInstitutionIDLen in Hid; lia). by apply bool_decide_eq_false in Hd.
    + rewrite (attestors_None st gs Hok Hex 32) in Hk; [done|lia..|apply has_prefix_app].
  - intros id _. by rewrite Hq.
Qed.
Lemma invariants_hold (s : St) : solvent_state s → GetSupply (is_bank s) < 2 ^ 190 → AllInvariants (s : St) = Ok false.
Proof.
  intros Hs Hb. unfold AllInvariants. rewrite SolvencyInvariant_solvent; [|done|split; [by apply solvent_supply_nonneg|done]].
  cbn [mbind outcome_bind]. by rewrite NonNegativeVault_wf by apply Hs.
Qed.
Definition with_inst_store (s : St) (st : InstStore) : St := mkInstState (is_bank s) (is_coin s) (is_ident s) (is_gov s) st (is_events s).

(** C21: an exported chain starts again as it was.  On a chain that started with solvent
    books and sound records and ran validated messages and block hooks in any order, when
    no institution's cap is below the redemption floor, no onboarding request bears the id
    of an institution and every attestation date is set and not in the future, the export
    succeeds, the exported genesis is valid at that time, and importing it on the same bank
    into an empty store succeeds: the importer has exactly the records of the exporter,
    except that pending removals are complete, the pruning cursor starts over and an
    institution without a recorded attestor has its admin as attestor.  The books are
    solvent and the records sound again. *)
Theorem inst_genesis_settles `{!AddressText} s0 s p ctx :
  solvent_state s0 → records_ok (is_store s0) → checked_reachable s0 s →
  is_store s !! ParamsKey = Some (VParams p) → importable (BlockTime ctx) (is_store s) p → GetSupply (is_bank s) < 2 ^ 190 →
  ∃ gs, Inst_ExportGenesis (is_store s) = Ok gs ∧ ValidateAtTime gs (BlockTime ctx) = Ok tt ∧
    Inst_InitGenesis ctx gs (with_inst_store s ∅) = (Ok tt, with_inst_store s (settled (is_store s))) ∧
    solvent_state (with_inst_store s (settled (is_store s))) ∧ records_ok (settled (is_store s)).
Proof.
  intros Hs0 Hok0 Hr Hk Him Hb. pose proof (checked_records _ _ Hr Hs0 Hok0) as Hok.
  assert (solvent_state s) as Hs by (eapply chain_solvent; [by apply checked_chain|done]).
  assert (GetParams (is_store s) = Ok p) as Hp by (unfold GetParams; by rewrite Hk).
  destruct (export_spec _ Hok _ Hp) as (gs & He & Hex). exists gs. pose proof (ex_params _ _ Hex) as Hg. rewrite Hp in Hg. injection Hg as ->.
  assert (solvent_state (with_inst_store s (settled (is_store s)))) as Hs'.
  { eapply solvent_keeps; [exact Hs|]. by eapply same_core_keeps, settled_core. }
  split_and!; [done|by eapply inst_exported_valid| |done|by eapply settled_records]. unfold Inst_InitGenesis, on_store.
  erewrite run_bind by (apply zoom_Ok; eexists; split; [by eapply import_settles|done]). unfold mbind, M_bind, query.
  pose proof (invariants_hold _ Hs' Hb) as Hi. unfold with_inst_store in *. cbn [is_bank is_coin is_ident is_gov is_events] in *. by rewrite Hi.
Qed.
End handlers.

(** ** A chain that is exported and imported

    Two institutions; the first mints, the second is removed and still has a role grant
    when the chain is exported. *)
Module GenesisDemo.
Export HexCodec.
Definition start : DemoState := mkInstState (demo_bank 0) ∅ tt (Some tt) {[ParamsKey := VParams DefaultParams]} [].
Definition grant (signer institution grantee : string) (role : Z) : InstMsg := MGrant (mkMsgGrant signer institution grantee role).
Definition register_as (id admin : string) : InstMsg :=
  MRegister (mkMsgRegister "a0" id "licence" admin "" "" "" INSTITUTION_TYPE_FINANCIAL).
Definition script : list InstMsg :=
  [ register_as "bank" "a1"; register_as "old" "a2";
    grant "a1" "bank" "b1" INSTITUTION_ROLE_ADMIN;
    grant "a1" "bank" "b2" INSTITUTION_ROLE_OPERATOR; grant "b1" "bank" "b2" INSTITUTION_ROLE_OPERATOR;
    grant "a1" "bank" "b3" INSTITUTION_ROLE_COMPLIANCE; grant "b1" "bank" "b3" INSTITUTION_ROLE_COMPLIANCE;
    grant "a2" "old" "c1" INSTITUTION_ROLE_VIEWER;
    MPublish (mkMsgPublish "b3" "bank" "1000000" "");
    MMint (mkMsgMint "b2" "bank" "d1" "500000" "" "ref" "" "" "" 0);
    MRemove (mkMsgRemove "a0" "old") ].
Definition run (l : list InstMsg) (s : DemoState) : DemoState := foldl (λ s m, deliver (handle "a0" CoinKeeper.demo_ctx m) s) s l.
Definition exported : DemoState := Eval vm_compute in run script start.

Lemma start_only k v : is_store start !! k = Some v → k = ParamsKey ∧ v = VParams DefaultParams.
Proof. change (is_store start) with ({[ParamsKey := VParams DefaultParams]} : InstStore). by intros [<- <-]%lookup_singleton_Some. Qed.
Lemma start_solvent : solvent_state start.
Proof.
  split; [|done]. constructor.
  - exists DefaultParams. split_and!; [done|by vm_compute|done..].
  - intros k v [-> ->]%start_only Hp. discriminate Hp.
  - intros k v [-> ->]%start_only Hp. discriminate Hp.
Qed.
Lemma start_records : records_ok (is_store start).
Proof.
  constructor.
  - intros k v [-> ->]%start_only. by constructor.
  - by intros id addr v _ [[=] _]%start_only.
  - by intros id _ [v [[=] _]%start_only]%bool_decide_eq_true.
Qed.
Lemma run_checked l s0 s : Forall msg_typed l → Forall (λ m, InstMsg_ValidateBasic m = Ok tt) l →
  checked_reachable "a0" s0 s → checked_reachable "a0" s0 (run l s).
Proof.
  intros Ht Hv. revert s. induction Ht as [|m l Hm Ht IH]; intros s Hs; [done|]. inversion_clear Hv. apply IH; [done|].
  eapply checked_next; [exact Hs|by constructor].
Qed.
Lemma exported_checked : checked_reachable "a0" start exported.
Proof.
  change exported with (run script start). apply run_checked; [by repeat constructor|by repeat constructor|constructor].
Qed.

(** whether the records of a store can be imported, by evaluation *)
Definition importable_record (now : Z) (st : InstStore) (p : Params) (v : inst_val) : bool :=
  match v with
  | VInstitution i => bool_decide (RedeemCapsBelowFloor (inst_Params i) (CapInt (RedeemFloorPerTx p)) = None) &&
      (0 <? inst_LastAttestedAt i) && (inst_LastAttestedAt i <=? now)
  | VFxRequest r => negb (HasInstitution st (fx_FxId r))
  | _ => true
  end.
Lemma importable_by now st p : 0 ≤ em_StartedAt (EmergencyRedemptionP p) ≤ now →
  forallb (λ kv, importable_record now st p kv.2) (map_to_list st) = true → importable now st p.
Proof.
  intros Hs Hf. rewrite forallb_forall in Hf.
  assert (∀ k v, st !! k = Some v → importable_record now st p v = true) as Ha.
  { intros k v Hk. apply (Hf (k, v)). by apply list_elem_of_In, elem_of_map_to_list. }
  constructor; [| |done|].
  - intros i Hi%Ha. cbn in Hi. rewrite !andb_true_iff, bool_decide_eq_true in Hi. apply Hi.
  - intros q Hq%Ha. cbn in Hq. by apply negb_true_iff.
  - intros i Hi%Ha. cbn in Hi. rewrite !andb_true_iff, Z.ltb_lt, Z.leb_le in Hi. lia.
Qed.
Lemma exported_importable : importable (BlockTime CoinKeeper.demo_ctx) (is_store exported) DefaultParams.
Proof. apply importable_by; [by vm_compute|vm_compute; reflexivity]. Qed.

(** ** Two defects of the export

    Validation demands of a genesis what the message server does not keep. *)

(** governance raises the redemption floor above a cap an institution already has *)
Definition capped : InstitutionParams := mkInstParams (mkCaps "" "" "" "" "150000" "") [] (mkAutoSuspend 0) "" 0.
Definition raised : Params :=
  mkParams "" DefaultPhiToToman "200000" zero_emergency "" "" "" "" DefaultRedeemDailyCapPerDidUphi DefaultProtocolFeeBps
    DefaultMaxAttestationStalenessSeconds.
Definition floor_script : list InstMsg :=
  [register_as "bank" "a1"; MInstParams (mkMsgInstParams "a1" "bank" capped); MUpdateParams (mkMsgUpdateParams "a0" raised)].
(** an institution is registered under an id for which an onboarding request is open *)
Definition fx_script : list InstMsg :=
  [register_as "bank" "a1"; MRequestFx (mkMsgRequestFx "c1" "fx1" "licence" "bank"); register_as "fx1" "c1"].
Definition reexport (l : list InstMsg) : outcome unit :=
  gs ← Inst_ExportGenesis (is_store (run l start)); ValidateAtTime gs (BlockTime CoinKeeper.demo_ctx).
End GenesisDemo.
Import HexCodec.

(** The export of a live chain can be invalid.  After two runs of messages that all
    succeed, the exported genesis does not pass validation: governance may raise the
    redemption floor above the caps of an institution, and an institution may be
    registered under an id for which an onboarding request is open. *)
Theorem export_can_be_invalid :
  GenesisDemo.reexport GenesisDemo.floor_script = Err (Plain "institution cap is below the protocol redeem floor") ∧
  GenesisDemo.reexport GenesisDemo.fx_script = Err (Plain "fx_request: fx_id is already a registered institution").
Proof. split; vm_compute; reflexivity. Qed.

Lemma inst_genesis_settles_witness : ∃ gs,
  Inst_ExportGenesis (is_store GenesisDemo.exported) = Ok gs ∧
  Inst_InitGenesis CoinKeeper.demo_ctx gs (with_inst_store GenesisDemo.exported ∅) =
    (Ok tt, with_inst_store GenesisDemo.exported (settled (is_store GenesisDemo.exported))) ∧
  size (is_store GenesisDemo.exported) = 12%nat ∧ size (settled (is_store GenesisDemo.exported)) = 10%nat.
Proof.
  destruct (inst_genesis_settles "a0" GenesisDemo.start GenesisDemo.exported DefaultParams CoinKeeper.demo_ctx
    GenesisDemo.start_solvent GenesisDemo.start_records GenesisDemo.exported_checked eq_refl GenesisDemo.exported_importable)
    as (gs & He & _ & Hi & _); [by vm_compute|].
  exists gs. split_and!; [exact He|exact Hi|vm_compute; reflexivity|vm_compute; reflexivity].
Defined.
