(* ===== verification/InstBoot.v ===== *)
(** * The genesis command of the institutions

    [cmd/phid/cmd/genesis_institution.go]: [phid genesis add-institution] adds an institution
    to the genesis of x/institutions and, on request, gives its vault exactly what backs the
    coin of the genesis accounts.  The genesis file is its decoded contents: the genesis of
    x/institutions and the balances of the genesis of x/bank. *)
From stdpp Require Import base gmap strings list fin_maps sorting.
From Stdlib Require Import ZArith Lia.
From S2P Require Import Prelude GoInt KVStore StoreEntry Interfaces CoinTypes CoinKeeper InstTypes InstServer InstKeeper InstSplit InstMint InstSolvency InstInvariant InstDemo InstSweep InstGenesis InstRestore PhiDid InstRecords.

(** ** The command *)
Record InstitutionFlags := mkFlags {
  fl_License : string; fl_VaultAccount : string; fl_VaultAPI : string; fl_Bond : string; fl_VaultBalance : string;
  fl_Attested : string; fl_BackSupply : bool; fl_AsOperator : bool }.
Definition DefaultFlags : InstitutionFlags := mkFlags "GENESIS-BOOTSTRAP" "" "" "0" "" "" false false.

Definition with_rate (p : Params) (rate : Z) : Params :=
  mkParams (Operator p) rate (RedeemFloorPerTx p) (EmergencyRedemptionP p) (PenaltyDestinationP p) (LargeMintThresholdToman p)
    (MintCeilingPerTx p) (MintCeilingDaily p) (RedeemDailyCapPerDidUphi p) (ProtocolFeeBps p) (MaxAttestationStalenessSeconds p).
Definition with_operator (p : Params) (op : string) : Params :=
  mkParams op (PhiToToman p) (RedeemFloorPerTx p) (EmergencyRedemptionP p) (PenaltyDestinationP p) (LargeMintThresholdToman p)
    (MintCeilingPerTx p) (MintCeilingDaily p) (RedeemDailyCapPerDidUphi p) (ProtocolFeeBps p) (MaxAttestationStalenessSeconds p).

(** the vault balance that backs the coin of the genesis accounts *)
Definition backing_balance (phiToToman : Z) (balances : list Z) : outcome string :=
  supply ← ofold Int_Add balances 0;
  num ← Int_Mul supply phiToToman;
  rem ← Int_Mod num UphiPerPhi;
  err_if (negb (IsZero rem)) (Plain "genesis uphi supply is not divisible");;
  q ← Int_Quo num UphiPerPhi;
  Ok (Int_String q).
Definition genesis_institution (id admin vaultBalance attested : string) (f : InstitutionFlags) : Institution :=
  mkInstitution id (fl_License f) admin (if bool_decide (fl_VaultAccount f = "") then "vault-" +:+ id else fl_VaultAccount f)
    (fl_VaultAPI f) (fl_Bond f) INSTITUTION_STATUS_HEALTHY vaultBalance attested false zero_app_config zero_inst_params
    INSTITUTION_TYPE_FINANCIAL "" 0.

Section command.
Context `{AddressCodec}.
Definition AddInstitution (f : InstitutionFlags) (id admin : string) (balances : list Z) (gs : InstGenesisState)
    : outcome InstGenesisState :=
  err_if (bool_decide (id = "")) (Plain "institution id cannot be empty");;
  err_if (negb (is_bech32 admin)) (Plain "invalid admin address");;
  let phiToToman := if PhiToToman (ig_Params gs) =? 0 then DefaultPhiToToman else PhiToToman (ig_Params gs) in
  vaultBalance ← (if fl_BackSupply f then backing_balance phiToToman balances else Ok (fl_VaultBalance f));
  let vaultBalance := if bool_decide (vaultBalance = "") then "0" else vaultBalance in
  err_if (match NewIntFromString vaultBalance with Some v => IsNegative v | None => true end) (Plain "invalid vault-balance");;
  let attested := if bool_decide (fl_Attested f = "") then vaultBalance else fl_Attested f in
  err_if (existsb (λ i, bool_decide (inst_Id i = id)) (ig_Institutions gs)) (Plain "institution is already in genesis");;
  let params := with_rate (ig_Params gs) phiToToman in
  let gs' := mkInstGenesis (if fl_AsOperator f then with_operator params admin else params)
               (ig_Institutions gs ++ [genesis_institution id admin vaultBalance attested f]) (ig_RoleGrants gs) (ig_FxRequests gs)
               (ig_DepositMarkers gs) (ig_CapCounters gs) (ig_Approvals gs) (ig_StoreEntries gs) in
  InstGenesis_Validate gs';;
  Ok gs'.
End command.

(** ** Importing a valid genesis *)
Section import.
Context `{AddressCodecLaws}.
Definition vault_sum (l : list Institution) : Z := sumZ (λ i, mustInt (inst_VaultBalance i)) l.

Lemma new_vault st i z : inst_wf st → st !! InstitutionKey (inst_Id i) = None → NewIntFromString (inst_VaultBalance i) = Some z → 0 ≤ z →
  inst_wf (<[InstitutionKey (inst_Id i) := VInstitution i]> st) ∧
  total_vault (<[InstitutionKey (inst_Id i) := VInstitution i]> st) = total_vault st + mustInt (inst_VaultBalance i).
Proof.
  intros Hwf Hn Hz Hp. split; [by eapply SetInstitution_wf|]. unfold total_vault. rewrite map_sum_insert_new by done.
  unfold vault_at at 1. rewrite has_prefix_InstitutionKey. cbn [vault_of]. lia.
Qed.
Lemma attest_at_fields now i : inst_Id (attest_at now i) = inst_Id i ∧ inst_VaultBalance (attest_at now i) = inst_VaultBalance i.
Proof. unfold attest_at. by case_match. Qed.
Lemma prefixed_plain z k : 0 ≤ z < 256 → z ∉ [0; 16; 96] → has_prefix (key_prefix z) k = true → plain_key k.
Proof.
  intros Hz Hn Hp. assert (∀ w, 0 ≤ w < 256 → w ∈ [0; 16; 96] → has_prefix (key_prefix w) k = false) as Hw.
  { intros w Hw Hin. apply not_true_iff_false. intros Hp'. rewrite (prefix_bytes_distinct z w k) in Hn; [|done..]. done. }
  split; [|apply (Hw 96); [lia|set_solver]]. intros [->|Hk].
  - assert (has_prefix (key_prefix 0) ParamsKey = true) as E by done. rewrite (Hw 0) in E; [done|lia|set_solver].
  - change InstitutionPrefix with (key_prefix 16) in Hk. rewrite (Hw 16) in Hk; [done|lia|set_solver].
Qed.

(** the institutions, one after the other *)
Lemma checked_vault floor i : check_institution floor i = Ok tt →
  is_bech32 (inst_Admin i) = true ∧ ∃ z, NewIntFromString (inst_VaultBalance i) = Some z ∧ 0 ≤ z.
Proof.
  unfold check_institution. intros Hc. apply obind_Ok in Hc as ([] & Ha%err_if_Ok & Hc). apply obind_Ok in Hc as ([] & _ & Hc).
  apply obind_Ok in Hc as (z & Hz%or_err_Ok & Hc). apply obind_Ok in Hc as ([] & Hn%err_if_Ok & _).
  split; [by destruct (is_bech32 _)|]. exists z. split; [done|]. by apply Z.ltb_ge.
Qed.
Lemma import_one now floor i st : check_institution floor i = Ok tt → inst_wf st → st !! InstitutionKey (inst_Id i) = None →
  ∃ st', import_institution now i st = (Ok tt, st') ∧ inst_wf st' ∧ total_vault st' = total_vault st + mustInt (inst_VaultBalance i) ∧
    rate st' = rate st ∧ ∀ id, is_Some (st' !! InstitutionKey id) → id = inst_Id i ∨ is_Some (st !! InstitutionKey id).
Proof.
  intros ([a Ha]%bool_decide_eq_true & z & Hz & Hp)%checked_vault Hwf Hn. destruct (attest_at_fields now i) as [Ei Ev].
  destruct (new_vault st (attest_at now i) z) as [Hwf' Ht]; [done|by rewrite Ei|by rewrite Ev|done|].
  unfold import_institution. erewrite run_bind by done. rewrite Ha. eexists. split; [done|].
  assert (same_core (<[InstitutionKey (inst_Id (attest_at now i)) := VInstitution (attest_at now i)]> st)
    (<[LastAttestorKey (inst_Id i) := VBytes a]> (<[InstitutionKey (inst_Id (attest_at now i)) := VInstitution (attest_at now i)]> st))) as Hc
    by (apply same_core_insert, (prefixed_plain 161); [lia|set_solver|apply has_prefix_app]).
  destruct (same_core_keeps _ _ Hc Hwf') as (H1 & H2 & H3). split_and!; [done|by rewrite H2, Ht, Ev|by rewrite H3, rate_SetInstitution|].
  intros id Hid. rewrite (proj1 Hc) in Hid by (right; apply has_prefix_InstitutionKey).
  rewrite lookup_insert_is_Some' in Hid. destruct Hid as [E|?]; [left|by right]. apply InstitutionKey_inj in E. by rewrite <- E, Ei.
Qed.
Lemma import_institutions now floor l seen seen' st : validate_institutions floor seen l = Ok seen' → inst_wf st →
  (∀ id, is_Some (st !! InstitutionKey id) → id ∈ seen) →
  ∃ st', for_each l (import_institution now) st = (Ok tt, st') ∧ inst_wf st' ∧ total_vault st' = total_vault st + vault_sum l ∧ rate st' = rate st.
Proof.
  revert seen st. induction l as [|i l IH]; intros seen st Hv Hwf Hs; cbn [for_each validate_institutions] in *.
  { exists st. unfold vault_sum. cbn. split_and!; [done..|lia|done]. }
  do 2 apply obind_Ok in Hv as ([] & _ & Hv). apply obind_Ok in Hv as ([] & Hd%err_if_Ok & Hv). apply obind_Ok in Hv as ([] & Hc & Hv).
  apply bool_decide_eq_false in Hd. assert (st !! InstitutionKey (inst_Id i) = None) as Hn by (apply eq_None_not_Some; by intros ?%Hs).
  destruct (import_one now floor i st Hc Hwf Hn) as (st1 & E & Hwf1 & Ht1 & Hr1 & Hs1). erewrite run_bind by exact E.
  destruct (IH _ st1 Hv Hwf1) as (st2 & E2 & Hwf2 & Ht2 & Hr2); [intros id [->|Hid]%Hs1; [set_solver|apply Hs in Hid; set_solver]|].
  exists st2. unfold vault_sum in *. rewrite sumZ_cons. split_and!; [done..|lia|congruence].
Qed.
(** everything else leaves the books alone *)
Lemma quiet_loop {A} (f : A → M InstStore unit) l st : (∀ a s, a ∈ l → ∃ s', f a s = (Ok tt, s') ∧ same_core s s') →
  ∃ st', for_each l f st = (Ok tt, st') ∧ same_core st st'.
Proof.
  revert st. induction l as [|a l IH]; intros st Hf; cbn [for_each]; [by exists st|]. destruct (Hf a st) as (s1 & E & Hc); [left|].
  erewrite run_bind by exact E. destruct (IH s1) as (s2 & E2 & Hc2); [intros b s Hb; apply Hf; by right|]. exists s2. split; [done|by etrans].
Qed.
Lemma validated_roles seen roleSeen l : validate_roles seen roleSeen l = Ok tt → Forall (λ rg, is_bech32 (rg_Address rg) = true) l.
Proof.
  revert roleSeen. induction l as [|rg l IH]; intros roleSeen Hv; [constructor|]. cbn [validate_roles] in Hv.
  apply obind_Ok in Hv as ([] & _ & Hv). apply obind_Ok in Hv as ([] & Ha%err_if_Ok & Hv). do 2 apply obind_Ok in Hv as ([] & _ & Hv).
  constructor; [by destruct (is_bech32 _)|by eapply IH].
Qed.
Lemma quiet_roles l st : Forall (λ rg, is_bech32 (rg_Address rg) = true) l → ∃ st', for_each l import_role st = (Ok tt, st') ∧ same_core st st'.
Proof.
  rewrite Forall_forall. intros Hl. apply quiet_loop. intros rg s [a Ha]%Hl%bool_decide_eq_true. unfold import_role. rewrite Ha.
  eexists. split; [done|]. apply same_core_insert, (prefixed_plain 32); [lia|set_solver|apply has_prefix_app].
Qed.
Lemma quiet_fx l st : ∃ st', for_each l SetFxRequest st = (Ok tt, st') ∧ same_core st st'.
Proof.
  apply quiet_loop. intros r s _. eexists. split; [done|]. split.
  - intros k Hk. apply lookup_insert_ne. intros <-. destruct Hk as [Hk|Hk]; [done|]. unfold FxRequestKey in Hk.
    change InstitutionPrefix with (key_prefix 16) in Hk. assert (has_prefix (key_prefix 96) (FxRequestPrefix +:+ fx_FxId r) = true) as Hp by apply has_prefix_app.
    by pose proof (prefix_bytes_distinct 16 96 _ ltac:(lia) ltac:(lia) Hk Hp).
  - intros Hf k v [[<- <-]|[_ Hk]]%lookup_insert_Some Hp; [by exists r|by eapply Hf].
Qed.
Lemma quiet_entries z rules es st : 0 ≤ z < 256 → z ∉ [0; 16; 96] → (∀ r, r ∈ rules → rule_Prefix r = key_prefix z) → NoDup (rule_Prefix <$> rules) →
  Validate es rules = Ok tt → ∃ st', importStoreEntries (key_prefix z) es st = (Ok tt, st') ∧ same_core st st'.
Proof.
  intros Hz Hn Hr Hnd (_ & _ & Hv)%validate_loop_spec; [|done]. apply quiet_loop. intros e s (_ & r & (Hin & Hu & _) & _)%Hv.
  rewrite (Hr _ Hin) in Hu. unfold strictly_under in Hu. apply andb_true_iff in Hu as [Hl Hp]. rewrite Hp. apply Z.ltb_lt in Hl.
  rewrite (proj2 (Z.leb_gt _ _)) by done. eexists. split; [done|]. by apply same_core_insert, (prefixed_plain z).
Qed.
Lemma quiet_residual es st : Validate es residualRules = Ok tt → ∃ st', importResidualEntries es st = (Ok tt, st') ∧ same_core st st'.
Proof.
  intros (_ & _ & Hv)%validate_loop_spec; [|by apply (bool_decide_unpack _)]. apply quiet_loop. intros e s (_ & r & (Hin & Hu & _) & _)%Hv.
  unfold strictly_under in Hu. assert (IsResidualStoreKey (Key e) = true ∧ plain_key (Key e)) as [Hi Hp].
  { unfold residualRules in Hin. rewrite !elem_of_cons, elem_of_nil in Hin. unfold IsResidualStoreKey. cbn [existsb ResidualStorePrefixes].
    apply andb_true_iff in Hu as [Hl Hp]. destruct Hin as [->|[->|[->|[->|[]]]]]; cbn [rule_Prefix] in Hl, Hp; rewrite Hl, Hp;
      (split; [by rewrite ?orb_true_r|]); eapply prefixed_plain, Hp; (lia || set_solver). }
  rewrite Hi. eexists. split; [done|by apply same_core_insert].
Qed.
(** uint64 and uint32 *)
Definition typed_params (p : Params) : Prop := 0 ≤ PhiToToman p < 2 ^ 64 ∧ 0 ≤ ProtocolFeeBps p < 2 ^ 32.
Lemma params_wf p : Params_Validate p = Ok tt → typed_params p →
  inst_wf (<[ParamsKey := VParams p]> ∅) ∧ total_vault (<[ParamsKey := VParams p]> ∅) = 0 ∧ rate (<[ParamsKey := VParams p]> ∅) = PhiToToman p.
Proof.
  intros Hv [Hr Hb]. assert (GetParams (<[ParamsKey := VParams p]> ∅) = Ok p) as Hg by (unfold GetParams; by rewrite lookup_insert_eq).
  assert (∀ z k v, has_prefix (key_prefix z) k = true → 0 < z < 256 → (<[ParamsKey := VParams p]> ∅ : InstStore) !! k = Some v → False) as Hno.
  { intros z k v Hp Hz [[<- _]|[_ Hk]]%lookup_insert_Some; [|by rewrite lookup_empty in Hk].
    assert (has_prefix (key_prefix 0) ParamsKey = true) as H0' by done. by pose proof (prefix_bytes_distinct z 0 _ ltac:(lia) ltac:(lia) Hp H0'); lia. }
  split_and!.
  - constructor; [by exists p| |]; intros k v Hk Hp; exfalso; eapply Hno, Hk; [exact Hp|lia|exact Hp|lia].
  - unfold total_vault. rewrite map_sum_insert_new by done. by rewrite map_sum_empty.
  - unfold rate. by rewrite Hg.
Qed.
Lemma import_valid now gs : ValidateAtTime gs now = Ok tt → typed_params (ig_Params gs) →
  ∃ st, import_store now gs ∅ = (Ok tt, st) ∧ inst_wf st ∧ total_vault st = vault_sum (ig_Institutions gs) ∧ rate st = PhiToToman (ig_Params gs).
Proof.
  intros Hv Hty. unfold import_store. erewrite run_bind by (unfold or_panic, lift; by rewrite Hv).
  unfold ValidateAtTime in Hv. apply obind_Ok in Hv as ([] & Hv & _). unfold InstGenesis_Validate in Hv.
  apply obind_Ok in Hv as ([] & Hp & Hv). apply obind_Ok in Hv as ([] & _ & Hv). apply obind_Ok in Hv as (seen & Hi & Hv).
  apply obind_Ok in Hv as ([] & Hr & Hv). apply obind_Ok in Hv as ([] & _ & Hv). apply obind_Ok in Hv as ([] & Hd & Hv).
  apply obind_Ok in Hv as ([] & Hc & Hv). apply obind_Ok in Hv as ([] & Ha & He).
  erewrite run_bind by (unfold or_panic; by rewrite SetParams_empty). destruct (params_wf _ Hp Hty) as (Hwf0 & Ht0 & Hr0).
  destruct (import_institutions now _ _ _ _ _ Hi Hwf0) as (s1 & E1 & Hwf1 & Ht1 & Hr1).
  { intros id [v [[E _]|[_ Hk]]%lookup_insert_Some]; [done|by rewrite lookup_empty in Hk]. }
  erewrite run_bind by exact E1. destruct (quiet_roles _ s1 (validated_roles _ _ _ Hr)) as (s2 & E2 & C2). erewrite run_bind by exact E2.
  destruct (quiet_fx (ig_FxRequests gs) s2) as (s3 & E3 & C3). erewrite run_bind by exact E3.
  destruct (quiet_entries 80 deposit_rules (ig_DepositMarkers gs) s3) as (s4 & E4 & C4); [lia|set_solver|by intros r ->%list_elem_of_singleton|by apply (bool_decide_unpack _)|done|].
  erewrite run_bind by exact E4.
  destruct (quiet_entries 64 counter_rules (ig_CapCounters gs) s4) as (s5 & E5 & C5); [lia|set_solver|by intros r ->%list_elem_of_singleton|by apply (bool_decide_unpack _)|done|].
  erewrite run_bind by exact E5.
  destruct (quiet_entries 48 approval_rules (ig_Approvals gs) s5) as (s6 & E6 & C6); [lia|set_solver|by intros r ->%list_elem_of_singleton|by apply (bool_decide_unpack _)|done|].
  erewrite run_bind by exact E6. destruct (quiet_residual _ s6 He) as (s7 & E7 & C7).
  assert (same_core s1 s7) as C by (do 5 (etrans; [eassumption|]); done). destruct (same_core_keeps _ _ C Hwf1) as (Q1 & Q2 & Q3).
  exists s7. split_and!; [done..|lia|congruence].
Qed.
End import.

(** ** The chain the command opens *)
Section opening.
Context {B C I G : Type} `{BankLaws B} `{AddressCodecLaws} `{!AddressText}.
Abbreviation St := (InstState B C I G).

Lemma supply_sum l x s : ofold Int_Add l x = Ok s → s = x + sumZ id l.
Proof.
  revert x. induction l as [|a l IH]; intros x; cbn [ofold]; [intros [= <-]; cbn; lia|].
  intros (y & [-> _]%Int_checked_Ok & ->%IH)%obind_Ok. rewrite sumZ_cons. unfold id. lia.
Qed.
Lemma backing_exact r l t : 0 ≤ sumZ id l → 0 ≤ r → backing_balance r l = Ok t →
  ∃ v, NewIntFromString t = Some v ∧ t ≠ "" ∧ 0 ≤ v ∧ v * UphiPerPhi = sumZ id l * r.
Proof.
  intros Hs Hr. unfold backing_balance. intros (s & ->%supply_sum & Hb)%obind_Ok. apply obind_Ok in Hb as (n & [-> Hn]%Int_checked_Ok & Hb).
  apply obind_Ok in Hb as (m & [-> _]%Int_Mod_Ok & Hb). apply obind_Ok in Hb as ([] & Hz%err_if_Ok & Hb). apply obind_Ok in Hb as (q & [-> _]%Int_Quo_Ok & Hb).
  injection Hb as <-. unfold IsZero in Hz. apply negb_false_iff, Z.eqb_eq in Hz. rewrite Z.add_0_l in *. change (Z.abs UphiPerPhi) with UphiPerPhi in Hz.
  assert (0 < UphiPerPhi) as Hu by done. set (x := sumZ id l * r) in *. assert (0 ≤ x) as Hx by (unfold x; nia).
  rewrite Z.quot_div_nonneg by lia. assert (in_range (x / UphiPerPhi)) as Hq.
  { unfold in_range in *. rewrite Z.abs_eq in * by (try apply Z.div_pos; lia). eapply Z.le_lt_trans; [|exact Hn]. apply Z.div_le_upper_bound; nia. }
  exists (x / UphiPerPhi). split_and!; [by apply NewIntFromString_String| |apply Z.div_pos; lia|].
  - intros E. assert (NewIntFromString (Int_String (x / UphiPerPhi)) = None) as E' by by rewrite E. by rewrite NewIntFromString_String in E'.
  - rewrite Z.mul_comm. pose proof (Z_div_exact_2 x UphiPerPhi). lia.
Qed.
(** what a successful run leaves *)
Lemma added f iid admin balances gs gs' : AddInstitution f iid admin balances gs = Ok gs' → fl_BackSupply f = true →
  typed_params (ig_Params gs) → 0 ≤ sumZ id balances →
  InstGenesis_Validate gs' = Ok tt ∧ typed_params (ig_Params gs') ∧ genesisTimestamps gs' = genesisTimestamps gs ++ [0] ∧
  (vault_sum (ig_Institutions gs') - vault_sum (ig_Institutions gs)) * UphiPerPhi = sumZ id balances * PhiToToman (ig_Params gs').
Proof.
  intros Ha Hf [Hr Hb] Hs. unfold AddInstitution in Ha. do 2 apply obind_Ok in Ha as ([] & _ & Ha). rewrite Hf in Ha.
  set (r := if _ =? 0 then _ else _) in Ha. assert (0 ≤ r < 2 ^ 64) as Hr' by (unfold r; destruct (_ =? 0); [by split|done]).
  apply obind_Ok in Ha as (t & Ht & Ha). destruct (backing_exact r _ _ Hs (proj1 Hr') Ht) as (v & Hv & Hne & Hp & He).
  apply obind_Ok in Ha as ([] & _ & Ha). apply obind_Ok in Ha as ([] & _ & Ha). apply obind_Ok in Ha as ([] & Hval & Ha). injection Ha as <-.
  split; [done|]. cbn [ig_Params ig_Institutions]. assert (PhiToToman (if fl_AsOperator f then with_operator (with_rate (ig_Params gs) r) admin else with_rate (ig_Params gs) r) = r) as Er by by case_match.
  split_and!.
  - split; [by rewrite Er|]. by case_match.
  - unfold genesisTimestamps. cbn [ig_Params ig_Institutions]. rewrite map_app. cbn [map]. by case_match.
  - unfold vault_sum. rewrite Er, sumZ_app, sumZ_cons, sumZ_nil. rewrite bool_decide_eq_false_2 by done. cbn [inst_VaultBalance genesis_institution].
    unfold mustInt at 2. rewrite Hv. cbn [default from_option]. unfold id in *. lia.
Qed.

(** C22: a chain bootstrapped by [phid genesis add-institution --back-genesis-supply] opens
    solvent.  When the institutions already in the genesis hold nothing, and the bank starts
    with the coin of the genesis accounts, a run of the command that succeeds leaves a
    genesis that x/institutions imports without a panic, into a state whose vaults back
    the supply exactly; so [solvency_always] holds of the chain from its first block. *)
Theorem bootstrap_opens_solvent f iid admin balances gs gs' ctx b c i g ev :
  AddInstitution f iid admin balances gs = Ok gs' → fl_BackSupply f = true → vault_sum (ig_Institutions gs) = 0 →
  typed_params (ig_Params gs) → (∀ t, t ∈ genesisTimestamps gs → t ≤ BlockTime ctx) → 0 ≤ BlockTime ctx →
  GetSupply b = sumZ id balances → 0 ≤ GetSupply b < 2 ^ 190 →
  ∃ st, Inst_InitGenesis ctx gs' (mkInstState b c i g ∅ ev : St) = (Ok tt, mkInstState b c i g st ev) ∧
    solvent_state (mkInstState b c i g st ev).
Proof.
  intros Ha Hf Hz Hty Hts Hnow Hsup Hb. rewrite Hsup in Hb. destruct (added _ _ _ _ _ _ Ha Hf Hty (proj1 Hb)) as (Hv & Hty' & Ets & He).
  assert (ValidateAtTime gs' (BlockTime ctx) = Ok tt) as Hva.
  { unfold ValidateAtTime. rewrite Hv. cbn [mbind outcome_bind]. rewrite timestamps_none; [done|]. intros t Ht. apply Z.ltb_ge.
    rewrite Ets in Ht. apply elem_of_app in Ht as [Ht| ->%list_elem_of_singleton]; [by apply Hts|lia]. }
  destruct (import_valid _ _ Hva Hty') as (st & Hi & Hwf & Htot & Hrate). exists st.
  assert (solvent_state (mkInstState b c i g st ev)) as Hsol.
  { split; [done|]. cbn [is_bank is_store]. rewrite Htot, Hrate, Hsup. lia. }
  split; [|done]. unfold Inst_InitGenesis. erewrite run_bind by (unfold on_store, zoom; cbn [is_store]; by rewrite Hi).
  erewrite run_bind by (unfold query; rewrite invariants_hold; [done|done|cbn [is_bank]; lia]). done.
Qed.
End opening.

(** ** Runs of the command *)
Import HexCodec.
Definition backing_flags : InstitutionFlags := mkFlags "GENESIS-BOOTSTRAP" "" "" "0" "" "" true true.
Definition account_balances : list Z := [3000000; 2000000].
Definition first_backing : outcome InstGenesisState := AddInstitution backing_flags "bank" "a1" account_balances DefaultInstGenesis.
Definition opening (gs : InstGenesisState) : DemoState → outcome unit := λ s, (Inst_InitGenesis demo_ctx gs s).1.
Definition opening_state : DemoState := mkInstState (demo_bank 5000000) ∅ tt (Some tt) ∅ [].

Definition backed_genesis : InstGenesisState := Eval vm_compute in
  match first_backing with Ok gs => gs | _ => DefaultInstGenesis end.
Lemma first_backed : AddInstitution backing_flags "bank" "a1" account_balances DefaultInstGenesis = Ok backed_genesis.
Proof. vm_compute. reflexivity. Qed.
Lemma default_typed : typed_params (ig_Params DefaultInstGenesis).
Proof. by repeat split. Qed.
Lemma default_dated t : t ∈ genesisTimestamps DefaultInstGenesis → t ≤ BlockTime demo_ctx.
Proof. intros Ht. apply list_elem_of_singleton in Ht. by rewrite Ht. Qed.
Lemma bootstrap_opens_solvent_witness : inst_VaultBalance <$> ig_Institutions backed_genesis = ["500000"] ∧
  ∃ st, solvent_state (mkInstState (demo_bank 5000000) (∅ : CoinStore) tt (Some tt) st []).
Proof.
  split; [reflexivity|].
  destruct (bootstrap_opens_solvent backing_flags "bank" "a1" account_balances DefaultInstGenesis backed_genesis demo_ctx
    (demo_bank 5000000) (∅ : CoinStore) tt (Some tt) [] first_backed eq_refl eq_refl default_typed default_dated) as (st & _ & Hs).
  - discriminate.
  - reflexivity.
  - split; [discriminate|reflexivity].
  - exists st. exact Hs.
Defined.

(** The flag looks at the supply alone.  Run for a second institution it backs the same
    coin once more, reports success, and the chain does not start. *)
Theorem second_backing_stops_genesis : ∃ gs' gs'', first_backing = Ok gs' ∧
  AddInstitution backing_flags "second" "a2" account_balances gs' = Ok gs'' ∧
  opening gs' opening_state = Ok tt ∧ opening gs'' opening_state = Panic "invariant broken at genesis".
Proof.
  exists backed_genesis. eexists. split; [apply first_backed|]. split; [vm_compute; reflexivity|]. split; vm_compute; reflexivity.
Qed.
