(* ===== verification/IdTypes.v ===== *)
(** * x/identity: types

    [x/identity/types]: identities, guardian sets, recovery requests, the parameters,
    the record encodings, the signing messages and the stateless validation of the
    messages. *)
From stdpp Require Import base gmap strings list.
From Stdlib Require Import ZArith Lia Ascii.
From S2P Require Import Prelude GoInt KVStore StoreEntry Interfaces PhiDid.

(** ** Enumerations: open protobuf enums, a decoded message may carry any int32 *)
Definition DID_STATUS_ACTIVE : Z := 1.
Definition DID_STATUS_REVOKED : Z := 2.
Definition DID_STATUS_SUSPENDED : Z := 3.
Definition KEY_TYPE_UNSPECIFIED : Z := 0.
Definition KEY_TYPE_SECP256R1 : Z := 1.
Definition KEY_TYPE_SECP256K1 : Z := 2.
Definition RECOVERY_METHOD_SOCIAL : Z := 1.
Definition RECOVERY_METHOD_REAUTH : Z := 2.
Definition RECOVERY_STATUS_PENDING : Z := 1.
Definition RECOVERY_STATUS_EXECUTED : Z := 2.
Definition RECOVERY_STATUS_REJECTED : Z := 3.
Definition RECOVERY_STATUS_EXPIRED : Z := 4.
Definition RECOVERY_STATUS_SUPERSEDED : Z := 5.

Definition DIDStatus_name : list (Z * string) :=
  [(0, "DID_STATUS_UNSPECIFIED"); (1, "DID_STATUS_ACTIVE"); (2, "DID_STATUS_REVOKED"); (3, "DID_STATUS_SUSPENDED")].
Definition RecoveryMethod_name : list (Z * string) :=
  [(0, "RECOVERY_METHOD_UNSPECIFIED"); (1, "RECOVERY_METHOD_SOCIAL"); (2, "RECOVERY_METHOD_REAUTH")].
(** [proto.EnumName] *)
Definition EnumName (m : list (Z * string)) (v : Z) : string :=
  match List.find (λ kv, kv.1 =? v) m with Some kv => kv.2 | None => Int_String v end.

(** ** Records *)
Record DIDDocument := mkDoc {
  Did : string; Controller : string; PubKey : string; UniquenessHash : string;
  CreatedAt : Z; Status : Z; KeyType : Z }.
Record TrustedIssuer := mkIssuer { ti_Did : string; ti_PubKey : string; ti_Active : bool }.
Record GuardianSet := mkGuardianSet {
  gd_Did : string; gd_Commitments : list string; gd_Threshold : Z; gd_UpdatedAt : Z }.
Record RecoveryRequest := mkRecovery {
  rr_RecoveryId : string; rr_Did : string; rr_ProposedNewPubKey : string; rr_ProposedNewController : string;
  rr_KeyType : Z; rr_Method : Z; rr_Approvals : list string; rr_Nonce : string;
  rr_InitiatedAt : Z; rr_ExecuteAfter : Z; rr_ExpiresAt : Z; rr_DepositUphi : string; rr_Status : Z;
  rr_AttestorDid : string; rr_FeeUphi : string; rr_Rejections : list string; rr_FrozenAt : Z }.
Record Params := mkParams {
  MinIdentityAgeSeconds : Z; BootstrapThreshold : Z; p_BootstrapPhase : bool;
  WebauthnAllowedOrigins : list string; WebauthnRpId : string; MaxGuardians : Z;
  UvSensitiveMsgTypeUrls : list string; UvLargeTransferUphi : string;
  RecoveryDelaySeconds : Z; RecoveryRequestTtlSeconds : Z; MaxOpenRecoveryRequests : Z;
  RecoveryDepositUphi : string; ReauthRecoveryFeeUphi : string }.

#[export] Instance DIDDocument_eq_dec : EqDecision DIDDocument.
Proof. solve_decision. Defined.

(** field updates the handlers make *)
Definition with_status (d : DIDDocument) (s : Z) : DIDDocument :=
  mkDoc (Did d) (Controller d) (PubKey d) (UniquenessHash d) (CreatedAt d) s (KeyType d).
Definition with_key (d : DIDDocument) (pk : string) : DIDDocument :=
  mkDoc (Did d) (Controller d) pk (UniquenessHash d) (CreatedAt d) (Status d) (KeyType d).
Definition with_recovered (d : DIDDocument) (pk : string) (kt : Z) (c : string) : DIDDocument :=
  mkDoc (Did d) c pk (UniquenessHash d) (CreatedAt d) (Status d) kt.
Definition with_tally (r : RecoveryRequest) (approvals rejections : list string) : RecoveryRequest :=
  mkRecovery (rr_RecoveryId r) (rr_Did r) (rr_ProposedNewPubKey r) (rr_ProposedNewController r) (rr_KeyType r)
    (rr_Method r) approvals (rr_Nonce r) (rr_InitiatedAt r) (rr_ExecuteAfter r) (rr_ExpiresAt r) (rr_DepositUphi r)
    (rr_Status r) (rr_AttestorDid r) (rr_FeeUphi r) rejections (rr_FrozenAt r).
Definition with_window (r : RecoveryRequest) (executeAfter expiresAt frozenAt : Z) : RecoveryRequest :=
  mkRecovery (rr_RecoveryId r) (rr_Did r) (rr_ProposedNewPubKey r) (rr_ProposedNewController r) (rr_KeyType r)
    (rr_Method r) (rr_Approvals r) (rr_Nonce r) (rr_InitiatedAt r) executeAfter expiresAt (rr_DepositUphi r)
    (rr_Status r) (rr_AttestorDid r) (rr_FeeUphi r) (rr_Rejections r) frozenAt.

(** ** Errors *)
Definition id_err (n : Z) : error := Registered "identity" n.
Definition ErrIdentityExists := id_err 2.
Definition ErrUniquenessUsed := id_err 3.
Definition ErrIdentityNotFound := id_err 4.
Definition ErrInvalidDID := id_err 5.
Definition ErrInvalidPubKey := id_err 6.
Definition ErrInvalidUniqueness := id_err 7.
Definition ErrUnauthorized := id_err 8.
Definition ErrIdentityRevoked := id_err 10.
Definition ErrValidatorNeedsDID := id_err 11.
Definition ErrDIDAlreadyValidator := id_err 12.
Definition ErrMinSelfDelegation := id_err 13.
Definition ErrInvalidIssuerSig := id_err 14.
Definition ErrIssuerNotTrusted := id_err 15.
Definition ErrInvalidPoP := id_err 16.
Definition ErrIssuerNotFound := id_err 17.
Definition ErrKeyRotation := id_err 18.
Definition ErrNonceReused := id_err 19.
Definition ErrInvalidStatusTransition := id_err 20.
Definition ErrInvalidGuardians := id_err 21.
Definition ErrInvalidRecovery := id_err 22.
Definition ErrRecoveryNotFound := id_err 23.
Definition ErrRecoveryNotPending := id_err 24.
Definition ErrRecoveryTooEarly := id_err 25.
Definition ErrRecoveryBelowQuorum := id_err 26.
Definition ErrRecoverySlotsFull := id_err 27.
Definition ErrRecoveryNonceReused := id_err 28.
Definition ErrNotAGuardian := id_err 29.
Definition ErrGuardianNotEligible := id_err 30.
Definition ErrAlreadyApproved := id_err 31.
Definition ErrRecoveryKeyCollision := id_err 32.
Definition ErrReauthNotEnabled := id_err 33.
Definition ErrInvalidReauthAttestation := id_err 34.
Definition ErrAlreadyRejected := id_err 35.

(** ** DIDs and curves *)
Definition MaxDIDLen : Z := 256.
Definition MaxPubKeyLen : Z := 200.
Definition MaxUniquenessHashLen : Z := 64.
Definition MaxIssuerSigLen : Z := 200.
Definition MaxNonceLen : Z := 64.

Definition CurveForKeyType (keyType : Z) : option Curve :=
  if (keyType =? KEY_TYPE_UNSPECIFIED) || (keyType =? KEY_TYPE_SECP256R1) then Some Secp256r1
  else if keyType =? KEY_TYPE_SECP256K1 then Some Secp256k1
  else None.

Definition DeriveDIDFromP256 `{Hasher} (pubKey : string) : option string := DeriveDID Secp256r1 pubKey.
Definition DeriveDIDForKeyType `{Hasher} (keyType : Z) (pubKey : string) : option string :=
  curve ← CurveForKeyType keyType; DeriveDID curve pubKey.

Definition char_in (lo hi : Z) (c : ascii) : bool := (lo <=? char_code c) && (char_code c <=? hi).
(** [a-z], [A-Z], [0-9], ['-'], ['_'], ['.'], [':']: a rune that is one of these is one
    byte, and any other byte is or begins a rune that is not *)
Definition did_char (c : ascii) : bool :=
  char_in 97 122 c || char_in 65 90 c || char_in 48 57 c ||
  (char_code c =? 45) || (char_code c =? 95) || (char_code c =? 46) || (char_code c =? 58).

Definition ValidateDID (did : string) : outcome unit :=
  err_if (bool_decide (did = "")) (Plain "did cannot be empty");;
  err_if (MaxDIDLen <? strlen did) (Plain "did length exceeds");;
  err_if (negb (has_prefix DIDMethodPrefix did)) (Plain "did must start with");;
  let id := String.substring (String.length DIDMethodPrefix) (String.length did - String.length DIDMethodPrefix) did in
  err_if (bool_decide (id = "")) (Plain "did method-specific id cannot be empty");;
  err_if (negb (all_chars did_char id)) (Plain "did contains an invalid character").

(** [errors.Wrap(e, err.Error())]: the class of the error becomes [e] *)
Definition wrap_as {A} (o : outcome A) (e : error) : outcome A :=
  match o with Err _ => Err e | _ => o end.

(** ** Parameters *)
Definition DefaultMinIdentityAgeSeconds : Z := 7 * 24 * 60 * 60.
Definition DefaultBootstrapThreshold : Z := 10000.
Definition DefaultWebAuthnRPID : string := "portphi.com".
Definition DefaultMaxGuardians : Z := 10.
Definition DefaultUVLargeTransferUphi : string := "100000000".
Definition DefaultRecoveryDelaySeconds : Z := 72 * 60 * 60.
Definition DefaultRecoveryRequestTTLSeconds : Z := 14 * 24 * 60 * 60.
Definition DefaultMaxOpenRecoveryRequests : Z := 5.
Definition MaxOpenRecoveryRequestsCeiling : Z := 64.
Definition DefaultRecoveryDepositUphi : string := "1000000".
Definition DefaultReauthRecoveryFeeUphi : string := "4000000".
Definition MaxWebAuthnAllowedOrigins : Z := 32.
Definition MaxUVSensitiveMsgTypeURLs : Z := 32.
Definition DefaultUVSensitiveMsgTypeURLs : list string :=
  ["/phi.identity.MsgRotateIdentityKey"; "/phi.identity.MsgSetGuardians"; "/phi.identity.MsgInitiateRecovery";
   "/phi.identity.MsgApproveRecovery"; "/phi.identity.MsgRejectRecovery"; "/phi.identity.MsgCancelRecovery";
   "/phi.institutions.MsgInstitutionRedeem"].
Definition DefaultWebAuthnAllowedOrigins : list string := ["https://portphi.com"].

Definition DefaultParams : Params :=
  mkParams DefaultMinIdentityAgeSeconds DefaultBootstrapThreshold true DefaultWebAuthnAllowedOrigins
    DefaultWebAuthnRPID DefaultMaxGuardians DefaultUVSensitiveMsgTypeURLs DefaultUVLargeTransferUphi
    DefaultRecoveryDelaySeconds DefaultRecoveryRequestTTLSeconds DefaultMaxOpenRecoveryRequests
    DefaultRecoveryDepositUphi DefaultReauthRecoveryFeeUphi.

(** an amount field: a readable integer that is not negative *)
Definition validate_amount (s : string) : outcome unit :=
  amt ← or_err (NewIntFromString s) (Plain "invalid amount");
  err_if (IsNegative amt) (Plain "amount must be >= 0").

Definition Params_Validate (p : Params) : outcome unit :=
  err_if (MinIdentityAgeSeconds p <? 0) (Plain "min_identity_age_seconds must be >= 0");;
  err_if (BootstrapThreshold p =? 0) (Plain "bootstrap_threshold must be > 0");;
  err_if (Z.of_nat (length (WebauthnAllowedOrigins p)) =? 0) (Plain "webauthn_allowed_origins");;
  err_if (MaxWebAuthnAllowedOrigins <? Z.of_nat (length (WebauthnAllowedOrigins p))) (Plain "webauthn_allowed_origins");;
  err_if (existsb (λ o, bool_decide (o = "")) (WebauthnAllowedOrigins p)) (Plain "webauthn_allowed_origins");;
  err_if (bool_decide (WebauthnRpId p = "")) (Plain "webauthn_rp_id must not be empty");;
  err_if (MaxGuardians p =? 0) (Plain "max_guardians must be > 0");;
  err_if (MaxUVSensitiveMsgTypeURLs <? Z.of_nat (length (UvSensitiveMsgTypeUrls p))) (Plain "uv_sensitive_msg_type_urls");;
  err_if (existsb (λ u, bool_decide (u = "") || negb (has_prefix "/" u)) (UvSensitiveMsgTypeUrls p))
    (Plain "uv_sensitive_msg_type_urls");;
  validate_amount (UvLargeTransferUphi p);;
  err_if (RecoveryDelaySeconds p <=? 0) (Plain "recovery_delay_seconds must be > 0");;
  err_if (RecoveryRequestTtlSeconds p <=? RecoveryDelaySeconds p) (Plain "recovery_request_ttl_seconds");;
  err_if (MaxOpenRecoveryRequests p =? 0) (Plain "max_open_recovery_requests must be > 0");;
  err_if (MaxOpenRecoveryRequestsCeiling <? MaxOpenRecoveryRequests p) (Plain "max_open_recovery_requests");;
  validate_amount (RecoveryDepositUphi p);;
  validate_amount (ReauthRecoveryFeeUphi p).

Definition RecoveryDeposit (p : Params) : Z := default 0 (NewIntFromString (RecoveryDepositUphi p)).
Definition ReauthRecoveryFee (p : Params) : Z := default 0 (NewIntFromString (ReauthRecoveryFeeUphi p)).
Definition UVLargeTransferAmount (p : Params) : Z := default 0 (NewIntFromString (UvLargeTransferUphi p)).

(** ** Record encodings *)

(** the sign bit is flipped, so byte order is numeric order *)
Definition SortableInt64 (v : Z) : string := be64 (Z.lxor (u64 v) (2 ^ 63)).
Definition ParseSortableInt64 (b : string) : Z := i64 (Z.lxor (BigEndian_Uint b) (2 ^ 63)).

Definition EncodeControllerEligibility (oldest eligibleSince : Z) : string :=
  SortableInt64 oldest +:+ SortableInt64 eligibleSince.
(** the 8-byte form predates the second field; [nil] has no length *)
Definition DecodeControllerEligibility (b : option string) : option (Z * Z) :=
  match b with
  | Some b =>
      if strlen b =? 8 then Some (ParseSortableInt64 b, 0)
      else if strlen b =? 16
      then Some (ParseSortableInt64 (String.substring 0 8 b), ParseSortableInt64 (String.substring 8 8 b))
      else None
  | None => None
  end.

Definition bool_flag (b : bool) (bit : Z) : Z := if b then bit else 0.
Definition sweepFlagHasSuspended : Z := 1.
Definition sweepFlagHasRevoked : Z := 2.
Definition EncodeControllerSweep (activeDID : string) (hasSuspended hasRevoked : bool) : string :=
  String (byte (Z.lor (bool_flag hasSuspended sweepFlagHasSuspended) (bool_flag hasRevoked sweepFlagHasRevoked))) activeDID.
Record SweepStatus := mkSweep { sw_ActiveDID : string; sw_HasSuspended : bool; sw_HasRevoked : bool; sw_Ok : bool }.
Definition DecodeControllerSweep (b : option string) : SweepStatus :=
  match b with
  | Some (String flags did) =>
      mkSweep did (negb (Z.land (char_code flags) sweepFlagHasSuspended =? 0))
        (negb (Z.land (char_code flags) sweepFlagHasRevoked =? 0)) true
  | _ => mkSweep "" false false false
  end.

(** ** Signing messages *)
Definition appendLengthPrefixed (dst field : string) : string := dst +:+ be32 (strlen field) +:+ field.
Definition CanonicalMessage (domain : string) (fields : list string) : string :=
  foldl appendLengthPrefixed (appendLengthPrefixed "" domain) fields.

Definition GuardianCommitDomain : string := "phi-guardian-commit-v1".
Definition RecoveryIDDomain : string := "phi-recovery-id-v1".
Definition SocialRecoveryPoPDomain : string := "phi-social-recovery-v3".
Definition ReauthRecoveryDomain : string := "phi-recovery-reauth-v3".
Definition GuardianCommitmentLen : Z := 32.
Definition GuardianSaltLen : Z := 32.
Definition RecoveryIDLen : Z := 32.
Definition MaxRecoveryNonceLen : Z := 64.
Definition MaxRecoverySigLen : Z := 200.

Definition GuardianCommitment `{Hasher} (guardianDID salt : string) : string :=
  sha256 (GuardianCommitDomain +:+ NUL +:+ guardianDID +:+ NUL +:+ salt).
Definition DeriveRecoveryID `{Hasher} (did proposedNewPubKey nonce : string) : string :=
  sha256 (RecoveryIDDomain +:+ NUL +:+ did +:+ NUL +:+ proposedNewPubKey +:+ NUL +:+ nonce).
Definition SocialRecoveryPoPMessage (chainID did proposedNewPubKey newController nonce : string) : string :=
  CanonicalMessage SocialRecoveryPoPDomain [chainID; did; proposedNewPubKey; newController; nonce].
Definition ReauthAttestationMessage (chainID did proposedNewPubKey newController uniquenessHash nonce : string) : string :=
  CanonicalMessage ReauthRecoveryDomain [chainID; did; proposedNewPubKey; newController; uniquenessHash; nonce].
Definition attestationMessage (chainID did pubKey uniquenessHash creator nonce : string) : string :=
  CanonicalMessage "phi-issuer-attestation-v3" [chainID; did; pubKey; uniquenessHash; creator; nonce].
Definition rotationMessage (chainID did newPubKey creator : string) : string :=
  CanonicalMessage "phi-key-rotation-v3" [chainID; did; newPubKey; creator].

Definition IsTerminalRecoveryStatus (s : Z) : bool := negb (s =? RECOVERY_STATUS_PENDING).
(** [len(b) == 0 || len(b) > max] *)
Definition bad_length (b : string) (max : Z) : bool := (strlen b =? 0) || (max <? strlen b).
Definition ValidateRecoveryNonce (nonce : string) : outcome unit :=
  err_if (bad_length nonce MaxRecoveryNonceLen) ErrInvalidRecovery.

(** ** Guardian sets *)
Fixpoint check_commitments (seen : gset string) (l : list string) : outcome unit :=
  match l with
  | [] => Ok tt
  | c :: l' =>
      err_if (negb (strlen c =? GuardianCommitmentLen)) ErrInvalidGuardians;;
      let key := hex_encode c in
      err_if (bool_decide (key ∈ seen)) ErrInvalidGuardians;;
      check_commitments ({[key]} ∪ seen) l'
  end.
Definition ValidateGuardianSetBasic (did : string) (commitments : list string) (threshold : Z) : outcome unit :=
  wrap_as (ValidateDID did) ErrInvalidDID;;
  err_if (Z.of_nat (length commitments) =? 0) ErrInvalidGuardians;;
  check_commitments ∅ commitments;;
  err_if (threshold =? 0) ErrInvalidGuardians;;
  err_if (Z.of_nat (length commitments) <? threshold) ErrInvalidGuardians.

(** the bytes of [b] past the end of [a] are not read: the callers compare lengths *)
Fixpoint diff_bits (a b : string) : Z :=
  match a, b with
  | String c a', String d b' => Z.lor (Z.lxor (char_code c) (char_code d)) (diff_bits a' b')
  | _, _ => 0
  end.
Definition subtleEqual (a b : string) : bool := diff_bits a b =? 0.
Definition HasCommitment (gs : GuardianSet) (c : string) : bool :=
  existsb (λ have, (strlen have =? strlen c) && subtleEqual have c) (gd_Commitments gs).

(** ** Messages *)
Record MsgRegisterIdentity := mkRegister {
  reg_Creator : string; reg_Did : string; reg_PubKey : string; reg_UniquenessHash : string;
  reg_IssuerDid : string; reg_IssuerSig : string; reg_Nonce : string; reg_PopSig : string; reg_KeyType : Z }.
Record MsgRotateIdentityKey := mkRotate { rot_Creator : string; rot_Did : string; rot_NewPubKey : string; rot_PopSig : string }.
Record MsgUpdateStatus := mkUpdateStatus { us_Authority : string; us_Did : string; us_NewStatus : Z }.
Record MsgSetGuardians := mkSetGuardians {
  sg_Controller : string; sg_Did : string; sg_Commitments : list string; sg_Threshold : Z }.
Record MsgInitiateRecovery := mkInitiate {
  ini_Creator : string; ini_Did : string; ini_ProposedNewPubKey : string; ini_KeyType : Z; ini_Method : Z;
  ini_Nonce : string; ini_PopSig : string; ini_ReauthAttestation : string; ini_AttestorDid : string }.
Record MsgApproveRecovery := mkApprove { apr_Creator : string; apr_RecoveryId : string; apr_GuardianDid : string; apr_Salt : string }.
Record MsgRejectRecovery := mkReject { rej_Creator : string; rej_RecoveryId : string; rej_GuardianDid : string; rej_Salt : string }.
Record MsgExecuteRecovery := mkExecute { exe_Creator : string; exe_RecoveryId : string }.
Record MsgCancelRecovery := mkCancel { can_Creator : string; can_RecoveryId : string }.
Record MsgRevokeIdentity := mkRevoke { rvk_Creator : string; rvk_Did : string }.
Record MsgUpdateParams := mkUpdateParams { upd_Authority : string; upd_Params : Params }.
Record MsgRegisterTrustedIssuer := mkRegisterIssuer { rti_Authority : string; rti_Issuer : TrustedIssuer }.
Record MsgRevokeTrustedIssuer := mkRevokeIssuer { vti_Authority : string; vti_Did : string }.

Section validate.
Context `{AddressCodec}.
Definition check_address (s : string) : outcome unit := err_if (negb (is_bech32 s)) ErrInvalidAddress.
Definition check_did (did : string) : outcome unit := wrap_as (ValidateDID did) ErrInvalidDID.

Definition MsgRegisterIdentity_ValidateBasic (m : MsgRegisterIdentity) : outcome unit :=
  check_address (reg_Creator m);;
  check_did (reg_Did m);;
  err_if (bad_length (reg_PubKey m) MaxPubKeyLen) ErrInvalidPubKey;;
  err_if (bad_length (reg_UniquenessHash m) MaxUniquenessHashLen) ErrInvalidUniqueness;;
  check_did (reg_IssuerDid m);;
  err_if (bad_length (reg_IssuerSig m) MaxIssuerSigLen) ErrInvalidIssuerSig;;
  err_if (bad_length (reg_Nonce m) MaxNonceLen) ErrInvalidIssuerSig;;
  err_if (bad_length (reg_PopSig m) MaxIssuerSigLen) ErrInvalidPoP;;
  or_err (CurveForKeyType (reg_KeyType m)) ErrInvalidPubKey;;
  Ok tt.
Definition MsgRotateIdentityKey_ValidateBasic (m : MsgRotateIdentityKey) : outcome unit :=
  check_address (rot_Creator m);;
  check_did (rot_Did m);;
  err_if (bad_length (rot_NewPubKey m) MaxPubKeyLen) ErrInvalidPubKey;;
  err_if (bad_length (rot_PopSig m) MaxIssuerSigLen) ErrInvalidPoP.
Definition MsgRegisterTrustedIssuer_ValidateBasic (m : MsgRegisterTrustedIssuer) : outcome unit :=
  check_address (rti_Authority m);;
  check_did (ti_Did (rti_Issuer m));;
  err_if (bad_length (ti_PubKey (rti_Issuer m)) MaxPubKeyLen) ErrInvalidPubKey.
Definition MsgRevokeTrustedIssuer_ValidateBasic (m : MsgRevokeTrustedIssuer) : outcome unit :=
  check_address (vti_Authority m);;
  check_did (vti_Did m).
Definition MsgRevokeIdentity_ValidateBasic (m : MsgRevokeIdentity) : outcome unit :=
  check_address (rvk_Creator m);;
  err_if (bool_decide (rvk_Did m = "")) ErrInvalidDID.
Definition status_settable (s : Z) : bool := (s =? DID_STATUS_ACTIVE) || (s =? DID_STATUS_SUSPENDED).
Definition MsgUpdateStatus_ValidateBasic (m : MsgUpdateStatus) : outcome unit :=
  check_address (us_Authority m);;
  check_did (us_Did m);;
  err_if (negb (status_settable (us_NewStatus m))) ErrInvalidStatusTransition.
Definition MsgSetGuardians_ValidateBasic (m : MsgSetGuardians) : outcome unit :=
  check_address (sg_Controller m);;
  ValidateGuardianSetBasic (sg_Did m) (sg_Commitments m) (sg_Threshold m).

(** each method carries exactly its own authorisation material *)
Definition check_method (m : MsgInitiateRecovery) : outcome unit :=
  if ini_Method m =? RECOVERY_METHOD_SOCIAL then
    err_if (negb (strlen (ini_ReauthAttestation m) =? 0) || negb (bool_decide (ini_AttestorDid m = ""))) ErrInvalidRecovery
  else if ini_Method m =? RECOVERY_METHOD_REAUTH then
    err_if (bad_length (ini_ReauthAttestation m) MaxRecoverySigLen) ErrInvalidReauthAttestation;;
    check_did (ini_AttestorDid m)
  else Err ErrInvalidRecovery.
Definition MsgInitiateRecovery_ValidateBasic (m : MsgInitiateRecovery) : outcome unit :=
  check_address (ini_Creator m);;
  check_did (ini_Did m);;
  err_if (bad_length (ini_ProposedNewPubKey m) MaxPubKeyLen) ErrInvalidPubKey;;
  err_if (negb (ini_KeyType m =? KEY_TYPE_SECP256R1)) ErrInvalidRecovery;;
  ValidateRecoveryNonce (ini_Nonce m);;
  err_if (bad_length (ini_PopSig m) MaxRecoverySigLen) ErrInvalidPoP;;
  check_method m.

Definition check_recovery_id (id : string) : outcome unit :=
  err_if (negb (strlen id =? RecoveryIDLen)) ErrInvalidRecovery.
Definition MsgApproveRecovery_ValidateBasic (m : MsgApproveRecovery) : outcome unit :=
  check_address (apr_Creator m);;
  check_recovery_id (apr_RecoveryId m);;
  check_did (apr_GuardianDid m);;
  err_if (negb (strlen (apr_Salt m) =? GuardianSaltLen)) ErrInvalidGuardians.
Definition MsgRejectRecovery_ValidateBasic (m : MsgRejectRecovery) : outcome unit :=
  check_address (rej_Creator m);;
  check_recovery_id (rej_RecoveryId m);;
  check_did (rej_GuardianDid m);;
  err_if (negb (strlen (rej_Salt m) =? GuardianSaltLen)) ErrInvalidGuardians.
Definition MsgExecuteRecovery_ValidateBasic (m : MsgExecuteRecovery) : outcome unit :=
  check_address (exe_Creator m);;
  check_recovery_id (exe_RecoveryId m).
Definition MsgCancelRecovery_ValidateBasic (m : MsgCancelRecovery) : outcome unit :=
  check_address (can_Creator m);;
  check_recovery_id (can_RecoveryId m).
Definition MsgUpdateParams_ValidateBasic (m : MsgUpdateParams) : outcome unit :=
  check_address (upd_Authority m);;
  Params_Validate (upd_Params m).
End validate.
