(* ===== verification/IdKeeper.v ===== *)
(** * x/identity: the keeper

    [x/identity/keeper]: identities and their derived indexes, issuers, guardian sets,
    epochs, validator bindings and the recovery records.

    Every key of the module's store is one byte that names the kind of record, then the
    record's own key ([AllStorePrefixes]: the bytes are pairwise distinct), so the store is
    one map per kind, keyed by what follows the byte; an iterator over a kind walks the
    map in byte order. *)
From stdpp Require Import base gmap strings list fin_maps sorting.
From Stdlib Require Import ZArith Lia.
From S2P Require Import Prelude GoInt KVStore StoreEntry Interfaces PhiDid IdTypes.

Record IdStore := mkIdStore {
  s_params : option Params;             (** ParamsKey 0x00 *)
  s_count : option Z;                   (** IdentityCountKey 0x01 *)
  s_docs : KVStore DIDDocument;         (** DIDPrefix 0x10: did *)
  s_uniq : KVStore string;              (** UniquenessPrefix 0x11: uniqueness hash *)
  s_did_val : KVStore string;           (** DIDToValidatorPrefix 0x12: did *)
  s_val_did : KVStore string;           (** ValidatorToDIDPrefix 0x13: valoper *)
  s_issuers : KVStore TrustedIssuer;    (** TrustedIssuerPrefix 0x14: issuer did *)
  s_ctrl : KVStore unit;                (** ControllerIndexPrefix 0x15: controller, NUL, did *)
  s_inonce : KVStore string;            (** IssuerNoncePrefix 0x16: issuer did, NUL, nonce *)
  s_guard : KVStore GuardianSet;        (** GuardiansPrefix 0x17: did *)
  s_rec : KVStore RecoveryRequest;      (** RecoveryPrefix 0x18: recovery id *)
  s_rec_did : KVStore unit;             (** RecoveryByDIDPrefix 0x19: did, NUL, recovery id *)
  s_rnonce : KVStore string;            (** RecoveryNoncePrefix 0x1A: did, NUL, nonce *)
  s_elig : KVStore string;              (** ControllerEligibilityPrefix 0x1B: controller *)
  s_age : KVStore unit;                 (** EligibilityByAgePrefix 0x1C: created_at, controller *)
  s_total : option Z;                   (** EligibleControllerTotalKey 0x1D *)
  s_gepoch : KVStore string;            (** GuardianEpochPrefix 0x1E: did *)
  s_tepoch : KVStore string;            (** RecoveryTallyEpochPrefix 0x1F: recovery id *)
  s_sweep : KVStore string;             (** ControllerSweepPrefix 0x20: controller *)
}.

Definition AllStorePrefixes : list Prefix :=
  let reason := "derived state, rebuilt on import by replaying every identity through SetIdentity, which is its only writer; EligibilityIndexInvariant asserts the agreement" in
  [mkPrefix "params" (key_prefix 0x00) CarryExact "";
   mkPrefix "identity_count" (key_prefix 0x01) CarryExact "";
   mkPrefix "identities" (key_prefix 0x10) CarryExact "";
   mkPrefix "uniqueness_markers" (key_prefix 0x11) CarryExact "";
   mkPrefix "did_to_validator" (key_prefix 0x12) CarryExact "";
   mkPrefix "validator_to_did" (key_prefix 0x13) CarryExact "";
   mkPrefix "trusted_issuers" (key_prefix 0x14) CarryExact "";
   mkPrefix "controller_index" (key_prefix 0x15) CarryExact "";
   mkPrefix "issuer_nonces" (key_prefix 0x16) CarryExact "";
   mkPrefix "guardian_sets" (key_prefix 0x17) CarryExact "";
   mkPrefix "recovery_requests" (key_prefix 0x18) CarryExact "";
   mkPrefix "recovery_by_did" (key_prefix 0x19) CarryExact "";
   mkPrefix "recovery_nonces" (key_prefix 0x1A) CarryExact "";
   mkPrefix "guardian_epochs" (key_prefix 0x1E) CarryExact "";
   mkPrefix "recovery_tally_epochs" (key_prefix 0x1F) CarryExact "";
   mkPrefix "controller_eligibility" (key_prefix 0x1B) CarryExact "";
   mkPrefix "eligibility_by_age" (key_prefix 0x1C) CarryDerived reason;
   mkPrefix "eligible_controller_total" (key_prefix 0x1D) CarryDerived reason;
   mkPrefix "controller_sweep_status" (key_prefix 0x20) CarryDerived reason].

(** ** One writer per kind of record *)
Definition set_params (f : option Params → option Params) (st : IdStore) : IdStore :=
    let x := f (s_params st) in mkIdStore x (s_count st) (s_docs st) (s_uniq st) (s_did_val st) (s_val_did st)
    (s_issuers st) (s_ctrl st) (s_inonce st) (s_guard st) (s_rec st) (s_rec_did st) (s_rnonce st) (s_elig st)
    (s_age st) (s_total st) (s_gepoch st) (s_tepoch st) (s_sweep st).
Definition set_count (f : option Z → option Z) (st : IdStore) : IdStore :=
    let x := f (s_count st) in mkIdStore (s_params st) x (s_docs st) (s_uniq st) (s_did_val st) (s_val_did st)
    (s_issuers st) (s_ctrl st) (s_inonce st) (s_guard st) (s_rec st) (s_rec_did st) (s_rnonce st) (s_elig st)
    (s_age st) (s_total st) (s_gepoch st) (s_tepoch st) (s_sweep st).
Definition set_docs (f : KVStore DIDDocument → KVStore DIDDocument) (st : IdStore) : IdStore :=
    let x := f (s_docs st) in mkIdStore (s_params st) (s_count st) x (s_uniq st) (s_did_val st) (s_val_did st)
    (s_issuers st) (s_ctrl st) (s_inonce st) (s_guard st) (s_rec st) (s_rec_did st) (s_rnonce st) (s_elig st)
    (s_age st) (s_total st) (s_gepoch st) (s_tepoch st) (s_sweep st).
Definition set_uniq (f : KVStore string → KVStore string) (st : IdStore) : IdStore :=
    let x := f (s_uniq st) in mkIdStore (s_params st) (s_count st) (s_docs st) x (s_did_val st) (s_val_did st)
    (s_issuers st) (s_ctrl st) (s_inonce st) (s_guard st) (s_rec st) (s_rec_did st) (s_rnonce st) (s_elig st)
    (s_age st) (s_total st) (s_gepoch st) (s_tepoch st) (s_sweep st).
Definition set_did_val (f : KVStore string → KVStore string) (st : IdStore) : IdStore :=
    let x := f (s_did_val st) in mkIdStore (s_params st) (s_count st) (s_docs st) (s_uniq st) x (s_val_did st)
    (s_issuers st) (s_ctrl st) (s_inonce st) (s_guard st) (s_rec st) (s_rec_did st) (s_rnonce st) (s_elig st)
    (s_age st) (s_total st) (s_gepoch st) (s_tepoch st) (s_sweep st).
Definition set_val_did (f : KVStore string → KVStore string) (st : IdStore) : IdStore :=
    let x := f (s_val_did st) in mkIdStore (s_params st) (s_count st) (s_docs st) (s_uniq st) (s_did_val st) x
    (s_issuers st) (s_ctrl st) (s_inonce st) (s_guard st) (s_rec st) (s_rec_did st) (s_rnonce st) (s_elig st)
    (s_age st) (s_total st) (s_gepoch st) (s_tepoch st) (s_sweep st).
Definition set_issuers (f : KVStore TrustedIssuer → KVStore TrustedIssuer) (st : IdStore) : IdStore :=
    let x := f (s_issuers st) in mkIdStore (s_params st) (s_count st) (s_docs st) (s_uniq st) (s_did_val st)
    (s_val_did st) x (s_ctrl st) (s_inonce st) (s_guard st) (s_rec st) (s_rec_did st) (s_rnonce st) (s_elig st)
    (s_age st) (s_total st) (s_gepoch st) (s_tepoch st) (s_sweep st).
Definition set_ctrl (f : KVStore unit → KVStore unit) (st : IdStore) : IdStore :=
    let x := f (s_ctrl st) in mkIdStore (s_params st) (s_count st) (s_docs st) (s_uniq st) (s_did_val st)
    (s_val_did st) (s_issuers st) x (s_inonce st) (s_guard st) (s_rec st) (s_rec_did st) (s_rnonce st) (s_elig
    st) (s_age st) (s_total st) (s_gepoch st) (s_tepoch st) (s_sweep st).
Definition set_inonce (f : KVStore string → KVStore string) (st : IdStore) : IdStore :=
    let x := f (s_inonce st) in mkIdStore (s_params st) (s_count st) (s_docs st) (s_uniq st) (s_did_val st)
    (s_val_did st) (s_issuers st) (s_ctrl st) x (s_guard st) (s_rec st) (s_rec_did st) (s_rnonce st) (s_elig st)
    (s_age st) (s_total st) (s_gepoch st) (s_tepoch st) (s_sweep st).
Definition set_guard (f : KVStore GuardianSet → KVStore GuardianSet) (st : IdStore) : IdStore :=
    let x := f (s_guard st) in mkIdStore (s_params st) (s_count st) (s_docs st) (s_uniq st) (s_did_val st)
    (s_val_did st) (s_issuers st) (s_ctrl st) (s_inonce st) x (s_rec st) (s_rec_did st) (s_rnonce st) (s_elig
    st) (s_age st) (s_total st) (s_gepoch st) (s_tepoch st) (s_sweep st).
Definition set_rec (f : KVStore RecoveryRequest → KVStore RecoveryRequest) (st : IdStore) : IdStore :=
    let x := f (s_rec st) in mkIdStore (s_params st) (s_count st) (s_docs st) (s_uniq st) (s_did_val st)
    (s_val_did st) (s_issuers st) (s_ctrl st) (s_inonce st) (s_guard st) x (s_rec_did st) (s_rnonce st) (s_elig
    st) (s_age st) (s_total st) (s_gepoch st) (s_tepoch st) (s_sweep st).
Definition set_rec_did (f : KVStore unit → KVStore unit) (st : IdStore) : IdStore :=
    let x := f (s_rec_did st) in mkIdStore (s_params st) (s_count st) (s_docs st) (s_uniq st) (s_did_val st)
    (s_val_did st) (s_issuers st) (s_ctrl st) (s_inonce st) (s_guard st) (s_rec st) x (s_rnonce st) (s_elig st)
    (s_age st) (s_total st) (s_gepoch st) (s_tepoch st) (s_sweep st).
Definition set_rnonce (f : KVStore string → KVStore string) (st : IdStore) : IdStore :=
    let x := f (s_rnonce st) in mkIdStore (s_params st) (s_count st) (s_docs st) (s_uniq st) (s_did_val st)
    (s_val_did st) (s_issuers st) (s_ctrl st) (s_inonce st) (s_guard st) (s_rec st) (s_rec_did st) x (s_elig st)
    (s_age st) (s_total st) (s_gepoch st) (s_tepoch st) (s_sweep st).
Definition set_elig (f : KVStore string → KVStore string) (st : IdStore) : IdStore :=
    let x := f (s_elig st) in mkIdStore (s_params st) (s_count st) (s_docs st) (s_uniq st) (s_did_val st)
    (s_val_did st) (s_issuers st) (s_ctrl st) (s_inonce st) (s_guard st) (s_rec st) (s_rec_did st) (s_rnonce st)
    x (s_age st) (s_total st) (s_gepoch st) (s_tepoch st) (s_sweep st).
Definition set_age (f : KVStore unit → KVStore unit) (st : IdStore) : IdStore :=
    let x := f (s_age st) in mkIdStore (s_params st) (s_count st) (s_docs st) (s_uniq st) (s_did_val st)
    (s_val_did st) (s_issuers st) (s_ctrl st) (s_inonce st) (s_guard st) (s_rec st) (s_rec_did st) (s_rnonce st)
    (s_elig st) x (s_total st) (s_gepoch st) (s_tepoch st) (s_sweep st).
Definition set_total (f : option Z → option Z) (st : IdStore) : IdStore :=
    let x := f (s_total st) in mkIdStore (s_params st) (s_count st) (s_docs st) (s_uniq st) (s_did_val st)
    (s_val_did st) (s_issuers st) (s_ctrl st) (s_inonce st) (s_guard st) (s_rec st) (s_rec_did st) (s_rnonce st)
    (s_elig st) (s_age st) x (s_gepoch st) (s_tepoch st) (s_sweep st).
Definition set_gepoch (f : KVStore string → KVStore string) (st : IdStore) : IdStore :=
    let x := f (s_gepoch st) in mkIdStore (s_params st) (s_count st) (s_docs st) (s_uniq st) (s_did_val st)
    (s_val_did st) (s_issuers st) (s_ctrl st) (s_inonce st) (s_guard st) (s_rec st) (s_rec_did st) (s_rnonce st)
    (s_elig st) (s_age st) (s_total st) x (s_tepoch st) (s_sweep st).
Definition set_tepoch (f : KVStore string → KVStore string) (st : IdStore) : IdStore :=
    let x := f (s_tepoch st) in mkIdStore (s_params st) (s_count st) (s_docs st) (s_uniq st) (s_did_val st)
    (s_val_did st) (s_issuers st) (s_ctrl st) (s_inonce st) (s_guard st) (s_rec st) (s_rec_did st) (s_rnonce st)
    (s_elig st) (s_age st) (s_total st) (s_gepoch st) x (s_sweep st).
Definition set_sweep (f : KVStore string → KVStore string) (st : IdStore) : IdStore :=
    let x := f (s_sweep st) in mkIdStore (s_params st) (s_count st) (s_docs st) (s_uniq st) (s_did_val st)
    (s_val_did st) (s_issuers st) (s_ctrl st) (s_inonce st) (s_guard st) (s_rec st) (s_rec_did st) (s_rnonce st)
    (s_elig st) (s_age st) (s_total st) (s_gepoch st) (s_tepoch st) x.

(** ** Record keys *)
Definition ControllerIndexPrefixFor (controller : string) : string := controller +:+ NUL.
Definition ControllerIndexKey (controller did : string) : string := ControllerIndexPrefixFor controller +:+ did.
Definition IssuerNonceKey (issuerDid nonce : string) : string := issuerDid +:+ NUL +:+ nonce.
Definition RecoveryByDIDPrefixFor (did : string) : string := did +:+ NUL.
Definition RecoveryByDIDKey (did recoveryID : string) : string := RecoveryByDIDPrefixFor did +:+ recoveryID.
Definition RecoveryNonceKey (did nonce : string) : string := did +:+ NUL +:+ nonce.
Definition EligibilityByAgeKey (createdAt : Z) (controller : string) : string := SortableInt64 createdAt +:+ controller.
Definition CreatedAtFromEligibilityByAgeKey (key : string) : option Z :=
  if strlen key <? 8 then None else Some (ParseSortableInt64 (String.substring 0 8 key)).
(** [key[len(prefix):]] *)
Definition after (prefix key : string) : string :=
  String.substring (String.length prefix) (String.length key - String.length prefix) key.
(** the marker [[]byte{1}] *)
Definition marker : string := str1 (byte 1).

(** ** Parameters *)
Definition GetParams (st : IdStore) : Params := default DefaultParams (s_params st).
Definition SetParams (p : Params) : M IdStore unit :=
  lift (Params_Validate p);;
  modify (set_params (λ _, Some p)).
(** [time.Duration(seconds) * time.Second], an [int64] product *)
Definition MinIdentityAge (st : IdStore) : Z := i64 (MinIdentityAgeSeconds (GetParams st) * nano).
Definition UVPolicy (st : IdStore) : list string * Z :=
  (UvSensitiveMsgTypeUrls (GetParams st), UVLargeTransferAmount (GetParams st)).
Definition WebAuthnRelyingParty (st : IdStore) : list string * string :=
  (WebauthnAllowedOrigins (GetParams st), WebauthnRpId (GetParams st)).
Definition BootstrapPhase (st : IdStore) : bool := p_BootstrapPhase (GetParams st).

(** ** Identities *)
Definition GetIdentity (st : IdStore) (did : string) : option DIDDocument := s_docs st !! did.
Definition HasIdentity (st : IdStore) (did : string) : bool := bool_decide (is_Some (s_docs st !! did)).
Definition IterateIdentities (st : IdStore) : list DIDDocument := (KVStorePrefixIterator (s_docs st) "").*2.
Definition HasUniqueness (st : IdStore) (hash : string) : bool := bool_decide (is_Some (s_uniq st !! hash)).
Definition setUniqueness (hash did : string) : IdStore → IdStore := set_uniq <[hash := did]>.
Definition GetIdentityCount (st : IdStore) : Z := default 0 (s_count st).
Definition SetIdentityCount (c : Z) : IdStore → IdStore := set_count (λ _, Some c).

(** the identities the controller index lists under a controller, in key order; an entry
    without an identity is skipped *)
Definition indexed_dids (st : IdStore) (controller : string) : list string :=
  let prefix := ControllerIndexPrefixFor controller in
  map (λ kv, after prefix kv.1) (KVStorePrefixIterator (s_ctrl st) prefix).
Definition indexed_docs (st : IdStore) (controller : string) : list DIDDocument :=
  omap (GetIdentity st) (indexed_dids st controller).

Definition HasNonActiveDID (st : IdStore) (controller : string) : bool :=
  existsb (λ d, negb (Status d =? DID_STATUS_ACTIVE)) (indexed_docs st controller).

(** ** Eligibility *)
Definition EligibleControllerTotal (st : IdStore) : Z := default 0 (s_total st).
Definition setEligibleControllerTotal (n : Z) : IdStore → IdStore := set_total (λ _, Some n).

Definition older (acc : option Z) (d : DIDDocument) : option Z :=
  if Status d =? DID_STATUS_REVOKED then acc
  else match acc with
       | Some oldest => if CreatedAt d <? oldest then Some (CreatedAt d) else acc
       | None => Some (CreatedAt d)
       end.
Definition oldest_standing (docs : list DIDDocument) : option Z := foldl older None docs.

Definition refreshControllerEligibility (ctx : Context) (controller : string) (st : IdStore) : IdStore :=
  match DecodeControllerEligibility (s_elig st !! controller), oldest_standing (indexed_docs st controller) with
  | Some (prevOldest, _), None =>
      let st := set_age (delete (EligibilityByAgeKey prevOldest controller)) st in
      let st := set_elig (delete controller) st in
      setEligibleControllerTotal (u64 (EligibleControllerTotal st - 1)) st
  | None, Some oldest =>
      let st := set_elig <[controller := EncodeControllerEligibility oldest (BlockTime ctx)]> st in
      let st := set_age <[EligibilityByAgeKey oldest controller := tt]> st in
      setEligibleControllerTotal (u64 (EligibleControllerTotal st + 1)) st
  | Some (prevOldest, prevSince), Some oldest =>
      if prevOldest =? oldest then st
      else
        let since := if oldest <? prevOldest then BlockTime ctx else prevSince in
        let st := set_age (delete (EligibilityByAgeKey prevOldest controller)) st in
        let st := set_elig <[controller := EncodeControllerEligibility oldest since]> st in
        set_age <[EligibilityByAgeKey oldest controller := tt]> st
  | None, None => st
  end.

Definition IsEligibleControllerAt (st : IdStore) (controller : string) (t minAge : Z) : bool :=
  match DecodeControllerEligibility (s_elig st !! controller) with
  | Some (oldest, _) => oldest <=? Unix (t + i64 (- minAge))
  | None => false
  end.
Definition IsEligibleControllerSince (st : IdStore) (controller : string) (t minAge since : Z) : bool :=
  match DecodeControllerEligibility (s_elig st !! controller) with
  | Some (oldest, eligibleSince) =>
      if Unix (t + i64 (- minAge)) <? oldest then false
      else if Unix since =? 0 then true
      else eligibleSince <=? Unix since
  | None => false
  end.

Definition KVStoreReversePrefixIterator {V} (st : KVStore V) (p : string) : list (string * V) :=
  rev (KVStorePrefixIterator st p).
Definition MaxEligibilityTailScan : Z := 5000000.
Fixpoint count_newer (cutoff ceiling n : Z) (keys : list string) : Z * bool :=
  match keys with
  | [] => (n, false)
  | k :: ks =>
      if ceiling <=? n then (n, true)
      else match CreatedAtFromEligibilityByAgeKey k with
           | Some createdAt => if createdAt <=? cutoff then (n, false) else count_newer cutoff ceiling (u64 (n + 1)) ks
           | None => (n, false)
           end
  end.
Definition countEligibleNewerThanCapped (st : IdStore) (cutoff ceiling : Z) : Z * bool :=
  count_newer cutoff ceiling 0 (KVStoreReversePrefixIterator (s_age st) "").*1.
Definition countEligibleNewerThan (st : IdStore) (cutoff : Z) : Z * bool :=
  countEligibleNewerThanCapped st cutoff MaxEligibilityTailScan.
Definition CountEligibleControllersAt (st : IdStore) (t minAge : Z) : Z :=
  let cutoff := Unix (t + i64 (- minAge)) in
  let total := EligibleControllerTotal st in
  let '(tail, _) := countEligibleNewerThan st cutoff in
  if total <? tail then total else total - tail.
Definition ActiveDIDsAt (st : IdStore) (t minAge : Z) : list DIDDocument :=
  let cutoff := Unix (t + i64 (- minAge)) in
  List.filter (λ d, (Status d =? DID_STATUS_ACTIVE) && (CreatedAt d <=? cutoff)) (IterateIdentities st).

(** ** Sweep status and the controller's identities *)

(** [(firstActive, hasSuspended, hasRevoked)] *)
Definition sweep_step (acc : string * bool * bool) (d : DIDDocument) : string * bool * bool :=
  let '(firstActive, hasSuspended, hasRevoked) := acc in
  if Status d =? DID_STATUS_ACTIVE then
    (if bool_decide (firstActive = "") then Did d else firstActive, hasSuspended, hasRevoked)
  else if Status d =? DID_STATUS_SUSPENDED then (firstActive, true, hasRevoked)
  else if Status d =? DID_STATUS_REVOKED then (firstActive, hasSuspended, true)
  else acc.
Definition refreshControllerSweepStatus (controller : string) (st : IdStore) : IdStore :=
  match indexed_docs st controller with
  | [] => set_sweep (delete controller) st
  | docs =>
      let '(firstActive, hasSuspended, hasRevoked) := foldl sweep_step ("", false, false) docs in
      set_sweep <[controller := EncodeControllerSweep firstActive hasSuspended hasRevoked]> st
  end.
Definition ControllerSweepStatus (st : IdStore) (controller : string) : SweepStatus :=
  DecodeControllerSweep (s_sweep st !! controller).

Definition MaxControllerDIDScan : Z := 64.
(** [(result, truncated)] of a walk over the index that stops at the first identity the
    test accepts *)
Fixpoint scan_dids {A} (st : IdStore) (test : string → DIDDocument → option A) (scanned : Z) (dids : list string)
    : option A * bool :=
  match dids with
  | [] => (None, false)
  | did :: dids' =>
      if scanned =? MaxControllerDIDScan then (None, true)
      else match GetIdentity st did ≫= test did with
           | Some a => (Some a, false)
           | None => scan_dids st test (scanned + 1) dids'
           end
  end.
Definition subjectDIDBounded (st : IdStore) (controller : string) : option string * bool :=
  scan_dids st (λ did _, Some did) 0 (indexed_dids st controller).
Definition SubjectDID (st : IdStore) (controller : string) : option string := (subjectDIDBounded st controller).1.
Definition primaryDIDBounded (st : IdStore) (controller : string) : option string * bool :=
  scan_dids st (λ _ d, if Status d =? DID_STATUS_ACTIVE then Some (Did d) else None) 0 (indexed_dids st controller).
Definition PrimaryDID (st : IdStore) (controller : string) : option string := (primaryDIDBounded st controller).1.

(** ** The writer of identities: [""] stands for no previous controller *)
Definition SetIdentity (ctx : Context) (d : DIDDocument) (st : IdStore) : IdStore :=
  let '(prevController, st) :=
    match GetIdentity st (Did d) with
    | Some prev =>
        if bool_decide (Controller prev = Controller d) then ("", st)
        else (Controller prev, set_ctrl (delete (ControllerIndexKey (Controller prev) (Did prev))) st)
    | None => ("", st)
    end in
  let st := set_docs <[Did d := d]> st in
  let st := set_ctrl <[ControllerIndexKey (Controller d) (Did d) := tt]> st in
  let st := refreshControllerEligibility ctx (Controller d) st in
  let st := refreshControllerSweepStatus (Controller d) st in
  if bool_decide (prevController = "") then st
  else
    let st := refreshControllerEligibility ctx prevController st in
    refreshControllerSweepStatus prevController st.

(** ** Validator bindings *)
Definition BindValidatorToDID (did valoper : string) (st : IdStore) : IdStore :=
  set_val_did <[valoper := did]> (set_did_val <[did := valoper]> st).
Definition ValidatorForDID (st : IdStore) (did : string) : option string := s_did_val st !! did.
Definition DIDForValidator (st : IdStore) (valoper : string) : option string := s_val_did st !! valoper.
Definition UnbindValidator (valoper : string) (st : IdStore) : IdStore :=
  let st := match DIDForValidator st valoper with Some did => set_did_val (delete did) st | None => st end in
  set_val_did (delete valoper) st.

(** ** Issuers *)
Definition SetTrustedIssuer (ti : TrustedIssuer) : IdStore → IdStore := set_issuers <[ti_Did ti := ti]>.
Definition GetTrustedIssuer (st : IdStore) (did : string) : option TrustedIssuer := s_issuers st !! did.
Definition IsTrustedIssuer (st : IdStore) (did : string) : bool :=
  match GetTrustedIssuer st did with Some ti => ti_Active ti | None => false end.
Definition IterateTrustedIssuers (st : IdStore) : list TrustedIssuer := (KVStorePrefixIterator (s_issuers st) "").*2.
Definition hasIssuerNonce (st : IdStore) (issuerDid nonce : string) : bool :=
  bool_decide (is_Some (s_inonce st !! IssuerNonceKey issuerDid nonce)).
Definition markIssuerNonce (issuerDid nonce : string) : IdStore → IdStore :=
  set_inonce <[IssuerNonceKey issuerDid nonce := marker]>.

(** ** Guardian sets *)
Definition SetGuardianSet (gs : GuardianSet) : IdStore → IdStore := set_guard <[gd_Did gs := gs]>.
Definition DeleteGuardianSet (did : string) : IdStore → IdStore := set_guard (delete did).
Definition GetGuardians (st : IdStore) (did : string) : option GuardianSet := s_guard st !! did.
Definition IterateGuardians (st : IdStore) : list GuardianSet := (KVStorePrefixIterator (s_guard st) "").*2.
Definition validateGuardianSetCap (st : IdStore) (commitments : list string) : outcome unit :=
  err_if (MaxGuardians (GetParams st) <? Z.of_nat (length commitments)) ErrInvalidGuardians.

(** the revealed guardian is enrolled, is not the protected identity itself, is ACTIVE and
    is controlled by the signer *)
Definition openGuardianCommitment `{Hasher} (st : IdStore) (protectedDID guardianDID salt signer : string) : outcome unit :=
  err_if (negb (strlen salt =? GuardianSaltLen)) ErrInvalidGuardians;;
  gs ← or_err (GetGuardians st protectedDID) ErrInvalidGuardians;
  err_if (negb (HasCommitment gs (GuardianCommitment guardianDID salt))) ErrNotAGuardian;;
  err_if (bool_decide (guardianDID = protectedDID)) ErrInvalidGuardians;;
  doc ← or_err (GetIdentity st guardianDID) ErrGuardianNotEligible;
  err_if (negb (Status doc =? DID_STATUS_ACTIVE)) ErrGuardianNotEligible;;
  err_if (negb (bool_decide (Controller doc = signer))) ErrUnauthorized.

(** ** Epochs *)
Definition encodeEpoch (v : Z) : string := be64 v.
Definition decodeEpoch (bz : option string) : Z :=
  match bz with Some b => if strlen b =? 8 then BigEndian_Uint b else 0 | None => 0 end.
Definition GuardianEpoch (st : IdStore) (did : string) : Z := decodeEpoch (s_gepoch st !! did).
Definition bumpGuardianEpoch (did : string) (st : IdStore) : IdStore :=
  let cur := GuardianEpoch st did in
  if cur =? 2 ^ 64 - 1 then st else set_gepoch <[did := encodeEpoch (cur + 1)]> st.
Definition recoveryTallyEpoch (st : IdStore) (recoveryID : string) : Z := decodeEpoch (s_tepoch st !! recoveryID).
Definition setRecoveryTallyEpoch (recoveryID : string) (epoch : Z) : IdStore → IdStore :=
  set_tepoch <[recoveryID := encodeEpoch epoch]>.
Definition deleteRecoveryTallyEpoch (recoveryID : string) : IdStore → IdStore := set_tepoch (delete recoveryID).
Definition tallyIsCurrent (st : IdStore) (r : RecoveryRequest) : bool :=
  recoveryTallyEpoch st (rr_RecoveryId r) =? GuardianEpoch st (rr_Did r).
Definition EffectiveApprovals (st : IdStore) (r : RecoveryRequest) : list string :=
  if tallyIsCurrent st r then rr_Approvals r else [].
Definition EffectiveRejections (st : IdStore) (r : RecoveryRequest) : list string :=
  if tallyIsCurrent st r then rr_Rejections r else [].
Definition syncTallyEpoch (r : RecoveryRequest) (st : IdStore) : RecoveryRequest * IdStore :=
  let current := GuardianEpoch st (rr_Did r) in
  if recoveryTallyEpoch st (rr_RecoveryId r) =? current then (r, st)
  else (with_tally r [] [], setRecoveryTallyEpoch (rr_RecoveryId r) current st).

(** ** Recovery records *)
Definition SetRecoveryRequest (r : RecoveryRequest) (st : IdStore) : IdStore :=
  set_rec_did <[RecoveryByDIDKey (rr_Did r) (rr_RecoveryId r) := tt]> (set_rec <[rr_RecoveryId r := r]> st).
Definition deleteRecoveryRequest (r : RecoveryRequest) (st : IdStore) : IdStore :=
  let st := set_rec (delete (rr_RecoveryId r)) st in
  let st := set_rec_did (delete (RecoveryByDIDKey (rr_Did r) (rr_RecoveryId r))) st in
  deleteRecoveryTallyEpoch (rr_RecoveryId r) st.
Definition GetRecoveryRequest (st : IdStore) (recoveryID : string) : option RecoveryRequest := s_rec st !! recoveryID.
Definition IterateRecoveryRequests (st : IdStore) : list RecoveryRequest := (KVStorePrefixIterator (s_rec st) "").*2.
Definition RecoveryRequestsForDID (st : IdStore) (did : string) : list RecoveryRequest :=
  let prefix := RecoveryByDIDPrefixFor did in
  omap (λ kv, GetRecoveryRequest st (after prefix kv.1)) (KVStorePrefixIterator (s_rec_did st) prefix).
Definition hasRecoveryNonce (st : IdStore) (did nonce : string) : bool :=
  bool_decide (is_Some (s_rnonce st !! RecoveryNonceKey did nonce)).
Definition markRecoveryNonce (did nonce : string) : IdStore → IdStore := set_rnonce <[RecoveryNonceKey did nonce := marker]>.
Definition recoveryFrozenBySuspension (st : IdStore) (did : string) : bool :=
  match GetIdentity st did with Some doc => Status doc =? DID_STATUS_SUSPENDED | None => false end.

(** suspension stamps every live request that is not already held *)
Definition freeze_one (now : Z) (st : IdStore) (r : RecoveryRequest) : IdStore :=
  if IsTerminalRecoveryStatus (rr_Status r) || negb (rr_FrozenAt r =? 0) then st
  else if rr_ExpiresAt r <? now then st
  else SetRecoveryRequest (with_window r (rr_ExecuteAfter r) (rr_ExpiresAt r) now) st.
Definition freezeLiveRecoveries (ctx : Context) (did : string) (st : IdStore) : IdStore :=
  foldl (freeze_one (BlockTime ctx)) st (RecoveryRequestsForDID st did).
(** a reinstated request keeps the veto time it had left, measured forward from now *)
Definition thaw_window (now ttl : Z) (r : RecoveryRequest) : RecoveryRequest :=
  let executeAfter := if rr_FrozenAt r <? rr_ExecuteAfter r
                      then i64 (now + i64 (rr_ExecuteAfter r - rr_FrozenAt r)) else rr_ExecuteAfter r in
  with_window r executeAfter (i64 (now + ttl)) 0.

Definition assertNoKeyCollision `{Hasher} (st : IdStore) (keyType : Z) (pubKey : string) : outcome unit :=
  err_if (negb (keyType =? KEY_TYPE_SECP256R1)) ErrInvalidRecovery;;
  derived ← or_err (DeriveDIDFromP256 pubKey) ErrInvalidPubKey;
  err_if (HasIdentity st derived) ErrRecoveryKeyCollision.
