(* ===== verification/IdServer.v ===== *)
(** * x/identity: the message server

    [x/identity/keeper/msg_server.go], [issuer.go], [recovery.go] and
    [msg_server_recovery.go]: the thirteen message handlers over the module's store, the
    bank and the event log.  [IdMsg] and [handle] are the transaction: stateless
    validation, then the handler, committed only when both succeed. *)
From stdpp Require Import base gmap strings list.
From Stdlib Require Import ZArith Lia.
From S2P Require Import Prelude GoInt KVStore Interfaces PhiDid IdTypes IdKeeper.

Record IdState (B : Type) := mkIdState { id_bank : B; id_store : IdStore; id_events : list Event }.
Arguments mkIdState {B}.
Arguments id_bank {B}. Arguments id_store {B}. Arguments id_events {B}.

Definition ModuleName : string := "identity".
Definition FeeCollectorName : string := "fee_collector".
Definition boolToStr (b : bool) : string := if b then "true" else "false".
Definition hexID (id : string) : string := hex_encode id.
Definition count_text {A} (l : list A) : string := Int_String (Z.of_nat (length l)).

Section server.
Context {B : Type} `{BankKeeper B} `{AddressCodec} `{Hasher} `{Verifier}.
(** the governance address, and the build-tag switch of the re-authentication path
    ([reauth.go] is [false], [reauth_enabled.go] is [true]) *)
Context (authority : string) (ReauthRecoveryEnabled : bool).
Abbreviation St := (IdState B).

Definition on_bank {A} : M B A → M St A := zoom id_bank (λ b s, mkIdState b (id_store s) (id_events s)).
Definition on_store {A} : M IdStore A → M St A := zoom id_store (λ st s, mkIdState (id_bank s) st (id_events s)).
Definition write (f : IdStore → IdStore) : M St unit := on_store (modify f).
Definition look {A} (f : IdStore → A) : M St A := reads (λ s, f (id_store s)).
Definition check (f : IdStore → outcome unit) : M St unit := query (λ s, f (id_store s)).
Definition EmitEvent (ty : string) (attrs : list (string * string)) : M St unit :=
  modify (λ s, mkIdState (id_bank s) (id_store s) (id_events s ++ [mkEvent ty attrs])).

(** ** Identities *)
Definition verifyRegistration (ctx : Context) (msg : MsgRegisterIdentity) (st : IdStore) : outcome unit :=
  curve ← or_err (CurveForKeyType (reg_KeyType msg)) ErrInvalidPubKey;
  derived ← or_err (DeriveDIDForKeyType (reg_KeyType msg) (reg_PubKey msg)) ErrInvalidPubKey;
  err_if (negb (bool_decide (reg_Did msg = derived))) ErrInvalidDID;;
  issuer ← or_err (GetTrustedIssuer st (reg_IssuerDid msg)) ErrIssuerNotTrusted;
  err_if (negb (ti_Active issuer)) ErrIssuerNotTrusted;;
  err_if (hasIssuerNonce st (reg_IssuerDid msg) (reg_Nonce msg)) ErrNonceReused;;
  let m := attestationMessage (ChainID ctx) (reg_Did msg) (reg_PubKey msg) (reg_UniquenessHash msg)
             (reg_Creator msg) (reg_Nonce msg) in
  err_if (negb (VerifySignature Secp256r1 (ti_PubKey issuer) m (reg_IssuerSig msg))) ErrInvalidIssuerSig;;
  err_if (negb (VerifySignature curve (reg_PubKey msg) m (reg_PopSig msg))) ErrInvalidPoP.

Definition end_bootstrap (p : Params) : Params :=
  mkParams (MinIdentityAgeSeconds p) (BootstrapThreshold p) false (WebauthnAllowedOrigins p) (WebauthnRpId p)
    (MaxGuardians p) (UvSensitiveMsgTypeUrls p) (UvLargeTransferUphi p) (RecoveryDelaySeconds p)
    (RecoveryRequestTtlSeconds p) (MaxOpenRecoveryRequests p) (RecoveryDepositUphi p) (ReauthRecoveryFeeUphi p).

Definition RegisterIdentity (ctx : Context) (msg : MsgRegisterIdentity) : M St unit :=
  exists_ ← look (λ st, HasIdentity st (reg_Did msg));
  fail_if exists_ ErrIdentityExists;;
  used ← look (λ st, HasUniqueness st (reg_UniquenessHash msg));
  fail_if used ErrUniquenessUsed;;
  check (verifyRegistration ctx msg);;
  let doc := mkDoc (reg_Did msg) (reg_Creator msg) (reg_PubKey msg) (reg_UniquenessHash msg) (BlockTime ctx)
               DID_STATUS_ACTIVE (reg_KeyType msg) in
  write (SetIdentity ctx doc);;
  write (setUniqueness (reg_UniquenessHash msg) (reg_Did msg));;
  write (markIssuerNonce (reg_IssuerDid msg) (reg_Nonce msg));;
  count ← look (λ st, u64 (GetIdentityCount st + 1));
  write (SetIdentityCount count);;
  params ← look GetParams;
  (if p_BootstrapPhase params && (BootstrapThreshold params <=? count) then
     on_store (SetParams (end_bootstrap params));;
     EmitEvent "bootstrap_phase_ended" [("identity_count", Int_String count)]
   else mret tt);;
  EmitEvent "register_identity"
    [("did", reg_Did msg); ("controller", reg_Creator msg); ("issuer_did", reg_IssuerDid msg)].

(** ** Deposits *)
Definition escrowDeposit (from : string) (amount : Z) : M St unit :=
  if negb (IsPositive amount) then mret tt else
  coins ← lift (CoinsOf amount);
  on_bank (SendCoinsFromAccountToModule from ModuleName coins).
Definition chargeReauthFee (from : string) (amount : Z) : M St unit :=
  if negb (IsPositive amount) then mret tt else
  coins ← lift (CoinsOf amount);
  on_bank (SendCoinsFromAccountToModule from FeeCollectorName coins).
Definition refundDeposit (r : RecoveryRequest) : M St unit :=
  match NewIntFromString (rr_DepositUphi r) with
  | Some amount =>
      if negb (IsPositive amount) then mret tt else
      to ← or_fail (AccAddressFromBech32 (rr_ProposedNewController r)) ErrBech32;
      coins ← lift (CoinsOf amount);
      on_bank (SendCoinsFromModuleToAccount ModuleName to coins)
  | None => mret tt
  end.
Definition forfeitDeposit (r : RecoveryRequest) : M St unit :=
  match NewIntFromString (rr_DepositUphi r) with
  | Some amount =>
      if negb (IsPositive amount) then mret tt else
      coins ← lift (CoinsOf amount);
      on_bank (SendCoinsFromModuleToModule ModuleName FeeCollectorName coins)
  | None => mret tt
  end.

Definition recovery_event (ty : string) (r : RecoveryRequest) (did : string) : M St unit :=
  EmitEvent ty [("recovery_id", hexID (rr_RecoveryId r)); ("did", did)].

(** [true] when the request is settled, which an expired one becomes here *)
Definition reapIfExpired (ctx : Context) (r : RecoveryRequest) : M St bool :=
  if IsTerminalRecoveryStatus (rr_Status r) then mret true else
  held ← look (λ st, negb (rr_FrozenAt r =? 0) && recoveryFrozenBySuspension st (rr_Did r));
  if held : bool then mret false
  else if BlockTime ctx <=? rr_ExpiresAt r then mret false
  else
    forfeitDeposit r;;
    write (deleteRecoveryRequest r);;
    recovery_event "recovery_expired" r (rr_Did r);;
    mret true.

(** forfeits and deletes the pending requests of the list *)
Definition supersede (did : string) (r : RecoveryRequest) : M St unit :=
  forfeitDeposit r;;
  write (deleteRecoveryRequest r);;
  recovery_event "recovery_superseded" r did.
Definition supersedeSiblings (did executed : string) : M St unit :=
  rs ← look (λ st, RecoveryRequestsForDID st did);
  for_each rs (λ r,
    if bool_decide (rr_RecoveryId r = executed) || IsTerminalRecoveryStatus (rr_Status r) then mret tt
    else supersede did r).
Definition terminateRecoveryRequestsForDID (did : string) : M St unit :=
  rs ← look (λ st, RecoveryRequestsForDID st did);
  for_each rs (λ r, if IsTerminalRecoveryStatus (rr_Status r) then mret tt else supersede did r).

Definition thawRecoveries (ctx : Context) (did : string) : M St unit :=
  ttl ← look (λ st, RecoveryRequestTtlSeconds (GetParams st));
  rs ← look (λ st, RecoveryRequestsForDID st did);
  for_each rs (λ r,
    if (rr_FrozenAt r =? 0) || IsTerminalRecoveryStatus (rr_Status r) then mret tt
    else
      let r := thaw_window (BlockTime ctx) ttl r in
      write (SetRecoveryRequest r);;
      recovery_event "recovery_extended" r (rr_Did r)).

Fixpoint count_open (ctx : Context) (open : Z) (rs : list RecoveryRequest) : M St Z :=
  match rs with
  | [] => mret open
  | r :: rs' =>
      terminal ← reapIfExpired ctx r;
      count_open ctx (if terminal : bool then open else u32 (open + 1)) rs'
  end.
Definition countOpenRequests (ctx : Context) (did : string) : M St Z :=
  rs ← look (λ st, RecoveryRequestsForDID st did);
  count_open ctx 0 rs.

(** ** Status, keys, guardians, parameters, issuers *)
Definition the_identity (did : string) : M St DIDDocument :=
  o ← look (λ st, GetIdentity st did); or_fail o ErrIdentityNotFound.

Definition RevokeIdentity (ctx : Context) (msg : MsgRevokeIdentity) : M St unit :=
  doc ← the_identity (rvk_Did msg);
  fail_if (negb (bool_decide (rvk_Creator msg = Controller doc)) && negb (bool_decide (rvk_Creator msg = authority)))
    ErrUnauthorized;;
  fail_if (Status doc =? DID_STATUS_REVOKED) ErrIdentityRevoked;;
  write (SetIdentity ctx (with_status doc DID_STATUS_REVOKED));;
  terminateRecoveryRequestsForDID (rvk_Did msg);;
  write (DeleteGuardianSet (rvk_Did msg));;
  bound ← look (λ st, ValidatorForDID st (rvk_Did msg));
  (match bound with Some valoper => write (UnbindValidator valoper) | None => mret tt end);;
  write (bumpGuardianEpoch (rvk_Did msg));;
  EmitEvent "revoke_identity" [("did", rvk_Did msg)].

Definition RotateIdentityKey (ctx : Context) (msg : MsgRotateIdentityKey) : M St unit :=
  doc ← the_identity (rot_Did msg);
  fail_if (negb (bool_decide (rot_Creator msg = Controller doc))) ErrUnauthorized;;
  fail_if (negb (Status doc =? DID_STATUS_ACTIVE)) ErrKeyRotation;;
  curve ← or_fail (CurveForKeyType (KeyType doc)) ErrKeyRotation;
  let m := rotationMessage (ChainID ctx) (rot_Did msg) (rot_NewPubKey msg) (rot_Creator msg) in
  fail_if (negb (VerifySignature curve (rot_NewPubKey msg) m (rot_PopSig msg))) ErrInvalidPoP;;
  derived ← or_fail (DeriveDIDForKeyType (KeyType doc) (rot_NewPubKey msg)) ErrInvalidPubKey;
  taken ← look (λ st, HasIdentity st derived);
  fail_if (negb (bool_decide (derived = Did doc)) && taken) ErrRecoveryKeyCollision;;
  write (SetIdentity ctx (with_key doc (rot_NewPubKey msg)));;
  EmitEvent "rotate_identity_key" [("did", rot_Did msg); ("controller", Controller doc)].

Definition UpdateStatus (ctx : Context) (msg : MsgUpdateStatus) : M St unit :=
  fail_if (negb (bool_decide (us_Authority msg = authority))) ErrInvalidSigner;;
  fail_if (negb (status_settable (us_NewStatus msg))) ErrInvalidStatusTransition;;
  doc ← the_identity (us_Did msg);
  fail_if (Status doc =? DID_STATUS_REVOKED) ErrIdentityRevoked;;
  let old := Status doc in
  fail_if (old =? us_NewStatus msg) ErrInvalidStatusTransition;;
  write (SetIdentity ctx (with_status doc (us_NewStatus msg)));;
  (if (old =? DID_STATUS_ACTIVE) && (us_NewStatus msg =? DID_STATUS_SUSPENDED)
   then write (freezeLiveRecoveries ctx (us_Did msg))
   else if (old =? DID_STATUS_SUSPENDED) && (us_NewStatus msg =? DID_STATUS_ACTIVE)
   then thawRecoveries ctx (us_Did msg)
   else mret tt);;
  EmitEvent "status_changed"
    [("did", us_Did msg); ("old_status", EnumName DIDStatus_name old); ("new_status", EnumName DIDStatus_name (us_NewStatus msg))].

Definition SetGuardians (ctx : Context) (msg : MsgSetGuardians) : M St unit :=
  doc ← the_identity (sg_Did msg);
  fail_if (negb (bool_decide (sg_Controller msg = Controller doc))) ErrUnauthorized;;
  fail_if (negb (Status doc =? DID_STATUS_ACTIVE)) ErrInvalidGuardians;;
  lift (ValidateGuardianSetBasic (sg_Did msg) (sg_Commitments msg) (sg_Threshold msg));;
  check (λ st, validateGuardianSetCap st (sg_Commitments msg));;
  write (SetGuardianSet (mkGuardianSet (sg_Did msg) (sg_Commitments msg) (sg_Threshold msg) (BlockTime ctx)));;
  write (bumpGuardianEpoch (sg_Did msg));;
  EmitEvent "guardians_set"
    [("did", sg_Did msg); ("guardian_count", count_text (sg_Commitments msg)); ("threshold", Int_String (sg_Threshold msg))].

Definition UpdateParams (msg : MsgUpdateParams) : M St unit :=
  fail_if (negb (bool_decide (upd_Authority msg = authority))) ErrInvalidSigner;;
  on_store (SetParams (upd_Params msg)).

Definition RegisterTrustedIssuer (msg : MsgRegisterTrustedIssuer) : M St unit :=
  fail_if (negb (bool_decide (rti_Authority msg = authority))) ErrInvalidSigner;;
  write (SetTrustedIssuer (rti_Issuer msg));;
  EmitEvent "trusted_issuer_registered"
    [("issuer_did", ti_Did (rti_Issuer msg)); ("active", boolToStr (ti_Active (rti_Issuer msg)))].
Definition RevokeTrustedIssuer (msg : MsgRevokeTrustedIssuer) : M St unit :=
  fail_if (negb (bool_decide (vti_Authority msg = authority))) ErrInvalidSigner;;
  o ← look (λ st, GetTrustedIssuer st (vti_Did msg));
  ti ← or_fail o ErrIssuerNotFound;
  write (SetTrustedIssuer (mkIssuer (ti_Did ti) (ti_PubKey ti) false));;
  EmitEvent "trusted_issuer_revoked" [("issuer_did", vti_Did msg)].

(** ** Recovery *)
Definition verifyReauthAttestation (ctx : Context) (msg : MsgInitiateRecovery) (doc : DIDDocument) (st : IdStore) : outcome unit :=
  attestor ← or_err (GetTrustedIssuer st (ini_AttestorDid msg)) ErrIssuerNotTrusted;
  err_if (negb (ti_Active attestor)) ErrIssuerNotTrusted;;
  let m := ReauthAttestationMessage (ChainID ctx) (ini_Did msg) (ini_ProposedNewPubKey msg) (ini_Creator msg)
             (UniquenessHash doc) (ini_Nonce msg) in
  err_if (negb (VerifySignature Secp256r1 (ti_PubKey attestor) m (ini_ReauthAttestation msg))) ErrInvalidReauthAttestation.

(** the checks of [InitiateRecovery] before the slot count; the threshold goes into the
    notice *)
Definition initiate_gates (ctx : Context) (msg : MsgInitiateRecovery) (reauth : bool) (st : IdStore) : outcome Z :=
  err_if (reauth && negb ReauthRecoveryEnabled) ErrReauthNotEnabled;;
  doc ← or_err (GetIdentity st (ini_Did msg)) ErrIdentityNotFound;
  err_if (negb (Status doc =? DID_STATUS_ACTIVE)) ErrInvalidRecovery;;
  threshold ← (if reauth then Ok 0 else gs ← or_err (GetGuardians st (ini_Did msg)) ErrInvalidGuardians; Ok (gd_Threshold gs));
  err_if (bool_decide (ini_ProposedNewPubKey msg = PubKey doc)) ErrInvalidRecovery;;
  assertNoKeyCollision st (ini_KeyType msg) (ini_ProposedNewPubKey msg);;
  err_if (hasRecoveryNonce st (ini_Did msg) (ini_Nonce msg)) ErrRecoveryNonceReused;;
  let popMsg := SocialRecoveryPoPMessage (ChainID ctx) (ini_Did msg) (ini_ProposedNewPubKey msg) (ini_Creator msg) (ini_Nonce msg) in
  err_if (negb (VerifySignature Secp256r1 (ini_ProposedNewPubKey msg) popMsg (ini_PopSig msg))) ErrInvalidPoP;;
  (if reauth then verifyReauthAttestation ctx msg doc st else Ok tt);;
  Ok threshold.

Definition new_request (ctx : Context) (params : Params) (msg : MsgInitiateRecovery) (recoveryID : string)
    (deposit fee : Z) : RecoveryRequest :=
  let now := BlockTime ctx in
  mkRecovery recoveryID (ini_Did msg) (ini_ProposedNewPubKey msg) (ini_Creator msg) (ini_KeyType msg) (ini_Method msg)
    [] (ini_Nonce msg) now (i64 (now + RecoveryDelaySeconds params)) (i64 (now + RecoveryRequestTtlSeconds params))
    (Int_String deposit) RECOVERY_STATUS_PENDING (ini_AttestorDid msg) (Int_String fee) [] 0.

Definition InitiateRecovery (ctx : Context) (msg : MsgInitiateRecovery) : M St string :=
  params ← look GetParams;
  let reauth := ini_Method msg =? RECOVERY_METHOD_REAUTH in
  threshold ← query (λ s, initiate_gates ctx msg reauth (id_store s));
  open ← countOpenRequests ctx (ini_Did msg);
  fail_if (MaxOpenRecoveryRequests params <=? open) ErrRecoverySlotsFull;;
  let recoveryID := DeriveRecoveryID (ini_Did msg) (ini_ProposedNewPubKey msg) (ini_Nonce msg) in
  dup ← look (λ st, GetRecoveryRequest st recoveryID);
  fail_if (bool_decide (is_Some dup)) ErrInvalidRecovery;;
  initiator ← or_fail (AccAddressFromBech32 (ini_Creator msg)) ErrBech32;
  let deposit := if reauth then 0 else RecoveryDeposit params in
  let fee := if reauth then ReauthRecoveryFee params else 0 in
  (if reauth then chargeReauthFee initiator fee else escrowDeposit initiator deposit);;
  let req := new_request ctx params msg recoveryID deposit fee in
  write (SetRecoveryRequest req);;
  write (markRecoveryNonce (ini_Did msg) (ini_Nonce msg));;
  EmitEvent "recovery_initiated"
    ([("recovery_id", hexID recoveryID); ("did", ini_Did msg); ("method", EnumName RecoveryMethod_name (ini_Method msg));
      ("new_controller", ini_Creator msg); ("execute_after", Int_String (rr_ExecuteAfter req))] ++
     (if reauth then [("attestor_did", ini_AttestorDid msg); ("fee_uphi", rr_FeeUphi req)]
      else [("threshold", Int_String threshold); ("deposit_uphi", rr_DepositUphi req)]));;
  mret recoveryID.

(** the request a guardian, a cranker or the owner names: pending and not expired *)
Definition pending_request (ctx : Context) (recoveryID : string) : M St RecoveryRequest :=
  o ← look (λ st, GetRecoveryRequest st recoveryID);
  req ← or_fail o ErrRecoveryNotFound;
  terminal ← reapIfExpired ctx req;
  fail_if terminal ErrRecoveryNotPending;;
  mret req.

(** [syncTallyEpoch] on a request in hand *)
Definition sync_tally (r : RecoveryRequest) : M St RecoveryRequest := λ s,
  let '(r, st) := syncTallyEpoch r (id_store s) in (Ok r, mkIdState (id_bank s) st (id_events s)).

Definition tally_event (ty field : string) (req : RecoveryRequest) (guardian : string) (who : list string) (threshold : Z) : M St unit :=
  EmitEvent ty
    [("recovery_id", hexID (rr_RecoveryId req)); ("did", rr_Did req); ("guardian_did", guardian);
     (field, count_text who); ("threshold", Int_String threshold)].

Definition ApproveRecovery (ctx : Context) (msg : MsgApproveRecovery) : M St unit :=
  req ← pending_request ctx (apr_RecoveryId msg);
  fail_if (rr_Method req =? RECOVERY_METHOD_REAUTH) ErrInvalidRecovery;;
  check (λ st, openGuardianCommitment st (rr_Did req) (apr_GuardianDid msg) (apr_Salt msg) (apr_Creator msg));;
  req ← sync_tally req;
  fail_if (bool_decide (apr_GuardianDid msg ∈ rr_Approvals req)) ErrAlreadyApproved;;
  let req := with_tally req (rr_Approvals req ++ [apr_GuardianDid msg]) (rr_Rejections req) in
  write (SetRecoveryRequest req);;
  gs ← look (λ st, GetGuardians st (rr_Did req));
  tally_event "recovery_approved" "approvals" req (apr_GuardianDid msg) (rr_Approvals req)
    (match gs with Some gs => gd_Threshold gs | None => 0 end).

Definition RejectRecovery (ctx : Context) (msg : MsgRejectRecovery) : M St unit :=
  req ← pending_request ctx (rej_RecoveryId msg);
  fail_if (rr_Method req =? RECOVERY_METHOD_REAUTH) ErrInvalidRecovery;;
  check (λ st, openGuardianCommitment st (rr_Did req) (rej_GuardianDid msg) (rej_Salt msg) (rej_Creator msg));;
  req ← sync_tally req;
  fail_if (bool_decide (rej_GuardianDid msg ∈ rr_Rejections req)) ErrAlreadyRejected;;
  let req := with_tally req (rr_Approvals req) (rr_Rejections req ++ [rej_GuardianDid msg]) in
  o ← look (λ st, GetGuardians st (rr_Did req));
  gs ← or_fail o ErrInvalidGuardians;
  (if gd_Threshold gs <=? Z.of_nat (length (rr_Rejections req)) then
     forfeitDeposit req;;
     write (deleteRecoveryRequest req)
   else write (SetRecoveryRequest req));;
  tally_event "recovery_rejected" "rejections" req (rej_GuardianDid msg) (rr_Rejections req) (gd_Threshold gs).

Definition execute_quorum (req : RecoveryRequest) (st : IdStore) : outcome unit :=
  if rr_Method req =? RECOVERY_METHOD_REAUTH then Ok tt else
  gs ← or_err (GetGuardians st (rr_Did req)) ErrInvalidGuardians;
  err_if (Z.of_nat (length (EffectiveApprovals st req)) <? gd_Threshold gs) ErrRecoveryBelowQuorum.

Definition ExecuteRecovery (ctx : Context) (msg : MsgExecuteRecovery) : M St unit :=
  req ← pending_request ctx (exe_RecoveryId msg);
  fail_if (BlockTime ctx <? rr_ExecuteAfter req) ErrRecoveryTooEarly;;
  check (execute_quorum req);;
  doc ← the_identity (rr_Did req);
  fail_if (negb (Status doc =? DID_STATUS_ACTIVE)) ErrInvalidRecovery;;
  check (λ st, assertNoKeyCollision st (rr_KeyType req) (rr_ProposedNewPubKey req));;
  write (SetIdentity ctx (with_recovered doc (rr_ProposedNewPubKey req) (rr_KeyType req) (rr_ProposedNewController req)));;
  refundDeposit req;;
  write (deleteRecoveryRequest req);;
  supersedeSiblings (rr_Did req) (rr_RecoveryId req);;
  EmitEvent "recovery_executed"
    [("recovery_id", hexID (rr_RecoveryId req)); ("did", rr_Did req); ("new_controller", rr_ProposedNewController req)].

Definition CancelRecovery (ctx : Context) (msg : MsgCancelRecovery) : M St unit :=
  req ← pending_request ctx (can_RecoveryId msg);
  doc ← the_identity (rr_Did req);
  fail_if (negb (bool_decide (can_Creator msg = Controller doc))) ErrUnauthorized;;
  forfeitDeposit req;;
  write (deleteRecoveryRequest req);;
  recovery_event "recovery_cancelled" req (rr_Did req).

(** ** Transactions *)
Inductive IdMsg :=
| MRegister (m : MsgRegisterIdentity)
| MRotate (m : MsgRotateIdentityKey)
| MUpdateStatus (m : MsgUpdateStatus)
| MSetGuardians (m : MsgSetGuardians)
| MInitiate (m : MsgInitiateRecovery)
| MApprove (m : MsgApproveRecovery)
| MReject (m : MsgRejectRecovery)
| MExecute (m : MsgExecuteRecovery)
| MCancel (m : MsgCancelRecovery)
| MRevoke (m : MsgRevokeIdentity)
| MUpdateParams (m : MsgUpdateParams)
| MRegisterIssuer (m : MsgRegisterTrustedIssuer)
| MRevokeIssuer (m : MsgRevokeTrustedIssuer).

Definition ValidateBasic (m : IdMsg) : outcome unit :=
  match m with
  | MRegister m => MsgRegisterIdentity_ValidateBasic m
  | MRotate m => MsgRotateIdentityKey_ValidateBasic m
  | MUpdateStatus m => MsgUpdateStatus_ValidateBasic m
  | MSetGuardians m => MsgSetGuardians_ValidateBasic m
  | MInitiate m => MsgInitiateRecovery_ValidateBasic m
  | MApprove m => MsgApproveRecovery_ValidateBasic m
  | MReject m => MsgRejectRecovery_ValidateBasic m
  | MExecute m => MsgExecuteRecovery_ValidateBasic m
  | MCancel m => MsgCancelRecovery_ValidateBasic m
  | MRevoke m => MsgRevokeIdentity_ValidateBasic m
  | MUpdateParams m => MsgUpdateParams_ValidateBasic m
  | MRegisterIssuer m => MsgRegisterTrustedIssuer_ValidateBasic m
  | MRevokeIssuer m => MsgRevokeTrustedIssuer_ValidateBasic m
  end.
Definition run_msg (ctx : Context) (m : IdMsg) : M St unit :=
  match m with
  | MRegister m => RegisterIdentity ctx m
  | MRotate m => RotateIdentityKey ctx m
  | MUpdateStatus m => UpdateStatus ctx m
  | MSetGuardians m => SetGuardians ctx m
  | MInitiate m => InitiateRecovery ctx m;; mret tt
  | MApprove m => ApproveRecovery ctx m
  | MReject m => RejectRecovery ctx m
  | MExecute m => ExecuteRecovery ctx m
  | MCancel m => CancelRecovery ctx m
  | MRevoke m => RevokeIdentity ctx m
  | MUpdateParams m => UpdateParams m
  | MRegisterIssuer m => RegisterTrustedIssuer m
  | MRevokeIssuer m => RevokeTrustedIssuer m
  end.
Definition handle (ctx : Context) (m : IdMsg) : M St unit :=
  lift (ValidateBasic m);; run_msg ctx m.
End server.
