(* ===== verification/IdIndex.v ===== *)
(** * x/identity: the derived indexes

    [SetIdentity] is the one writer of identities.  It keeps, beside the identities, the
    controller index, one eligibility record per controller, the age-ordered mirror of
    those records, their number, and one sweep record per controller.  [index_ok] says
    that each of them is the function of the identities it should be; [SetIdentity]
    preserves it, whatever identity it writes. *)
From stdpp Require Import base gmap strings list fin_maps sorting.
From Stdlib Require Import ZArith Lia Ascii.
From S2P Require Import Prelude GoInt KVStore StoreEntry Interfaces PhiDid IdTypes IdKeeper.

(** ** Sortable integers *)
Lemma lxor_top x : 0 ≤ x < 2 ^ 64 → Z.lxor x (2 ^ 63) = if x <? 2 ^ 63 then x + 2 ^ 63 else x - 2 ^ 63.
Proof.
  assert (∀ y, 0 ≤ y < 2 ^ 63 → Z.lxor y (2 ^ 63) = y + 2 ^ 63) as Hlow.
  { intros y Hy. symmetry. apply Z.add_nocarry_lxor. apply Z.bits_inj'. intros n Hn.
    rewrite Z.land_spec, Z.bits_0, Z.pow2_bits_eqb by lia.
    destruct (Z.eqb_spec 63 n) as [<-|]; [|by rewrite andb_false_r].
    rewrite Z.bits_above_log2; [done|lia|]. destruct (Z.eq_dec y 0) as [->|]; [done|].
    apply Z.log2_lt_pow2; lia. }
  intros Hx. destruct (Z.ltb_spec x (2 ^ 63)) as [Hl|Hg]; [apply Hlow; lia|].
  replace x with (Z.lxor (x - 2 ^ 63) (2 ^ 63)) at 1 by (rewrite Hlow by lia; lia).
  by rewrite Z.lxor_assoc, Z.lxor_nilpotent, Z.lxor_0_r.
Qed.
Lemma sortable_value v : is_int64 v → Z.lxor (u64 v) (2 ^ 63) = v + 2 ^ 63.
Proof.
  intros Hv. unfold is_int64 in Hv. rewrite lxor_top by apply u64_range.
  unfold u64. destruct (Z.ltb_spec (v mod 2 ^ 64) (2 ^ 63)) as [H|H].
  - destruct (Z.le_gt_cases 0 v); [rewrite Z.mod_small in *; lia|].
    rewrite <- (Z.mod_add v 1) in * by lia. rewrite Z.mod_small in *; lia.
  - destruct (Z.le_gt_cases 0 v); [rewrite Z.mod_small in *; lia|].
    rewrite <- (Z.mod_add v 1) in * by lia. rewrite Z.mod_small in *; lia.
Qed.
Lemma SortableInt64_length v : String.length (SortableInt64 v) = 8%nat.
Proof. apply be_length. Qed.
Lemma ParseSortable_Sortable v : is_int64 v → ParseSortableInt64 (SortableInt64 v) = v.
Proof.
  intros Hv. unfold ParseSortableInt64, SortableInt64. rewrite BigEndian_be64, (sortable_value v) by done.
  unfold is_int64 in Hv. rewrite u64_id by lia. rewrite lxor_top by lia.
  destruct (Z.ltb_spec (v + 2 ^ 63) (2 ^ 63)); unfold i64.
  - rewrite <- (Z.mod_add _ (-1)) by lia. rewrite Z.mod_small; lia.
  - rewrite Z.mod_small; lia.
Qed.
Lemma SortableInt64_inj a b : is_int64 a → is_int64 b → SortableInt64 a = SortableInt64 b → a = b.
Proof. intros Ha Hb E. rewrite <- (ParseSortable_Sortable a), E by done. by apply ParseSortable_Sortable. Qed.
(** byte order is numeric order *)
Lemma SortableInt64_lt a b s t : is_int64 a → is_int64 b → a < b →
  str_lt (SortableInt64 a +:+ s) (SortableInt64 b +:+ t) = true.
Proof.
  intros Ha Hb Hab. rewrite str_lt_app by by rewrite !SortableInt64_length.
  unfold SortableInt64, be64. rewrite !sortable_value by done. unfold is_int64 in *.
  rewrite be_lt by (change (256 ^ Z.of_nat 8) with (2 ^ 64); lia).
  by rewrite (proj2 (Z.ltb_lt _ _)) by lia.
Qed.

Lemma Decode_Encode o s : is_int64 o → is_int64 s →
  DecodeControllerEligibility (Some (EncodeControllerEligibility o s)) = Some (o, s).
Proof.
  intros Ho Hs. unfold DecodeControllerEligibility, EncodeControllerEligibility.
  assert (strlen (SortableInt64 o +:+ SortableInt64 s) = 16) as ->
    by (unfold strlen; by rewrite str_app_length, !SortableInt64_length).
  change (16 =? 8) with false. change (16 =? 16) with true. cbv iota.
  rewrite <- (SortableInt64_length o) at 2. rewrite substring_skip.
  rewrite <- (SortableInt64_length o) at 1. rewrite substring_app_l.
  rewrite (substring_all 8) by apply SortableInt64_length.
  by rewrite !ParseSortable_Sortable.
Qed.
Lemma EligibilityByAgeKey_inj o c o' c' : is_int64 o → is_int64 o' →
  EligibilityByAgeKey o c = EligibilityByAgeKey o' c' → o = o' ∧ c = c'.
Proof.
  intros Ho Ho' E. apply str_app_inj in E as [E ->]; [|by rewrite !SortableInt64_length].
  split; [by apply SortableInt64_inj|done].
Qed.
Lemma CreatedAt_key o c : is_int64 o → CreatedAtFromEligibilityByAgeKey (EligibilityByAgeKey o c) = Some o.
Proof.
  intros Ho. unfold CreatedAtFromEligibilityByAgeKey, EligibilityByAgeKey.
  assert ((strlen (SortableInt64 o +:+ c) <? 8) = false) as ->
    by (apply Z.ltb_ge; unfold strlen; rewrite str_app_length, SortableInt64_length; lia).
  rewrite <- (SortableInt64_length o) at 1. by rewrite substring_app_l, ParseSortable_Sortable.
Qed.

(** ** Index keys *)
(** what the sources rely on of a controller: an address text, so not empty and free of
    NUL bytes *)
Definition controller_ok (c : string) : Prop := c ≠ "" ∧ nul_free c.

Lemma ControllerIndexKey_inj c d c' d' : nul_free c → nul_free c' →
  ControllerIndexKey c d = ControllerIndexKey c' d' → c = c' ∧ d = d'.
Proof. unfold ControllerIndexKey, ControllerIndexPrefixFor. rewrite !str_app_assoc. apply nul_split. Qed.
Lemma index_prefix c c' d : nul_free c → nul_free c' →
  has_prefix (ControllerIndexPrefixFor c) (ControllerIndexKey c' d) = true ↔ c = c'.
Proof.
  intros Hc Hc'. rewrite has_prefix_spec. split; [|intros ->; by eexists].
  intros [t E]. unfold ControllerIndexKey, ControllerIndexPrefixFor in E. rewrite !str_app_assoc in E.
  by apply nul_split in E as [-> _].
Qed.
Lemma after_app p s : after p (p +:+ s) = s.
Proof.
  unfold after. rewrite substring_skip, str_app_length.
  replace (String.length p + String.length s - String.length p)%nat with (String.length s) by lia.
  by apply substring_all.
Qed.

Lemma after_index c did : after (ControllerIndexPrefixFor c) (ControllerIndexKey c did) = did.
Proof. apply after_app. Qed.

(** ** The index of one controller *)
Lemma indexed_docs_ext st st' c :
  s_ctrl st' = s_ctrl st → s_docs st' = s_docs st → indexed_docs st' c = indexed_docs st c.
Proof. intros Hc Hd. unfold indexed_docs, indexed_dids, GetIdentity. by rewrite Hc, Hd. Qed.

Definition docs_ok (st : IdStore) : Prop :=
  ∀ did d, s_docs st !! did = Some d → Did d = did ∧ controller_ok (Controller d) ∧ is_int64 (CreatedAt d).
Definition ctrl_ok (st : IdStore) : Prop :=
  ∀ k, is_Some (s_ctrl st !! k) ↔
       ∃ d, s_docs st !! Did d = Some d ∧ k = ControllerIndexKey (Controller d) (Did d).

Lemma elem_of_indexed_dids st c did : docs_ok st → ctrl_ok st → nul_free c →
  did ∈ indexed_dids st c ↔ ∃ d, s_docs st !! did = Some d ∧ Controller d = c.
Proof.
  intros Hd Hc Hn. unfold indexed_dids. rewrite list_elem_of_fmap. split.
  - intros ([k u] & -> & [Hk Hp]%elem_of_prefix_iterator). cbn [fst].
    destruct (proj1 (Hc k) ltac:(eauto)) as (d & Hl & ->). exists d.
    destruct (Hd _ _ Hl) as (_ & [_ Hcd] & _). apply index_prefix in Hp as ->; [|done..].
    by rewrite after_index.
  - intros (d & Hl & <-). destruct (Hd _ _ Hl) as (<- & [_ Hcd] & _).
    destruct (proj2 (Hc (ControllerIndexKey (Controller d) (Did d)))) as [u Hu]; [by eexists|].
    exists (ControllerIndexKey (Controller d) (Did d), u). cbn [fst]. split; [by rewrite after_index|].
    apply elem_of_prefix_iterator. split; [done|]. by apply index_prefix.
Qed.
Lemma elem_of_indexed_docs st c d : docs_ok st → ctrl_ok st → nul_free c →
  d ∈ indexed_docs st c ↔ s_docs st !! Did d = Some d ∧ Controller d = c.
Proof.
  intros Hd Hc Hn. unfold indexed_docs. rewrite list_elem_of_omap. split.
  - intros (did & Hin & Hg). unfold GetIdentity in Hg.
    apply elem_of_indexed_dids in Hin as (d' & Hl & <-); [|done..].
    rewrite Hl in Hg. injection Hg as ->. by destruct (Hd _ _ Hl) as (<- & _).
  - intros [Hl <-]. exists (Did d). split; [|done]. apply elem_of_indexed_dids; eauto.
Qed.

Lemma elem_of_snoc {A} (x y : A) l : x ∈ l ++ [y] ↔ x ∈ l ∨ x = y.
Proof. by rewrite elem_of_app, list_elem_of_singleton. Qed.

(** the oldest identity that is not revoked *)
Definition standing (d : DIDDocument) : Prop := Status d ≠ DID_STATUS_REVOKED.
Lemma oldest_standing_spec docs :
  match oldest_standing docs with
  | Some o => (∃ d, d ∈ docs ∧ standing d ∧ CreatedAt d = o) ∧ ∀ d, d ∈ docs → standing d → o ≤ CreatedAt d
  | None => ∀ d, d ∈ docs → ¬ standing d
  end.
Proof.
  unfold oldest_standing. induction docs as [|d docs IH] using rev_ind; [intros d Hd; by apply elem_of_nil in Hd|].
  rewrite foldl_app. cbn [foldl]. unfold older at 1.
  destruct (Z.eqb_spec (Status d) DID_STATUS_REVOKED) as [Hr|Hr].
  - destruct (foldl older None docs) as [o|].
    + destruct IH as [(d0 & H0 & Hs & Ho) Hmin]. split.
      * exists d0. rewrite elem_of_snoc. auto.
      * intros d' [Hd'| ->]%elem_of_snoc Hst; [eauto|done].
    + intros d' [Hd'| ->]%elem_of_snoc; [eauto|]. unfold standing. congruence.
  - assert (d ∈ docs ++ [d]) as Hin by (rewrite elem_of_snoc; auto).
    destruct (foldl older None docs) as [o|].
    + destruct IH as [(d0 & H0 & Hs & Ho) Hmin].
      destruct (Z.ltb_spec (CreatedAt d) o); (split; [|intros d' [Hd'| ->]%elem_of_snoc Hst]);
        try lia; try (specialize (Hmin d' Hd' Hst); lia).
      * by exists d.
      * exists d0. rewrite elem_of_snoc. auto.
    + split; [by exists d|]. intros d' [Hd'| ->]%elem_of_snoc Hst; [by destruct (IH d')|lia].
Qed.

(** the sweep record of a controller *)
Definition sweep_record (docs : list DIDDocument) : option string :=
  match docs with
  | [] => None
  | _ => let '(firstActive, hasSuspended, hasRevoked) := foldl sweep_step ("", false, false) docs in
         Some (EncodeControllerSweep firstActive hasSuspended hasRevoked)
  end.

(** ** The eligibility records, their mirror and their number *)
Record mirror_ok (st : IdStore) : Prop := {
  mi_records c b : s_elig st !! c = Some b →
    ∃ o s, DecodeControllerEligibility (Some b) = Some (o, s) ∧ is_int64 o ∧ is_int64 s;
  mi_age k : is_Some (s_age st !! k) ↔
    ∃ c o s, DecodeControllerEligibility (s_elig st !! c) = Some (o, s) ∧ k = EligibilityByAgeKey o c;
  mi_total : EligibleControllerTotal st = u64 (Z.of_nat (size (s_elig st)));
}.
Record index_ok (st : IdStore) : Prop := {
  ix_docs : docs_ok st;
  ix_ctrl : ctrl_ok st;
  ix_mirror : mirror_ok st;
  ix_elig c : nul_free c → fst <$> DecodeControllerEligibility (s_elig st !! c) = oldest_standing (indexed_docs st c);
  ix_elig_dom c b : s_elig st !! c = Some b → nul_free c;
  ix_sweep c : nul_free c → s_sweep st !! c = sweep_record (indexed_docs st c);
  ix_sweep_dom c b : s_sweep st !! c = Some b → nul_free c;
}.

Lemma mirror_decode st c o s : mirror_ok st →
  DecodeControllerEligibility (s_elig st !! c) = Some (o, s) → is_int64 o ∧ is_int64 s ∧ is_Some (s_elig st !! c).
Proof.
  intros Hm Hd. destruct (s_elig st !! c) as [b|] eqn:Hb; [|done].
  destruct (mi_records _ Hm _ _ Hb) as (o' & s' & Hd' & Ho & Hs). rewrite Hd' in Hd. naive_solver.
Qed.
Lemma mirror_none st c : mirror_ok st → DecodeControllerEligibility (s_elig st !! c) = None → s_elig st !! c = None.
Proof.
  intros Hm Hd. destruct (s_elig st !! c) as [b|] eqn:Hb; [|done].
  destruct (mi_records _ Hm _ _ Hb) as (o' & s' & Hd' & _). congruence.
Qed.

(** one record replaced, with its mirror entry and the count kept in step *)
Definition put_record (c : string) (new : option (Z * Z)) (m : KVStore string) : KVStore string :=
  match new with Some (o, s) => <[c := EncodeControllerEligibility o s]> m | None => delete c m end.
Definition put_age (c : string) (old new : option (Z * Z)) (m : KVStore unit) : KVStore unit :=
  let m := match old with Some (o, _) => delete (EligibilityByAgeKey o c) m | None => m end in
  match new with Some (o, _) => <[EligibilityByAgeKey o c := tt]> m | None => m end.
Definition one_if (x : option (Z * Z)) : Z := match x with Some _ => 1 | None => 0 end.
Definition int64_pair (x : option (Z * Z)) : Prop := match x with Some (o, s) => is_int64 o ∧ is_int64 s | None => True end.

Lemma put_record_decode c c' new m : int64_pair new →
  DecodeControllerEligibility (put_record c new m !! c') =
  if bool_decide (c' = c) then new else DecodeControllerEligibility (m !! c').
Proof.
  intros Hn. unfold put_record. case_bool_decide as E.
  - subst c'. destruct new as [[o s]|]; [rewrite lookup_insert_eq; by apply Decode_Encode; apply Hn|by rewrite lookup_delete_eq].
  - destruct new as [[o s]|]; [by rewrite lookup_insert_ne|by rewrite lookup_delete_ne].
Qed.
Lemma put_record_size c new (m : KVStore string) :
  Z.of_nat (size (put_record c new m)) = Z.of_nat (size m) + one_if new - match m !! c with Some _ => 1 | None => 0 end.
Proof.
  destruct new as [[o s]|]; cbn [put_record one_if]; destruct (m !! c) as [b|] eqn:Hb.
  - rewrite map_size_insert_Some by eauto. lia.
  - rewrite map_size_insert_None by done. lia.
  - rewrite map_size_delete_Some by eauto.
    assert (size m ≠ 0%nat) by (intros E%map_size_empty_iff; subst m; by rewrite lookup_empty in Hb). lia.
  - rewrite map_size_delete_None by done. lia.
Qed.

Lemma mirror_age_write st c old new k :
  mirror_ok st → DecodeControllerEligibility (s_elig st !! c) = old →
  is_Some (put_age c old new (s_age st) !! k) ↔
    (∃ o s, new = Some (o, s) ∧ k = EligibilityByAgeKey o c) ∨
    (∃ c' o s, c' ≠ c ∧ DecodeControllerEligibility (s_elig st !! c') = Some (o, s) ∧ k = EligibilityByAgeKey o c').
Proof.
  intros Hm Hold.
  assert (is_Some (match old with Some (o, _) => delete (EligibilityByAgeKey o c) (s_age st) | None => s_age st end !! k) ↔
    ∃ c' o s, c' ≠ c ∧ DecodeControllerEligibility (s_elig st !! c') = Some (o, s) ∧ k = EligibilityByAgeKey o c') as Hdel.
  { destruct old as [[o s]|].
    - destruct (mirror_decode _ _ _ _ Hm Hold) as (Ho & _ & _). split.
      + intros [u [Hk Hu]%lookup_delete_Some]. destruct (proj1 (mi_age _ Hm k) ltac:(eauto)) as (c' & o' & s' & Hd & ->).
        exists c', o', s'. split_and!; [|done..]. intros ->. rewrite Hold in Hd. naive_solver.
      + intros (c' & o' & s' & Hne & Hd & ->). rewrite lookup_delete_ne; [apply (mi_age _ Hm); eauto 10|].
        intros [_ ->]%EligibilityByAgeKey_inj; [done|done|]. by destruct (mirror_decode _ _ _ _ Hm Hd).
    - rewrite (mi_age _ Hm). split; [|naive_solver]. intros (c' & o' & s' & Hd & ->).
      exists c', o', s'. split_and!; [|done..]. intros ->. congruence. }
  destruct new as [[o s]|]; cbn [put_age].
  - rewrite lookup_insert_is_Some, Hdel. destruct (decide (EligibilityByAgeKey o c = k)); naive_solver.
  - rewrite Hdel. naive_solver.
Qed.
Lemma mirror_write st st' c old new :
  mirror_ok st → DecodeControllerEligibility (s_elig st !! c) = old → int64_pair new →
  s_elig st' = put_record c new (s_elig st) → s_age st' = put_age c old new (s_age st) →
  EligibleControllerTotal st' = u64 (EligibleControllerTotal st + one_if new - one_if old) →
  mirror_ok st'.
Proof.
  intros Hm Hold Hnew He Ha Ht. constructor.
  - intros c' b Hb. rewrite He in Hb. destruct (decide (c' = c)) as [->|Hne].
    + destruct new as [[o s]|]; cbn [put_record] in Hb.
      * rewrite lookup_insert_eq in Hb. injection Hb as <-. destruct Hnew. exists o, s. split; [by apply Decode_Encode|done].
      * by rewrite lookup_delete_eq in Hb.
    + apply (mi_records st Hm c'). destruct new as [[o s]|]; cbn [put_record] in Hb;
        [by rewrite lookup_insert_ne in Hb|by rewrite lookup_delete_ne in Hb].
  - intros k. rewrite Ha, (mirror_age_write st c old new k), He by done. split.
    + intros [(o & s & -> & ->)|(c' & o & s & Hne & Hd & ->)].
      * exists c, o, s. rewrite put_record_decode, bool_decide_eq_true_2 by done. done.
      * exists c', o, s. rewrite put_record_decode, bool_decide_eq_false_2 by done. done.
    + intros (c' & o & s & Hd & ->). rewrite put_record_decode in Hd by done. case_bool_decide as E; subst; eauto 10.
  - rewrite Ht, He, put_record_size, (mi_total _ Hm). unfold u64.
    assert (match s_elig st !! c with Some _ => 1 | None => 0 end = one_if old) as ->.
    { destruct (s_elig st !! c) as [b|] eqn:Hb; [|by subst old].
      destruct (mi_records _ Hm _ _ Hb) as (o & s & Hd & _). by rewrite <- Hold, Hd. }
    rewrite <- Z.add_sub_assoc, Zplus_mod_idemp_l. f_equal. lia.
Qed.

(** ** Refreshing one controller *)

(** the eligibility record a controller should have, given the one it has *)
Definition next_record (now : Z) (old : option (Z * Z)) (oldest : option Z) : option (Z * Z) :=
  match old, oldest with
  | _, None => None
  | None, Some o => Some (o, now)
  | Some (po, ps), Some o => Some (o, if o <? po then now else ps)
  end.

Lemma refresh_spec ctx c st :
  mirror_ok st → is_int64 (BlockTime ctx) →
  (∀ o, oldest_standing (indexed_docs st c) = Some o → is_int64 o) →
  let st' := refreshControllerEligibility ctx c st in
  let old := DecodeControllerEligibility (s_elig st !! c) in
  let new := next_record (BlockTime ctx) old (oldest_standing (indexed_docs st c)) in
  mirror_ok st' ∧ DecodeControllerEligibility (s_elig st' !! c) = new ∧
  (∀ c', c' ≠ c → s_elig st' !! c' = s_elig st !! c').
Proof.
  intros Hm Hnow Hold. cbv zeta.
  set (old := DecodeControllerEligibility (s_elig st !! c)). set (oldest := oldest_standing (indexed_docs st c)) in *.
  unfold refreshControllerEligibility. fold old oldest.
  pose proof (mi_total _ Hm) as Htot. pose proof (u64_range (Z.of_nat (size (s_elig st)))) as Hr.
  destruct old as [[po ps]|] eqn:Hdec; subst old; destruct oldest as [o|]; cbn [next_record].
  - destruct (mirror_decode _ _ _ _ Hm Hdec) as (Hpo & Hps & _). specialize (Hold o eq_refl).
    assert (int64_pair (Some (o, if o <? po then BlockTime ctx else ps))) as Hp by (split; [done|by case_match]).
    destruct (Z.eqb_spec po o) as [->|Hne].
    { rewrite Z.ltb_irrefl. done. }
    split_and!.
    + eapply (mirror_write st _ c _ (Some (o, _)) Hm Hdec Hp); [reflexivity|reflexivity|].
      cbn [one_if]. rewrite Z.add_simpl_r, u64_id by lia. done.
    + cbn [s_elig set_elig set_age]. rewrite lookup_insert_eq. by apply Decode_Encode; apply Hp.
    + intros c' Hc. by apply lookup_insert_ne.
  - split_and!.
    + eapply (mirror_write st _ c _ None Hm Hdec I); [reflexivity|reflexivity|]. cbn [one_if]. rewrite Z.add_0_r. done.
    + cbn. by rewrite lookup_delete_eq.
    + intros c' Hc. by apply lookup_delete_ne.
  - specialize (Hold o eq_refl). split_and!.
    + eapply (mirror_write st _ c _ (Some (o, _)) Hm Hdec (conj Hold Hnow)); [reflexivity|reflexivity|].
      cbn [one_if]. rewrite Z.sub_0_r. done.
    + cbn. rewrite lookup_insert_eq. by apply Decode_Encode.
    + intros c' Hc. by apply lookup_insert_ne.
  - done.
Qed.
Lemma refresh_elig_frame ctx c st : ∃ e a t,
  refreshControllerEligibility ctx c st = set_total (λ _, t) (set_age (λ _, a) (set_elig (λ _, e) st)).
Proof.
  exists (s_elig (refreshControllerEligibility ctx c st)), (s_age (refreshControllerEligibility ctx c st)),
    (s_total (refreshControllerEligibility ctx c st)).
  unfold refreshControllerEligibility.
  destruct (DecodeControllerEligibility (s_elig st !! c)) as [[po ps]|], (oldest_standing (indexed_docs st c)) as [o|];
    [destruct (po =? o)|..]; by destruct st.
Qed.
Lemma refresh_sweep_frame c st : ∃ w, refreshControllerSweepStatus c st = set_sweep (λ _, w) st.
Proof.
  unfold refreshControllerSweepStatus. destruct (indexed_docs st c); [by eexists|].
  destruct (foldl _ _ _) as [[f s] r]. by eexists.
Qed.
Lemma refresh_sweep_record c st : s_sweep (refreshControllerSweepStatus c st) !! c = sweep_record (indexed_docs st c) ∧
  ∀ c', c' ≠ c → s_sweep (refreshControllerSweepStatus c st) !! c' = s_sweep st !! c'.
Proof.
  unfold refreshControllerSweepStatus, sweep_record. destruct (indexed_docs st c) as [|d docs].
  - split; [apply lookup_delete_eq|intros c' Hc; by apply lookup_delete_ne].
  - destruct (foldl _ _ _) as [[f s] r]. split; [apply lookup_insert_eq|intros c' Hc; by apply lookup_insert_ne].
Qed.

(** ** Writing one identity *)

(** the indexes are right for every controller outside [S] *)
Record index_except (S : string → Prop) (st : IdStore) : Prop := {
  ie_docs : docs_ok st;
  ie_ctrl : ctrl_ok st;
  ie_mirror : mirror_ok st;
  ie_elig c : nul_free c → ¬ S c →
    fst <$> DecodeControllerEligibility (s_elig st !! c) = oldest_standing (indexed_docs st c);
  ie_elig_dom c b : s_elig st !! c = Some b → nul_free c;
  ie_sweep c : nul_free c → ¬ S c → s_sweep st !! c = sweep_record (indexed_docs st c);
  ie_sweep_dom c b : s_sweep st !! c = Some b → nul_free c;
}.
Lemma index_except_none st : index_except (λ _, False) st ↔ index_ok st.
Proof. split; intros []; constructor; auto. Qed.

Lemma index_except_weaken (S S' : string → Prop) st :
  (∀ c, S c → S' c) → index_except S st → index_except S' st.
Proof. intros HS []. constructor; auto. Qed.

Definition refresh_both (ctx : Context) (c : string) (st : IdStore) : IdStore :=
  refreshControllerSweepStatus c (refreshControllerEligibility ctx c st).
Lemma refresh_both_frame ctx c st : ∃ e a t w,
  refresh_both ctx c st = set_sweep (λ _, w) (set_total (λ _, t) (set_age (λ _, a) (set_elig (λ _, e) st))).
Proof.
  unfold refresh_both. destruct (refresh_elig_frame ctx c st) as (e & a & t & ->).
  destruct (refresh_sweep_frame c (set_total (λ _, t) (set_age (λ _, a) (set_elig (λ _, e) st)))) as (w & ->). by eexists _, _, _, _.
Qed.

Lemma oldest_int64 st c o : docs_ok st → ctrl_ok st → nul_free c →
  oldest_standing (indexed_docs st c) = Some o → is_int64 o.
Proof.
  intros Hd Hc Hn Ho. pose proof (oldest_standing_spec (indexed_docs st c)) as H. rewrite Ho in H.
  destruct H as [(d & [Hl _]%elem_of_indexed_docs & _ & <-) _]; [|done..]. by destruct (Hd _ _ Hl) as (_ & _ & ?).
Qed.
Lemma next_record_fst now old oldest : fst <$> next_record now old oldest = oldest.
Proof. by destruct old as [[po ps]|], oldest. Qed.

Lemma refresh_both_index ctx c S st : nul_free c → is_int64 (BlockTime ctx) →
  index_except S st → index_except (λ c', S c' ∧ c' ≠ c) (refresh_both ctx c st).
Proof.
  intros Hn Hnow [Hd Hc Hm He Hed Hs Hsd].
  destruct (refresh_spec ctx c st Hm Hnow (λ o, oldest_int64 st c o Hd Hc Hn)) as (Hm' & Hrec & Hother).
  destruct (refresh_elig_frame ctx c st) as (e & a & t & E).
  set (st1 := refreshControllerEligibility ctx c st) in *.
  assert (∀ x, indexed_docs st1 x = indexed_docs st x) as Hix by (intros x; apply indexed_docs_ext; by rewrite E).
  destruct (refresh_sweep_record c st1) as [Hw Hwo]. destruct (refresh_sweep_frame c st1) as (w & Ew).
  change (refreshControllerSweepStatus c st1) with (refresh_both ctx c st) in Hw, Hwo, Ew. set (st2 := refresh_both ctx c st) in *.
  assert (∀ x, indexed_docs st2 x = indexed_docs st1 x) as Hix2 by (intros x; apply indexed_docs_ext; by rewrite Ew).
  assert (s_elig st2 = s_elig st1) as Eel by by rewrite Ew.
  constructor.
  - intros did d. replace (s_docs st2) with (s_docs st) by (by rewrite Ew, E). apply Hd.
  - intros k. replace (s_docs st2) with (s_docs st) by (by rewrite Ew, E).
    replace (s_ctrl st2) with (s_ctrl st) by (by rewrite Ew, E). apply Hc.
  - rewrite Ew. by destruct Hm' as [H1 H2 H3]; constructor.
  - intros x Hx HS. rewrite Eel, Hix2, Hix. destruct (decide (x = c)) as [->|Hne].
    + by rewrite Hrec, next_record_fst.
    + rewrite Hother by done. apply He; [done|]. naive_solver.
  - intros x b. rewrite Eel. destruct (decide (x = c)) as [->|Hne]; [done|]. rewrite Hother by done. apply Hed.
  - intros x Hx HS. rewrite Hix2. destruct (decide (x = c)) as [->|Hne]; [done|]. rewrite Hwo, Hix by done.
    replace (s_sweep st1) with (s_sweep st) by (by rewrite E). apply Hs; [done|]. naive_solver.
  - intros x b. destruct (decide (x = c)) as [->|Hne]; [done|]. rewrite Hwo by done.
    replace (s_sweep st1) with (s_sweep st) by (by rewrite E). apply Hsd.
Qed.

(** [SetIdentity] is the write of the document and its index entry, then the refreshes *)
Definition prev_controller (d : DIDDocument) (st : IdStore) : string :=
  match GetIdentity st (Did d) with
  | Some prev => if bool_decide (Controller prev = Controller d) then "" else Controller prev
  | None => ""
  end.
Definition write_doc (d : DIDDocument) (st : IdStore) : IdStore :=
  let st1 := match GetIdentity st (Did d) with
             | Some prev => if bool_decide (Controller prev = Controller d) then st
                            else set_ctrl (delete (ControllerIndexKey (Controller prev) (Did prev))) st
             | None => st
             end in
  set_ctrl <[ControllerIndexKey (Controller d) (Did d) := tt]> (set_docs <[Did d := d]> st1).
Lemma SetIdentity_phases ctx d st :
  SetIdentity ctx d st =
  (let st2 := refresh_both ctx (Controller d) (write_doc d st) in
   if bool_decide (prev_controller d st = "") then st2 else refresh_both ctx (prev_controller d st) st2).
Proof.
  unfold SetIdentity, prev_controller, write_doc, refresh_both.
  destruct (GetIdentity st (Did d)) as [prev|]; [|done]. by destruct (bool_decide (Controller prev = Controller d)).
Qed.

Lemma write_doc_ctrl d st k : docs_ok st → ctrl_ok st → controller_ok (Controller d) →
  is_Some (s_ctrl (write_doc d st) !! k) ↔
  k = ControllerIndexKey (Controller d) (Did d) ∨
  ∃ d', Did d' ≠ Did d ∧ s_docs st !! Did d' = Some d' ∧ k = ControllerIndexKey (Controller d') (Did d').
Proof.
  intros Hd Hc [_ Hn]. unfold write_doc, GetIdentity. cbn [s_ctrl set_ctrl]. rewrite lookup_insert_is_Some'.
  destruct (s_docs st !! Did d) as [prev|] eqn:Hp.
  - destruct (Hd _ _ Hp) as (Hdid & [_ Hpn] & _). case_bool_decide as E; cbn [s_ctrl set_ctrl set_docs].
    + rewrite (Hc k). split; [|naive_solver]. intros [<-|(d' & Hl & ->)]; [by left|].
      destruct (decide (Did d' = Did d)) as [E'|]; [|right; eauto].
      rewrite E', Hp in Hl. injection Hl as <-. left. congruence.
    + assert (is_Some (delete (ControllerIndexKey (Controller prev) (Did prev)) (s_ctrl st) !! k) ↔
        ∃ d', Did d' ≠ Did d ∧ s_docs st !! Did d' = Some d' ∧ k = ControllerIndexKey (Controller d') (Did d')) as ->;
        [|naive_solver]. split.
      * intros [u [Hk Hu]%lookup_delete_Some]. destruct (proj1 (Hc k) ltac:(eauto)) as (d' & Hl & ->).
        exists d'. split_and!; [|done..]. intros E'. rewrite E', Hp in Hl. injection Hl as ->. done.
      * intros (d' & Hne & Hl & ->). rewrite lookup_delete_ne; [apply Hc; eauto|].
        destruct (Hd _ _ Hl) as (_ & [_ Hn'] & _). intros [_ E']%ControllerIndexKey_inj; [|done..]. congruence.
  - cbn [s_ctrl set_docs]. rewrite (Hc k). split; [|naive_solver]. intros [<-|(d' & Hl & ->)]; [by left|].
    right. exists d'. split_and!; [|done..]. congruence.
Qed.

Lemma write_doc_docs d st : s_docs (write_doc d st) = <[Did d := d]> (s_docs st).
Proof. unfold write_doc. destruct (GetIdentity st (Did d)); [by case_match|done]. Qed.
Lemma write_doc_frame d st : ∃ c, write_doc d st = set_ctrl (λ _, c) (set_docs <[Did d := d]> st).
Proof.
  exists (s_ctrl (write_doc d st)). unfold write_doc. destruct (GetIdentity st (Did d)); [by case_match|done].
Qed.

Lemma omap_ext_elem {A B} (f g : A → option B) (l : list A) : (∀ x, x ∈ l → f x = g x) → omap f l = omap g l.
Proof.
  induction l as [|x l IH]; intros Hl; [done|]. cbn [omap list_omap]. rewrite (Hl x ltac:(left)).
  destruct (g x); [f_equal|]; apply IH; intros y Hy; apply Hl; by right.
Qed.

(** a controller that neither had nor gets the identity keeps its list *)
Lemma write_doc_other d st c : docs_ok st → ctrl_ok st → controller_ok (Controller d) → nul_free c →
  c ≠ Controller d → ¬ (c = prev_controller d st ∧ c ≠ "") → indexed_docs (write_doc d st) c = indexed_docs st c.
Proof.
  intros Hd Hc Hcd Hn Hne Hnp.
  assert (∀ k, has_prefix (ControllerIndexPrefixFor c) k = true → s_ctrl (write_doc d st) !! k = s_ctrl st !! k) as Hag.
  { intros k Hk. assert (is_Some (s_ctrl (write_doc d st) !! k) ↔ is_Some (s_ctrl st !! k)) as Hiff.
    { rewrite write_doc_ctrl, (Hc k) by done. split.
      - intros [->|(d' & _ & Hl & ->)]; [|eauto]. apply index_prefix in Hk; [done|done|apply Hcd].
      - intros (d' & Hl & ->). right. exists d'. split_and!; [|done..]. intros E. destruct (Hd _ _ Hl) as (_ & [Hne' Hn'] & _).
        apply index_prefix in Hk as ->; [|done..]. apply Hnp. split; [|done]. unfold prev_controller, GetIdentity.
        rewrite <- E, Hl. by rewrite bool_decide_eq_false_2. }
    destruct (s_ctrl (write_doc d st) !! k) as [[]|], (s_ctrl st !! k) as [[]|]; [done| | |done];
      destruct Hiff as [H1 H2]; [by destruct H1|by destruct H2]. }
  unfold indexed_docs, indexed_dids. rewrite (prefix_iterator_agree _ _ _ Hag).
  apply omap_ext_elem. intros did Hin.
  apply (elem_of_indexed_dids st) in Hin as (d' & Hl & <-); [|done..].
  unfold GetIdentity. rewrite write_doc_docs, lookup_insert_ne; [done|]. intros E.
  destruct (Hd _ _ Hl) as (Hdid & [Hne' _] & _). apply Hnp. split; [|done]. unfold prev_controller, GetIdentity. rewrite E, Hl.
  by rewrite bool_decide_eq_false_2.
Qed.

Lemma write_doc_index d st : controller_ok (Controller d) → is_int64 (CreatedAt d) → index_ok st →
  index_except (λ c, c = Controller d ∨ c = prev_controller d st ∧ c ≠ "") (write_doc d st).
Proof.
  intros Hc Ht [Hd Hi Hm He Hed Hs Hsd]. destruct (write_doc_frame d st) as (ci & E).
  assert (s_elig (write_doc d st) = s_elig st) as Ee by by rewrite E.
  assert (s_sweep (write_doc d st) = s_sweep st) as Es by by rewrite E.
  constructor.
  - intros did d'. rewrite write_doc_docs, lookup_insert_Some. intros [[<- <-]|[_ Hl]]; [done|by apply Hd].
  - intros k. rewrite write_doc_ctrl, write_doc_docs by done. split.
    + intros [->|(d' & Hne & Hl & ->)]; [exists d; by rewrite lookup_insert_eq|].
      exists d'. by rewrite lookup_insert_ne.
    + intros (d' & [[E1 <-]|[Hne Hl]]%lookup_insert_Some & ->); [by left|right; eauto].
  - rewrite E. by destruct Hm as [H1 H2 H3]; constructor.
  - intros c Hn HS. rewrite Ee, write_doc_other; [by apply He|done|done|done|done|naive_solver..].
  - intros c b. rewrite Ee. apply Hed.
  - intros c Hn HS. rewrite Es, write_doc_other; [by apply Hs|done|done|done|done|naive_solver..].
  - intros c b. rewrite Es. apply Hsd.
Qed.

(** [SetIdentity] keeps every index right *)
Lemma SetIdentity_index ctx d st : is_int64 (BlockTime ctx) → controller_ok (Controller d) → is_int64 (CreatedAt d) →
  index_ok st → index_ok (SetIdentity ctx d st).
Proof.
  intros Hnow Hc Ht Hix. pose proof (write_doc_index d st Hc Ht Hix) as Hw.
  apply (refresh_both_index ctx (Controller d)) in Hw; [|apply Hc|done].
  rewrite SetIdentity_phases. cbv zeta. apply index_except_none. case_bool_decide as Hp.
  - eapply index_except_weaken; [|exact Hw]. intros c [[?|[-> ?]] ?]; done.
  - assert (nul_free (prev_controller d st)) as Hnp.
    { unfold prev_controller in *. destruct (GetIdentity st (Did d)) as [prev|] eqn:Hl; [|done].
      case_bool_decide; [done|]. by destruct (ix_docs _ Hix _ _ Hl) as (_ & [_ ?] & _). }
    eapply index_except_weaken; [|apply (refresh_both_index ctx (prev_controller d st) _ _ Hnp Hnow Hw)].
    intros c [[[?|[? ?]] ?] ?]; done.
Qed.
