(* ===== verification/IdElig.v ===== *)
(** * x/identity: the quorum denominator

    The number of eligible controllers is the stored total less the controllers too young,
    counted from the young end of the age-ordered mirror.  Under [index_ok] it is the
    number of distinct controllers whose oldest standing identity is old enough, exactly
    when the walk is not cut short, and never less. *)
From stdpp Require Import base gmap strings list fin_maps sorting.
From Stdlib Require Import ZArith Lia Ascii.
From S2P Require Import Prelude GoInt KVStore StoreEntry Interfaces PhiDid IdTypes IdKeeper IdIndex.

(** ** The records as a list *)
Definition oldest_of (b : string) : Z := default 0 (fst <$> DecodeControllerEligibility (Some b)).
Definition age_key (cb : string * string) : string := EligibilityByAgeKey (oldest_of cb.2) cb.1.

Section mirror.
Context (st : IdStore) (Hm : mirror_ok st).
Lemma record_oldest c b : s_elig st !! c = Some b →
  is_int64 (oldest_of b) ∧ ∃ s, DecodeControllerEligibility (s_elig st !! c) = Some (oldest_of b, s).
Proof.
  intros Hb. destruct (mi_records _ Hm _ _ Hb) as (o & s & Hd & Ho & _). unfold oldest_of. rewrite Hb, Hd. eauto.
Qed.
Lemma age_keys_perm : (KVStorePrefixIterator (s_age st) "").*1 ≡ₚ age_key <$> map_to_list (s_elig st).
Proof.
  apply NoDup_Permutation; [apply Iterator_NoDup| |].
  - apply NoDup_fmap_2_strong; [|apply NoDup_map_to_list].
    intros [c b] [c' b'] Hb%elem_of_map_to_list Hb'%elem_of_map_to_list E.
    destruct (record_oldest _ _ Hb) as [Ho _], (record_oldest _ _ Hb') as [Ho' _].
    unfold age_key in E. cbn [fst snd] in E.
    destruct (EligibilityByAgeKey_inj _ _ _ _ Ho Ho' E) as [_ ->]. clear E. rewrite Hb in Hb'. by simplify_eq.
  - intros k. transitivity (is_Some (s_age st !! k)).
    { rewrite list_elem_of_fmap. split.
      - intros ([k' u] & -> & [Hk _]%elem_of_prefix_iterator). eauto.
      - intros [u Hu]. exists (k, u). split; [reflexivity|]. apply elem_of_prefix_iterator. split; [exact Hu|reflexivity]. }
    rewrite (mi_age _ Hm), list_elem_of_fmap. split.
    + intros (c & o & s & Hd & ->). destruct (s_elig st !! c) as [b|] eqn:Hb; [|done].
      exists (c, b). split; [|by apply elem_of_map_to_list]. unfold age_key, oldest_of. cbn [fst snd]. rewrite Hd. reflexivity.
    + intros ([c b] & -> & Hb%elem_of_map_to_list). destruct (record_oldest _ _ Hb) as (_ & s & Hd).
      exists c, (oldest_of b), s. split; [exact Hd|reflexivity].
Qed.
End mirror.

(** ** The walk from the young end *)
Definition newer (cutoff : Z) (k : string) : bool :=
  match CreatedAtFromEligibilityByAgeKey k with Some o => cutoff <? o | None => false end.
Definition count_if {A} (P : A → bool) (l : list A) : Z := Z.of_nat (length (List.filter P l)).

Lemma count_if_perm {A} (P : A → bool) l l' : l ≡ₚ l' → count_if P l = count_if P l'.
Proof. intros Hp. unfold count_if. by rewrite (filter_perm P _ _ Hp). Qed.
Lemma count_if_none {A} (P : A → bool) l : (∀ x, x ∈ l → P x = false) → count_if P l = 0.
Proof.
  intros Hl. unfold count_if. induction l as [|x l IH]; [done|]. simpl. rewrite (Hl x ltac:(left)).
  apply IH. intros y Hy. apply Hl. by right.
Qed.
Lemma count_if_cons {A} (P : A → bool) x l : count_if P (x :: l) = (if P x then 1 else 0) + count_if P l.
Proof. unfold count_if. simpl. destruct (P x); simpl; lia. Qed.
Lemma count_if_bounds {A} (P : A → bool) l : 0 ≤ count_if P l ≤ Z.of_nat (length l).
Proof. unfold count_if. pose proof (List.filter_length_le P l). lia. Qed.
Lemma count_if_negb {A} (P : A → bool) l : count_if (λ x, negb (P x)) l = Z.of_nat (length l) - count_if P l.
Proof. induction l as [|x l IH]; [done|]. rewrite !count_if_cons, IH. destruct (P x); simpl; lia. Qed.
Lemma count_if_fmap {A B} (P : B → bool) (f : A → B) l : count_if P (f <$> l) = count_if (λ x, P (f x)) l.
Proof. induction l as [|x l IH]; [done|]. rewrite fmap_cons, !count_if_cons, IH. done. Qed.
Lemma count_if_ext {A} (P Q : A → bool) l : (∀ x, x ∈ l → P x = Q x) → count_if P l = count_if Q l.
Proof.
  intros Hl. induction l as [|x l IH]; [done|]. rewrite !count_if_cons, (Hl x ltac:(left)), IH; [done|].
  intros y Hy. apply Hl. by right.
Qed.

(** keys in descending order, each with its age *)
Definition aged (k : string) : Prop := ∃ o c, is_int64 o ∧ k = EligibilityByAgeKey o c.
Definition key_ge (a b : string) : Prop := str_lt a b = false.
Lemma newer_mono cutoff a b : aged a → aged b → key_ge a b → newer cutoff a = false → newer cutoff b = false.
Proof.
  intros (o & c & Ho & ->) (o' & c' & Ho' & ->) Hge. unfold newer. rewrite !CreatedAt_key by done.
  rewrite !Z.ltb_ge. intros Hc. destruct (Z.le_gt_cases o' o); [lia|].
  unfold key_ge, EligibilityByAgeKey in Hge. rewrite SortableInt64_lt in Hge by done. discriminate.
Qed.
Lemma count_newer_spec cutoff ceiling ks n : Forall aged ks → StronglySorted key_ge ks →
  0 ≤ n ≤ ceiling → ceiling < 2 ^ 64 →
  (count_newer cutoff ceiling n ks).1 = Z.min (n + count_if (newer cutoff) ks) ceiling.
Proof.
  intros Ha Hs. revert n. induction Hs as [|k ks Hs IH Hk]; intros n Hn Hc.
  { unfold count_if. cbn. lia. }
  apply Forall_cons in Ha as [(o & c & Ho & ->) Ha]. rewrite count_if_cons. cbn [count_newer].
  pose proof (count_if_bounds (newer cutoff) ks) as Hb.
  destruct (Z.leb_spec ceiling n); [cbn [fst]; destruct (newer _ _); lia|].
  unfold newer at 1. rewrite CreatedAt_key by done.
  destruct (Z.leb_spec o cutoff) as [Hle|Hgt].
  - rewrite (proj2 (Z.ltb_ge _ _)) by lia. rewrite count_if_none; [cbn [fst]; lia|].
    intros k' Hk'. rewrite Forall_forall in Hk, Ha.
    apply (newer_mono cutoff (EligibilityByAgeKey o c)); [by exists o, c|by apply Ha|by apply Hk|].
    unfold newer. rewrite CreatedAt_key by done. apply Z.ltb_ge. lia.
  - rewrite (proj2 (Z.ltb_lt _ _)) by lia. rewrite u64_id by lia. rewrite IH by (done || lia). lia.
Qed.

Lemma StronglySorted_rev {A} (R : A → A → Prop) l : StronglySorted R l → StronglySorted (flip R) (rev l).
Proof.
  induction 1 as [|x l Hs IH Hx]; simpl; [constructor|]. apply StronglySorted_snoc; [done|].
  rewrite Forall_forall in *. intros y Hy. apply Hx. by rewrite list_elem_of_In, <- in_rev, <- list_elem_of_In in Hy.
Qed.
Lemma reverse_keys_sorted {V} (m : KVStore V) : StronglySorted key_ge (KVStoreReversePrefixIterator m "").*1.
Proof.
  unfold KVStoreReversePrefixIterator.
  assert (StronglySorted (flip entry_le) (rev (KVStorePrefixIterator m ""))) as Hs.
  { apply StronglySorted_rev, Sorted_StronglySorted; [apply _|]. apply filter_sorted, entries_sorted. }
  induction Hs as [|x l Hs IH Hx]; simpl; [constructor|]. constructor; [done|].
  rewrite Forall_fmap. eapply Forall_impl; [exact Hx|]. intros y. unfold flip, entry_le, str_le, key_ge. simpl.
  by rewrite negb_true_iff.
Qed.

(** ** The count *)
(** the controllers whose oldest standing identity was created by the cutoff *)
Definition eligible_controllers (st : IdStore) (cutoff : Z) : list string :=
  (List.filter (λ cb, oldest_of cb.2 <=? cutoff) (map_to_list (s_elig st))).*1.
Definition too_young (st : IdStore) (cutoff : Z) : Z :=
  count_if (λ cb, cutoff <? oldest_of cb.2) (map_to_list (s_elig st)).

Lemma eligible_count st cutoff :
  Z.of_nat (length (eligible_controllers st cutoff)) = Z.of_nat (size (s_elig st)) - too_young st cutoff.
Proof.
  unfold eligible_controllers, too_young. rewrite length_fmap.
  change (Z.of_nat (length (List.filter (λ cb, oldest_of cb.2 <=? cutoff) (map_to_list (s_elig st)))))
    with (count_if (λ cb, oldest_of cb.2 <=? cutoff) (map_to_list (s_elig st))).
  rewrite (count_if_ext _ (λ cb, negb (cutoff <? oldest_of cb.2))) by (intros x _; apply Z.leb_antisym).
  rewrite count_if_negb. f_equal. by rewrite length_map_to_list.
Qed.
Lemma tail_count st cutoff : mirror_ok st →
  (countEligibleNewerThan st cutoff).1 = Z.min (too_young st cutoff) MaxEligibilityTailScan.
Proof.
  intros Hm. unfold countEligibleNewerThan, countEligibleNewerThanCapped.
  assert ((KVStoreReversePrefixIterator (s_age st) "").*1 ≡ₚ age_key <$> map_to_list (s_elig st)) as Hp.
  { rewrite <- (age_keys_perm st Hm). unfold KVStoreReversePrefixIterator. by rewrite <- Permutation_rev. }
  rewrite count_newer_spec; [|..|apply reverse_keys_sorted|done|done].
  - rewrite Z.add_0_l. f_equal. rewrite (count_if_perm _ _ _ Hp), count_if_fmap.
    apply count_if_ext. intros [c b] Hb%elem_of_map_to_list. destruct (record_oldest st Hm _ _ Hb) as [Ho _].
    unfold newer, age_key. cbn [fst snd]. by rewrite CreatedAt_key.
  - rewrite Forall_forall. intros k Hk. rewrite Hp in Hk. apply list_elem_of_fmap in Hk as ([c b] & -> & Hb%elem_of_map_to_list).
    destruct (record_oldest st Hm _ _ Hb) as [Ho _]. exists (oldest_of b), c. split; [exact Ho|reflexivity].
Qed.

Lemma CountEligible_spec st t minAge : mirror_ok st → Z.of_nat (size (s_elig st)) < 2 ^ 64 →
  let cutoff := Unix (t + i64 (- minAge)) in
  CountEligibleControllersAt st t minAge =
  Z.of_nat (length (eligible_controllers st cutoff)) + Z.max 0 (too_young st cutoff - MaxEligibilityTailScan).
Proof.
  intros Hm Hsz cutoff. unfold CountEligibleControllersAt. fold cutoff.
  destruct (countEligibleNewerThan st cutoff) as [tail tr] eqn:Ht.
  pose proof (tail_count st cutoff Hm) as Htc. rewrite Ht in Htc. cbn [fst] in Htc.
  rewrite (mi_total _ Hm), u64_id by lia. rewrite eligible_count. 
  pose proof (count_if_bounds (λ cb, cutoff <? oldest_of cb.2) (map_to_list (s_elig st))) as Hb.
  fold (too_young st cutoff) in Hb. rewrite length_map_to_list in Hb.
  destruct (Z.ltb_spec (Z.of_nat (size (s_elig st))) tail); lia.
Qed.
Lemma elem_of_eligible st cutoff c : mirror_ok st →
  c ∈ eligible_controllers st cutoff ↔ ∃ o s, DecodeControllerEligibility (s_elig st !! c) = Some (o, s) ∧ o ≤ cutoff.
Proof.
  intros Hm. unfold eligible_controllers. rewrite list_elem_of_fmap. split.
  - intros ([c' b] & -> & Hin). apply list_elem_of_In, filter_In in Hin as [Hin%list_elem_of_In%elem_of_map_to_list Ho].
    cbn [fst snd] in *. destruct (record_oldest st Hm _ _ Hin) as (_ & s & Hd). exists (oldest_of b), s. split; [done|lia].
  - intros (o & s & Hd & Ho). destruct (s_elig st !! c) as [b|] eqn:Hb; [|done].
    exists (c, b). split; [done|]. apply list_elem_of_In, filter_In. split; [by apply list_elem_of_In, elem_of_map_to_list|].
    cbn [snd]. unfold oldest_of. rewrite Hd. cbn. lia.
Qed.
