(* ===== verification/IdInvariants.v ===== *)
(** * x/identity: the registered invariants

    [x/identity/keeper/invariants.go]: the four checks x/crisis runs, as they are written
    ([true] when the invariant is broken; the messages are not modelled, nor the order in
    which a broken state reports its first defect).  [index_ok], with the uniqueness
    markers and the statuses in order, makes all four hold. *)
From stdpp Require Import base gmap strings list fin_maps sorting.
From Stdlib Require Import ZArith Lia Ascii.
From S2P Require Import Prelude GoInt KVStore StoreEntry Interfaces PhiDid IdTypes IdKeeper IdIndex IdElig.

Definition UniquenessBijectionInvariant (st : IdStore) : bool :=
  existsb (λ d, match s_uniq st !! UniquenessHash d with
                | None => true
                | Some did => negb (bool_decide (did = Did d))
                end) (IterateIdentities st) ||
  existsb (λ kv, match GetIdentity st kv.2 with
                 | None => true
                 | Some d => negb (bool_decide (UniquenessHash d = kv.1))
                 end) (KVStorePrefixIterator (s_uniq st) "").

(** the index key up to its first NUL, and the rest *)
Fixpoint parseControllerIndexKey (key : string) : option (string * string) :=
  match key with
  | EmptyString => None
  | String c s =>
      if char_code c =? 0 then Some (EmptyString, s)
      else match parseControllerIndexKey s with
           | Some (controller, did) => Some (String c controller, did)
           | None => None
           end
  end.
Definition ControllerIndexInvariant (st : IdStore) : bool :=
  existsb (λ d, negb (bool_decide (is_Some (s_ctrl st !! ControllerIndexKey (Controller d) (Did d))))) (IterateIdentities st) ||
  existsb (λ kv, match parseControllerIndexKey kv.1 with
                 | None => true
                 | Some (controller, did) =>
                     match GetIdentity st did with
                     | None => true
                     | Some d => negb (bool_decide (Controller d = controller))
                     end
                 end) (KVStorePrefixIterator (s_ctrl st) "").

Definition valid_status (s : Z) : bool :=
  (s =? DID_STATUS_ACTIVE) || (s =? DID_STATUS_SUSPENDED) || (s =? DID_STATUS_REVOKED).
Definition StatusValidityInvariant (st : IdStore) : bool :=
  existsb (λ d, negb (valid_status (Status d))) (IterateIdentities st).

(** the oldest creation time of each controller that has a standing identity *)
Definition want_step (want : gmap string Z) (d : DIDDocument) : gmap string Z :=
  if Status d =? DID_STATUS_REVOKED then want
  else match want !! Controller d with
       | Some cur => if CreatedAt d <? cur then <[Controller d := CreatedAt d]> want else want
       | None => <[Controller d := CreatedAt d]> want
       end.
Definition want_of (st : IdStore) : gmap string Z := foldl want_step ∅ (IterateIdentities st).
Definition EligibilityIndexInvariant (st : IdStore) : bool :=
  let want := want_of st in
  existsb (λ co, match DecodeControllerEligibility (s_elig st !! co.1) with
                 | None => true
                 | Some (got, _) => negb (got =? co.2) || negb (bool_decide (is_Some (s_age st !! EligibilityByAgeKey co.2 co.1)))
                 end) (map_to_list want) ||
  existsb (λ kv, negb (bool_decide (is_Some (want !! kv.1)))) (KVStorePrefixIterator (s_elig st) "") ||
  (let records := u64 (Z.of_nat (length (KVStorePrefixIterator (s_elig st) ""))) in
   negb (EligibleControllerTotal st =? records) ||
   existsb (λ kv, negb (bool_decide (is_Some (CreatedAtFromEligibilityByAgeKey kv.1)))) (KVStoreReversePrefixIterator (s_age st) "") ||
   negb (u64 (Z.of_nat (length (KVStoreReversePrefixIterator (s_age st) ""))) =? records)).

Definition AllInvariants (st : IdStore) : bool :=
  UniquenessBijectionInvariant st || ControllerIndexInvariant st || StatusValidityInvariant st || EligibilityIndexInvariant st.

(** ** What makes them hold *)
Definition uniq_ok (st : IdStore) : Prop :=
  ∀ h did, s_uniq st !! h = Some did ↔ ∃ d, s_docs st !! did = Some d ∧ UniquenessHash d = h.
Definition status_ok (st : IdStore) : Prop :=
  ∀ did d, s_docs st !! did = Some d → valid_status (Status d) = true.

Lemma existsb_false {A} (P : A → bool) l : (∀ x, x ∈ l → P x = false) → existsb P l = false.
Proof.
  intros Hl. induction l as [|x l IH]; [done|]. cbn. rewrite (Hl x ltac:(left)). apply IH. intros y Hy. apply Hl. by right.
Qed.
Lemma elem_of_identities st d : docs_ok st → d ∈ IterateIdentities st ↔ s_docs st !! Did d = Some d.
Proof.
  intros Hd. unfold IterateIdentities. rewrite list_elem_of_fmap. split.
  - intros ([did d'] & -> & [Hl _]%elem_of_prefix_iterator). cbn [snd] in *. by destruct (Hd _ _ Hl) as [-> _].
  - intros Hl. exists (Did d, d). split; [done|]. by apply elem_of_prefix_iterator.
Qed.
Lemma parse_index_key c did : nul_free c → parseControllerIndexKey (ControllerIndexKey c did) = Some (c, did).
Proof.
  induction c as [|x c IH]; [done|]. unfold nul_free. cbn [all_chars]. intros [Hx Hc]%andb_true_iff.
  unfold is_nul in Hx. apply negb_true_iff in Hx.
  change (ControllerIndexKey (String x c) did) with (String x (ControllerIndexKey c did)).
  cbn [parseControllerIndexKey]. by rewrite Hx, (IH Hc).
Qed.

Lemma uniqueness_holds st : docs_ok st → uniq_ok st → UniquenessBijectionInvariant st = false.
Proof.
  intros Hd Hu. unfold UniquenessBijectionInvariant. rewrite !existsb_false; [done|..].
  - intros [h did] [Hl _]%elem_of_prefix_iterator. cbn [fst snd]. apply Hu in Hl as (d & Hg & <-).
    unfold GetIdentity. rewrite Hg. by rewrite bool_decide_eq_true_2.
  - intros d Hl%elem_of_identities; [|done]. rewrite (proj2 (Hu _ (Did d))) by eauto. by rewrite bool_decide_eq_true_2.
Qed.
Lemma controller_index_holds st : docs_ok st → ctrl_ok st → ControllerIndexInvariant st = false.
Proof.
  intros Hd Hc. unfold ControllerIndexInvariant. rewrite !existsb_false; [done|..].
  - intros [k u] [Hl _]%elem_of_prefix_iterator. cbn [fst]. destruct (proj1 (Hc k) ltac:(eauto)) as (d & Hg & ->).
    destruct (Hd _ _ Hg) as (_ & [_ Hn] & _). rewrite parse_index_key by done. unfold GetIdentity. rewrite Hg.
    by rewrite bool_decide_eq_true_2.
  - intros d Hl%elem_of_identities; [|done]. rewrite bool_decide_eq_true_2; [done|]. apply Hc. eauto.
Qed.
Lemma status_holds st : docs_ok st → status_ok st → StatusValidityInvariant st = false.
Proof.
  intros Hd Hs. apply existsb_false. intros d Hl%elem_of_identities; [|done]. by rewrite (Hs _ _ Hl).
Qed.

(** the oldest creation time depends on the set of identities only *)
Lemma oldest_standing_ext l l' : (∀ d, d ∈ l ↔ d ∈ l') → oldest_standing l = oldest_standing l'.
Proof.
  intros Hl. pose proof (oldest_standing_spec l) as H1. pose proof (oldest_standing_spec l') as H2.
  destruct (oldest_standing l) as [o|], (oldest_standing l') as [o'|]; [|exfalso|exfalso|done].
  - destruct H1 as [(d & Hd & Hs & <-) Hm], H2 as [(d' & Hd' & Hs' & <-) Hm']. f_equal.
    pose proof (Hm d' (proj2 (Hl d') Hd') Hs'). pose proof (Hm' d (proj1 (Hl d) Hd) Hs). lia.
  - destruct H1 as [(d & Hd & Hs & _) _]. by apply (H2 d (proj1 (Hl d) Hd)).
  - destruct H2 as [(d & Hd & Hs & _) _]. by apply (H1 d (proj2 (Hl d) Hd)).
Qed.
Lemma want_lookup l c :
  foldl want_step ∅ l !! c = oldest_standing (List.filter (λ d, bool_decide (Controller d = c)) l).
Proof.
  induction l as [|d l IH] using rev_ind; [apply lookup_empty|].
  rewrite foldl_app, List.filter_app. unfold oldest_standing. rewrite foldl_app. fold (oldest_standing (List.filter (λ d, bool_decide (Controller d = c)) l)).
  rewrite <- IH. cbn [foldl List.filter]. unfold want_step at 1.
  case_bool_decide as E; cbn [foldl]; unfold older.
  - subst c. destruct (Status d =? DID_STATUS_REVOKED); [done|].
    destruct (foldl want_step ∅ l !! Controller d) as [cur|] eqn:Hw; [|apply lookup_insert_eq].
    destruct (CreatedAt d <? cur); [apply lookup_insert_eq|done].
  - destruct (Status d =? DID_STATUS_REVOKED); [done|].
    destruct (foldl want_step ∅ l !! Controller d) as [cur|]; [case_match|]; [by rewrite lookup_insert_ne|done|by rewrite lookup_insert_ne].
Qed.
Lemma want_spec st c : index_ok st → nul_free c → want_of st !! c = fst <$> DecodeControllerEligibility (s_elig st !! c).
Proof.
  intros Hix Hn. unfold want_of. rewrite want_lookup, (ix_elig _ Hix c Hn). apply oldest_standing_ext. intros d.
  rewrite elem_of_indexed_docs by (apply Hix || done). rewrite list_elem_of_In, filter_In, <- list_elem_of_In, bool_decide_eq_true.
  by rewrite elem_of_identities by apply Hix.
Qed.
Lemma want_nul_free st c o : index_ok st → want_of st !! c = Some o → nul_free c.
Proof.
  intros Hix. unfold want_of. rewrite want_lookup. intros Ho.
  pose proof (oldest_standing_spec (List.filter (λ d, bool_decide (Controller d = c)) (IterateIdentities st))) as H.
  rewrite Ho in H. destruct H as [(d & Hin & _) _]. apply list_elem_of_In, filter_In in Hin as [Hin%list_elem_of_In <-%bool_decide_eq_true].
  apply elem_of_identities in Hin; [|apply Hix]. by destruct (ix_docs _ Hix _ _ Hin) as (_ & [_ ?] & _).
Qed.

Lemma iterator_length {V} (m : KVStore V) : length (KVStorePrefixIterator m "") = size m.
Proof.
  rewrite <- length_map_to_list. apply Permutation_length, NoDup_Permutation.
  - eapply NoDup_fmap_1, Iterator_NoDup.
  - apply NoDup_map_to_list.
  - intros [k v]. rewrite elem_of_prefix_iterator, elem_of_map_to_list. naive_solver.
Qed.
Lemma reverse_length {V} (m : KVStore V) : length (KVStoreReversePrefixIterator m "") = size m.
Proof. unfold KVStoreReversePrefixIterator. by rewrite length_rev, iterator_length. Qed.
Lemma mirror_size st : mirror_ok st → size (s_age st) = size (s_elig st).
Proof.
  intros Hm. rewrite <- iterator_length, <- length_map_to_list, <- (length_fmap fst (KVStorePrefixIterator _ _)).
  by rewrite (age_keys_perm st Hm), length_fmap.
Qed.

Lemma eligibility_holds st : index_ok st → EligibilityIndexInvariant st = false.
Proof.
  intros Hix. pose proof (ix_mirror _ Hix) as Hm. unfold EligibilityIndexInvariant. cbv zeta.
  rewrite !iterator_length, !reverse_length, (mirror_size st Hm), (mi_total _ Hm), !Z.eqb_refl.
  rewrite !existsb_false; [done|..].
  - intros [k u] Hin. cbn [fst]. unfold KVStoreReversePrefixIterator in Hin.
    rewrite list_elem_of_In, <- in_rev, <- list_elem_of_In in Hin. apply elem_of_prefix_iterator in Hin as [Hk _].
    destruct (proj1 (mi_age _ Hm k) ltac:(eauto)) as (c & o & s & Hd & ->).
    rewrite CreatedAt_key by (by destruct (mirror_decode _ _ _ _ Hm Hd)). by rewrite bool_decide_eq_true_2 by eauto.
  - intros [c b] [Hl _]%elem_of_prefix_iterator. cbn [fst]. rewrite (want_spec st c Hix (ix_elig_dom _ Hix _ _ Hl)).
    destruct (mi_records _ Hm _ _ Hl) as (o & s & Hd & _). rewrite Hl, Hd. by rewrite bool_decide_eq_true_2 by eauto.
  - intros [c o] Hl%elem_of_map_to_list. cbn [fst snd]. pose proof Hl as Hw. rewrite want_spec in Hw by eauto using want_nul_free.
    destruct (DecodeControllerEligibility (s_elig st !! c)) as [[got s]|] eqn:Hd; [|done]. injection Hw as ->.
    rewrite Z.eqb_refl, bool_decide_eq_true_2; [done|]. apply (mi_age _ Hm). eauto.
Qed.

Lemma AllInvariants_hold st : index_ok st → uniq_ok st → status_ok st → AllInvariants st = false.
Proof.
  intros Hix Hu Hs. unfold AllInvariants.
  by rewrite uniqueness_holds, controller_index_holds, status_holds, eligibility_holds by (done || apply Hix).
Qed.
