(* ===== verification/IdSweep.v ===== *)
(** * x/identity: validators

    [staking_hook.go]: a validator is created only by an account with an ACTIVE identity
    that backs no other validator.  [validator_sweep.go]: every block, each active
    validator is kept, bound, jailed or removed by the status of the identity behind it;
    a validator that cannot be judged is skipped with the state it had.
    [genesis_founders.go]: the same rule for the validators of a genesis.

    x/staking and x/slashing are the parameter [SweepStaking]; [ValCodec] is the bech32
    form of operator addresses. *)
From stdpp Require Import base gmap strings list.
From Stdlib Require Import ZArith Lia.
From S2P Require Import Prelude GoInt KVStore Interfaces PhiDid IdTypes IdKeeper IdServer.

Class ValCodec := {
  ValAddressFromBech32 : string → option string;
  ValAddress_String : string → string;
}.
(** the decoder reads back what the encoder writes, and accepts no empty text, none of more than 1023
    characters nor one of an address of the wrong length *)
Class ValCodecLaws `{ValCodec} : Prop := {
  val_decode_encode a : valid_address a → ValAddressFromBech32 (ValAddress_String a) = Some a;
  val_text s a : ValAddressFromBech32 s = Some a → valid_address a ∧ 0 < strlen s ≤ 1023;
}.
Record ValidatorI := mkValidatorI {
  v_Operator : string;
  v_ConsAddr : option string;    (** [GetConsAddr], [None] for an error *)
  v_Jailed : bool;
  v_Bonded : bool;
}.
Class SweepStaking (T : Type) := {
  IterateLastValidators : T → option (list ValidatorI);
  GetAllValidators : T → option (list ValidatorI);
  GetMinSelfDelegation : T → string → outcome Z;
  Jail : string → M T unit;
  IsTombstoned : T → string → bool;
  Tombstone : string → M T unit;
  JailUntil : string → Z → M T unit;
}.

(** every record of the validator says it is jailed *)
Definition in_jail {T} `{SweepStaking T} (t : T) (consAddr : string) : Prop :=
  ∀ vs v, GetAllValidators t = Some vs → v ∈ vs → v_ConsAddr v = Some consAddr → v_Jailed v = true.
(** nobody leaves jail or loses a tombstone *)
Definition staking_keeps {T} `{SweepStaking T} (t t' : T) : Prop :=
  (∀ c, in_jail t c → in_jail t' c) ∧ (∀ c, IsTombstoned t c = true → IsTombstoned t' c = true).
(** x/staking jails the validator it is told to, x/slashing tombstones it, neither frees
    another, and the validators of the last block are read as they stand *)
Class SweepStakingLaws (T : Type) `{SweepStaking T} : Prop := {
  jail_law c t o t' : Jail c t = (o, t') → staking_keeps t t' ∧ (o = Ok tt → in_jail t' c);
  tombstone_law c t o t' : Tombstone c t = (o, t') → staking_keeps t t' ∧ (o = Ok tt → IsTombstoned t' c = true);
  until_law c x t o t' : JailUntil c x t = (o, t') → staking_keeps t t';
  listed_law t vs v c : IterateLastValidators t = Some vs → v ∈ vs → v_ConsAddr v = Some c → v_Jailed v = true → in_jail t c;
}.

Inductive ValidatorSweepOutcome := SweepKept | SweepBound | SweepJailed | SweepTombstoned.
Definition permanentJailUntil : Z := 2 ^ 62.

Record SweepState (T : Type) := mkSweepState { ss_store : IdStore; ss_staking : T; ss_events : list Event }.
Arguments mkSweepState {T}.
Arguments ss_store {T}. Arguments ss_staking {T}. Arguments ss_events {T}.

Section sweep.
Context {T : Type} `{SweepStaking T} `{AddressCodec} `{ValCodec}.
(** [err.Error()] *)
Context (error_text : error → string).
Abbreviation SS := (SweepState T).

Definition sw_write (f : IdStore → IdStore) : M SS unit :=
  modify (λ s, mkSweepState (f (ss_store s)) (ss_staking s) (ss_events s)).
Definition sw_look {A} (f : IdStore → A) : M SS A := reads (λ s, f (ss_store s)).
Definition on_staking {A} : M T A → M SS A :=
  zoom ss_staking (λ t s, mkSweepState (ss_store s) t (ss_events s)).
Definition sw_emit (ty : string) (attrs : list (string * string)) : M SS unit :=
  modify (λ s, mkSweepState (ss_store s) (ss_staking s) (ss_events s ++ [mkEvent ty attrs])).
Definition emitSweep (valoper did action : string) : M SS unit :=
  sw_emit "validator_binding_sweep" [("validator", valoper); ("did", did); ("action", action)].
Definition emitSweepFailed (valoper reason : string) : M SS unit :=
  sw_emit "validator_sweep_failed" [("validator", valoper); ("reason", reason)].

(** an address that does not decode is nil, whose account text is empty *)
Definition operator_account (valoper : string) : string :=
  match ValAddressFromBech32 valoper with Some a => AccAddress_String a | None => "" end.

Definition removeReversibly (consAddr valoper did : string) (alreadyJailed : bool) : M SS ValidatorSweepOutcome :=
  if alreadyJailed then mret SweepJailed else
  on_staking (Jail consAddr);;
  emitSweep valoper did "jailed";;
  mret SweepJailed.
Definition removePermanently (consAddr : string) (alreadyJailed : bool) : M SS ValidatorSweepOutcome :=
  (if alreadyJailed then mret tt else on_staking (Jail consAddr));;
  tombstoned ← reads (λ s, IsTombstoned (ss_staking s) consAddr);
  (if negb tombstoned then
     attempt (on_staking (Tombstone consAddr));;
     attempt (on_staking (JailUntil consAddr permanentJailUntil));;
     mret tt
   else mret tt);;
  mret SweepTombstoned.
Definition removeByIdentityStatus (valoper acc consAddr : string) (alreadyJailed : bool) : M SS ValidatorSweepOutcome :=
  status ← sw_look (λ st, ControllerSweepStatus st acc);
  if sw_HasRevoked status && negb (sw_HasSuspended status)
  then removePermanently consAddr alreadyJailed
  else removeReversibly consAddr valoper "" alreadyJailed.

Definition sweepOne (valoper consAddr : string) (alreadyJailed : bool) : M SS ValidatorSweepOutcome :=
  bound ← sw_look (λ st, DIDForValidator st valoper);
  let acc := operator_account valoper in
  match bound with
  | None =>
      status ← sw_look (λ st, ControllerSweepStatus st acc);
      let primary := sw_ActiveDID status in
      if bool_decide (primary = "") then removeByIdentityStatus valoper acc consAddr alreadyJailed else
      other ← sw_look (λ st, ValidatorForDID st primary);
      if match other with Some o => negb (bool_decide (o = valoper)) | None => false end
      then removeReversibly consAddr valoper primary alreadyJailed
      else
        sw_write (BindValidatorToDID primary valoper);;
        emitSweep valoper primary "bound";;
        mret SweepBound
  | Some did =>
      o ← sw_look (λ st, GetIdentity st did);
      match o with
      | None =>
          sw_write (UnbindValidator valoper);;
          removeByIdentityStatus valoper acc consAddr alreadyJailed
      | Some doc =>
          if Status doc =? DID_STATUS_ACTIVE then mret SweepKept
          else if Status doc =? DID_STATUS_SUSPENDED then
            (if alreadyJailed then mret tt
             else on_staking (Jail consAddr);; emitSweep valoper did "jailed");;
            mret SweepJailed
          else
            sw_write (UnbindValidator valoper);;
            removePermanently consAddr alreadyJailed
      end
  end.

(** the cached branch is written only on success: an error or a panic leaves the state,
    but for the event that reports it *)
Definition sweepOneIsolated (valoper consAddr : string) (alreadyJailed : bool) (s : SS) : option ValidatorSweepOutcome * SS :=
  match sweepOne valoper consAddr alreadyJailed s with
  | (Ok outcome, s') => (Some outcome, s')
  | (Err e, _) => (None, (emitSweepFailed valoper (error_text e) s).2)
  | (Panic w, _) => (None, (emitSweepFailed valoper ("panic: " +:+ w) s).2)
  end.

Definition actives (vs : list ValidatorI) : list (string * string * bool) :=
  omap (λ v, cons ← v_ConsAddr v; Some (v_Operator v, cons, v_Jailed v)) vs.
Fixpoint sweep_all (l : list (string * string * bool)) (outcomes : gmap string ValidatorSweepOutcome) (s : SS)
    : gmap string ValidatorSweepOutcome * SS :=
  match l with
  | [] => (outcomes, s)
  | (valoper, consAddr, jailed) :: l' =>
      let '(o, s') := sweepOneIsolated valoper consAddr jailed s in
      sweep_all l' (match o with Some out => <[valoper := out]> outcomes | None => outcomes end) s'
  end.
(** the validators the sweep judges: operator, consensus address, whether jailed *)
Definition candidates (t : T) : list (string * string * bool) := default [] (actives <$> IterateLastValidators t).
Definition SweepValidatorBindings (s : SS) : gmap string ValidatorSweepOutcome * SS :=
  match IterateLastValidators (ss_staking s) with
  | Some vs => sweep_all (actives vs) ∅ s
  | None => (∅, s)
  end.
Definition EndBlock (s : SS) : SS := snd (SweepValidatorBindings s).

(** ** Staking hooks *)
Definition AfterValidatorCreated (minSelfStake : Z) (ctx : Context) (valAddr : string) : M SS unit :=
  if BlockHeight ctx =? 0 then mret tt else
  let acc := AccAddress_String valAddr in
  primary ← sw_look (λ st, PrimaryDID st acc);
  did ← or_fail primary ErrValidatorNeedsDID;
  bound ← sw_look (λ st, ValidatorForDID st did);
  fail_if (match bound with Some b => negb (bool_decide (b = ValAddress_String valAddr)) | None => false end) ErrDIDAlreadyValidator;;
  msd ← query (λ s, GetMinSelfDelegation (ss_staking s) valAddr);
  fail_if (msd <? minSelfStake) ErrMinSelfDelegation;;
  sw_write (BindValidatorToDID did (ValAddress_String valAddr)).
Definition AfterValidatorRemoved (valAddr : string) : M SS unit :=
  sw_write (UnbindValidator (ValAddress_String valAddr)).

(** ** Founders *)
Fixpoint missing_founders (st : IdStore) (vs : list ValidatorI) : outcome (list string) :=
  match vs with
  | [] => Ok []
  | v :: vs' =>
      if v_Jailed v || negb (v_Bonded v) then missing_founders st vs'
      else
        valAddr ← or_err (ValAddressFromBech32 (v_Operator v)) (Plain "undecodable operator address");
        rest ← missing_founders st vs';
        Ok (match PrimaryDID st (AccAddress_String valAddr) with Some _ => rest | None => v_Operator v :: rest end)
  end.
Definition ValidateGenesisFounders (st : IdStore) (t : T) : outcome unit :=
  vs ← or_err (GetAllValidators t) (Plain "cannot read the validator set");
  missing ← missing_founders st vs;
  err_if (0 <? length missing)%nat (Plain "active validators have no ACTIVE DID").
End sweep.
