(* ===== verification/IdStep.v ===== *)
(** * x/identity: what a message can do to the registry

    Every successful handler is a sequence of three kinds of writes to the registry: an
    existing identity rewritten with its marker and its creation time kept, a new identity
    registered under an unused marker, and writes to records the registry is not derived
    from.  [id_write] is that relation; the registry's invariants are proved over it. *)
From stdpp Require Import base gmap strings list fin_maps relations.
From Stdlib Require Import ZArith Lia Ascii.
From S2P Require Import Prelude GoInt KVStore Interfaces PhiDid IdTypes IdKeeper IdServer IdIndex IdElig IdInvariants.

(** ** Writes *)
Record same_index (st st' : IdStore) : Prop := {
  si_docs : s_docs st' = s_docs st;
  si_ctrl : s_ctrl st' = s_ctrl st;
  si_elig : s_elig st' = s_elig st;
  si_age : s_age st' = s_age st;
  si_total : s_total st' = s_total st;
  si_sweep : s_sweep st' = s_sweep st;
}.
#[export] Instance same_index_refl : Reflexive same_index.
Proof. by constructor. Qed.
#[export] Instance same_index_trans : Transitive same_index.
Proof. intros a b c [] []. constructor; congruence. Qed.

Definition same_registry (st st' : IdStore) : Prop := same_index st st' ∧ s_uniq st' = s_uniq st.
#[export] Instance same_registry_refl : Reflexive same_registry.
Proof. by split. Qed.
#[export] Instance same_registry_trans : Transitive same_registry.
Proof. intros a b c [H1 E1] [H2 E2]. split; [by etrans|congruence]. Qed.

Inductive id_write (ctx : Context) : IdStore → IdStore → Prop :=
| w_update st d d0 : s_docs st !! Did d = Some d0 → UniquenessHash d = UniquenessHash d0 → CreatedAt d = CreatedAt d0 →
    controller_ok (Controller d) → valid_status (Status d) = true →
    (Status d0 = DID_STATUS_REVOKED → d = d0) → id_write ctx st (SetIdentity ctx d st)
| w_register st d : s_docs st !! Did d = None → s_uniq st !! UniquenessHash d = None → CreatedAt d = BlockTime ctx →
    controller_ok (Controller d) → Status d = DID_STATUS_ACTIVE → ValidateDID (Did d) = Ok tt →
    id_write ctx st (setUniqueness (UniquenessHash d) (Did d) (SetIdentity ctx d st))
| w_frame st st' : same_registry st st' → id_write ctx st st'.
Definition id_evolves (ctx : Context) : IdStore → IdStore → Prop := rtc (id_write ctx).

(** the registry's invariant *)
Record registry_ok (st : IdStore) : Prop := {
  ro_index : index_ok st;
  ro_uniq : uniq_ok st;
  ro_status : status_ok st;
  ro_dids did d : s_docs st !! did = Some d → ValidateDID did = Ok tt;
}.

Lemma SetIdentity_frame ctx d st : ∃ c e a t w, SetIdentity ctx d st =
  set_sweep (λ _, w) (set_total (λ _, t) (set_age (λ _, a) (set_elig (λ _, e) (set_ctrl (λ _, c) (set_docs <[Did d := d]> st))))).
Proof.
  rewrite SetIdentity_phases. cbv zeta. destruct (write_doc_frame d st) as (c & ->).
  destruct (refresh_both_frame ctx (Controller d) (set_ctrl (λ _, c) (set_docs <[Did d:=d]> st))) as (e & a & t & w & ->).
  case_bool_decide; [by eexists _, _, _, _, _|].
  set (st2 := set_sweep _ _). destruct (refresh_both_frame ctx (prev_controller d st) st2) as (e2 & a2 & t2 & w2 & ->).
  by eexists c, e2, a2, t2, w2.
Qed.
Lemma SetIdentity_docs ctx d st : s_docs (SetIdentity ctx d st) = <[Did d := d]> (s_docs st).
Proof. by destruct (SetIdentity_frame ctx d st) as (? & ? & ? & ? & ? & ->). Qed.
Lemma SetIdentity_uniq ctx d st : s_uniq (SetIdentity ctx d st) = s_uniq st.
Proof. by destruct (SetIdentity_frame ctx d st) as (? & ? & ? & ? & ? & ->). Qed.

Lemma index_ok_same st st' : same_index st st' → index_ok st → index_ok st'.
Proof.
  intros [E1 E3 E4 E5 E6 E7] [Hd Hc [M1 M2 M3] He Hed Hs Hsd].
  assert (∀ c, indexed_docs st' c = indexed_docs st c) as Hix by (intros; by apply indexed_docs_ext).
  constructor.
  - intros did d. rewrite E1. apply Hd.
  - intros k. rewrite E1, E3. apply Hc.
  - constructor; [intros c b; rewrite E4; apply M1|intros k; rewrite E4, E5; apply M2|].
    unfold EligibleControllerTotal in *. by rewrite E4, E6.
  - intros c. rewrite E4, Hix. apply He.
  - intros c b. rewrite E4. apply Hed.
  - intros c. rewrite E7, Hix. apply Hs.
  - intros c b. rewrite E7. apply Hsd.
Qed.

Lemma registry_write ctx st st' : is_int64 (BlockTime ctx) → id_write ctx st st' → registry_ok st → registry_ok st'.
Proof.
  intros Hnow Hw [Hix Hu Hs Hds]. destruct Hw as [st d d0 Hl Hh Ht Hc Hv Hr|st d Hl Hf Ht Hc Hv Hdid|st st' [Hsame Hu']].
  - constructor.
    + apply SetIdentity_index; [done|done| |done]. rewrite Ht. by destruct (ix_docs _ Hix _ _ Hl) as (_ & _ & ?).
    + intros h did. rewrite SetIdentity_uniq, SetIdentity_docs, (Hu h did). split.
      * intros (d' & Hd' & Hhd'). destruct (decide (did = Did d)) as [->|Hne].
        -- exists d. rewrite lookup_insert_eq. split; [done|]. congruence.
        -- exists d'. by rewrite lookup_insert_ne.
      * intros (d' & [[<- <-]|[Hne Hd']]%lookup_insert_Some & Hhd'); [|eauto]. exists d0. split; [done|congruence].
    + intros did d'. rewrite SetIdentity_docs, lookup_insert_Some. intros [[_ <-]|[_ Hd']]; [done|by apply (Hs did)].
    + intros did d'. rewrite SetIdentity_docs, lookup_insert_Some. intros [[<- _]|[_ Hd']]; [by eapply Hds|by eapply Hds].
  - constructor.
    + apply (index_ok_same (SetIdentity ctx d st)); [by constructor|]. apply SetIdentity_index; [done|done|by rewrite Ht|done].
    + intros h did. cbn [s_uniq setUniqueness set_uniq]. rewrite SetIdentity_uniq.
      replace (s_docs (setUniqueness (UniquenessHash d) (Did d) (SetIdentity ctx d st))) with (<[Did d := d]> (s_docs st))
        by (by rewrite <- (SetIdentity_docs ctx)).
      rewrite lookup_insert_Some. split.
      * intros [[<- <-]|[Hne (d' & Hd' & Hhd')%Hu]]; [exists d; by rewrite lookup_insert_eq|].
        exists d'. rewrite lookup_insert_ne; [done|]. congruence.
      * intros (d' & [[<- <-]|[Hne Hd']]%lookup_insert_Some & Hhd'); [by left|]. right.
        assert (s_uniq st !! h = Some did) as Hh by (apply Hu; eauto). split; [|done]. congruence.
    + intros did d'. replace (s_docs (setUniqueness _ _ (SetIdentity ctx d st))) with (<[Did d := d]> (s_docs st))
        by (by rewrite <- (SetIdentity_docs ctx)).
      rewrite lookup_insert_Some. intros [[_ <-]|[_ Hd']]; [by rewrite Hv|by apply (Hs did)].
    + intros did d'. replace (s_docs (setUniqueness _ _ (SetIdentity ctx d st))) with (<[Did d := d]> (s_docs st))
        by (by rewrite <- (SetIdentity_docs ctx)).
      rewrite lookup_insert_Some. intros [[<- _]|[_ Hd']]; [done|by eapply Hds].
  - constructor; [by eapply index_ok_same| | |].
    + intros h did. rewrite (si_docs _ _ Hsame), Hu'. apply Hu.
    + intros did d. rewrite (si_docs _ _ Hsame). apply Hs.
    + intros did d. rewrite (si_docs _ _ Hsame). apply Hds.
Qed.
Lemma registry_evolves ctx st st' : is_int64 (BlockTime ctx) → id_evolves ctx st st' → registry_ok st → registry_ok st'.
Proof. intros Hnow. induction 1 as [|a b c Hw _ IH]; [done|]. eauto using registry_write. Qed.

Create HintDb calm.

(** ** Calm computations: they leave the registry and the validator bindings alone,
    whatever their outcome *)
Definition same_records (st st' : IdStore) : Prop :=
  same_registry st st' ∧ s_did_val st' = s_did_val st ∧ s_val_did st' = s_val_did st.
#[export] Instance same_records_refl : Reflexive same_records.
Proof. done. Qed.
#[export] Instance same_records_trans : Transitive same_records.
Proof. intros a b c (R1 & E1 & E2) (R2 & E3 & E4). split; [by trans b|]. split; congruence. Qed.

Section handlers.
Context {B : Type} `{BankKeeper B} `{AddressCodec} `{Hasher} `{Verifier}.
Context (authority : string) (reauth : bool).
Abbreviation St := (IdState B).
Definition calm {A} (m : M St A) : Prop :=
  ∀ s o s', m s = (o, s') → same_records (id_store s) (id_store s').

Lemma calm_over_ret {A} (a : A) : calm (mret a).
Proof. by intros s o s' [= <- <-]. Qed.
Lemma calm_over_bind {A C} (m : M St A) (f : A → M St C) : calm m → (∀ a, calm (f a)) → calm (m ≫= f).
Proof.
  intros Hm Hf s o s'. unfold mbind, M_bind. destruct (m s) as [[a|e|w] s1] eqn:E; intros Hr.
  - etrans; [by eapply Hm|by eapply Hf].
  - injection Hr as <- <-. by eapply Hm.
  - injection Hr as <- <-. by eapply Hm.
Qed.
Lemma calm_over_lift {A} (x : outcome A) : calm (lift x).
Proof. by intros s o s' [= <- <-]. Qed.
Lemma calm_over_fail_if b e : calm (fail_if b e).
Proof. unfold fail_if. destruct b; by intros s o s' [= <- <-]. Qed.
Lemma calm_over_or_fail {A} (x : option A) e : calm (or_fail x e).
Proof. unfold or_fail. destruct x; by intros s o s' [= <- <-]. Qed.
Lemma calm_look {A} (f : IdStore → A) : calm (look f).
Proof. by intros s o s' [= <- <-]. Qed.
Lemma calm_check f : calm (check f).
Proof. by intros s o s' [= <- <-]. Qed.
Lemma calm_over_query {A} (f : St → outcome A) : calm (query f).
Proof. by intros s o s' [= <- <-]. Qed.
Lemma calm_emit ty l : calm (EmitEvent ty l).
Proof. by intros s o s' [= <- <-]. Qed.
Lemma calm_bank {A} (m : M B A) : calm (on_bank m).
Proof. intros s o s'. unfold on_bank, zoom. destruct (m (id_bank s)) as [x b]. by intros [= <- <-]. Qed.
Lemma calm_write f : (∀ st, same_records st (f st)) → calm (write f).
Proof. intros Hf s o s' [= <- <-]. apply Hf. Qed.
Lemma calm_params p : calm (on_store (SetParams p)).
Proof.
  intros s o s'. unfold on_store, zoom, SetParams. destruct (Params_Validate p); by intros [= <- <-].
Qed.
Lemma calm_if {A} (b : bool) (m n : M St A) : calm m → calm n → calm (if b then m else n).
Proof. by destruct b. Qed.
Lemma calm_for_each {A} (l : list A) (f : A → M St unit) : (∀ a, calm (f a)) → calm (for_each l f).
Proof. intros Hf. induction l as [|a l IH]; cbn; [apply calm_over_ret|]. by apply calm_over_bind. Qed.
#[local] Hint Resolve calm_over_ret calm_over_lift calm_over_fail_if calm_over_or_fail calm_look calm_check calm_over_query calm_emit calm_bank calm_params : calm.
Ltac calm_step :=
  first
  [ solve [auto with calm]
  | apply calm_over_bind; [|intros ?]
  | apply calm_if
  | apply calm_for_each; intros ?
  | apply calm_write; intros st; solve [by repeat constructor]
  | match goal with
    | |- calm (match ?x with _ => _ end) => destruct x
    | |- calm (let _ := _ in _) => cbv zeta
    end ].
Ltac calm_tac := repeat calm_step.

Lemma calm_forfeit r : calm (forfeitDeposit r).
Proof. unfold forfeitDeposit. calm_tac. Qed.
Lemma calm_refund r : calm (refundDeposit r).
Proof. unfold refundDeposit. calm_tac. Qed.
#[local] Hint Resolve calm_forfeit calm_refund : calm.
Lemma calm_reap ctx r : calm (reapIfExpired ctx r).
Proof. unfold reapIfExpired, recovery_event. calm_tac. Qed.
#[local] Hint Resolve calm_reap : calm.
Lemma calm_count_open ctx n rs : calm (count_open ctx n rs).
Proof. revert n. induction rs as [|r rs IH]; intros n; cbn [count_open]; [auto with calm|]. apply calm_over_bind; auto with calm. Qed.
Lemma calm_terminate did : calm (terminateRecoveryRequestsForDID did).
Proof. unfold terminateRecoveryRequestsForDID, supersede, recovery_event. calm_tac. Qed.
Lemma calm_supersede did id : calm (supersedeSiblings did id).
Proof. unfold supersedeSiblings, supersede, recovery_event. calm_tac. Qed.
Lemma calm_thaw ctx did : calm (thawRecoveries ctx did).
Proof. unfold thawRecoveries, recovery_event. calm_tac. Qed.
Lemma calm_pending ctx id : calm (pending_request ctx id).
Proof. unfold pending_request. calm_tac. Qed.
Lemma calm_sync r : calm (sync_tally r).
Proof.
  intros s o s'. unfold sync_tally, syncTallyEpoch.
  destruct (_ =? _); intros [= <- <-]; by repeat constructor.
Qed.
Lemma calm_identity did : calm (the_identity did).
Proof. unfold the_identity. calm_tac. Qed.
Lemma calm_freeze ctx did : calm (write (freezeLiveRecoveries ctx did)).
Proof.
  apply calm_write. intros st. unfold freezeLiveRecoveries. generalize (RecoveryRequestsForDID st did) as rs. intros rs.
  revert st. induction rs as [|r rs IH]; intros st; cbn [foldl]; [done|]. etrans; [|apply IH].
  unfold freeze_one. repeat case_match; by repeat constructor.
Qed.
Lemma calm_epoch did : calm (write (bumpGuardianEpoch did)).
Proof. apply calm_write. intros st. unfold bumpGuardianEpoch. case_match; by repeat constructor. Qed.
#[local] Hint Resolve calm_count_open calm_terminate calm_supersede calm_thaw calm_pending calm_sync calm_identity calm_freeze calm_epoch : calm.

Lemma calm_SetGuardians ctx m : calm (SetGuardians ctx m).
Proof. unfold SetGuardians. calm_tac. Qed.
Lemma calm_UpdateParams m : calm (UpdateParams authority m).
Proof. unfold UpdateParams. calm_tac. Qed.
Lemma calm_RegisterTrustedIssuer m : calm (RegisterTrustedIssuer authority m).
Proof. unfold RegisterTrustedIssuer. calm_tac. Qed.
Lemma calm_RevokeTrustedIssuer m : calm (RevokeTrustedIssuer authority m).
Proof. unfold RevokeTrustedIssuer. calm_tac. Qed.
Lemma calm_InitiateRecovery ctx m : calm (InitiateRecovery reauth ctx m).
Proof. unfold InitiateRecovery, countOpenRequests, chargeReauthFee, escrowDeposit. calm_tac. Qed.
Lemma calm_ApproveRecovery ctx m : calm (ApproveRecovery ctx m).
Proof. unfold ApproveRecovery, tally_event. calm_tac. Qed.
Lemma calm_RejectRecovery ctx m : calm (RejectRecovery ctx m).
Proof. unfold RejectRecovery, tally_event. calm_tac. Qed.
Lemma calm_CancelRecovery ctx m : calm (CancelRecovery ctx m).
Proof. unfold CancelRecovery, recovery_event. calm_tac. Qed.
End handlers.
#[export] Hint Resolve calm_over_ret calm_over_lift calm_over_fail_if calm_over_or_fail calm_look calm_check calm_over_query calm_emit calm_bank calm_params
  calm_forfeit calm_refund calm_reap calm_count_open calm_terminate calm_supersede calm_thaw calm_pending calm_sync calm_identity
  calm_freeze calm_epoch calm_SetGuardians calm_UpdateParams calm_RegisterTrustedIssuer calm_RevokeTrustedIssuer
  calm_InitiateRecovery calm_ApproveRecovery calm_RejectRecovery calm_CancelRecovery : calm.
Ltac calm_one :=
  first
  [ solve [auto with calm]
  | apply calm_over_bind; [|intros ?]
  | apply calm_if
  | apply calm_write; intros ?; solve [by repeat constructor]
  | match goal with
    | |- calm (match ?x with _ => _ end) => destruct x
    | |- calm (let _ := _ in _) => cbv zeta
    end ].
(** closes [calm m] by walking down [m] *)
Ltac calm_all := repeat calm_one.
