(* ===== verification/IdRequests.v ===== *)
(** * x/identity: recovery requests

    Every stored request is pending, is filed under its own id and under its identity, and
    carries a tally that was collected from distinct guardians of the set in force, or
    collected under a set since replaced.  The lemmas say which handlers write requests and
    that they keep these invariants. *)
From stdpp Require Import base gmap strings list fin_maps.
From Stdlib Require Import ZArith Lia Ascii.
From S2P Require Import Prelude GoInt KVStore Interfaces PhiDid IdTypes IdKeeper IdServer IdIndex IdElig IdInvariants IdStep.

(** ** The invariant *)
Record request_ok (id : string) (r : RecoveryRequest) : Prop := {
  rq_id : rr_RecoveryId r = id;
  rq_pending : rr_Status r = RECOVERY_STATUS_PENDING;
  rq_controller : controller_ok (rr_ProposedNewController r);
  rq_did : nul_free (rr_Did r);
}.
Record requests_ok (st : IdStore) : Prop := {
  rs_each id r : s_rec st !! id = Some r → request_ok id r;
  rs_index k : is_Some (s_rec_did st !! k) ↔ ∃ id r, s_rec st !! id = Some r ∧ k = RecoveryByDIDKey (rr_Did r) id;
}.

Section tally.
Context `{Hasher}.
(** a guardian of the set in force: a commitment of the set opens to it *)
Definition enrolled (gs : GuardianSet) (protected g : string) : Prop :=
  g ≠ protected ∧ ∃ salt, HasCommitment gs (GuardianCommitment g salt) = true.
Definition tally_of (st : IdStore) (did : string) (who : list string) : Prop :=
  NoDup who ∧ ∀ g, g ∈ who → ∃ gs, GetGuardians st did = Some gs ∧ enrolled gs did g.
Record tallies_ok (st : IdStore) : Prop := {
  ta_low did : 0 ≤ GuardianEpoch st did < 2 ^ 64 - 1;
  ta_epoch id r : s_rec st !! id = Some r → recoveryTallyEpoch st id ≤ GuardianEpoch st (rr_Did r);
  ta_current id r : s_rec st !! id = Some r → recoveryTallyEpoch st id = GuardianEpoch st (rr_Did r) →
    tally_of st (rr_Did r) (rr_Approvals r) ∧ tally_of st (rr_Did r) (rr_Rejections r);
  ta_stored id b : s_tepoch st !! id = Some b → is_Some (s_rec st !! id);
}.
End tally.

Lemma RecoveryByDIDKey_inj d i d' i' : nul_free d → nul_free d' →
  RecoveryByDIDKey d i = RecoveryByDIDKey d' i' → d = d' ∧ i = i'.
Proof. apply ControllerIndexKey_inj. Qed.
Lemma elem_of_requests st did r : requests_ok st → nul_free did →
  r ∈ RecoveryRequestsForDID st did ↔ s_rec st !! rr_RecoveryId r = Some r ∧ rr_Did r = did.
Proof.
  intros Hr Hn. unfold RecoveryRequestsForDID. rewrite list_elem_of_omap. split.
  - intros ([k u] & [Hk Hp]%elem_of_prefix_iterator & Hg). cbn [fst] in Hg.
    destruct (proj1 (rs_index _ Hr k) ltac:(eauto)) as (id & r' & Hl & ->).
    destruct (rs_each _ Hr _ _ Hl) as [Hid _ _ Hd].
    assert (did = rr_Did r') as -> by (by apply (index_prefix _ _ id)).
    unfold GetRecoveryRequest in Hg. change (after _ _) with (after (ControllerIndexPrefixFor (rr_Did r')) (ControllerIndexKey (rr_Did r') id)) in Hg.
    rewrite after_index, Hl in Hg. injection Hg as ->. by rewrite Hid.
  - intros [Hl <-]. destruct (proj2 (rs_index _ Hr (RecoveryByDIDKey (rr_Did r) (rr_RecoveryId r)))) as [u Hu]; [eauto|].
    exists (RecoveryByDIDKey (rr_Did r) (rr_RecoveryId r), u). split.
    + apply elem_of_prefix_iterator. split; [done|]. by apply (index_prefix (rr_Did r) (rr_Did r)).
    + cbn [fst]. change (after _ _) with (after (ControllerIndexPrefixFor (rr_Did r)) (ControllerIndexKey (rr_Did r) (rr_RecoveryId r))).
      by rewrite after_index.
Qed.

(** ** Elementary writes *)
Lemma SetRecoveryRequest_ok r st : request_ok (rr_RecoveryId r) r →
  (∀ r0, s_rec st !! rr_RecoveryId r = Some r0 → rr_Did r0 = rr_Did r) →
  requests_ok st → requests_ok (SetRecoveryRequest r st).
Proof.
  intros Hr Hsame [He Hi]. constructor.
  - intros id r'. cbn [s_rec SetRecoveryRequest set_rec_did set_rec]. rewrite lookup_insert_Some.
    intros [[<- <-]|[_ Hl]]; [done|by apply He].
  - intros k. cbn [s_rec s_rec_did SetRecoveryRequest set_rec_did set_rec]. rewrite lookup_insert_is_Some', (Hi k). split.
    + intros [<-|(id & r' & Hl & ->)]; [exists (rr_RecoveryId r), r; by rewrite lookup_insert_eq|].
      destruct (decide (id = rr_RecoveryId r)) as [->|Hne].
      * exists (rr_RecoveryId r), r. rewrite lookup_insert_eq. by rewrite (Hsame _ Hl).
      * exists id, r'. by rewrite lookup_insert_ne.
    + intros (id & r' & [[<- <-]|[Hne Hl]]%lookup_insert_Some & ->); [by left|right; eauto].
Qed.
Lemma deleteRecoveryRequest_ok r st : s_rec st !! rr_RecoveryId r = Some r →
  requests_ok st → requests_ok (deleteRecoveryRequest r st).
Proof.
  intros Hl Hrs. pose proof Hrs as [He Hi]. constructor.
  - intros id r'. change (s_rec (deleteRecoveryRequest r st)) with (delete (rr_RecoveryId r) (s_rec st)).
    intros [_ Hl']%lookup_delete_Some. by apply He.
  - intros k. change (s_rec_did (deleteRecoveryRequest r st)) with (delete (RecoveryByDIDKey (rr_Did r) (rr_RecoveryId r)) (s_rec_did st)).
    change (s_rec (deleteRecoveryRequest r st)) with (delete (rr_RecoveryId r) (s_rec st)). split.
    + intros [u [Hne Hu]%lookup_delete_Some]. destruct (proj1 (Hi k) ltac:(eauto)) as (id & r' & Hl' & ->).
      exists id, r'. split; [|done]. rewrite lookup_delete_ne; [done|]. intros <-. rewrite Hl in Hl'. by injection Hl' as ->.
    + intros (id & r' & [Hne Hl']%lookup_delete_Some & ->). rewrite lookup_delete_ne; [apply Hi; eauto|].
      destruct (He _ _ Hl) as [_ _ _ Hd], (He _ _ Hl') as [_ _ _ Hd'].
      intros [_ E]%RecoveryByDIDKey_inj; done.
Qed.

(** ** Tallies *)
Section tallies.
Context `{Hasher}.

Lemma epoch_frame st st' : s_gepoch st' = s_gepoch st → ∀ did, GuardianEpoch st' did = GuardianEpoch st did.
Proof. intros E did. unfold GuardianEpoch. by rewrite E. Qed.
Lemma tally_of_frame st st' did who : s_guard st' = s_guard st → tally_of st did who → tally_of st' did who.
Proof. intros E [Hn Hg]. split; [done|]. intros g Hin. unfold GetGuardians. rewrite E. by apply Hg. Qed.

(** a request stored with a tally that its epoch allows *)
Lemma SetRecoveryRequest_tallies r st :
  recoveryTallyEpoch st (rr_RecoveryId r) ≤ GuardianEpoch st (rr_Did r) →
  (recoveryTallyEpoch st (rr_RecoveryId r) = GuardianEpoch st (rr_Did r) →
   tally_of st (rr_Did r) (rr_Approvals r) ∧ tally_of st (rr_Did r) (rr_Rejections r)) →
  (∀ id r', id ≠ rr_RecoveryId r → s_rec st !! id = Some r' →
     recoveryTallyEpoch st id ≤ GuardianEpoch st (rr_Did r') ∧
     (recoveryTallyEpoch st id = GuardianEpoch st (rr_Did r') →
      tally_of st (rr_Did r') (rr_Approvals r') ∧ tally_of st (rr_Did r') (rr_Rejections r'))) →
  (∀ did, 0 ≤ GuardianEpoch st did < 2 ^ 64 - 1) →
  (∀ id b, s_tepoch st !! id = Some b → id = rr_RecoveryId r ∨ is_Some (s_rec st !! id)) →
  tallies_ok (SetRecoveryRequest r st).
Proof.
  intros He Hc Hother Hlow Hst. constructor.
  - exact Hlow.
  - intros id r'. cbn [s_rec SetRecoveryRequest set_rec_did set_rec]. rewrite lookup_insert_Some.
    intros [[<- <-]|[Hne Hl]]; [exact He|]. by apply (Hother id r').
  - intros id r'. cbn [s_rec SetRecoveryRequest set_rec_did set_rec]. rewrite lookup_insert_Some.
    intros [[<- <-]|[Hne Hl]]; [exact Hc|]. by apply (Hother id r').
  - intros id b Hb. cbn [s_rec SetRecoveryRequest set_rec_did set_rec]. rewrite lookup_insert_is_Some'.
    destruct (Hst id b Hb) as [->|?]; auto.
Qed.
(** the same tally, another window *)
Lemma rewrite_tallies r r0 st : s_rec st !! rr_RecoveryId r = Some r0 → rr_Did r = rr_Did r0 →
  rr_Approvals r = rr_Approvals r0 → rr_Rejections r = rr_Rejections r0 →
  tallies_ok st → tallies_ok (SetRecoveryRequest r st).
Proof.
  intros Hl Hd Ha Hr [Hlow He Hc Hs]. apply SetRecoveryRequest_tallies; [..|exact Hlow|eauto].
  - rewrite Hd. by apply He.
  - rewrite Hd, Ha, Hr. by apply Hc.
  - intros id r' _ Hl'. split; [by apply He|by apply Hc].
Qed.
Lemma delete_tallies r st : tallies_ok st → tallies_ok (deleteRecoveryRequest r st).
Proof.
  intros [Hlow He Hc Hs].
  assert (∀ id r', s_rec (deleteRecoveryRequest r st) !! id = Some r' →
    s_rec st !! id = Some r' ∧ recoveryTallyEpoch (deleteRecoveryRequest r st) id = recoveryTallyEpoch st id) as Hd.
  { intros id r'. change (s_rec (deleteRecoveryRequest r st)) with (delete (rr_RecoveryId r) (s_rec st)).
    intros [Hne Hl]%lookup_delete_Some. split; [done|]. unfold recoveryTallyEpoch.
    change (s_tepoch (deleteRecoveryRequest r st)) with (delete (rr_RecoveryId r) (s_tepoch st)). by rewrite lookup_delete_ne. }
  constructor.
  - exact Hlow.
  - intros id r' Hl. destruct (Hd _ _ Hl) as [Hl' ->]. by apply He.
  - intros id r' Hl. destruct (Hd _ _ Hl) as [Hl' ->]. by apply Hc.
  - intros id b. change (s_tepoch (deleteRecoveryRequest r st)) with (delete (rr_RecoveryId r) (s_tepoch st)).
    change (s_rec (deleteRecoveryRequest r st)) with (delete (rr_RecoveryId r) (s_rec st)).
    intros [Hne Hb]%lookup_delete_Some. rewrite lookup_delete_ne by done. by apply (Hs id b).
Qed.
(** a write to records the tallies do not read *)
Lemma tallies_frame st st' : s_rec st' = s_rec st → s_guard st' = s_guard st → s_gepoch st' = s_gepoch st →
  s_tepoch st' = s_tepoch st → tallies_ok st → tallies_ok st'.
Proof.
  intros E1 E2 E3 E4 [Hlow He Hc Hs].
  assert (∀ id, recoveryTallyEpoch st' id = recoveryTallyEpoch st id) as Ht by (intros; unfold recoveryTallyEpoch; by rewrite E4).
  constructor.
  - intros did. rewrite (epoch_frame st) by done. apply Hlow.
  - intros id r. rewrite E1, Ht, (epoch_frame st) by done. apply He.
  - intros id r. rewrite E1, Ht, (epoch_frame st) by done. intros Hl Heq. destruct (Hc _ _ Hl Heq).
    split; by eapply tally_of_frame.
  - intros id b. rewrite E1, E4. apply Hs.
Qed.

(** replacing or removing a guardian set retires the tallies collected under it *)
Lemma bump_spec did st : 0 ≤ GuardianEpoch st did < 2 ^ 64 - 1 →
  GuardianEpoch (bumpGuardianEpoch did st) did = GuardianEpoch st did + 1 ∧
  (∀ did', did' ≠ did → GuardianEpoch (bumpGuardianEpoch did st) did' = GuardianEpoch st did').
Proof.
  intros Hr. unfold bumpGuardianEpoch. destruct (Z.eqb_spec (GuardianEpoch st did) (2 ^ 64 - 1)); [lia|]. split.
  - unfold GuardianEpoch at 1. cbn [s_gepoch set_gepoch]. rewrite lookup_insert_eq. unfold decodeEpoch, encodeEpoch.
    assert (strlen (be64 (GuardianEpoch st did + 1)) = 8) as -> by (unfold strlen, be64; by rewrite be_length).
    change (8 =? 8) with true. cbv iota. rewrite BigEndian_be64. apply u64_id. lia.
  - intros did' Hne. unfold GuardianEpoch. cbn [s_gepoch set_gepoch]. by rewrite lookup_insert_ne.
Qed.
Lemma replace_guardians_tallies did f st :
  (∀ m did', did' ≠ did → f m !! did' = (m : KVStore GuardianSet) !! did') →
  GuardianEpoch st did < 2 ^ 64 - 2 →
  tallies_ok st → tallies_ok (bumpGuardianEpoch did (set_guard f st)).
Proof.
  intros Hf Hep [Hlow He Hc Hs]. set (st1 := set_guard f st).
  destruct (bump_spec did st1) as [Hd Hother]; [apply Hlow|].
  assert (∃ e, bumpGuardianEpoch did st1 = set_gepoch (λ _, e) st1) as [e E].
  { exists (s_gepoch (bumpGuardianEpoch did st1)). unfold bumpGuardianEpoch. by case_match. }
  set (st2 := bumpGuardianEpoch did st1) in *.
  change (GuardianEpoch st1) with (GuardianEpoch st) in Hd, Hother.
  assert (∀ id, recoveryTallyEpoch st2 id = recoveryTallyEpoch st id) as Ht by (intros id; by rewrite E).
  assert (s_rec st2 = s_rec st) as Er by by rewrite E.
  constructor.
  - intros x. destruct (decide (x = did)) as [->|Hne]; [rewrite Hd|rewrite Hother by done; apply Hlow].
    specialize (Hlow did). lia.
  - intros id r. rewrite Er, Ht. intros Hl. specialize (He _ _ Hl).
    destruct (decide (rr_Did r = did)) as [Ed|Hne]; [rewrite Ed in *; lia|by rewrite Hother].
  - intros id r. rewrite Er, Ht. intros Hl Heq. destruct (decide (rr_Did r = did)) as [Edid|Hne].
    + specialize (He _ _ Hl). rewrite Edid in *. lia.
    + rewrite Hother in Heq by done. destruct (Hc _ _ Hl Heq) as [[N1 G1] [N2 G2]].
      assert (GetGuardians st2 (rr_Did r) = GetGuardians st (rr_Did r)) as Eg.
      { unfold GetGuardians. rewrite E. cbn. by apply Hf. }
      split; (split; [done|]); intros g; rewrite Eg; [apply G1|apply G2].
  - intros id b. rewrite Er. replace (s_tepoch st2) with (s_tepoch st) by (by rewrite E). apply Hs.
Qed.
End tallies.

(** ** x/identity: deposits, and the invariant of a recovery

    A deposit is escrowed when a request is opened and leaves the module account exactly
    when the request is deleted.  [recovery_inv] is the invariant of the recovery state:
    requests in order, tallies collected from the guardians in force, and the module
    account holding at least the deposits of the open requests. *)
Definition deposit_of (r : RecoveryRequest) : Z := Z.max 0 (default 0 (NewIntFromString (rr_DepositUphi r))).
Definition owed (st : IdStore) : Z := map_sum (λ _ r, deposit_of r) (s_rec st).

Section escrow.
Context {B : Type} `{BankLaws B} `{AddressCodec} `{Hasher} `{Verifier}.
Abbreviation St := (IdState B).
Definition escrow (s : St) : Z := GetBalance (id_bank s) (ModuleAddress ModuleName).

(** a stored guardian set can reach its threshold, and not with no approval *)
Definition guards_ok (st : IdStore) : Prop :=
  ∀ did gs, s_guard st !! did = Some gs → 0 < gd_Threshold gs ≤ Z.of_nat (length (gd_Commitments gs)).
Record recovery_inv (s : St) : Prop := {
  ri_requests : requests_ok (id_store s);
  ri_guards : guards_ok (id_store s);
  ri_tallies : tallies_ok (id_store s);
  ri_escrow : owed (id_store s) ≤ escrow s;
}.

Lemma owed_delete st r r' : s_rec st !! rr_RecoveryId r = Some r' → rr_DepositUphi r = rr_DepositUphi r' →
  owed (deleteRecoveryRequest r st) = owed st - deposit_of r.
Proof.
  intros Hl Hd. unfold owed. change (s_rec (deleteRecoveryRequest r st)) with (delete (rr_RecoveryId r) (s_rec st)).
  rewrite (map_sum_delete _ _ _ _ Hl). unfold deposit_of. by rewrite Hd.
Qed.
Lemma owed_replace st r r' : s_rec st !! rr_RecoveryId r = Some r' → rr_DepositUphi r = rr_DepositUphi r' →
  owed (SetRecoveryRequest r st) = owed st.
Proof.
  intros Hl Hd. unfold owed. change (s_rec (SetRecoveryRequest r st)) with (<[rr_RecoveryId r := r]> (s_rec st)).
  rewrite (map_sum_insert _ _ _ _ _ Hl). unfold deposit_of. rewrite Hd. lia.
Qed.

(** ** Payments *)
Lemma send_out f t amt b b' : 0 ≤ amt → SendCoins f t amt b = (Ok tt, b') →
  ∀ x, GetBalance b x - amt ≤ GetBalance b' x.
Proof.
  intros Ha Hs x. destruct (send_law _ _ _ _ _ Ha Hs) as [_ Hb]. rewrite Hb. unfold delta. repeat case_bool_decide; lia.
Qed.
Lemma pay_run z (bm : Z → M B unit) s s' : 0 < z →
  (coins ← lift (CoinsOf z); on_bank (bm coins)) s = (Ok tt, s') →
  ∃ b', bm z (id_bank s) = (Ok tt, b') ∧ s' = mkIdState b' (id_store s) (id_events s).
Proof.
  intros Hz. unfold CoinsOf. rewrite (proj2 (Z.ltb_ge z 0)) by lia.
  change ((coins ← lift (Ok z); on_bank (bm coins)) s) with (on_bank (bm z) s).
  unfold on_bank, zoom. destruct (bm z (id_bank s)) as [o b']. intros [= -> <-]. eauto.
Qed.
(** a payment leaves the store alone and takes at most the deposit out of the account *)
Definition pays (amt : Z) (m : M St unit) : Prop :=
  ∀ s s', m s = (Ok tt, s') → id_store s' = id_store s ∧ escrow s - amt ≤ escrow s'.
Lemma forfeit_pays r : pays (deposit_of r) (forfeitDeposit r).
Proof.
  intros s s'. unfold forfeitDeposit, deposit_of, escrow. destruct (NewIntFromString (rr_DepositUphi r)) as [z|]; cbn [from_option id].
  2:{ intros [= <-]. split; [done|lia]. }
  unfold IsPositive. destruct (Z.ltb_spec 0 z); cbn [negb]; [|intros [= <-]; split; [done|lia]].
  intros (b' & Hs & ->)%pay_run; [|done]. cbn [id_store id_bank]. split; [done|].
  unfold SendCoinsFromModuleToModule in Hs. apply (send_out _ _ z _ _ ltac:(lia)) with (x := ModuleAddress ModuleName) in Hs. lia.
Qed.
Lemma refund_pays r : pays (deposit_of r) (refundDeposit r).
Proof.
  intros s s'. unfold refundDeposit, deposit_of, escrow. destruct (NewIntFromString (rr_DepositUphi r)) as [z|]; cbn [from_option id].
  2:{ intros [= <-]. split; [done|lia]. }
  unfold IsPositive. destruct (Z.ltb_spec 0 z); cbn [negb]; [|intros [= <-]; split; [done|lia]].
  intros (to & s1 & [Hto <-]%or_fail_Ok & Hr)%bind_Ok. apply pay_run in Hr as (b' & Hs & ->); [|done].
  cbn [id_store id_bank]. split; [done|]. apply send_module_account_Ok in Hs.
  apply (send_out _ _ z _ _ ltac:(lia)) with (x := ModuleAddress ModuleName) in Hs. lia.
Qed.
(** what comes in stays in, unless the initiator is the module account itself *)
Lemma escrow_receives from amt s s' : from ≠ ModuleAddress ModuleName →
  escrowDeposit from amt s = (Ok tt, s') → id_store s' = id_store s ∧ escrow s + Z.max 0 amt ≤ escrow s'.
Proof.
  intros Hne. unfold escrowDeposit, IsPositive, escrow. destruct (Z.ltb_spec 0 amt); cbn [negb]; [|intros [= <-]; split; [done|lia]].
  intros (b' & Hs & ->)%pay_run; [|done]. cbn [id_store id_bank]. split; [done|].
  unfold SendCoinsFromAccountToModule in Hs. destruct (send_law _ _ amt _ _ ltac:(lia) Hs) as [_ Hb]. rewrite Hb.
  unfold delta. rewrite bool_decide_eq_false_2, bool_decide_eq_true_2 by congruence. lia.
Qed.
Lemma fee_keeps from amt s s' : from ≠ ModuleAddress ModuleName →
  chargeReauthFee from amt s = (Ok tt, s') → id_store s' = id_store s ∧ escrow s ≤ escrow s'.
Proof.
  intros Hne. unfold chargeReauthFee, IsPositive, escrow. destruct (Z.ltb_spec 0 amt); cbn [negb]; [|intros [= <-]; split; [done|lia]].
  intros (b' & Hs & ->)%pay_run; [|done]. cbn [id_store id_bank]. split; [done|].
  unfold SendCoinsFromAccountToModule in Hs. destruct (send_law _ _ amt _ _ ltac:(lia) Hs) as [_ Hb]. rewrite Hb.
  unfold delta. rewrite (bool_decide_eq_false_2 (ModuleAddress ModuleName = from)) by congruence. case_bool_decide; lia.
Qed.

(** ** Settling and rewriting requests *)
Definition stored (s : St) (r : RecoveryRequest) : Prop := s_rec (id_store s) !! rr_RecoveryId r = Some r.
Lemma delete_same r r0 st : rr_RecoveryId r = rr_RecoveryId r0 → rr_Did r = rr_Did r0 →
  deleteRecoveryRequest r st = deleteRecoveryRequest r0 st.
Proof. intros E1 E2. unfold deleteRecoveryRequest. by rewrite E1, E2. Qed.

Lemma settle_inv m r r0 s s1 ev : pays (deposit_of r) m → m s = (Ok tt, s1) →
  s_rec (id_store s) !! rr_RecoveryId r = Some r0 → rr_Did r = rr_Did r0 → rr_DepositUphi r = rr_DepositUphi r0 →
  recovery_inv s → recovery_inv (mkIdState (id_bank s1) (deleteRecoveryRequest r (id_store s1)) ev).
Proof.
  intros Hp Hm Hl Hd Hu [Hr Hgu Ht He]. destruct (Hp _ _ Hm) as [-> Hb].
  pose proof (rq_id _ _ (rs_each _ Hr _ _ Hl)) as Hid. constructor; cbn [id_store].
  - rewrite (delete_same r r0) by done. apply deleteRecoveryRequest_ok; [by rewrite Hid|done].
  - exact Hgu.
  - by apply delete_tallies.
  - rewrite (owed_delete _ _ r0) by done. unfold escrow in *. cbn [id_bank]. lia.
Qed.
Lemma delete_rec r st id : s_rec (deleteRecoveryRequest r st) !! id =
  if bool_decide (id = rr_RecoveryId r) then None else s_rec st !! id.
Proof.
  change (s_rec (deleteRecoveryRequest r st)) with (delete (rr_RecoveryId r) (s_rec st)).
  case_bool_decide as E; [subst; apply lookup_delete_eq|by apply lookup_delete_ne].
Qed.

(** a stored request given another window *)
Lemma rewindow_inv s r a b c ev : stored s r → recovery_inv s →
  recovery_inv (mkIdState (id_bank s) (SetRecoveryRequest (with_window r a b c) (id_store s)) ev).
Proof.
  intros Hl [Hr Hgu Ht He]. destruct (rs_each _ Hr _ _ Hl) as [Q1 Q2 Q3 Q4]. constructor; cbn [id_store].
  - apply SetRecoveryRequest_ok; [by constructor| |done]. intros r0 Hr0. unfold stored in Hl. cbn in Hr0. rewrite Hl in Hr0. by injection Hr0 as <-.
  - exact Hgu.
  - by apply (rewrite_tallies (with_window r a b c) r).
  - by rewrite (owed_replace (id_store s) (with_window r a b c) r).
Qed.

Lemma requests_stored s did r : recovery_inv s → nul_free did → r ∈ RecoveryRequestsForDID (id_store s) did → stored s r ∧ rr_Did r = did.
Proof. intros Hs Hn Hin. by apply elem_of_requests in Hin; [|apply Hs|]. Qed.
Lemma requests_NoDup s did : recovery_inv s → nul_free did → NoDup (rr_RecoveryId <$> RecoveryRequestsForDID (id_store s) did).
Proof.
  intros Hs Hn. destruct (ri_requests _ Hs) as [He Hi]. unfold RecoveryRequestsForDID.
  set (p := RecoveryByDIDPrefixFor did). set (st := id_store s) in *.
  pose proof (Iterator_NoDup (s_rec_did st) p (PrefixEndBytes p)) as Hnd. fold (KVStorePrefixIterator (s_rec_did st) p) in Hnd.
  assert (∀ kv, kv ∈ KVStorePrefixIterator (s_rec_did st) p → ∃ r, s_rec st !! rr_RecoveryId r = Some r ∧ kv.1 = p +:+ rr_RecoveryId r) as Hk.
  { intros [k u] [Hk Hp]%elem_of_prefix_iterator. destruct (proj1 (Hi k) ltac:(eauto)) as (id & r & Hl & ->).
    destruct (He _ _ Hl) as [<- _ _ Hd]. exists r. split; [done|]. cbn [fst].
    assert (did = rr_Did r) as E by (by apply (index_prefix did (rr_Did r) (rr_RecoveryId r))). subst p. by rewrite E. }
  revert Hnd Hk. generalize (KVStorePrefixIterator (s_rec_did st) p) as l.
  induction l as [|[k u] l IH]; intros Hnd Hk; [constructor|]. cbn [fmap list_fmap] in Hnd.
  apply NoDup_cons in Hnd as [Hnk Hnd]. cbn [omap list_omap].
  destruct (Hk (k, u) ltac:(left)) as (r & Hl & E). cbn [fst] in *. subst k. unfold GetRecoveryRequest at 1.
  rewrite after_app, Hl. rewrite fmap_cons. apply NoDup_cons. split; [|apply IH; [done|intros kv Hkv; apply Hk; by right]].
  intros (r' & E & Hin)%list_elem_of_fmap. apply list_elem_of_omap in Hin as ([k' u'] & Hin & Hg). cbn [fst] in Hg.
  destruct (Hk (k', u') ltac:(by right)) as (r2 & Hl2 & E2). cbn [fst] in *. subst k'. unfold GetRecoveryRequest in Hg.
  rewrite after_app, Hl2 in Hg. injection Hg as <-. apply Hnk. rewrite E. by apply (list_elem_of_fmap_2 fst _ (_, u')).
Qed.

(** ** Loops over the requests of an identity *)
Definition spares (r : RecoveryRequest) (s s' : St) : Prop :=
  ∀ id, id ≠ rr_RecoveryId r → s_rec (id_store s') !! id = s_rec (id_store s) !! id.
Lemma for_each_inv rs (f : RecoveryRequest → M St unit) s s' :
  (∀ r s s', stored s r → recovery_inv s → f r s = (Ok tt, s') → recovery_inv s' ∧ spares r s s') →
  NoDup (rr_RecoveryId <$> rs) → (∀ r, r ∈ rs → stored s r) → recovery_inv s →
  for_each rs f s = (Ok tt, s') →
  recovery_inv s' ∧ ∀ id, id ∉ rr_RecoveryId <$> rs → s_rec (id_store s') !! id = s_rec (id_store s) !! id.
Proof.
  intros Hf. revert s. induction rs as [|r rs IH]; intros s Hnd Hst Hinv; cbn [for_each].
  { intros [= <-]. done. }
  rewrite fmap_cons in Hnd. apply NoDup_cons in Hnd as [Hk Hnd].
  intros ([] & s1 & Hr1 & Hr2)%bind_Ok. destruct (Hf _ _ _ (Hst r ltac:(left)) Hinv Hr1) as [Hi1 Hsp].
  destruct (IH s1 Hnd) as [Hi2 Hrest]; [|done|done|].
  { intros r' Hr'. unfold stored. rewrite Hsp; [apply Hst; by right|]. intros E. apply Hk. rewrite <- E. by apply list_elem_of_fmap_2. }
  split; [done|]. intros id Hid. rewrite fmap_cons, not_elem_of_cons in Hid. rewrite Hrest, Hsp; [done|..]; naive_solver.
Qed.
End escrow.
