(* ===== verification/IdHandlers.v ===== *)
(** * x/identity: every message keeps the invariants

    For each of the thirteen messages: a transaction that succeeds changes the registry by
    [id_write] steps only and keeps the recovery invariant; one that fails changes
    nothing. *)
From stdpp Require Import base gmap strings list fin_maps relations.
From Stdlib Require Import ZArith Lia Ascii.
From S2P Require Import Prelude GoInt KVStore Interfaces PhiDid IdTypes IdKeeper IdServer IdIndex IdElig IdInvariants IdStep IdRequests.

Lemma did_chars_nul_free s : all_chars did_char s = true → nul_free s.
Proof.
  unfold nul_free. induction s as [|c s IH]; cbn; [done|]. intros [Hc Hs]%andb_true_iff. rewrite (IH Hs), andb_true_r.
  unfold is_nul. destruct (Z.eqb_spec (char_code c) 0) as [E|]; [|done]. unfold did_char, char_in in Hc. by rewrite E in Hc.
Qed.
Lemma ValidateDID_nul_free did u : ValidateDID did = Ok u → nul_free did.
Proof.
  unfold ValidateDID. intros Hv. go_inv. bool_prop.
  match goal with H : has_prefix _ _ = true |- _ => apply has_prefix_spec in H as [t ->] end.
  apply nul_free_app; [done|]. apply did_chars_nul_free.
  match goal with H : all_chars _ _ = true |- _ => rewrite <- H end. f_equal. symmetry. exact (after_app DIDMethodPrefix t).
Qed.
Lemma wrap_as_Ok {A} (o : outcome A) e a : wrap_as o e = Ok a → o = Ok a.
Proof. by destruct o. Qed.
Lemma check_did_nul_free did u : check_did did = Ok u → nul_free did.
Proof. intros Hv%wrap_as_Ok. by eapply ValidateDID_nul_free. Qed.
Lemma check_address_ok `{AddressText} s u : check_address s = Ok u → controller_ok s.
Proof.
  unfold check_address, is_bech32. intros Hc. go_inv. bool_prop.
  match goal with H : is_Some _ |- _ => destruct H as [a Ha] end. by eapply address_text.
Qed.

Section handlers.
Context {B : Type} `{BankLaws B} `{AddressText} `{Hasher} `{Verifier}.
Context (authority : string) (reauth : bool).
Abbreviation St := (IdState B).

(** ** Writes the recovery state does not see *)
Record rec_frame (st st' : IdStore) : Prop := {
  rf_rec : s_rec st' = s_rec st;
  rf_index : s_rec_did st' = s_rec_did st;
  rf_guard : s_guard st' = s_guard st;
  rf_gepoch : s_gepoch st' = s_gepoch st;
  rf_tepoch : s_tepoch st' = s_tepoch st;
}.
Lemma recovery_frame (s s' : St) : rec_frame (id_store s) (id_store s') → escrow s ≤ escrow s' →
  recovery_inv s → recovery_inv s'.
Proof.
  intros [E1 E2 E3 E4 E5] Hb [[He Hi] Hgu Ht Ho]. constructor.
  - constructor; [intros id r; rewrite E1; apply He|intros k; rewrite E1, E2; apply Hi].
  - intros did gs. rewrite E3. apply Hgu.
  - by apply (tallies_frame (id_store s)).
  - unfold owed. rewrite E1. unfold owed in Ho. lia.
Qed.
Lemma SetIdentity_rec_frame ctx d st : rec_frame st (SetIdentity ctx d st).
Proof. by destruct (SetIdentity_frame ctx d st) as (? & ? & ? & ? & ? & ->). Qed.

(** ** The pieces of the recovery handlers *)
Lemma write_run f (s : St) u s' : write f s = (Ok u, s') → s' = mkIdState (id_bank s) (f (id_store s)) (id_events s).
Proof. by intros [= _ <-]. Qed.
Lemma emit_run ty l (s : St) u s' : EmitEvent ty l s = (Ok u, s') → s' = mkIdState (id_bank s) (id_store s) (id_events s ++ [mkEvent ty l]).
Proof. by intros [= _ <-]. Qed.
Lemma look_run {A} (f : IdStore → A) (s : St) a s' : look f s = (Ok a, s') → a = f (id_store s) ∧ s' = s.
Proof. by intros [= <- <-]. Qed.
Lemma check_run f (s : St) u s' : check f s = (Ok u, s') → f (id_store s) = Ok u ∧ s' = s.
Proof. by intros [= <- <-]. Qed.
Lemma event_inv (s : St) ev : recovery_inv s → recovery_inv (mkIdState (id_bank s) (id_store s) ev).
Proof. intros []. by constructor. Qed.

Lemma supersede_inv did r (s s' : St) : stored s r → recovery_inv s → supersede did r s = (Ok tt, s') →
  recovery_inv s' ∧ spares r s s'.
Proof.
  intros Hl Hinv. unfold supersede. intros ([] & s1 & Hf & Hr)%bind_Ok. apply bind_Ok in Hr as ([] & s2 & ->%write_run & Hr).
  apply emit_run in Hr as ->. cbn [id_bank id_store id_events]. split.
  - by apply (settle_inv (forfeitDeposit r) r r s s1); [apply forfeit_pays|..].
  - intros id Hne. cbn [id_store]. destruct (forfeit_pays r _ _ Hf) as [-> _].
    rewrite delete_rec. by rewrite bool_decide_eq_false_2.
Qed.
Lemma reap_inv ctx r (s s' : St) b : stored s r → recovery_inv s → reapIfExpired ctx r s = (Ok b, s') →
  recovery_inv s' ∧ spares r s s' ∧
  (b = false → s' = s ∧ (BlockTime ctx ≤ rr_ExpiresAt r ∨ rr_FrozenAt r ≠ 0 ∧ recoveryFrozenBySuspension (id_store s) (rr_Did r) = true)).
Proof.
  intros Hl Hinv. unfold reapIfExpired. case_match.
  { intros [= <- <-]. split_and!; [done|by intros|done]. }
  intros (held & s0 & [-> ->]%look_run & Hr)%bind_Ok. case_match eqn:Hheld.
  { injection Hr as <- <-. split_and!; [done|by intros|]. intros _. split; [done|]. right. bool_prop. done. }
  case_match eqn:Hexp.
  { injection Hr as <- <-. split_and!; [done|by intros|]. intros _. split; [done|]. left. by apply Z.leb_le. }
  apply bind_Ok in Hr as ([] & s1 & Hf & Hr). apply bind_Ok in Hr as ([] & s2 & ->%write_run & Hr).
  apply bind_Ok in Hr as ([] & s3 & ->%emit_run & Hr). apply ret_Ok in Hr as [<- <-]. cbn [id_bank id_store id_events]. split_and!.
  - by apply (settle_inv (forfeitDeposit r) r r s s1); [apply forfeit_pays|..].
  - intros id Hne. cbn [id_store]. destruct (forfeit_pays r _ _ Hf) as [-> _].
    rewrite delete_rec. by rewrite bool_decide_eq_false_2.
  - done.
Qed.
Lemma pending_inv ctx id (s s' : St) req : recovery_inv s → pending_request ctx id s = (Ok req, s') →
  s' = s ∧ stored s req ∧ rr_RecoveryId req = id ∧
  (BlockTime ctx ≤ rr_ExpiresAt req ∨ rr_FrozenAt req ≠ 0 ∧ recoveryFrozenBySuspension (id_store s) (rr_Did req) = true).
Proof.
  intros Hinv. unfold pending_request. intros (o & s0 & [-> ->]%look_run & Hr)%bind_Ok.
  apply bind_Ok in Hr as (r & s1 & [Ho <-]%or_fail_Ok & Hr). apply bind_Ok in Hr as (b & s2 & Hreap & Hr).
  apply bind_Ok in Hr as ([] & s3 & [-> <-]%fail_if_Ok & Hr). apply ret_Ok in Hr as [<- <-].
  assert (rr_RecoveryId r = id) as <- by (by apply (rs_each _ (ri_requests _ Hinv))).
  destruct (reap_inv ctx r s s2 false Ho Hinv Hreap) as (_ & _ & Hs). destruct (Hs eq_refl) as [-> ?]. done.
Qed.

(** ** The loops *)
Definition keeps {A} (m : M St A) : Prop := ∀ s a s', recovery_inv s → m s = (Ok a, s') → recovery_inv s'.
Lemma keeps_bind {A C} (m : M St A) (f : A → M St C) : keeps m → (∀ a, keeps (f a)) → keeps (m ≫= f).
Proof. intros Hm Hf s c s' Hinv (a & s1 & Hr1 & Hr2)%bind_Ok. eapply Hf; [|exact Hr2]. by eapply Hm. Qed.
Lemma keeps_emit ty l : keeps (EmitEvent ty l).
Proof. intros s a s' Hinv ->%emit_run. by apply event_inv. Qed.
Lemma keeps_write f : (∀ st, rec_frame st (f st)) → keeps (write f).
Proof. intros Hf s a s' Hinv ->%write_run. by apply (recovery_frame s); [apply Hf|reflexivity|]. Qed.
Lemma keeps_look {A} (f : IdStore → A) : keeps (look f).
Proof. by intros s a s' Hinv [_ ->]%look_run. Qed.
Lemma keeps_check f : keeps (check f).
Proof. by intros s a s' Hinv [_ ->]%check_run. Qed.
Lemma keeps_query {A} (f : St → outcome A) : keeps (query f).
Proof. intros s a s' Hinv. by intros [= _ <-]. Qed.
Lemma keeps_fail_if b e : keeps (fail_if b e).
Proof. by intros s a s' Hinv [_ <-]%fail_if_Ok. Qed.
Lemma keeps_or_fail {A} (x : option A) e : keeps (or_fail x e).
Proof. by intros s a s' Hinv [_ <-]%or_fail_Ok. Qed.
Lemma keeps_ret {A} (a : A) : keeps (mret a).
Proof. intros s a' s' Hinv. by intros [= _ <-]. Qed.
Lemma keeps_params p : keeps (on_store (SetParams p)).
Proof.
  intros s a s' Hinv. unfold on_store, zoom, SetParams. destruct (Params_Validate p); intros [= <- <-].
  by apply (recovery_frame s); [..|done].
Qed.
Lemma keeps_identity did : keeps (the_identity did).
Proof. apply keeps_bind; [apply keeps_look|intros; apply keeps_or_fail]. Qed.

Lemma over_requests did (f : RecoveryRequest → M St unit) : nul_free did →
  (∀ r s s', stored s r → recovery_inv s → f r s = (Ok tt, s') → recovery_inv s' ∧ spares r s s') →
  keeps (rs ← look (λ st, RecoveryRequestsForDID st did); for_each rs f).
Proof.
  intros Hn Hf s [] s' Hinv (rs & s0 & [-> ->]%look_run & Hr)%bind_Ok.
  eapply for_each_inv in Hr; [apply Hr|exact Hf|by apply requests_NoDup| |done].
  intros r Hin. by eapply requests_stored.
Qed.
Lemma skip_inv r (s s' : St) : recovery_inv s → (mret tt : M St unit) s = (Ok tt, s') → recovery_inv s' ∧ spares r s s'.
Proof. intros Hinv. intros [= <-]. split; [done|by intros]. Qed.
Lemma keeps_terminate did : nul_free did → keeps (terminateRecoveryRequestsForDID did).
Proof.
  intros Hn. apply over_requests; [done|]. intros r s s' Hl Hinv. case_match; [by apply skip_inv|by apply supersede_inv].
Qed.
Lemma keeps_siblings did id : nul_free did → keeps (supersedeSiblings did id).
Proof.
  intros Hn. apply over_requests; [done|]. intros r s s' Hl Hinv. case_match; [by apply skip_inv|by apply supersede_inv].
Qed.
Lemma keeps_thaw ctx did : nul_free did → keeps (thawRecoveries ctx did).
Proof.
  intros Hn. apply keeps_bind; [apply keeps_look|]. intros ttl. apply over_requests; [done|].
  intros r s s' Hl Hinv. case_match; [by apply skip_inv|].
  intros ([] & s1 & ->%write_run & ->%emit_run)%bind_Ok. cbn [id_bank id_store id_events]. split.
  - by apply rewindow_inv.
  - intros id Hne. cbn [id_store]. change (s_rec (SetRecoveryRequest ?r ?st)) with (<[rr_RecoveryId r := r]> (s_rec st)).
    by rewrite lookup_insert_ne.
Qed.
Lemma freeze_inv now rs (s : St) : NoDup (rr_RecoveryId <$> rs) → (∀ r, r ∈ rs → stored s r) → recovery_inv s →
  recovery_inv (mkIdState (id_bank s) (foldl (freeze_one now) (id_store s) rs) (id_events s)).
Proof.
  revert s. induction rs as [|r rs IH]; intros s Hnd Hst Hinv; cbn [foldl]; [by apply event_inv|].
  rewrite fmap_cons in Hnd. apply NoDup_cons in Hnd as [Hk Hnd].
  assert (recovery_inv (mkIdState (id_bank s) (freeze_one now (id_store s) r) (id_events s)) ∧
    ∀ id, id ≠ rr_RecoveryId r → s_rec (freeze_one now (id_store s) r) !! id = s_rec (id_store s) !! id) as [Hi Hs].
  { unfold freeze_one. repeat case_match; try (split; [by apply event_inv|done]). split.
    - apply rewindow_inv; [apply Hst; left|done].
    - intros id Hne. change (s_rec (SetRecoveryRequest ?r ?st)) with (<[rr_RecoveryId r := r]> (s_rec st)). by rewrite lookup_insert_ne. }
  apply (IH (mkIdState (id_bank s) (freeze_one now (id_store s) r) (id_events s))); [done| |done].
  intros r' Hr'. unfold stored. cbn [id_store]. rewrite Hs; [apply Hst; by right|].
  intros E. apply Hk. rewrite <- E. by apply list_elem_of_fmap_2.
Qed.
Lemma keeps_freeze ctx did : nul_free did → keeps (write (freezeLiveRecoveries ctx did)).
Proof.
  intros Hn s [] s' Hinv ->%write_run. unfold freezeLiveRecoveries. apply freeze_inv; [by apply requests_NoDup| |done].
  intros r Hin. by eapply requests_stored.
Qed.
Lemma count_open_inv ctx rs n (s : St) m s' : NoDup (rr_RecoveryId <$> rs) → (∀ r, r ∈ rs → stored s r) → recovery_inv s →
  count_open ctx n rs s = (Ok m, s') → recovery_inv s'.
Proof.
  revert n s. induction rs as [|r rs IH]; intros n s Hnd Hst Hinv; cbn [count_open].
  { by intros [= <- <-]. }
  rewrite fmap_cons in Hnd. apply NoDup_cons in Hnd as [Hk Hnd].
  intros (b & s1 & Hr1 & Hr2)%bind_Ok. destruct (reap_inv _ _ _ _ _ (Hst r ltac:(left)) Hinv Hr1) as (Hi1 & Hsp & _).
  eapply IH; [done| |exact Hi1|exact Hr2].
  intros r' Hr'. unfold stored. rewrite Hsp; [apply Hst; by right|]. intros E. apply Hk. rewrite <- E. by apply list_elem_of_fmap_2.
Qed.
Lemma keeps_count ctx did : nul_free did → keeps (countOpenRequests ctx did).
Proof.
  intros Hn s n s' Hinv (rs & s0 & [-> ->]%look_run & Hr)%bind_Ok.
  eapply count_open_inv; [by apply requests_NoDup| |exact Hinv|exact Hr]. intros r Hin. by eapply requests_stored.
Qed.

(** ** The messages that do not open, vote on or settle a request *)
Create HintDb keeps.
#[local] Hint Resolve keeps_emit keeps_look keeps_check keeps_query keeps_fail_if keeps_or_fail keeps_ret keeps_params
  keeps_identity keeps_terminate keeps_siblings keeps_thaw keeps_freeze keeps_count : keeps.
Ltac keeps_step :=
  first
  [ solve [auto with keeps]
  | apply keeps_bind; [|intros ?]
  | apply keeps_write; intros ?; first [by apply SetIdentity_rec_frame | by constructor]
  | match goal with |- keeps (if ?b then _ else _) => destruct b end
  | match goal with |- keeps (match ?o with _ => _ end) => destruct o end ].
Ltac keeps_go := repeat keeps_step.

Lemma keeps_Register ctx m : keeps (RegisterIdentity ctx m).
Proof. unfold RegisterIdentity. keeps_go. Qed.
Lemma keeps_Rotate ctx m : keeps (RotateIdentityKey ctx m).
Proof. unfold RotateIdentityKey. keeps_go. Qed.
Lemma keeps_UpdateStatus ctx m : nul_free (us_Did m) → keeps (UpdateStatus authority ctx m).
Proof. intros Hn. unfold UpdateStatus. keeps_go. Qed.
Lemma keeps_UpdateParams m : keeps (UpdateParams authority m).
Proof. unfold UpdateParams. keeps_go. Qed.
Lemma keeps_RegisterIssuer m : keeps (RegisterTrustedIssuer authority m).
Proof. unfold RegisterTrustedIssuer. keeps_go. Qed.
Lemma keeps_RevokeIssuer m : keeps (RevokeTrustedIssuer authority m).
Proof. unfold RevokeTrustedIssuer. keeps_go. Qed.

(** ** Votes *)
Record synced (r : RecoveryRequest) (st : IdStore) (r1 : RecoveryRequest) (st1 : IdStore) : Prop := {
  sy_same : st1 = set_tepoch (λ _, s_tepoch st1) st;
  sy_req : r1 = with_tally r (rr_Approvals r1) (rr_Rejections r1);
  sy_approvals : tally_of st (rr_Did r) (rr_Approvals r1);
  sy_rejections : tally_of st (rr_Did r) (rr_Rejections r1);
  sy_epoch : recoveryTallyEpoch st1 (rr_RecoveryId r) = GuardianEpoch st (rr_Did r);
  sy_other id : id ≠ rr_RecoveryId r → s_tepoch st1 !! id = s_tepoch st !! id;
}.
Lemma with_tally_id r : r = with_tally r (rr_Approvals r) (rr_Rejections r).
Proof. by destruct r. Qed.
Lemma sync_spec r st : tallies_ok st → s_rec st !! rr_RecoveryId r = Some r →
  synced r st (syncTallyEpoch r st).1 (syncTallyEpoch r st).2.
Proof.
  intros [Hlow He Hc Hs] Hl. unfold syncTallyEpoch. destruct (Z.eqb_spec (recoveryTallyEpoch st (rr_RecoveryId r)) (GuardianEpoch st (rr_Did r))) as [E|Hne].
  - destruct (Hc _ _ Hl E). constructor; cbn [fst snd]; [by destruct st|apply with_tally_id|done..].
  - constructor; cbn [fst snd]; [by destruct st|done| | | |].
    1,2: cbn; split; [apply NoDup_nil_2|by intros g ?%not_elem_of_nil].
    + unfold recoveryTallyEpoch, setRecoveryTallyEpoch. cbn [s_tepoch set_tepoch]. rewrite lookup_insert_eq.
      unfold decodeEpoch, encodeEpoch.
      assert (strlen (be64 (GuardianEpoch st (rr_Did r))) = 8) as -> by (unfold strlen, be64; by rewrite be_length).
      change (8 =? 8) with true. cbv iota. rewrite BigEndian_be64. apply u64_id. specialize (Hlow (rr_Did r)). lia.
    + intros id Hid. unfold setRecoveryTallyEpoch. cbn [s_tepoch set_tepoch]. by rewrite lookup_insert_ne.
Qed.
Lemma tally_of_snoc st did gs who g : tally_of st did who → GetGuardians st did = Some gs → enrolled gs did g → g ∉ who →
  tally_of st did (who ++ [g]).
Proof.
  intros [Hn Hg] Hgs Hen Hni. split.
  - apply NoDup_app. split; [done|]. split; [|apply NoDup_singleton]. intros x Hx ->%list_elem_of_singleton. done.
  - intros x [Hx| ->]%elem_of_snoc; [by apply Hg|eauto].
Qed.
Lemma openGuardian_enrolled st did g salt signer u : openGuardianCommitment st did g salt signer = Ok u →
  ∃ gs doc, GetGuardians st did = Some gs ∧ enrolled gs did g ∧ GetIdentity st g = Some doc ∧
    Status doc = DID_STATUS_ACTIVE ∧ Controller doc = signer.
Proof.
  unfold openGuardianCommitment. intros Ho. go_inv. bool_prop. eexists _, _. split_and!; try done. split; [done|eauto].
Qed.
(** a stored request with a synced tally that a vote has extended *)
Lemma vote_inv (s : St) r r1 st1 A R ev : stored s r → recovery_inv s → synced r (id_store s) r1 st1 →
  tally_of (id_store s) (rr_Did r) A → tally_of (id_store s) (rr_Did r) R →
  recovery_inv (mkIdState (id_bank s) (SetRecoveryRequest (with_tally r1 A R) st1) ev).
Proof.
  intros Hl [Hr Hgu Ht He] [Est Ereq _ _ Hep Hoth] HA HR. unfold stored in Hl. destruct (rs_each _ Hr _ _ Hl) as [Q1 Q2 Q3 Q4].
  assert (with_tally r1 A R = with_tally r A R) as -> by by rewrite Ereq.
  destruct Hr as [Hr1 Hr2]. pose proof Ht as [T1 T2 T3 T4]. rewrite Est. rewrite Est in Hep. constructor; cbn [id_store].
  - apply SetRecoveryRequest_ok; [by constructor| |by constructor]. cbn. rewrite Hl. by intros r0 [= <-].
  - exact Hgu.
  - assert (∀ id, id ≠ rr_RecoveryId r → recoveryTallyEpoch (set_tepoch (λ _, s_tepoch st1) (id_store s)) id = recoveryTallyEpoch (id_store s) id) as Ho
      by (intros id Hid; unfold recoveryTallyEpoch; cbn [s_tepoch set_tepoch]; by rewrite Hoth).
    apply SetRecoveryRequest_tallies; [|done| |done|].
    + change (recoveryTallyEpoch (set_tepoch (λ _, s_tepoch st1) (id_store s)) (rr_RecoveryId r) ≤ GuardianEpoch (id_store s) (rr_Did r)). lia.
    + intros id r' Hid Hl'. rewrite (Ho id Hid). split; [by apply T2|by apply T3].
    + intros id b. cbn [s_tepoch set_tepoch]. destruct (decide (id = rr_RecoveryId r)) as [->|Hne]; [by left|].
      rewrite Hoth by done. intros Hb. right. by eapply T4.
  - rewrite (owed_replace _ (with_tally r A R) r); [exact He|exact Hl|done].
Qed.
Lemma sync_run r (s : St) r1 s1 : stored s r → recovery_inv s → sync_tally r s = (Ok r1, s1) →
  ∃ st1, synced r (id_store s) r1 st1 ∧ s1 = mkIdState (id_bank s) st1 (id_events s).
Proof.
  intros Hl Hinv. unfold sync_tally. pose proof (sync_spec r (id_store s) (ri_tallies _ Hinv) Hl) as Hsy.
  destruct (syncTallyEpoch r (id_store s)) as [r' st']. intros [= <- <-]. by exists st'.
Qed.
Lemma synced_fields r st r1 st1 : synced r st r1 st1 →
  rr_Did r1 = rr_Did r ∧ rr_RecoveryId r1 = rr_RecoveryId r ∧ rr_DepositUphi r1 = rr_DepositUphi r.
Proof. intros [_ -> _ _ _ _]. done. Qed.

Lemma keeps_Approve ctx m : keeps (ApproveRecovery ctx m).
Proof.
  intros s [] s' Hinv. unfold ApproveRecovery. intros (req & s1 & Hp & Hr)%bind_Ok.
  destruct (pending_inv _ _ _ _ _ Hinv Hp) as (-> & Hl & Hid & _). apply bind_Ok in Hr as ([] & s2 & [_ <-]%fail_if_Ok & Hr).
  apply bind_Ok in Hr as (u & s2 & [Ho ->]%check_run & Hr). destruct (openGuardian_enrolled _ _ _ _ _ _ Ho) as (gs & doc & Hgs & Hen & _).
  apply bind_Ok in Hr as (r1 & s1 & Hs & Hr). destruct (sync_run _ _ _ _ Hl Hinv Hs) as (st1 & Hsy & ->).
  apply bind_Ok in Hr as (u' & s2 & [Hni <-]%fail_if_Ok & Hr). bool_prop.
  apply bind_Ok in Hr as ([] & s2 & ->%write_run & Hr). apply bind_Ok in Hr as (gs' & s2 & [-> ->]%look_run & ->%emit_run).
  cbn [id_bank id_store id_events]. apply (vote_inv s req r1 st1); [done..| |apply Hsy].
  by apply (tally_of_snoc _ _ gs); [apply Hsy|..].
Qed.
(** deleting a request whose tally has just been synced *)
Lemma delete_sync r st r1 st1 A R : synced r st r1 st1 →
  deleteRecoveryRequest (with_tally r1 A R) st1 = deleteRecoveryRequest r st.
Proof.
  intros Hsy. destruct (synced_fields _ _ _ _ Hsy) as (E1 & E2 & _). destruct Hsy as [Est _ _ _ _ Hoth]. rewrite Est.
  unfold deleteRecoveryRequest, deleteRecoveryTallyEpoch. cbn [rr_RecoveryId rr_Did with_tally]. rewrite E1, E2.
  unfold set_tepoch, set_rec_did, set_rec. cbn. f_equal. apply map_eq. intros id. destruct (decide (id = rr_RecoveryId r)) as [->|Hne].
  - by rewrite !lookup_delete_eq.
  - rewrite !lookup_delete_ne by done. by apply Hoth.
Qed.
Lemma keeps_Reject ctx m : keeps (RejectRecovery ctx m).
Proof.
  intros s [] s' Hinv. unfold RejectRecovery. intros (req & s1 & Hp & Hr)%bind_Ok.
  destruct (pending_inv _ _ _ _ _ Hinv Hp) as (-> & Hl & Hid & _). apply bind_Ok in Hr as ([] & s2 & [_ <-]%fail_if_Ok & Hr).
  apply bind_Ok in Hr as (u & s2 & [Ho ->]%check_run & Hr). destruct (openGuardian_enrolled _ _ _ _ _ _ Ho) as (gs & doc & Hgs & Hen & _).
  apply bind_Ok in Hr as (r1 & s1 & Hs & Hr). destruct (sync_run _ _ _ _ Hl Hinv Hs) as (st1 & Hsy & ->).
  apply bind_Ok in Hr as (u' & s2 & [Hni <-]%fail_if_Ok & Hr). bool_prop.
  apply bind_Ok in Hr as (o & s2 & [-> ->]%look_run & Hr). apply bind_Ok in Hr as (gs' & s2 & [_ <-]%or_fail_Ok & Hr).
  set (r2 := with_tally _ _ _) in Hr. apply bind_Ok in Hr as ([] & s2 & Hr & ->%emit_run). apply event_inv.
  assert (tally_of (id_store s) (rr_Did req) (rr_Rejections r1 ++ [rej_GuardianDid m])) as HR by (by apply (tally_of_snoc _ _ gs); [apply Hsy|..]).
  destruct (_ <=? _).
  - apply bind_Ok in Hr as ([] & s3 & Hf & ->%write_run). destruct (synced_fields _ _ _ _ Hsy) as (E1 & E2 & E3).
    destruct (forfeit_pays _ _ _ Hf) as [-> Hb]. cbn [id_store]. unfold r2. rewrite (delete_sync req (id_store s) r1) by done.
    unfold escrow in Hb. cbn [id_bank] in Hb. destruct Hinv as [V1 Vg V2 V3]. constructor; cbn [id_store].
    + by apply deleteRecoveryRequest_ok.
    + exact Vg.
    + by apply delete_tallies.
    + rewrite (owed_delete _ _ req) by done. unfold escrow in *. cbn [id_bank]. unfold deposit_of in *. cbn in Hb. rewrite E3 in Hb. lia.
  - apply write_run in Hr as ->. cbn [id_bank id_store]. by apply (vote_inv s req r1 st1); [..|apply Hsy|].
Qed.

(** ** Settlements *)
Lemma identity_run did (s : St) doc s' : the_identity did s = (Ok doc, s') → s' = s ∧ s_docs (id_store s) !! did = Some doc.
Proof. unfold the_identity. by intros (o & s0 & [-> ->]%look_run & [? <-]%or_fail_Ok)%bind_Ok. Qed.
Lemma keeps_Cancel ctx m : keeps (CancelRecovery ctx m).
Proof.
  intros s [] s' Hinv. unfold CancelRecovery. intros (req & s1 & Hp & Hr)%bind_Ok.
  destruct (pending_inv _ _ _ _ _ Hinv Hp) as (-> & Hl & Hid & _).
  apply bind_Ok in Hr as (doc & s2 & [-> _]%identity_run & Hr). apply bind_Ok in Hr as ([] & s2 & [_ <-]%fail_if_Ok & Hr).
  apply bind_Ok in Hr as ([] & s2 & Hf & Hr). apply bind_Ok in Hr as ([] & s3 & ->%write_run & ->%emit_run).
  cbn [id_bank id_store id_events]. by apply (settle_inv (forfeitDeposit req) req req s s2); [apply forfeit_pays|..].
Qed.
Lemma keeps_Execute ctx m : keeps (ExecuteRecovery ctx m).
Proof.
  intros s [] s' Hinv. unfold ExecuteRecovery. intros (req & s1 & Hp & Hr)%bind_Ok.
  destruct (pending_inv _ _ _ _ _ Hinv Hp) as (-> & Hl & Hid & _). apply bind_Ok in Hr as ([] & s1 & [_ <-]%fail_if_Ok & Hr).
  apply bind_Ok in Hr as (u & s1 & [_ ->]%check_run & Hr). apply bind_Ok in Hr as (doc & s2 & [-> _]%identity_run & Hr).
  apply bind_Ok in Hr as ([] & s2 & [_ <-]%fail_if_Ok & Hr). apply bind_Ok in Hr as (u' & s1 & [_ ->]%check_run & Hr).
  apply bind_Ok in Hr as ([] & s1 & ->%write_run & Hr). apply bind_Ok in Hr as ([] & s1 & Hf & Hr).
  apply bind_Ok in Hr as ([] & s2 & ->%write_run & Hr).
  pose proof (SetIdentity_rec_frame ctx (with_recovered doc (rr_ProposedNewPubKey req) (rr_KeyType req) (rr_ProposedNewController req)) (id_store s)) as Hfr.
  set (st := SetIdentity _ _ _) in *. set (sa := mkIdState (id_bank s) st (id_events s)) in Hf.
  assert (recovery_inv sa) as Ha by (by apply (recovery_frame s)).
  apply bind_Ok in Hr as ([] & s2 & Hs & ->%emit_run). apply event_inv.
  eapply keeps_siblings; [|eapply (settle_inv (refundDeposit req) req req sa s1)|exact Hs].
  - apply (rs_each _ (ri_requests _ Hinv) _ _ Hl).
  - apply refund_pays.
  - exact Hf.
  - change (s_rec st !! rr_RecoveryId req = Some req). by rewrite (rf_rec _ _ Hfr).
  - done.
  - done.
  - exact Ha.
Qed.

(** ** Opening a request *)
Lemma new_owed (st : IdStore) (r : RecoveryRequest) : s_rec st !! rr_RecoveryId r = None →
  owed (SetRecoveryRequest r st) = owed st + deposit_of r.
Proof.
  intros Hl. unfold owed. change (s_rec (SetRecoveryRequest r st)) with (<[rr_RecoveryId r := r]> (s_rec st)).
  rewrite (map_sum_insert_new _ _ _ _ Hl). lia.
Qed.
Lemma open_inv (s : St) r b ev : s_rec (id_store s) !! rr_RecoveryId r = None → request_ok (rr_RecoveryId r) r →
  rr_Approvals r = [] → rr_Rejections r = [] → escrow s + deposit_of r ≤ GetBalance b (ModuleAddress ModuleName) →
  recovery_inv s → recovery_inv (mkIdState b (SetRecoveryRequest r (id_store s)) ev).
Proof.
  intros Hn Hr Ea Er Hb [V1 Vg V2 V3]. constructor; cbn [id_store].
  - apply SetRecoveryRequest_ok; [done| |done]. rewrite Hn. done.
  - exact Vg.
  - destruct V2 as [T1 T2 T3 T4]. apply SetRecoveryRequest_tallies; [..|done|eauto].
    + unfold recoveryTallyEpoch. destruct (s_tepoch (id_store s) !! rr_RecoveryId r) as [e|] eqn:E.
      * destruct (T4 _ _ E) as [x Hx]. by rewrite Hn in Hx.
      * apply T1.
    + intros _. rewrite Ea, Er. split; (split; [apply NoDup_nil_2|by intros g ?%not_elem_of_nil]).
    + intros id r' _ Hl. split; [by apply T2|by apply T3].
  - rewrite new_owed by done. unfold escrow in *. cbn [id_bank]. lia.
Qed.
Lemma deposit_range p : in_range (RecoveryDeposit p).
Proof.
  unfold RecoveryDeposit. destruct (NewIntFromString _) as [z|] eqn:E; cbn [from_option id]; [by eapply NewIntFromString_range|done].
Qed.
Lemma new_deposit ctx p m id d fee : in_range d → deposit_of (new_request ctx p m id d fee) = Z.max 0 d.
Proof. intros Hd. unfold deposit_of. cbn [rr_DepositUphi new_request]. by rewrite NewIntFromString_String. Qed.

Lemma keeps_Initiate ctx m : MsgInitiateRecovery_ValidateBasic m = Ok tt →
  AccAddressFromBech32 (ini_Creator m) ≠ Some (ModuleAddress ModuleName) →
  keeps (InitiateRecovery reauth ctx m).
Proof.
  intros Hv Hmod s id s' Hinv. unfold MsgInitiateRecovery_ValidateBasic in Hv. apply obind_Ok in Hv as ([] & Hc%check_address_ok & Hv).
  apply obind_Ok in Hv as ([] & Hd%check_did_nul_free & _).
  unfold InitiateRecovery. intros (p & s1 & [-> ->]%look_run & Hr)%bind_Ok. set (ra := ini_Method m =? RECOVERY_METHOD_REAUTH) in *.
  apply bind_Ok in Hr as (th & s1 & Hq & Hr). injection Hq as _ <-.
  apply bind_Ok in Hr as (n & s1 & Hcount & Hr). apply keeps_count in Hcount; [|done..].
  apply bind_Ok in Hr as ([] & s2 & [_ <-]%fail_if_Ok & Hr). apply bind_Ok in Hr as (dup & s2 & [-> ->]%look_run & Hr).
  set (rid := DeriveRecoveryID _ _ _) in *. set (p := GetParams (id_store s)) in *.
  apply bind_Ok in Hr as ([] & s2 & [Hdup <-]%fail_if_Ok & Hr). apply bind_Ok in Hr as (from & s2 & [Hfrom <-]%or_fail_Ok & Hr).
  assert (from ≠ ModuleAddress ModuleName) as Hne by congruence.
  set (dep := if ra then 0 else RecoveryDeposit p) in *. set (fee := if ra then ReauthRecoveryFee p else 0) in *.
  apply bind_Ok in Hr as ([] & s2 & Hpay & Hr). set (req := new_request ctx p m rid dep fee) in *.
  assert (id_store s2 = id_store s1 ∧ escrow s1 + deposit_of req ≤ escrow s2) as [Es Hb].
  { unfold req. rewrite new_deposit by (unfold dep; destruct ra; [done|apply deposit_range]). unfold dep, fee in *. destruct ra.
    - apply fee_keeps in Hpay as [-> ?]; [|done]. split; [done|lia].
    - apply escrow_receives in Hpay; done. }
  apply bind_Ok in Hr as ([] & s3 & ->%write_run & Hr). apply bind_Ok in Hr as ([] & s3 & ->%write_run & Hr).
  apply bind_Ok in Hr as ([] & s3 & ->%emit_run & Hr). apply ret_Ok in Hr as [_ <-]. cbn [id_bank id_store id_events].
  apply (recovery_frame (mkIdState (id_bank s2) (SetRecoveryRequest req (id_store s2)) [])); [by constructor|reflexivity|].
  rewrite Es. apply open_inv; [|by constructor|done..]. apply eq_None_not_Some. by bool_prop.
Qed.

(** ** Guardian sets *)
Lemma guardians_inv did f (s : St) ev : (∀ m did', did' ≠ did → f m !! did' = (m : KVStore GuardianSet) !! did') →
  (∀ gs, f (s_guard (id_store s)) !! did = Some gs → 0 < gd_Threshold gs ≤ Z.of_nat (length (gd_Commitments gs))) →
  GuardianEpoch (id_store s) did < 2 ^ 64 - 2 → recovery_inv s →
  recovery_inv (mkIdState (id_bank s) (bumpGuardianEpoch did (set_guard f (id_store s))) ev).
Proof.
  intros Hf Hgs Hep [V1 Vg V2 V3].
  assert (∃ e, bumpGuardianEpoch did (set_guard f (id_store s)) = set_gepoch (λ _, e) (set_guard f (id_store s))) as [e E].
  { exists (s_gepoch (bumpGuardianEpoch did (set_guard f (id_store s)))). unfold bumpGuardianEpoch. by case_match. }
  constructor; cbn [id_store].
  - rewrite E. destruct V1. by constructor.
  - rewrite E. intros x gs. cbn [s_guard set_gepoch set_guard]. destruct (decide (x = did)) as [->|Hne]; [apply Hgs|rewrite Hf by done; apply Vg].
  - by apply replace_guardians_tallies.
  - rewrite E. exact V3.
Qed.
Lemma keeps_SetGuardians ctx m (s s' : St) : 0 ≤ sg_Threshold m → GuardianEpoch (id_store s) (sg_Did m) < 2 ^ 64 - 2 →
  recovery_inv s → SetGuardians ctx m s = (Ok tt, s') → recovery_inv s'.
Proof.
  intros Hth Hep Hinv. unfold SetGuardians. intros (doc & s1 & [-> _]%identity_run & Hr)%bind_Ok.
  apply bind_Ok in Hr as ([] & s1 & [_ <-]%fail_if_Ok & Hr). apply bind_Ok in Hr as ([] & s1 & [_ <-]%fail_if_Ok & Hr).
  apply bind_Ok in Hr as (u & s1 & [Hv <-]%lift_Ok & Hr). apply bind_Ok in Hr as (u' & s1 & [_ ->]%check_run & Hr).
  apply bind_Ok in Hr as ([] & s1 & ->%write_run & Hr). apply bind_Ok in Hr as ([] & s1 & ->%write_run & ->%emit_run).
  cbn [id_bank id_store id_events]. apply guardians_inv; [| |done..].
  - intros g did' Hne. cbn. by rewrite lookup_insert_ne.
  - intros gs. cbn. rewrite lookup_insert_eq. intros [= <-]. cbn. unfold ValidateGuardianSetBasic in Hv. go_inv. bool_prop. lia.
Qed.
Lemma supersede_epochs did rs (s s' : St) :
  for_each rs (λ r, if IsTerminalRecoveryStatus (rr_Status r) then mret tt else supersede did r) s = (Ok tt, s') →
  s_gepoch (id_store s') = s_gepoch (id_store s).
Proof.
  revert s. induction rs as [|r rs IH]; intros s; cbn [for_each]; [by intros [= <-]|].
  intros ([] & s1 & Hr & Hrest)%bind_Ok. rewrite (IH _ Hrest). case_match; [by injection Hr as <-|].
  unfold supersede in Hr. apply bind_Ok in Hr as ([] & s2 & Hf & Hr). apply bind_Ok in Hr as ([] & s3 & ->%write_run & ->%emit_run).
  destruct (forfeit_pays _ _ _ Hf) as [E _]. cbn [id_store]. by rewrite <- E.
Qed.
Lemma unbind_guard v f st : UnbindValidator v (set_guard f st) = set_guard f (UnbindValidator v st).
Proof. unfold UnbindValidator, DIDForValidator. cbn [s_val_did set_guard]. by case_match. Qed.
Lemma unbind_frame v st : rec_frame st (UnbindValidator v st).
Proof. unfold UnbindValidator. case_match; by constructor. Qed.
Lemma keeps_Revoke ctx m (s s' : St) : nul_free (rvk_Did m) → GuardianEpoch (id_store s) (rvk_Did m) < 2 ^ 64 - 2 →
  recovery_inv s → RevokeIdentity authority ctx m s = (Ok tt, s') → recovery_inv s'.
Proof.
  intros Hn Hep Hinv. unfold RevokeIdentity. intros (doc & s1 & [-> _]%identity_run & Hr)%bind_Ok.
  apply bind_Ok in Hr as ([] & s1 & [_ <-]%fail_if_Ok & Hr). apply bind_Ok in Hr as ([] & s1 & [_ <-]%fail_if_Ok & Hr).
  apply bind_Ok in Hr as ([] & s1 & ->%write_run & Hr). apply bind_Ok in Hr as ([] & s1 & Ht & Hr).
  pose proof (SetIdentity_rec_frame ctx (with_status doc DID_STATUS_REVOKED) (id_store s)) as Hfr.
  assert (recovery_inv s1 ∧ GuardianEpoch (id_store s1) (rvk_Did m) < 2 ^ 64 - 2) as [Hi1 Hep1].
  { split; [eapply keeps_terminate; [done| |exact Ht]; by apply (recovery_frame s)|].
    unfold terminateRecoveryRequestsForDID in Ht. apply bind_Ok in Ht as (rs & s2 & [-> ->]%look_run & Ht%supersede_epochs).
    rewrite (epoch_frame (id_store s)); [done|]. rewrite Ht. apply Hfr. }
  apply bind_Ok in Hr as ([] & s2 & ->%write_run & Hr). apply bind_Ok in Hr as (bound & s2 & [-> ->]%look_run & Hr).
  apply bind_Ok in Hr as ([] & s2 & Hu & Hr). apply bind_Ok in Hr as ([] & s3 & ->%write_run & ->%emit_run).
  unfold DeleteGuardianSet in Hu. cbn [id_store] in Hu. destruct (ValidatorForDID _ _) as [v|]; cbn [id_bank id_store id_events] in Hu.
  - apply write_run in Hu as ->. cbn [id_bank id_store id_events]. rewrite unbind_guard. pose proof (unbind_frame v (id_store s1)) as Hub.
    apply (guardians_inv _ _ (mkIdState (id_bank s1) (UnbindValidator v (id_store s1)) [])).
    + intros g did' Hne. by rewrite lookup_delete_ne.
    + intros gs. cbn. by rewrite lookup_delete_eq.
    + cbn [id_store]. rewrite (epoch_frame (id_store s1)); [done|apply Hub].
    + by apply (recovery_frame s1).
  - injection Hu as <-. cbn [id_bank id_store id_events]. apply guardians_inv; [| |done..].
    + intros g did' Hne. by rewrite lookup_delete_ne.
    + intros gs. by rewrite lookup_delete_eq.
Qed.
End handlers.
