(* ===== verification/IdReach.v ===== *)
(** * x/identity: writes to the registry and the validator bindings

    [binds_ok]: validators and identities are bound one to one and no revoked identity is
    bound.  Each handler that rewrites an identity is shown to be a registry write of
    [IdStep] that keeps the bindings. *)
From stdpp Require Import base gmap strings list fin_maps relations.
From Stdlib Require Import ZArith Lia Ascii.
From S2P Require Import Prelude GoInt KVStore Interfaces PhiDid IdTypes IdKeeper IdServer IdIndex IdElig IdInvariants IdSweep IdStep IdRequests IdHandlers.

(** ** Validator bindings: one identity, one validator; no revoked identity validates *)
Definition paired (st : IdStore) : Prop := ∀ v did, s_val_did st !! v = Some did ↔ s_did_val st !! did = Some v.
Definition backed (st : IdStore) (did : string) : Prop := ∃ doc, s_docs st !! did = Some doc ∧ Status doc ≠ DID_STATUS_REVOKED.
Record binds_ok (st : IdStore) : Prop := {
  bo_paired : paired st;
  bo_backed did v : s_did_val st !! did = Some v → backed st did;
}.
Lemma binds_frame st st' : s_docs st' = s_docs st → s_did_val st' = s_did_val st → s_val_did st' = s_val_did st →
  binds_ok st → binds_ok st'.
Proof.
  intros E1 E2 E3 [Hp Hb]. constructor.
  - intros v did. rewrite E2, E3. apply Hp.
  - intros did v. unfold backed. rewrite E1, E2. apply Hb.
Qed.
Lemma SetIdentity_vals ctx d st : s_did_val (SetIdentity ctx d st) = s_did_val st ∧ s_val_did (SetIdentity ctx d st) = s_val_did st.
Proof. by destruct (SetIdentity_frame ctx d st) as (? & ? & ? & ? & ? & ->). Qed.
Lemma SetIdentity_binds ctx d st : Status d ≠ DID_STATUS_REVOKED → binds_ok st → binds_ok (SetIdentity ctx d st).
Proof.
  intros Hs [Hp Hb]. destruct (SetIdentity_vals ctx d st) as [E1 E2]. constructor.
  - intros v did. rewrite E1, E2. apply Hp.
  - intros did v. rewrite E1. intros (doc & Hl & Hd)%Hb. unfold backed. rewrite SetIdentity_docs.
    destruct (decide (did = Did d)) as [->|Hne]; [exists d; by rewrite lookup_insert_eq|exists doc; by rewrite lookup_insert_ne].
Qed.
Lemma calm_binds {B A} (m : M (IdState B) A) s o s' : calm m → m s = (o, s') → binds_ok (id_store s) → binds_ok (id_store s').
Proof. intros Hm ([[] _] & ? & ?)%Hm. by apply binds_frame. Qed.
(** unbinding the validator of an identity frees the identity from [backed] *)
Lemma unbind_paired v did st : s_did_val st !! did = Some v → paired st →
  s_did_val (UnbindValidator v st) = delete did (s_did_val st) ∧ paired (UnbindValidator v st).
Proof.
  intros Hv Hp. assert (UnbindValidator v st = set_val_did (delete v) (set_did_val (delete did) st)) as ->.
  { unfold UnbindValidator, DIDForValidator. by rewrite (proj2 (Hp v did) Hv). }
  cbn [s_did_val s_val_did set_val_did set_did_val]. split; [done|]. intros w d. cbn [s_did_val s_val_did set_val_did set_did_val].
  rewrite !lookup_delete_Some, (Hp w d). split; intros [Hne Hl]; (split; [|done]).
  - intros <-. rewrite Hv in Hl. by injection Hl as ->.
  - intros <-. apply Hp in Hl, Hv. rewrite Hv in Hl. by injection Hl as ->.
Qed.

Section evolution.
Context {B : Type} `{BankLaws B} `{AddressText} `{Hasher} `{Verifier}.
Context (authority : string) (reauth : bool).
Abbreviation St := (IdState B).

Definition evolving {A} (ctx : Context) (m : M St A) : Prop :=
  ∀ s a s', registry_ok (id_store s) → recovery_inv s → binds_ok (id_store s) → m s = (Ok a, s') →
  id_evolves ctx (id_store s) (id_store s') ∧ binds_ok (id_store s').
Lemma calm_evolving {A} ctx (m : M St A) : calm m → evolving ctx m.
Proof.
  intros Hm s a s' _ _ Hb Hr. split; [|by eapply calm_binds]. destruct (Hm _ _ _ Hr) as [Hs _]. apply rtc_once. by apply w_frame.
Qed.
Lemma calm_tail {A} ctx (m : M St A) st s a s' : id_write ctx st (id_store s) → binds_ok (id_store s) → calm m →
  m s = (Ok a, s') → id_evolves ctx st (id_store s') ∧ binds_ok (id_store s').
Proof.
  intros Hw Hb Hm Hr. split; [|by eapply calm_binds]. eapply rtc_l; [exact Hw|].
  destruct (Hm _ _ _ Hr) as [Hs _]. apply rtc_once. by apply w_frame.
Qed.

(** an identity the store holds, rewritten *)
Lemma update_write ctx st did d0 d : registry_ok st → s_docs st !! did = Some d0 → Did d = Did d0 →
  UniquenessHash d = UniquenessHash d0 → CreatedAt d = CreatedAt d0 → controller_ok (Controller d) →
  valid_status (Status d) = true → Status d0 ≠ DID_STATUS_REVOKED → id_write ctx st (SetIdentity ctx d st).
Proof.
  intros Hr Hl Hd Hh Hc Hco Hs Hnr. apply (w_update _ _ _ d0); [|done..].
  rewrite Hd. by destruct (ix_docs _ (ro_index _ Hr) _ _ Hl) as (-> & _).
Qed.
Lemma doc_controller st did d : registry_ok st → s_docs st !! did = Some d → controller_ok (Controller d).
Proof. intros Hr Hl. by destruct (ix_docs _ (ro_index _ Hr) _ _ Hl) as (_ & ? & _). Qed.

Lemma evolves_Register ctx m : MsgRegisterIdentity_ValidateBasic m = Ok tt → evolving ctx (RegisterIdentity ctx m).
Proof.
  intros Hv s [] s' Hro _ Hb. unfold MsgRegisterIdentity_ValidateBasic in Hv. apply obind_Ok in Hv as ([] & Hc%check_address_ok & Hv).
  apply obind_Ok in Hv as ([] & Hdid%wrap_as_Ok & _).
  unfold RegisterIdentity. intros (ex & s1 & [-> ->]%look_run & Hr)%bind_Ok. apply bind_Ok in Hr as ([] & s1 & [Hex <-]%fail_if_Ok & Hr).
  apply bind_Ok in Hr as (us & s1 & [-> ->]%look_run & Hr). apply bind_Ok in Hr as ([] & s1 & [Hus <-]%fail_if_Ok & Hr).
  apply bind_Ok in Hr as (u & s1 & [_ ->]%check_run & Hr). apply bind_Ok in Hr as ([] & s1 & ->%write_run & Hr).
  apply bind_Ok in Hr as ([] & s1 & ->%write_run & Hr). eapply calm_tail; [..|exact Hr]; [|by apply (binds_frame (SetIdentity ctx (mkDoc (reg_Did m) (reg_Creator m) (reg_PubKey m) (reg_UniquenessHash m) (BlockTime ctx) DID_STATUS_ACTIVE (reg_KeyType m)) (id_store s))); [done..|apply SetIdentity_binds]|calm_all].
  cbn [id_store]. unfold HasIdentity, HasUniqueness in Hex, Hus. bool_prop. set (d := mkDoc _ _ _ _ _ _ _).
  apply (w_register _ _ d); [by apply eq_None_not_Some|by apply eq_None_not_Some|done..].
Qed.
Lemma evolves_Rotate ctx m : evolving ctx (RotateIdentityKey ctx m).
Proof.
  intros s [] s' Hro _ Hb. unfold RotateIdentityKey. intros (doc & s1 & [-> Hl]%identity_run & Hr)%bind_Ok.
  apply bind_Ok in Hr as ([] & s1 & [_ <-]%fail_if_Ok & Hr). apply bind_Ok in Hr as ([] & s1 & [Hst <-]%fail_if_Ok & Hr).
  apply bind_Ok in Hr as (c & s1 & [_ <-]%or_fail_Ok & Hr). apply bind_Ok in Hr as ([] & s1 & [_ <-]%fail_if_Ok & Hr).
  apply bind_Ok in Hr as (dv & s1 & [_ <-]%or_fail_Ok & Hr). apply bind_Ok in Hr as (tk & s1 & [-> ->]%look_run & Hr).
  apply bind_Ok in Hr as ([] & s1 & [_ <-]%fail_if_Ok & Hr). apply bind_Ok in Hr as ([] & s1 & ->%write_run & Hr).
  bool_prop. eapply calm_tail; [..|exact Hr]; [|cbn [id_store]; apply SetIdentity_binds; [cbn; by rewrite Hst|done]|calm_all].
  apply (update_write _ _ _ doc _ Hro Hl); [done..|exact (doc_controller _ _ _ Hro Hl)|cbn; by rewrite Hst|by rewrite Hst].
Qed.
Lemma settable_status x : status_settable x = true → valid_status x = true ∧ x ≠ DID_STATUS_REVOKED.
Proof.
  unfold status_settable, valid_status. intros [Hx|Hx]%orb_prop; rewrite Hx; apply Z.eqb_eq in Hx as ->; done.
Qed.
Lemma evolves_UpdateStatus ctx m : evolving ctx (UpdateStatus authority ctx m).
Proof.
  intros s [] s' Hro _ Hb. unfold UpdateStatus. intros ([] & s1 & [_ <-]%fail_if_Ok & Hr)%bind_Ok.
  apply bind_Ok in Hr as ([] & s1 & [Hset <-]%fail_if_Ok & Hr). apply bind_Ok in Hr as (doc & s1 & [-> Hl]%identity_run & Hr).
  apply bind_Ok in Hr as ([] & s1 & [Hst <-]%fail_if_Ok & Hr). apply bind_Ok in Hr as ([] & s1 & [_ <-]%fail_if_Ok & Hr).
  apply bind_Ok in Hr as ([] & s1 & ->%write_run & Hr). bool_prop. destruct (settable_status _ Hset) as [Hv Hnr].
  eapply calm_tail; [..|exact Hr]; [|by apply SetIdentity_binds|calm_all].
  apply (update_write _ _ _ doc _ Hro Hl); [done..|exact (doc_controller _ _ _ Hro Hl)|exact Hv|done].
Qed.
(** the revoked identity loses its validator in the same message *)
Lemma revoke_binds did v st st' : binds_ok st →
  (∀ x, x ≠ did → s_docs st' !! x = s_docs st !! x) → s_did_val st' = s_did_val st → s_val_did st' = s_val_did st →
  s_did_val st' !! did = Some v → binds_ok (UnbindValidator v st').
Proof.
  intros [Hp Hb] Hd E1 E2 Hv.
  destruct (unbind_paired v did st' Hv) as [E3 Hp']; [intros w d; rewrite E1, E2; apply Hp|].
  constructor; [done|]. intros x w. rewrite E3. intros [Hne Hl]%lookup_delete_Some. rewrite E1 in Hl.
  destruct (Hb _ _ Hl) as (doc & Hdoc & Hs). exists doc. split; [|done].
  replace (s_docs (UnbindValidator v st')) with (s_docs st') by (unfold UnbindValidator; by case_match). by rewrite Hd.
Qed.
Lemma evolves_Revoke ctx m : evolving ctx (RevokeIdentity authority ctx m).
Proof.
  intros s [] s' Hro _ Hb. unfold RevokeIdentity. intros (doc & s1 & [-> Hl]%identity_run & Hr)%bind_Ok.
  apply bind_Ok in Hr as ([] & s1 & [_ <-]%fail_if_Ok & Hr). apply bind_Ok in Hr as ([] & s1 & [Hst <-]%fail_if_Ok & Hr).
  apply bind_Ok in Hr as ([] & s1 & ->%write_run & Hr). bool_prop. set (d := with_status doc DID_STATUS_REVOKED) in *.
  assert (id_write ctx (id_store s) (SetIdentity ctx d (id_store s))) as Hw
    by (apply (update_write _ _ _ doc _ Hro Hl); [done..|exact (doc_controller _ _ _ Hro Hl)|done|done]).
  apply bind_Ok in Hr as ([] & s1 & Ht%calm_terminate & Hr). cbn [id_store] in Ht.
  apply bind_Ok in Hr as ([] & s2 & ->%write_run & Hr). apply bind_Ok in Hr as (bound & s2 & [-> ->]%look_run & Hr).
  cbn [id_store] in Hr. apply bind_Ok in Hr as ([] & s2 & Hu & Hr).
  assert (same_registry (SetIdentity ctx d (id_store s)) (id_store s2) ∧ binds_ok (id_store s2)) as [Hs2 Hb2].
  { destruct Ht as (Hreg & E1 & E2). destruct (SetIdentity_vals ctx d (id_store s)) as [E3 E4].
    assert (∀ x, x ≠ rvk_Did m → s_docs (id_store s1) !! x = s_docs (id_store s) !! x) as Hdocs.
    { intros x Hne. destruct Hreg as [[-> _ _ _ _ _] _]. rewrite SetIdentity_docs. rewrite lookup_insert_ne; [done|].
      cbn. by destruct (ix_docs _ (ro_index _ Hro) _ _ Hl) as (-> & _). }
    unfold ValidatorForDID, DeleteGuardianSet in Hu. cbn [s_did_val set_guard] in Hu.
    destruct (s_did_val (id_store s1) !! rvk_Did m) as [v|] eqn:Hv.
    - apply write_run in Hu as ->. cbn [id_store]. split.
      + etrans; [exact Hreg|]. unfold UnbindValidator. case_match; by repeat constructor.
      + apply (revoke_binds (rvk_Did m) v (id_store s)); cbn [s_docs s_did_val s_val_did set_guard]; [done|done|congruence..].
    - injection Hu as <-. cbn [id_store]. split; [etrans; [exact Hreg|by repeat constructor]|].
      destruct Hb as [Hp Hbk]. constructor; cbn [s_did_val s_val_did set_guard]; [intros w x; cbn; rewrite E1, E2, E3, E4; apply Hp|].
      intros x w Hx. rewrite E1, E3 in Hx. assert (x ≠ rvk_Did m) as Hne by (intros ->; congruence).
      destruct (Hbk _ _ Hx) as (doc' & ? & ?). exists doc'. cbn. by rewrite Hdocs. }
  split.
  - eapply rtc_l; [exact Hw|]. eapply rtc_l; [by apply w_frame|]. eapply rtc_once, w_frame.
    assert (calm (write (B := B) (bumpGuardianEpoch (rvk_Did m));; EmitEvent "revoke_identity" [("did", rvk_Did m)])) as Hc by calm_all.
    by destruct (Hc _ _ _ Hr).
  - eapply calm_binds; [|exact Hr|done]. calm_all.
Qed.
Lemma evolves_Execute ctx m : evolving ctx (ExecuteRecovery ctx m).
Proof.
  intros s [] s' Hro Hinv Hb. unfold ExecuteRecovery. intros (req & s1 & Hp & Hr)%bind_Ok.
  destruct (pending_inv _ _ _ _ _ Hinv Hp) as (-> & Hreq & _). apply bind_Ok in Hr as ([] & s1 & [_ <-]%fail_if_Ok & Hr).
  apply bind_Ok in Hr as (u & s1 & [_ ->]%check_run & Hr). apply bind_Ok in Hr as (doc & s1 & [-> Hl]%identity_run & Hr).
  apply bind_Ok in Hr as ([] & s1 & [Hst <-]%fail_if_Ok & Hr). apply bind_Ok in Hr as (u' & s1 & [_ ->]%check_run & Hr).
  apply bind_Ok in Hr as ([] & s1 & ->%write_run & Hr). bool_prop. eapply calm_tail; [..|exact Hr]; [|cbn [id_store]; apply SetIdentity_binds; [cbn; by rewrite Hst|done]|calm_all].
  apply (update_write _ _ _ doc _ Hro Hl); [done..| |cbn; by rewrite Hst|by rewrite Hst].
  apply (rs_each _ (ri_requests _ Hinv) _ _ Hreq).
Qed.
End evolution.
