(* ===== verification/IdChain.v ===== *)
(** * x/identity: the chain's reachable states

    [id_step] is one transaction, one bank movement elsewhere on the chain, one block end
    or one staking hook; [id_inv] is what every reachable state satisfies. *)
From stdpp Require Import base gmap strings list fin_maps relations.
From Stdlib Require Import ZArith Lia Ascii.
From S2P Require Import Prelude GoInt KVStore Interfaces PhiDid IdTypes IdKeeper IdServer IdIndex IdElig IdInvariants IdSweep IdStep IdRequests IdHandlers IdReach.

(** ** x/identity: the validator sweep judges by the identity

    What the sweep record of an operator says, and what each outcome of the sweep means:
    a kept or bound validator is backed by an ACTIVE identity of its own, a tombstoned one
    by revoked identities only, and the bindings stay one identity to one validator. *)
(** ** The sweep record *)
Definition has_status (x : Z) (docs : list DIDDocument) : bool := existsb (λ d, Status d =? x) docs.
Lemma sweep_fold docs a s r : ∃ fa,
  foldl sweep_step (a, s, r) docs = (fa, s || has_status DID_STATUS_SUSPENDED docs, r || has_status DID_STATUS_REVOKED docs) ∧
  (fa = a ∨ ∃ d, d ∈ docs ∧ Status d = DID_STATUS_ACTIVE ∧ fa = Did d) ∧
  (fa = "" → a = "" ∧ ∀ d, d ∈ docs → Status d = DID_STATUS_ACTIVE → Did d = "").
Proof.
  revert a s r. induction docs as [|d docs IH]; intros a s r; cbn [foldl].
  { exists a. rewrite !orb_false_r. split_and!; [done|by left|]. intros ->. split; [done|]. by intros d ?%not_elem_of_nil. }
  unfold sweep_step at 2, has_status. cbn [existsb].
  destruct (Z.eqb_spec (Status d) DID_STATUS_ACTIVE) as [E|Ea].
  { rewrite E. cbn [orb]. change (DID_STATUS_ACTIVE =? DID_STATUS_SUSPENDED) with false. change (DID_STATUS_ACTIVE =? DID_STATUS_REVOKED) with false.
    cbn [orb]. destruct (IH (if bool_decide (a = "") then Did d else a) s r) as (fa & -> & Hfa & Hem). exists fa. split_and!; [done| |].
    - destruct Hfa as [->|(d' & ? & ? & ?)]; [|right; exists d'; split_and!; [by right|done..]].
      case_bool_decide; [right; exists d; split_and!; [by left|done..]|by left].
    - intros Hf. destruct (Hem Hf) as [Hc Hr]. case_bool_decide as Hb; [|done]. split; [done|].
      intros d' [->|Hin]%elem_of_cons Hs; [done|by apply Hr]. }
  assert (∀ s r, ∃ fa, foldl sweep_step (a, s, r) docs = (fa, s || has_status DID_STATUS_SUSPENDED docs, r || has_status DID_STATUS_REVOKED docs) ∧
    (fa = a ∨ ∃ d', d' ∈ d :: docs ∧ Status d' = DID_STATUS_ACTIVE ∧ fa = Did d') ∧
    (fa = "" → a = "" ∧ ∀ d', d' ∈ d :: docs → Status d' = DID_STATUS_ACTIVE → Did d' = "")) as IH'.
  { intros s' r'. destruct (IH a s' r') as (fa & E & Hfa & Hem). exists fa. split_and!; [done| |].
    - destruct Hfa as [->|(d' & ? & ? & ?)]; [by left|right; exists d'; split_and!; [by right|done..]].
    - intros Hf. destruct (Hem Hf) as [? Hr]. split; [done|]. intros d' [->|Hin]%elem_of_cons Hs; [done|by apply Hr]. }
  destruct (Z.eqb_spec (Status d) DID_STATUS_SUSPENDED) as [E|Es].
  { rewrite E. change (DID_STATUS_SUSPENDED =? DID_STATUS_REVOKED) with false. cbn [orb].
    destruct (IH' true r) as (fa & -> & ?). exists fa. by rewrite orb_true_r. }
  destruct (Z.eqb_spec (Status d) DID_STATUS_REVOKED) as [E|Er].
  - destruct (IH' s true) as (fa & -> & ?). exists fa. by rewrite orb_true_r.
  - destruct (IH' s r) as (fa & -> & ?). by exists fa.
Qed.
Lemma sweep_codec fa s r : DecodeControllerSweep (Some (EncodeControllerSweep fa s r)) = mkSweep fa s r true.
Proof. unfold EncodeControllerSweep, DecodeControllerSweep. rewrite char_code_byte. by destruct s, r. Qed.

Definition owns (st : IdStore) (c : string) (x : Z) : Prop := ∃ did d, s_docs st !! did = Some d ∧ Controller d = c ∧ Status d = x.
Lemma has_status_owns st c x : registry_ok st → nul_free c → has_status x (indexed_docs st c) = true ↔ owns st c x.
Proof.
  intros [[Hd Hc _ _ _ _ _] _ _ _] Hn. unfold has_status. rewrite existsb_exists. split.
  - intros (d & Hin%list_elem_of_In & Hs%Z.eqb_eq). apply elem_of_indexed_docs in Hin as [Hl ?]; [|done..]. by exists (Did d), d.
  - intros (did & d & Hl & Hco & Hs). exists d. rewrite <- list_elem_of_In, (elem_of_indexed_docs _ _ _ Hd Hc Hn).
    destruct (Hd _ _ Hl) as (-> & _). split; [done|by apply Z.eqb_eq].
Qed.
Lemma owns_nul_free st c x : registry_ok st → owns st c x → nul_free c.
Proof. intros Hr (did & d & Hl & <- & _). by destruct (doc_controller _ _ _ Hr Hl). Qed.
(** what the O(1) record of an operator says of the registry *)
Record judged (st : IdStore) (c : string) (w : SweepStatus) : Prop := {
  ju_active : sw_ActiveDID w ≠ "" → ∃ d, s_docs st !! sw_ActiveDID w = Some d ∧ Controller d = c ∧ Status d = DID_STATUS_ACTIVE;
  ju_none : sw_ActiveDID w = "" → ¬ owns st c DID_STATUS_ACTIVE;
  ju_suspended : sw_HasSuspended w = true ↔ owns st c DID_STATUS_SUSPENDED;
  ju_revoked : sw_HasRevoked w = true ↔ owns st c DID_STATUS_REVOKED;
}.
Lemma sweep_judged st c : registry_ok st → judged st c (ControllerSweepStatus st c).
Proof.
  intros Hr. unfold ControllerSweepStatus. destruct (s_sweep st !! c) as [b|] eqn:Hb.
  - pose proof (ix_sweep_dom _ (ro_index _ Hr) _ _ Hb) as Hn. rewrite (ix_sweep _ (ro_index _ Hr) _ Hn) in Hb.
    unfold sweep_record in Hb. pose proof (has_status_owns st c DID_STATUS_SUSPENDED Hr Hn) as Hs.
    pose proof (has_status_owns st c DID_STATUS_REVOKED Hr Hn) as Hv.
    destruct (sweep_fold (indexed_docs st c) "" false false) as (fa & Ef & Hfa & Hem). rewrite Ef in Hb.
    assert (b = EncodeControllerSweep fa (has_status DID_STATUS_SUSPENDED (indexed_docs st c)) (has_status DID_STATUS_REVOKED (indexed_docs st c))) as ->
      by (destruct (indexed_docs st c); [done|by injection Hb as <-]).
    rewrite sweep_codec. pose proof (λ d, elem_of_indexed_docs st c d (ix_docs _ (ro_index _ Hr)) (ix_ctrl _ (ro_index _ Hr)) Hn) as Hin.
    constructor; cbn [sw_ActiveDID sw_HasSuspended sw_HasRevoked]; [| |done|done].
    + intros Hne. destruct Hfa as [->|(d & Hd & Ha & ->)]; [done|]. apply Hin in Hd as [? ?]. by exists d.
    + intros E (did & d & Hl & Hc & Ha). pose proof (ro_dids _ Hr _ _ Hl) as Hvd. destruct (ix_docs _ (ro_index _ Hr) _ _ Hl) as (<- & _).
      rewrite (proj2 (Hem E) d) in Hvd; [done|by apply Hin|done].
  - assert (∀ x, ¬ owns st c x) as Hno.
    { intros x Ho. pose proof (owns_nul_free _ _ _ Hr Ho) as Hn. apply has_status_owns in Ho; [|done..].
      rewrite (ix_sweep _ (ro_index _ Hr) _ Hn) in Hb. unfold sweep_record in Hb. destruct (indexed_docs st c); [done|by repeat case_match]. }
    cbn [DecodeControllerSweep]. constructor; cbn; [done| |split; [done|by intros ?%Hno]..].
    intros _. apply Hno.
Qed.

(** ** One validator *)
Section sweep.
Context {T : Type} `{SweepStaking T} `{AddressCodec} `{ValCodec}.
Context (error_text : error → string).
Abbreviation SS := (SweepState T).

Definition stays {A} (m : M SS A) : Prop := ∀ s o s', m s = (o, s') → ss_store s' = ss_store s.
Lemma stays_ret {A} (a : A) : stays (mret a).
Proof. by intros s o s' [= <- <-]. Qed.
Lemma stays_bind {A C} (m : M SS A) (f : A → M SS C) : stays m → (∀ a, stays (f a)) → stays (m ≫= f).
Proof.
  intros Hm Hf s o s'. unfold mbind, M_bind. destruct (m s) as [[a|e|w] s1] eqn:E; intros Hr.
  - rewrite (Hf _ _ _ _ Hr). by eapply Hm.
  - injection Hr as <- <-. by eapply Hm.
  - injection Hr as <- <-. by eapply Hm.
Qed.
Lemma stays_staking {A} (m : M T A) : stays (on_staking m).
Proof. intros s o s'. unfold on_staking, zoom. destruct (m (ss_staking s)). by intros [= <- <-]. Qed.
Lemma stays_attempt {A} (m : M SS A) : stays m → stays (attempt m).
Proof. intros Hm s o s'. unfold attempt. destruct (m s) as [[]] eqn:E; intros [= <- <-]; try done; by eapply Hm. Qed.
Lemma stays_emit ty l : stays (sw_emit ty l).
Proof. by intros s o s' [= <- <-]. Qed.
Lemma stays_reads {A} (f : SS → A) : stays (reads f).
Proof. by intros s o s' [= <- <-]. Qed.
#[local] Hint Resolve stays_ret stays_staking stays_attempt stays_emit stays_reads : calm.
Ltac stays_tac := repeat first [solve [auto with calm] | apply stays_bind; [|intros ?] | case_match].
Lemma stays_reversibly c v d j : stays (removeReversibly c v d j).
Proof. unfold removeReversibly, emitSweep. stays_tac. Qed.
Lemma stays_permanently c j : stays (removePermanently c j).
Proof. unfold removePermanently. stays_tac. Qed.
Lemma reversibly_out c v d j (s : SS) o s' : removeReversibly c v d j s = (Ok o, s') → o = SweepJailed.
Proof.
  unfold removeReversibly. case_match; [by intros [= <- _]|].
  by intros (? & ? & _ & (? & ? & _ & [? _]%ret_Ok)%bind_Ok)%bind_Ok.
Qed.
Lemma permanently_out c j (s : SS) o s' : removePermanently c j s = (Ok o, s') → o = SweepTombstoned.
Proof.
  unfold removePermanently. intros (? & ? & _ & (? & ? & _ & (? & ? & _ & [? _]%ret_Ok)%bind_Ok)%bind_Ok)%bind_Ok. done.
Qed.
Lemma sw_look_run {A} (f : IdStore → A) (s : SS) a s' : sw_look f s = (Ok a, s') → a = f (ss_store s) ∧ s' = s.
Proof. by intros [= <- <-]. Qed.

(** the identity behind a validator, and the reading of each outcome *)
Definition backing (st : IdStore) (v did : string) : Prop :=
  DIDForValidator st v = Some did ∧ ∃ d, s_docs st !! did = Some d ∧ Status d = DID_STATUS_ACTIVE.
Definition verdict (st : IdStore) (v : string) (o : ValidatorSweepOutcome) : Prop :=
  match o with
  | SweepKept | SweepBound => ∃ did, backing st v did
  | SweepJailed =>
      (∃ did d, DIDForValidator st v = Some did ∧ s_docs st !! did = Some d ∧ Status d = DID_STATUS_SUSPENDED) ∨
      DIDForValidator st v = None ∧
        (¬ owns st (operator_account v) DID_STATUS_ACTIVE ∧
           (owns st (operator_account v) DID_STATUS_SUSPENDED ∨ ¬ owns st (operator_account v) DID_STATUS_REVOKED) ∨
         ∃ did v', backing st v' did ∧ v' ≠ v ∧ ∃ d, s_docs st !! did = Some d ∧ Controller d = operator_account v)
  | SweepTombstoned =>
      DIDForValidator st v = None ∧ owns st (operator_account v) DID_STATUS_REVOKED ∧ ¬ owns st (operator_account v) DID_STATUS_SUSPENDED ∧
      ¬ owns st (operator_account v) DID_STATUS_ACTIVE
  end.
Record sweeps (st st' : IdStore) (v : string) : Prop := {
  sp_registry : same_registry st st';
  sp_recovery : rec_frame st st';
  sp_binds : binds_ok st';
  sp_other v' : v' ≠ v → DIDForValidator st' v' = DIDForValidator st v';
  sp_keep v' did : DIDForValidator st v' = Some did → DIDForValidator st' v' = Some did;
}.

Lemma sweeps_refl st v : binds_ok st → sweeps st st v.
Proof. intros Hb. by constructor. Qed.
Lemma bind_sweeps st v did d : binds_ok st → DIDForValidator st v = None → ValidatorForDID st did = None ∨ ValidatorForDID st did = Some v →
  s_docs st !! did = Some d → Status d = DID_STATUS_ACTIVE →
  sweeps st (BindValidatorToDID did v st) v ∧ backing (BindValidatorToDID did v st) v did.
Proof.
  unfold DIDForValidator, ValidatorForDID. intros [Hp Hb] Hv Hd Hl Hs.
  assert (s_did_val st !! did = None) as Hd' by (destruct Hd as [?|Hd]; [done|apply Hp in Hd; congruence]).
  split; [constructor|].
  - by repeat constructor.
  - by constructor.
  - constructor.
    + intros w x. unfold BindValidatorToDID. cbn [s_did_val s_val_did set_val_did set_did_val]. rewrite !lookup_insert_Some. split.
      * intros [[-> ->]|[Hne Hx]]; [by left|right]. apply Hp in Hx. split; [congruence|done].
      * intros [[-> ->]|[Hne Hx]]; [by left|right]. apply Hp in Hx. split; [congruence|done].
    + intros x w. unfold BindValidatorToDID. cbn [s_did_val s_val_did set_val_did set_did_val]. intros [[<- <-]|[Hne Hx]]%lookup_insert_Some.
      * exists d. split; [done|]. by rewrite Hs.
      * by destruct (Hb _ _ Hx) as (y & ? & ?); exists y.
  - intros v' Hne. unfold BindValidatorToDID, DIDForValidator. cbn [s_val_did set_val_did]. by rewrite lookup_insert_ne.
  - intros v' x Hx. unfold BindValidatorToDID, DIDForValidator in *. cbn [s_val_did set_val_did]. rewrite lookup_insert_ne; [done|congruence].
  - split; [|by exists d]. unfold BindValidatorToDID, DIDForValidator. cbn [s_val_did set_val_did]. by rewrite lookup_insert_eq.
Qed.
Lemma status_remove v c j (s : SS) o s' : registry_ok (ss_store s) → DIDForValidator (ss_store s) v = None →
  sw_ActiveDID (ControllerSweepStatus (ss_store s) (operator_account v)) = "" →
  removeByIdentityStatus v (operator_account v) c j s = (Ok o, s') →
  ss_store s' = ss_store s ∧ verdict (ss_store s) v o.
Proof.
  intros Hr Hv Ha. unfold removeByIdentityStatus. intros (w & s1 & [-> ->]%sw_look_run & Hrun)%bind_Ok.
  pose proof (sweep_judged _ (operator_account v) Hr) as [_ Hn Hsu Hre]. specialize (Hn Ha). case_match eqn:Hc.
  - rewrite (permanently_out _ _ _ _ _ Hrun), (stays_permanently _ _ _ _ _ Hrun). split; [done|]. apply andb_true_iff in Hc as [Hrv Hns].
    cbn [verdict]. split_and!; [done|by apply Hre| |done]. rewrite <- Hsu. by destruct (sw_HasSuspended _).
  - rewrite (reversibly_out _ _ _ _ _ _ _ Hrun), (stays_reversibly _ _ _ _ _ _ _ Hrun). split; [done|]. right. split; [done|]. left. split; [done|].
    rewrite <- Hsu, <- Hre. destruct (sw_HasSuspended _); [by left|right]. by destruct (sw_HasRevoked _).
Qed.
Lemma sweepOne_sound v c j (s : SS) o s' : registry_ok (ss_store s) → binds_ok (ss_store s) →
  sweepOne v c j s = (Ok o, s') → sweeps (ss_store s) (ss_store s') v ∧ verdict (ss_store s') v o.
Proof.
  intros Hr Hb. unfold sweepOne. intros (bound & s1 & [-> ->]%sw_look_run & Hrun)%bind_Ok. cbv zeta in Hrun.
  pose proof (sweeps_refl (ss_store s) v Hb) as Hrefl. destruct (DIDForValidator (ss_store s) v) as [did|] eqn:Hv.
  - apply bind_Ok in Hrun as (o' & s1 & [-> ->]%sw_look_run & Hrun).
    destruct (bo_backed _ Hb did v) as (d & Hd & Hs); [by apply (bo_paired _ Hb)|]. unfold GetIdentity in Hrun. rewrite Hd in Hrun.
    destruct (Z.eqb_spec (Status d) DID_STATUS_ACTIVE) as [Ea|Hna].
    { injection Hrun as <- <-. split; [done|]. exists did. split; [done|by exists d]. }
    destruct (Z.eqb_spec (Status d) DID_STATUS_SUSPENDED) as [Es|Hns].
    { assert (ss_store s' = ss_store s) as ->.
      { apply bind_Ok in Hrun as ([] & s1 & Hj & [_ <-]%ret_Ok). destruct j; [by injection Hj as <-|].
        apply bind_Ok in Hj as (? & s2 & Hj & He). injection He as <-. cbn [ss_store]. by rewrite (stays_staking _ _ _ _ Hj). }
      apply bind_Ok in Hrun as (? & ? & _ & [<- _]%ret_Ok). split; [done|]. left. by exists did, d. }
    pose proof (ro_status _ Hr _ _ Hd) as Hvs. unfold valid_status in Hvs. bool_prop. lia.
  - apply bind_Ok in Hrun as (w & s1 & [-> ->]%sw_look_run & Hrun).
    pose proof (sweep_judged _ (operator_account v) Hr) as [Hact _ _ _]. case_bool_decide as Hp.
    { destruct (status_remove _ _ _ _ _ _ Hr Hv Hp Hrun) as [-> ?]. done. }
    destruct (Hact Hp) as (d & Hd & Hc & Hs). set (did := sw_ActiveDID _) in *.
    apply bind_Ok in Hrun as (other & s1 & [-> ->]%sw_look_run & Hrun). case_match eqn:Hother.
    + rewrite (reversibly_out _ _ _ _ _ _ _ Hrun), (stays_reversibly _ _ _ _ _ _ _ Hrun). split; [done|]. right. split; [done|]. right.
      destruct (ValidatorForDID (ss_store s) did) as [v'|] eqn:Hv'; [|done]. bool_prop.
      exists did, v'. split_and!; [split; [by apply (bo_paired _ Hb)|by exists d]|done|by exists d].
    + apply bind_Ok in Hrun as ([] & s1 & Hw & Hrun). injection Hw as <-. apply bind_Ok in Hrun as (? & s2 & He & [<- <-]%ret_Ok).
      injection He as _ <-. cbn [ss_store]. destruct (bind_sweeps (ss_store s) v did d Hb Hv) as [Hsw Hbk]; [|done..|].
      { destruct (ValidatorForDID (ss_store s) did); [|by left]. bool_prop. subst. by right. }
      split; [done|]. by exists did.
Qed.

(** ** What x/staking is told *)
Definition enforced (t : T) (c : string) (o : ValidatorSweepOutcome) : Prop :=
  match o with
  | SweepKept | SweepBound => True
  | SweepJailed => in_jail t c
  | SweepTombstoned => in_jail t c ∧ (IsTombstoned t c = true ∨ ∃ t0 e t1, Tombstone c t0 = (Err e, t1))
  end.
(** an action that frees nobody and keeps the events *)
Definition onward (s s' : SS) : Prop := staking_keeps (ss_staking s) (ss_staking s') ∧ ss_events s `prefix_of` ss_events s'.
#[export] Instance onward_preorder : PreOrder onward.
Proof.
  split; [intros s; by split; [split|]|]. intros s1 s2 s3 [[A1 A2] A3] [[B1 B2] B3].
  split; [split; auto|by etrans].
Qed.
Lemma enforced_keeps t t' c o : staking_keeps t t' → enforced t c o → enforced t' c o.
Proof. intros [K1 K2]. destruct o; cbn [enforced]; [done|done|apply K1|]. intros [? [?|?]]; split; auto. Qed.

Section laws.
Context `{!SweepStakingLaws T}.
Definition onwards {A} (m : M SS A) : Prop := ∀ s o s', m s = (o, s') → onward s s'.
Lemma onwards_ret {A} (a : A) : onwards (mret a).
Proof. by intros s o s' [= <- <-]. Qed.
Lemma onwards_bind {A C} (m : M SS A) (f : A → M SS C) : onwards m → (∀ a, onwards (f a)) → onwards (m ≫= f).
Proof.
  intros Hm Hf s o s'. unfold mbind, M_bind. destruct (m s) as [[a|e|w] s1] eqn:E; intros Hr.
  - etrans; [by eapply Hm|by eapply Hf].
  - injection Hr as <- <-. by eapply Hm.
  - injection Hr as <- <-. by eapply Hm.
Qed.
Lemma onwards_staking {A} (m : M T A) : (∀ t o t', m t = (o, t') → staking_keeps t t') → onwards (on_staking m).
Proof. intros Hm s o s'. unfold on_staking, zoom. destruct (m (ss_staking s)) eqn:E. intros [= <- <-]. split; [by eapply Hm|done]. Qed.
Lemma onwards_jail c : onwards (on_staking (Jail c)).
Proof. apply onwards_staking. intros t o t' E. by apply jail_law in E as [? _]. Qed.
Lemma onwards_tombstone c : onwards (on_staking (Tombstone c)).
Proof. apply onwards_staking. intros t o t' E. by apply tombstone_law in E as [? _]. Qed.
Lemma onwards_until c x : onwards (on_staking (JailUntil c x)).
Proof. apply onwards_staking. intros t o t'. apply until_law. Qed.
Lemma onwards_attempt {A} (m : M SS A) : onwards m → onwards (attempt m).
Proof. intros Hm s o s'. unfold attempt. destruct (m s) as [[]] eqn:E; intros [= <- <-]; by eapply Hm. Qed.
Lemma onwards_emit ty l : onwards (sw_emit ty l).
Proof. intros s o s' [= <- <-]. split; [done|]. by apply prefix_app_r. Qed.
Lemma onwards_reads {A} (f : SS → A) : onwards (reads f).
Proof. by intros s o s' [= <- <-]. Qed.
Lemma onwards_write f : onwards (sw_write f).
Proof. by intros s o s' [= <- <-]. Qed.
#[local] Hint Resolve onwards_ret onwards_jail onwards_tombstone onwards_until onwards_attempt onwards_emit onwards_reads onwards_write : calm.
Ltac onwards_tac := repeat first [solve [auto with calm] | apply onwards_bind; [|intros ?] | case_match].
Lemma sweepOne_onwards v c j : onwards (sweepOne v c j).
Proof.
  unfold sweepOne, removeByIdentityStatus, removePermanently, removeReversibly, emitSweep, sw_look. onwards_tac.
Qed.
Lemma jail_runs c (s s' : SS) : on_staking (Jail c) s = (Ok tt, s') → in_jail (ss_staking s') c.
Proof.
  unfold on_staking, zoom. destruct (Jail c (ss_staking s)) as [o t'] eqn:E. intros [= -> <-]. apply jail_law in E as [_ Hj]. by apply Hj.
Qed.
Lemma jailed_if (j : bool) c (m : M SS unit) (s s' : SS) : (j = true → in_jail (ss_staking s) c) → onwards m →
  (if j then mret tt else on_staking (Jail c);; m) s = (Ok tt, s') → in_jail (ss_staking s') c.
Proof.
  intros Hj Hm. destruct j; [intros [_ <-]%ret_Ok; by apply Hj|]. intros ([] & s1 & Hs1%jail_runs & [[K _] _]%Hm)%bind_Ok. by apply K.
Qed.
Lemma reversibly_enforced c v d j (s : SS) o s' : (j = true → in_jail (ss_staking s) c) →
  removeReversibly c v d j s = (Ok o, s') → enforced (ss_staking s') c o.
Proof.
  intros Hj. unfold removeReversibly. destruct j; [intros [<- <-]%ret_Ok; by apply Hj|].
  intros ([] & s1 & Hs1%jail_runs & ([] & s2 & [[K _] _]%onwards_emit & [<- <-]%ret_Ok)%bind_Ok)%bind_Ok. by apply K.
Qed.
Lemma permanently_enforced c j (s : SS) o s' : (j = true → in_jail (ss_staking s) c) →
  removePermanently c j s = (Ok o, s') → enforced (ss_staking s') c o.
Proof.
  intros Hj. unfold removePermanently. intros ([] & s1 & H1' & Hr)%bind_Ok. apply bind_Ok in Hr as (tb & s2 & [= <- <-] & Hr).
  assert (in_jail (ss_staking s1) c) as Hjail.
  { destruct j; [injection H1' as <-; by apply Hj|by eapply jail_runs]. }
  apply bind_Ok in Hr as ([] & s3 & Hr & [<- <-]%ret_Ok). cbn [enforced]. destruct (IsTombstoned (ss_staking s1) c) eqn:Ht; cbn [negb] in Hr.
  { injection Hr as <-. auto. }
  apply bind_Ok in Hr as (a & s4 & H4 & Hr). apply bind_Ok in Hr as (a' & s5 & H5 & [_ <-]%ret_Ok).
  pose proof (onwards_attempt _ (onwards_tombstone c) _ _ _ H4) as [K4 _]. pose proof (onwards_attempt _ (onwards_until c _) _ _ _ H5) as [K5 _].
  split; [by apply K5, K4|]. unfold attempt, on_staking, zoom in H4. destruct (Tombstone c (ss_staking s1)) as [[[]|e|w] t'] eqn:E; [| |done].
  - left. apply K5. injection H4 as <- <-. apply tombstone_law in E as [_ E]. by apply E.
  - right. by exists (ss_staking s1), e, t'.
Qed.
Lemma sweepOne_enforced v c j (s : SS) o s' : (j = true → in_jail (ss_staking s) c) →
  sweepOne v c j s = (Ok o, s') → enforced (ss_staking s') c o.
Proof.
  intros Hj. unfold sweepOne. intros (bound & s1 & [-> ->]%sw_look_run & Hrun)%bind_Ok. cbv zeta in Hrun.
  assert (∀ (s1 s2 : SS) o, ss_staking s1 = ss_staking s → removeByIdentityStatus v (operator_account v) c j s1 = (Ok o, s2) →
    enforced (ss_staking s2) c o) as Hby.
  { intros s1 s2 o' E (w & s3 & [-> ->]%sw_look_run & Hr)%bind_Ok. rewrite <- E in Hj.
    case_match; [by eapply permanently_enforced|by eapply reversibly_enforced]. }
  destruct (DIDForValidator (ss_store s) v) as [did|].
  - apply bind_Ok in Hrun as (d & s1 & [-> ->]%sw_look_run & Hrun). destruct (GetIdentity (ss_store s) did) as [doc|].
    + case_match; [by injection Hrun as <- <-|]. case_match.
      * apply bind_Ok in Hrun as ([] & s1 & H1' & [<- <-]%ret_Ok). eapply jailed_if; [exact Hj| |exact H1']. apply onwards_emit.
      * apply bind_Ok in Hrun as ([] & s1 & [= <-] & Hrun). by eapply permanently_enforced in Hrun.
    + apply bind_Ok in Hrun as ([] & s1 & [= <-] & Hrun). by eapply Hby in Hrun.
  - apply bind_Ok in Hrun as (w & s1 & [-> ->]%sw_look_run & Hrun). case_bool_decide; [by eapply Hby in Hrun|].
    apply bind_Ok in Hrun as (other & s1 & [-> ->]%sw_look_run & Hrun). case_match; [by eapply reversibly_enforced in Hrun|].
    apply bind_Ok in Hrun as ([] & s1 & _ & Hrun). by apply bind_Ok in Hrun as (? & s2 & _ & [<- _]%ret_Ok).
Qed.

Definition failed_event (v reason : string) : Event := mkEvent "validator_sweep_failed" [("validator", v); ("reason", reason)].
Lemma isolated_cases v c j (s : SS) o s' : (j = true → in_jail (ss_staking s) c) →
  sweepOneIsolated error_text v c j s = (o, s') →
  onward s s' ∧ match o with Some out => enforced (ss_staking s') c out | None => ∃ reason, failed_event v reason ∈ ss_events s' end.
Proof.
  intros Hj. unfold sweepOneIsolated. destruct (sweepOne v c j s) as [[out|e|w] s1] eqn:E; intros [= <- <-].
  - split; [by eapply sweepOne_onwards|by eapply sweepOne_enforced].
  - split; [by eapply onwards_emit|]. eexists. apply elem_of_app. right. left.
  - split; [by eapply onwards_emit|]. eexists. apply elem_of_app. right. left.
Qed.
(** what a sweep has done about a validator: its outcome is enforced, or its failure is told *)
Definition dealt (out : gmap string ValidatorSweepOutcome) (s : SS) (v : string) : Prop :=
  is_Some (out !! v) ∨ ∃ reason, failed_event v reason ∈ ss_events s.
Lemma sweep_all_enforced l (all : list (string * string * bool)) outcomes (s : SS) out s' : (∀ x, x ∈ l → x ∈ all) →
  (∀ v c, (v, c, true) ∈ l → in_jail (ss_staking s) c) →
  (∀ v o, outcomes !! v = Some o → ∃ c j, (v, c, j) ∈ all ∧ enforced (ss_staking s) c o) →
  sweep_all error_text l outcomes s = (out, s') →
  onward s s' ∧ (∀ v o, outcomes !! v = Some o → is_Some (out !! v)) ∧
  (∀ v o, out !! v = Some o → ∃ c j, (v, c, j) ∈ all ∧ enforced (ss_staking s') c o) ∧
  (∀ v c j, (v, c, j) ∈ l → dealt out s' v).
Proof.
  revert outcomes s. induction l as [|[[v c] j] l IH]; intros outcomes s Hall Hj Ho; cbn [sweep_all].
  { intros [= <- <-]. split_and!; [done|by eauto|done|set_solver]. }
  destruct (sweepOneIsolated error_text v c j s) as [o s1] eqn:E.
  apply isolated_cases in E as [On Hcase]; [|intros ->; apply (Hj v c); left]. pose proof On as [K Hev]. intros Hrun.
  apply IH in Hrun as (On' & Hk & He & Hd); [..|intros v' c' Hin; apply K, (Hj v' c'); by right|].
  - split_and!; [by etrans| |done|].
    + intros v' o' Hl. destruct o as [out'|]; [|by eapply Hk]. destruct (decide (v' = v)) as [->|Hne].
      * eapply Hk. by rewrite lookup_insert_eq.
      * eapply Hk. by rewrite lookup_insert_ne.
    + intros v' c' j' [[= -> -> ->]|Hin]%elem_of_cons; [|by eapply Hd]. destruct o as [out'|].
      * left. eapply Hk. by rewrite lookup_insert_eq.
      * right. destruct Hcase as [reason Hr]. exists reason. destruct On' as [_ [l' ->]]. apply elem_of_app. by left.
  - intros x Hx. apply Hall. by right.
  - intros v' o' Hl. destruct o as [out'|].
    + apply lookup_insert_Some in Hl as [[<- <-]|[_ Hl]]; [exists c, j; split; [apply Hall; left|done]|].
      destruct (Ho _ _ Hl) as (c' & j' & ? & ?). exists c', j'. split; [done|by eapply enforced_keeps].
    + destruct (Ho _ _ Hl) as (c' & j' & ? & ?). exists c', j'. split; [done|by eapply enforced_keeps].
Qed.
(** the block's sweep deals with every validator it finds, and x/staking has been told *)
Lemma Sweep_enforced (s : SS) :
  (∀ v o, (SweepValidatorBindings error_text s).1 !! v = Some o →
     ∃ c j, (v, c, j) ∈ candidates (ss_staking s) ∧ enforced (ss_staking (EndBlock error_text s)) c o) ∧
  (∀ v c j, (v, c, j) ∈ candidates (ss_staking s) → dealt (SweepValidatorBindings error_text s).1 (EndBlock error_text s) v).
Proof.
  unfold EndBlock, SweepValidatorBindings, candidates. destruct (IterateLastValidators (ss_staking s)) as [vs|] eqn:Hvs; cbn [fmap option_fmap option_map default].
  - destruct (sweep_all error_text (actives vs) ∅ s) as [out s'] eqn:E. apply (sweep_all_enforced _ (actives vs)) in E as (_ & _ & ? & ?); [done|done| |].
    + intros v c (x & Hx & Hin)%list_elem_of_omap. destruct (v_ConsAddr x) as [cons|] eqn:Ec; [|done]. injection Hin as _ -> Hj.
      by eapply listed_law.
    + intros v o Hl. by rewrite lookup_empty in Hl.
  - split; [|set_solver]. intros v o Hl. cbn [fst] in Hl. by rewrite lookup_empty in Hl.
Qed.
End laws.

(** ** A block *)
Lemma backing_sweeps st st' w v did : sweeps st st' w → backing st v did → backing st' v did.
Proof. intros [[[Ed _ _ _ _ _] _] _ _ _ Hk] [Hv Hd]. split; [by apply Hk|]. by rewrite Ed. Qed.
Lemma verdict_stable st st' w v o : sweeps st st' w → v ≠ w → verdict st v o → verdict st' v o.
Proof.
  intros Hsw Hne. pose proof Hsw as [[[Ed _ _ _ _ _] _] _ _ Ho _]. specialize (Ho v Hne).
  destruct o; cbn [verdict]; unfold owns; rewrite ?Ho, ?Ed.
  - intros [did Hb]. exists did. by eapply backing_sweeps.
  - intros [did Hb]. exists did. by eapply backing_sweeps.
  - intros [?|[? [?|(did & v' & Hb & ?)]]]; [by left|right; by split; [|left]|].
    right. split; [done|]. right. exists did, v'. split; [by eapply backing_sweeps|done].
  - done.
Qed.
Definition verdicts (outcomes : gmap string ValidatorSweepOutcome) (st : IdStore) : Prop :=
  ∀ v o, outcomes !! v = Some o → verdict st v o.
Record swept (st st' : IdStore) : Prop := {
  sd_registry : same_registry st st';
  sd_recovery : rec_frame st st';
  sd_binds : binds_ok st';
}.
Lemma rec_frame_trans st1 st2 st3 : rec_frame st1 st2 → rec_frame st2 st3 → rec_frame st1 st3.
Proof. intros [] []. constructor; congruence. Qed.
Lemma registry_same st st' : same_registry st st' → registry_ok st → registry_ok st'.
Proof. intros Hs. apply (registry_write (mkContext 0 0 "")); [done|by apply w_frame]. Qed.

Lemma sweep_all_sound l outcomes (s : SS) out s' : registry_ok (ss_store s) → binds_ok (ss_store s) → verdicts outcomes (ss_store s) →
  sweep_all error_text l outcomes s = (out, s') →
  swept (ss_store s) (ss_store s') ∧ verdicts out (ss_store s').
Proof.
  revert outcomes s. induction l as [|[[v c] j] l IH]; intros outcomes s Hr Hb Hv; cbn [sweep_all].
  { intros [= <- <-]. split; [|done]. by constructor. }
  unfold sweepOneIsolated. destruct (sweepOne v c j s) as [[o|e|w] s1] eqn:E.
  2,3: intros Hrun; by apply (IH outcomes) in Hrun.
  destruct (sweepOne_sound _ _ _ _ _ _ Hr Hb E) as [Hsw Hvo]. intros Hrun. pose proof Hsw as [Hreg Hrec Hb1 _ _].
  apply IH in Hrun as [[R1 R2 R3] R4]; [|by eapply registry_same|done|].
  - split; [|done]. constructor; [by trans (ss_store s1)|by eapply rec_frame_trans|done].
  - intros v' o'. rewrite lookup_insert_Some. intros [[<- <-]|[Hne Hl]]; [done|]. by eapply verdict_stable; [..|apply Hv].
Qed.
(** the block's sweep: the registry, the requests and the guardians are untouched, the
    bindings stay one to one, and every recorded outcome is right in the state it leaves *)
Lemma Sweep_sound (s : SS) : registry_ok (ss_store s) → binds_ok (ss_store s) →
  swept (ss_store s) (ss_store (EndBlock error_text s)) ∧
  verdicts (SweepValidatorBindings error_text s).1 (ss_store (EndBlock error_text s)).
Proof.
  intros Hr Hb. unfold EndBlock, SweepValidatorBindings. destruct (IterateLastValidators _) as [vs|].
  - destruct (sweep_all error_text (actives vs) ∅ s) as [out s'] eqn:E. by apply sweep_all_sound in E.
  - split; [by constructor|]. intros v o Hl. cbn [fst] in Hl. by rewrite lookup_empty in Hl.
Qed.
End sweep.

(** the empty store of a new chain *)
Definition empty_store : IdStore := mkIdStore None None ∅ ∅ ∅ ∅ ∅ ∅ ∅ ∅ ∅ ∅ ∅ ∅ ∅ None ∅ ∅ ∅.

Section chain.
Context {B T : Type} `{BankLaws B} `{AddressText} `{Hasher} `{Verifier} `{SweepStaking T} `{ValCodec}.
Context (authority : string) (reauth : bool) (error_text : error → string) (minSelfStake : Z).
Abbreviation St := (IdState B).

Record id_inv (s : St) : Prop := {
  iv_registry : registry_ok (id_store s);
  iv_recovery : recovery_inv s;
  iv_binds : binds_ok (id_store s);
}.

(** what the state machine relies on: the module account signs nothing, a [uint32]
    threshold is not negative, and fewer than 2^64 - 2 guardian sets are written for one
    identity *)
Definition admissible (m : IdMsg) (s : St) : Prop :=
  match m with
  | MInitiate m => AccAddressFromBech32 (ini_Creator m) ≠ Some (ModuleAddress ModuleName)
  | MSetGuardians m => 0 ≤ sg_Threshold m ∧ GuardianEpoch (id_store s) (sg_Did m) < 2 ^ 64 - 2
  | MRevoke m => GuardianEpoch (id_store s) (rvk_Did m) < 2 ^ 64 - 2
  | _ => True
  end.
Definition on_sweep (t : T) (s : St) : SweepState T := mkSweepState (id_store s) t (id_events s).
Definition of_sweep (s : St) (w : SweepState T) : St := mkIdState (id_bank s) (ss_store w) (ss_events w).

Inductive id_step : St → St → Prop :=
| step_msg ctx m s : is_int64 (BlockTime ctx) → admissible m s → id_step s (deliver (handle authority reauth ctx m) s)
| step_bank b s : escrow s ≤ GetBalance b (ModuleAddress ModuleName) → id_step s (mkIdState b (id_store s) (id_events s))
| step_end t s : id_step s (of_sweep s (EndBlock error_text (on_sweep t s)))
| step_created ctx t valAddr s : DIDForValidator (id_store s) (ValAddress_String valAddr) = None →
    id_step s (of_sweep s (deliver (AfterValidatorCreated minSelfStake ctx valAddr) (on_sweep t s)))
| step_removed t valAddr s : id_step s (of_sweep s (deliver (AfterValidatorRemoved valAddr) (on_sweep t s))).
Definition reachable : St → St → Prop := rtc id_step.

(** ** Messages *)
Lemma handle_evolving ctx m : ValidateBasic m = Ok tt → evolving ctx (run_msg (B := B) authority reauth ctx m).
Proof.
  intros Hv. destruct m; cbn [run_msg];
    first [by apply evolves_Register | apply evolves_Rotate | apply evolves_UpdateStatus | apply evolves_Execute
          | apply evolves_Revoke | apply calm_evolving; calm_all].
Qed.
Lemma handle_keeps ctx m (s s' : St) : ValidateBasic m = Ok tt → admissible m s → registry_ok (id_store s) → recovery_inv s →
  run_msg authority reauth ctx m s = (Ok tt, s') → recovery_inv s'.
Proof.
  intros Hv Ha Hro Hinv. destruct m; cbn [run_msg admissible ValidateBasic] in *; intros Hr.
  - by eapply keeps_Register.
  - by eapply keeps_Rotate.
  - unfold MsgUpdateStatus_ValidateBasic in Hv. apply obind_Ok in Hv as ([] & _ & Hv). apply obind_Ok in Hv as ([] & Hd%check_did_nul_free & _).
    by eapply keeps_UpdateStatus.
  - destruct Ha. by eapply keeps_SetGuardians.
  - apply bind_Ok in Hr as (id & s1 & Hr & [_ <-]%ret_Ok). by eapply keeps_Initiate.
  - by eapply keeps_Approve.
  - by eapply keeps_Reject.
  - by eapply keeps_Execute.
  - by eapply keeps_Cancel.
  - eapply keeps_Revoke; [|done..|exact Hr]. unfold RevokeIdentity in Hr. apply bind_Ok in Hr as (doc & s1 & [_ Hl]%identity_run & _).
    by eapply ValidateDID_nul_free, ro_dids.
  - by eapply keeps_UpdateParams.
  - by eapply keeps_RegisterIssuer.
  - by eapply keeps_RevokeIssuer.
Qed.
Lemma deliver_handle ctx m (s : St) :
  deliver (handle authority reauth ctx m) s = s ∨
  ValidateBasic m = Ok tt ∧ run_msg authority reauth ctx m s = (Ok tt, deliver (handle authority reauth ctx m) s).
Proof.
  unfold deliver. destruct (handle authority reauth ctx m s) as [[[]|e|w] s'] eqn:E; [right|by left..].
  unfold handle in E. by apply bind_Ok in E as ([] & s1 & [Hv <-]%lift_Ok & Hr).
Qed.
Lemma msg_inv ctx m (s : St) : is_int64 (BlockTime ctx) → admissible m s → id_inv s → id_inv (deliver (handle authority reauth ctx m) s).
Proof.
  intros Ht Ha [Q1 Q2 Q3]. destruct (deliver_handle ctx m s) as [->|[Hv Hr]]; [done|].
  destruct (handle_evolving ctx m Hv s tt _ Q1 Q2 Q3 Hr) as [He Hb].
  constructor; [by eapply registry_evolves|by eapply handle_keeps|done].
Qed.

(** ** Hooks *)
Lemma scan_spec {A} st (test : string → DIDDocument → option A) n dids a b : scan_dids st test n dids = (Some a, b) →
  ∃ did d, did ∈ dids ∧ s_docs st !! did = Some d ∧ test did d = Some a.
Proof.
  revert n. induction dids as [|did dids IH]; intros n; cbn [scan_dids]; [done|]. case_match; [done|].
  destruct (GetIdentity st did ≫= test did) as [a'|] eqn:E.
  - intros [= -> <-]. apply bind_Some in E as (d & Hd & Ht). exists did, d. split; [by left|done].
  - intros (x & d & Hx & ?)%IH. exists x, d. split; [by right|done].
Qed.
Lemma PrimaryDID_active st c did : registry_ok st → PrimaryDID st c = Some did →
  ∃ d, s_docs st !! did = Some d ∧ Status d = DID_STATUS_ACTIVE.
Proof.
  intros Hr. unfold PrimaryDID. destruct (primaryDIDBounded st c) as [o b] eqn:E. cbn [fst]. intros ->.
  apply scan_spec in E as (x & d & _ & Hl & Ht). destruct (Z.eqb_spec (Status d) DID_STATUS_ACTIVE); [|done]. injection Ht as <-.
  exists d. by destruct (ix_docs _ (ro_index _ Hr) _ _ Hl) as (-> & _).
Qed.
Lemma created_swept ctx valAddr (w : SweepState T) : registry_ok (ss_store w) → binds_ok (ss_store w) →
  DIDForValidator (ss_store w) (ValAddress_String valAddr) = None →
  swept (ss_store w) (ss_store (deliver (AfterValidatorCreated minSelfStake ctx valAddr) w)).
Proof.
  intros Hr Hb Hv. unfold deliver. destruct (AfterValidatorCreated minSelfStake ctx valAddr w) as [[[]|e|x] w'] eqn:E; [|by constructor..].
  unfold AfterValidatorCreated in E. case_match; [injection E as <-; by constructor|].
  apply bind_Ok in E as (p & w1 & [-> ->]%sw_look_run & E). apply bind_Ok in E as (did & w1 & [Hp <-]%or_fail_Ok & E).
  apply bind_Ok in E as (bd & w1 & [-> ->]%sw_look_run & E). apply bind_Ok in E as ([] & w1 & [Hbd <-]%fail_if_Ok & E).
  apply bind_Ok in E as (msd & w1 & Hq & E). injection Hq as _ <-. apply bind_Ok in E as ([] & w1 & [_ <-]%fail_if_Ok & E). injection E as <-.
  destruct (PrimaryDID_active _ _ _ Hr Hp) as (d & Hl & Hs). cbn [ss_store].
  destruct (bind_sweeps (ss_store w) (ValAddress_String valAddr) did d Hb Hv) as [[R1 R2 R3 _ _] _]; [|done..|by constructor].
  destruct (ValidatorForDID (ss_store w) did); [|by left]. bool_prop. subst. by right.
Qed.
Lemma unbind_binds v st : binds_ok st → swept st (UnbindValidator v st).
Proof.
  intros Hb. constructor; [unfold UnbindValidator; case_match; by repeat constructor|apply unbind_frame|].
  destruct (s_val_did st !! v) as [did|] eqn:Hv.
  - apply (bo_paired _ Hb) in Hv as Hd. apply (revoke_binds did v st); done.
  - assert (UnbindValidator v st = st) as ->; [|done]. unfold UnbindValidator, DIDForValidator. rewrite Hv.
    unfold set_val_did. rewrite delete_id by done. by destruct st.
Qed.
Lemma swept_inv (s : St) st ev : swept (id_store s) st → id_inv s → id_inv (mkIdState (id_bank s) st ev).
Proof.
  intros [R1 R2 R3] [Q1 Q2 Q3]. constructor; [by eapply registry_same|by apply (recovery_frame s)|done].
Qed.
Lemma step_inv s s' : id_step s s' → id_inv s → id_inv s'.
Proof.
  intros Hs Hinv. pose proof Hinv as [Q1 Q2 Q3]. destruct Hs as [ctx m s Ht Ha|b s Hb|t s|ctx t v s Hv|t v s].
  - by apply msg_inv.
  - constructor; [done| |done]. destruct Q2. constructor; [done..|]. unfold escrow in *. cbn [id_bank id_store]. lia.
  - by apply swept_inv; [apply (Sweep_sound error_text (on_sweep t s))|].
  - by apply swept_inv; [apply (created_swept ctx v (on_sweep t s))|].
  - by apply swept_inv; [apply unbind_binds|].
Qed.
Lemma reachable_inv s s' : reachable s s' → id_inv s → id_inv s'.
Proof. induction 1; eauto using step_inv. Qed.
Lemma empty_inv b ev : 0 ≤ GetBalance b (ModuleAddress ModuleName) → id_inv (mkIdState b empty_store ev).
Proof.
  intros Hb. constructor.
  - constructor; [constructor|..].
    + by intros did d.
    + intros k. split; [by intros [? ?]|by intros (d & ? & _)].
    + constructor; [done| |done]. intros k. split; [by intros [? ?]|by intros (c & o & s & ? & _)].
    + intros c Hc. unfold indexed_docs, indexed_dids. cbn. done.
    + done.
    + intros c Hc. done.
    + done.
    + intros h did. split; [done|by intros (d & ? & _)].
    + by intros did d.
    + by intros did d.
  - constructor; [constructor| |constructor|].
    + by intros id r.
    + intros k. split; [by intros [? ?]|by intros (id & r & ? & _)].
    + by intros did gs.
    + intros did. unfold GuardianEpoch. cbn [id_store s_gepoch empty_store]. rewrite lookup_empty. cbn. lia.
    + by intros id r.
    + by intros id r.
    + by intros id x.
    + unfold owed. cbn [id_store s_rec empty_store]. rewrite map_sum_empty. exact Hb.
  - constructor; [by intros v did|by intros did v].
Qed.
End chain.
