(* ===== verification/IdSafety.v ===== *)
(** * x/identity: what the module promises

    The theorems, for every state the chain reaches from an empty store. *)
From stdpp Require Import base gmap strings list fin_maps relations.
From Stdlib Require Import ZArith Lia Ascii.
From S2P Require Import Prelude GoInt KVStore Interfaces PhiDid IdTypes IdKeeper IdServer IdIndex IdElig IdInvariants IdSweep IdStep IdRequests IdHandlers IdReach IdChain.

(** ** An identity is never deleted, forged or un-revoked *)
Definition persists (st st' : IdStore) : Prop :=
  ∀ did d, s_docs st !! did = Some d →
  ∃ d', s_docs st' !! did = Some d' ∧ UniquenessHash d' = UniquenessHash d ∧ CreatedAt d' = CreatedAt d ∧
        (Status d = DID_STATUS_REVOKED → d' = d).
#[export] Instance persists_refl : Reflexive persists.
Proof. intros st did d Hl. by exists d. Qed.
#[export] Instance persists_trans : Transitive persists.
Proof.
  intros a b c Q1 Q2 did d (d1 & Hl1 & Hu1 & Hc1 & Hr1)%Q1. destruct (Q2 _ _ Hl1) as (d2 & Hl2 & Hu2 & Hc2 & Hr2).
  exists d2. split_and!; [done|congruence|congruence|]. intros Hs. rewrite <- (Hr1 Hs). apply Hr2. by rewrite (Hr1 Hs).
Qed.
Lemma persists_same st st' : s_docs st' = s_docs st → persists st st'.
Proof. intros E did d Hl. exists d. by rewrite E. Qed.
Lemma SetIdentity_persists ctx d st :
  (∀ d0, s_docs st !! Did d = Some d0 → UniquenessHash d = UniquenessHash d0 ∧ CreatedAt d = CreatedAt d0 ∧ (Status d0 = DID_STATUS_REVOKED → d = d0)) →
  persists st (SetIdentity ctx d st).
Proof.
  intros Hd did d0 Hl. rewrite SetIdentity_docs. destruct (decide (did = Did d)) as [->|Hne].
  - exists d. rewrite lookup_insert_eq. destruct (Hd _ Hl) as (? & ? & ?). done.
  - exists d0. by rewrite lookup_insert_ne.
Qed.
Lemma write_persists ctx st st' : id_write ctx st st' → persists st st'.
Proof.
  destruct 1 as [st d d0 Hl Hh Ht Hc Hv Hr|st d Hl Hf Ht Hc Hv Hdid|st st' [Hsame Hu']].
  - apply SetIdentity_persists. intros d1 Hl1. rewrite Hl in Hl1. by injection Hl1 as <-.
  - trans (SetIdentity ctx d st); [|by apply persists_same]. apply SetIdentity_persists. intros d1. by rewrite Hl.
  - by apply persists_same, Hsame.
Qed.

Section safety.
Context {B T : Type} `{BankLaws B} `{AddressText} `{Hasher} `{Verifier} `{SweepStaking T} `{ValCodec}.
Context (authority : string) (reauth : bool) (error_text : error → string) (minSelfStake : Z).
Abbreviation St := (IdState B).
Abbreviation step := (id_step (T := T) authority reauth error_text minSelfStake).
Abbreviation reach := (reachable (T := T) authority reauth error_text minSelfStake).

Lemma step_persists s s' : step s s' → id_inv s → persists (id_store s) (id_store s').
Proof.
  intros Hs [Q1 Q2 Q3]. destruct Hs as [ctx m s Ht Ha|b s Hb|t s|ctx t v s Hv|t v s].
  - destruct (deliver_handle authority reauth ctx m s) as [->|[Hv Hr]]; [done|].
    destruct (handle_evolving authority reauth ctx m Hv s tt _ Q1 Q2 Q3 Hr) as [He _].
    clear -He. induction He as [|x y z Hw _ IH]; [done|]. trans y; [by eapply write_persists|done].
  - done.
  - destruct (Sweep_sound error_text (on_sweep t s) Q1 Q3) as [[[[Ed _ _ _ _ _] _] _ _] _]. by apply persists_same.
  - destruct (created_swept minSelfStake ctx v (on_sweep t s) Q1 Q3 Hv) as [[[Ed _ _ _ _ _] _] _ _]. by apply persists_same.
  - destruct (unbind_binds (ValAddress_String v) (id_store s) Q3) as [[[Ed _ _ _ _ _] _] _ _]. by apply persists_same.
Qed.

(** C5: one human, one identity, for good.  In every state the chain reaches, no two
    identities carry the same uniqueness hash and the four invariants the module registers
    with x/crisis report nothing; and whatever happens next, an identity is never deleted,
    keeps its uniqueness hash and its creation time, and once revoked is frozen as it is. *)
Theorem one_human_one_identity b ev s s' :
  0 ≤ GetBalance b (ModuleAddress ModuleName) → reach (mkIdState b empty_store ev) s → reach s s' →
  AllInvariants (id_store s) = false ∧
  (∀ did1 did2 d1 d2, s_docs (id_store s) !! did1 = Some d1 → s_docs (id_store s) !! did2 = Some d2 →
     UniquenessHash d1 = UniquenessHash d2 → did1 = did2) ∧
  persists (id_store s) (id_store s').
Proof.
  intros Hb Hr Hr'. assert (id_inv s) as Hinv by (eapply reachable_inv; [exact Hr|by apply empty_inv]).
  split_and!.
  - destruct (iv_registry _ Hinv). by apply AllInvariants_hold.
  - intros did1 did2 d1 d2 Hl1 Hl2 Hh. pose proof (ro_uniq _ (iv_registry _ Hinv)) as Hu.
    assert (s_uniq (id_store s) !! UniquenessHash d1 = Some did1) as E1 by (apply Hu; eauto).
    assert (s_uniq (id_store s) !! UniquenessHash d1 = Some did2) as E2 by (apply Hu; eauto). congruence.
  - clear Hr. induction Hr' as [|x y z Hs Hr' IH]; [done|]. trans (id_store y); [by apply step_persists|].
    apply IH. by eapply step_inv.
Qed.

(** ** Recovery *)
Lemma supersede_all did (c : RecoveryRequest → bool) rs (s s' : St) :
  for_each rs (λ r, if c r then mret tt else supersede did r) s = (Ok tt, s') →
  s_rec (id_store s') ⊆ s_rec (id_store s) ∧ ∀ r, r ∈ rs → c r = false → s_rec (id_store s') !! rr_RecoveryId r = None.
Proof.
  revert s. induction rs as [|r rs IH]; intros s; cbn [for_each].
  { intros [= <-]. split; [done|]. by intros r ?%not_elem_of_nil. }
  intros ([] & s1 & Hr & [Hsub Hdel]%IH)%bind_Ok. destruct (c r) eqn:Hc.
  { injection Hr as <-. split; [done|]. intros r' [->|Hin]%elem_of_cons Hc'; [congruence|by apply Hdel]. }
  unfold supersede in Hr. apply bind_Ok in Hr as ([] & s2 & Hf & Hr). apply bind_Ok in Hr as ([] & s3 & ->%write_run & ->%emit_run).
  destruct (forfeit_pays _ _ _ Hf) as [E _]. cbn [id_store] in *. rewrite E in *.
  change (s_rec (deleteRecoveryRequest r (id_store s))) with (delete (rr_RecoveryId r) (s_rec (id_store s))) in Hsub.
  split; [etrans; [exact Hsub|apply delete_subseteq]|].
  intros r' [->|Hin]%elem_of_cons Hc'; [|by apply Hdel]. eapply lookup_weaken_None; [|exact Hsub]. apply lookup_delete_eq.
Qed.
Lemma siblings_gone did id (s s' : St) : recovery_inv s → nul_free did → s_rec (id_store s) !! id = None →
  supersedeSiblings did id s = (Ok tt, s') → ∀ x r, s_rec (id_store s') !! x = Some r → rr_Did r ≠ did.
Proof.
  intros Hinv Hn Hid (rs & s1 & [-> ->]%look_run & Hr)%bind_Ok x r Hx Hd.
  destruct (supersede_all _ _ _ _ _ Hr) as [Hsub Hdel]. pose proof (lookup_weaken _ _ _ _ Hx Hsub) as Hl.
  destruct (rs_each _ (ri_requests _ Hinv) _ _ Hl) as [Q1 Q2 _ _]. subst x.
  rewrite Hdel in Hx; [done| |].
  - by apply elem_of_requests; [apply Hinv|..].
  - rewrite Q2. rewrite bool_decide_eq_false_2; [done|]. intros E. by rewrite E, Hid in Hl.
Qed.

Lemma quorum_spec req (s : St) u : recovery_inv s → stored s req → execute_quorum req (id_store s) = Ok u →
  rr_Method req ≠ RECOVERY_METHOD_REAUTH →
  ∃ gs, GetGuardians (id_store s) (rr_Did req) = Some gs ∧ NoDup (rr_Approvals req) ∧
        Forall (enrolled gs (rr_Did req)) (rr_Approvals req) ∧ 0 < gd_Threshold gs ≤ Z.of_nat (length (rr_Approvals req)).
Proof.
  intros Hinv Hl Hq Hm. unfold execute_quorum in Hq. rewrite (proj2 (Z.eqb_neq _ _) Hm) in Hq.
  apply obind_Ok in Hq as (gs & Hgs%or_err_Ok & Hq). apply err_if_Ok in Hq. apply Z.ltb_ge in Hq.
  pose proof (ri_guards _ Hinv _ _ Hgs) as Hth. unfold EffectiveApprovals, tallyIsCurrent in Hq.
  destruct (Z.eqb_spec (recoveryTallyEpoch (id_store s) (rr_RecoveryId req)) (GuardianEpoch (id_store s) (rr_Did req))) as [E|]; [|cbn in Hq; lia].
  destruct (ta_current _ (ri_tallies _ Hinv) _ _ Hl E) as [[Hnd Hen] _]. exists gs. split_and!; [done|done| |lia..].
  apply Forall_forall. intros g Hg. destruct (Hen g Hg) as (gs' & Hgs' & ?). congruence.
Qed.

(** C6: a recovery is a decision of the guardians in force.  [ExecuteRecovery] succeeds,
    in a state the chain reaches, only for a pending request whose delay has passed and
    which has not expired, for an ACTIVE identity; unless it was opened on a
    re-attestation, at least the threshold of distinct guardians enrolled in the set in
    force, none of them the identity itself, have approved it.  It changes nothing of the
    registry but the key, key type and controller of that one identity, and leaves no open
    request for it. *)
Theorem recovery_needs_guardians b ev ctx m s s' :
  0 ≤ GetBalance b (ModuleAddress ModuleName) → reach (mkIdState b empty_store ev) s →
  ExecuteRecovery ctx m s = (Ok tt, s') →
  ∃ req doc, s_rec (id_store s) !! exe_RecoveryId m = Some req ∧ rr_Status req = RECOVERY_STATUS_PENDING ∧
    rr_ExecuteAfter req ≤ BlockTime ctx ≤ rr_ExpiresAt req ∧
    s_docs (id_store s) !! rr_Did req = Some doc ∧ Status doc = DID_STATUS_ACTIVE ∧
    (rr_Method req ≠ RECOVERY_METHOD_REAUTH →
     ∃ gs, GetGuardians (id_store s) (rr_Did req) = Some gs ∧ NoDup (rr_Approvals req) ∧
           Forall (enrolled gs (rr_Did req)) (rr_Approvals req) ∧
           0 < gd_Threshold gs ≤ Z.of_nat (length (rr_Approvals req))) ∧
    s_docs (id_store s') = <[rr_Did req := with_recovered doc (rr_ProposedNewPubKey req) (rr_KeyType req) (rr_ProposedNewController req)]>
                             (s_docs (id_store s)) ∧
    ∀ id r, s_rec (id_store s') !! id = Some r → rr_Did r ≠ rr_Did req.
Proof.
  intros Hb Hreach. assert (id_inv s) as [Hro Hinv _] by (eapply reachable_inv; [exact Hreach|by apply empty_inv]).
  unfold ExecuteRecovery. intros (req & s1 & Hp & Hr)%bind_Ok. destruct (pending_inv _ _ _ _ _ Hinv Hp) as (-> & Hreq & Hid & Hwin).
  apply bind_Ok in Hr as ([] & s1 & [Hdelay <-]%fail_if_Ok & Hr). apply bind_Ok in Hr as (u & s1 & [Hq ->]%check_run & Hr).
  apply bind_Ok in Hr as (doc & s1 & [-> Hl]%identity_run & Hr). apply bind_Ok in Hr as ([] & s1 & [Hst <-]%fail_if_Ok & Hr).
  apply bind_Ok in Hr as (u' & s1 & [_ ->]%check_run & Hr). apply bind_Ok in Hr as ([] & s1 & ->%write_run & Hr).
  set (d := with_recovered _ _ _ _) in *. apply bind_Ok in Hr as ([] & s1 & Hf & Hr). apply bind_Ok in Hr as ([] & s2 & ->%write_run & Hr).
  apply bind_Ok in Hr as ([] & s2 & Hs & ->%emit_run). bool_prop. pose proof (rs_each _ (ri_requests _ Hinv) _ _ Hreq) as [Q1 Q2 Q3 Q4].
  destruct (refund_pays _ _ _ Hf) as [Es _]. cbn [id_store] in Es. pose proof (SetIdentity_rec_frame ctx d (id_store s)) as Hfr.
  exists req, doc. split_and!; [by rewrite <- Hid|done|lia| |done|done|by apply (quorum_spec req s u)| |].
  - destruct Hwin as [?|[_ Hfz]]; [done|]. unfold recoveryFrozenBySuspension, GetIdentity in Hfz. rewrite Hl, Hst in Hfz. done.
  - destruct (calm_supersede _ _ _ _ _ Hs) as [[[Ed _ _ _ _ _] _] _]. cbn [id_store] in *. rewrite Ed.
    change (s_docs (deleteRecoveryRequest req (id_store s1))) with (s_docs (id_store s1)). rewrite Es, SetIdentity_docs.
    unfold d. cbn [Did with_recovered]. by destruct (ix_docs _ (ro_index _ Hro) _ _ Hl) as (-> & _).
  - intros id r. cbn [id_store]. eapply siblings_gone; [|done| |exact Hs].
    + eapply (settle_inv (refundDeposit req) req req _ s1); [apply refund_pays|exact Hf|..]; try done.
      * cbn [id_store]. by rewrite (rf_rec _ _ Hfr).
      * by apply (recovery_frame s).
    + cbn [id_store]. by rewrite delete_rec, bool_decide_eq_true_2.
Qed.

(** C31: deposits.  In every state the chain reaches, the module account holds at least the
    deposits of the open recovery requests, so every one of them can be paid out: to the
    new controller when the recovery executes, to the fee collector when it is cancelled,
    rejected, superseded or expires. *)
Theorem deposits_are_backed b ev s :
  0 ≤ GetBalance b (ModuleAddress ModuleName) → reach (mkIdState b empty_store ev) s →
  owed (id_store s) ≤ GetBalance (id_bank s) (ModuleAddress ModuleName).
Proof.
  intros Hb Hreach. assert (id_inv s) as [_ Hinv _] by (eapply reachable_inv; [exact Hreach|by apply empty_inv]).
  apply (ri_escrow _ Hinv).
Qed.


(** ** Errors *)

(** the messages that name a recovery request *)
Definition touches (m : IdMsg) (id : string) : Prop :=
  match m with
  | MApprove m => apr_RecoveryId m = id
  | MReject m => rej_RecoveryId m = id
  | MExecute m => exe_RecoveryId m = id
  | MCancel m => can_RecoveryId m = id
  | _ => False
  end.
Lemma expired_refused ctx id r (s : St) o : s_rec (id_store s) !! id = Some r → rr_ExpiresAt r < BlockTime ctx →
  (rr_FrozenAt r = 0 ∨ recoveryFrozenBySuspension (id_store s) (rr_Did r) = false) →
  ∀ s', pending_request ctx id s ≠ (Ok o, s').
Proof.
  intros Hl Hexp Hfr s' Hrun. unfold pending_request in Hrun. apply bind_Ok in Hrun as (x & s1 & [-> ->]%look_run & Hrun).
  unfold GetRecoveryRequest in Hrun. rewrite Hl in Hrun. apply bind_Ok in Hrun as (r' & s1 & [[= <-] <-]%or_fail_Ok & Hrun).
  apply bind_Ok in Hrun as (b & s1 & Hreap & Hrun). apply bind_Ok in Hrun as ([] & s2 & [-> _]%fail_if_Ok & _).
  unfold reapIfExpired in Hreap. case_match; [done|]. apply bind_Ok in Hreap as (h & s3 & [-> ->]%look_run & Hreap).
  destruct (negb (rr_FrozenAt r =? 0) && recoveryFrozenBySuspension (id_store s) (rr_Did r)) eqn:Hh.
  { apply andb_true_iff in Hh as [Hz Hs]. destruct Hfr as [E|E]; [by rewrite E in Hz|by rewrite E in Hs]. }
  rewrite (proj2 (Z.leb_gt _ _) Hexp) in Hreap.
  apply bind_Ok in Hreap as ([] & s3 & _ & Hreap). apply bind_Ok in Hreap as ([] & s4 & _ & Hreap).
  apply bind_Ok in Hreap as ([] & s5 & _ & Hreap). discriminate Hreap.
Qed.

(** Touching an expired request settles nothing.  Whatever message names a recovery
    request that has run out, and is not held by a suspension, fails; and since the
    transaction then has no effect, the request stays in the store, with its deposit in
    escrow and its slot taken, until another request is opened for the same identity. *)
Theorem expired_request_survives_touch ctx m id r s :
  s_rec (id_store s) !! id = Some r → rr_ExpiresAt r < BlockTime ctx →
  (rr_FrozenAt r = 0 ∨ recoveryFrozenBySuspension (id_store s) (rr_Did r) = false) → touches m id →
  (∀ s', handle authority reauth ctx m s ≠ (Ok tt, s')) ∧
  deliver (handle authority reauth ctx m) s = s ∧
  s_rec (id_store (deliver (handle authority reauth ctx m) s)) !! id = Some r.
Proof.
  intros Hl Hexp Hfr Ht.
  assert (∀ s', handle authority reauth ctx m s ≠ (Ok tt, s')) as Hno.
  { intros s' Hrun. unfold handle in Hrun. apply bind_Ok in Hrun as ([] & s1 & [_ <-]%lift_Ok & Hrun).
    destruct m; cbn [touches] in Ht; try done; subst id; cbn [run_msg] in Hrun;
      unfold ApproveRecovery, RejectRecovery, ExecuteRecovery, CancelRecovery in Hrun;
      apply bind_Ok in Hrun as (req & s1 & Hp & _); by eapply expired_refused in Hp. }
  assert (deliver (handle authority reauth ctx m) s = s) as Hd.
  { unfold deliver. destruct (handle authority reauth ctx m s) as [[[]|e|w] s'] eqn:E; [by destruct (Hno s')|done..]. }
  by rewrite Hd.
Qed.
End safety.
