(* ===== verification/IdAnte.v ===== *)
(** * The identity status guard

    [app/ante/identity_status.go]: a transaction one of whose signers controls a suspended
    or revoked identity is refused.  The guard looks identities up by the canonical text of
    the signer's address. *)
From stdpp Require Import base gmap strings list.
From Stdlib Require Import ZArith Lia Ascii.
From S2P Require Import Prelude GoInt KVStore Interfaces PhiDid IdTypes IdKeeper IdServer IdIndex IdElig IdInvariants IdStep.

(** [sdkerrors.ErrTxDecode] *)
Definition ErrTxDecode : error := Registered "sdk" 2.

Section guard.
Context `{AddressCodec}.
(** [GetSigners] gives the addresses, or fails; [next] is the rest of the ante chain *)
Fixpoint guard_signers {A} (st : IdStore) (next : outcome A) (signers : list string) : outcome A :=
  match signers with
  | [] => next
  | s :: signers' =>
      let addr := AccAddress_String s in
      if HasNonActiveDID st addr then Err ErrUnauthorizedSDK else guard_signers st next signers'
  end.
Definition IdentityStatusGuard_AnteHandle {A} (st : IdStore) (simulate isReCheckTx : bool)
    (GetSigners : option (outcome (list string))) (next : outcome A) : outcome A :=
  if simulate || isReCheckTx then next else
  match GetSigners with
  | None => Err ErrTxDecode
  | Some o => signers ← o; guard_signers st next signers
  end.

Lemma HasNonActiveDID_spec st c : docs_ok st → ctrl_ok st → nul_free c →
  HasNonActiveDID st c = true ↔ ∃ did d, s_docs st !! did = Some d ∧ Controller d = c ∧ Status d ≠ DID_STATUS_ACTIVE.
Proof.
  intros Hd Hc Hn.
  assert (HasNonActiveDID st c = existsb (λ d, negb (Status d =? DID_STATUS_ACTIVE)) (indexed_docs st c)) as -> by reflexivity.
  rewrite existsb_exists. split.
  - intros (d & Hin%list_elem_of_In & Hs). apply elem_of_indexed_docs in Hin as [Hl Hco]; [|done..].
    exists (Did d), d. split_and!; [done|done|]. intros E. by rewrite E in Hs.
  - intros (did & d & Hl & Hco & Hs). destruct (Hd _ _ Hl) as (<- & _). exists d. split.
    + apply list_elem_of_In, elem_of_indexed_docs; done.
    + by destruct (Z.eqb_spec (Status d) DID_STATUS_ACTIVE).
Qed.
Lemma guard_signers_spec {A} st (next : outcome A) signers :
  guard_signers st next signers =
  if existsb (λ s, HasNonActiveDID st (AccAddress_String s)) signers then Err ErrUnauthorizedSDK else next.
Proof. induction signers as [|s signers IH]; [done|]. cbn. rewrite IH. by destruct (HasNonActiveDID _ _). Qed.

(** The guard refuses exactly the signers it names.  In a registry in order, a
    delivered transaction is refused when some signer's address, in its canonical text,
    is the controller of an identity that is not ACTIVE; otherwise the guard lets the rest
    of the ante chain decide. *)
Theorem status_guard_spec {A} st signers (next : outcome A) : registry_ok st →
  (∀ s, s ∈ signers → nul_free (AccAddress_String s)) →
  let blocked := ∃ s did d, s ∈ signers ∧ s_docs st !! did = Some d ∧ Controller d = AccAddress_String s ∧
                            Status d ≠ DID_STATUS_ACTIVE in
  (blocked → IdentityStatusGuard_AnteHandle st false false (Some (Ok signers)) next = Err ErrUnauthorizedSDK) ∧
  (¬ blocked → IdentityStatusGuard_AnteHandle st false false (Some (Ok signers)) next = next).
Proof.
  intros [[Hd Hc _ _ _ _ _] _ _ _] Hn. cbv zeta.
  change (IdentityStatusGuard_AnteHandle st false false (Some (Ok signers)) next) with (guard_signers st next signers).
  rewrite guard_signers_spec. split.
  - intros (s & did & d & Hin & Hl & Hco & Hs). rewrite (proj2 (existsb_exists _ _)); [done|]. exists s.
    rewrite <- list_elem_of_In. split; [done|]. apply HasNonActiveDID_spec; [done|done|by apply Hn|]. eauto.
  - intros Hno. destruct (existsb _ signers) eqn:E; [|done]. apply existsb_exists in E as (s & Hin%list_elem_of_In & Hh).
    apply HasNonActiveDID_spec in Hh as (did & d & ? & ? & ?); [|done|done|by apply Hn]. destruct Hno. by exists s, did, d.
Qed.
End guard.
