(* ===== verification/IdRoll.v ===== *)
(** * x/identity serves x/governance

    The eligibility index as the interface [IdentityRoll] the tally is proved against: who
    is on the roll, how many they are, and what a registry that has moved on still says of
    the roll frozen earlier.  The registry is kept with its own past, so that a statement
    about a vote can point at the moment its basis was taken and at those after it. *)
From stdpp Require Import base gmap strings list fin_maps relations.
From Stdlib Require Import ZArith Lia Ascii.
From S2P Require Import Prelude GoInt KVStore StoreEntry LegacyDec Interfaces GovTypes GovKeeper GovTally GovCount GovCheck GovPrune GovSafety.
From S2P Require Import PhiDid IdTypes IdKeeper IdServer IdIndex IdElig IdInvariants IdSweep IdStep.

(** ** What the index says *)

(** the specification: the account controls an identity that is not revoked and was
    created by [cutoff] *)
Definition on_roll (st : IdStore) (cutoff : Z) (c : string) : Prop :=
  ∃ did d, s_docs st !! did = Some d ∧ Controller d = c ∧ Status d ≠ DID_STATUS_REVOKED ∧ CreatedAt d ≤ cutoff.

Lemma record_on_roll st cutoff c : registry_ok st →
  (∃ o s, DecodeControllerEligibility (s_elig st !! c) = Some (o, s) ∧ o ≤ cutoff) ↔ on_roll st cutoff c.
Proof.
  intros [Hix _ _ _]. pose proof (ix_docs _ Hix) as Hd. pose proof (ix_ctrl _ Hix) as Hc.
  assert (∀ d, nul_free c → d ∈ indexed_docs st c ↔ s_docs st !! Did d = Some d ∧ Controller d = c) as Hin
    by (intros d Hn; by apply elem_of_indexed_docs). split.
  - intros (o & s & Hdec & Ho). destruct (mirror_decode _ _ _ _ (ix_mirror _ Hix) Hdec) as (_ & _ & [b Hb]).
    pose proof (ix_elig_dom _ Hix _ _ Hb) as Hn. pose proof (ix_elig _ Hix _ Hn) as He. rewrite Hdec in He. cbn in He.
    pose proof (oldest_standing_spec (indexed_docs st c)) as Hs. rewrite <- He in Hs.
    destruct Hs as [(d & [Hl Hco]%Hin & Hst & Hcr) _]; [|done]. exists (Did d), d. split_and!; [done|done|done|lia].
  - intros (did & d & Hl & Hco & Hst & Hcr). destruct (Hd _ _ Hl) as (<- & [_ Hn] & _). rewrite Hco in Hn.
    pose proof (ix_elig _ Hix _ Hn) as He. pose proof (oldest_standing_spec (indexed_docs st c)) as Hs. rewrite <- He in Hs.
    destruct (DecodeControllerEligibility (s_elig st !! c)) as [[o s]|]; cbn in Hs.
    + exists o, s. split; [done|]. destruct Hs as [_ Hs]. specialize (Hs d (proj2 (Hin d Hn) (conj Hl Hco)) Hst). lia.
    + by destruct (Hs d (proj2 (Hin d Hn) (conj Hl Hco))).
Qed.
Lemma EligibleAt_spec st c t minAge : registry_ok st →
  IsEligibleControllerAt st c t minAge = true ↔ on_roll st (Unix (t + i64 (- minAge))) c.
Proof.
  intros Hr. rewrite <- (record_on_roll _ _ _ Hr). unfold IsEligibleControllerAt.
  destruct (DecodeControllerEligibility (s_elig st !! c)) as [[o s]|].
  - rewrite Z.leb_le. split; [eauto|]. by intros (o' & s' & [= -> ->] & ?).
  - split; [done|by intros (? & ? & ? & _)].
Qed.

(** ** What a later registry says of an earlier one *)

(** an eligibility record of [st'] was either dated [now] or was there, no older *)
Definition kept_since (now : Z) (st st' : IdStore) : Prop :=
  ∀ c o s, DecodeControllerEligibility (s_elig st' !! c) = Some (o, s) →
    s = now ∨ ∃ o0, DecodeControllerEligibility (s_elig st !! c) = Some (o0, s) ∧ o0 ≤ o.
Lemma kept_refl now st st' : s_elig st' = s_elig st → kept_since now st st'.
Proof. intros E c o s. rewrite E. intros Hd. right. exists o. split; [done|lia]. Qed.
Lemma kept_roll_trans now a b c : kept_since now a b → kept_since now b c → kept_since now a c.
Proof.
  intros Q1 Q2 x o s [->|(o1 & Hd & Hle)]%Q2; [by left|]. destruct (Q1 _ _ _ Hd) as [->|(o0 & ? & ?)]; [by left|].
  right. exists o0. split; [done|lia].
Qed.
Lemma next_record_kept now old oldest o s : next_record now old oldest = Some (o, s) →
  s = now ∨ ∃ o0, old = Some (o0, s) ∧ o0 ≤ o.
Proof.
  destruct old as [[po ps]|], oldest as [o'|]; cbn [next_record]; [|done| |done].
  - intros [= <- <-]. destruct (Z.ltb_spec o' po); [by left|right; eauto].
  - intros [= <- <-]. by left.
Qed.
Lemma refresh_kept ctx c S st : nul_free c → is_int64 (BlockTime ctx) → index_except S st → kept_since (BlockTime ctx) st (refresh_both ctx c st).
Proof.
  intros Hn Hnow [Hd Hc Hm _ _ _ _].
  destruct (refresh_spec ctx c st Hm Hnow (λ o, oldest_int64 st c o Hd Hc Hn)) as (_ & Hrec & Hother).
  intros x o s. unfold refresh_both. destruct (refresh_sweep_frame c (refreshControllerEligibility ctx c st)) as (w & ->).
  cbn [s_elig set_sweep]. destruct (decide (x = c)) as [->|Hne].
  - rewrite Hrec. apply next_record_kept.
  - rewrite Hother by done. intros Hdec. right. exists o. split; [done|lia].
Qed.
Lemma SetIdentity_kept ctx d st : is_int64 (BlockTime ctx) → controller_ok (Controller d) → is_int64 (CreatedAt d) → index_ok st →
  kept_since (BlockTime ctx) st (SetIdentity ctx d st).
Proof.
  intros Hnow Hc Ht Hix. pose proof (write_doc_index d st Hc Ht Hix) as Hw.
  pose proof (refresh_kept ctx (Controller d) _ _ (proj2 Hc) Hnow Hw) as Q1.
  assert (kept_since (BlockTime ctx) st (write_doc d st)) as Q0 by (destruct (write_doc_frame d st) as (x & ->); by apply kept_refl).
  rewrite SetIdentity_phases. cbv zeta. case_bool_decide as Hp; [by eapply kept_roll_trans|].
  assert (nul_free (prev_controller d st)) as Hnp.
  { unfold prev_controller in *. destruct (GetIdentity st (Did d)) as [prev|] eqn:Hl; [|done].
    case_bool_decide; [done|]. by destruct (ix_docs _ Hix _ _ Hl) as (_ & [_ ?] & _). }
  eapply kept_roll_trans; [exact Q0|]. eapply kept_roll_trans; [exact Q1|].
  eapply refresh_kept; [done|done|]. by eapply refresh_both_index; [apply Hc|..].
Qed.
Lemma write_kept ctx st st' : is_int64 (BlockTime ctx) → registry_ok st → id_write ctx st st' → kept_since (BlockTime ctx) st st'.
Proof.
  intros Hnow Hr. pose proof (ro_index _ Hr) as Hix. destruct 1 as [st d d0 Hl Hh Ht Hc Hv _|st d Hl Hf Ht Hc Hv _|st st' [Hsame Hu]].
  - apply SetIdentity_kept; [done|done| |done]. rewrite Ht. by destruct (ix_docs _ Hix _ _ Hl) as (_ & _ & ?).
  - eapply kept_roll_trans; [apply SetIdentity_kept; [done|done|by rewrite Ht|done]|by apply kept_refl].
  - by apply kept_refl, Hsame.
Qed.
Lemma evolves_kept ctx st st' : is_int64 (BlockTime ctx) → registry_ok st → id_evolves ctx st st' → kept_since (BlockTime ctx) st st'.
Proof.
  intros Hnow Hr. induction 1 as [|x y z Hw _ IH]; [by apply kept_refl|].
  eapply kept_roll_trans; [by apply write_kept|]. apply IH. by eapply registry_write.
Qed.

(** ** The registry of a running chain *)
Record Registry := mkRegistry {
  reg_store : IdStore;
  reg_ok : registry_ok reg_store;
  reg_size : Z.of_nat (size (s_elig reg_store)) < 2 ^ 64;
}.
(** a registry and the moments before, the latest first *)
Record Chronicle := mkChronicle { ch_now : Registry; ch_past : list (Context * Registry) }.
Definition timeline (x : Context * Chronicle) : list (Context * Registry) := (x.1, ch_now x.2) :: ch_past x.2.
#[export] Instance registry_source : IdentitySource Chronicle := {
  GovTally.IsEligibleControllerAt h := IsEligibleControllerAt (reg_store (ch_now h));
  GovTally.IsEligibleControllerSince h := IsEligibleControllerSince (reg_store (ch_now h));
  GovTally.CountEligibleControllersAt h := CountEligibleControllersAt (reg_store (ch_now h));
  GovTally.EligibleControllerTotal h := EligibleControllerTotal (reg_store (ch_now h));
  GovTally.MinIdentityAge h := MinIdentityAge (reg_store (ch_now h));
}.
(** the next moment: whatever x/identity writes at a block time not before the last one's,
    be it in the same block or the same second *)
Definition registry_step (x y : Context * Chronicle) : Prop :=
  0 < BlockTime x.1 ∧ BlockTime x.1 ≤ BlockTime y.1 < 2 ^ 63 ∧
  id_evolves y.1 (reg_store (ch_now x.2)) (reg_store (ch_now y.2)) ∧ ch_past y.2 = timeline x.
Definition registry_moves : Context * Chronicle → Context * Chronicle → Prop := rtc registry_step.

Lemma moves_timeline x y : registry_moves x y → ∃ l, timeline y = l ++ timeline x.
Proof.
  induction 1 as [x|x y z (_ & _ & _ & Hp) _ [l Hl]]; [by exists []|].
  exists (l ++ [(y.1, ch_now y.2)]). rewrite Hl. unfold timeline at 1. by rewrite Hp, <- app_assoc.
Qed.
Lemma moves_time x y : registry_moves x y → BlockTime x.1 ≤ BlockTime y.1.
Proof. induction 1 as [|x y z (_ & ? & _) _ IH]; lia. Qed.
(** a record dated no later than the start was there at a moment of the start's second *)
Lemma moves_kept x y c o s : registry_moves x y → s ≤ BlockTime x.1 →
  DecodeControllerEligibility (s_elig (reg_store (ch_now y.2)) !! c) = Some (o, s) →
  ∃ z o', registry_moves x z ∧ registry_moves z y ∧ BlockTime z.1 = BlockTime x.1 ∧
    DecodeControllerEligibility (s_elig (reg_store (ch_now z.2)) !! c) = Some (o', s) ∧ o' ≤ o.
Proof.
  intros Hm Hs. revert y Hm o. refine (rtc_ind_r _ _ _ _); [|intros y z Hxy Hst IH]; intros o Hdec.
  { exists x, o. split_and!; [apply rtc_refl..|done|done|lia]. }
  pose proof (moves_time _ _ Hxy) as Ht. pose proof Hst as (T1 & T2 & He & _).
  assert (is_int64 (BlockTime z.1)) as Hz by (unfold is_int64; lia).
  destruct (evolves_kept _ _ _ Hz (reg_ok (ch_now y.2)) He _ _ _ Hdec) as [->|(o0 & Hd0 & Hle)].
  - exists z, o. split_and!; [by eapply rtc_r|apply rtc_refl|lia|done|lia].
  - destruct (IH o0 Hd0) as (w & o' & W1 & W2 & W3 & W4 & W5). exists w, o'. split_and!; [done|by eapply rtc_r|done|done|lia].
Qed.

Lemma eligible_NoDup st cutoff : NoDup (eligible_controllers st cutoff).
Proof.
  unfold eligible_controllers. eapply sublist_NoDup; [apply (NoDup_fst_map_to_list (s_elig st))|].
  apply fmap_sublist. generalize (map_to_list (s_elig st)) as l. induction l as [|x l IH]; [done|]. cbn.
  case_match; [by apply sublist_skip|by apply sublist_cons].
Qed.
Lemma eligible_on_roll st cutoff c : registry_ok st → c ∈ eligible_controllers st cutoff ↔ on_roll st cutoff c.
Proof. intros Hr. rewrite (elem_of_eligible _ _ _ (ix_mirror _ (ro_index _ Hr))). by apply record_on_roll. Qed.
Lemma since_at st c t s : IsEligibleControllerSince st c t 0 s = true → IsEligibleControllerAt st c t 0 = true.
Proof.
  unfold IsEligibleControllerSince, IsEligibleControllerAt. destruct (DecodeControllerEligibility _) as [[o w]|]; [|done].
  destruct (Z.ltb_spec (Unix (t + i64 (- 0))) o); [done|]. intros _. by apply Z.leb_le.
Qed.

(** the eligibility index implements what the tally relies on *)
#[export] Instance registry_roll : IdentityRoll Chronicle registry_moves.
Proof.
  constructor.
  - intros x. apply rtc_refl.
  - intros x y z H1 H2. unfold registry_moves in *. by etrans.
  - intros h t. cbn. rewrite CountEligible_spec; [|apply reg_ok|apply reg_size].
    set (cut := Unix _). pose proof (eligible_count (reg_store (ch_now h)) cut) as Ec. pose proof (reg_size (ch_now h)) as Hs.
    pose proof (count_if_bounds (λ cb, cut <? oldest_of cb.2) (map_to_list (s_elig (reg_store (ch_now h))))) as Hb.
    fold (too_young (reg_store (ch_now h)) cut) in Hb. rewrite length_map_to_list in Hb. unfold is_u64, MaxEligibilityTailScan. lia.
  - intros h t cs Hnd Hin. cbn in *. rewrite CountEligible_spec; [|apply reg_ok|apply reg_size].
    set (cut := Unix _) in *. assert (length cs ≤ length (eligible_controllers (reg_store (ch_now h)) cut))%nat as Hle; [|lia].
    apply submseteq_length, NoDup_submseteq; [done|]. intros c Hc. rewrite (eligible_on_roll _ _ _ (reg_ok _)). by apply EligibleAt_spec, Hin, Hc; apply reg_ok.
  - intros c0 h0 c1 h1 c t Hm. cbn [GovTally.IsEligibleControllerSince GovTally.IsEligibleControllerAt registry_source]. intros Hs.
    inversion Hm as [? E|? ? ? (T1 & T2 & _) _]; subst.
    { exists c1, h1. split_and!; [apply rtc_refl..|done|by eapply since_at]. }
    cbn [fst] in T1, T2.
    unfold IsEligibleControllerSince in Hs. destruct (DecodeControllerEligibility (s_elig (reg_store (ch_now h1)) !! c)) as [[o s]|] eqn:E; [|done].
    destruct (Z.ltb_spec (Unix (t + i64 (- 0))) o); [done|]. 
    rewrite Unix_timeFromUnix, (proj2 (Z.eqb_neq (BlockTime c0) 0)), Z.leb_le in Hs by lia.
    destruct (moves_kept _ _ _ _ _ Hm Hs E) as ([c' h'] & o' & M1 & M2 & M3 & M4 & M5). cbn [fst snd] in *.
    exists c', h'. split_and!; [done..|]. unfold IsEligibleControllerAt. rewrite M4. apply Z.leb_le. lia.
Qed.

Section votes.
Context {G T : Type} `{XGov G} `{StakingKeeper T} `{AddressCodecLaws} `{!XGovLaws G}.

Lemma frozen_cutoff p st b : GetProposalEligibility p st = Some b → Unix (timeFromUnix (Cutoff b) + i64 (- 0)) = Cutoff b.
Proof.
  unfold GetProposalEligibility. intros Hg. assert (is_int64 (Cutoff b)) as Hc.
  { repeat case_match; try done; injection Hg as <-; apply i64_range. }
  change (i64 (- 0)) with 0. rewrite Z.add_0_r. apply Unix_timeFromUnix. exact Hc.
Qed.

(** who was on the roll in the second of [(c0, h0)] was on it then or is on it at a later
    moment of the timeline in that second *)
Lemma second_on_roll now c0 h0 later cut c : timeline now = later ++ timeline (c0, h0) → Unix (timeFromUnix cut + i64 (- 0)) = cut →
  in_second registry_moves now c0 h0 (timeFromUnix cut) c →
  on_roll (reg_store (ch_now h0)) cut c ∨
  ∃ c1 r1, (c1, r1) ∈ later ∧ BlockTime c1 = BlockTime c0 ∧ on_roll (reg_store r1) cut c.
Proof.
  intros Hl Hcut (c1 & h1 & M1 & M2 & Ht & Hel). apply EligibleAt_spec in Hel; [|apply reg_ok]. rewrite Hcut in Hel.
  destruct (moves_timeline _ _ M1) as [l1 E1], (moves_timeline _ _ M2) as [l2 E2]. rewrite E2, E1, app_assoc in Hl.
  apply app_inj_2 in Hl as [<- _]; [|done]. destruct l1 as [|x l1]; injection E1 as E1 E1'.
  - left. by rewrite <- E1'.
  - right. exists c1, (ch_now h1). split; [|done]. apply elem_of_app. right. rewrite <- E1. left.
Qed.

(** C2: the vote, end to end.  Let the registry of x/identity be what the tally reads, and
    let governance run to any state it reaches, with identity transactions anywhere in
    between.  Behind the frozen basis of every proposal that is not being pruned there is
    one moment of the registry's past, and a list of accounts: exactly those that then
    controlled an identity that was not revoked and was old enough.  The denominator is the
    length of the list, plus one for each account past five million whose identities are
    all too young.  The counted voters are distinct and the turnout is their number; each
    is a member of that list or came onto the roll later in the very second of the freeze.
    Hence, when nobody did, every vote is that of a distinct member and the turnout is at
    most the length of the list. *)
Theorem one_human_one_vote (e : Env Chronicle G T) st p b :
  gov_reachable registry_moves (e, st) → is_u64 p → IsQueuedForPruning p st = false → GetProposalEligibility p st = Some b →
  ∃ later c0 r0 earlier roll,
    timeline (moment e) = later ++ (c0, r0) :: earlier ∧ FrozenAt b = BlockTime c0 ∧
    NoDup roll ∧ (∀ c, c ∈ roll ↔ on_roll (reg_store r0) (Cutoff b) c) ∧
    Denominator b = Z.of_nat (length roll) + Z.max 0 (too_young (reg_store r0) (Cutoff b) - MaxEligibilityTailScan) ∧
    NoDup (voters p st) ∧ Turnout (GetRunningTally p st) = Z.of_nat (length (voters p st)) ∧
    (∀ v, v ∈ voters p st → AccAddress_String v ∈ roll ∨
       ∃ c1 r1, (c1, r1) ∈ later ∧ BlockTime c1 = FrozenAt b ∧ on_roll (reg_store r1) (Cutoff b) (AccAddress_String v)) ∧
    ((∀ c1 r1 c, (c1, r1) ∈ later → BlockTime c1 = FrozenAt b → on_roll (reg_store r1) (Cutoff b) c → c ∈ roll) →
       (∀ v, v ∈ voters p st → AccAddress_String v ∈ roll) ∧ Turnout (GetRunningTally p st) ≤ Z.of_nat (length roll)).
Proof.
  intros Hreach Hp Hnq Hb. destruct (gov_reachable_inv registry_moves (e, st) Hreach) as [_ Hinv]. cbn [fst snd] in Hinv. destruct (Hinv p Hp Hnq) as [Hok Hba].
  unfold ballots_ok in Hba. rewrite Hb in Hba. destruct Hba as (c0 & h0 & [He Hbasis Hmem]).
  pose proof (frozen_cutoff p st b Hb) as Hcut. destruct (voters_spec p st) as (Hnd & Hcnt & Hin).
  destruct (moves_timeline _ _ He) as [later Hlater]. set (r0 := ch_now h0) in *.
  exists later, c0, r0, (ch_past h0), (eligible_controllers (reg_store r0) (Cutoff b)).
  pose proof (λ c, eligible_on_roll (reg_store r0) (Cutoff b) c (reg_ok r0)) as Hroll.
  assert (FrozenAt b = BlockTime c0) as Hfr by by rewrite Hbasis.
  assert (∀ v, v ∈ voters p st → valid_address v ∧ (AccAddress_String v ∈ eligible_controllers (reg_store r0) (Cutoff b) ∨
    ∃ c1 r1, (c1, r1) ∈ later ∧ BlockTime c1 = FrozenAt b ∧ on_roll (reg_store r1) (Cutoff b) (AccAddress_String v))) as Hv.
  { intros v (m & Hm & Hne)%Hin. destruct (Hmem _ _ Hm Hne) as [Hva Hel]. split; [done|]. rewrite Hroll, Hfr. by eapply second_on_roll. }
  assert (Turnout (GetRunningTally p st) = Z.of_nat (length (voters p st))) as Ht by (rewrite Turnout_turnout, (ok_turnout _ _ Hok); exact Hcnt).
  split_and!; [done|done|apply eligible_NoDup|done| |done|done|intros v ?; by apply Hv|].
  - rewrite Hbasis. cbn [Denominator Cutoff GovTally.CountEligibleControllersAt registry_source].
    rewrite CountEligible_spec, Hcut; [done|apply reg_ok|apply reg_size].
  - intros Hquiet. assert (∀ v, v ∈ voters p st → AccAddress_String v ∈ eligible_controllers (reg_store r0) (Cutoff b)) as Hmb.
    { intros v [_ [?|(c1 & r1 & ? & ? & ?)]]%Hv; [done|by eapply Hquiet]. }
    split; [done|]. rewrite Ht. apply inj_le. rewrite <- (length_fmap AccAddress_String). apply submseteq_length, NoDup_submseteq.
    + apply NoDup_fmap_2_strong; [|done]. intros x y Hx Hy E. by apply AccAddress_String_inj in E; [|apply Hv|apply Hv].
    + intros c (v & -> & Hin')%list_elem_of_fmap. by apply Hmb.
Qed.
End votes.
