(* ===== verification/IdDemo.v ===== *)
(** * x/identity: a recovery, from the first message to the last

    Instances of the interfaces (the hexadecimal address codec, a
    bank, a hash, a signature check) and a run of the message server on them: two people
    register, one makes the other a guardian, loses the key and recovers.  The theorems
    are applied to it, and three states show where the code departs from what it says. *)
From stdpp Require Import base gmap strings list fin_maps relations.
From Stdlib Require Import ZArith Lia Ascii String.
From S2P Require Import Prelude GoInt KVStore Interfaces PhiDid IdTypes IdKeeper IdServer IdIndex IdElig IdInvariants IdSweep IdStep IdRequests IdHandlers IdReach IdChain IdSafety IdAnte.

Export HexCodec.
(** the last 32 bytes stand for the digest, and a fixed text for a good signature *)
#[export] Instance tail_hasher : Hasher := {
  sha256 s := let p := "--------------------------------" +:+ s in String.substring (String.length s) 32 p }.
#[export] Instance tail_verifier : Verifier := { VerifySignature _ _ _ sig := bool_decide (sig = "signed") }.

(** ** The run *)
Definition gov_account : string := "a0".
Definition key1 : string := marshal_uncompressed
  (0x6b17d1f2e12c4247f8bce6e563a440f277037d812deb33a0f4a13945d898c296, 0x4fe342e2fe1a7f9b8ee7eb4a7c0f9e162bce33576b315ececbb6406837bf51f5).
Definition key2 : string := marshal_uncompressed
  (0x7cf27b188d034f7e8a52380304b51ac3c08969e277f21b35a60b48fc47669978, 0x07775510db8ed040293d9ac69f7430dbba7dade63ce982299e04b79d227873d1).
Definition key3 : string := marshal_uncompressed
  (0x5ecbe4d1a6330a44c8f7ef951d4bf165e6c6b721efada985fb41661bc6e7fd6c, 0x8734640c4998ff7e374b06ce1a64a2ecd82ab036384fb83d9a79b127a27d5032).
Definition did_of (key : string) : string := default "" (DeriveDIDFromP256 key).
Definition issuer_did : string := "did:phi:issuer".
Definition salt : string := "0123456789abcdef0123456789abcdef".
Definition nonce : string := "fedcba9876543210fedcba9876543210".

Definition at_time (t : Z) : Context := mkContext t 5 "phi-1".
Definition register (who key hash : string) : IdMsg :=
  MRegister (mkRegister who (did_of key) key hash issuer_did "signed" hash "signed" KEY_TYPE_SECP256R1).
Definition demo_id : string := DeriveRecoveryID (did_of key1) key3 nonce.
(** the trusted issuer, the owner ["a1"] and the guardian ["b1"], the guardian set, and the
    recovery by a new account ["c1"], with the default delay of three days *)
Definition demo_start : list (Z * IdMsg) :=
  [(100, MRegisterIssuer (mkRegisterIssuer gov_account (mkIssuer issuer_did key3 true)));
   (100, register "a1" key1 "h1"); (100, register "b1" key2 "h2");
   (200, MSetGuardians (mkSetGuardians "a1" (did_of key1) [GuardianCommitment (did_of key2) salt] 1));
   (300, MInitiate (mkInitiate "c1" (did_of key1) key3 KEY_TYPE_SECP256R1 RECOVERY_METHOD_SOCIAL nonce "signed" "" ""));
   (400, MApprove (mkApprove "b1" demo_id (did_of key2) salt))].
Definition demo_execute : MsgExecuteRecovery := mkExecute "c1" demo_id.
Definition demo_due : Z := 300 + DefaultRecoveryDelaySeconds.

Abbreviation State := (IdState Ledger.ledger).
Definition run_all (l : list (Z * IdMsg)) (s : State) : State :=
  foldl (λ s tm, deliver (handle gov_account false (at_time tm.1) tm.2) s) s l.
Definition demo_bank : Ledger.ledger := Ledger.mkLedger {[ String (byte 0xc1) EmptyString := 5000000 ]} 5000000 ∅ ∅ ∅ ∅.
Definition demo_genesis : State := mkIdState demo_bank empty_store [].
Definition demo_ready : State := Eval vm_compute in run_all demo_start demo_genesis.

(** a validator set; operator addresses are hexadecimal too *)
#[export] Instance hex_val_codec : ValCodec := { ValAddressFromBech32 := AccAddressFromBech32; ValAddress_String := hex_encode }.
Record demo_staking := mkDemoStaking { ds_validators : list ValidatorI; ds_jailed : list string; ds_tombstoned : list string }.
Definition read_validator (t : demo_staking) (v : ValidatorI) : ValidatorI :=
  mkValidatorI (v_Operator v) (v_ConsAddr v) (bool_decide (v_ConsAddr v ∈ Some <$> ds_jailed t)) (v_Bonded v).
#[export] Instance demo_sweep_staking : SweepStaking demo_staking := {
  IterateLastValidators t := Some (read_validator t <$> ds_validators t);
  GetAllValidators t := Some (read_validator t <$> ds_validators t);
  GetMinSelfDelegation _ _ := Ok 1;
  Jail c t := (Ok tt, mkDemoStaking (ds_validators t) (c :: ds_jailed t) (ds_tombstoned t));
  IsTombstoned t c := bool_decide (c ∈ ds_tombstoned t);
  Tombstone c t := (Ok tt, mkDemoStaking (ds_validators t) (ds_jailed t) (c :: ds_tombstoned t));
  JailUntil _ _ t := (Ok tt, t);
}.
Lemma demo_jailed t c : c ∈ ds_jailed t → in_jail t c.
Proof.
  intros Hc vs v [= <-] (x & -> & _)%list_elem_of_fmap. cbn [v_ConsAddr v_Jailed read_validator]. intros ->.
  apply bool_decide_eq_true_2, list_elem_of_fmap. by exists c.
Qed.
Lemma demo_keeps t t' : ds_validators t' = ds_validators t → ds_jailed t ⊆ ds_jailed t' → ds_tombstoned t ⊆ ds_tombstoned t' → staking_keeps t t'.
Proof.
  intros Ev Hj Ht. split.
  - intros c Hc vs v [= <-] (x & -> & Hx)%list_elem_of_fmap. cbn [v_ConsAddr v_Jailed read_validator]. intros E. rewrite Ev in Hx.
    assert (v_Jailed (read_validator t x) = true) as Hr by (eapply Hc; [done|by apply list_elem_of_fmap_2|done]).
    apply (bool_decide_eq_true_1 _) in Hr. apply bool_decide_eq_true_2. apply list_elem_of_fmap in Hr as (y & -> & Hy).
    apply list_elem_of_fmap_2. by apply Hj.
  - intros c Hc%(bool_decide_eq_true_1 _). apply bool_decide_eq_true_2. by apply Ht.
Qed.
#[export] Instance demo_sweep_laws : SweepStakingLaws demo_staking.
Proof.
  split.
  - intros c t o t' [= <- <-]. split; [apply demo_keeps; cbn; set_solver|]. intros _. apply demo_jailed. left.
  - intros c t o t' [= <- <-]. split; [apply demo_keeps; cbn; set_solver|]. intros _. apply bool_decide_eq_true_2. left.
  - intros c x t o t' [= <- <-]. by apply demo_keeps.
  - intros t vs v c [= <-] (x & -> & _)%list_elem_of_fmap. cbn [v_ConsAddr v_Jailed read_validator]. intros -> Hj%(bool_decide_eq_true_1 _).
    apply list_elem_of_fmap in Hj as (y & [= <-] & Hy). by apply demo_jailed.
Qed.
Definition error_name (e : error) : string := "error".
Abbreviation demo_step := (id_step (B := Ledger.ledger) (T := demo_staking) gov_account false error_name 1).
Abbreviation demo_reach := (reachable (B := Ledger.ledger) (T := demo_staking) gov_account false error_name 1).

Fixpoint all_admissible (l : list (Z * IdMsg)) (s : State) : Prop :=
  match l with
  | [] => True
  | tm :: l' => is_int64 tm.1 ∧ admissible tm.2 s ∧ all_admissible l' (deliver (handle gov_account false (at_time tm.1) tm.2) s)
  end.
Lemma run_reach l s : all_admissible l s → demo_reach s (run_all l s).
Proof.
  revert s. induction l as [|[t m] l IH]; intros s; cbn [all_admissible run_all foldl fst snd]; [done|].
  intros (Ht & Ha & Hl). eapply rtc_l; [by apply (step_msg gov_account false error_name 1 (at_time t) m)|]. by apply IH.
Qed.
Lemma demo_ready_run : demo_ready = run_all demo_start demo_genesis.
Proof. vm_cast_no_check (@eq_refl State demo_ready). Qed.
Lemma ready_reachable : demo_reach demo_genesis demo_ready.
Proof.
  rewrite demo_ready_run. apply run_reach. cbn [demo_start all_admissible admissible fst snd register].
  split_and!; try done; vm_compute.
Qed.
Lemma demo_funds : 0 ≤ GetBalance demo_bank (ModuleAddress ModuleName).
Proof. vm_compute. discriminate. Qed.

Lemma recovery_needs_guardians_witness :
  ∃ req, s_rec (id_store demo_ready) !! demo_id = Some req ∧ rr_Approvals req = [did_of key2] ∧
    rr_ExecuteAfter req ≤ demo_due ≤ rr_ExpiresAt req.
Proof.
  destruct (ExecuteRecovery (at_time demo_due) demo_execute demo_ready) as [o s'] eqn:E.
  assert (o = Ok tt) as -> by (change o with (o, s').1; rewrite <- E; vm_compute; reflexivity).
  destruct (recovery_needs_guardians gov_account false error_name 1 demo_bank [] (at_time demo_due) demo_execute demo_ready s'
    demo_funds ready_reachable E) as (req & doc & Hreq & _ & Hwin & _).
  exists req. split_and!; [exact Hreq| |exact (proj1 Hwin)|exact (proj2 Hwin)].
  assert (rr_Approvals <$> s_rec (id_store demo_ready) !! demo_id = Some [did_of key2]) as Hl by (vm_compute; reflexivity).
  change (exe_RecoveryId demo_execute) with demo_id in Hreq. rewrite Hreq in Hl. exact (Some_inj _ _ Hl).
Defined.

Lemma one_human_one_identity_witness :
  AllInvariants (id_store demo_ready) = false ∧ size (s_docs (id_store demo_ready)) = 2%nat.
Proof.
  split; [|vm_compute; reflexivity].
  exact (proj1 (one_human_one_identity gov_account false error_name 1 demo_bank [] demo_ready demo_ready
    demo_funds ready_reachable (rtc_refl _ _))).
Defined.
Lemma deposits_are_backed_witness :
  owed (id_store demo_ready) = 1000000 ∧ 1000000 ≤ GetBalance (id_bank demo_ready) (ModuleAddress ModuleName).
Proof.
  assert (owed (id_store demo_ready) = 1000000) as E by (vm_compute; reflexivity). split; [exact E|]. rewrite <- E.
  exact (deposits_are_backed gov_account false error_name 1 demo_bank [] demo_ready demo_funds ready_reachable).
Defined.


Lemma expired_request_survives_touch_witness :
  deliver (handle gov_account false (at_time (300 + DefaultRecoveryRequestTTLSeconds + 1)) (MExecute demo_execute)) demo_ready = demo_ready.
Proof.
  destruct (s_rec (id_store demo_ready) !! demo_id) as [r|] eqn:E; [|exfalso; revert E; vm_compute; discriminate].
  assert (rr_ExpiresAt <$> s_rec (id_store demo_ready) !! demo_id = Some (300 + DefaultRecoveryRequestTTLSeconds)) as Hx by (vm_compute; reflexivity).
  assert (rr_FrozenAt <$> s_rec (id_store demo_ready) !! demo_id = Some 0) as Hf by (vm_compute; reflexivity).
  rewrite E in Hx, Hf. apply Some_inj in Hx. apply Some_inj in Hf.
  refine (proj1 (proj2 (expired_request_survives_touch gov_account false (at_time (300 + DefaultRecoveryRequestTTLSeconds + 1))
    (MExecute demo_execute) demo_id r demo_ready E _ (or_introl Hf) eq_refl))).
  cbn [BlockTime at_time]. rewrite Hx. unfold DefaultRecoveryRequestTTLSeconds. lia.
Defined.

(** ** The guard *)
Definition demo_suspended : State := Eval vm_compute in
  run_all [(500, MUpdateStatus (mkUpdateStatus gov_account (did_of key1) DID_STATUS_SUSPENDED))] demo_ready.
Lemma demo_suspended_reachable : demo_reach demo_genesis demo_suspended.
Proof.
  assert (demo_suspended = run_all [(500, MUpdateStatus (mkUpdateStatus gov_account (did_of key1) DID_STATUS_SUSPENDED))] demo_ready) as ->
    by vm_cast_no_check (@eq_refl State demo_suspended).
  unfold reachable. etrans; [apply ready_reachable|]. by apply run_reach.
Qed.
Lemma demo_registry s : demo_reach demo_genesis s → registry_ok (id_store s).
Proof. intros Hr. eapply reachable_inv in Hr; [|apply empty_inv, demo_funds]. apply Hr. Qed.
Definition addr1 : string := String (byte 0xa1) EmptyString.
Lemma status_guard_spec_witness :
  IdentityStatusGuard_AnteHandle (id_store demo_suspended) false false (Some (Ok [addr1])) (Ok tt) = Err ErrUnauthorizedSDK.
Proof.
  refine (proj1 (status_guard_spec (id_store demo_suspended) [addr1] (Ok tt) (demo_registry _ demo_suspended_reachable) _) _).
  - intros s ->%list_elem_of_singleton. vm_compute. reflexivity.
  - destruct (s_docs (id_store demo_suspended) !! did_of key1) as [d|] eqn:E; [|exfalso; revert E; vm_compute; discriminate].
    assert ((λ d, (Controller d, Status d)) <$> s_docs (id_store demo_suspended) !! did_of key1 = Some ("a1", DID_STATUS_SUSPENDED)) as Hd
      by (vm_compute; reflexivity).
    rewrite E in Hd. apply Some_inj in Hd. injection Hd as Hc Hs. exists addr1, (did_of key1), d. split_and!; [by left|exact E| |].
    + rewrite Hc. vm_compute. reflexivity.
    + rewrite Hs. discriminate.
Defined.

(** ** Where the code departs from what it says *)

(** an identity is filed under the text its message gave for the controller, and the
    guard looks under the canonical text: after a registration as ["A1"] and a
    suspension, the account behind both texts signs freely *)
Definition demo_upper : list (Z * IdMsg) :=
  [(100, MRegisterIssuer (mkRegisterIssuer gov_account (mkIssuer issuer_did key3 true)));
   (100, register "A1" key1 "h1");
   (500, MUpdateStatus (mkUpdateStatus gov_account (did_of key1) DID_STATUS_SUSPENDED))].
Definition demo_upper_state : State := Eval vm_compute in run_all demo_upper demo_genesis.
Lemma demo_upper_reachable : demo_reach demo_genesis demo_upper_state.
Proof.
  assert (demo_upper_state = run_all demo_upper demo_genesis) as -> by vm_cast_no_check (@eq_refl State demo_upper_state).
  apply run_reach. cbn [demo_upper all_admissible admissible fst snd register]. split_and!; done.
Qed.
Theorem other_spelling_evades_guard : ∃ s d,
  demo_reach demo_genesis s ∧ s_docs (id_store s) !! did_of key1 = Some d ∧ Status d = DID_STATUS_SUSPENDED ∧
  AccAddressFromBech32 (Controller d) = Some addr1 ∧
  IdentityStatusGuard_AnteHandle (id_store s) false false (Some (Ok [addr1])) (Ok tt) = Ok tt.
Proof.
  assert (Hl : (λ d, (Controller d, Status d)) <$> s_docs (id_store demo_upper_state) !! did_of key1 = Some ("A1", DID_STATUS_SUSPENDED))
    by (vm_compute; reflexivity).
  destruct (s_docs (id_store demo_upper_state) !! did_of key1) as [d|] eqn:E; [|discriminate Hl].
  apply Some_inj in Hl. injection Hl as Hc Hs.
  exists demo_upper_state, d. split_and!; [apply demo_upper_reachable|exact E|exact Hs| |vm_compute; reflexivity].
  rewrite Hc. vm_compute. reflexivity.
Qed.

(** [min_identity_age_seconds] has no upper bound and its nanoseconds wrap: a minimum age
    of 292 years and some lets an identity count the second it is created *)
Definition long_age : Params :=
  mkParams 9223372037 (BootstrapThreshold DefaultParams) true (WebauthnAllowedOrigins DefaultParams) (WebauthnRpId DefaultParams)
    (MaxGuardians DefaultParams) (UvSensitiveMsgTypeUrls DefaultParams) (UvLargeTransferUphi DefaultParams)
    (RecoveryDelaySeconds DefaultParams) (RecoveryRequestTtlSeconds DefaultParams) (MaxOpenRecoveryRequests DefaultParams)
    (RecoveryDepositUphi DefaultParams) (ReauthRecoveryFeeUphi DefaultParams).
Definition demo_long_age : list (Z * IdMsg) :=
  [(100, MUpdateParams (mkUpdateParams gov_account long_age));
   (100, MRegisterIssuer (mkRegisterIssuer gov_account (mkIssuer issuer_did key3 true)));
   (100, register "a1" key1 "h1")].
Definition demo_long_state : State := Eval vm_compute in run_all demo_long_age demo_genesis.
Lemma demo_long_reachable : demo_reach demo_genesis demo_long_state.
Proof.
  assert (demo_long_state = run_all demo_long_age demo_genesis) as -> by vm_cast_no_check (@eq_refl State demo_long_state).
  apply run_reach. cbn [demo_long_age all_admissible admissible fst snd register]. split_and!; done.
Qed.
Theorem minimum_age_wraps : ∃ s,
  demo_reach demo_genesis s ∧ MinIdentityAgeSeconds (GetParams (id_store s)) = 9223372037 ∧
  IsEligibleControllerAt (id_store s) "a1" (100 * nano) (MinIdentityAge (id_store s)) = true ∧
  IsEligibleControllerAt (id_store s) "a1" (100 * nano) (DefaultMinIdentityAgeSeconds * nano) = false.
Proof.
  exists demo_long_state. split_and!; [apply demo_long_reachable|vm_compute; reflexivity..].
Qed.

(** a request held through a suspension is given its remaining delay back but a fresh
    time to live: with shorter parameters in between it runs out before it can execute *)
Definition short_recovery : Params :=
  mkParams (MinIdentityAgeSeconds DefaultParams) (BootstrapThreshold DefaultParams) true (WebauthnAllowedOrigins DefaultParams)
    (WebauthnRpId DefaultParams) (MaxGuardians DefaultParams) (UvSensitiveMsgTypeUrls DefaultParams) (UvLargeTransferUphi DefaultParams)
    3600 7200 (MaxOpenRecoveryRequests DefaultParams) (RecoveryDepositUphi DefaultParams) (ReauthRecoveryFeeUphi DefaultParams).
Definition demo_thaw : list (Z * IdMsg) :=
  [(500, MUpdateStatus (mkUpdateStatus gov_account (did_of key1) DID_STATUS_SUSPENDED));
   (600, MUpdateParams (mkUpdateParams gov_account short_recovery));
   (700, MUpdateStatus (mkUpdateStatus gov_account (did_of key1) DID_STATUS_ACTIVE))].
Definition demo_thaw_state : State := Eval vm_compute in run_all demo_thaw demo_ready.
Lemma demo_thaw_reachable : demo_reach demo_genesis demo_thaw_state.
Proof.
  assert (demo_thaw_state = run_all demo_thaw demo_ready) as -> by vm_cast_no_check (@eq_refl State demo_thaw_state).
  unfold reachable. etrans; [apply ready_reachable|]. apply run_reach.
  cbn [demo_thaw all_admissible admissible fst snd]. split_and!; done.
Qed.
Theorem thawed_request_cannot_execute : ∃ s r,
  demo_reach demo_genesis s ∧ s_rec (id_store s) !! demo_id = Some r ∧ rr_Status r = RECOVERY_STATUS_PENDING ∧
  rr_ExpiresAt r < rr_ExecuteAfter r.
Proof.
  assert (Hl : (λ r, (rr_Status r, rr_ExecuteAfter r, rr_ExpiresAt r)) <$> s_rec (id_store demo_thaw_state) !! demo_id =
    Some (RECOVERY_STATUS_PENDING, 259700, 7900)) by (vm_compute; reflexivity).
  destruct (s_rec (id_store demo_thaw_state) !! demo_id) as [r|] eqn:E; [|discriminate Hl].
  apply Some_inj in Hl. injection Hl as Hs Ha Hx.
  exists demo_thaw_state, r. split_and!; [apply demo_thaw_reachable|exact E|exact Hs|rewrite Ha, Hx; lia].
Qed.
