(* ===== verification/IdGenesis.v ===== *)
(** * x/identity: genesis

    [x/identity/types/genesis.go] and [x/identity/keeper/genesis.go]: validation of a
    genesis, its import and the export of a store.  Identities, issuers, guardian sets and
    open recovery requests are exported as records, the markers verbatim as raw entries
    under their prefix byte; the indexes are rebuilt on import by writing every identity
    again, and of the eligibility records only the second field is carried over. *)
From stdpp Require Import base gmap strings list fin_maps sorting.
From Stdlib Require Import ZArith Lia Ascii.
From S2P Require Import Prelude GoInt KVStore StoreEntry Interfaces PhiDid IdTypes IdKeeper IdServer IdSweep.

Definition DIDToValidatorPrefix : string := key_prefix 0x12.
Definition ValidatorToDIDPrefix : string := key_prefix 0x13.
Definition IssuerNoncePrefix : string := key_prefix 0x16.
Definition RecoveryNoncePrefix : string := key_prefix 0x1A.
Definition ControllerEligibilityPrefix : string := key_prefix 0x1B.
Definition GuardianEpochPrefix : string := key_prefix 0x1E.
Definition RecoveryTallyEpochPrefix : string := key_prefix 0x1F.

Record IdGenesisState := mkIdGenesis {
  idg_Params : Params; idg_Identities : list DIDDocument; idg_IdentityCount : Z;
  idg_TrustedIssuers : list TrustedIssuer; idg_StoreEntries : list KV;
  idg_GuardianSets : list GuardianSet; idg_RecoveryRequests : list RecoveryRequest }.
Definition DefaultIdGenesis : IdGenesisState := mkIdGenesis DefaultParams [] 0 [] [] [] [].

(** ** Validation *)
Section validate.
Context `{AddressCodec} `{ValCodec} `{Hasher}.

Definition validValoperValue (v : string) : outcome unit :=
  err_if (negb (bool_decide (is_Some (ValAddressFromBech32 v)))) (Plain "value is not a validator operator address").
Definition validDIDValue (v : string) : outcome unit := ValidateDID v.
Definition storeEntryRules : list Rule :=
  [mkRule "issuer nonce marker" IssuerNoncePrefix (Some NonEmpty);
   mkRule "recovery nonce marker" RecoveryNoncePrefix (Some NonEmpty);
   mkRule "did→validator binding" DIDToValidatorPrefix (Some validValoperValue);
   mkRule "validator→did binding" ValidatorToDIDPrefix (Some validDIDValue);
   mkRule "guardian-set epoch" GuardianEpochPrefix (Some Uint64NoOverflow);
   mkRule "recovery tally epoch" RecoveryTallyEpochPrefix (Some Uint64NoOverflow);
   mkRule "controller eligibility record" ControllerEligibilityPrefix (Some (OneOfLen [8; 16]))].

Definition check_identity (d : DIDDocument) : outcome unit :=
  err_if (bad_length (PubKey d) MaxPubKeyLen) (Plain "pub_key length");;
  err_if (negb (is_bech32 (Controller d))) (Plain "invalid controller address");;
  err_if (negb (Status d =? DID_STATUS_ACTIVE) && negb (Status d =? DID_STATUS_SUSPENDED) && negb (Status d =? DID_STATUS_REVOKED))
    (Plain "unknown status");;
  or_err (CurveForKeyType (KeyType d)) (Plain "unknown key type");;
  err_if (strlen (UniquenessHash d) =? 0) (Plain "empty uniqueness marker");;
  err_if (MaxUniquenessHashLen <? strlen (UniquenessHash d)) (Plain "uniqueness marker length").
Fixpoint validate_identities (seenDID seenUniq : gset string) (l : list DIDDocument) : outcome unit :=
  match l with
  | [] => Ok tt
  | d :: l' =>
      ValidateDID (Did d);;
      err_if (bool_decide (Did d ∈ seenDID)) (Plain "duplicate DID in genesis");;
      check_identity d;;
      err_if (bool_decide (UniquenessHash d ∈ seenUniq)) (Plain "duplicate uniqueness marker in genesis");;
      validate_identities ({[Did d]} ∪ seenDID) ({[UniquenessHash d]} ∪ seenUniq) l'
  end.
Fixpoint validate_issuers (seen : gset string) (l : list TrustedIssuer) : outcome unit :=
  match l with
  | [] => Ok tt
  | ti :: l' =>
      ValidateDID (ti_Did ti);;
      err_if (bool_decide (ti_Did ti ∈ seen)) (Plain "duplicate trusted issuer");;
      err_if (bad_length (ti_PubKey ti) MaxPubKeyLen) (Plain "trusted_issuer: pub_key length");;
      validate_issuers ({[ti_Did ti]} ∪ seen) l'
  end.

(** an identity that may still hold state which outlives a freeze *)
Definition status_map (l : list DIDDocument) : gmap string Z := foldl (λ m d, <[Did d := Status d]> m) ∅ l.
Definition notTerminated (status : gmap string Z) (did : string) : bool :=
  match status !! did with
  | Some st => (st =? DID_STATUS_ACTIVE) || (st =? DID_STATUS_SUSPENDED)
  | None => false
  end.

(** the two halves of the validator bindings, then that each inverts the other; a missing
    key of a Go map reads as the empty string, and the order in which the maps are walked
    only chooses among errors *)
Fixpoint collect_bindings (didToVal valToDID : gmap string string) (l : list KV)
    : outcome (gmap string string * gmap string string) :=
  match l with
  | [] => Ok (didToVal, valToDID)
  | e :: l' =>
      if strictly_under (Key e) DIDToValidatorPrefix then
        let did := after DIDToValidatorPrefix (Key e) in
        err_if (bool_decide (is_Some (didToVal !! did))) (Plain "duplicate did→validator binding");;
        collect_bindings (<[did := Value e]> didToVal) valToDID l'
      else if strictly_under (Key e) ValidatorToDIDPrefix then
        let valoper := after ValidatorToDIDPrefix (Key e) in
        err_if (bool_decide (is_Some (valToDID !! valoper))) (Plain "duplicate validator→did binding");;
        collect_bindings didToVal (<[valoper := Value e]> valToDID) l'
      else collect_bindings didToVal valToDID l'
  end.
Definition check_bindings (status : gmap string Z) (didToVal valToDID : gmap string string) : outcome unit :=
  ofold (λ _ dv,
    err_if (negb (bool_decide (default "" (valToDID !! dv.2) = dv.1))) (Plain "validator binding not bijective");;
    err_if (negb (notTerminated status dv.1)) (Plain "validator-bound did must exist and not be revoked"))
    (map_to_list didToVal) tt;;
  ofold (λ _ vd,
    err_if (negb (bool_decide (default "" (didToVal !! vd.2) = vd.1))) (Plain "validator binding not bijective"))
    (map_to_list valToDID) tt.

Fixpoint validate_guardians (p : Params) (status : gmap string Z) (seen : gset string) (l : list GuardianSet) : outcome unit :=
  match l with
  | [] => Ok tt
  | g :: l' =>
      ValidateGuardianSetBasic (gd_Did g) (gd_Commitments g) (gd_Threshold g);;
      err_if (bool_decide (gd_Did g ∈ seen)) (Plain "duplicate guardian set");;
      err_if (MaxGuardians p <? Z.of_nat (length (gd_Commitments g))) (Plain "guardian count exceeds max_guardians");;
      err_if (negb (notTerminated status (gd_Did g))) (Plain "protected did must exist and not be revoked");;
      validate_guardians p status ({[gd_Did g]} ∪ seen) l'
  end.

Fixpoint check_distinct (seen : gset string) (l : list string) : outcome unit :=
  match l with
  | [] => Ok tt
  | a :: l' => err_if (bool_decide (a ∈ seen)) (Plain "duplicate");; check_distinct ({[a]} ∪ seen) l'
  end.
Definition check_material (r : RecoveryRequest) : outcome unit :=
  if rr_Method r =? RECOVERY_METHOD_SOCIAL then
    err_if (negb (bool_decide (rr_AttestorDid r = ""))) (Plain "a SOCIAL request must not name an attestor")
  else if rr_Method r =? RECOVERY_METHOD_REAUTH then
    err_if (negb (Z.of_nat (length (rr_Approvals r)) =? 0)) (Plain "a REAUTH request takes no guardian approvals");;
    err_if (negb (Z.of_nat (length (rr_Rejections r)) =? 0)) (Plain "a REAUTH request takes no guardian rejections");;
    ValidateDID (rr_AttestorDid r)
  else Err (Plain "method must be SOCIAL or REAUTH").
(** the checks of one request before and after its id is recorded *)
Definition check_request (status : gmap string Z) (r : RecoveryRequest) : outcome unit :=
  err_if (negb (rr_Status r =? RECOVERY_STATUS_PENDING)) (Plain "only PENDING requests may be exported");;
  ValidateDID (rr_Did r);;
  err_if (negb (notTerminated status (rr_Did r))) (Plain "did must exist and not be revoked");;
  err_if (negb (is_bech32 (rr_ProposedNewController r))) (Plain "invalid proposed_new_controller");;
  ValidateRecoveryNonce (rr_Nonce r);;
  err_if (negb (rr_KeyType r =? KEY_TYPE_SECP256R1)) (Plain "key_type is not executable");;
  err_if (negb (strlen (rr_RecoveryId r) =? RecoveryIDLen)) (Plain "recovery_id length");;
  err_if (negb (subtleEqual (DeriveRecoveryID (rr_Did r) (rr_ProposedNewPubKey r) (rr_Nonce r)) (rr_RecoveryId r)))
    (Plain "recovery_id is not the canonical derivation").
Definition check_request_body (r : RecoveryRequest) : outcome unit :=
  err_if ((rr_ExecuteAfter r <=? rr_InitiatedAt r) || (rr_ExpiresAt r <=? rr_ExecuteAfter r))
    (Plain "require initiated_at < execute_after < expires_at");;
  check_distinct ∅ (rr_Approvals r);;
  check_distinct ∅ (rr_Rejections r);;
  or_err (NewIntFromString (rr_DepositUphi r)) (Plain "invalid deposit_uphi");;
  or_err (NewIntFromString (rr_FeeUphi r)) (Plain "invalid fee_uphi");;
  check_material r.
Fixpoint validate_requests (p : Params) (status : gmap string Z) (seen : gset string) (openPerDID : gmap string Z)
    (l : list RecoveryRequest) : outcome unit :=
  match l with
  | [] => Ok tt
  | r :: l' =>
      check_request status r;;
      err_if (bool_decide (rr_RecoveryId r ∈ seen)) (Plain "duplicate recovery request id");;
      check_request_body r;;
      let open := u32 (default 0 (openPerDID !! rr_Did r) + 1) in
      err_if (MaxOpenRecoveryRequests p <? open) (Plain "more than max_open_recovery_requests open requests");;
      validate_requests p status ({[rr_RecoveryId r]} ∪ seen) (<[rr_Did r := open]> openPerDID) l'
  end.

Definition IdGenesis_Validate (gs : IdGenesisState) : outcome unit :=
  Params_Validate (idg_Params gs);;
  validate_identities ∅ ∅ (idg_Identities gs);;
  err_if (idg_IdentityCount gs <? Z.of_nat (length (idg_Identities gs))) (Plain "identity_count is less than number of identities");;
  validate_issuers ∅ (idg_TrustedIssuers gs);;
  Validate (idg_StoreEntries gs) storeEntryRules;;
  let status := status_map (idg_Identities gs) in
  maps ← collect_bindings ∅ ∅ (idg_StoreEntries gs);
  check_bindings status maps.1 maps.2;;
  validate_guardians (idg_Params gs) status ∅ (idg_GuardianSets gs);;
  validate_requests (idg_Params gs) status ∅ ∅ (idg_RecoveryRequests gs).
End validate.

(** ** Import *)

(** [store.Set] of a marker: the byte names the kind of record; validation has refused a
    key under any other *)
Definition set_marker (e : KV) : IdStore → IdStore :=
  match Key e with
  | EmptyString => λ st, st
  | String c k =>
      let v := Value e in
      let z := char_code c in
      if z =? 0x12 then set_did_val <[k := v]>
      else if z =? 0x13 then set_val_did <[k := v]>
      else if z =? 0x16 then set_inonce <[k := v]>
      else if z =? 0x1A then set_rnonce <[k := v]>
      else if z =? 0x1B then set_elig <[k := v]>
      else if z =? 0x1E then set_gepoch <[k := v]>
      else if z =? 0x1F then set_tepoch <[k := v]>
      else λ st, st
  end.
Definition import_identity (ctx : Context) (d : DIDDocument) (st : IdStore) : IdStore :=
  setUniqueness (UniquenessHash d) (Did d) (SetIdentity ctx d st).
Definition import_request (r : RecoveryRequest) (st : IdStore) : IdStore :=
  markRecoveryNonce (rr_Did r) (rr_Nonce r) (SetRecoveryRequest r st).
Definition import_marker (e : KV) (st : IdStore) : IdStore :=
  if has_prefix ControllerEligibilityPrefix (Key e) then st else set_marker e st.
Definition restore_since (e : KV) (st : IdStore) : IdStore :=
  if negb (has_prefix ControllerEligibilityPrefix (Key e)) then st else
  let c := after ControllerEligibilityPrefix (Key e) in
  match DecodeControllerEligibility (Some (Value e)) with
  | Some (_, since) =>
      if since =? 0 then st else
      match DecodeControllerEligibility (s_elig st !! c) with
      | Some (oldest, _) => set_elig <[c := EncodeControllerEligibility oldest since]> st
      | None => st
      end
  | None => st
  end.
Definition restoreEligibleSince (entries : list KV) (st : IdStore) : IdStore := foldl (λ st e, restore_since e st) st entries.

Definition Id_InitGenesis `{AddressCodec} `{ValCodec} `{Hasher} (ctx : Context) (gs : IdGenesisState) : M IdStore unit :=
  or_panic (lift (IdGenesis_Validate gs));;
  or_panic (SetParams (idg_Params gs));;
  for_each (idg_Identities gs) (λ d, modify (import_identity ctx d));;
  for_each (idg_TrustedIssuers gs) (λ ti, modify (SetTrustedIssuer ti));;
  for_each (idg_GuardianSets gs) (λ g, modify (SetGuardianSet g));;
  for_each (idg_RecoveryRequests gs) (λ r, modify (import_request r));;
  modify (SetIdentityCount (idg_IdentityCount gs));;
  for_each (idg_StoreEntries gs) (λ e, modify (import_marker e));;
  modify (restoreEligibleSince (idg_StoreEntries gs)).

(** ** Export *)
Definition export_kind (z : Z) (m : KVStore string) : list KV :=
  map (λ kv, mkKV (key_prefix z +:+ kv.1) kv.2) (KVStorePrefixIterator m "").
(** [identityMarkerPrefixes], in order *)
Definition exportMarkerEntries (st : IdStore) : list KV :=
  export_kind 0x16 (s_inonce st) ++ export_kind 0x1A (s_rnonce st) ++ export_kind 0x12 (s_did_val st) ++
  export_kind 0x13 (s_val_did st) ++ export_kind 0x1E (s_gepoch st) ++ export_kind 0x1F (s_tepoch st) ++
  export_kind 0x1B (s_elig st).
Definition Id_ExportGenesis (st : IdStore) : IdGenesisState :=
  mkIdGenesis (GetParams st) (IterateIdentities st) (GetIdentityCount st) (IterateTrustedIssuers st) (exportMarkerEntries st)
    (IterateGuardians st) (List.filter (λ r, rr_Status r =? RECOVERY_STATUS_PENDING) (IterateRecoveryRequests st)).

(** [AppModule.InitGenesis]: the import, then the check of the founding validators where
    staking is wired *)
Definition module_InitGenesis {T} `{SweepStaking T} `{AddressCodec} `{ValCodec} `{Hasher} (wired : bool) (ctx : Context) (gs : IdGenesisState)
  : M (SweepState T) unit :=
  zoom ss_store (λ st s, mkSweepState st (ss_staking s) (ss_events s)) (Id_InitGenesis ctx gs);;
  if negb wired then mret tt else or_panic (query (λ s, ValidateGenesisFounders (ss_store s) (ss_staking s))).
