(* ===== verification/IdRestore.v ===== *)
(** * x/identity: what an import restores

    [stored_ok]: what validation demands of the records and every handler keeps.
    [importable]: the rest, which depends on parameters that may change and on the windows
    of open requests.  A store with both exports a genesis that validates, and importing it
    gives the store back, indexes included. *)
From stdpp Require Import base gmap strings list fin_maps sorting.
From Stdlib Require Import ZArith Lia Ascii.
From S2P Require Import Prelude GoInt KVStore StoreEntry Interfaces PhiDid IdTypes IdKeeper IdServer IdIndex IdElig IdInvariants IdSweep IdStep IdRequests IdHandlers IdReach IdChain IdGenesis.

(** ** Records *)
Section records.
Context `{AddressCodec} `{ValCodec} `{Hasher}.

Record doc_valid (d : DIDDocument) : Prop := {
  dv_key : bad_length (PubKey d) MaxPubKeyLen = false;
  dv_controller : is_bech32 (Controller d) = true;
  dv_curve : is_Some (CurveForKeyType (KeyType d));
  dv_uniq : bad_length (UniquenessHash d) MaxUniquenessHashLen = false;
}.
Record issuer_valid (ti : TrustedIssuer) : Prop := {
  tv_did : ValidateDID (ti_Did ti) = Ok tt;
  tv_key : bad_length (ti_PubKey ti) MaxPubKeyLen = false;
}.
Record request_valid (r : RecoveryRequest) : Prop := {
  rv_did : ValidateDID (rr_Did r) = Ok tt;
  rv_controller : is_bech32 (rr_ProposedNewController r) = true;
  rv_key : bad_length (rr_ProposedNewPubKey r) MaxPubKeyLen = false;
  rv_nonce : ValidateRecoveryNonce (rr_Nonce r) = Ok tt;
  rv_type : rr_KeyType r = KEY_TYPE_SECP256R1;
  rv_id : rr_RecoveryId r = DeriveRecoveryID (rr_Did r) (rr_ProposedNewPubKey r) (rr_Nonce r);
  rv_distinct : NoDup (rr_Approvals r) ∧ NoDup (rr_Rejections r);
  rv_amounts : is_Some (NewIntFromString (rr_DepositUphi r)) ∧ is_Some (NewIntFromString (rr_FeeUphi r));
  rv_material : check_material r = Ok tt;
}.
(** eligibility records as they are written, with a second field that satisfies [P] *)
Definition stamped (P : Z → Prop) (m : KVStore string) : Prop :=
  ∀ c b, m !! c = Some b → ∃ o s, is_int64 o ∧ is_int64 s ∧ P s ∧ b = EncodeControllerEligibility o s.
Definition epoch_valid (b : string) : Prop := ∃ e, 0 ≤ e < 2 ^ 64 - 1 ∧ b = encodeEpoch e.

(** the records of a store, but for the identities outside [X] that guardian sets and
    requests protect: those are not revoked *)
Record stored_except (X : string → Prop) (st : IdStore) : Prop := {
  so_params : Params_Validate (GetParams st) = Ok tt;
  so_count : Z.of_nat (size (s_docs st)) ≤ GetIdentityCount st;
  so_docs did d : s_docs st !! did = Some d → doc_valid d;
  so_issuers did ti : s_issuers st !! did = Some ti → ti_Did ti = did ∧ issuer_valid ti;
  so_inonce k v : s_inonce st !! k = Some v → k ≠ "" ∧ v = marker;
  so_rnonce k v : s_rnonce st !! k = Some v → k ≠ "" ∧ v = marker;
  so_elig : stamped (λ s, s ≠ 0) (s_elig st);
  so_did_val did v : s_did_val st !! did = Some v → is_Some (ValAddressFromBech32 v);
  so_gepoch did b : s_gepoch st !! did = Some b → did ≠ "" ∧ epoch_valid b;
  so_tepoch id b : s_tepoch st !! id = Some b → id ≠ "" ∧ epoch_valid b;
  so_guard did gs : s_guard st !! did = Some gs →
    gd_Did gs = did ∧ ValidateGuardianSetBasic did (gd_Commitments gs) (gd_Threshold gs) = Ok tt ∧ (X did ∨ backed st did);
  so_rec id r : s_rec st !! id = Some r →
    rr_RecoveryId r = id ∧ request_valid r ∧ is_Some (s_rnonce st !! RecoveryNonceKey (rr_Did r) (rr_Nonce r)) ∧
    (X (rr_Did r) ∨ backed st (rr_Did r));
}.
Definition stored_ok : IdStore → Prop := stored_except (λ _, False).

(** what the handlers do not guarantee and validation demands *)
Record importable (st : IdStore) : Prop := {
  im_guards did gs : s_guard st !! did = Some gs → Z.of_nat (length (gd_Commitments gs)) ≤ MaxGuardians (GetParams st);
  im_window id r : s_rec st !! id = Some r → rr_InitiatedAt r < rr_ExecuteAfter r < rr_ExpiresAt r;
  im_open did : Z.of_nat (length (List.filter (λ r, bool_decide (rr_Did r = did)) (IterateRecoveryRequests st)))
    ≤ Z.min (MaxOpenRecoveryRequests (GetParams st)) (2 ^ 32 - 1);
}.
End records.

(** ** Lists that pass validation *)
Section lists.
Context `{AddressCodec} `{ValCodec} `{Hasher}.
Lemma check_identity_ok d : doc_valid d → valid_status (Status d) = true → check_identity d = Ok tt.
Proof.
  intros [Hk Hc [c Hcu] Hu] Hs. unfold check_identity. rewrite Hk, Hc, Hcu. cbn.
  unfold valid_status in Hs. unfold bad_length in Hu. apply orb_false_elim in Hu as [-> ->].
  destruct (Status d =? DID_STATUS_ACTIVE), (Status d =? DID_STATUS_SUSPENDED), (Status d =? DID_STATUS_REVOKED); done.
Qed.
Lemma validate_identities_ok sd su l :
  (∀ d, d ∈ l → ValidateDID (Did d) = Ok tt ∧ doc_valid d ∧ valid_status (Status d) = true) →
  NoDup (Did <$> l) → NoDup (UniquenessHash <$> l) →
  (∀ d, d ∈ l → (Did d ∉ sd) ∧ (UniquenessHash d ∉ su)) → validate_identities sd su l = Ok tt.
Proof.
  revert sd su. induction l as [|d l IH]; intros sd su Hv Hd Hu Hs; [done|]. cbn [validate_identities].
  destruct (Hv d) as (-> & Hdv & Hst); [left|]. cbn [mbind outcome_bind]. destruct (Hs d) as [Hs1 Hs2]; [left|].
  rewrite bool_decide_eq_false_2 by done. cbn [mbind outcome_bind err_if]. rewrite check_identity_ok by done. cbn [mbind outcome_bind].
  rewrite bool_decide_eq_false_2 by done. cbn [mbind outcome_bind err_if].
  rewrite fmap_cons, NoDup_cons in Hd, Hu. destruct Hd as [Hd1 Hd2], Hu as [Hu1 Hu2].
  apply IH; [intros; apply Hv; by right|done|done|]. intros d' Hd'. destruct (Hs d') as [? ?]; [by right|].
  rewrite !not_elem_of_union, !not_elem_of_singleton. split; (split; [|done]); intros E; [apply Hd1|apply Hu1]; rewrite <- E; apply list_elem_of_fmap; eauto.
Qed.
Lemma validate_issuers_ok seen l : (∀ ti, ti ∈ l → issuer_valid ti) → NoDup (ti_Did <$> l) →
  (∀ ti, ti ∈ l → ti_Did ti ∉ seen) → validate_issuers seen l = Ok tt.
Proof.
  revert seen. induction l as [|ti l IH]; intros seen Hv Hd Hs; [done|]. cbn [validate_issuers].
  destruct (Hv ti) as [-> ->]; [left|]. cbn [mbind outcome_bind]. rewrite bool_decide_eq_false_2 by (apply Hs; left).
  cbn [mbind outcome_bind err_if]. rewrite fmap_cons, NoDup_cons in Hd. destruct Hd as [Hd1 Hd2].
  apply IH; [intros; apply Hv; by right|done|]. intros x Hx. rewrite not_elem_of_union, not_elem_of_singleton.
  split; [|apply Hs; by right]. intros E. apply Hd1. rewrite <- E. apply list_elem_of_fmap; eauto.
Qed.
Lemma validate_guardians_ok p status seen l :
  (∀ g, g ∈ l → ValidateGuardianSetBasic (gd_Did g) (gd_Commitments g) (gd_Threshold g) = Ok tt ∧
     Z.of_nat (length (gd_Commitments g)) ≤ MaxGuardians p ∧ notTerminated status (gd_Did g) = true) →
  NoDup (gd_Did <$> l) → (∀ g, g ∈ l → gd_Did g ∉ seen) → validate_guardians p status seen l = Ok tt.
Proof.
  revert seen. induction l as [|g l IH]; intros seen Hv Hd Hs; [done|]. cbn [validate_guardians].
  destruct (Hv g) as (-> & Hm & ->); [left|]. cbn [mbind outcome_bind]. rewrite bool_decide_eq_false_2 by (apply Hs; left).
  cbn [mbind outcome_bind err_if negb]. rewrite (proj2 (Z.ltb_ge _ _)) by lia. cbn [mbind outcome_bind err_if].
  rewrite fmap_cons, NoDup_cons in Hd. destruct Hd as [Hd1 Hd2].
  apply IH; [intros; apply Hv; by right|done|]. intros x Hx. rewrite not_elem_of_union, not_elem_of_singleton.
  split; [|apply Hs; by right]. intros E. apply Hd1. rewrite <- E. apply list_elem_of_fmap; eauto.
Qed.
Lemma check_distinct_ok seen l : NoDup l → (∀ a, a ∈ l → a ∉ seen) → check_distinct seen l = Ok tt.
Proof.
  revert seen. induction l as [|a l IH]; intros seen Hd Hs; [done|]. cbn [check_distinct].
  rewrite bool_decide_eq_false_2 by (apply Hs; left). cbn [mbind outcome_bind err_if]. apply NoDup_cons in Hd as [Hd1 Hd2].
  apply IH; [done|]. intros x Hx. rewrite not_elem_of_union, not_elem_of_singleton. split; [by intros ->|apply Hs; by right].
Qed.
Lemma subtleEqual_refl s : subtleEqual s s = true.
Proof.
  unfold subtleEqual. apply Z.eqb_eq. induction s as [|c s IH]; [done|]. cbn [diff_bits]. by rewrite Z.lxor_nilpotent, IH.
Qed.
End lists.

(** *** Requests *)
Section requests.
Context `{AddressCodec} `{ValCodec} `{HasherLaws}.
Definition of_did (did : string) (l : list RecoveryRequest) : Z :=
  Z.of_nat (length (List.filter (λ r, bool_decide (rr_Did r = did)) l)).
Lemma of_did_cons did r l : of_did did (r :: l) = (if bool_decide (rr_Did r = did) then 1 else 0) + of_did did l.
Proof. unfold of_did. cbn [List.filter]. case_bool_decide; cbn [length]; lia. Qed.

Lemma check_request_ok status r : request_valid r → rr_Status r = RECOVERY_STATUS_PENDING →
  notTerminated status (rr_Did r) = true → check_request status r = Ok tt.
Proof.
  intros [Hd Hc _ Hn Ht Hid _ _ _] Hs Hl. unfold check_request. rewrite Hs, Hd, Hl, Hc, Hn, Ht, Hid.
  cbn [Z.eqb Pos.eqb negb err_if mbind outcome_bind RECOVERY_STATUS_PENDING KEY_TYPE_SECP256R1].
  rewrite subtleEqual_refl. unfold DeriveRecoveryID. by rewrite sha256_length.
Qed.
Lemma check_body_ok r : request_valid r → rr_InitiatedAt r < rr_ExecuteAfter r < rr_ExpiresAt r → check_request_body r = Ok tt.
Proof.
  intros [_ _ _ _ _ _ [Ha Hr] [[a Hda] [f Hf]] Hm] Hw. unfold check_request_body.
  rewrite (proj2 (Z.leb_gt _ _)), (proj2 (Z.leb_gt (rr_ExpiresAt r) _)) by lia. cbn [orb err_if mbind outcome_bind].
  rewrite !check_distinct_ok, Hda, Hf by (done || set_solver). by cbn.
Qed.
Lemma validate_requests_ok p status seen open l :
  (∀ r, r ∈ l → check_request status r = Ok tt ∧ check_request_body r = Ok tt) →
  NoDup (rr_RecoveryId <$> l) → (∀ r, r ∈ l → rr_RecoveryId r ∉ seen) →
  (∀ did, 0 ≤ default 0 (open !! did) ∧ default 0 (open !! did) + of_did did l ≤ Z.min (MaxOpenRecoveryRequests p) (2 ^ 32 - 1)) →
  validate_requests p status seen open l = Ok tt.
Proof.
  revert seen open. induction l as [|r l IH]; intros seen open Hv Hd Hs Ho; [done|]. cbn [validate_requests].
  destruct (Hv r) as [-> ->]; [left|]. cbn [mbind outcome_bind]. rewrite bool_decide_eq_false_2 by (apply Hs; left).
  cbn [mbind outcome_bind err_if]. pose proof (Ho (rr_Did r)) as [H0' H1']. rewrite of_did_cons, bool_decide_eq_true_2 in H1' by done.
  assert (0 ≤ of_did (rr_Did r) l) by (unfold of_did; lia). rewrite u32_id by lia.
  rewrite (proj2 (Z.ltb_ge _ _)) by lia. cbn [mbind outcome_bind err_if]. rewrite fmap_cons, NoDup_cons in Hd. destruct Hd as [Hd1 Hd2].
  apply IH; [intros; apply Hv; by right|done| |].
  - intros x Hx. rewrite not_elem_of_union, not_elem_of_singleton. split; [|apply Hs; by right].
    intros E. apply Hd1. rewrite <- E. apply list_elem_of_fmap; eauto.
  - intros did. specialize (Ho did). rewrite of_did_cons in Ho. destruct (decide (did = rr_Did r)) as [->|Hne].
    + rewrite lookup_insert_eq. cbn. lia.
    + rewrite lookup_insert_ne by done. rewrite bool_decide_eq_false_2 in Ho by congruence. lia.
Qed.
End requests.

(** *** Bindings *)
Definition enc_marker (z : Z) (kv : string * string) : KV := mkKV (key_prefix z +:+ kv.1) kv.2.
Lemma marker_under z w k : 0 ≤ z < 256 → 0 ≤ w < 256 → k ≠ "" → strictly_under (key_prefix w +:+ k) (key_prefix z) = (z =? w).
Proof.
  intros Hz Hw Hk. rewrite strictly_under_byte by done. destruct k as [|c k]; [done|].
  rewrite (proj2 (Z.ltb_lt _ _)) by (unfold strlen; cbn; lia). apply andb_true_r.
Qed.
Lemma collect_app d v l l' : collect_bindings d v (l ++ l') = '(d', v') ← collect_bindings d v l; collect_bindings d' v' l'.
Proof.
  revert d v. induction l as [|e l IH]; intros d v; [done|]. cbn [app collect_bindings].
  destruct (strictly_under _ _); [destruct (bool_decide _); cbn; [done|apply IH]|].
  destruct (strictly_under _ _); [destruct (bool_decide _); cbn; [done|apply IH]|apply IH].
Qed.
Lemma collect_other z d v l : 0 ≤ z < 256 → z ≠ 0x12 → z ≠ 0x13 → (∀ kv, kv ∈ l → kv.1 ≠ "") →
  collect_bindings d v (enc_marker z <$> l) = Ok (d, v).
Proof.
  intros Hz H1 H2. revert d v. induction l as [|kv l IH]; intros d v Hl; [done|]. cbn [fmap list_fmap collect_bindings].
  change (Key (enc_marker z kv)) with (key_prefix z +:+ kv.1). change (Value (enc_marker z kv)) with kv.2. unfold DIDToValidatorPrefix, ValidatorToDIDPrefix.
  rewrite !marker_under by (lia || (apply Hl; left)). rewrite !(proj2 (Z.eqb_neq _ _)) by lia. apply IH. intros x Hx. apply Hl. by right.
Qed.
Lemma collect_dids d v l : NoDup l.*1 → (∀ kv, kv ∈ l → kv.1 ≠ "" ∧ d !! kv.1 = None) →
  collect_bindings d v (enc_marker 0x12 <$> l) = Ok (foldl (λ s kv, <[kv.1 := kv.2]> s) d l, v).
Proof.
  revert d. induction l as [|kv l IH]; intros d Hn Hl; [done|]. cbn [fmap list_fmap collect_bindings foldl].
  change (Key (enc_marker 0x12 kv)) with (key_prefix 0x12 +:+ kv.1). change (Value (enc_marker 0x12 kv)) with kv.2. unfold DIDToValidatorPrefix, ValidatorToDIDPrefix. destruct (Hl kv) as [Hk Hd]; [left|].
  rewrite marker_under, after_app, Hd by (lia || done). cbn. rewrite fmap_cons, NoDup_cons in Hn. destruct Hn as [Hn1 Hn2].
  apply IH; [done|]. intros x Hx. split; [by apply Hl; right|]. rewrite lookup_insert_ne; [by apply Hl; right|].
  intros E. apply Hn1. rewrite E. apply list_elem_of_fmap; eauto.
Qed.
Lemma collect_vals d v l : NoDup l.*1 → (∀ kv, kv ∈ l → kv.1 ≠ "" ∧ v !! kv.1 = None) →
  collect_bindings d v (enc_marker 0x13 <$> l) = Ok (d, foldl (λ s kv, <[kv.1 := kv.2]> s) v l).
Proof.
  revert v. induction l as [|kv l IH]; intros v Hn Hl; [done|]. cbn [fmap list_fmap collect_bindings foldl].
  change (Key (enc_marker 0x13 kv)) with (key_prefix 0x13 +:+ kv.1). change (Value (enc_marker 0x13 kv)) with kv.2. unfold DIDToValidatorPrefix, ValidatorToDIDPrefix. destruct (Hl kv) as [Hk Hd]; [left|].
  rewrite !marker_under, after_app, Hd by (lia || done). cbn. rewrite fmap_cons, NoDup_cons in Hn. destruct Hn as [Hn1 Hn2].
  apply IH; [done|]. intros x Hx. split; [by apply Hl; right|]. rewrite lookup_insert_ne; [by apply Hl; right|].
  intros E. apply Hn1. rewrite E. apply list_elem_of_fmap; eauto.
Qed.
Lemma entries_rebuild {V} (m : KVStore V) : foldl (λ s kv, <[kv.1 := kv.2]> s) ∅ (KVStorePrefixIterator m "") = m.
Proof.
  apply map_eq. intros k. rewrite (foldl_insert_lookup m) by (by intros [k' v] [? _]%elem_of_prefix_iterator).
  case_bool_decide as Hk; [done|]. rewrite lookup_empty. symmetry. apply eq_None_not_Some. intros [v Hv]. apply Hk.
  apply list_elem_of_fmap. exists (k, v). split; [done|]. by apply elem_of_prefix_iterator.
Qed.
Lemma ofold_unit {A} (f : unit → A → outcome unit) l : (∀ x, x ∈ l → f tt x = Ok tt) → ofold f l tt = Ok tt.
Proof.
  induction l as [|x l IH]; intros Hf; [done|]. cbn [ofold]. rewrite Hf by left. cbn. apply IH. intros y Hy. apply Hf. by right.
Qed.

(** ** The exported genesis validates *)
Section export.
Context `{AddressCodec} `{ValCodecLaws} `{HasherLaws}.
Context (st : IdStore) (Hro : registry_ok st) (Hrq : requests_ok st) (Hbo : binds_ok st) (Hso : stored_ok st).

Lemma docs_filed : filed Did (s_docs st).
Proof. intros did d Hl. by destruct (ix_docs _ (ro_index _ Hro) _ _ Hl) as (-> & _). Qed.
Lemma listed_doc d : d ∈ IterateIdentities st ↔ s_docs st !! Did d = Some d.
Proof. apply (elem_of_values Did), docs_filed. Qed.
Lemma guards_filed : filed gd_Did (s_guard st).
Proof. intros did g Hl. by destruct (so_guard _ _ Hso _ _ Hl) as (-> & _). Qed.
Lemma issuers_filed : filed ti_Did (s_issuers st).
Proof. intros did ti Hl. by destruct (so_issuers _ _ Hso _ _ Hl) as (-> & _). Qed.
Lemma requests_filed : filed rr_RecoveryId (s_rec st).
Proof. intros id r Hl. by destruct (so_rec _ _ Hso _ _ Hl) as (-> & _). Qed.
Lemma all_pending : List.filter (λ r, rr_Status r =? RECOVERY_STATUS_PENDING) (IterateRecoveryRequests st) = IterateRecoveryRequests st.
Proof.
  assert (∀ r, r ∈ IterateRecoveryRequests st → (rr_Status r =? RECOVERY_STATUS_PENDING) = true) as Hp.
  { intros r Hr%(elem_of_values rr_RecoveryId); [|apply requests_filed]. apply Z.eqb_eq. by apply (rs_each _ Hrq) in Hr as []. }
  revert Hp. generalize (IterateRecoveryRequests st). induction l as [|r l IH]; intros Hp; [done|]. cbn. rewrite Hp by left.
  f_equal. apply IH. intros x Hx. apply Hp. by right.
Qed.
Lemma uniq_NoDup : NoDup (UniquenessHash <$> IterateIdentities st).
Proof.
  apply NoDup_fmap_2_strong.
  - intros d d' Hd%listed_doc Hd'%listed_doc E.
    assert (s_uniq st !! UniquenessHash d = Some (Did d)) as E1 by (apply (ro_uniq _ Hro); eauto).
    assert (s_uniq st !! UniquenessHash d = Some (Did d')) as E2 by (apply (ro_uniq _ Hro); eauto). congruence.
  - eapply NoDup_fmap_1, (values_NoDup Did), docs_filed.
Qed.
Lemma status_lookup did : status_map (IterateIdentities st) !! did = Status <$> s_docs st !! did.
Proof.
  unfold status_map. assert (∀ l (m : KVStore DIDDocument), foldl (λ m d, <[Did d := Status d]> m) (Status <$> m) l =
    Status <$> foldl (λ m d, <[Did d := d]> m) m l) as Hf.
  { induction l as [|d l IH]; intros m; [done|]. cbn [foldl]. by rewrite <- fmap_insert, IH. }
  rewrite <- (fmap_empty Status), Hf. rewrite lookup_fmap. f_equal.
  change (IterateIdentities st) with (values (s_docs st)). by rewrite (values_rebuild Did) by apply docs_filed.
Qed.
Lemma backed_not_terminated did : backed st did → notTerminated (status_map (IterateIdentities st)) did = true.
Proof.
  intros (d & Hl & Hs). unfold notTerminated. rewrite status_lookup, Hl. cbn. pose proof (ro_status _ Hro _ _ Hl) as Hv.
  unfold valid_status in Hv. apply Z.eqb_neq in Hs. rewrite Hs in Hv. by destruct (Status d =? DID_STATUS_ACTIVE), (Status d =? DID_STATUS_SUSPENDED).
Qed.
Lemma iterator_length_docs : length (IterateIdentities st) = size (s_docs st).
Proof. unfold IterateIdentities. rewrite length_fmap. apply iterator_length. Qed.

(** the raw entries *)
Definition kind_ok (z : Z) (f : string → outcome unit) (m : KVStore string) : Prop :=
  ∀ k v, m !! k = Some v → k ≠ "" ∧ strlen v ≤ MaxValueLen ∧ f v = Ok tt.
Lemma kind_accepted z f m name e : 0 ≤ z < 256 → kind_ok z f m → mkRule name (key_prefix z) (Some f) ∈ storeEntryRules →
  e ∈ export_kind z m → accepted storeEntryRules e.
Proof.
  intros Hz Hk Hr ([k v] & -> & [Hl _]%elem_of_prefix_iterator)%list_elem_of_fmap.
  destruct (Hk _ _ Hl) as (Hne & Hv & Hf). eapply accepted_byte; [|exact Hr| |done|by intros g [= <-]].
  - by repeat constructor.
  - cbn [rule_Prefix fst]. rewrite marker_under by done. apply Z.eqb_refl.
Qed.
Lemma epoch_kind z m : (∀ k b, m !! k = Some b → k ≠ "" ∧ epoch_valid b) → kind_ok z Uint64NoOverflow m.
Proof.
  intros Hm k b Hk. destruct (Hm _ _ Hk) as (Hne & e & He & ->). split; [done|]. unfold encodeEpoch. rewrite strlen_be64. split; [done|].
  unfold Uint64NoOverflow, BoundedUint64. rewrite strlen_be64, BigEndian_be64, u64_id by lia. cbn.
  by rewrite (proj2 (Z.leb_gt _ _)) by lia.
Qed.
Lemma nonce_kind z m : (∀ k v, m !! k = Some v → k ≠ "" ∧ v = marker) → kind_ok z NonEmpty m.
Proof. intros Hm k v Hk. by destruct (Hm _ _ Hk) as [? ->]. Qed.
Lemma did_not_empty did : ValidateDID did = Ok tt → did ≠ "".
Proof. by intros Hd ->. Qed.
Lemma bound_did did v : s_did_val st !! did = Some v → ValidateDID did = Ok tt.
Proof. intros (d & Hl & _)%(bo_backed _ Hbo). by eapply ro_dids. Qed.
Lemma did_val_kind z : kind_ok z validValoperValue (s_did_val st).
Proof.
  intros did v Hl. split; [by eapply did_not_empty, bound_did|]. destruct (so_did_val _ _ Hso _ _ Hl) as [a Ha].
  destruct (val_text _ _ Ha) as [_ Hlen]. split; [unfold MaxValueLen; lia|]. unfold validValoperValue. by rewrite Ha.
Qed.
Lemma did_length did : ValidateDID did = Ok tt → strlen did ≤ MaxValueLen.
Proof.
  unfold ValidateDID. intros ([] & _ & Hd)%obind_Ok. apply obind_Ok in Hd as ([] & Hd%err_if_Ok & _).
  apply Z.ltb_ge in Hd. unfold MaxDIDLen, MaxValueLen in *. lia.
Qed.
Lemma val_did_kind z : kind_ok z validDIDValue (s_val_did st).
Proof.
  intros v did Hl%(bo_paired _ Hbo). destruct (so_did_val _ _ Hso _ _ Hl) as [a [_ Ha]%val_text]. pose proof (bound_did _ _ Hl) as Hd.
  split_and!; [|by apply did_length|done]. intros ->. destruct Ha as [Ha _]. by vm_compute in Ha.
Qed.
Lemma elig_controller c b : s_elig st !! c = Some b → c ≠ "".
Proof.
  intros Hb. pose proof (ro_index _ Hro) as Hix. pose proof (ix_elig_dom _ Hix _ _ Hb) as Hn. pose proof (ix_elig _ Hix c Hn) as He.
  destruct (mi_records _ (ix_mirror _ Hix) _ _ Hb) as (o & s & Hd & _). rewrite Hb, Hd in He. cbn in He.
  pose proof (oldest_standing_spec (indexed_docs st c)) as Ho. rewrite <- He in Ho. destruct Ho as [(d & Hin & _) _].
  apply elem_of_indexed_docs in Hin as [Hl <-]; [|apply Hix..|done]. by destruct (ix_docs _ Hix _ _ Hl) as (_ & [? _] & _).
Qed.
Lemma elig_kind z : kind_ok z (OneOfLen [8; 16]) (s_elig st).
Proof.
  intros c b Hb. split; [by eapply elig_controller|]. destruct (mi_records _ (ix_mirror _ (ro_index _ Hro)) _ _ Hb) as (o & s & Hd & _).
  unfold DecodeControllerEligibility in Hd. unfold OneOfLen. cbn [existsb].
  destruct (Z.eqb_spec (strlen b) 8) as [->|]; [done|]. destruct (Z.eqb_spec (strlen b) 16) as [->|]; done.
Qed.
Lemma markers_accepted e : e ∈ exportMarkerEntries st → accepted storeEntryRules e.
Proof.
  unfold exportMarkerEntries. rewrite !elem_of_app. intros Hin.
  destruct Hin as [Hin|[Hin|[Hin|[Hin|[Hin|[Hin|Hin]]]]]]; (eapply kind_accepted; [..|exact Hin]); try lia.
  - apply nonce_kind, (so_inonce _ _ Hso).
  - apply list_elem_of_In. cbn. auto.
  - apply nonce_kind, (so_rnonce _ _ Hso).
  - apply list_elem_of_In. cbn. auto.
  - apply did_val_kind.
  - apply list_elem_of_In. cbn. auto.
  - apply val_did_kind.
  - apply list_elem_of_In. cbn. auto.
  - apply epoch_kind, (so_gepoch _ _ Hso).
  - apply list_elem_of_In. cbn. auto 10.
  - apply epoch_kind, (so_tepoch _ _ Hso).
  - apply list_elem_of_In. cbn. auto 10.
  - apply elig_kind.
  - apply list_elem_of_In. cbn. auto 10.
Qed.
Lemma kind_NoDup z m : NoDup (Key <$> export_kind z m).
Proof.
  assert (Key <$> export_kind z m = (λ k, key_prefix z +:+ k) <$> (KVStorePrefixIterator m "").*1) as ->
    by (change (export_kind z m) with (enc_marker z <$> KVStorePrefixIterator m ""); by rewrite <- !list_fmap_compose).
  apply NoDup_fmap_2_strong.
  - intros a b _ _ E. by apply str_app_inj_l in E.
  - apply Iterator_NoDup.
Qed.
Lemma kinds_disjoint z w m m' k : 0 ≤ z < 256 → 0 ≤ w < 256 → z ≠ w → k ∈ Key <$> export_kind z m → k ∉ Key <$> export_kind w m'.
Proof.
  intros Hz Hw Hne (e & -> & (kv & -> & _)%list_elem_of_fmap)%list_elem_of_fmap (e' & E & (kv' & -> & _)%list_elem_of_fmap)%list_elem_of_fmap.
  cbn [Key enc_marker] in E. apply Hne, Z.eqb_eq. rewrite <- (has_prefix_byte z w kv'.1) by done. rewrite <- E. apply has_prefix_app.
Qed.
Definition marker_kinds : list (Z * KVStore string) :=
  [(0x16, s_inonce st); (0x1A, s_rnonce st); (0x12, s_did_val st); (0x13, s_val_did st); (0x1E, s_gepoch st);
   (0x1F, s_tepoch st); (0x1B, s_elig st)].
Lemma markers_kinds : exportMarkerEntries st = concat (map (λ zm, export_kind zm.1 zm.2) marker_kinds).
Proof. unfold exportMarkerEntries. cbn [marker_kinds map concat fst snd]. by rewrite app_nil_r. Qed.
Lemma kinds_NoDup l : Forall (λ zm, 0 ≤ zm.1 < 256) l → NoDup l.*1 →
  NoDup (Key <$> concat (map (λ zm : Z * KVStore string, export_kind zm.1 zm.2) l)).
Proof.
  induction l as [|[z m] l IH]; intros Hl Hn; [constructor|]. cbn [map concat fst snd]. rewrite fmap_app.
  rewrite fmap_cons, NoDup_cons in Hn. destruct Hn as [Hn1 Hn2]. inversion_clear Hl as [|? ? Hz Hl'].
  apply NoDup_app. split_and!; [apply kind_NoDup| |by apply IH]. intros k Hk (e & -> & He)%list_elem_of_fmap.
  apply list_elem_of_In, in_concat in He as (x & Hx & He). apply in_map_iff in Hx as ([w m'] & <- & Hw). cbn [fst snd] in *.
  rewrite Forall_forall in Hl'. apply list_elem_of_In in Hw, He. eapply (kinds_disjoint z w m m'); [exact Hz|by apply (Hl' (w, m'))| |exact Hk|].
  - intros ->. apply Hn1. apply list_elem_of_fmap. by exists (w, m').
  - apply list_elem_of_fmap. eauto.
Qed.
Lemma markers_valid : Validate (exportMarkerEntries st) storeEntryRules = Ok tt.
Proof.
  apply validate_loop_spec; [by apply (bool_decide_unpack _)|]. split_and!; [|set_solver|apply markers_accepted].
  rewrite markers_kinds. apply kinds_NoDup; [repeat constructor; cbn; lia|by apply (bool_decide_unpack _)].
Qed.

(** the bindings read back are the two maps *)
Lemma kind_keys z m f : kind_ok z f m → ∀ kv, kv ∈ KVStorePrefixIterator m "" → kv.1 ≠ "".
Proof. intros Hk [k v] [Hl _]%elem_of_prefix_iterator. by destruct (Hk _ _ Hl) as [? _]. Qed.
Lemma markers_bindings : collect_bindings ∅ ∅ (exportMarkerEntries st) = Ok (s_did_val st, s_val_did st).
Proof.
  unfold exportMarkerEntries. change (export_kind) with (λ z m, enc_marker z <$> KVStorePrefixIterator m "").
  rewrite collect_app, collect_other by (lia || by eapply (kind_keys 0), nonce_kind, so_inonce). cbn [mbind outcome_bind].
  rewrite collect_app, collect_other by (lia || by eapply (kind_keys 0), nonce_kind, so_rnonce). cbn [mbind outcome_bind].
  rewrite collect_app, collect_dids; [|apply Iterator_NoDup|intros kv Hkv; split; [by eapply (kind_keys 0), Hkv; apply did_val_kind|done]].
  rewrite entries_rebuild. cbn [mbind outcome_bind].
  rewrite collect_app, collect_vals; [|apply Iterator_NoDup|intros kv Hkv; split; [by eapply (kind_keys 0), Hkv; apply val_did_kind|done]].
  rewrite entries_rebuild. cbn [mbind outcome_bind].
  rewrite collect_app, collect_other by (lia || by eapply (kind_keys 0), epoch_kind, so_gepoch). cbn [mbind outcome_bind].
  rewrite collect_app, collect_other by (lia || by eapply (kind_keys 0), epoch_kind, so_tepoch). cbn [mbind outcome_bind].
  rewrite collect_other by (lia || eapply (kind_keys 0), elig_kind). done.
Qed.
Lemma bindings_valid : check_bindings (status_map (IterateIdentities st)) (s_did_val st) (s_val_did st) = Ok tt.
Proof.
  unfold check_bindings. rewrite (ofold_unit _ (map_to_list (s_did_val st))); [cbn [mbind outcome_bind]; apply ofold_unit|].
  - intros [v did] Hl%elem_of_map_to_list. apply (bo_paired _ Hbo) in Hl. cbn [fst snd]. by rewrite Hl, bool_decide_eq_true_2.
  - intros [did v] Hl%elem_of_map_to_list. cbn [fst snd]. rewrite backed_not_terminated by by eapply bo_backed.
    apply (bo_paired _ Hbo) in Hl. by rewrite Hl, bool_decide_eq_true_2.
Qed.

Lemma exported_requests : importable st → validate_requests (GetParams st) (status_map (IterateIdentities st)) ∅ ∅ (IterateRecoveryRequests st) = Ok tt.
Proof.
  intros Him. apply validate_requests_ok.
  - intros r Hr%(elem_of_values rr_RecoveryId); [|apply requests_filed]. destruct (so_rec _ _ Hso _ _ Hr) as (_ & Hv & _ & [[]|Hb]).
    split; [apply check_request_ok; [done|by apply (rs_each _ Hrq) in Hr as []|by apply backed_not_terminated]|].
    apply check_body_ok; [done|by eapply im_window].
  - apply (values_NoDup rr_RecoveryId), requests_filed.
  - set_solver.
  - intros did. rewrite lookup_empty. cbn [default]. split; [lia|]. apply (im_open _ Him did).
Qed.
Lemma id_exported_valid : importable st → IdGenesis_Validate (Id_ExportGenesis st) = Ok tt.
Proof.
  intros Him. unfold IdGenesis_Validate, Id_ExportGenesis. cbn [idg_Params idg_Identities idg_IdentityCount idg_TrustedIssuers idg_StoreEntries idg_GuardianSets idg_RecoveryRequests].
  rewrite all_pending, (so_params _ _ Hso). cbn [mbind outcome_bind]. rewrite validate_identities_ok; [|..|set_solver].
  2: { intros d Hd%listed_doc. split_and!; [by eapply ro_dids|by eapply so_docs|by eapply ro_status]. }
  2: { apply (values_NoDup Did), docs_filed. }
  2: apply uniq_NoDup.
  cbn [mbind outcome_bind]. rewrite iterator_length_docs, (proj2 (Z.ltb_ge _ _)) by apply (so_count _ _ Hso). cbn [mbind outcome_bind err_if].
  rewrite validate_issuers_ok; [|..|set_solver].
  2: { intros ti Hti%(elem_of_values ti_Did); [|apply issuers_filed]. by apply (so_issuers _ _ Hso) in Hti as [_ ?]. }
  2: { apply (values_NoDup ti_Did), issuers_filed. }
  cbn [mbind outcome_bind]. rewrite markers_valid. cbn [mbind outcome_bind]. rewrite markers_bindings. cbn [mbind outcome_bind fst snd].
  rewrite bindings_valid. cbn [mbind outcome_bind]. rewrite validate_guardians_ok; [|..|set_solver].
  2: { intros g Hg%(elem_of_values gd_Did); [|apply guards_filed]. destruct (so_guard _ _ Hso _ _ Hg) as (_ & Hv & [[]|Hb]).
       split_and!; [done|by eapply im_guards|by apply backed_not_terminated]. }
  2: { apply (values_NoDup gd_Did), guards_filed. }
  cbn [mbind outcome_bind]. by apply exported_requests.
Qed.
End export.
