(* ===== verification/IdRebuild.v ===== *)
(** * x/identity: an import gives the exported store back

    Two stores with the same identities and right indexes have the same indexes, so writing
    the exported identities into an empty store rebuilds them; the since fields, which the
    rebuild sets to the time of the import, are restored from the exported records. *)
From stdpp Require Import base gmap strings list fin_maps sorting.
From Stdlib Require Import ZArith Lia Ascii.
From S2P Require Import Prelude GoInt KVStore StoreEntry Interfaces PhiDid IdTypes IdKeeper IdServer IdIndex IdElig IdInvariants IdSweep IdStep IdRequests IdHandlers IdReach IdChain IdGenesis IdRestore.

(** ** Maps written back *)
Section rebuild.
Context {A V : Type} (target : KVStore V) (f : A → string) (g : A → V).
Abbreviation put := (λ (m : KVStore V) a, <[f a := g a]> m).
Lemma fold_below l m : (∀ a, a ∈ l → target !! f a = Some (g a)) → m ⊆ target → foldl put m l ⊆ target.
Proof.
  revert m. induction l as [|a l IH]; intros m Hl Hm; [done|]. cbn [foldl]. apply IH; [intros; apply Hl; by right|].
  apply insert_subseteq_l; [apply Hl; left|done].
Qed.
Lemma fold_rebuild l m : (∀ a, a ∈ l → target !! f a = Some (g a)) → (∀ k v, target !! k = Some v → k ∈ f <$> l) →
  m ⊆ target → foldl put m l = target.
Proof.
  intros Hl Hk Hm. apply (anti_symm (⊆)); [by apply fold_below|]. apply map_subseteq_spec. intros k v Hv.
  specialize (Hk _ _ Hv). assert (is_Some (foldl put m l !! k)) as [w Hw].
  { clear Hl Hm. revert m. induction l as [|a l IH] using rev_ind; intros m; [by apply elem_of_nil in Hk|].
    rewrite foldl_app. cbn [foldl]. rewrite fmap_app in Hk. rewrite lookup_insert_is_Some'.
    apply elem_of_app in Hk as [Hk|Hk]; [right; by apply IH|left]. cbn in Hk. by apply list_elem_of_singleton in Hk. }
  rewrite Hw. eapply lookup_weaken in Hw; [|by apply (fold_below l m)]. congruence.
Qed.
End rebuild.
Lemma iterator_keys {V} (m : KVStore V) k v : m !! k = Some v → k ∈ fst <$> KVStorePrefixIterator m "".
Proof. intros Hk. apply list_elem_of_fmap. exists (k, v). split; [done|]. by apply elem_of_prefix_iterator. Qed.
Lemma elem_of_values_keys {V} (key : V → string) (m : KVStore V) k v : filed key m → m !! k = Some v → k ∈ key <$> values m.
Proof. intros Hf Hk. rewrite <- values_keys by done. by eapply iterator_keys. Qed.

(** ** The eligibility records written so far *)
Section stamps.
Context (ctx : Context) (P : Z → Prop).
Lemma stamped_insert m c o s : is_int64 o → is_int64 s → P s → stamped P m → stamped P (<[c := EncodeControllerEligibility o s]> m).
Proof. intros Ho Hs Hp Hm c' b [[<- <-]|[_ Hl]]%lookup_insert_Some; [by exists o, s|by eapply Hm]. Qed.
Lemma refresh_stamped c st : is_int64 (BlockTime ctx) → P (BlockTime ctx) →
  (∀ o, oldest_standing (indexed_docs st c) = Some o → is_int64 o) →
  stamped P (s_elig st) → stamped P (s_elig (refreshControllerEligibility ctx c st)).
Proof.
  intros Ht Hp Ho Hm. unfold refreshControllerEligibility.
  destruct (DecodeControllerEligibility (s_elig st !! c)) as [[po ps]|] eqn:Hd, (oldest_standing (indexed_docs st c)) as [o|].
  - assert (is_int64 ps ∧ P ps) as [? ?].
    { destruct (s_elig st !! c) as [b|] eqn:Hb; [|done]. destruct (Hm _ _ Hb) as (o' & s' & ? & ? & ? & ->).
      rewrite Decode_Encode in Hd by done. by injection Hd as <- <-. }
    case_match; [done|]. cbn [s_elig set_elig set_age]. apply stamped_insert; [by apply Ho|by case_match..|done].
  - intros c' b. cbn. intros [_ Hl]%lookup_delete_Some. by eapply Hm.
  - cbn. apply stamped_insert; [by apply Ho|done..].
  - done.
Qed.
Lemma refresh_both_stamped c st S : nul_free c → is_int64 (BlockTime ctx) → P (BlockTime ctx) → index_except S st →
  stamped P (s_elig st) → stamped P (s_elig (refresh_both ctx c st)).
Proof.
  intros Hn Ht Hp Hix Hm. unfold refresh_both. destruct (refresh_sweep_frame c (refreshControllerEligibility ctx c st)) as (w & ->).
  cbn [s_elig set_sweep]. apply refresh_stamped; [done..| |done]. intros o Ho. by eapply oldest_int64; [eapply ie_docs|eapply ie_ctrl|..].
Qed.
Lemma SetIdentity_stamped d st : is_int64 (BlockTime ctx) → P (BlockTime ctx) → controller_ok (Controller d) → is_int64 (CreatedAt d) →
  index_ok st → stamped P (s_elig st) → stamped P (s_elig (SetIdentity ctx d st)).
Proof.
  intros Ht Hp Hc Hd Hix Hm. pose proof (write_doc_index d st Hc Hd Hix) as Hw. rewrite SetIdentity_phases. cbv zeta.
  assert (stamped P (s_elig (write_doc d st))) as Hm1 by (by destruct (write_doc_frame d st) as (? & ->)).
  pose proof (refresh_both_stamped _ _ _ (proj2 Hc) Ht Hp Hw Hm1) as Hm2.
  case_bool_decide as Hpc; [done|]. eapply refresh_both_stamped; [|done|done|by apply refresh_both_index; [apply Hc|..]|done].
  unfold prev_controller in *. destruct (GetIdentity st (Did d)) as [prev|] eqn:E; [|done].
  case_bool_decide; [done|]. by destruct (ix_docs _ Hix _ _ E) as (_ & [_ ?] & _).
Qed.
End stamps.

(** ** The indexes are a function of the identities *)
Section unique.
Context (st st' : IdStore) (Hix : index_ok st) (Hix' : index_ok st') (Hdocs : s_docs st' = s_docs st).
Lemma same_ctrl : s_ctrl st' = s_ctrl st.
Proof.
  apply map_eq. intros k. assert (is_Some (s_ctrl st' !! k) ↔ is_Some (s_ctrl st !! k)) as Hi
    by (by rewrite (ix_ctrl _ Hix' k), (ix_ctrl _ Hix k), Hdocs).
  destruct (s_ctrl st' !! k) as [[]|], (s_ctrl st !! k) as [[]|]; [done| | |done]; destruct Hi as [H1 H2];
    [by destruct H1|by destruct H2].
Qed.
Lemma same_lists c : indexed_docs st' c = indexed_docs st c.
Proof. apply indexed_docs_ext; [apply same_ctrl|done]. Qed.
Lemma same_sweep : s_sweep st' = s_sweep st.
Proof.
  apply map_eq. intros c. destruct (s_sweep st' !! c) as [b|] eqn:Hb.
  - pose proof (ix_sweep_dom _ Hix' _ _ Hb) as Hn. by rewrite <- Hb, (ix_sweep _ Hix), (ix_sweep _ Hix'), same_lists.
  - destruct (s_sweep st !! c) as [b|] eqn:Hb'; [|done]. pose proof (ix_sweep_dom _ Hix _ _ Hb') as Hn.
    by rewrite <- Hb', <- Hb, (ix_sweep _ Hix), (ix_sweep _ Hix'), same_lists.
Qed.
Lemma same_oldest c : fst <$> DecodeControllerEligibility (s_elig st' !! c) = fst <$> DecodeControllerEligibility (s_elig st !! c).
Proof.
  destruct (s_elig st' !! c) as [b|] eqn:Hb.
  - pose proof (ix_elig_dom _ Hix' _ _ Hb) as Hn. by rewrite <- Hb, (ix_elig _ Hix), (ix_elig _ Hix'), same_lists.
  - destruct (s_elig st !! c) as [b|] eqn:Hb'; [|done]. pose proof (ix_elig_dom _ Hix _ _ Hb') as Hn.
    by rewrite <- Hb', <- Hb, (ix_elig _ Hix), (ix_elig _ Hix'), same_lists.
Qed.
Lemma same_holders c : is_Some (s_elig st' !! c) ↔ is_Some (s_elig st !! c).
Proof.
  assert (∀ s, index_ok s → is_Some (s_elig s !! c) ↔ is_Some (fst <$> DecodeControllerEligibility (s_elig s !! c))) as Hi.
  { intros s Hs. rewrite fmap_is_Some. destruct (s_elig s !! c) as [b|] eqn:Hb; [|by split; intros [? ?]].
    destruct (mi_records _ (ix_mirror _ Hs) _ _ Hb) as (? & ? & -> & _). split; by eexists. }
  by rewrite (Hi _ Hix), (Hi _ Hix'), same_oldest.
Qed.
Lemma same_age : s_age st' = s_age st.
Proof.
  assert (∀ s k, index_ok s → is_Some (s_age s !! k) ↔
    ∃ c o, fst <$> DecodeControllerEligibility (s_elig s !! c) = Some o ∧ k = EligibilityByAgeKey o c) as Hi.
  { intros s k Hs. rewrite (mi_age _ (ix_mirror _ Hs) k). split.
    - intros (c & o & x & E & ->). exists c, o. by rewrite E.
    - intros (c & o & ([o' x] & E & ->)%fmap_Some & ->). by exists c, o', x. }
  apply map_eq. intros k. assert (is_Some (s_age st' !! k) ↔ is_Some (s_age st !! k)) as Hk.
  { rewrite !Hi by done. split; intros (c & o & E & ->); exists c, o; (split; [|done]); by rewrite <- E, same_oldest. }
  destruct (s_age st' !! k) as [[]|], (s_age st !! k) as [[]|]; [done| | |done]; destruct Hk as [H1 H2]; [by destruct H1|by destruct H2].
Qed.
Lemma same_total : EligibleControllerTotal st' = EligibleControllerTotal st.
Proof.
  rewrite (mi_total _ (ix_mirror _ Hix)), (mi_total _ (ix_mirror _ Hix')). do 2 f_equal. rewrite <- !size_dom. f_equal.
  apply set_eq. intros c. rewrite !elem_of_dom. apply same_holders.
Qed.
End unique.

(** ** The import, kind by kind *)
Lemma store_eq a b : s_params a = s_params b → s_count a = s_count b → s_docs a = s_docs b → s_uniq a = s_uniq b →
  s_did_val a = s_did_val b → s_val_did a = s_val_did b → s_issuers a = s_issuers b → s_ctrl a = s_ctrl b →
  s_inonce a = s_inonce b → s_guard a = s_guard b → s_rec a = s_rec b → s_rec_did a = s_rec_did b → s_rnonce a = s_rnonce b →
  s_elig a = s_elig b → s_age a = s_age b → s_total a = s_total b → s_gepoch a = s_gepoch b → s_tepoch a = s_tepoch b →
  s_sweep a = s_sweep b → a = b.
Proof. destruct a, b. cbn. by intros -> -> -> -> -> -> -> -> -> -> -> -> -> -> -> -> -> -> ->. Qed.

Definition import_identities (ctx : Context) (l : list DIDDocument) (st : IdStore) : IdStore :=
  foldl (λ s d, import_identity ctx d s) st l.
Lemma identities_frame ctx l st : ∃ c e a t w, import_identities ctx l st =
  set_sweep (λ _, w) (set_total (λ _, t) (set_age (λ _, a) (set_elig (λ _, e) (set_ctrl (λ _, c)
    (set_uniq (λ m, foldl (λ m d, <[UniquenessHash d := Did d]> m) m l) (set_docs (λ m, foldl (λ m d, <[Did d := d]> m) m l) st)))))).
Proof.
  revert st. induction l as [|d l IH]; intros st; [by destruct st; eexists _, _, _, _, _|]. cbn [import_identities foldl].
  destruct (IH (import_identity ctx d st)) as (c & e & a & t & w & Hi). unfold import_identities in Hi. rewrite Hi. unfold import_identity.
  destruct (SetIdentity_frame ctx d st) as (c1 & e1 & a1 & t1 & w1 & ->). by exists c, e, a, t, w.
Qed.
Definition doc_fits (d : DIDDocument) : Prop := controller_ok (Controller d) ∧ is_int64 (CreatedAt d).
Lemma identities_index ctx l st : is_int64 (BlockTime ctx) → Forall doc_fits l →
  index_ok st → stamped (λ s, s = BlockTime ctx) (s_elig st) →
  index_ok (import_identities ctx l st) ∧ stamped (λ s, s = BlockTime ctx) (s_elig (import_identities ctx l st)).
Proof.
  intros Ht Hl. revert st. induction Hl as [|d l [Hc Hd] _ IH]; intros st Hix Hs; [done|]. apply IH.
  - apply (index_ok_same (SetIdentity ctx d st)); [by constructor|by apply SetIdentity_index].
  - change (s_elig (import_identity ctx d st)) with (s_elig (SetIdentity ctx d st)). by apply SetIdentity_stamped.
Qed.

Lemma issuers_fold l st : foldl (λ s ti, SetTrustedIssuer ti s) st l =
  set_issuers (λ m, foldl (λ m ti, <[ti_Did ti := ti]> m) m l) st.
Proof. revert st. induction l as [|x l IH]; intros st; [by destruct st|]. cbn [foldl]. by rewrite IH. Qed.
Lemma guards_fold l st : foldl (λ s g, SetGuardianSet g s) st l =
  set_guard (λ m, foldl (λ m g, <[gd_Did g := g]> m) m l) st.
Proof. revert st. induction l as [|x l IH]; intros st; [by destruct st|]. cbn [foldl]. by rewrite IH. Qed.
Lemma requests_fold l st : foldl (λ s r, import_request r s) st l =
  set_rnonce (λ m, foldl (λ m r, <[RecoveryNonceKey (rr_Did r) (rr_Nonce r) := marker]> m) m l)
  (set_rec_did (λ m, foldl (λ m r, <[RecoveryByDIDKey (rr_Did r) (rr_RecoveryId r) := tt]> m) m l)
  (set_rec (λ m, foldl (λ m r, <[rr_RecoveryId r := r]> m) m l) st)).
Proof. revert st. induction l as [|x l IH]; intros st; [by destruct st|]. cbn [foldl]. by rewrite IH. Qed.

(** *** Markers *)
Abbreviation write_all m l := (foldl (λ acc kv, <[kv.1 := kv.2]> acc) m l).
Section kinds.
Context (l : list (string * string)) (st : IdStore).
Abbreviation imported z := (foldl (λ s e, import_marker e s) st (enc_marker z <$> l)).
Lemma import_inonce : imported 0x16 = set_inonce (λ m, write_all m l) st.
Proof. revert st. induction l as [|x l' IH]; intros s; [by destruct s|]. cbn [fmap list_fmap foldl]. by rewrite IH. Qed.
Lemma import_rnonce : imported 0x1A = set_rnonce (λ m, write_all m l) st.
Proof. revert st. induction l as [|x l' IH]; intros s; [by destruct s|]. cbn [fmap list_fmap foldl]. by rewrite IH. Qed.
Lemma import_did_val : imported 0x12 = set_did_val (λ m, write_all m l) st.
Proof. revert st. induction l as [|x l' IH]; intros s; [by destruct s|]. cbn [fmap list_fmap foldl]. by rewrite IH. Qed.
Lemma import_val_did : imported 0x13 = set_val_did (λ m, write_all m l) st.
Proof. revert st. induction l as [|x l' IH]; intros s; [by destruct s|]. cbn [fmap list_fmap foldl]. by rewrite IH. Qed.
Lemma import_gepoch : imported 0x1E = set_gepoch (λ m, write_all m l) st.
Proof. revert st. induction l as [|x l' IH]; intros s; [by destruct s|]. cbn [fmap list_fmap foldl]. by rewrite IH. Qed.
Lemma import_tepoch : imported 0x1F = set_tepoch (λ m, write_all m l) st.
Proof. revert st. induction l as [|x l' IH]; intros s; [by destruct s|]. cbn [fmap list_fmap foldl]. by rewrite IH. Qed.
Lemma import_elig : imported 0x1B = st.
Proof. revert st. induction l as [|x l' IH]; intros s; [by destruct s|]. cbn [fmap list_fmap foldl]. by rewrite IH. Qed.
End kinds.
Lemma markers_import x st : foldl (λ s e, import_marker e s) st (exportMarkerEntries x) =
  set_tepoch (λ m, write_all m (KVStorePrefixIterator (s_tepoch x) "")) (set_gepoch (λ m, write_all m (KVStorePrefixIterator (s_gepoch x) ""))
  (set_val_did (λ m, write_all m (KVStorePrefixIterator (s_val_did x) "")) (set_did_val (λ m, write_all m (KVStorePrefixIterator (s_did_val x) ""))
  (set_rnonce (λ m, write_all m (KVStorePrefixIterator (s_rnonce x) "")) (set_inonce (λ m, write_all m (KVStorePrefixIterator (s_inonce x) "")) st))))).
Proof.
  unfold exportMarkerEntries. change export_kind with (λ z m, enc_marker z <$> KVStorePrefixIterator m "").
  by rewrite !foldl_app, import_elig, import_tepoch, import_gepoch, import_val_did, import_did_val, import_rnonce, import_inonce.
Qed.

(** *** The since fields *)
Definition since_of (b : string) (old : option string) : option string :=
  match DecodeControllerEligibility (Some b) with
  | Some (_, since) =>
      if since =? 0 then old else
      match DecodeControllerEligibility old with
      | Some (oldest, _) => Some (EncodeControllerEligibility oldest since)
      | None => old
      end
  | None => old
  end.
Definition put_since (m : KVStore string) (kv : string * string) : KVStore string := partial_alter (since_of kv.2) kv.1 m.
Lemma set_elig_id f st : f (s_elig st) = s_elig st → set_elig f st = st.
Proof. destruct st. unfold set_elig. cbn. by intros ->. Qed.
Lemma put_since_spec m kv : put_since m kv = partial_alter (λ _, since_of kv.2 (m !! kv.1)) kv.1 m.
Proof.
  apply map_eq. intros k. unfold put_since. destruct (decide (k = kv.1)) as [->|?].
  - by rewrite !lookup_partial_alter_eq.
  - by rewrite !lookup_partial_alter_ne.
Qed.
Lemma restore_one kv st : restore_since (enc_marker 0x1B kv) st = set_elig (λ m, put_since m kv) st.
Proof.
  unfold restore_since. change (Key (enc_marker 0x1B kv)) with (ControllerEligibilityPrefix +:+ kv.1).
  rewrite has_prefix_app, after_app. cbn [negb Value enc_marker]. pose proof (put_since_spec (s_elig st) kv) as Hp. revert Hp. unfold since_of.
  destruct (DecodeControllerEligibility (Some kv.2)) as [[o s]|]; [destruct (s =? 0)|]; [| |].
  - intros Hp. rewrite set_elig_id; [done|]. rewrite Hp. apply partial_alter_self.
  - destruct (DecodeControllerEligibility (s_elig st !! kv.1)) as [[o' s']|]; intros Hp.
    + unfold set_elig. cbn zeta. by rewrite Hp.
    + rewrite set_elig_id; [done|]. rewrite Hp. apply partial_alter_self.
  - intros Hp. rewrite set_elig_id; [done|]. rewrite Hp. apply partial_alter_self.
Qed.
Lemma restore_other z kv st : 0 ≤ z < 256 → z ≠ 0x1B → restore_since (enc_marker z kv) st = st.
Proof.
  intros Hz Hne. unfold restore_since. change (Key (enc_marker z kv)) with (key_prefix z +:+ kv.1).
  unfold ControllerEligibilityPrefix. rewrite has_prefix_byte by lia. by rewrite (proj2 (Z.eqb_neq _ _)) by lia.
Qed.
Lemma restore_others z l st : 0 ≤ z < 256 → z ≠ 0x1B → foldl (λ s e, restore_since e s) st (enc_marker z <$> l) = st.
Proof. intros Hz Hne. induction l as [|x l IH]; [done|]. cbn [fmap list_fmap foldl]. by rewrite restore_other, IH. Qed.
Lemma restore_elig l st : foldl (λ s e, restore_since e s) st (enc_marker 0x1B <$> l) = set_elig (λ m, foldl put_since m l) st.
Proof. revert st. induction l as [|x l IH]; intros st; [by destruct st|]. cbn [fmap list_fmap foldl]. by rewrite restore_one, IH. Qed.
Lemma restore_all x st : restoreEligibleSince (exportMarkerEntries x) st =
  set_elig (λ m, foldl put_since m (KVStorePrefixIterator (s_elig x) "")) st.
Proof.
  unfold restoreEligibleSince, exportMarkerEntries. change export_kind with (λ z m, enc_marker z <$> KVStorePrefixIterator m "").
  by rewrite !foldl_app, restore_elig, !restore_others by lia.
Qed.
Lemma put_since_lookup m l c : NoDup l.*1 →
  foldl put_since m l !! c = match list_find (λ kv, kv.1 = c) l with Some (_, kv) => since_of kv.2 (m !! c) | None => m !! c end.
Proof.
  revert m. induction l as [|kv l IH]; intros m; [done|]. rewrite fmap_cons, NoDup_cons. intros [Hn Hd]. cbn [foldl list_find].
  rewrite IH by done. case_decide as E.
  - subst c. rewrite (proj2 (list_find_None _ l)).
    + unfold put_since. by rewrite lookup_partial_alter_eq.
    + apply Forall_forall. intros x Hx E. apply Hn. rewrite <- E. apply list_elem_of_fmap; eauto.
  - unfold put_since. rewrite lookup_partial_alter_ne by done. by destruct (list_find _ l) as [[i x]|].
Qed.
(** records rebuilt with the time of the import, restored from the exported ones *)
Lemma restored_elig now m m' : stamped (λ s, s ≠ 0) m → stamped (λ s, s = now) m' → is_int64 now →
  (∀ c, fst <$> DecodeControllerEligibility (m' !! c) = fst <$> DecodeControllerEligibility (m !! c)) →
  foldl put_since m' (KVStorePrefixIterator m "") = m.
Proof.
  intros Hm Hm' Ht Hsame. apply map_eq. intros c. rewrite put_since_lookup by apply Iterator_NoDup. specialize (Hsame c).
  destruct (list_find _ _) as [[i [k b]]|] eqn:Hf.
  - apply list_find_Some in Hf as (Hi & Hk & _). cbn [fst snd] in *. subst k. apply list_elem_of_lookup_2 in Hi.
    apply elem_of_prefix_iterator in Hi as [Hb _]. rewrite Hb in Hsame |- *. destruct (Hm _ _ Hb) as (o & s & Ho & Hs & Hne & ->).
    rewrite Decode_Encode in Hsame by done. unfold since_of. rewrite Decode_Encode by done. apply Z.eqb_neq in Hne. rewrite Hne.
    cbn in Hsame. by destruct (DecodeControllerEligibility (m' !! c)) as [[o' s']|]; [injection Hsame as ->|].
  - apply list_find_None in Hf. assert (m !! c = None) as Hc.
    { apply eq_None_not_Some. intros [b Hb]. rewrite Forall_forall in Hf. apply (Hf (c, b)); [|done]. by apply elem_of_prefix_iterator. }
    rewrite Hc in Hsame |- *. destruct (m' !! c) as [b|] eqn:Hb; [|done]. destruct (Hm' _ _ Hb) as (o & s & Ho & Hs & _ & ->).
    by rewrite Decode_Encode in Hsame.
Qed.

(** ** The import of an export *)
Section import.
Context `{AddressCodec} `{ValCodecLaws} `{HasherLaws}.
Context (ctx : Context) (Ht : is_int64 (BlockTime ctx)).
Context (st : IdStore) (Hro : registry_ok st) (Hrq : requests_ok st) (Hbo : binds_ok st) (Hso : stored_ok st).

Definition founded : IdStore := set_params (λ _, Some (GetParams st)) empty_store.
Lemma founded_index : index_ok founded.
Proof.
  constructor; try done.
  - intros k. split; [by intros [? ?]|by intros (d & ? & _)].
  - constructor; [done| |done]. intros k. split; [by intros [? ?]|by intros (c & o & s & ? & _)].
Qed.
Lemma rebuilt_docs m : m ⊆ s_docs st → foldl (λ m d, <[Did d := d]> m) m (IterateIdentities st) = s_docs st.
Proof.
  intros Hm. apply fold_rebuild; [by intros d Hd%listed_doc| |done]. intros k v Hk. eapply (elem_of_values_keys Did); [by apply docs_filed|done].
Qed.
Lemma rebuilt_uniq : foldl (λ m d, <[UniquenessHash d := Did d]> m) ∅ (IterateIdentities st) = s_uniq st.
Proof.
  apply fold_rebuild; [| |apply map_empty_subseteq].
  - intros d Hd%listed_doc; [|done]. apply (ro_uniq _ Hro). eauto.
  - intros h did (d & Hd & <-)%(ro_uniq _ Hro). apply list_elem_of_fmap. exists d. split; [done|]. apply listed_doc; [done|].
    by rewrite (docs_filed _ Hro _ _ Hd).
Qed.
Lemma rebuilt_issuers : foldl (λ m ti, <[ti_Did ti := ti]> m) ∅ (IterateTrustedIssuers st) = s_issuers st.
Proof. apply (values_rebuild ti_Did), issuers_filed, Hso. Qed.
Lemma rebuilt_guards : foldl (λ m g, <[gd_Did g := g]> m) ∅ (IterateGuardians st) = s_guard st.
Proof. apply (values_rebuild gd_Did), guards_filed, Hso. Qed.
Lemma rebuilt_requests : foldl (λ m r, <[rr_RecoveryId r := r]> m) ∅ (IterateRecoveryRequests st) = s_rec st.
Proof. apply (values_rebuild rr_RecoveryId), requests_filed, Hso. Qed.
Lemma listed_request r : r ∈ IterateRecoveryRequests st ↔ s_rec st !! rr_RecoveryId r = Some r.
Proof. apply (elem_of_values rr_RecoveryId), requests_filed, Hso. Qed.
Lemma rebuilt_rec_did :
  foldl (λ m r, <[RecoveryByDIDKey (rr_Did r) (rr_RecoveryId r) := tt]> m) ∅ (IterateRecoveryRequests st) = s_rec_did st.
Proof.
  apply fold_rebuild; [| |apply map_empty_subseteq].
  - intros r Hr%listed_request. destruct (proj2 (rs_index _ Hrq (RecoveryByDIDKey (rr_Did r) (rr_RecoveryId r)))) as [[] ?]; eauto.
  - intros k u Hk. destruct (proj1 (rs_index _ Hrq k)) as (id & r & Hr & ->); [eauto|]. pose proof (requests_filed _ Hso _ _ Hr) as <-.
    apply list_elem_of_fmap. exists r. split; [done|]. by apply listed_request.
Qed.
Lemma rebuilt_kind (m m0 : KVStore string) : m0 ⊆ m → write_all m0 (KVStorePrefixIterator m "") = m.
Proof.
  intros Hm. apply (fold_rebuild m fst snd); [by intros [k v] [? _]%elem_of_prefix_iterator|apply iterator_keys|done].
Qed.
Lemma rebuilt_rnonce :
  write_all (foldl (λ m r, <[RecoveryNonceKey (rr_Did r) (rr_Nonce r) := marker]> m) ∅ (IterateRecoveryRequests st))
    (KVStorePrefixIterator (s_rnonce st) "") = s_rnonce st.
Proof.
  apply rebuilt_kind, fold_below; [|apply map_empty_subseteq]. intros r Hr%listed_request.
  destruct (so_rec _ _ Hso _ _ Hr) as (_ & _ & [v Hv] & _). by destruct (so_rnonce _ _ Hso _ _ Hv) as [_ ->].
Qed.

(** what validation leaves of the store: the parameters and the counters may become
    explicit *)
Definition explicit (t : option Z) : IdStore :=
  set_total (λ _, t) (set_count (λ _, Some (GetIdentityCount st)) (set_params (λ _, Some (GetParams st)) st)).
Lemma rebuild_identities : let s := import_identities ctx (IterateIdentities st) founded in
  index_ok s ∧ stamped (λ x, x = BlockTime ctx) (s_elig s) ∧ s_docs s = s_docs st ∧ s_uniq s = s_uniq st.
Proof.
  cbv zeta. destruct (identities_index ctx (IterateIdentities st) founded Ht) as [Hix Hs]; [|apply founded_index|done|].
  { apply Forall_forall. intros d Hd%listed_doc; [|done]. by destruct (ix_docs _ (ro_index _ Hro) _ _ Hd) as (_ & ? & ?). }
  split_and!; [done..| |]; destruct (identities_frame ctx (IterateIdentities st) founded) as (c & e & a & t & w & ->).
  - apply rebuilt_docs, map_empty_subseteq.
  - apply rebuilt_uniq.
Qed.
Lemma import_restores : importable st → ∃ t,
  Id_InitGenesis ctx (Id_ExportGenesis st) empty_store = (Ok tt, explicit t) ∧ default 0 t = EligibleControllerTotal st.
Proof.
  intros Him. destruct rebuild_identities as (Hix & Hst & Hd & Hu). exists (s_total (import_identities ctx (IterateIdentities st) founded)).
  split; [|by apply (same_total st _ (ro_index _ Hro) Hix Hd)].
  unfold Id_InitGenesis. erewrite run_bind by (unfold or_panic; rewrite id_exported_valid by done; reflexivity).
  cbn [Id_ExportGenesis idg_Params idg_Identities idg_IdentityCount idg_TrustedIssuers idg_StoreEntries idg_GuardianSets idg_RecoveryRequests].
  erewrite run_bind by (unfold or_panic, SetParams; rewrite (so_params _ _ Hso); reflexivity).
  do 4 erewrite run_bind by apply for_each_modify. erewrite run_bind by reflexivity. erewrite run_bind by apply for_each_modify.
  unfold modify. f_equal. rewrite restore_all, markers_import, all_pending, requests_fold, guards_fold, issuers_fold by done.
  change (foldl (λ s d, import_identity ctx d s) _ _) with (import_identities ctx (IterateIdentities st) founded).
  pose proof (ro_index _ Hro) as Hix0. destruct (identities_frame ctx (IterateIdentities st) founded) as (c & e & a & t & w & E).
  apply store_eq; cbn [s_params s_count s_docs s_uniq s_did_val s_val_did s_issuers s_ctrl s_inonce s_guard s_rec s_rec_did s_rnonce s_elig
    s_age s_total s_gepoch s_tepoch s_sweep set_params set_count set_did_val set_val_did set_issuers set_inonce set_guard set_rec
    set_rec_did set_rnonce set_elig set_total set_gepoch set_tepoch explicit SetIdentityCount].
  all: first [done | by rewrite E; cbn; apply rebuilt_kind, map_empty_subseteq | idtac].
  - by rewrite E.
  - by rewrite E; apply rebuilt_issuers.
  - by apply same_ctrl.
  - by rewrite E; apply rebuilt_guards.
  - by rewrite E; apply rebuilt_requests.
  - by rewrite E; apply rebuilt_rec_did.
  - by rewrite E; apply rebuilt_rnonce.
  - apply (restored_elig (BlockTime ctx)); [apply (so_elig _ _ Hso)|done|done|]. intros x. by apply same_oldest.
  - by apply same_age.
  - by apply same_sweep.
Qed.
End import.
