(* ===== verification/IdKept.v ===== *)
(** * x/identity: every step keeps the records importable in form

    [stored_ok] is an invariant of the chain: each of the thirteen messages, the block's
    sweep and the staking hooks keep it.  [checked_step] is [id_step] for clocks past the
    epoch and counters below their width. *)
From stdpp Require Import base gmap strings list fin_maps sorting relations.
From Stdlib Require Import ZArith Lia Ascii.
From S2P Require Import Prelude GoInt KVStore StoreEntry Interfaces PhiDid IdTypes IdKeeper IdServer IdIndex IdElig IdInvariants IdSweep IdStep IdRequests IdHandlers IdReach IdChain IdSafety IdGenesis IdRestore IdRebuild.

(** every record but the ones the goal changes *)
Ltac carry K := constructor;
  [first [exact (so_params _ _ K)|idtac]|first [exact (so_count _ _ K)|idtac]|first [exact (so_docs _ _ K)|idtac]|first [exact (so_issuers _ _ K)|idtac]|first [exact (so_inonce _ _ K)|idtac]|first [exact (so_rnonce _ _ K)|idtac]|first [exact (so_elig _ _ K)|idtac]|first [exact (so_did_val _ _ K)|idtac]|first [exact (so_gepoch _ _ K)|idtac]|first [exact (so_tepoch _ _ K)|idtac]|first [exact (so_guard _ _ K)|idtac]|first [exact (so_rec _ _ K)|idtac]].

(** ** Writes to the store *)
Section writes.
Context `{AddressCodec} `{ValCodec} `{HasherLaws}.
Context (X : string → Prop).
Abbreviation kept := (stored_except X).

(** a request that may be written *)
Definition writable (st : IdStore) (r : RecoveryRequest) : Prop :=
  request_valid r ∧ is_Some (s_rnonce st !! RecoveryNonceKey (rr_Did r) (rr_Nonce r)) ∧ (X (rr_Did r) ∨ backed st (rr_Did r)).

Ltac same_store := match goal with K : kept _ |- _ => carry K end.
Lemma NonceKey_ne a b : a +:+ String (ascii_of_nat 0) b ≠ "".
Proof. by destruct a. Qed.
Lemma kept_inonce i n st : kept st → kept (markIssuerNonce i n st).
Proof.
  intros K. same_store. intros k v. cbn [s_inonce markIssuerNonce set_inonce]. intros [[<- <-]|[_ Hl]]%lookup_insert_Some; [|by destruct K; eauto].
  split; [|done]. unfold IssuerNonceKey. by destruct i.
Qed.
Lemma kept_rnonce did n st : kept st → kept (markRecoveryNonce did n st).
Proof.
  intros K. same_store.
  - intros k v. cbn [s_rnonce markRecoveryNonce set_rnonce]. intros [[<- <-]|[_ Hl]]%lookup_insert_Some; [|by destruct K; eauto].
    split; [|done]. unfold RecoveryNonceKey. by destruct did.
  - intros id r Hl. destruct ((so_rec _ _ K) _ _ Hl) as (? & ? & ? & ?). split_and!; [done|done| |done].
    cbn [s_rnonce markRecoveryNonce set_rnonce]. rewrite lookup_insert_is_Some'. by right.
Qed.
Lemma kept_uniq h did st : kept st → kept (setUniqueness h did st).
Proof. intros K. same_store. Qed.
Lemma kept_params p st : Params_Validate p = Ok tt → kept st → kept (set_params (λ _, Some p) st).
Proof. intros Hp K. same_store. exact Hp. Qed.
Lemma kept_issuer ti st : issuer_valid ti → kept st → kept (SetTrustedIssuer ti st).
Proof.
  intros Hti K. same_store. intros did x. cbn [s_issuers SetTrustedIssuer set_issuers].
  intros [[<- <-]|[_ Hl]]%lookup_insert_Some; [done|by destruct K; eauto].
Qed.
Lemma kept_guard gs st : ValidateGuardianSetBasic (gd_Did gs) (gd_Commitments gs) (gd_Threshold gs) = Ok tt →
  X (gd_Did gs) ∨ backed st (gd_Did gs) → kept st → kept (SetGuardianSet gs st).
Proof.
  intros Hv Hb K. same_store. intros did x. cbn [s_guard SetGuardianSet set_guard].
  intros [[<- <-]|[_ Hl]]%lookup_insert_Some; [done|by apply (so_guard _ _ K)].
Qed.
Lemma kept_unguard did st : kept st → kept (DeleteGuardianSet did st).
Proof. intros K. same_store. intros x gs. cbn [s_guard DeleteGuardianSet set_guard]. intros [_ Hl]%lookup_delete_Some. by apply (so_guard _ _ K). Qed.
Lemma kept_request r st : writable st r → kept st → kept (SetRecoveryRequest r st).
Proof.
  intros (Hv & Hn & Hb) K. same_store. intros id x. cbn [s_rec SetRecoveryRequest set_rec_did set_rec].
  intros [[<- <-]|[_ Hl]]%lookup_insert_Some; [done|by apply (so_rec _ _ K)].
Qed.
Lemma kept_delete r st : kept st → kept (deleteRecoveryRequest r st).
Proof.
  intros K. same_store.
  - intros id b. change (s_tepoch (deleteRecoveryRequest r st)) with (delete (rr_RecoveryId r) (s_tepoch st)).
    intros [_ Hl]%lookup_delete_Some. destruct K; eauto.
  - intros id x. change (s_rec (deleteRecoveryRequest r st)) with (delete (rr_RecoveryId r) (s_rec st)).
    intros [_ Hl]%lookup_delete_Some. by apply (so_rec _ _ K).
Qed.
Lemma epoch_decode e : 0 ≤ e < 2 ^ 64 → decodeEpoch (Some (encodeEpoch e)) = e.
Proof.
  intros He. unfold decodeEpoch, encodeEpoch. rewrite strlen_be64. change (8 =? 8) with true. cbv iota.
  rewrite BigEndian_be64. by apply u64_id.
Qed.
Lemma guardian_epoch_range st did : kept st → 0 ≤ GuardianEpoch st did < 2 ^ 64 - 1.
Proof.
  intros K. unfold GuardianEpoch. destruct (s_gepoch st !! did) as [b|] eqn:Hb; [|cbn; lia].
  destruct (so_gepoch _ _ K _ _ Hb) as (_ & e & He & ->). rewrite epoch_decode by lia. done.
Qed.
Lemma kept_bump did st : did ≠ "" → GuardianEpoch st did < 2 ^ 64 - 2 → kept st → kept (bumpGuardianEpoch did st).
Proof.
  intros Hd He K. pose proof (guardian_epoch_range st did K) as Hr. unfold bumpGuardianEpoch. case_match; [done|].
  same_store. intros x b. cbn [s_gepoch set_gepoch]. intros [[<- <-]|[_ Hl]]%lookup_insert_Some; [|by destruct K; eauto].
  split; [done|]. exists (GuardianEpoch st did + 1). split; [lia|done].
Qed.
Lemma kept_tally id e st : id ≠ "" → 0 ≤ e < 2 ^ 64 - 1 → kept st → kept (setRecoveryTallyEpoch id e st).
Proof.
  intros Hd He K. same_store. intros x b. cbn [s_tepoch setRecoveryTallyEpoch set_tepoch].
  intros [[<- <-]|[_ Hl]]%lookup_insert_Some; [|by destruct K; eauto]. split; [done|by exists e].
Qed.
Lemma kept_bind did v st : is_Some (ValAddressFromBech32 v) → kept st → kept (BindValidatorToDID did v st).
Proof.
  intros Hv K. same_store. intros x w. cbn [s_did_val BindValidatorToDID set_val_did set_did_val].
  intros [[<- <-]|[_ Hl]]%lookup_insert_Some; destruct K; eauto.
Qed.
Lemma kept_unbind v st : kept st → kept (UnbindValidator v st).
Proof.
  intros K. unfold UnbindValidator. case_match; same_store. intros x w. cbn [s_did_val set_val_did set_did_val].
  intros [_ Hl]%lookup_delete_Some. destruct K; eauto.
Qed.

(** the write of an identity, with the count it leaves *)
Record same_rest (st st' : IdStore) : Prop := {
  sr_params : s_params st' = s_params st; sr_issuers : s_issuers st' = s_issuers st; sr_inonce : s_inonce st' = s_inonce st;
  sr_rnonce : s_rnonce st' = s_rnonce st; sr_did_val : s_did_val st' = s_did_val st; sr_gepoch : s_gepoch st' = s_gepoch st;
  sr_tepoch : s_tepoch st' = s_tepoch st; sr_guard : s_guard st' = s_guard st; sr_rec : s_rec st' = s_rec st;
  sr_count : s_count st' = s_count st }.
Lemma SetIdentity_rest ctx d st : same_rest st (SetIdentity ctx d st).
Proof. destruct (SetIdentity_frame ctx d st) as (c1 & e1 & a1 & t1 & w1 & ->). by constructor. Qed.
Lemma kept_identity_count ctx d c st : is_int64 (BlockTime ctx) → BlockTime ctx ≠ 0 → index_ok st →
  controller_ok (Controller d) → is_int64 (CreatedAt d) → doc_valid d → Status d ≠ DID_STATUS_REVOKED ∨ X (Did d) →
  Z.of_nat (size (<[Did d := d]> (s_docs st))) ≤ default 0 c →
  kept st → kept (set_count (λ _, c) (SetIdentity ctx d st)).
Proof.
  intros Ht Hne Hix Hc Hd Hv Hs Hsz K. pose proof (SetIdentity_docs ctx d st) as Hdocs.
  pose proof (SetIdentity_stamped ctx (λ s, s ≠ 0) d st Ht Hne Hc Hd Hix (so_elig _ _ K)) as Hst.
  destruct (SetIdentity_rest ctx d st) as [E1 E2 E3 E4 E5 E6 E7 E8 E9 _]. revert Hdocs Hst E1 E2 E3 E4 E5 E6 E7 E8 E9.
  generalize (SetIdentity ctx d st). intros S Hdocs Hst E1 E2 E3 E4 E5 E6 E7 E8 E9.
  assert (∀ x, X x ∨ backed st x → X x ∨ backed (set_count (λ _, c) S) x) as Hbk.
  { intros x [?|(y & Hl & Hy)]; [by left|]. unfold backed. cbn [s_docs set_count]. rewrite Hdocs. destruct (decide (x = Did d)) as [->|Hnd].
    - destruct Hs as [Hs|?]; [right|by left]. exists d. by rewrite lookup_insert_eq.
    - right. exists y. by rewrite lookup_insert_ne. }
  constructor; unfold GetParams; cbn [s_params s_docs s_issuers s_inonce s_rnonce s_elig s_did_val s_gepoch s_tepoch s_guard s_rec set_count];
    rewrite ?E1, ?E2, ?E3, ?E4, ?E5, ?E6, ?E7, ?E8, ?E9, ?Hdocs.
  - exact (so_params _ _ K).
  - exact Hsz.
  - intros did x [[<- <-]|[_ Hl]]%lookup_insert_Some; [done|by eapply so_docs].
  - exact (so_issuers _ _ K).
  - exact (so_inonce _ _ K).
  - exact (so_rnonce _ _ K).
  - exact Hst.
  - exact (so_did_val _ _ K).
  - exact (so_gepoch _ _ K).
  - exact (so_tepoch _ _ K).
  - intros did gs Hl. destruct (so_guard _ _ K did gs Hl) as (? & ? & ?). split_and!; [done..|by apply Hbk].
  - intros id r Hl. destruct (so_rec _ _ K id r Hl) as (? & ? & ? & ?). split_and!; [done..|by apply Hbk].
Qed.
Lemma kept_update ctx d st : is_int64 (BlockTime ctx) → BlockTime ctx ≠ 0 → index_ok st →
  controller_ok (Controller d) → is_int64 (CreatedAt d) → doc_valid d → Status d ≠ DID_STATUS_REVOKED ∨ X (Did d) →
  is_Some (s_docs st !! Did d) → kept st → kept (SetIdentity ctx d st).
Proof.
  intros Ht Hne Hix Hc Hd Hv Hs [y Hy] K. assert (SetIdentity ctx d st = set_count (λ _, s_count st) (SetIdentity ctx d st)) as ->
    by (by destruct (SetIdentity_frame ctx d st) as (? & ? & ? & ? & ? & ->)).
  apply kept_identity_count; try done. rewrite map_size_insert_Some by eauto. apply (so_count _ _ K).
Qed.
End writes.

(** ** Computations that keep the records *)
Section handlers.
Context {B : Type} `{BankLaws B} `{AddressText} `{ValCodec} `{HasherLaws} `{Verifier}.
Context (authority : string) (reauth : bool).
Abbreviation St := (IdState B).

Definition holds {A} (X : string → Prop) (m : M St A) : Prop :=
  ∀ s a s', stored_except X (id_store s) → m s = (Ok a, s') → stored_except X (id_store s').
Lemma holds_ret {A} X (a : A) : holds X (mret a).
Proof. by intros s a' s' K [= _ <-]. Qed.
Lemma holds_bind {A C} X (m : M St A) (f : A → M St C) : holds X m → (∀ a, holds X (f a)) → holds X (m ≫= f).
Proof. intros Hm Hf s c s' K (a & s1 & Hr1 & Hr2)%bind_Ok. eapply Hf; [|exact Hr2]. by eapply Hm. Qed.
Lemma holds_still {A} X (m : M St A) : (∀ s a s', m s = (Ok a, s') → id_store s' = id_store s) → holds X m.
Proof. intros Hm s a s' K Hr. by rewrite (Hm _ _ _ Hr). Qed.
Lemma holds_look {A} X (f : IdStore → A) : holds X (look f).
Proof. apply holds_still. by intros s a s' [_ ->]%look_run. Qed.
Lemma holds_check X f : holds X (check f).
Proof. apply holds_still. by intros s a s' [_ ->]%check_run. Qed.
Lemma holds_query {A} X (f : St → outcome A) : holds X (query f).
Proof. apply holds_still. by intros s a s' [= _ <-]. Qed.
Lemma holds_fail_if X b e : holds X (fail_if b e).
Proof. apply holds_still. by intros s a s' [_ <-]%fail_if_Ok. Qed.
Lemma holds_or_fail {A} X (x : option A) e : holds X (or_fail x e).
Proof. apply holds_still. by intros s a s' [_ <-]%or_fail_Ok. Qed.
Lemma holds_lift {A} X (x : outcome A) : holds X (lift x).
Proof. apply holds_still. by intros s a s' [_ <-]%lift_Ok. Qed.
Lemma holds_emit X ty l : holds X (EmitEvent ty l).
Proof. apply holds_still. by intros s a s' ->%emit_run. Qed.
Lemma holds_bank {A} X (m : M B A) : holds X (on_bank m).
Proof. apply holds_still. intros s a s'. unfold on_bank, zoom. destruct (m (id_bank s)). by intros [= _ <-]. Qed.
Lemma holds_write X f : (∀ st, stored_except X st → stored_except X (f st)) → holds X (write f).
Proof. intros Hf s a s' K ->%write_run. by apply Hf. Qed.
Lemma holds_params X p : holds X (on_store (SetParams p)).
Proof.
  intros s a s' K. unfold on_store, zoom, SetParams. destruct (Params_Validate p) as [[]| |] eqn:E; intros [= _ <-].
  cbn [id_store]. by apply kept_params.
Qed.
Create HintDb holds.
#[local] Hint Resolve holds_ret holds_look holds_check holds_query holds_fail_if holds_or_fail holds_lift holds_emit holds_bank holds_params : holds.
#[local] Hint Resolve kept_delete kept_inonce kept_uniq kept_unguard kept_unbind : holds.
Ltac holds_step :=
  first
  [ solve [auto with holds]
  | apply holds_bind; [|intros ?]
  | apply holds_write; solve [auto with holds]
  | match goal with |- holds _ (if ?b then _ else _) => destruct b end
  | match goal with |- holds _ (match ?o with _ => _ end) => destruct o end ].
Ltac holds_go := repeat holds_step.

Lemma holds_for_each {A} X (l : list A) (f : A → M St unit) : (∀ a, holds X (f a)) → holds X (for_each l f).
Proof. intros Hf. induction l as [|a l IH]; cbn [for_each]; [apply holds_ret|]. by apply holds_bind. Qed.
Lemma holds_forfeit X r : holds X (forfeitDeposit r).
Proof. unfold forfeitDeposit. holds_go. Qed.
Lemma holds_refund X r : holds X (refundDeposit r).
Proof. unfold refundDeposit. holds_go. Qed.
#[local] Hint Resolve holds_forfeit holds_refund : holds.
Lemma holds_supersede X did r : holds X (supersede did r).
Proof. unfold supersede, recovery_event. holds_go. Qed.
Lemma holds_reap X ctx r : holds X (reapIfExpired ctx r).
Proof. unfold reapIfExpired, recovery_event. holds_go. Qed.
#[local] Hint Resolve holds_supersede holds_reap : holds.
Lemma holds_terminate X did : holds X (terminateRecoveryRequestsForDID did).
Proof. unfold terminateRecoveryRequestsForDID. apply holds_bind; [auto with holds|]. intros rs. apply holds_for_each. intros r. holds_go. Qed.
Lemma holds_siblings X did id : holds X (supersedeSiblings did id).
Proof. unfold supersedeSiblings. apply holds_bind; [auto with holds|]. intros rs. apply holds_for_each. intros r. holds_go. Qed.
Lemma holds_count X ctx did : holds X (countOpenRequests ctx did).
Proof.
  unfold countOpenRequests. apply holds_bind; [auto with holds|]. intros rs. generalize 0 as n.
  induction rs as [|r rs IH]; intros n; cbn [count_open]; [auto with holds|]. apply holds_bind; [auto with holds|]. intros b. apply IH.
Qed.
Lemma holds_identity X did : holds X (the_identity did).
Proof. unfold the_identity. holds_go. Qed.
#[local] Hint Resolve holds_terminate holds_siblings holds_count holds_identity : holds.

(** requests rewritten with another window *)
Lemma window_valid r a e f : request_valid r → request_valid (with_window r a e f).
Proof. intros []. by constructor. Qed.
Lemma writable_window X st r a e f : writable X st r → writable X st (with_window r a e f).
Proof. intros (? & ? & ?). split_and!; [by apply window_valid|done..]. Qed.
Lemma listed_writable X st did r : stored_except X st → r ∈ RecoveryRequestsForDID st did → writable X st r.
Proof.
  intros K (kv & _ & Hl)%list_elem_of_omap. unfold GetRecoveryRequest in Hl. by destruct (so_rec _ _ K _ _ Hl) as (_ & ?).
Qed.
Lemma holds_thaw X ctx did : holds X (thawRecoveries ctx did).
Proof.
  intros s a s' K. unfold thawRecoveries. intros (ttl & s1 & [_ ->]%look_run & Hr)%bind_Ok.
  apply bind_Ok in Hr as (rs & s1 & [-> ->]%look_run & Hr).
  assert (∀ r, r ∈ RecoveryRequestsForDID (id_store s) did → writable X (id_store s) r) as Hw by (intros; by eapply listed_writable).
  revert K Hw Hr. generalize (RecoveryRequestsForDID (id_store s) did) as rs. intros rs. revert s. induction rs as [|r rs IH]; intros s K Hw; cbn [for_each].
  { by intros [= _ <-]. }
  intros ([] & s1 & Hr & Hrest)%bind_Ok. destruct (_ || _).
  { injection Hr as <-. eapply IH; [exact K| |exact Hrest]. intros x Hx. apply Hw. by right. }
  apply bind_Ok in Hr as ([] & s2 & ->%write_run & ->%emit_run). eapply IH; [| |exact Hrest]; cbn [id_store].
  - apply kept_request; [|done]. apply writable_window, Hw. left.
  - intros x Hx. apply Hw. by right.
Qed.
Lemma kept_freeze X ctx did st : stored_except X st → stored_except X (freezeLiveRecoveries ctx did st).
Proof.
  intros K. unfold freezeLiveRecoveries.
  assert (∀ r, r ∈ RecoveryRequestsForDID st did → writable X st r) as Hw by (intros; by eapply listed_writable).
  revert K Hw. generalize (RecoveryRequestsForDID st did) as rs. intros rs. revert st. induction rs as [|r rs IH]; intros st K Hw; [done|].
  cbn [foldl]. apply IH; unfold freeze_one; repeat case_match; try done.
  all: try (intros x Hx; apply Hw; by right). apply kept_request; [|done]. apply writable_window, Hw. left.
Qed.
#[local] Hint Resolve holds_thaw kept_freeze : holds.

(** ** The messages *)
Section messages.
Context (ctx : Context) (Ht : is_int64 (BlockTime ctx)) (Hne : BlockTime ctx ≠ 0).
Lemma address_bech32 s u : check_address s = Ok u → is_bech32 s = true.
Proof. unfold check_address. intros Hc. go_inv. by bool_prop. Qed.
Lemma stored_doc X st did d : registry_ok st → stored_except X st → s_docs st !! did = Some d →
  Did d = did ∧ did ≠ "" ∧ controller_ok (Controller d) ∧ is_int64 (CreatedAt d) ∧ doc_valid d.
Proof.
  intros Hro K Hl. destruct (ix_docs _ (ro_index _ Hro) _ _ Hl) as (E & Hc & Hd). split_and!; try done; [|by eapply so_docs].
  pose proof (ro_dids _ Hro _ _ Hl) as Hv. by intros ->.
Qed.
(** an identity the store holds, rewritten *)
Lemma kept_rewrite X st did d d' : registry_ok st → stored_except X st → s_docs st !! did = Some d → Did d' = Did d →
  CreatedAt d' = CreatedAt d → controller_ok (Controller d') → doc_valid d' → Status d' ≠ DID_STATUS_REVOKED ∨ X did →
  stored_except X (SetIdentity ctx d' st).
Proof.
  intros Hro K Hl Hd Hc Hco Hv Hs. destruct (stored_doc _ _ _ _ Hro K Hl) as (E & _ & _ & Hi & _). subst did.
  apply kept_update; try done; [apply Hro|by rewrite Hc|by rewrite Hd|by rewrite Hd].
Qed.

Lemma kept_Register m (s s' : St) : MsgRegisterIdentity_ValidateBasic m = Ok tt → GetIdentityCount (id_store s) < 2 ^ 64 - 1 →
  registry_ok (id_store s) → stored_ok (id_store s) → RegisterIdentity ctx m s = (Ok tt, s') → stored_ok (id_store s').
Proof.
  intros Hv Hcnt Hro K. unfold MsgRegisterIdentity_ValidateBasic in Hv. apply obind_Ok in Hv as ([] & Hc & Hv).
  apply obind_Ok in Hv as ([] & _ & Hv). apply obind_Ok in Hv as ([] & Hk%err_if_Ok & Hv). apply obind_Ok in Hv as ([] & Hu%err_if_Ok & Hv).
  apply obind_Ok in Hv as ([] & _ & Hv). do 3 apply obind_Ok in Hv as ([] & _ & Hv). apply obind_Ok in Hv as (cv & Hcv%or_err_Ok & _).
  unfold RegisterIdentity. intros (ex & s1 & [-> ->]%look_run & Hr)%bind_Ok. apply bind_Ok in Hr as ([] & s1 & [Hex <-]%fail_if_Ok & Hr).
  apply bind_Ok in Hr as (us & s1 & [-> ->]%look_run & Hr). apply bind_Ok in Hr as ([] & s1 & [Hus <-]%fail_if_Ok & Hr).
  apply bind_Ok in Hr as (u & s1 & [_ ->]%check_run & Hr). cbv zeta in Hr. set (d := mkDoc _ _ _ _ _ _ _) in Hr.
  do 3 apply bind_Ok in Hr as ([] & s1 & ->%write_run & Hr). apply bind_Ok in Hr as (n & s1 & [-> ->]%look_run & Hr).
  apply bind_Ok in Hr as ([] & s1 & ->%write_run & Hr). cbn [id_bank id_store id_events] in Hr.
  assert (HasIdentity (id_store s) (reg_Did m) = false) as Hno by done. unfold HasIdentity in Hno. bool_prop.
  match type of Hr with _ (mkIdState _ ?x _) = _ => set (st1 := x) in Hr end.
  assert (stored_ok st1) as K1; [|revert Hr; apply (holds_bind (λ _, False)); [auto with holds|intros p; holds_go|exact K1]].
  unfold st1. set (c := u64 _).
  change (stored_ok (markIssuerNonce (reg_IssuerDid m) (reg_Nonce m) (setUniqueness (reg_UniquenessHash m) (reg_Did m) (set_count (λ _, Some c) (SetIdentity ctx d (id_store s)))))).
  apply kept_inonce, kept_uniq, kept_identity_count; [done|done|apply Hro|by eapply check_address_ok|done| |by left|..|done].
  - constructor; [done|by eapply address_bech32|by exists cv|done].
  - assert (c = GetIdentityCount (id_store s) + 1) as ->.
    { change c with (u64 (GetIdentityCount (SetIdentity ctx d (id_store s)) + 1)). unfold GetIdentityCount.
      rewrite (sr_count _ _ (SetIdentity_rest ctx d (id_store s))). apply u64_id. pose proof (so_count _ _ K). unfold GetIdentityCount in *. lia. }
    cbn [default]. rewrite map_size_insert_None by (by apply eq_None_not_Some). pose proof (so_count _ _ K). cbn. lia.
Qed.
Lemma kept_Rotate m (s s' : St) : MsgRotateIdentityKey_ValidateBasic m = Ok tt →
  registry_ok (id_store s) → stored_ok (id_store s) → RotateIdentityKey ctx m s = (Ok tt, s') → stored_ok (id_store s').
Proof.
  intros Hv Hro K. unfold MsgRotateIdentityKey_ValidateBasic in Hv. do 2 apply obind_Ok in Hv as ([] & _ & Hv).
  apply obind_Ok in Hv as ([] & Hk%err_if_Ok & _). unfold RotateIdentityKey. intros (doc & s1 & [-> Hl]%identity_run & Hr)%bind_Ok.
  apply bind_Ok in Hr as ([] & s1 & [_ <-]%fail_if_Ok & Hr). apply bind_Ok in Hr as ([] & s1 & [Hst <-]%fail_if_Ok & Hr).
  apply bind_Ok in Hr as (c & s1 & [_ <-]%or_fail_Ok & Hr). apply bind_Ok in Hr as ([] & s1 & [_ <-]%fail_if_Ok & Hr).
  apply bind_Ok in Hr as (dv & s1 & [_ <-]%or_fail_Ok & Hr). apply bind_Ok in Hr as (tk & s1 & [-> ->]%look_run & Hr).
  apply bind_Ok in Hr as ([] & s1 & [_ <-]%fail_if_Ok & Hr). apply bind_Ok in Hr as ([] & s1 & ->%write_run & ->%emit_run).
  bool_prop. cbn [id_store]. destruct (stored_doc _ _ _ _ Hro K Hl) as (_ & _ & Hc & _ & [_ V2 V3 V4]).
  apply (kept_rewrite _ _ _ doc _ Hro K Hl); [done..|by constructor|]. left. cbn. by rewrite Hst.
Qed.
Lemma kept_UpdateStatus m (s s' : St) : registry_ok (id_store s) → stored_ok (id_store s) →
  UpdateStatus authority ctx m s = (Ok tt, s') → stored_ok (id_store s').
Proof.
  intros Hro K. unfold UpdateStatus. intros ([] & s1 & [_ <-]%fail_if_Ok & Hr)%bind_Ok.
  apply bind_Ok in Hr as ([] & s1 & [Hset <-]%fail_if_Ok & Hr). apply bind_Ok in Hr as (doc & s1 & [-> Hl]%identity_run & Hr).
  apply bind_Ok in Hr as ([] & s1 & [Hst <-]%fail_if_Ok & Hr). apply bind_Ok in Hr as ([] & s1 & [_ <-]%fail_if_Ok & Hr).
  apply bind_Ok in Hr as ([] & s1 & ->%write_run & Hr). bool_prop. destruct (settable_status _ Hset) as [_ Hnr].
  destruct (stored_doc _ _ _ _ Hro K Hl) as (_ & _ & Hc & _ & [V1 V2 V3 V4]).
  revert Hr. apply (holds_bind (λ _, False)); [holds_go|intros; auto with holds|].
  apply (kept_rewrite _ _ _ doc _ Hro K Hl); [done..|by constructor|by left].
Qed.
Lemma kept_SetGuardians m (s s' : St) : GuardianEpoch (id_store s) (sg_Did m) < 2 ^ 64 - 2 → registry_ok (id_store s) → stored_ok (id_store s) →
  SetGuardians ctx m s = (Ok tt, s') → stored_ok (id_store s').
Proof.
  intros Hep Hro K. unfold SetGuardians. intros (doc & s1 & [-> Hl]%identity_run & Hr)%bind_Ok.
  apply bind_Ok in Hr as ([] & s1 & [_ <-]%fail_if_Ok & Hr). apply bind_Ok in Hr as ([] & s1 & [Hst <-]%fail_if_Ok & Hr).
  apply bind_Ok in Hr as ([] & s1 & [Hv <-]%lift_Ok & Hr). apply bind_Ok in Hr as (u' & s1 & [_ ->]%check_run & Hr).
  apply bind_Ok in Hr as ([] & s1 & ->%write_run & Hr). apply bind_Ok in Hr as ([] & s1 & ->%write_run & ->%emit_run).
  cbn [id_store]. bool_prop. destruct (stored_doc _ _ _ _ Hro K Hl) as (_ & Hd & _). apply kept_bump; [done|done|].
  apply kept_guard; [done| |done]. right. exists doc. split; [done|]. by rewrite Hst.
Qed.
Lemma kept_UpdateParams m (s s' : St) : stored_ok (id_store s) → UpdateParams authority m s = (Ok tt, s') → stored_ok (id_store s').
Proof. intros K. unfold UpdateParams. apply (holds_bind (λ _, False)); [auto with holds|intros; auto with holds|done]. Qed.
Lemma kept_RegisterIssuer m (s s' : St) : MsgRegisterTrustedIssuer_ValidateBasic m = Ok tt → stored_ok (id_store s) →
  RegisterTrustedIssuer authority m s = (Ok tt, s') → stored_ok (id_store s').
Proof.
  intros Hv K. unfold MsgRegisterTrustedIssuer_ValidateBasic in Hv. apply obind_Ok in Hv as ([] & _ & Hv).
  apply obind_Ok in Hv as ([] & Hd%wrap_as_Ok & Hk%err_if_Ok). unfold RegisterTrustedIssuer.
  intros ([] & s1 & [_ <-]%fail_if_Ok & ([] & s2 & ->%write_run & ->%emit_run)%bind_Ok)%bind_Ok. by apply kept_issuer.
Qed.
Lemma kept_RevokeIssuer m (s s' : St) : stored_ok (id_store s) →
  RevokeTrustedIssuer authority m s = (Ok tt, s') → stored_ok (id_store s').
Proof.
  intros K. unfold RevokeTrustedIssuer. intros ([] & s1 & [_ <-]%fail_if_Ok & Hr)%bind_Ok.
  apply bind_Ok in Hr as (o & s1 & [-> ->]%look_run & Hr). apply bind_Ok in Hr as (ti & s1 & [Hti <-]%or_fail_Ok & Hr).
  apply bind_Ok in Hr as ([] & s2 & ->%write_run & ->%emit_run). destruct (so_issuers _ _ K _ _ Hti) as [_ [? ?]].
  by apply kept_issuer.
Qed.

(** *** Recovery *)
Lemma kept_Cancel m (s s' : St) : stored_ok (id_store s) → CancelRecovery ctx m s = (Ok tt, s') → stored_ok (id_store s').
Proof.
  intros K. apply (holds_bind (λ _, False)); [unfold pending_request; holds_go|intros req; unfold recovery_event; holds_go|done].
Qed.
Lemma request_writable X st id r : stored_except X st → s_rec st !! id = Some r → writable X st r.
Proof. intros K Hl. by destruct (so_rec _ _ K _ _ Hl) as (_ & ?). Qed.
Lemma kept_Execute m (s s' : St) : registry_ok (id_store s) → recovery_inv s → stored_ok (id_store s) →
  ExecuteRecovery ctx m s = (Ok tt, s') → stored_ok (id_store s').
Proof.
  intros Hro Hinv K. unfold ExecuteRecovery. intros (req & s1 & Hp & Hr)%bind_Ok.
  destruct (pending_inv _ _ _ _ _ Hinv Hp) as (-> & Hreq & _). apply bind_Ok in Hr as ([] & s1 & [_ <-]%fail_if_Ok & Hr).
  apply bind_Ok in Hr as (u & s1 & [_ ->]%check_run & Hr). apply bind_Ok in Hr as (doc & s1 & [-> Hl]%identity_run & Hr).
  apply bind_Ok in Hr as ([] & s1 & [Hst <-]%fail_if_Ok & Hr). apply bind_Ok in Hr as (u' & s1 & [_ ->]%check_run & Hr).
  apply bind_Ok in Hr as ([] & s1 & ->%write_run & Hr). bool_prop. cbv zeta in Hr.
  destruct (stored_doc _ _ _ _ Hro K Hl) as (_ & _ & _ & _ & [V1 V2 V3 V4]). destruct (request_writable _ _ _ _ K Hreq) as ([R1 R2 R3 R4 R5 _ _ _ _] & _).
  revert Hr. apply (holds_bind (λ _, False)); [auto with holds|intros; holds_go|].
  apply (kept_rewrite _ _ _ doc _ Hro K Hl); [done..| | |].
  - apply (rs_each _ (ri_requests _ Hinv) _ _ Hreq).
  - constructor; [done|done| |done]. cbn. rewrite R5. by eexists.
  - left. cbn. by rewrite Hst.
Qed.
Lemma tally_valid r A R : request_valid r → NoDup A → NoDup R → rr_Method r ≠ RECOVERY_METHOD_REAUTH → request_valid (with_tally r A R).
Proof.
  intros [V1 V2 V3 V4 V5 V6 V7 V8 V9] HA HR Hm. constructor; try done. unfold check_material in *. cbn [rr_Method rr_AttestorDid with_tally].
  destruct (_ =? RECOVERY_METHOD_SOCIAL); [done|]. by rewrite (proj2 (Z.eqb_neq _ _) Hm) in V9.
Qed.
Lemma id_not_empty r : request_valid r → rr_RecoveryId r ≠ "".
Proof.
  intros [_ _ _ _ _ E _ _ _] E'. rewrite E' in E. unfold DeriveRecoveryID in E. assert (strlen "" = 32) as Hl by (rewrite E; apply sha256_length).
  by vm_compute in Hl.
Qed.
Lemma kept_sync X r st : request_valid r → stored_except X st → stored_except X (syncTallyEpoch r st).2.
Proof.
  intros Hv K. unfold syncTallyEpoch. case_match; [done|]. cbn [snd]. apply kept_tally; [by apply id_not_empty|by eapply guardian_epoch_range|done].
Qed.
(** a request written with the tally a vote leaves *)
Lemma kept_vote X r (s : St) r1 s1 A R : recovery_inv s → stored_except X (id_store s) → stored s r → rr_Method r ≠ RECOVERY_METHOD_REAUTH →
  sync_tally r s = (Ok r1, s1) → (NoDup (rr_Approvals r1) → NoDup (rr_Rejections r1) → NoDup A ∧ NoDup R) →
  stored_except X (id_store s1) ∧ stored_except X (SetRecoveryRequest (with_tally r1 A R) (id_store s1)).
Proof.
  intros Hinv K Hl Hm Hs Hnd. destruct (request_writable _ _ _ _ K Hl) as (Hv & Hn & Hb).
  pose proof (kept_sync X r (id_store s) Hv K) as K1. destruct (sync_run _ _ _ _ Hl Hinv Hs) as (st1 & Hsy & ->). cbn [id_store].
  unfold sync_tally in Hs. destruct (syncTallyEpoch r (id_store s)) as [r' st']. injection Hs as -> ->. cbn [snd] in K1.
  split; [done|]. apply kept_request; [|done]. destruct Hsy as [Est Er [HA _] [HR _] _ _]. destruct (Hnd HA HR) as [HA' HR'].
  assert (with_tally r1 A R = with_tally r A R) as -> by by rewrite Er. rewrite Est. split_and!; [by apply tally_valid|done..].
Qed.
Lemma kept_Approve m (s s' : St) : recovery_inv s → stored_ok (id_store s) → ApproveRecovery ctx m s = (Ok tt, s') → stored_ok (id_store s').
Proof.
  intros Hinv K. unfold ApproveRecovery. intros (req & s1 & Hp & Hr)%bind_Ok.
  destruct (pending_inv _ _ _ _ _ Hinv Hp) as (-> & Hl & Hid & _). apply bind_Ok in Hr as ([] & s2 & [Hm <-]%fail_if_Ok & Hr).
  apply bind_Ok in Hr as (u & s2 & [_ ->]%check_run & Hr). apply bind_Ok in Hr as (r1 & s1 & Hs & Hr).
  apply bind_Ok in Hr as (u' & s2 & [Hni <-]%fail_if_Ok & Hr). bool_prop.
  apply bind_Ok in Hr as ([] & s2 & ->%write_run & Hr). apply bind_Ok in Hr as (gs' & s2 & [-> ->]%look_run & ->%emit_run).
  cbn [id_store]. eapply (kept_vote _ req s); [done..|]. intros HA HR. split; [|done]. apply NoDup_app. split_and!; [done| |apply NoDup_singleton].
  by intros x Hx ->%list_elem_of_singleton.
Qed.
Lemma kept_Reject m (s s' : St) : recovery_inv s → stored_ok (id_store s) → RejectRecovery ctx m s = (Ok tt, s') → stored_ok (id_store s').
Proof.
  intros Hinv K. unfold RejectRecovery. intros (req & s1 & Hp & Hr)%bind_Ok.
  destruct (pending_inv _ _ _ _ _ Hinv Hp) as (-> & Hl & Hid & _). apply bind_Ok in Hr as ([] & s2 & [Hm <-]%fail_if_Ok & Hr).
  apply bind_Ok in Hr as (u & s2 & [_ ->]%check_run & Hr). apply bind_Ok in Hr as (r1 & s1 & Hs & Hr).
  apply bind_Ok in Hr as (u' & s2 & [Hni <-]%fail_if_Ok & Hr). bool_prop.
  apply bind_Ok in Hr as (o & s2 & [-> ->]%look_run & Hr). apply bind_Ok in Hr as (gs' & s2 & [_ <-]%or_fail_Ok & Hr).
  destruct (kept_vote _ req s r1 s1 (rr_Approvals r1) (rr_Rejections r1 ++ [rej_GuardianDid m]) Hinv K Hl Hm Hs) as [K1 K2].
  { intros HA HR. split; [done|]. apply NoDup_app. split_and!; [done| |apply NoDup_singleton]. by intros x Hx ->%list_elem_of_singleton. }
  apply bind_Ok in Hr as ([] & s2 & Hr & ->%emit_run). cbn [id_store]. case_match.
  - revert Hr. apply (holds_bind (λ _, False)); [auto with holds|intros; holds_go|done].
  - by apply write_run in Hr as ->.
Qed.
Lemma fee_range p : in_range (ReauthRecoveryFee p).
Proof.
  unfold ReauthRecoveryFee. destruct (NewIntFromString _) as [z|] eqn:E; cbn [from_option id]; [by eapply NewIntFromString_range|done].
Qed.
Lemma new_request_valid p m deposit fee : MsgInitiateRecovery_ValidateBasic m = Ok tt → in_range deposit → in_range fee →
  request_valid (new_request ctx p m (DeriveRecoveryID (ini_Did m) (ini_ProposedNewPubKey m) (ini_Nonce m)) deposit fee).
Proof.
  intros Hv Hd Hf. unfold MsgInitiateRecovery_ValidateBasic in Hv. apply obind_Ok in Hv as ([] & Hc & Hv).
  apply obind_Ok in Hv as ([] & Hdid%wrap_as_Ok & Hv). apply obind_Ok in Hv as ([] & Hk%err_if_Ok & Hv).
  apply obind_Ok in Hv as ([] & Ht'%err_if_Ok & Hv). apply obind_Ok in Hv as ([] & Hn & Hv). apply obind_Ok in Hv as ([] & _ & Hm). bool_prop.
  constructor; cbn; try done; [by eapply address_bech32|split; constructor|by rewrite !NewIntFromString_String|].
  unfold check_method in Hm. unfold check_material. cbn. case_match; [apply err_if_Ok, orb_false_elim in Hm as [_ Hm]; by rewrite Hm|].
  case_match; [|done]. by apply obind_Ok in Hm as ([] & _ & Hm%wrap_as_Ok).
Qed.
Lemma kept_Initiate m id (s s' : St) : MsgInitiateRecovery_ValidateBasic m = Ok tt → stored_ok (id_store s) →
  InitiateRecovery reauth ctx m s = (Ok id, s') → stored_ok (id_store s').
Proof.
  intros Hv K. unfold InitiateRecovery. intros (p & s1 & [-> ->]%look_run & Hr)%bind_Ok. set (ra := ini_Method m =? RECOVERY_METHOD_REAUTH) in *.
  apply bind_Ok in Hr as (th & s1 & [Hq <-]%query_Ok & Hr).
  assert (backed (id_store s) (ini_Did m)) as Hb.
  { unfold initiate_gates in Hq. apply obind_Ok in Hq as ([] & _ & Hq). apply obind_Ok in Hq as (doc & Hdoc%or_err_Ok & Hq).
    apply obind_Ok in Hq as ([] & Hst%err_if_Ok & _). exists doc. split; [done|]. bool_prop. by rewrite Hst. }
  apply bind_Ok in Hr as (n & s1 & Hcount & Hr). pose proof (holds_count _ _ _ _ _ _ K Hcount) as K1.
  assert (calm (B := B) (countOpenRequests ctx (ini_Did m))) as Hcalm by (unfold countOpenRequests; calm_all).
  destruct (Hcalm _ _ _ Hcount) as [[[Ed1 _ _ _ _ _] _] _].
  apply bind_Ok in Hr as ([] & s2 & [_ <-]%fail_if_Ok & Hr). apply bind_Ok in Hr as (dup & s2 & [-> ->]%look_run & Hr).
  apply bind_Ok in Hr as ([] & s2 & [_ <-]%fail_if_Ok & Hr). apply bind_Ok in Hr as (from & s2 & [Hfrom <-]%or_fail_Ok & Hr).
  set (p := GetParams (id_store s)) in *. set (dep := if ra then 0 else RecoveryDeposit p) in *. set (fee := if ra then ReauthRecoveryFee p else 0) in *.
  apply bind_Ok in Hr as ([] & s2 & Hpay & Hr). assert (id_store s2 = id_store s1) as E2.
  { unfold chargeReauthFee, escrowDeposit in Hpay.
    destruct ra; (case_match; [by injection Hpay as <-|]); apply bind_Ok in Hpay as (c & s3 & [_ <-]%lift_Ok & Hpay);
      unfold on_bank, zoom in Hpay; case_match; by injection Hpay as _ <-. }
  apply bind_Ok in Hr as ([] & s3 & ->%write_run & Hr). apply bind_Ok in Hr as ([] & s3 & ->%write_run & Hr).
  apply bind_Ok in Hr as ([] & s3 & ->%emit_run & Hr). apply ret_Ok in Hr as [_ <-]. cbn [id_store]. rewrite E2.
  set (req := new_request _ _ _ _ _ _). change (stored_ok (SetRecoveryRequest req (markRecoveryNonce (ini_Did m) (ini_Nonce m) (id_store s1)))).
  apply kept_request; [|by apply kept_rnonce]. split_and!.
  - apply new_request_valid; [done|unfold dep; destruct ra; [done|apply deposit_range]|unfold fee; destruct ra; [apply fee_range|done]].
  - cbn [s_rnonce markRecoveryNonce set_rnonce]. change (rr_Did req) with (ini_Did m). change (rr_Nonce req) with (ini_Nonce m).
    by rewrite lookup_insert_eq.
  - right. destruct Hb as (doc & ? & ?). exists doc. split; [|done]. change (s_docs (id_store s1) !! ini_Did m = Some doc). by rewrite Ed1.
Qed.
(** the revoked identity keeps neither guardians nor requests *)
Lemma stored_weaken (X Y : string → Prop) st : (∀ x, X x → Y x) → stored_except X st → stored_except Y st.
Proof.
  intros HX K. carry K.
  - intros did gs Hl. destruct (so_guard _ _ K _ _ Hl) as (? & ? & [?|?]); auto.
  - intros id r Hl. destruct (so_rec _ _ K _ _ Hl) as (? & ? & ? & [?|?]); auto 6.
Qed.
Lemma stored_again did st : stored_except (λ x, x = did) st → s_guard st !! did = None →
  (∀ id r, s_rec st !! id = Some r → rr_Did r ≠ did) → stored_ok st.
Proof.
  intros K Hg Hr. carry K.
  - intros x gs Hl. destruct (so_guard _ _ K _ _ Hl) as (? & ? & [->|?]); [congruence|auto].
  - intros id r Hl. destruct (so_rec _ _ K _ _ Hl) as (? & ? & ? & [E|?]); [by apply Hr in Hl|auto 6].
Qed.
Lemma terminated did (s s' : St) : recovery_inv s → nul_free did → terminateRecoveryRequestsForDID did s = (Ok tt, s') →
  (∀ id r, s_rec (id_store s') !! id = Some r → rr_Did r ≠ did) ∧ s_gepoch (id_store s') = s_gepoch (id_store s).
Proof.
  intros Hinv Hn (rs & s1 & [-> ->]%look_run & Hr)%bind_Ok. split; [|by eapply supersede_epochs].
  intros id r Hx Hd. destruct (supersede_all _ _ _ _ _ Hr) as [Hsub Hdel]. pose proof (lookup_weaken _ _ _ _ Hx Hsub) as Hl.
  destruct (rs_each _ (ri_requests _ Hinv) _ _ Hl) as [Q1 Q2 _ _]. subst id.
  rewrite Hdel in Hx; [done|by apply elem_of_requests; [apply Hinv|..]|by rewrite Q2].
Qed.
Lemma kept_Revoke m (s s' : St) : GuardianEpoch (id_store s) (rvk_Did m) < 2 ^ 64 - 2 → registry_ok (id_store s) → recovery_inv s →
  stored_ok (id_store s) → RevokeIdentity authority ctx m s = (Ok tt, s') → stored_ok (id_store s').
Proof.
  intros Hep Hro Hinv K. unfold RevokeIdentity. intros (doc & s1 & [-> Hl]%identity_run & Hr)%bind_Ok.
  do 2 apply bind_Ok in Hr as ([] & s1 & [_ <-]%fail_if_Ok & Hr). apply bind_Ok in Hr as ([] & s1 & ->%write_run & Hr).
  set (X := λ x, x = rvk_Did m). assert (stored_except X (id_store s)) as K0 by (by eapply stored_weaken, K).
  destruct (stored_doc _ _ _ _ Hro K Hl) as (_ & Hd & Hc & _ & [V1 V2 V3 V4]).
  assert (stored_except X (SetIdentity ctx (with_status doc DID_STATUS_REVOKED) (id_store s))) as K1
    by (apply (kept_rewrite _ _ _ doc _ Hro K0 Hl); [done..|by constructor|by right]).
  pose proof (SetIdentity_rec_frame ctx (with_status doc DID_STATUS_REVOKED) (id_store s)) as Hfr.
  apply bind_Ok in Hr as ([] & s1 & Ht1 & Hr). pose proof (holds_terminate X _ (mkIdState _ _ _) _ _ K1 Ht1) as K2.
  apply terminated in Ht1 as [Hgone Hge]; [|by apply (recovery_frame s)|by eapply ValidateDID_nul_free, ro_dids]. cbn [id_store] in Hge.
  apply bind_Ok in Hr as ([] & s2 & ->%write_run & Hr). apply bind_Ok in Hr as (bound & s2 & [-> ->]%look_run & Hr).
  apply bind_Ok in Hr as ([] & s2 & Hu & Hr). apply bind_Ok in Hr as ([] & s3 & ->%write_run & ->%emit_run). cbn [id_store] in *.
  assert (stored_except X (id_store s2) ∧ s_guard (id_store s2) !! rvk_Did m = None ∧ s_rec (id_store s2) = s_rec (id_store s1) ∧
    s_gepoch (id_store s2) = s_gepoch (id_store s1)) as (K3 & Hg & Hrec & Hge2).
  { destruct (ValidatorForDID _ _) as [v|]; [apply write_run in Hu as ->|injection Hu as <-]; cbn [id_store].
    - destruct (unbind_frame v (DeleteGuardianSet (rvk_Did m) (id_store s1))) as [-> _ -> -> _].
      split_and!; [by apply kept_unbind, kept_unguard| |done..]. apply lookup_delete_eq.
    - split_and!; [by apply kept_unguard| |done..]. apply lookup_delete_eq. }
  apply (stored_again (rvk_Did m)).
  - apply kept_bump; [done| |done]. rewrite (epoch_frame (id_store s)); [done|]. rewrite Hge2, Hge. apply Hfr.
  - unfold bumpGuardianEpoch. destruct (_ =? _); exact Hg.
  - intros id r Hx. apply (Hgone id). rewrite <- Hrec. revert Hx. unfold bumpGuardianEpoch. by destruct (_ =? _).
Qed.
End messages.
End handlers.

(** ** Blocks and hooks *)
Section sweep.
Context {T : Type} `{SweepStaking T} `{AddressText} `{ValCodecLaws} `{HasherLaws}.
Context (error_text : error → string) (minSelfStake : Z).
Abbreviation SS := (SweepState T).
Lemma status_stays v acc c j : stays (T := T) (removeByIdentityStatus v acc c j).
Proof.
  unfold removeByIdentityStatus. apply stays_bind; [apply stays_reads|]. intros w. case_match; [apply stays_permanently|apply stays_reversibly].
Qed.
Lemma sweepOne_kept v c j (s : SS) o s' : registry_ok (ss_store s) → stored_ok (ss_store s) → sweepOne v c j s = (Ok o, s') → stored_ok (ss_store s').
Proof.
  intros Hr K. unfold sweepOne. intros (bound & s1 & [-> ->]%sw_look_run & Hrun)%bind_Ok. cbv zeta in Hrun.
  destruct (DIDForValidator (ss_store s) v) as [did|] eqn:Hv.
  - apply bind_Ok in Hrun as (d & s1 & [-> ->]%sw_look_run & Hrun). destruct (GetIdentity (ss_store s) did) as [doc|].
    + destruct (Status doc =? DID_STATUS_ACTIVE); [by injection Hrun as _ <-|]. destruct (Status doc =? DID_STATUS_SUSPENDED).
      * apply bind_Ok in Hrun as ([] & s1 & Hj & [_ <-]%ret_Ok). destruct j; [by injection Hj as <-|].
        apply bind_Ok in Hj as (? & s2 & Hj & He). injection He as <-. cbn [ss_store]. by rewrite (stays_staking _ _ _ _ Hj).
      * apply bind_Ok in Hrun as ([] & s1 & Hw & Hrun). injection Hw as <-. rewrite (stays_permanently _ _ _ _ _ Hrun). by apply kept_unbind.
    + apply bind_Ok in Hrun as ([] & s1 & Hw & Hrun). injection Hw as <-. rewrite (status_stays _ _ _ _ _ _ _ Hrun). by apply kept_unbind.
  - apply bind_Ok in Hrun as (w & s1 & [-> ->]%sw_look_run & Hrun). case_bool_decide as Hp; [by rewrite (status_stays _ _ _ _ _ _ _ Hrun)|].
    destruct (ju_active _ _ _ (sweep_judged _ (operator_account v) Hr) Hp) as (d & Hd & Hc & _).
    apply bind_Ok in Hrun as (other & s1 & [-> ->]%sw_look_run & Hrun). case_match; [by rewrite (stays_reversibly _ _ _ _ _ _ _ Hrun)|].
    apply bind_Ok in Hrun as ([] & s1 & Hw & Hrun). injection Hw as <-. apply bind_Ok in Hrun as (? & s2 & He & [_ <-]%ret_Ok).
    injection He as _ <-. cbn [ss_store]. apply kept_bind; [|done]. destruct (doc_controller _ _ _ Hr Hd) as [Hne _].
    rewrite Hc in Hne. unfold operator_account in Hne. by destruct (ValAddressFromBech32 v).
Qed.
Lemma sweep_all_kept l outcomes (s : SS) : registry_ok (ss_store s) → binds_ok (ss_store s) → stored_ok (ss_store s) →
  stored_ok (ss_store (sweep_all error_text l outcomes s).2).
Proof.
  revert outcomes s. induction l as [|[[v c] j] l IH]; intros outcomes s Hr Hb K; cbn [sweep_all]; [done|].
  unfold sweepOneIsolated. destruct (sweepOne v c j s) as [[o|e|w] s1] eqn:E; [|by apply IH..].
  destruct (sweepOne_sound _ _ _ _ _ _ Hr Hb E) as [[Hreg _ Hb1 _ _] _].
  apply IH; [by eapply registry_same|done|by eapply sweepOne_kept].
Qed.
Lemma EndBlock_kept (s : SS) : registry_ok (ss_store s) → binds_ok (ss_store s) → stored_ok (ss_store s) →
  stored_ok (ss_store (EndBlock error_text s)).
Proof. intros Hr Hb K. unfold EndBlock, SweepValidatorBindings. destruct (IterateLastValidators _); [by apply sweep_all_kept|done]. Qed.
Lemma created_kept ctx valAddr (w : SS) : valid_address valAddr → stored_ok (ss_store w) →
  stored_ok (ss_store (deliver (AfterValidatorCreated minSelfStake ctx valAddr) w)).
Proof.
  intros Hva K. unfold deliver. destruct (AfterValidatorCreated minSelfStake ctx valAddr w) as [[[]|e|x] w'] eqn:E; [|done..].
  unfold AfterValidatorCreated in E. case_match; [by injection E as <-|].
  apply bind_Ok in E as (p & w1 & [-> ->]%sw_look_run & E). apply bind_Ok in E as (did & w1 & [Hp <-]%or_fail_Ok & E).
  apply bind_Ok in E as (bd & w1 & [-> ->]%sw_look_run & E). apply bind_Ok in E as ([] & w1 & [Hbd <-]%fail_if_Ok & E).
  apply bind_Ok in E as (msd & w1 & Hq & E). injection Hq as _ <-. apply bind_Ok in E as ([] & w1 & [_ <-]%fail_if_Ok & E). injection E as <-.
  cbn [ss_store]. apply kept_bind; [|done]. rewrite val_decode_encode by done. by eexists.
Qed.
End sweep.

(** ** The chain *)
Section chain.
Context {B T : Type} `{BankLaws B} `{AddressText} `{HasherLaws} `{Verifier} `{SweepStaking T} `{ValCodecLaws}.
Context (authority : string) (reauth : bool) (error_text : error → string) (minSelfStake : Z).
Abbreviation St := (IdState B).

(** fewer than 2^64 - 1 identities *)
Definition room (m : IdMsg) (s : St) : Prop :=
  match m with MRegister _ => GetIdentityCount (id_store s) < 2 ^ 64 - 1 | _ => True end.
Inductive checked_step : St → St → Prop :=
| checked_msg ctx m s : is_int64 (BlockTime ctx) → BlockTime ctx ≠ 0 → admissible m s → room m s →
    checked_step s (deliver (handle authority reauth ctx m) s)
| checked_bank b s : escrow s ≤ GetBalance b (ModuleAddress ModuleName) → checked_step s (mkIdState b (id_store s) (id_events s))
| checked_end t s : checked_step s (of_sweep s (EndBlock error_text (on_sweep (T := T) t s)))
| checked_created ctx t valAddr s : DIDForValidator (id_store s) (ValAddress_String valAddr) = None → valid_address valAddr →
    checked_step s (of_sweep s (deliver (AfterValidatorCreated minSelfStake ctx valAddr) (on_sweep (T := T) t s)))
| checked_removed t valAddr s : checked_step s (of_sweep s (deliver (AfterValidatorRemoved valAddr) (on_sweep (T := T) t s))).

Lemma checked_id_step s s' : checked_step s s' → id_step (T := T) authority reauth error_text minSelfStake s s'.
Proof. intros []; by econstructor. Qed.
Lemma handle_kept ctx m (s s' : St) : is_int64 (BlockTime ctx) → BlockTime ctx ≠ 0 → ValidateBasic m = Ok tt → admissible m s → room m s →
  id_inv s → stored_ok (id_store s) → run_msg authority reauth ctx m s = (Ok tt, s') → stored_ok (id_store s').
Proof.
  intros Ht Hne Hv Ha Hro [Q1 Q2 _] K Hr. destruct m; cbn [run_msg admissible room ValidateBasic] in *.
  - by eapply kept_Register.
  - by eapply kept_Rotate.
  - by eapply kept_UpdateStatus.
  - destruct Ha. by eapply kept_SetGuardians.
  - apply bind_Ok in Hr as (id & s1 & Hr & [_ <-]%ret_Ok). by eapply kept_Initiate.
  - by eapply kept_Approve.
  - by eapply kept_Reject.
  - by eapply kept_Execute.
  - by eapply kept_Cancel.
  - by eapply kept_Revoke.
  - by eapply kept_UpdateParams.
  - by eapply kept_RegisterIssuer.
  - by eapply kept_RevokeIssuer.
Qed.
Lemma checked_kept s s' : checked_step s s' → id_inv s → stored_ok (id_store s) → stored_ok (id_store s').
Proof.
  intros Hs Hinv K. pose proof Hinv as [Q1 Q2 Q3]. destruct Hs as [ctx m s Ht Hne Ha Hro|b s Hb|t s|ctx t v s Hv Hva|t v s].
  - destruct (deliver_handle authority reauth ctx m s) as [->|[Hv Hr]]; [done|by eapply handle_kept].
  - done.
  - by apply (EndBlock_kept error_text (on_sweep t s)).
  - by apply (created_kept minSelfStake ctx v (on_sweep t s)).
  - by apply kept_unbind.
Qed.
Lemma checked_inv s s' : rtc checked_step s s' → id_inv s → stored_ok (id_store s) → id_inv s' ∧ stored_ok (id_store s').
Proof.
  induction 1 as [s|s1 s2 s3 Hs _ IH]; intros Hinv K; [done|]. apply IH; [by eapply step_inv, Hinv; apply checked_id_step|by eapply checked_kept].
Qed.
Lemma empty_stored : stored_ok empty_store.
Proof. by constructor. Qed.

(** C20: export and import of x/identity.  In every state the chain reaches from an empty
    store, with clocks past the epoch and counters below their width, the genesis the
    module exports validates and importing it into an empty store gives the state back,
    provided the parameters in force still admit what was stored under earlier ones: no
    guardian set is larger than [max_guardians], no identity has more open requests than
    [max_open_recovery_requests], and each open request can execute before it expires.
    All nineteen kinds of records come back: the identities with their indexes, rebuilt by
    writing each of them again, the eligibility records with the times they carried and
    not the time of the import, the bindings, nonces, epochs, guardian sets and requests.
    Only a record that was absent because it had its default value may become explicit. *)
Theorem id_genesis_restores b ev s ctx :
  0 ≤ GetBalance b (ModuleAddress ModuleName) → rtc checked_step (mkIdState b empty_store ev) s →
  importable (id_store s) → is_int64 (BlockTime ctx) →
  IdGenesis_Validate (Id_ExportGenesis (id_store s)) = Ok tt ∧
  ∃ total, default 0 total = EligibleControllerTotal (id_store s) ∧
    Id_InitGenesis ctx (Id_ExportGenesis (id_store s)) empty_store =
      (Ok tt, set_total (λ _, total) (set_count (λ _, Some (GetIdentityCount (id_store s)))
                (set_params (λ _, Some (GetParams (id_store s))) (id_store s)))).
Proof.
  intros Hb Hr Him Ht. destruct (checked_inv _ _ Hr) as [[Q1 Q2 Q3] K]; [by apply empty_inv|apply empty_stored|].
  pose proof (ri_requests _ Q2) as Hrq. split; [by apply id_exported_valid|].
  destruct (import_restores ctx Ht (id_store s) Q1 Hrq Q3 K Him) as (t & Hi & Htot). exists t. split; [done|exact Hi].
Qed.
End chain.
