(* ===== verification/IdExport.v ===== *)
(** * x/identity: exports of concrete stores

    The round trip applied to the store of [IdDemo] in the middle of a recovery, and two
    states the chain reaches by changing parameters whose export does not validate. *)
From stdpp Require Import base gmap strings list fin_maps relations.
From Stdlib Require Import ZArith Lia Ascii String.
From S2P Require Import Prelude GoInt KVStore StoreEntry Interfaces PhiDid IdTypes IdKeeper IdServer IdIndex IdElig IdInvariants IdSweep IdStep IdRequests IdHandlers IdReach IdChain IdSafety IdDemo IdGenesis IdRestore IdRebuild IdKept.

(** ** The laws of the instances *)
Lemma substring_within n k s : (n + k ≤ String.length s)%nat → String.length (String.substring n k s) = k.
Proof.
  revert n k. induction s as [|c s IH]; intros n k Hl; cbn in Hl; [by assert (n = 0%nat ∧ k = 0%nat) as [-> ->] by lia|].
  destruct n as [|n]; [destruct k as [|k]; [done|]|]; cbn; [f_equal|]; apply IH; lia.
Qed.
#[export] Instance tail_hasher_laws : HasherLaws.
Proof.
  constructor. intros s. unfold strlen. cbn [sha256 tail_hasher]. rewrite substring_within; [done|]. rewrite str_app_length. cbn. lia.
Qed.
Lemma hex_decode_length s a : hex_decode s = Some a → String.length s = (2 * String.length a)%nat.
Proof.
  revert a. induction s as [s IH] using (induction_ltof1 _ String.length). unfold ltof in IH. intros a.
  destruct s as [|c [|d s]]; cbn [hex_decode]; [by intros [= <-]|done|].
  intros (x & Hx & (y & Hy & (r & Hr & [= <-])%bind_Some)%bind_Some)%bind_Some. cbn [String.length]. rewrite (IH s ltac:(cbn; lia) r Hr). lia.
Qed.
#[export] Instance hex_val_codec_laws : ValCodecLaws.
Proof.
  constructor; [intros a Ha; exact (decode_encode a Ha)|]. intros s a Hs. cbn in Hs. apply bind_Some in Hs as (b & Hb & Hr).
  apply hex_decode_length in Hb as Hl. case_match eqn:E; [|done]. injection Hr as ->. apply strlen_valid in E. split; [done|].
  unfold valid_address, strlen in *. lia.
Qed.

(** ** The round trip in the middle of a recovery *)
Abbreviation demo_checked := (checked_step (B := Ledger.ledger) (T := demo_staking) gov_account false error_name 1).
Fixpoint all_checked (l : list (Z * IdMsg)) (s : State) : Prop :=
  match l with
  | [] => True
  | tm :: l' => is_int64 tm.1 ∧ tm.1 ≠ 0 ∧ admissible tm.2 s ∧ room tm.2 s ∧
                all_checked l' (deliver (handle gov_account false (at_time tm.1) tm.2) s)
  end.
Lemma run_all_checked l s : all_checked l s → rtc demo_checked s (run_all l s).
Proof.
  revert s. induction l as [|[t m] l IH]; intros s; cbn [all_checked run_all foldl fst snd]; [done|].
  intros (Ht & Hne & Ha & Hro & Hl). eapply rtc_l; [by apply (checked_msg gov_account false error_name 1 (at_time t) m)|]. by apply IH.
Qed.
Lemma ready_checked : rtc demo_checked demo_genesis demo_ready.
Proof.
  rewrite demo_ready_run. apply run_all_checked. cbn [demo_start all_checked admissible room fst snd register].
  split_and!; try done; vm_compute; done.
Qed.
Lemma few_open (l : list RecoveryRequest) did n : Z.of_nat (List.length l) ≤ n →
  Z.of_nat (List.length (List.filter (λ r, bool_decide (rr_Did r = did)) l)) ≤ n.
Proof. intros Hl. pose proof (filter_length_le (λ r, bool_decide (rr_Did r = did)) l). lia. Qed.
Lemma ready_importable : importable (id_store demo_ready).
Proof.
  constructor.
  - apply (bool_decide_unpack (map_Forall (λ _ gs, Z.of_nat (List.length (gd_Commitments gs)) ≤ MaxGuardians (GetParams (id_store demo_ready))) (s_guard (id_store demo_ready)))).
    vm_compute. exact I.
  - apply (bool_decide_unpack (map_Forall (λ _ r, rr_InitiatedAt r < rr_ExecuteAfter r ∧ rr_ExecuteAfter r < rr_ExpiresAt r) (s_rec (id_store demo_ready)))).
    vm_compute. exact I.
  - intros did. apply few_open. vm_compute. discriminate.
Qed.
Lemma id_genesis_restores_witness :
  List.length (idg_RecoveryRequests (Id_ExportGenesis (id_store demo_ready))) = 1%nat ∧
  List.length (idg_StoreEntries (Id_ExportGenesis (id_store demo_ready))) = 7%nat ∧
  ∃ total, Id_InitGenesis (at_time 1000) (Id_ExportGenesis (id_store demo_ready)) empty_store =
    (Ok tt, set_total (λ _, total) (set_count (λ _, Some 2) (set_params (λ _, Some DefaultParams) (id_store demo_ready)))).
Proof.
  split; [vm_compute; reflexivity|]. split; [vm_compute; reflexivity|].
  destruct (id_genesis_restores gov_account false error_name 1 demo_bank [] demo_ready (at_time 1000)
    demo_funds ready_checked ready_importable) as (_ & total & _ & Hi); [split; [discriminate|reflexivity]|].
  exists total. exact Hi.
Defined.

(** ** Exports that do not validate *)

(** the request of [IdDemo] that a suspension outlived, given its delay back but a
    shorter time to live: it expires before it can execute *)
Theorem held_request_blocks_export : demo_reach demo_genesis demo_thaw_state ∧
  IdGenesis_Validate (Id_ExportGenesis (id_store demo_thaw_state)) = Err (Plain "require initiated_at < execute_after < expires_at").
Proof. split; [apply demo_thaw_reachable|vm_compute; reflexivity]. Qed.

(** a guardian set larger than a lowered [max_guardians] *)
Definition fewer_guardians : Params :=
  mkParams (MinIdentityAgeSeconds DefaultParams) (BootstrapThreshold DefaultParams) true (WebauthnAllowedOrigins DefaultParams)
    (WebauthnRpId DefaultParams) 1 (UvSensitiveMsgTypeUrls DefaultParams) (UvLargeTransferUphi DefaultParams)
    (RecoveryDelaySeconds DefaultParams) (RecoveryRequestTtlSeconds DefaultParams) (MaxOpenRecoveryRequests DefaultParams)
    (RecoveryDepositUphi DefaultParams) (ReauthRecoveryFeeUphi DefaultParams).
Definition demo_guarded : list (Z * IdMsg) :=
  [(100, MRegisterIssuer (mkRegisterIssuer gov_account (mkIssuer issuer_did key3 true)));
   (100, register "a1" key1 "h1");
   (200, MSetGuardians (mkSetGuardians "a1" (did_of key1) [GuardianCommitment (did_of key2) salt; GuardianCommitment (did_of key2) nonce] 1));
   (300, MUpdateParams (mkUpdateParams gov_account fewer_guardians))].
Definition demo_guarded_state : State := Eval vm_compute in run_all demo_guarded demo_genesis.
Theorem lowered_cap_blocks_export : demo_reach demo_genesis demo_guarded_state ∧
  IdGenesis_Validate (Id_ExportGenesis (id_store demo_guarded_state)) = Err (Plain "guardian count exceeds max_guardians").
Proof.
  split; [|vm_compute; reflexivity].
  assert (demo_guarded_state = run_all demo_guarded demo_genesis) as -> by vm_cast_no_check (@eq_refl State demo_guarded_state).
  apply run_reach. cbn [demo_guarded all_admissible admissible fst snd register]. split_and!; done.
Qed.
