(* ===== verification/IdVote.v ===== *)
(** * One human, one vote: a proposal over a live registry

    The registry of the recovery run is what the tally reads.  Two people vote; and a
    recovery that executes in the very second the basis is frozen gives one of them a
    second vote. *)
From stdpp Require Import base gmap strings list fin_maps relations.
From Stdlib Require Import ZArith Lia Ascii.
From S2P Require Import Prelude GoInt KVStore StoreEntry LegacyDec Interfaces GovTypes GovKeeper GovTally GovCount GovCheck GovPrune GovSafety.
From S2P Require Import PhiDid IdTypes IdKeeper IdServer IdIndex IdElig IdInvariants IdSweep IdStep IdRequests IdHandlers IdReach IdChain IdSafety IdRoll IdDemo.

(** ** Every step of the chain moves the registry as the tally allows *)
Section moves.
Context {B T : Type} `{BankLaws B} `{AddressText} `{Hasher} `{Verifier} `{SweepStaking T} `{ValCodec}.
Context (authority : string) (reauth : bool) (error_text : error → string) (minSelfStake : Z).
Lemma message_moves c h ctx m (s : IdState B) r : id_inv s → id_store s = reg_store (ch_now h) →
  id_store (deliver (handle authority reauth ctx m) s) = reg_store r → 0 < BlockTime c → BlockTime c ≤ BlockTime ctx < 2 ^ 63 →
  registry_moves (c, h) (ctx, mkChronicle r (timeline (c, h))).
Proof.
  intros [Q1 Q2 Q3] Es Er T1 T2. apply rtc_once. split_and!; [done|apply T2..| |done]. cbn [ch_now fst snd]. rewrite <- Es, <- Er.
  destruct (deliver_handle authority reauth ctx m s) as [->|[Hv Hr]]; [apply rtc_refl|].
  by destruct (handle_evolving authority reauth ctx m Hv s tt _ Q1 Q2 Q3 Hr) as [He _].
Qed.
Lemma sweep_moves c h ctx (t : T) (s : IdState B) r : id_inv s → id_store s = reg_store (ch_now h) →
  ss_store (EndBlock error_text (on_sweep t s)) = reg_store r → 0 < BlockTime c → BlockTime c ≤ BlockTime ctx < 2 ^ 63 →
  registry_moves (c, h) (ctx, mkChronicle r (timeline (c, h))).
Proof.
  intros [Q1 _ Q3] Es Er T1 T2. apply rtc_once. split_and!; [done|apply T2..| |done]. cbn [ch_now fst snd]. rewrite <- Es, <- Er.
  destruct (Sweep_sound error_text (on_sweep t s) Q1 Q3) as [[Hreg _ _] _]. apply rtc_once. by apply w_frame.
Qed.
End moves.

(** ** A proposal *)
Record vote_gov := mkVoteGov { vg_proposal : GovProposal; vg_votes : gmap string Z }.
#[export] Instance vote_xgov : XGov vote_gov := {
  gov_Proposals g pid :=
    if (gp_Id (vg_proposal g) =? pid) && (0 <=? pid) && (pid <? 2 ^ 64) then Some (vg_proposal g) else None;
  gov_Votes g pid a :=
    if (0 <? strlen a) && (strlen a <=? 255) then
      o ← vg_votes g !! a; Some (mkVote (AccAddress_String a) [mkWeighted (if o =? OptionYes then OptionYes else OptionNo) "1.0"])
    else None;
}.
#[export] Instance vote_xgov_laws : XGovLaws vote_gov.
Proof.
  constructor.
  - intros g pid p. cbn [gov_Proposals vote_xgov]. destruct (_ && _) eqn:Hb; intros E; simplify_eq.
    bool_prop. split; [done|]. unfold is_u64. lia.
  - intros g pid a v. cbn [gov_Votes vote_xgov]. destruct (_ && _) eqn:Hb; [|done].
    destruct (vg_votes g !! a) as [o|]; simpl; [|done]. intros E. simplify_eq. split_and!; [by apply strlen_valid|done|].
    apply Forall_singleton. unfold is_choice. cbn [wo_Option]. case_match; by repeat constructor.
Qed.
#[export] Instance vote_staking : StakingKeeper unit := { GetValidator _ _ := None }.

Definition addr (z : Z) : string := String (byte z) EmptyString.
Definition vote_time : Z := 1000000.
Definition vote_state : vote_gov :=
  mkVoteGov (mkGovProposal 7 StatusVotingPeriod false (Some (timeFromUnix vote_time)) (Some ["/cosmos.bank.v1beta1.MsgSend"]))
    {[addr 0xa1 := OptionYes; addr 0xb1 := OptionNo; addr 0xc1 := OptionYes]}.
Definition vote_registry (s : State) (Hr : demo_reach demo_genesis s) (Hs : Z.of_nat (size (s_elig (id_store s))) < 2 ^ 64) : Registry :=
  mkRegistry (id_store s) (demo_registry s Hr) Hs.
Lemma ready_size : Z.of_nat (size (s_elig (id_store demo_ready))) < 2 ^ 64.
Proof. vm_compute. reflexivity. Qed.
Definition ready_registry : Registry := vote_registry demo_ready ready_reachable ready_size.
Definition vote_env (h : Chronicle) : Env Chronicle vote_gov unit := mkEnv (at_time vote_time) h vote_state tt.
Definition vote_start : Env Chronicle vote_gov unit := vote_env (mkChronicle ready_registry []).

(** the deposit opens the vote and freezes the basis; the owner and the guardian vote *)
Definition two_votes : GovStore :=
  deliver (AfterProposalVote vote_start 7 (addr 0xb1))
    (deliver (AfterProposalVote vote_start 7 (addr 0xa1)) (deliver (AfterProposalDeposit vote_start 7) (mkGovStore None ∅))).
Lemma two_votes_reachable evolves : gov_reachable evolves (vote_start, two_votes).
Proof.
  eapply reach_step; [|by apply step_vote; vm_compute]. eapply reach_step; [|by apply step_vote; vm_compute].
  eapply reach_step; [|apply step_deposit]. apply reach_start. done.
Qed.
Lemma one_human_one_vote_witness : ∃ r0 roll,
  (∀ c, c ∈ roll ↔ on_roll (reg_store r0) 395200 c) ∧ 2 ≤ Z.of_nat (length roll) ∧ "a1" ∈ roll.
Proof.
  assert (GetProposalEligibility 7 two_votes = Some (mkFrozen 2 395200 vote_time)) as Hb by (vm_compute; reflexivity).
  assert (Turnout (GetRunningTally 7 two_votes) = 2) as Ht by (vm_compute; reflexivity).
  assert (bool_decide (addr 0xa1 ∈ voters 7 two_votes) = true) as Hin%bool_decide_eq_true_1 by (vm_compute; reflexivity).
  destruct (one_human_one_vote vote_start two_votes 7 (mkFrozen 2 395200 vote_time) (two_votes_reachable registry_moves))
    as (later & c0 & r0 & earlier & roll & Htl & _ & _ & Hroll & _ & _ & _ & _ & Hq).
  - unfold is_u64. lia.
  - vm_compute. reflexivity.
  - exact Hb.
  - destruct later as [|x later]; [|injection Htl as _ Htl; by destruct later].
    destruct Hq as [Hv Hle]; [intros c1 r1 c Hno; case (not_elem_of_nil _ Hno)|].
    exists r0, roll. split_and!; [exact Hroll|rewrite <- Ht; exact Hle|exact (Hv _ Hin)].
Defined.

(** ** The second the basis is frozen *)

Definition recovered_run : list (Z * IdMsg) := [(vote_time, MExecute demo_execute)].
Definition demo_recovered : State := Eval vm_compute in run_all recovered_run demo_ready.
Lemma demo_recovered_run : demo_recovered = run_all recovered_run demo_ready.
Proof. vm_cast_no_check (@eq_refl State demo_recovered). Qed.
Lemma demo_recovered_reachable : demo_reach demo_genesis demo_recovered.
Proof. rewrite demo_recovered_run. unfold reachable. etrans; [apply ready_reachable|]. apply run_reach. done. Qed.
Lemma recovered_size : Z.of_nat (size (s_elig (id_store demo_recovered))) < 2 ^ 64.
Proof. vm_compute. reflexivity. Qed.
Definition recovered_registry : Registry := vote_registry demo_recovered demo_recovered_reachable recovered_size.
Definition vote_moved : Env Chronicle vote_gov unit := vote_env (mkChronicle recovered_registry [(at_time vote_time, ready_registry)]).
Definition three_votes : GovStore := deliver (AfterProposalVote vote_moved 7 (addr 0xc1)) two_votes.
Lemma three_votes_reachable : gov_reachable registry_moves (vote_moved, three_votes).
Proof.
  eapply reach_step; [|by apply step_vote; vm_compute]. eapply reach_step; [apply two_votes_reachable|]. apply step_world; [done|].
  apply (message_moves gov_account false (at_time vote_time) (mkChronicle ready_registry []) (at_time vote_time) (MExecute demo_execute)
    demo_ready recovered_registry); [|reflexivity| |done|done].
  - eapply reachable_inv; [apply ready_reachable|]. apply empty_inv, demo_funds.
  - cbn [reg_store recovered_registry vote_registry]. by rewrite demo_recovered_run.
Qed.

(** C39: a vote can count twice.  The basis of a proposal is frozen with two people on the
    roll, both vote, and in the same second a recovery is executed that hands the identity
    of one of them to another account, which votes too: the eligibility record says "since
    this second", which is not after the freeze.  So both controllers of one identity have
    voted, three votes count against a denominator of two, and the invariant registered
    with x/crisis reports the proposal. *)
Theorem recovery_in_freeze_second_votes_twice :
  ∃ e st s r0 r1 did d0 d1 v0 v1, gov_reachable registry_moves (e, st) ∧
    timeline (moment e) = [(env_ctx e, r1); (env_ctx e, r0)] ∧
    reg_store r0 = id_store s ∧ reg_store r1 = id_store (deliver (handle gov_account false (env_ctx e) (MExecute demo_execute)) s) ∧
    s_docs (reg_store r0) !! did = Some d0 ∧ Controller d0 = AccAddress_String v0 ∧
    s_docs (reg_store r1) !! did = Some d1 ∧ Controller d1 = AccAddress_String v1 ∧
    v0 ≠ v1 ∧ v0 ∈ voters 7 st ∧ v1 ∈ voters 7 st ∧
    GetProposalEligibility 7 st = Some (mkFrozen 2 395200 vote_time) ∧ Turnout (GetRunningTally 7 st) = 3 ∧
    TurnoutWithinFrozenBasisInvariant st = ("turnout exceeds its frozen denominator", true).
Proof.
  exists vote_moved, three_votes, demo_ready, ready_registry, recovered_registry, (did_of key1). eexists _, _, (addr 0xa1), (addr 0xc1).
  split; [apply three_votes_reachable|]. split; [reflexivity|]. split; [reflexivity|].
  split; [cbn [reg_store recovered_registry vote_registry]; by rewrite demo_recovered_run|].
  do 4 (split; [vm_compute; reflexivity|]). split; [done|]. do 2 (split; [apply (bool_decide_eq_true_1 _); vm_compute; reflexivity|]).
  split_and!; vm_compute; reflexivity.
Qed.
