(* ===== verification/CredTypes.v ===== *)
(** * x/credentials: types

    [x/credentials/types]: templates, anchors, agreements and personal anchors, the
    disclosure policy with its canonical hash, the keys, and the stateless validation
    of the messages. *)
From stdpp Require Import base gmap strings list sorting.
From Stdlib Require Import ZArith Lia Ascii.
From S2P Require Import Prelude GoInt KVStore Interfaces.

(** ** Enumerations: open protobuf enums *)
Definition TEMPLATE_STATUS_ACTIVE : Z := 1.
Definition TEMPLATE_STATUS_DEPRECATED : Z := 2.
Definition CREDENTIAL_STATUS_ACTIVE : Z := 1.
Definition CREDENTIAL_STATUS_REVOKED : Z := 2.
Definition AGREEMENT_STATUS_PENDING : Z := 1.
Definition AGREEMENT_STATUS_COMPLETED : Z := 2.
Definition AGREEMENT_STATUS_CANCELLED : Z := 3.

(** ** Records *)
Record CredentialTemplate := mkTemplate {
  t_Id : string; t_Version : Z; t_OwnerDid : string; t_SchemaHash : string; t_IssuerBbsPubkey : string;
  t_Name : string; t_Status : Z; t_CreatedAt : Z; t_UpdatedAt : Z;
  t_MessageCount : Z; t_DisclosableIndices : list Z; t_DisclosurePolicyHash : string }.
Record CredentialAnchor := mkAnchor {
  an_CredentialHash : string; an_TemplateId : string; an_TemplateVersion : Z;
  an_IssuerDid : string; an_SubjectDid : string; an_IssuedAt : Z; an_Status : Z }.
Record AgreementSignature := mkSignature { sg_SignerDid : string; sg_SignedAt : Z }.
Record Agreement := mkAgreement {
  ag_Hash : string; ag_Creator : string; ag_RequiredSigners : list string;
  ag_Signatures : list AgreementSignature; ag_Deadline : Z; ag_Status : Z; ag_CreatedAt : Z }.
Record PersonalAnchor := mkPersonal { pa_OwnerDid : string; pa_AnchorHash : string; pa_AnchoredAt : Z }.
Record CredParams := mkCredParams { MaxAgreementSigners : Z }.

#[export] Instance CredentialTemplate_eq_dec : EqDecision CredentialTemplate.
Proof. solve_decision. Defined.
#[export] Instance CredentialAnchor_eq_dec : EqDecision CredentialAnchor.
Proof. solve_decision. Defined.
#[export] Instance AgreementSignature_eq_dec : EqDecision AgreementSignature.
Proof. solve_decision. Defined.
#[export] Instance Agreement_eq_dec : EqDecision Agreement.
Proof. solve_decision. Defined.
#[export] Instance PersonalAnchor_eq_dec : EqDecision PersonalAnchor.
Proof. solve_decision. Defined.

Definition DefaultMaxAgreementSigners : Z := 100.
Definition DefaultCredParams : CredParams := mkCredParams DefaultMaxAgreementSigners.
Definition CredParams_Validate (p : CredParams) : outcome unit :=
  err_if (MaxAgreementSigners p =? 0) (Plain "max_agreement_signers must be > 0").

(** ** Errors *)
Definition cred_err (n : Z) : error := Registered "credentials" n.
Definition ErrTemplateExists := cred_err 2.
Definition ErrTemplateNotFound := cred_err 3.
Definition ErrTemplateDeprecated := cred_err 4.
Definition ErrTemplateVersionMismatch := cred_err 5.
Definition ErrCredentialExists := cred_err 6.
Definition ErrCredentialNotFound := cred_err 7.
Definition ErrCredentialRevoked := cred_err 8.
Definition ErrAgreementExists := cred_err 9.
Definition ErrAgreementNotFound := cred_err 10.
Definition ErrAgreementClosed := cred_err 11.
Definition ErrAgreementExpired := cred_err 12.
Definition ErrNotRequiredSigner := cred_err 13.
Definition ErrAlreadySigned := cred_err 14.
Definition ErrPersonalAnchorExists := cred_err 15.
Definition ErrDIDNotActive := cred_err 17.
Definition ErrCredUnauthorized := cred_err 18.
Definition ErrInvalidSignature := cred_err 19.
Definition ErrCredInvalidRequest := cred_err 21.

(** ** Keys, below their one-byte prefixes *)
Definition PersonalOwnerPrefix (ownerDID : string) : string := str1 (byte (strlen ownerDID)) +:+ ownerDID.
Definition PersonalKey (ownerDID anchorHash : string) : string := PersonalOwnerPrefix ownerDID +:+ anchorHash.

(** ** The disclosure policy *)
Definition disclosurePolicyDomain : string := "phi-disclosure-policy-v1".
Definition MaxBbsMessages : Z := 64.
Definition MaxBbsPubkeyLen : Z := 256.

Fixpoint check_indices (messageCount : Z) (seen : gset Z) (l : list Z) : outcome unit :=
  match l with
  | [] => Ok tt
  | i :: l' =>
      err_if (messageCount <=? i) (Plain "disclosable index is out of range");;
      err_if (bool_decide (i ∈ seen)) (Plain "duplicate disclosable index");;
      check_indices messageCount ({[i]} ∪ seen) l'
  end.
Definition ValidateDisclosurePolicy (messageCount : Z) (disclosable : list Z) : outcome unit :=
  err_if (MaxBbsMessages <? messageCount) (Plain "message_count exceeds the maximum");;
  err_if ((messageCount =? 0) && (0 <? Z.of_nat (length disclosable)))
    (Plain "disclosable_indices declared but message_count is 0");;
  err_if (messageCount <? Z.of_nat (length disclosable)) (Plain "too many disclosable_indices");;
  check_indices messageCount ∅ disclosable.

Fixpoint dedup_from (seen : gset Z) (l : list Z) : list Z :=
  match l with
  | [] => []
  | i :: l' => if bool_decide (i ∈ seen) then dedup_from seen l' else i :: dedup_from ({[i]} ∪ seen) l'
  end.
(** the entries are distinct when they are sorted, so the unstable [sort.Slice] has one
    possible result *)
Definition canonicalIndices (l : list Z) : list Z := merge_sort Z.le (dedup_from ∅ l).

Definition policy_preimage (id : string) (version messageCount : Z) (disclosable : list Z) : string :=
  disclosurePolicyDomain +:+ NUL +:+ id +:+ NUL +:+ be32 version +:+ be32 messageCount +:+
  foldr (λ i s, be32 i +:+ s) "" (canonicalIndices disclosable).
Definition DisclosurePolicyHash `{Hasher} (id : string) (version messageCount : Z) (disclosable : list Z) : string :=
  sha256 (policy_preimage id version messageCount disclosable).
Definition IsDisclosable (t : CredentialTemplate) (i : Z) : bool :=
  existsb (λ d, d =? i) (t_DisclosableIndices t).
Definition PolicyHash `{Hasher} (t : CredentialTemplate) : string :=
  DisclosurePolicyHash (t_Id t) (t_Version t) (t_MessageCount t) (t_DisclosableIndices t).

(** ** Messages *)
Record MsgRegisterCredentialTemplate := mkMsgRegisterTemplate {
  rt_Creator : string; rt_Id : string; rt_OwnerDid : string; rt_SchemaHash : string;
  rt_Name : string; rt_IssuerBbsPubkey : string; rt_MessageCount : Z; rt_DisclosableIndices : list Z }.
Record MsgUpdateCredentialTemplate := mkMsgUpdateTemplate {
  ut_Creator : string; ut_Id : string; ut_SchemaHash : string; ut_Name : string;
  ut_MessageCount : Z; ut_DisclosableIndices : list Z }.
Record MsgDeprecateCredentialTemplate := mkMsgDeprecateTemplate { dt_Creator : string; dt_Id : string }.
Record MsgAnchorCredential := mkMsgAnchor {
  ac_Issuer : string; ac_IssuerDid : string; ac_SubjectDid : string; ac_TemplateId : string;
  ac_TemplateVersion : Z; ac_CredentialHash : string; ac_IssuerSig : string }.
Record MsgRevokeCredential := mkMsgRevokeCred { rc_Issuer : string; rc_CredentialHash : string }.
Record MsgCreateAgreement := mkMsgCreateAgreement {
  ca_Creator : string; ca_Hash : string; ca_RequiredSigners : list string; ca_Deadline : Z }.
Record MsgSignAgreement := mkMsgSignAgreement {
  sa_Signer : string; sa_Hash : string; sa_SignerDid : string; sa_Signature : string }.
Record MsgCancelAgreement := mkMsgCancelAgreement { xa_Creator : string; xa_Hash : string }.
Record MsgAnchorPersonal := mkMsgAnchorPersonal {
  ap_Owner : string; ap_OwnerDid : string; ap_AnchorHash : string; ap_Signature : string }.
Record MsgUpdateCredParams := mkMsgUpdateCredParams { up_Authority : string; up_Params : CredParams }.

Inductive CredMsg :=
| MRegisterTemplate (m : MsgRegisterCredentialTemplate)
| MUpdateTemplate (m : MsgUpdateCredentialTemplate)
| MDeprecateTemplate (m : MsgDeprecateCredentialTemplate)
| MAnchorCredential (m : MsgAnchorCredential)
| MRevokeCredential (m : MsgRevokeCredential)
| MCreateAgreement (m : MsgCreateAgreement)
| MSignAgreement (m : MsgSignAgreement)
| MCancelAgreement (m : MsgCancelAgreement)
| MAnchorPersonal (m : MsgAnchorPersonal)
| MUpdateCredParams (m : MsgUpdateCredParams).

Section validate.
Context `{AddressCodec}.
Definition check_address (a : string) : outcome unit := err_if (negb (is_bech32 a)) ErrInvalidAddress.
Definition nonempty (s : string) : outcome unit := err_if (strlen s =? 0) ErrCredInvalidRequest.

Definition RegisterTemplate_ValidateBasic (m : MsgRegisterCredentialTemplate) : outcome unit :=
  check_address (rt_Creator m);; nonempty (rt_Id m);; nonempty (rt_OwnerDid m);; nonempty (rt_SchemaHash m).
Definition UpdateTemplate_ValidateBasic (m : MsgUpdateCredentialTemplate) : outcome unit :=
  check_address (ut_Creator m);; nonempty (ut_Id m);; nonempty (ut_SchemaHash m).
Definition DeprecateTemplate_ValidateBasic (m : MsgDeprecateCredentialTemplate) : outcome unit :=
  check_address (dt_Creator m);; nonempty (dt_Id m).
Definition AnchorCredential_ValidateBasic (m : MsgAnchorCredential) : outcome unit :=
  check_address (ac_Issuer m);; nonempty (ac_IssuerDid m);; nonempty (ac_SubjectDid m);;
  nonempty (ac_TemplateId m);; nonempty (ac_CredentialHash m);; nonempty (ac_IssuerSig m).
Definition RevokeCredential_ValidateBasic (m : MsgRevokeCredential) : outcome unit :=
  check_address (rc_Issuer m);; nonempty (rc_CredentialHash m).
Fixpoint check_signers (seen : gset string) (l : list string) : outcome unit :=
  match l with
  | [] => Ok tt
  | did :: l' =>
      err_if (strlen did =? 0) ErrCredInvalidRequest;;
      err_if (bool_decide (did ∈ seen)) ErrCredInvalidRequest;;
      check_signers ({[did]} ∪ seen) l'
  end.
Definition CreateAgreement_ValidateBasic (m : MsgCreateAgreement) : outcome unit :=
  check_address (ca_Creator m);; nonempty (ca_Hash m);;
  err_if (Z.of_nat (length (ca_RequiredSigners m)) =? 0) ErrCredInvalidRequest;;
  check_signers ∅ (ca_RequiredSigners m);;
  err_if (ca_Deadline m <? 0) ErrCredInvalidRequest.
Definition SignAgreement_ValidateBasic (m : MsgSignAgreement) : outcome unit :=
  check_address (sa_Signer m);; nonempty (sa_Hash m);; nonempty (sa_SignerDid m);; nonempty (sa_Signature m).
Definition CancelAgreement_ValidateBasic (m : MsgCancelAgreement) : outcome unit :=
  check_address (xa_Creator m);; nonempty (xa_Hash m).
Definition AnchorPersonal_ValidateBasic (m : MsgAnchorPersonal) : outcome unit :=
  check_address (ap_Owner m);; nonempty (ap_OwnerDid m);; nonempty (ap_AnchorHash m);; nonempty (ap_Signature m).
Definition UpdateCredParams_ValidateBasic (m : MsgUpdateCredParams) : outcome unit :=
  check_address (up_Authority m);; CredParams_Validate (up_Params m).

Definition CredMsg_ValidateBasic (m : CredMsg) : outcome unit :=
  match m with
  | MRegisterTemplate m => RegisterTemplate_ValidateBasic m
  | MUpdateTemplate m => UpdateTemplate_ValidateBasic m
  | MDeprecateTemplate m => DeprecateTemplate_ValidateBasic m
  | MAnchorCredential m => AnchorCredential_ValidateBasic m
  | MRevokeCredential m => RevokeCredential_ValidateBasic m
  | MCreateAgreement m => CreateAgreement_ValidateBasic m
  | MSignAgreement m => SignAgreement_ValidateBasic m
  | MCancelAgreement m => CancelAgreement_ValidateBasic m
  | MAnchorPersonal m => AnchorPersonal_ValidateBasic m
  | MUpdateCredParams m => UpdateCredParams_ValidateBasic m
  end.
End validate.
