(* ===== verification/CredServer.v ===== *)
(** * x/credentials: keeper, message server and genesis

    [x/credentials/keeper/keeper.go], [msg_server.go], [genesis.go] and
    [types/genesis.go]: the module's store, one field per key prefix, the ten message
    handlers and the import and export of the state.  The handlers read x/identity
    through [DocumentReader] ([types/expected_keepers.go]) and check signatures through
    the phi-crypto port. *)
From stdpp Require Import base gmap strings list.
From Stdlib Require Import ZArith Lia.
From S2P Require Import Prelude GoInt KVStore Interfaces PhiDid IdTypes CredTypes.

(** ** The store *)
Record CredStore := mkCredStore {
  c_params : option CredParams;               (** ParamsKey 0x00 *)
  c_templates : KVStore CredentialTemplate;   (** TemplatePrefix 0x10: id *)
  c_anchors : KVStore CredentialAnchor;       (** AnchorPrefix 0x20: credential hash *)
  c_agreements : KVStore Agreement;           (** AgreementPrefix 0x30: hash *)
  c_personal : KVStore PersonalAnchor;        (** PersonalPrefix 0x40: length, owner, hash *)
}.
Definition empty_cred : CredStore := mkCredStore None ∅ ∅ ∅ ∅.
Record CredState := mkCredState { cr_store : CredStore; cr_events : list Event }.

Definition GetParams (st : CredStore) : CredParams := default DefaultCredParams (c_params st).
Definition SetTemplate (t : CredentialTemplate) (st : CredStore) : CredStore :=
  mkCredStore (c_params st) (<[t_Id t := t]> (c_templates st)) (c_anchors st) (c_agreements st) (c_personal st).
Definition GetTemplate (st : CredStore) (id : string) : option CredentialTemplate := c_templates st !! id.
Definition HasTemplate (st : CredStore) (id : string) : bool := bool_decide (is_Some (c_templates st !! id)).
Definition SetAnchor (a : CredentialAnchor) (st : CredStore) : CredStore :=
  mkCredStore (c_params st) (c_templates st) (<[an_CredentialHash a := a]> (c_anchors st)) (c_agreements st) (c_personal st).
Definition GetAnchor (st : CredStore) (hash : string) : option CredentialAnchor := c_anchors st !! hash.
Definition HasAnchor (st : CredStore) (hash : string) : bool := bool_decide (is_Some (c_anchors st !! hash)).
Definition SetAgreement (a : Agreement) (st : CredStore) : CredStore :=
  mkCredStore (c_params st) (c_templates st) (c_anchors st) (<[ag_Hash a := a]> (c_agreements st)) (c_personal st).
Definition GetAgreement (st : CredStore) (hash : string) : option Agreement := c_agreements st !! hash.
Definition HasAgreement (st : CredStore) (hash : string) : bool := bool_decide (is_Some (c_agreements st !! hash)).
Definition SetPersonalAnchor (p : PersonalAnchor) (st : CredStore) : CredStore :=
  mkCredStore (c_params st) (c_templates st) (c_anchors st) (c_agreements st)
    (<[PersonalKey (pa_OwnerDid p) (pa_AnchorHash p) := p]> (c_personal st)).
Definition HasPersonalAnchor (st : CredStore) (ownerDID hash : string) : bool :=
  bool_decide (is_Some (c_personal st !! PersonalKey ownerDID hash)).
Definition IterateTemplates (st : CredStore) : list CredentialTemplate := values (c_templates st).
Definition IterateAnchors (st : CredStore) : list CredentialAnchor := values (c_anchors st).
Definition IterateAgreements (st : CredStore) : list Agreement := values (c_agreements st).
Definition IteratePersonalAnchors (st : CredStore) : list PersonalAnchor := values (c_personal st).

Definition on_store {A} : M CredStore A → M CredState A := zoom cr_store (λ st s, mkCredState st (cr_events s)).
Definition write (f : CredStore → CredStore) : M CredState unit := on_store (modify f).
Definition look {A} (f : CredStore → A) : M CredState A := reads (λ s, f (cr_store s)).
Definition EmitEvent (ty : string) (attrs : list (string * string)) : M CredState unit :=
  modify (λ s, mkCredState (cr_store s) (cr_events s ++ [mkEvent ty attrs])).

(** validates, then stores *)
Definition SetParams (p : CredParams) : M CredStore unit :=
  lift (CredParams_Validate p);;
  modify (λ st, mkCredStore (Some p) (c_templates st) (c_anchors st) (c_agreements st) (c_personal st)).

(** ** x/identity, as x/credentials reads it *)
Class DocumentReader (I : Type) := { GetIdentity : I → string → option DIDDocument }.

Section server.
Context {I : Type} `{DocumentReader I} `{AddressCodec} `{Hasher} `{Verifier}.
Context (authority : string).

Definition authDID (ids : I) (did signer : string) : outcome string :=
  match GetIdentity ids did with
  | Some doc =>
      if negb (Status doc =? DID_STATUS_ACTIVE) then Err ErrDIDNotActive
      else if negb (bool_decide (Controller doc = signer)) then Err ErrCredUnauthorized
      else Ok (PubKey doc)
  | None => Err ErrDIDNotActive
  end.
Definition requireActiveDID (ids : I) (did : string) : outcome unit :=
  match GetIdentity ids did with
  | Some doc => err_if (negb (Status doc =? DID_STATUS_ACTIVE)) ErrDIDNotActive
  | None => Err ErrDIDNotActive
  end.
Definition verifyP256 (pubKey msg sig : string) : bool := VerifySignature Secp256r1 pubKey msg sig.

(** [errors.Wrap(ErrInvalidRequest, err.Error())] *)
Definition check_policy (messageCount : Z) (disclosable : list Z) : outcome unit :=
  match ValidateDisclosurePolicy messageCount disclosable with
  | Ok _ => Ok tt
  | Err _ => Err ErrCredInvalidRequest
  | Panic w => Panic w
  end.
Definition with_policy_hash (t : CredentialTemplate) : CredentialTemplate :=
  mkTemplate (t_Id t) (t_Version t) (t_OwnerDid t) (t_SchemaHash t) (t_IssuerBbsPubkey t) (t_Name t) (t_Status t)
    (t_CreatedAt t) (t_UpdatedAt t) (t_MessageCount t) (t_DisclosableIndices t) (PolicyHash t).

(** ** Templates *)
Definition RegisterCredentialTemplate (ctx : Context) (ids : I) (msg : MsgRegisterCredentialTemplate)
  : M CredState string :=
  has ← look (λ st, HasTemplate st (rt_Id msg));
  fail_if has ErrTemplateExists;;
  _ ← lift (authDID ids (rt_OwnerDid msg) (rt_Creator msg));
  let l := strlen (rt_IssuerBbsPubkey msg) in
  fail_if ((l =? 0) || (MaxBbsPubkeyLen <? l)) ErrCredInvalidRequest;;
  lift (check_policy (rt_MessageCount msg) (rt_DisclosableIndices msg));;
  let now := BlockTime ctx in
  let t := with_policy_hash (mkTemplate (rt_Id msg) 1 (rt_OwnerDid msg) (rt_SchemaHash msg) (rt_IssuerBbsPubkey msg)
             (rt_Name msg) TEMPLATE_STATUS_ACTIVE now now (rt_MessageCount msg) (rt_DisclosableIndices msg) "") in
  write (SetTemplate t);;
  EmitEvent "register_credential_template"
    [("template_id", rt_Id msg); ("owner_did", rt_OwnerDid msg); ("version", "1")];;
  mret (t_DisclosurePolicyHash t).

Definition UpdateCredentialTemplate (ctx : Context) (ids : I) (msg : MsgUpdateCredentialTemplate)
  : M CredState (Z * string) :=
  found ← look (λ st, GetTemplate st (ut_Id msg));
  t ← or_fail found ErrTemplateNotFound;
  _ ← lift (authDID ids (t_OwnerDid t) (ut_Creator msg));
  fail_if (t_Status t =? TEMPLATE_STATUS_DEPRECATED) ErrTemplateDeprecated;;
  lift (check_policy (ut_MessageCount msg) (ut_DisclosableIndices msg));;
  let t' := with_policy_hash (mkTemplate (t_Id t) (u32 (t_Version t + 1)) (t_OwnerDid t) (ut_SchemaHash msg)
              (t_IssuerBbsPubkey t) (ut_Name msg) (t_Status t) (t_CreatedAt t) (BlockTime ctx)
              (ut_MessageCount msg) (ut_DisclosableIndices msg) (t_DisclosurePolicyHash t)) in
  write (SetTemplate t');;
  EmitEvent "update_credential_template"
    [("template_id", ut_Id msg); ("version", Int_String (t_Version t'))];;
  mret (t_Version t', t_DisclosurePolicyHash t').

Definition DeprecateCredentialTemplate (ctx : Context) (ids : I) (msg : MsgDeprecateCredentialTemplate)
  : M CredState unit :=
  found ← look (λ st, GetTemplate st (dt_Id msg));
  t ← or_fail found ErrTemplateNotFound;
  _ ← lift (authDID ids (t_OwnerDid t) (dt_Creator msg));
  fail_if (t_Status t =? TEMPLATE_STATUS_DEPRECATED) ErrTemplateDeprecated;;
  write (SetTemplate (mkTemplate (t_Id t) (t_Version t) (t_OwnerDid t) (t_SchemaHash t) (t_IssuerBbsPubkey t)
    (t_Name t) TEMPLATE_STATUS_DEPRECATED (t_CreatedAt t) (BlockTime ctx) (t_MessageCount t)
    (t_DisclosableIndices t) (t_DisclosurePolicyHash t)));;
  EmitEvent "deprecate_credential_template" [("template_id", dt_Id msg)].

(** ** Anchors *)
Definition AnchorCredential (ctx : Context) (ids : I) (msg : MsgAnchorCredential) : M CredState unit :=
  has ← look (λ st, HasAnchor st (ac_CredentialHash msg));
  fail_if has ErrCredentialExists;;
  pubKey ← lift (authDID ids (ac_IssuerDid msg) (ac_Issuer msg));
  lift (requireActiveDID ids (ac_SubjectDid msg));;
  found ← look (λ st, GetTemplate st (ac_TemplateId msg));
  t ← or_fail found ErrTemplateNotFound;
  fail_if (negb (t_Status t =? TEMPLATE_STATUS_ACTIVE)) ErrTemplateDeprecated;;
  fail_if (negb (ac_TemplateVersion msg =? t_Version t)) ErrTemplateVersionMismatch;;
  fail_if (negb (verifyP256 pubKey (ac_CredentialHash msg) (ac_IssuerSig msg))) ErrInvalidSignature;;
  write (SetAnchor (mkAnchor (ac_CredentialHash msg) (ac_TemplateId msg) (ac_TemplateVersion msg) (ac_IssuerDid msg)
    (ac_SubjectDid msg) (BlockTime ctx) CREDENTIAL_STATUS_ACTIVE));;
  EmitEvent "anchor_credential"
    [("credential_hash", hex_encode (ac_CredentialHash msg)); ("template_id", ac_TemplateId msg);
     ("issuer_did", ac_IssuerDid msg); ("subject_did", ac_SubjectDid msg)].

Definition RevokeCredential (ids : I) (msg : MsgRevokeCredential) : M CredState unit :=
  found ← look (λ st, GetAnchor st (rc_CredentialHash msg));
  a ← or_fail found ErrCredentialNotFound;
  fail_if (an_Status a =? CREDENTIAL_STATUS_REVOKED) ErrCredentialRevoked;;
  _ ← lift (authDID ids (an_IssuerDid a) (rc_Issuer msg));
  write (SetAnchor (mkAnchor (an_CredentialHash a) (an_TemplateId a) (an_TemplateVersion a) (an_IssuerDid a)
    (an_SubjectDid a) (an_IssuedAt a) CREDENTIAL_STATUS_REVOKED));;
  EmitEvent "revoke_credential"
    [("credential_hash", hex_encode (rc_CredentialHash msg)); ("issuer_did", an_IssuerDid a)].

(** ** Agreements *)
Definition CreateAgreement (ctx : Context) (msg : MsgCreateAgreement) : M CredState unit :=
  has ← look (λ st, HasAgreement st (ca_Hash msg));
  fail_if has ErrAgreementExists;;
  params ← look GetParams;
  fail_if (MaxAgreementSigners params <? u32 (Z.of_nat (length (ca_RequiredSigners msg)))) ErrCredInvalidRequest;;
  write (SetAgreement (mkAgreement (ca_Hash msg) (ca_Creator msg) (ca_RequiredSigners msg) [] (ca_Deadline msg)
    AGREEMENT_STATUS_PENDING (BlockTime ctx)));;
  EmitEvent "create_agreement" [("agreement_hash", hex_encode (ca_Hash msg))].

Definition containsString (l : list string) (s : string) : bool := existsb (λ v, bool_decide (v = s)) l.

Definition SignAgreement (ctx : Context) (ids : I) (msg : MsgSignAgreement) : M CredState bool :=
  found ← look (λ st, GetAgreement st (sa_Hash msg));
  ag ← or_fail found ErrAgreementNotFound;
  fail_if (negb (ag_Status ag =? AGREEMENT_STATUS_PENDING)) ErrAgreementClosed;;
  let now := BlockTime ctx in
  fail_if (negb (ag_Deadline ag =? 0) && (ag_Deadline ag <? now)) ErrAgreementExpired;;
  fail_if (negb (containsString (ag_RequiredSigners ag) (sa_SignerDid msg))) ErrNotRequiredSigner;;
  fail_if (existsb (λ s, bool_decide (sg_SignerDid s = sa_SignerDid msg)) (ag_Signatures ag)) ErrAlreadySigned;;
  pubKey ← lift (authDID ids (sa_SignerDid msg) (sa_Signer msg));
  fail_if (negb (verifyP256 pubKey (sa_Hash msg) (sa_Signature msg))) ErrInvalidSignature;;
  let signatures := ag_Signatures ag ++ [mkSignature (sa_SignerDid msg) now] in
  let completed := Z.of_nat (length signatures) =? Z.of_nat (length (ag_RequiredSigners ag)) in
  write (SetAgreement (mkAgreement (ag_Hash ag) (ag_Creator ag) (ag_RequiredSigners ag) signatures (ag_Deadline ag)
    (if completed then AGREEMENT_STATUS_COMPLETED else ag_Status ag) (ag_CreatedAt ag)));;
  EmitEvent "sign_agreement"
    [("agreement_hash", hex_encode (sa_Hash msg)); ("signer_did", sa_SignerDid msg);
     ("completed", if completed then "true" else "false")];;
  (if completed then EmitEvent "complete_agreement" [("agreement_hash", hex_encode (sa_Hash msg))] else mret tt);;
  mret completed.

Definition CancelAgreement (msg : MsgCancelAgreement) : M CredState unit :=
  found ← look (λ st, GetAgreement st (xa_Hash msg));
  ag ← or_fail found ErrAgreementNotFound;
  fail_if (negb (ag_Status ag =? AGREEMENT_STATUS_PENDING)) ErrAgreementClosed;;
  fail_if (negb (bool_decide (ag_Creator ag = xa_Creator msg))) ErrCredUnauthorized;;
  write (SetAgreement (mkAgreement (ag_Hash ag) (ag_Creator ag) (ag_RequiredSigners ag) (ag_Signatures ag)
    (ag_Deadline ag) AGREEMENT_STATUS_CANCELLED (ag_CreatedAt ag)));;
  EmitEvent "cancel_agreement" [("agreement_hash", hex_encode (xa_Hash msg))].

(** ** The personal vault and the parameters *)
Definition AnchorPersonal (ctx : Context) (ids : I) (msg : MsgAnchorPersonal) : M CredState unit :=
  has ← look (λ st, HasPersonalAnchor st (ap_OwnerDid msg) (ap_AnchorHash msg));
  fail_if has ErrPersonalAnchorExists;;
  pubKey ← lift (authDID ids (ap_OwnerDid msg) (ap_Owner msg));
  fail_if (negb (verifyP256 pubKey (ap_AnchorHash msg) (ap_Signature msg))) ErrInvalidSignature;;
  write (SetPersonalAnchor (mkPersonal (ap_OwnerDid msg) (ap_AnchorHash msg) (BlockTime ctx)));;
  EmitEvent "anchor_personal"
    [("owner_did", ap_OwnerDid msg); ("anchor_hash", hex_encode (ap_AnchorHash msg))].

Definition UpdateParams (msg : MsgUpdateCredParams) : M CredState unit :=
  fail_if (negb (bool_decide (up_Authority msg = authority))) ErrInvalidSigner;;
  on_store (SetParams (up_Params msg)).

(** ** The transaction: stateless validation, then the handler *)
Definition run_handler (ctx : Context) (ids : I) (m : CredMsg) : M CredState unit :=
  match m with
  | MRegisterTemplate m => _ ← RegisterCredentialTemplate ctx ids m; mret tt
  | MUpdateTemplate m => _ ← UpdateCredentialTemplate ctx ids m; mret tt
  | MDeprecateTemplate m => DeprecateCredentialTemplate ctx ids m
  | MAnchorCredential m => AnchorCredential ctx ids m
  | MRevokeCredential m => RevokeCredential ids m
  | MCreateAgreement m => CreateAgreement ctx m
  | MSignAgreement m => _ ← SignAgreement ctx ids m; mret tt
  | MCancelAgreement m => CancelAgreement m
  | MAnchorPersonal m => AnchorPersonal ctx ids m
  | MUpdateCredParams m => UpdateParams m
  end.
Definition handle (ctx : Context) (ids : I) (m : CredMsg) : M CredState unit :=
  lift (CredMsg_ValidateBasic m);; run_handler ctx ids m.
End server.
