(* ===== verification/CredRules.v ===== *)
(** * x/credentials: the rules the handlers implement

    [cred_rule] states declaratively when a credentials transaction may execute and what
    it does to the store; [handle_refines] shows that the handlers implement exactly
    these rules, so the theorems about histories are proved on the rules. *)
From stdpp Require Import base gmap strings list.
From Stdlib Require Import ZArith Lia.
From S2P Require Import Prelude GoInt KVStore Interfaces PhiDid IdTypes CredTypes CredServer.

(** ** Validation, declaratively *)
Definition policy_ok (messageCount : Z) (disclosable : list Z) : Prop :=
  messageCount ≤ MaxBbsMessages ∧ Z.of_nat (length disclosable) ≤ messageCount ∧
  NoDup disclosable ∧ Forall (λ i, i < messageCount) disclosable.

Lemma check_indices_spec mc seen l :
  check_indices mc seen l = Ok tt ↔ Forall (λ i, i < mc) l ∧ NoDup l ∧ ∀ i, i ∈ l → i ∉ seen.
Proof.
  revert seen. induction l as [|i l IH]; intros seen; cbn [check_indices].
  { split; [|done]. intros _. split_and!; [constructor|constructor|set_solver]. }
  rewrite Forall_cons, NoDup_cons. split.
  - intros E. go_inv. bool_prop.
    match goal with H : check_indices _ _ _ = _ |- _ => apply IH in H as (? & ? & Hs) end.
    split_and!; [done|done| |done|].
    + intros Hi. specialize (Hs i Hi). set_solver.
    + intros j [->|Hj]%elem_of_cons; [done|]. specialize (Hs j Hj). set_solver.
  - intros ([Hi Hf] & [Hn Hd] & Hs). rewrite (proj2 (Z.leb_gt _ _)) by lia.
    rewrite bool_decide_eq_false_2 by (apply Hs; left). apply IH. split_and!; [done|done|].
    intros j Hj. specialize (Hs j ltac:(by right)). assert (j ≠ i) by (intros ->; done). set_solver.
Qed.
Lemma ValidateDisclosurePolicy_spec mc l : ValidateDisclosurePolicy mc l = Ok tt ↔ policy_ok mc l.
Proof.
  unfold ValidateDisclosurePolicy, policy_ok. split.
  - intros E. go_inv. bool_prop. match goal with H : check_indices _ _ _ = _ |- _ => apply check_indices_spec in H as (? & ? & _) end.
    done.
  - intros (H1 & H2 & H3 & H4). rewrite (proj2 (Z.ltb_ge MaxBbsMessages mc)) by lia.
    assert ((mc =? 0) && (0 <? Z.of_nat (length l)) = false) as ->.
    { destruct (Z.eqb_spec mc 0); [|done]. apply Z.ltb_ge. lia. }
    rewrite (proj2 (Z.ltb_ge mc (Z.of_nat (length l)))) by lia. apply check_indices_spec. split_and!; [done|done|set_solver].
Qed.
Lemma check_policy_spec mc l : check_policy mc l = Ok tt ↔ policy_ok mc l.
Proof.
  rewrite <- ValidateDisclosurePolicy_spec. unfold check_policy.
  destruct (ValidateDisclosurePolicy mc l) as [[]| |]; split; done.
Qed.
Lemma check_signers_spec seen l :
  check_signers seen l = Ok tt ↔ Forall (λ d, 0 < strlen d) l ∧ NoDup l ∧ ∀ d, d ∈ l → d ∉ seen.
Proof.
  revert seen. induction l as [|d l IH]; intros seen; cbn [check_signers].
  { split; [|done]. intros _. split_and!; [constructor|constructor|set_solver]. }
  rewrite Forall_cons, NoDup_cons. unfold strlen at 1 2. split.
  - intros E. go_inv. bool_prop.
    match goal with H : check_signers _ _ = _ |- _ => apply IH in H as (? & ? & Hs) end.
    split_and!; [lia|done| |done|].
    + intros Hi. specialize (Hs d Hi). set_solver.
    + intros j [->|Hj]%elem_of_cons; [done|]. specialize (Hs j Hj). set_solver.
  - intros ([Hi Hf] & [Hn Hd] & Hs). rewrite (proj2 (Z.eqb_neq _ _)) by lia.
    rewrite bool_decide_eq_false_2 by (apply Hs; left). apply IH. split_and!; [done|done|].
    intros j Hj. specialize (Hs j ltac:(by right)). assert (j ≠ d) by (intros ->; done). set_solver.
Qed.
Lemma containsString_spec l s : containsString l s = true ↔ s ∈ l.
Proof.
  unfold containsString. rewrite existsb_exists, list_elem_of_In. split.
  - intros (v & Hv & E). by bool_prop; subst.
  - intros Hs. exists s. split; [done|]. by apply bool_decide_eq_true.
Qed.

(** ** The rules *)
Definition signers (ag : Agreement) : list string := sg_SignerDid <$> ag_Signatures ag.

Section rules.
Context {I : Type} `{DocumentReader I} `{AddressCodec} `{Hasher} `{Verifier}.
Context (authority : string).

(** [signer] speaks for an active identity [did] whose key is [pk] *)
Definition controls (ids : I) (did signer pk : string) : Prop :=
  ∃ doc, GetIdentity ids did = Some doc ∧ Status doc = DID_STATUS_ACTIVE ∧ Controller doc = signer ∧ PubKey doc = pk.
Definition active (ids : I) (did : string) : Prop :=
  ∃ doc, GetIdentity ids did = Some doc ∧ Status doc = DID_STATUS_ACTIVE.
(** a P-256 signature of [did]'s key over [msg], sent by its controller *)
Definition signs (ids : I) (did signer msg sig : string) : Prop :=
  ∃ pk, controls ids did signer pk ∧ VerifySignature Secp256r1 pk msg sig = true.

Inductive cred_rule (ctx : Context) (ids : I) : CredMsg → CredStore → CredStore → Prop :=
| rule_register m st t pk :
    GetTemplate st (rt_Id m) = None →
    controls ids (rt_OwnerDid m) (rt_Creator m) pk →
    0 < strlen (rt_IssuerBbsPubkey m) ≤ MaxBbsPubkeyLen →
    policy_ok (rt_MessageCount m) (rt_DisclosableIndices m) →
    t = mkTemplate (rt_Id m) 1 (rt_OwnerDid m) (rt_SchemaHash m) (rt_IssuerBbsPubkey m) (rt_Name m)
          TEMPLATE_STATUS_ACTIVE (BlockTime ctx) (BlockTime ctx) (rt_MessageCount m) (rt_DisclosableIndices m)
          (DisclosurePolicyHash (rt_Id m) 1 (rt_MessageCount m) (rt_DisclosableIndices m)) →
    cred_rule ctx ids (MRegisterTemplate m) st (SetTemplate t st)
| rule_update m st t t' pk :
    GetTemplate st (ut_Id m) = Some t →
    controls ids (t_OwnerDid t) (ut_Creator m) pk →
    t_Status t ≠ TEMPLATE_STATUS_DEPRECATED →
    policy_ok (ut_MessageCount m) (ut_DisclosableIndices m) →
    t' = mkTemplate (t_Id t) (u32 (t_Version t + 1)) (t_OwnerDid t) (ut_SchemaHash m) (t_IssuerBbsPubkey t)
           (ut_Name m) (t_Status t) (t_CreatedAt t) (BlockTime ctx) (ut_MessageCount m) (ut_DisclosableIndices m)
           (DisclosurePolicyHash (t_Id t) (u32 (t_Version t + 1)) (ut_MessageCount m) (ut_DisclosableIndices m)) →
    cred_rule ctx ids (MUpdateTemplate m) st (SetTemplate t' st)
| rule_deprecate m st t t' pk :
    GetTemplate st (dt_Id m) = Some t →
    controls ids (t_OwnerDid t) (dt_Creator m) pk →
    t_Status t ≠ TEMPLATE_STATUS_DEPRECATED →
    t' = mkTemplate (t_Id t) (t_Version t) (t_OwnerDid t) (t_SchemaHash t) (t_IssuerBbsPubkey t) (t_Name t)
           TEMPLATE_STATUS_DEPRECATED (t_CreatedAt t) (BlockTime ctx) (t_MessageCount t) (t_DisclosableIndices t)
           (t_DisclosurePolicyHash t) →
    cred_rule ctx ids (MDeprecateTemplate m) st (SetTemplate t' st)
| rule_anchor m st t a :
    GetAnchor st (ac_CredentialHash m) = None →
    signs ids (ac_IssuerDid m) (ac_Issuer m) (ac_CredentialHash m) (ac_IssuerSig m) →
    active ids (ac_SubjectDid m) →
    GetTemplate st (ac_TemplateId m) = Some t → t_Status t = TEMPLATE_STATUS_ACTIVE →
    ac_TemplateVersion m = t_Version t →
    a = mkAnchor (ac_CredentialHash m) (ac_TemplateId m) (ac_TemplateVersion m) (ac_IssuerDid m) (ac_SubjectDid m)
          (BlockTime ctx) CREDENTIAL_STATUS_ACTIVE →
    cred_rule ctx ids (MAnchorCredential m) st (SetAnchor a st)
| rule_revoke m st a a' pk :
    GetAnchor st (rc_CredentialHash m) = Some a → an_Status a ≠ CREDENTIAL_STATUS_REVOKED →
    controls ids (an_IssuerDid a) (rc_Issuer m) pk →
    a' = mkAnchor (an_CredentialHash a) (an_TemplateId a) (an_TemplateVersion a) (an_IssuerDid a) (an_SubjectDid a)
           (an_IssuedAt a) CREDENTIAL_STATUS_REVOKED →
    cred_rule ctx ids (MRevokeCredential m) st (SetAnchor a' st)
| rule_create m st ag :
    GetAgreement st (ca_Hash m) = None →
    u32 (Z.of_nat (length (ca_RequiredSigners m))) ≤ MaxAgreementSigners (GetParams st) →
    ag = mkAgreement (ca_Hash m) (ca_Creator m) (ca_RequiredSigners m) [] (ca_Deadline m)
           AGREEMENT_STATUS_PENDING (BlockTime ctx) →
    cred_rule ctx ids (MCreateAgreement m) st (SetAgreement ag st)
| rule_sign m st ag ag' :
    GetAgreement st (sa_Hash m) = Some ag → ag_Status ag = AGREEMENT_STATUS_PENDING →
    ag_Deadline ag = 0 ∨ BlockTime ctx ≤ ag_Deadline ag →
    sa_SignerDid m ∈ ag_RequiredSigners ag → sa_SignerDid m ∉ signers ag →
    signs ids (sa_SignerDid m) (sa_Signer m) (sa_Hash m) (sa_Signature m) →
    ag' = mkAgreement (ag_Hash ag) (ag_Creator ag) (ag_RequiredSigners ag)
            (ag_Signatures ag ++ [mkSignature (sa_SignerDid m) (BlockTime ctx)]) (ag_Deadline ag)
            (if decide (S (length (ag_Signatures ag)) = length (ag_RequiredSigners ag))
             then AGREEMENT_STATUS_COMPLETED else AGREEMENT_STATUS_PENDING) (ag_CreatedAt ag) →
    cred_rule ctx ids (MSignAgreement m) st (SetAgreement ag' st)
| rule_cancel m st ag ag' :
    GetAgreement st (xa_Hash m) = Some ag → ag_Status ag = AGREEMENT_STATUS_PENDING →
    ag_Creator ag = xa_Creator m →
    ag' = mkAgreement (ag_Hash ag) (ag_Creator ag) (ag_RequiredSigners ag) (ag_Signatures ag) (ag_Deadline ag)
            AGREEMENT_STATUS_CANCELLED (ag_CreatedAt ag) →
    cred_rule ctx ids (MCancelAgreement m) st (SetAgreement ag' st)
| rule_personal m st p :
    c_personal st !! PersonalKey (ap_OwnerDid m) (ap_AnchorHash m) = None →
    signs ids (ap_OwnerDid m) (ap_Owner m) (ap_AnchorHash m) (ap_Signature m) →
    p = mkPersonal (ap_OwnerDid m) (ap_AnchorHash m) (BlockTime ctx) →
    cred_rule ctx ids (MAnchorPersonal m) st (SetPersonalAnchor p st)
| rule_params m st :
    up_Authority m = authority → MaxAgreementSigners (up_Params m) ≠ 0 →
    cred_rule ctx ids (MUpdateCredParams m) st
      (mkCredStore (Some (up_Params m)) (c_templates st) (c_anchors st) (c_agreements st) (c_personal st)).

Lemma authDID_spec ids did signer pk : authDID ids did signer = Ok pk ↔ controls ids did signer pk.
Proof.
  unfold authDID, controls. destruct (GetIdentity ids did) as [doc|]; [|naive_solver].
  destruct (Z.eqb_spec (Status doc) DID_STATUS_ACTIVE); cbn [negb]; [|naive_solver].
  case_bool_decide; cbn [negb]; naive_solver.
Qed.
Lemma requireActiveDID_spec ids did : requireActiveDID ids did = Ok tt ↔ active ids did.
Proof.
  unfold requireActiveDID, active. destruct (GetIdentity ids did) as [doc|]; [|naive_solver].
  destruct (Z.eqb_spec (Status doc) DID_STATUS_ACTIVE); cbn; naive_solver.
Qed.
Lemma signed_spec ids did signer msg sig pk :
  authDID ids did signer = Ok pk → verifyP256 pk msg sig = true → signs ids did signer msg sig.
Proof. intros Hc%authDID_spec Hv. by exists pk. Qed.
Lemma signed_before ag did :
  existsb (λ s, bool_decide (sg_SignerDid s = did)) (ag_Signatures ag) = true ↔ did ∈ signers ag.
Proof.
  rewrite existsb_exists. unfold signers. rewrite list_elem_of_fmap. setoid_rewrite list_elem_of_In. split.
  - intros (s & Hs & E). bool_prop. by exists s.
  - intros (s & -> & Hs). exists s. split; [done|]. by apply bool_decide_eq_true.
Qed.

(** ** The handlers implement the rules *)
Ltac rule_facts :=
  go_inv; bool_prop;
  repeat match goal with
  | H : authDID _ _ _ = Ok _ |- _ => apply authDID_spec in H
  | H : requireActiveDID _ _ = Ok _ |- _ => destruct_unit H; apply requireActiveDID_spec in H
  | H : check_policy _ _ = Ok _ |- _ => destruct_unit H; apply check_policy_spec in H
  end
with destruct_unit H :=
  match type of H with _ = Ok ?u => is_var u; destruct u | _ => idtac end.

Lemma handler_rule ctx ids m s s' :
  run_handler authority ctx ids m s = (Ok tt, s') → cred_rule ctx ids m (cr_store s) (cr_store s').
Proof.
  destruct m as [m|m|m|m|m|m|m|m|m|m]; cbn [run_handler]; intros E.
  - unfold RegisterCredentialTemplate, write, on_store, look, EmitEvent in E. rule_facts.
    eapply rule_register; [by apply not_has|done|unfold strlen in *; lia|done|done].
  - unfold UpdateCredentialTemplate, write, on_store, look, EmitEvent in E. rule_facts.
    by eapply rule_update.
  - unfold DeprecateCredentialTemplate, write, on_store, look, EmitEvent in E. rule_facts.
    by eapply rule_deprecate.
  - unfold AnchorCredential, write, on_store, look, EmitEvent in E. rule_facts.
    eapply rule_anchor; [by apply not_has|by eexists|done..].
  - unfold RevokeCredential, write, on_store, look, EmitEvent in E. rule_facts.
    by eapply rule_revoke.
  - unfold CreateAgreement, write, on_store, look, EmitEvent in E. rule_facts.
    eapply rule_create; [by apply not_has|done|done].
  - unfold SignAgreement, write, on_store, look, EmitEvent in E. rule_facts.
    match goal with E : GetAgreement (cr_store ?s0) _ = Some ?g |- _ => rename g into ag, s0 into s end.
    assert (cr_store s' = SetAgreement (mkAgreement (ag_Hash ag) (ag_Creator ag) (ag_RequiredSigners ag)
      (ag_Signatures ag ++ [mkSignature (sa_SignerDid m) (BlockTime ctx)]) (ag_Deadline ag)
      (if decide (S (length (ag_Signatures ag)) = length (ag_RequiredSigners ag))
       then AGREEMENT_STATUS_COMPLETED else AGREEMENT_STATUS_PENDING) (ag_CreatedAt ag)) (cr_store s)) as ->.
    { rewrite length_app, Nat.add_1_r in *. go_cases; cbn [cr_store]; f_equal; f_equal;
        case_decide; bool_prop; (done || lia). }
    eapply rule_sign; [done|done| |by apply containsString_spec| |by eexists|done].
    + destruct (Z.eqb_spec (ag_Deadline ag) 0); [by left|right]. cbn in *. bool_prop. done.
    + rewrite <- signed_before. congruence.
  - unfold CancelAgreement, write, on_store, look, EmitEvent in E. rule_facts.
    by eapply rule_cancel.
  - unfold AnchorPersonal, write, on_store, look, EmitEvent in E. rule_facts.
    eapply rule_personal; [by apply not_has|by eexists|done].
  - unfold UpdateParams, SetParams, on_store, CredParams_Validate in E. rule_facts.
    by eapply rule_params.
Qed.

(** the boolean form of a rule's premises *)
Lemma ne_false a b : a ≠ b → (a =? b) = false.
Proof. apply Z.eqb_neq. Qed.
Lemma signs_inv ids did signer msg sig : signs ids did signer msg sig →
  ∃ pk, authDID ids did signer = Ok pk ∧ verifyP256 pk msg sig = true.
Proof. intros (pk & Hc & Hv). exists pk. by rewrite authDID_spec. Qed.
Ltac run_prim :=
  cbv [write look on_store EmitEvent mbind M_bind mret M_ret reads lift fail_if fail or_fail zoom modify];
  cbn [cr_store cr_events].
(** decides one guard of the running handler *)
Tactic Notation "guard" constr(e) "is" constr(b) "by" tactic3(t) :=
  let E := fresh in assert (e = b) as E by t; rewrite !E; clear E; cbn [cr_store cr_events].
Tactic Notation "auth" constr(H) := rewrite (proj2 (authDID_spec _ _ _ _) H).

Lemma rule_handler ctx ids m s st' :
  cred_rule ctx ids m (cr_store s) st' → ∃ s', run_handler authority ctx ids m s = (Ok tt, s') ∧ cr_store s' = st'.
Proof.
  destruct s as [st evs]. cbn [cr_store]. intros E.
  destruct E as [m st t pk Hn Hc Hl Hp ->|m st t t' pk Hg Hc Hs Hp ->|m st t t' pk Hg Hc Hs ->
    |m st t a Hn Hsg Ha Hg Hs Hv ->|m st a a' pk Hg Hs Hc ->|m st ag Hn Hb ->|m st ag ag' Hg Hs Hd Hr Hns Hsg ->
    |m st ag ag' Hg Hs Hcr ->|m st p Hn Hsg ->|m st Ha Hp]; cbn [run_handler].
  - unfold RegisterCredentialTemplate. run_prim. guard (HasTemplate st (rt_Id m)) is false by (by apply not_has).
    auth Hc. guard ((strlen (rt_IssuerBbsPubkey m) =? 0) || (MaxBbsPubkeyLen <? strlen (rt_IssuerBbsPubkey m))) is false
      by (apply orb_false_iff; split; [apply Z.eqb_neq|apply Z.ltb_ge]; lia).
    rewrite (proj2 (check_policy_spec _ _) Hp). by eexists.
  - unfold UpdateCredentialTemplate. run_prim. rewrite Hg. auth Hc.
    guard (t_Status t =? TEMPLATE_STATUS_DEPRECATED) is false by (by apply ne_false).
    rewrite (proj2 (check_policy_spec _ _) Hp). by eexists.
  - unfold DeprecateCredentialTemplate. run_prim. rewrite Hg. auth Hc.
    guard (t_Status t =? TEMPLATE_STATUS_DEPRECATED) is false by (by apply ne_false). by eexists.
  - destruct (signs_inv _ _ _ _ _ Hsg) as (pk & Hc & Hsig). unfold AnchorCredential. run_prim.
    guard (HasAnchor st (ac_CredentialHash m)) is false by (by apply not_has).
    rewrite Hc, (proj2 (requireActiveDID_spec _ _) Ha). cbn [cr_store]. rewrite Hg, Hs, Hv, !Z.eqb_refl, Hsig. by eexists.
  - unfold RevokeCredential. run_prim. rewrite Hg.
    guard (an_Status a =? CREDENTIAL_STATUS_REVOKED) is false by (by apply ne_false). auth Hc. by eexists.
  - unfold CreateAgreement. run_prim. guard (HasAgreement st (ca_Hash m)) is false by (by apply not_has).
    rewrite (proj2 (Z.ltb_ge _ _) Hb). by eexists.
  - destruct (signs_inv _ _ _ _ _ Hsg) as (pk & Hc & Hsig). unfold SignAgreement. run_prim. rewrite Hg, Hs, Z.eqb_refl.
    cbn [negb]. guard (negb (ag_Deadline ag =? 0) && (ag_Deadline ag <? BlockTime ctx)) is false
      by (apply andb_false_iff; rewrite negb_false_iff, Z.eqb_eq, Z.ltb_ge; lia).
    rewrite (proj2 (containsString_spec _ _) Hr). cbn [negb].
    guard (existsb (λ s, bool_decide (sg_SignerDid s = sa_SignerDid m)) (ag_Signatures ag)) is false
      by (apply not_true_iff_false; by rewrite signed_before).
    rewrite Hc, Hsig, length_app, Nat.add_1_r. cbn [negb].
    guard (Z.of_nat (S (length (ag_Signatures ag))) =? Z.of_nat (length (ag_RequiredSigners ag)))
      is (bool_decide (S (length (ag_Signatures ag)) = length (ag_RequiredSigners ag)))
      by (case_bool_decide; [apply Z.eqb_eq|apply Z.eqb_neq]; lia).
    case_decide as Hd'; [rewrite bool_decide_eq_true_2 by done|rewrite bool_decide_eq_false_2 by done]; by eexists.
  - unfold CancelAgreement. run_prim. rewrite Hg, Hs, Z.eqb_refl. rewrite bool_decide_eq_true_2 by done. by eexists.
  - destruct (signs_inv _ _ _ _ _ Hsg) as (pk & Hc & Hsig). unfold AnchorPersonal. run_prim.
    guard (HasPersonalAnchor st (ap_OwnerDid m) (ap_AnchorHash m)) is false by (by apply not_has).
    rewrite Hc, Hsig. by eexists.
  - unfold UpdateParams, SetParams, CredParams_Validate, err_if. run_prim.
    rewrite bool_decide_eq_true_2, ne_false by done. by eexists.
Qed.

(** C11: the credentials handlers implement their rules, and nothing else.  A message
    executes on a store, with a given resulting store, exactly when it passes stateless
    validation and the rule of its type allows that transition: a template is created or
    changed only by the controller of its active owner identity, a credential is anchored
    only on the verified signature of an active issuer against the current version of an
    active template, an agreement is signed only by a listed signer who has not signed, in
    time, with a verified signature. *)
Theorem credentials_refine_rules ctx ids m s st' :
  (∃ s', handle authority ctx ids m s = (Ok tt, s') ∧ cr_store s' = st') ↔
  CredMsg_ValidateBasic m = Ok tt ∧ cred_rule ctx ids m (cr_store s) st'.
Proof.
  unfold handle. split.
  - intros (s' & E & <-). go_inv. match goal with u : unit |- _ => destruct u end.
    split; [done|]. by apply handler_rule.
  - intros [Hv Hr]. destruct (rule_handler _ _ _ _ _ Hr) as (s' & E & <-). exists s'. split; [|done].
    by erewrite run_bind by (unfold lift; by rewrite Hv).
Qed.
End rules.
