(* ===== verification/CredHistory.v ===== *)
(** * x/credentials: histories

    A history is the list of transactions the chain delivered, each with the block
    context and the identity registry it saw.  The theorems say what every state a
    history leads to owes to the history: which signatures stand behind an agreement and
    an anchor, and which parts of a record can never change again. *)
From stdpp Require Import base gmap strings list sorting.
From Stdlib Require Import ZArith Lia Ascii.
From S2P Require Import Prelude GoInt KVStore Interfaces PhiDid IdTypes CredTypes CredServer CredRules.

Section history.
Context {I : Type} `{DocumentReader I} `{AddressCodec} `{Hasher} `{Verifier}.
Context (authority : string).

(** one delivered transaction *)
Record Tx := mkTx { tx_ctx : Context; tx_ids : I; tx_msg : CredMsg }.
Definition apply_tx (s : CredState) (e : Tx) : CredState := deliver (handle authority (tx_ctx e) (tx_ids e) (tx_msg e)) s.
Definition cred_run (tr : list Tx) (s : CredState) : CredState := foldl apply_tx s tr.
(** the state the default genesis leaves *)
Definition cred_genesis : CredState := mkCredState (mkCredStore (Some DefaultCredParams) ∅ ∅ ∅ ∅) [].
(** the store after a history *)
Definition after (tr : list Tx) : CredStore := cr_store (cred_run tr cred_genesis).

Lemma cred_run_snoc tr e s : cred_run (tr ++ [e]) s = apply_tx (cred_run tr s) e.
Proof. unfold cred_run. by rewrite foldl_app. Qed.
(** every transaction leaves the store as it was or follows its rule *)
Lemma apply_tx_rule s e :
  cr_store (apply_tx s e) = cr_store s ∨
  CredMsg_ValidateBasic (tx_msg e) = Ok tt ∧
  cred_rule authority (tx_ctx e) (tx_ids e) (tx_msg e) (cr_store s) (cr_store (apply_tx s e)).
Proof.
  unfold apply_tx. destruct (deliver_run (handle authority (tx_ctx e) (tx_ids e) (tx_msg e)) s) as [->|[[] E]]; [by left|right].
  unfold handle in E at 1. go_inv. match goal with u : unit |- _ => destruct u end. split; [done|]. by eapply handler_rule.
Qed.
(** induction over a history, on the rules *)
Lemma history_ind (P : list Tx → CredStore → Prop) :
  P [] (cr_store cred_genesis) →
  (∀ tr e st, P tr st → P (tr ++ [e]) st) →
  (∀ tr e st st', P tr st → CredMsg_ValidateBasic (tx_msg e) = Ok tt →
     cred_rule authority (tx_ctx e) (tx_ids e) (tx_msg e) st st' → P (tr ++ [e]) st') →
  ∀ tr, P tr (after tr).
Proof.
  intros H0' Hkeep Hrule tr. induction tr as [|e tr IH] using rev_ind; [done|]. unfold after in *. rewrite cred_run_snoc.
  destruct (apply_tx_rule (cred_run tr cred_genesis) e) as [->|[Hv Hr]]; [by apply Hkeep|by eapply Hrule].
Qed.

(** ** Agreements *)
(** the history holds the signature a record stands for *)
Definition signature_backed (tr : list Tx) (ag : Agreement) (sg : AgreementSignature) : Prop :=
  ∃ e m, e ∈ tr ∧ tx_msg e = MSignAgreement m ∧ sa_Hash m = ag_Hash ag ∧ sa_SignerDid m = sg_SignerDid sg ∧
    BlockTime (tx_ctx e) = sg_SignedAt sg ∧ (ag_Deadline ag = 0 ∨ sg_SignedAt sg ≤ ag_Deadline ag) ∧
    signs (tx_ids e) (sa_SignerDid m) (sa_Signer m) (ag_Hash ag) (sa_Signature m).

Record agreement_ok (tr : list Tx) (h : string) (ag : Agreement) : Prop := {
  ao_hash : ag_Hash ag = h;
  ao_required : NoDup (ag_RequiredSigners ag) ∧ ag_RequiredSigners ag ≠ [];
  ao_signers : NoDup (signers ag) ∧ signers ag ⊆ ag_RequiredSigners ag;
  ao_status : ag_Status ag = AGREEMENT_STATUS_COMPLETED ∧ signers ag ≡ₚ ag_RequiredSigners ag ∨
    (ag_Status ag = AGREEMENT_STATUS_PENDING ∨ ag_Status ag = AGREEMENT_STATUS_CANCELLED) ∧
    (length (signers ag) < length (ag_RequiredSigners ag))%nat;
  ao_backed : Forall (signature_backed tr ag) (ag_Signatures ag);
}.
Lemma signature_backed_mono tr e ag ag' sg :
  ag_Hash ag' = ag_Hash ag → ag_Deadline ag' = ag_Deadline ag →
  signature_backed tr ag sg → signature_backed (tr ++ [e]) ag' sg.
Proof.
  intros Eh Ed (e0 & m & Hin & R). exists e0, m. rewrite Eh, Ed. split; [set_solver|done].
Qed.
Lemma agreement_ok_mono tr e h ag : agreement_ok tr h ag → agreement_ok (tr ++ [e]) h ag.
Proof.
  intros []. constructor; [done..|]. eapply Forall_impl; [done|]. intros sg. by apply signature_backed_mono.
Qed.
Lemma agreement_signed tr e m h ag :
  agreement_ok tr h ag → tx_msg e = MSignAgreement m → sa_Hash m = h →
  ag_Status ag = AGREEMENT_STATUS_PENDING →
  ag_Deadline ag = 0 ∨ BlockTime (tx_ctx e) ≤ ag_Deadline ag →
  sa_SignerDid m ∈ ag_RequiredSigners ag → sa_SignerDid m ∉ signers ag →
  signs (tx_ids e) (sa_SignerDid m) (sa_Signer m) (sa_Hash m) (sa_Signature m) →
  agreement_ok (tr ++ [e]) h (mkAgreement (ag_Hash ag) (ag_Creator ag) (ag_RequiredSigners ag)
    (ag_Signatures ag ++ [mkSignature (sa_SignerDid m) (BlockTime (tx_ctx e))]) (ag_Deadline ag)
    (if decide (S (length (ag_Signatures ag)) = length (ag_RequiredSigners ag))
     then AGREEMENT_STATUS_COMPLETED else AGREEMENT_STATUS_PENDING) (ag_CreatedAt ag)).
Proof.
  intros [Hh Hr [Hn Hsub] Hst Hb] Em <- Hp Hd Hin Hnin Hsg.
  assert (NoDup (signers ag ++ [sa_SignerDid m])) as Hnd.
  { apply NoDup_app. split_and!; [done|set_solver|apply NoDup_singleton]. }
  assert (signers ag ++ [sa_SignerDid m] ⊆ ag_RequiredSigners ag) as Hs by set_solver.
  assert (length (signers ag) = length (ag_Signatures ag)) as Hl by apply length_fmap.
  constructor; unfold signers; cbn [ag_Hash ag_RequiredSigners ag_Signatures ag_Status]; rewrite ?fmap_app;
    cbn [fmap list_fmap sg_SignerDid]; fold (signers ag); [done|done|done| |].
  - rewrite length_app. cbn [length]. case_decide as E; [left|right].
    + split; [done|]. apply submseteq_length_Permutation; [by apply NoDup_submseteq|].
      rewrite length_app. cbn [length]. lia.
    + split; [by left|]. pose proof (submseteq_length _ _ (NoDup_submseteq _ _ Hnd Hs)) as Hle.
      rewrite length_app in Hle. cbn [length] in Hle. lia.
  - apply Forall_app. split.
    + eapply Forall_impl; [done|]. intros sg. by apply signature_backed_mono.
    + apply Forall_singleton. exists e, m. cbn. rewrite Hh. split_and!; [set_solver|done..].
Qed.
Definition agreements_ok (tr : list Tx) (st : CredStore) : Prop :=
  ∀ h ag, GetAgreement st h = Some ag → agreement_ok tr h ag.

Lemma create_basic m : CreateAgreement_ValidateBasic m = Ok tt →
  NoDup (ca_RequiredSigners m) ∧ ca_RequiredSigners m ≠ [].
Proof.
  unfold CreateAgreement_ValidateBasic. intros E. go_inv. repeat match goal with u : unit |- _ => destruct u end.
  match goal with H : check_signers _ _ = _ |- _ => apply check_signers_spec in H as (_ & ? & _) end.
  split; [done|]. intros E. by rewrite E in *.
Qed.
(** a rule that writes no agreement keeps the property of those there are *)
Lemma agreements_keep tr e st st' :
  c_agreements st' = c_agreements st → agreements_ok tr st → agreements_ok (tr ++ [e]) st'.
Proof. intros E Hok h ag Hg. apply agreement_ok_mono, Hok. unfold GetAgreement in *. by rewrite <- E. Qed.
Lemma agreements_put tr e st ag :
  agreement_ok (tr ++ [e]) (ag_Hash ag) ag → agreements_ok tr st → agreements_ok (tr ++ [e]) (SetAgreement ag st).
Proof.
  intros Ha Hok h ag' Hg. unfold GetAgreement, SetAgreement in Hg. cbn in Hg.
  apply lookup_insert_Some in Hg as [[<- <-]|[_ Hg]]; [done|]. by apply agreement_ok_mono, Hok.
Qed.
Lemma agreements_after tr : agreements_ok tr (after tr).
Proof.
  revert tr. apply history_ind; [done|intros tr e st; by apply agreements_keep|].
  intros tr e st st' IH Hv Hr. remember (tx_msg e) as msg eqn:Em.
  destruct Hr as [| | | | |m st ag Hn Hb ->|m st ag ag' Hg Hs Hd Hin Hns Hsg ->|m st ag ag' Hg Hs Hcr ->| |];
    try by apply (agreements_keep tr e st).
  - apply agreements_put; [|done]. destruct (create_basic m Hv) as [Hnd Hne].
    constructor; cbn; [done|done|split; [apply NoDup_nil_2|apply list_subseteq_nil]| |constructor]. right. split; [by left|].
    destruct (ca_RequiredSigners m); [done|]. cbn. lia.
  - apply agreements_put; [|done]. pose proof (IH _ _ Hg) as Hok. pose proof (ao_hash _ _ _ Hok) as Eh.
    eapply agreement_signed; [by rewrite Eh|done..].
  - apply agreements_put; [|done]. pose proof (IH _ _ Hg) as Hok. destruct Hok as [Hh Hr Hsi Hst Hb].
    constructor; cbn [ag_Hash]; [done|done|done| |].
    + right. split; [by right|]. destruct Hst as [[Hst _]|[_ Hst]]; [by rewrite Hst in Hs|done].
    + eapply Forall_impl; [done|]. intros sg. by apply signature_backed_mono.
Qed.

(** C18: a completed agreement is signed by everyone it names.  After any history, every
    agreement on the chain is complete exactly when its signers are its required signers,
    each once; nobody else is among the signers; and behind every signature the history
    holds a transaction, at the recorded time and not after the deadline, in which the
    controller of the then active identity presented a valid P-256 signature of that
    identity's key over the agreement hash. *)
Theorem agreement_signatures_are_backed tr h ag :
  GetAgreement (after tr) h = Some ag →
  (ag_Status ag = AGREEMENT_STATUS_COMPLETED ↔ signers ag ≡ₚ ag_RequiredSigners ag) ∧
  NoDup (signers ag) ∧ signers ag ⊆ ag_RequiredSigners ag ∧ ag_Hash ag = h ∧
  ∀ sg, sg ∈ ag_Signatures ag → signature_backed tr ag sg.
Proof.
  intros Hg. destruct (agreements_after tr h ag Hg) as [Hh [_ Hne] [Hn Hs] Hst Hb].
  split_and!; [|done|done|done|by apply Forall_forall]. split.
  - intros E. destruct Hst as [[_ ?]|[[E'|E'] _]]; [done|rewrite E' in E; done..].
  - intros E%Permutation_length. destruct Hst as [[? _]|[_ ?]]; [done|lia].
Qed.

(** ** Templates and anchors *)
Definition template_ok (id : string) (t : CredentialTemplate) : Prop :=
  t_Id t = id ∧ policy_ok (t_MessageCount t) (t_DisclosableIndices t) ∧ t_DisclosurePolicyHash t = PolicyHash t ∧
  0 < strlen (t_IssuerBbsPubkey t) ≤ MaxBbsPubkeyLen ∧
  (t_Status t = TEMPLATE_STATUS_ACTIVE ∨ t_Status t = TEMPLATE_STATUS_DEPRECATED).
Definition templates_ok (st : CredStore) : Prop := ∀ id t, GetTemplate st id = Some t → template_ok id t.

(** the transaction that anchored a credential *)
Definition anchor_backed (tr : list Tx) (a : CredentialAnchor) : Prop :=
  ∃ e m, e ∈ tr ∧ tx_msg e = MAnchorCredential m ∧ ac_CredentialHash m = an_CredentialHash a ∧
    ac_TemplateId m = an_TemplateId a ∧ ac_TemplateVersion m = an_TemplateVersion a ∧
    ac_IssuerDid m = an_IssuerDid a ∧ ac_SubjectDid m = an_SubjectDid a ∧ BlockTime (tx_ctx e) = an_IssuedAt a ∧
    signs (tx_ids e) (an_IssuerDid a) (ac_Issuer m) (an_CredentialHash a) (ac_IssuerSig m) ∧
    active (tx_ids e) (an_SubjectDid a).
Definition anchor_ok (tr : list Tx) (h : string) (a : CredentialAnchor) : Prop :=
  an_CredentialHash a = h ∧ (an_Status a = CREDENTIAL_STATUS_ACTIVE ∨ an_Status a = CREDENTIAL_STATUS_REVOKED) ∧
  anchor_backed tr a.
Definition anchors_ok (tr : list Tx) (st : CredStore) : Prop := ∀ h a, GetAnchor st h = Some a → anchor_ok tr h a.

Lemma templates_put st t : template_ok (t_Id t) t → templates_ok st → templates_ok (SetTemplate t st).
Proof.
  intros Ht Hok id t' Hg. unfold GetTemplate, SetTemplate in Hg. cbn in Hg.
  apply lookup_insert_Some in Hg as [[<- <-]|[_ Hg]]; [done|]. by apply Hok.
Qed.
Lemma templates_after tr : templates_ok (after tr).
Proof.
  revert tr. apply (history_ind (λ _, templates_ok)); [done|done|].
  intros tr e st st' IH Hv Hr. destruct Hr as [m st t pk Hn Hc Hl Hp ->|m st t t' pk Hg Hc Hs Hp ->
    |m st t t' pk Hg Hc Hs ->| | | | | | |]; try exact IH; (apply templates_put; [|done]).
  - split_and!; cbn; [done|done|done|lia|lia|by left].
  - destruct (IH _ _ Hg) as (Hi & _ & _ & Hl & Hst). split_and!; cbn; try done; lia.
  - destruct (IH _ _ Hg) as (Hi & Hp & Hh & Hl & Hst). split_and!; cbn; try done; [lia|lia|by right].
Qed.

Lemma anchor_ok_mono tr e h a : anchor_ok tr h a → anchor_ok (tr ++ [e]) h a.
Proof. intros (Hh & Hs & e0 & m & Hin & R). split_and!; [done|done|]. exists e0, m. split; [set_solver|done]. Qed.
Lemma anchors_keep tr e st st' : c_anchors st' = c_anchors st → anchors_ok tr st → anchors_ok (tr ++ [e]) st'.
Proof. intros E Hok h a Hg. apply anchor_ok_mono, Hok. unfold GetAnchor in *. by rewrite <- E. Qed.
Lemma anchors_put tr e st a :
  anchor_ok (tr ++ [e]) (an_CredentialHash a) a → anchors_ok tr st → anchors_ok (tr ++ [e]) (SetAnchor a st).
Proof.
  intros Ha Hok h a' Hg. unfold GetAnchor, SetAnchor in Hg. cbn in Hg.
  apply lookup_insert_Some in Hg as [[<- <-]|[_ Hg]]; [done|]. by apply anchor_ok_mono, Hok.
Qed.
Lemma anchors_after tr : anchors_ok tr (after tr).
Proof.
  revert tr. apply history_ind; [done|intros tr e st; by apply anchors_keep|].
  intros tr e st st' IH Hv Hr. remember (tx_msg e) as msg eqn:Em.
  destruct Hr as [| | |m st t a Hn Hsg Ha Hg Hs Hver ->|m st a a' pk Hg Hs Hc ->| | | | |];
    try by apply (anchors_keep tr e st).
  - apply anchors_put; [|done]. split_and!; [done|by left|]. exists e, m. cbn. split_and!; [set_solver|done..].
  - apply anchors_put; [|done]. destruct (IH _ _ Hg) as (Hh & _ & e0 & m0 & Hin & R).
    split_and!; [done|by right|]. exists e0, m0. split; [set_solver|done].
Qed.

(** ** Versions: fewer than 2^32 - 1 transactions cannot wrap the counter *)
Definition short (tr : list Tx) : Prop := Z.of_nat (length tr) < 2 ^ 32 - 1.
Definition versions_ok (tr : list Tx) (st : CredStore) : Prop :=
  (∀ id t, GetTemplate st id = Some t → t_Id t = id ∧ 1 ≤ t_Version t ≤ 1 + Z.of_nat (length tr)) ∧
  (∀ h a, GetAnchor st h = Some a →
     ∃ t, GetTemplate st (an_TemplateId a) = Some t ∧ 1 ≤ an_TemplateVersion a ≤ t_Version t).
(** a template whose version does not go down keeps the anchors' references *)
Lemma versions_put tr e st t :
  1 ≤ t_Version t ≤ 2 + Z.of_nat (length tr) → (∀ t0, GetTemplate st (t_Id t) = Some t0 → t_Version t0 ≤ t_Version t) →
  versions_ok tr st → versions_ok (tr ++ [e]) (SetTemplate t st).
Proof.
  intros Hb Hup [Ht Ha]. unfold versions_ok. rewrite length_app. cbn [length]. split.
  - intros id t' Hg. unfold GetTemplate, SetTemplate in Hg. cbn in Hg.
    apply lookup_insert_Some in Hg as [[<- <-]|[_ Hg]]; [split; [done|lia]|]. destruct (Ht _ _ Hg). split; [done|lia].
  - intros h a Hg. destruct (Ha h a Hg) as (t0 & Hg0 & Hle). unfold GetTemplate, SetTemplate. cbn.
    destruct (decide (t_Id t = an_TemplateId a)) as [E|E].
    + exists t. rewrite E, lookup_insert_eq. split; [done|]. rewrite <- E in Hg0. specialize (Hup _ Hg0). lia.
    + exists t0. by rewrite lookup_insert_ne.
Qed.
Lemma versions_keep tr e st st' :
  c_templates st' = c_templates st → c_anchors st' = c_anchors st → versions_ok tr st → versions_ok (tr ++ [e]) st'.
Proof.
  unfold versions_ok, GetTemplate, GetAnchor. rewrite length_app. cbn [length]. intros -> -> [Ht Ha]. split; [|done].
  intros id t Hg. destruct (Ht _ _ Hg). split; [done|lia].
Qed.
Lemma versions_anchor tr e st a t :
  GetTemplate st (an_TemplateId a) = Some t → 1 ≤ an_TemplateVersion a ≤ t_Version t →
  versions_ok tr st → versions_ok (tr ++ [e]) (SetAnchor a st).
Proof.
  intros Hg Hv [Ht Ha]. unfold versions_ok. rewrite length_app. cbn [length]. split.
  - intros id t' Hg'. destruct (Ht _ _ Hg'). split; [done|lia].
  - intros h a' Hl. unfold GetAnchor, SetAnchor in Hl. cbn in Hl.
    apply lookup_insert_Some in Hl as [[<- <-]|[_ Hl]]; [by exists t|]. by apply (Ha h).
Qed.
Lemma versions_after tr : short tr → versions_ok tr (after tr).
Proof.
  revert tr. apply (history_ind (λ tr st, short tr → versions_ok tr st)).
  - intros _. split; [done|done].
  - intros tr e st IH Hs. apply (versions_keep tr e st); [done|done|]. apply IH.
    unfold short in *. rewrite length_app in Hs. cbn in Hs. lia.
  - intros tr e st st' IH Hv Hr Hs. assert (short tr) as Hs' by (unfold short in *; rewrite length_app in Hs; cbn in Hs; lia).
    specialize (IH Hs'). unfold short in Hs. rewrite length_app in Hs. cbn [length] in Hs. pose proof IH as [Ht Ha].
    destruct Hr as [m st t pk Hn Hc Hl Hp ->|m st t t' pk Hg Hc Hst Hp ->|m st t t' pk Hg Hc Hst ->
      |m st t a Hn Hsg Hac Hg Hst Hver ->|m st a a' pk Hg Hst Hc ->| | | | |]; try by apply (versions_keep tr e st).
    + apply versions_put; [cbn; lia| |done]. cbn [t_Id]. intros t0 Hg. congruence.
    + destruct (Ht _ _ Hg) as [Hi Hb]. apply versions_put; cbn [t_Version t_Id]; [rewrite u32_id; lia| |done].
      intros t0 Hg0. rewrite u32_id by lia. rewrite Hi in Hg0. assert (t0 = t) as -> by congruence. lia.
    + destruct (Ht _ _ Hg) as [Hi Hb]. apply versions_put; cbn [t_Version t_Id]; [lia| |done].
      intros t0 Hg0. rewrite Hi in Hg0. assert (t0 = t) as -> by congruence. lia.
    + apply (versions_anchor _ _ _ _ t); cbn [an_TemplateId an_TemplateVersion]; [done| |done].
      destruct (Ht _ _ Hg) as [_ Hb]. lia.
    + destruct (Ha _ _ Hg) as (t & Hgt & Hle). by apply (versions_anchor _ _ _ _ t).
Qed.

(** C29: what an anchor on the chain stands for.  After any history, every anchored
    credential has in the history the transaction that anchored it, in which the
    controller of the then active issuer identity presented a valid signature over the
    credential hash for a then active subject; it refers to a template on the chain, at a
    version the template has reached; and every template carries a well-formed policy, an
    issuer key and the policy hash the chain derives. *)
Theorem anchors_are_backed tr h a :
  short tr → GetAnchor (after tr) h = Some a →
  an_CredentialHash a = h ∧ anchor_backed tr a ∧
  ∃ t, GetTemplate (after tr) (an_TemplateId a) = Some t ∧ 1 ≤ an_TemplateVersion a ≤ t_Version t ∧
       template_ok (an_TemplateId a) t.
Proof.
  intros Hs Hg. destruct (anchors_after tr h a Hg) as (Hh & _ & Hb). split_and!; [done|done|].
  destruct (proj2 (versions_after tr Hs) h a Hg) as (t & Ht & Hv). exists t. split_and!; [done|lia|lia|].
  by apply templates_after in Ht.
Qed.

(** ** What can no longer change *)
Record evolves (st st' : CredStore) : Prop := {
  ev_templates id t : GetTemplate st id = Some t → ∃ t', GetTemplate st' id = Some t' ∧
    t_OwnerDid t' = t_OwnerDid t ∧ t_IssuerBbsPubkey t' = t_IssuerBbsPubkey t ∧ t_CreatedAt t' = t_CreatedAt t ∧
    (t_Status t = TEMPLATE_STATUS_DEPRECATED → t' = t);
  ev_anchors h a : GetAnchor st h = Some a → ∃ a', GetAnchor st' h = Some a' ∧
    an_TemplateId a' = an_TemplateId a ∧ an_TemplateVersion a' = an_TemplateVersion a ∧
    an_IssuerDid a' = an_IssuerDid a ∧ an_SubjectDid a' = an_SubjectDid a ∧ an_IssuedAt a' = an_IssuedAt a ∧
    (an_Status a = CREDENTIAL_STATUS_REVOKED → a' = a);
  ev_agreements h ag : GetAgreement st h = Some ag → ∃ ag', GetAgreement st' h = Some ag' ∧
    ag_Creator ag' = ag_Creator ag ∧ ag_RequiredSigners ag' = ag_RequiredSigners ag ∧
    ag_Deadline ag' = ag_Deadline ag ∧ ag_Signatures ag `prefix_of` ag_Signatures ag' ∧
    (ag_Status ag ≠ AGREEMENT_STATUS_PENDING → ag' = ag);
  ev_personal k p : c_personal st !! k = Some p → c_personal st' !! k = Some p;
}.
#[export] Instance evolves_preorder : PreOrder evolves.
Proof.
  split.
  - intros st. constructor; eauto 10.
  - intros a b c [T1 A1 G1 P1] [T2 A2 G2 P2]. constructor; [| | |eauto].
    + intros id t (t1 & E1 & ? & ? & ? & D1)%T1. destruct (T2 _ _ E1) as (t2 & E2 & ? & ? & ? & D2).
      exists t2. split_and!; [done|congruence..|]. intros E. rewrite <- (D1 E). apply D2. by rewrite (D1 E).
    + intros h x (x1 & E1 & ? & ? & ? & ? & ? & D1)%A1. destruct (A2 _ _ E1) as (x2 & E2 & ? & ? & ? & ? & ? & D2).
      exists x2. split_and!; [done|congruence..|]. intros E. rewrite <- (D1 E). apply D2. by rewrite (D1 E).
    + intros h g (g1 & E1 & ? & ? & ? & ? & D1)%G1. destruct (G2 _ _ E1) as (g2 & E2 & ? & ? & ? & ? & D2).
      exists g2. split_and!; [done|congruence|congruence|congruence|by etrans|].
      intros E. rewrite <- (D1 E). apply D2. by rewrite (D1 E).
Qed.
(** a write to one record, none of the others changes *)
Lemma evolves_template st t t' :
  GetTemplate st (t_Id t') = Some t → t_OwnerDid t' = t_OwnerDid t → t_IssuerBbsPubkey t' = t_IssuerBbsPubkey t →
  t_CreatedAt t' = t_CreatedAt t → t_Status t ≠ TEMPLATE_STATUS_DEPRECATED → evolves st (SetTemplate t' st).
Proof.
  intros Hg Ho Hk Hc Hs. constructor; [|eauto 10..|done]. intros id t0 Hg0. unfold GetTemplate, SetTemplate. cbn.
  destruct (decide (t_Id t' = id)) as [<-|E]; [|rewrite lookup_insert_ne by done; eauto 10].
  rewrite lookup_insert_eq. assert (t0 = t) as -> by congruence. exists t'. by split_and!.
Qed.
Lemma evolves_anchor st a a' :
  GetAnchor st (an_CredentialHash a') = Some a → an_TemplateId a' = an_TemplateId a →
  an_TemplateVersion a' = an_TemplateVersion a → an_IssuerDid a' = an_IssuerDid a →
  an_SubjectDid a' = an_SubjectDid a → an_IssuedAt a' = an_IssuedAt a →
  an_Status a ≠ CREDENTIAL_STATUS_REVOKED → evolves st (SetAnchor a' st).
Proof.
  intros Hg H1' H2' H3' H4' H5' Hs. constructor; [eauto 10| |eauto 10|done].
  intros h a0 Hg0. unfold GetAnchor, SetAnchor. cbn.
  destruct (decide (an_CredentialHash a' = h)) as [<-|E]; [|rewrite lookup_insert_ne by done; eauto 10].
  rewrite lookup_insert_eq. assert (a0 = a) as -> by congruence. exists a'. by split_and!.
Qed.
Lemma evolves_agreement st ag ag' :
  GetAgreement st (ag_Hash ag') = Some ag → ag_Creator ag' = ag_Creator ag →
  ag_RequiredSigners ag' = ag_RequiredSigners ag → ag_Deadline ag' = ag_Deadline ag →
  ag_Signatures ag `prefix_of` ag_Signatures ag' → ag_Status ag = AGREEMENT_STATUS_PENDING →
  evolves st (SetAgreement ag' st).
Proof.
  intros Hg H1' H2' H3' Hp Hs. constructor; [eauto 10|eauto 10| |done].
  intros h g Hg0. unfold GetAgreement, SetAgreement. cbn.
  destruct (decide (ag_Hash ag' = h)) as [<-|E]; [|rewrite lookup_insert_ne by done; eauto 10].
  rewrite lookup_insert_eq. assert (g = ag) as -> by congruence. exists ag'. by split_and!.
Qed.
Lemma evolves_new_template st t : GetTemplate st (t_Id t) = None → evolves st (SetTemplate t st).
Proof.
  intros Hn. constructor; [|eauto 10..|done]. intros id t0 Hg. unfold GetTemplate, SetTemplate. cbn.
  rewrite lookup_insert_ne by (intros <-; congruence). eauto 10.
Qed.
Lemma evolves_new_anchor st a : GetAnchor st (an_CredentialHash a) = None → evolves st (SetAnchor a st).
Proof.
  intros Hn. constructor; [eauto 10| |eauto 10|done]. intros h a0 Hg. unfold GetAnchor, SetAnchor. cbn.
  rewrite lookup_insert_ne by (intros <-; congruence). eauto 10.
Qed.
Lemma evolves_new_agreement st ag : GetAgreement st (ag_Hash ag) = None → evolves st (SetAgreement ag st).
Proof.
  intros Hn. constructor; [eauto 10|eauto 10| |done]. intros h g Hg. unfold GetAgreement, SetAgreement. cbn.
  rewrite lookup_insert_ne by (intros <-; congruence). eauto 10.
Qed.
Lemma evolves_new_personal st p :
  c_personal st !! PersonalKey (pa_OwnerDid p) (pa_AnchorHash p) = None → evolves st (SetPersonalAnchor p st).
Proof.
  intros Hn. constructor; [eauto 10..|]. intros k p0 Hg. unfold SetPersonalAnchor. cbn [c_personal].
  rewrite lookup_insert_ne by (intros <-; congruence). done.
Qed.
Lemma rule_evolves tr ctx ids m st st' :
  templates_ok st → anchors_ok tr st → agreements_ok tr st → cred_rule authority ctx ids m st st' → evolves st st'.
Proof.
  intros Ht Ha Hag Hr. destruct Hr as [m st t pk Hn Hc Hl Hp ->|m st t t' pk Hg Hc Hs Hp ->|m st t t' pk Hg Hc Hs ->
    |m st t a Hn Hsg Hac Hg Hs Hv ->|m st a a' pk Hg Hs Hc ->|m st ag Hn Hb ->|m st ag ag' Hg Hs Hd Hr Hns Hsg ->
    |m st ag ag' Hg Hs Hcr ->|m st p Hn Hsg ->|m st Hau Hp].
  - by apply evolves_new_template.
  - destruct (Ht _ _ Hg) as [Hi _]. eapply (evolves_template _ t); cbn; [by rewrite Hi|done..].
  - destruct (Ht _ _ Hg) as [Hi _]. eapply (evolves_template _ t); cbn; [by rewrite Hi|done..].
  - by apply evolves_new_anchor.
  - destruct (Ha _ _ Hg) as [Hi _]. eapply (evolves_anchor _ a); cbn; [by rewrite Hi|done..].
  - by apply evolves_new_agreement.
  - destruct (Hag _ _ Hg) as [Hi _ _ _ _]. eapply (evolves_agreement _ ag); cbn; [by rewrite Hi|done..| |done]. by apply prefix_app_r.
  - destruct (Hag _ _ Hg) as [Hi _ _ _ _]. eapply (evolves_agreement _ ag); cbn; [by rewrite Hi|done..].
  - by apply evolves_new_personal.
  - constructor; eauto 10.
Qed.

Lemma cred_evolves tr tr' : evolves (after tr) (after (tr ++ tr')).
Proof.
  induction tr' as [|e tr' IH] using rev_ind; [by rewrite app_nil_r|]. etrans; [exact IH|].
  rewrite app_assoc. unfold after at 2. rewrite cred_run_snoc. fold (after (tr ++ tr')).
  destruct (apply_tx_rule (cred_run (tr ++ tr') cred_genesis) e) as [E|[_ Hr]]; [by rewrite E|].
  eapply (rule_evolves (tr ++ tr')); [apply templates_after|apply anchors_after|apply agreements_after|exact Hr].
Qed.

(** C30: what is on the chain stays as it was agreed.  However a history continues, no
    template, anchor, agreement or personal anchor disappears; a template keeps its
    owner and its issuer key, a deprecated one does not change at all; an anchor keeps its
    issuer, subject, template version and date, a revoked one stays revoked; an agreement
    keeps its parties and deadline and every signature it has, and a completed or
    cancelled one never changes again. *)
Theorem records_are_final tr tr' : evolves (after tr) (after (tr ++ tr')).
Proof. apply cred_evolves. Qed.
End history.

(** ** x/credentials: what the policy hash binds

    The disclosure policy hash is what a verifier pins.  For template ids without a zero
    byte its preimage determines the id, the version, the claim count and the set of
    disclosable claims, and nothing else.  Ids are not restricted to that, and with a
    zero byte in an id two different policies share a preimage. *)
(** ** Canonical indices *)
Lemma elem_of_dedup_from seen l i : i ∈ dedup_from seen l ↔ i ∈ l ∧ i ∉ seen.
Proof.
  revert seen. induction l as [|j l IH]; intros seen; cbn [dedup_from]; [set_solver|].
  case_bool_decide as E; [|rewrite elem_of_cons]; rewrite IH; [|destruct (decide (i = j))]; set_solver.
Qed.
Lemma dedup_from_NoDup seen l : NoDup (dedup_from seen l).
Proof.
  revert seen. induction l as [|j l IH]; intros seen; cbn [dedup_from]; [constructor|].
  case_bool_decide; [apply IH|]. constructor; [|apply IH]. rewrite elem_of_dedup_from. set_solver.
Qed.
Lemma elem_of_canonical l i : i ∈ canonicalIndices l ↔ i ∈ l.
Proof. unfold canonicalIndices. rewrite merge_sort_Permutation, elem_of_dedup_from. set_solver. Qed.
(** the canonical list is the set *)
Lemma canonical_ext l l' : canonicalIndices l = canonicalIndices l' ↔ ∀ i, i ∈ l ↔ i ∈ l'.
Proof.
  split; [intros E i; by rewrite <- (elem_of_canonical l), <- (elem_of_canonical l'), E|]. intros E. unfold canonicalIndices.
  apply (Sorted_unique Z.le); [apply Sorted_merge_sort, _..|]. rewrite !merge_sort_Permutation.
  apply NoDup_Permutation; [apply dedup_from_NoDup..|]. intros i. rewrite !elem_of_dedup_from, E. done.
Qed.

(** ** The preimage *)
Definition u32_list (l : list Z) : string := foldr (λ i s, be32 i +:+ s) "" l.
Definition is_u32 (z : Z) : Prop := 0 ≤ z < 2 ^ 32.
Lemma u32_list_inj l l' : Forall is_u32 l → Forall is_u32 l' → u32_list l = u32_list l' → l = l'.
Proof.
  intros Hl. revert l'. induction Hl as [|a l Ha Hl IH]; intros l' Hl' E; destruct Hl' as [|b l' Hb Hl']; cbn [u32_list foldr] in E.
  - done.
  - apply (f_equal String.length) in E. rewrite str_app_length in E. unfold be32 in E. rewrite be_length in E. done.
  - apply (f_equal String.length) in E. rewrite str_app_length in E. unfold be32 in E. rewrite be_length in E. done.
  - apply be32_app_inj in E as [-> E]; [|done..]. f_equal. by apply IH.
Qed.
(** What a pinned policy hash binds.  For ids without a zero byte the preimage of
    the policy hash is the same exactly when the id, the version, the claim count and
    the set of disclosable claims are the same: the order and repetition in which an
    issuer lists the claims do not matter, everything else does. *)
Theorem policy_preimage_binds id id' v v' mc mc' l l' :
  nul_free id → nul_free id' → is_u32 v → is_u32 v' → is_u32 mc → is_u32 mc' →
  Forall is_u32 l → Forall is_u32 l' →
  policy_preimage id v mc l = policy_preimage id' v' mc' l' ↔
  id = id' ∧ v = v' ∧ mc = mc' ∧ ∀ i, i ∈ l ↔ i ∈ l'.
Proof.
  intros Hi Hi' Hv Hv' Hm Hm' Hl Hl'. unfold policy_preimage. fold (u32_list (canonicalIndices l)) (u32_list (canonicalIndices l')).
  rewrite <- canonical_ext. split; [|by intros (-> & -> & -> & ->)].
  intros E. apply str_app_inj_l, str_app_inj_l in E. apply nul_split in E as [-> E]; [|done..].
  apply be32_app_inj in E as [-> E]; [|done..]. apply be32_app_inj in E as [-> E]; [|done..]. split_and!; [done..|].
  apply u32_list_inj in E; [done| |]; apply Forall_forall; intros i; rewrite elem_of_canonical; by apply Forall_forall.
Qed.
Lemma policy_preimage_binds_witness :
  policy_preimage "phi.kyc.v1" 2 4 [3; 0; 3] = policy_preimage "phi.kyc.v1" 2 4 [0; 3] ∧
  policy_preimage "phi.kyc.v1" 2 4 [3] ≠ policy_preimage "phi.kyc.v1" 2 4 [0; 3].
Proof.
  assert (nul_free "phi.kyc.v1") as Hi by done.
  assert (is_u32 2 ∧ is_u32 4) as [H2 H4] by (unfold is_u32; lia).
  assert (∀ l, Forall (λ i, i = 0 ∨ i = 3) l → Forall is_u32 l) as Hl.
  { intros l Hl. eapply Forall_impl; [done|]. unfold is_u32. intros i; cbv beta. lia. }
  split.
  - apply (policy_preimage_binds _ _ _ _ _ _ [3; 0; 3] [0; 3] Hi Hi H2 H2 H4 H4); [apply Hl; repeat constructor; lia..|].
    split_and!; [done..|]. set_solver.
  - intros E. apply (policy_preimage_binds _ _ _ _ _ _ [3] [0; 3] Hi Hi H2 H2 H4 H4) in E as (_ & _ & _ & E);
      [|apply Hl; repeat constructor; lia..].
    specialize (E 0). set_solver by lia.
Defined.
