(* ===== verification/CredGenesis.v ===== *)
(** * x/credentials: genesis

    [x/credentials/types/genesis.go] and [keeper/genesis.go]: validation, import and
    export.  Every state a history leads to is exported and imported without loss,
    provided its agreements are within the signer bound in force; lowering the bound
    breaks that. *)
From stdpp Require Import base gmap strings list fin_maps sorting.
From Stdlib Require Import ZArith Lia Ascii.
From S2P Require Import Prelude GoInt KVStore Interfaces PhiDid IdTypes CredTypes CredServer CredRules CredHistory.

Record CredGenesisState := mkCredGenesis {
  g_Params : CredParams; g_Templates : list CredentialTemplate; g_Anchors : list CredentialAnchor;
  g_Agreements : list Agreement; g_PersonalAnchors : list PersonalAnchor }.
Definition DefaultCredGenesis : CredGenesisState := mkCredGenesis DefaultCredParams [] [] [] [].

Section genesis.
Context `{Hasher}.

(** the loops of [Validate]; the templates seen so far are what the anchors refer to *)
Fixpoint validate_templates (seen : gmap string CredentialTemplate) (l : list CredentialTemplate)
  : outcome (gmap string CredentialTemplate) :=
  match l with
  | [] => Ok seen
  | t :: l' =>
      err_if (strlen (t_Id t) =? 0) (Plain "template with empty id");;
      err_if (bool_decide (is_Some (seen !! t_Id t))) (Plain "duplicate template id in genesis");;
      ValidateDisclosurePolicy (t_MessageCount t) (t_DisclosableIndices t);;
      err_if (negb (bool_decide (t_DisclosurePolicyHash t = PolicyHash t)))
        (Plain "disclosure_policy_hash does not match its declared policy");;
      validate_templates (<[t_Id t := t]> seen) l'
  end.
Fixpoint validate_anchors (templates : gmap string CredentialTemplate) (seen : gset string)
  (l : list CredentialAnchor) : outcome unit :=
  match l with
  | [] => Ok tt
  | a :: l' =>
      err_if (strlen (an_CredentialHash a) =? 0) (Plain "credential anchor with empty hash");;
      let key := hex_encode (an_CredentialHash a) in
      err_if (bool_decide (key ∈ seen)) (Plain "duplicate credential anchor in genesis");;
      t ← or_err (templates !! an_TemplateId a) (Plain "anchor references unknown template");
      err_if (t_Version t <? an_TemplateVersion a) (Plain "anchor references future template version");;
      validate_anchors templates ({[key]} ∪ seen) l'
  end.
Fixpoint validate_signatures (required signed : gset string) (l : list AgreementSignature) : outcome unit :=
  match l with
  | [] => Ok tt
  | s :: l' =>
      err_if (negb (bool_decide (sg_SignerDid s ∈ required))) (Plain "signed by non-required DID");;
      err_if (bool_decide (sg_SignerDid s ∈ signed)) (Plain "signed twice by DID");;
      validate_signatures required ({[sg_SignerDid s]} ∪ signed) l'
  end.
Fixpoint validate_agreements (maxSigners : Z) (seen : gset string) (l : list Agreement) : outcome unit :=
  match l with
  | [] => Ok tt
  | ag :: l' =>
      err_if (strlen (ag_Hash ag) =? 0) (Plain "agreement with empty hash");;
      let key := hex_encode (ag_Hash ag) in
      err_if (bool_decide (key ∈ seen)) (Plain "duplicate agreement in genesis");;
      err_if (Z.of_nat (length (ag_RequiredSigners ag)) =? 0) (Plain "agreement has no required signers");;
      err_if (maxSigners <? u32 (Z.of_nat (length (ag_RequiredSigners ag)))) (Plain "exceeds max_agreement_signers");;
      validate_signatures (list_to_set (ag_RequiredSigners ag)) ∅ (ag_Signatures ag);;
      validate_agreements maxSigners ({[key]} ∪ seen) l'
  end.
Fixpoint validate_personal (seen : gset string) (l : list PersonalAnchor) : outcome unit :=
  match l with
  | [] => Ok tt
  | p :: l' =>
      err_if ((strlen (pa_OwnerDid p) =? 0) || (strlen (pa_AnchorHash p) =? 0))
        (Plain "personal anchor with empty owner or hash");;
      let key := pa_OwnerDid p +:+ "/" +:+ hex_encode (pa_AnchorHash p) in
      err_if (bool_decide (key ∈ seen)) (Plain "duplicate personal anchor in genesis");;
      validate_personal ({[key]} ∪ seen) l'
  end.
Definition CredGenesis_Validate (gs : CredGenesisState) : outcome unit :=
  CredParams_Validate (g_Params gs);;
  templates ← validate_templates ∅ (g_Templates gs);
  validate_anchors templates ∅ (g_Anchors gs);;
  validate_agreements (MaxAgreementSigners (g_Params gs)) ∅ (g_Agreements gs);;
  validate_personal ∅ (g_PersonalAnchors gs).

Definition InitGenesis (gs : CredGenesisState) : M CredStore unit :=
  or_panic (lift (CredGenesis_Validate gs));;
  or_panic (SetParams (g_Params gs));;
  for_each (g_Templates gs) (λ t, modify (SetTemplate t));;
  for_each (g_Anchors gs) (λ a, modify (SetAnchor a));;
  for_each (g_Agreements gs) (λ ag, modify (SetAgreement ag));;
  for_each (g_PersonalAnchors gs) (λ p, modify (SetPersonalAnchor p)).
Definition ExportGenesis (st : CredStore) : CredGenesisState :=
  mkCredGenesis (GetParams st) (IterateTemplates st) (IterateAnchors st) (IterateAgreements st)
    (IteratePersonalAnchors st).

Example default_genesis_loads : InitGenesis DefaultCredGenesis empty_cred = (Ok tt, cr_store cred_genesis).
Proof. done. Qed.

(** ** Validation accepts *)
Lemma validate_templates_ok seen l :
  Forall (λ t, 0 < strlen (t_Id t) ∧ template_ok (t_Id t) t) l → NoDup (t_Id <$> l) →
  (∀ t, t ∈ l → seen !! t_Id t = None) →
  validate_templates seen l = Ok (foldl (λ s t, <[t_Id t := t]> s) seen l).
Proof.
  revert seen. induction l as [|t l IH]; intros seen Hf Hn Hs; [done|]. apply Forall_cons in Hf as [[Hl Ht] Hf].
  rewrite fmap_cons in Hn. apply NoDup_cons in Hn as [Hnt Hn]. destruct Ht as (_ & Hp & Hh & _).
  cbn [validate_templates foldl]. rewrite (proj2 (Z.eqb_neq _ _)) by lia. cbn [err_if mbind outcome_bind].
  rewrite (proj2 (not_has _ _)) by (apply Hs; left). cbn [err_if mbind outcome_bind].
  rewrite (proj2 (ValidateDisclosurePolicy_spec _ _) Hp). cbn [mbind outcome_bind].
  rewrite bool_decide_eq_true_2 by done. cbn [negb err_if mbind outcome_bind]. apply IH; [done|done|].
  intros t' Ht'. rewrite lookup_insert_ne; [apply Hs; by right|]. intros E. apply Hnt. rewrite E. by apply list_elem_of_fmap_2.
Qed.
Lemma validate_anchors_ok (templates : gmap string CredentialTemplate) seen l :
  Forall (λ a, 0 < strlen (an_CredentialHash a) ∧
    ∃ t, templates !! an_TemplateId a = Some t ∧ an_TemplateVersion a ≤ t_Version t) l →
  NoDup (an_CredentialHash <$> l) → (∀ a, a ∈ l → hex_encode (an_CredentialHash a) ∉ seen) →
  validate_anchors templates seen l = Ok tt.
Proof.
  revert seen. induction l as [|a l IH]; intros seen Hf Hn Hs; [done|]. apply Forall_cons in Hf as [(Hl & t & Ht & Hv) Hf].
  rewrite fmap_cons in Hn. apply NoDup_cons in Hn as [Hna Hn].
  cbn [validate_anchors]. rewrite (proj2 (Z.eqb_neq _ _)) by lia. cbn [err_if mbind outcome_bind].
  rewrite bool_decide_eq_false_2 by (apply Hs; left). cbn [err_if mbind outcome_bind]. rewrite Ht. cbn [or_err mbind outcome_bind].
  rewrite (proj2 (Z.ltb_ge _ _)) by done. cbn [err_if mbind outcome_bind]. apply IH; [done|done|].
  intros a' Ha'. rewrite not_elem_of_union, not_elem_of_singleton. split; [|apply Hs; by right].
  intros E%hex_encode_inj. apply Hna. rewrite <- E. by apply list_elem_of_fmap_2.
Qed.
Lemma validate_signatures_ok (required signed : gset string) l :
  Forall (λ s, sg_SignerDid s ∈ required) l → NoDup (sg_SignerDid <$> l) → (∀ s, s ∈ l → sg_SignerDid s ∉ signed) →
  validate_signatures required signed l = Ok tt.
Proof.
  revert signed. induction l as [|s l IH]; intros signed Hf Hn Hs; [done|]. apply Forall_cons in Hf as [Hr Hf].
  rewrite fmap_cons in Hn. apply NoDup_cons in Hn as [Hns Hn]. cbn [validate_signatures].
  rewrite (bool_decide_eq_true_2 (sg_SignerDid s ∈ required)) by done. cbn [negb err_if mbind outcome_bind].
  rewrite bool_decide_eq_false_2 by (apply Hs; left). cbn [err_if mbind outcome_bind]. apply IH; [done|done|].
  intros s' Hs'. rewrite not_elem_of_union, not_elem_of_singleton. split; [|apply Hs; by right].
  intros E. apply Hns. rewrite <- E. by apply list_elem_of_fmap_2.
Qed.
Lemma validate_agreements_ok maxSigners seen l :
  Forall (λ ag, 0 < strlen (ag_Hash ag) ∧ ag_RequiredSigners ag ≠ [] ∧
    u32 (Z.of_nat (length (ag_RequiredSigners ag))) ≤ maxSigners ∧
    NoDup (signers ag) ∧ signers ag ⊆ ag_RequiredSigners ag) l →
  NoDup (ag_Hash <$> l) → (∀ ag, ag ∈ l → hex_encode (ag_Hash ag) ∉ seen) →
  validate_agreements maxSigners seen l = Ok tt.
Proof.
  revert seen. induction l as [|g l IH]; intros seen Hf Hn Hs; [done|].
  apply Forall_cons in Hf as [(Hl & Hr & Hb & Hd & Hsub) Hf]. rewrite fmap_cons in Hn. apply NoDup_cons in Hn as [Hng Hn].
  cbn [validate_agreements]. rewrite (proj2 (Z.eqb_neq (strlen _) _)) by lia. cbn [err_if mbind outcome_bind].
  rewrite bool_decide_eq_false_2 by (apply Hs; left). cbn [err_if mbind outcome_bind].
  rewrite (proj2 (Z.eqb_neq _ _)) by (destruct (ag_RequiredSigners g); cbn; [done|lia]). cbn [err_if mbind outcome_bind].
  rewrite (proj2 (Z.ltb_ge _ _)) by done. cbn [err_if mbind outcome_bind].
  rewrite validate_signatures_ok; [|apply Forall_forall; intros s Hsi|done|set_solver].
  - cbn [mbind outcome_bind]. apply IH; [done|done|]. intros g' Hg'. rewrite not_elem_of_union, not_elem_of_singleton.
    split; [|apply Hs; by right]. intros E%hex_encode_inj. apply Hng. rewrite <- E. by apply list_elem_of_fmap_2.
  - apply elem_of_list_to_set, Hsub. by apply list_elem_of_fmap_2.
Qed.

(** the personal key of the validation: the last slash separates owner and hash *)
Fixpoint no_slash (s : string) : Prop :=
  match s with EmptyString => True | String c s' => c ≠ "/"%char ∧ no_slash s' end.
Lemma hex_char_no_slash d : 0 ≤ d < 16 → hex_char d ≠ "/"%char.
Proof.
  intros Hd E. apply (f_equal char_code) in E. unfold hex_char in E. rewrite char_code_byte in E.
  change (char_code "/"%char) with 47 in E. destruct (Z.ltb_spec d 10); rewrite Z.mod_small in E by lia; lia.
Qed.
Lemma hex_encode_no_slash s : no_slash (hex_encode s).
Proof.
  induction s as [|c s IH]; cbn; [done|]. pose proof (char_code_range c).
  split_and!; [apply hex_char_no_slash|apply hex_char_no_slash|done]; Z.to_euclidean_division_equations; lia.
Qed.
Lemma no_slash_app a b : no_slash (a +:+ b) → no_slash b.
Proof. induction a as [|c a IH]; cbn; [done|]. intros [_ Hr]. by apply IH. Qed.
Lemma slash_inj a b x y : no_slash x → no_slash y → a +:+ "/" +:+ x = b +:+ "/" +:+ y → a = b ∧ x = y.
Proof.
  revert b. induction a as [|c a IH]; intros [|d b] Hx Hy E; cbn in E.
  - by injection E as ->.
  - injection E as _ E. rewrite E in Hx. apply no_slash_app in Hx. by destruct Hx.
  - injection E as _ E. rewrite <- E in Hy. apply no_slash_app in Hy. by destruct Hy.
  - injection E as -> E. by destruct (IH b Hx Hy E) as [-> ->].
Qed.
Lemma validate_personal_ok seen l :
  Forall (λ p, 0 < strlen (pa_OwnerDid p) ∧ 0 < strlen (pa_AnchorHash p)) l →
  NoDup ((λ p, PersonalKey (pa_OwnerDid p) (pa_AnchorHash p)) <$> l) →
  (∀ p, p ∈ l → pa_OwnerDid p +:+ "/" +:+ hex_encode (pa_AnchorHash p) ∉ seen) →
  validate_personal seen l = Ok tt.
Proof.
  revert seen. induction l as [|p l IH]; intros seen Hf Hn Hs; [done|]. apply Forall_cons in Hf as [[Ho Hh] Hf].
  rewrite fmap_cons in Hn. apply NoDup_cons in Hn as [Hnp Hn]. cbn [validate_personal].
  rewrite !(proj2 (Z.eqb_neq _ _)) by lia. cbn [orb err_if mbind outcome_bind].
  rewrite bool_decide_eq_false_2 by (apply Hs; left). cbn [err_if mbind outcome_bind]. apply IH; [done|done|].
  intros p' Hp'. rewrite not_elem_of_union, not_elem_of_singleton. split; [|apply Hs; by right].
  intros [E1 E2%hex_encode_inj]%slash_inj; [|apply hex_encode_no_slash..]. apply Hnp. rewrite <- E1, <- E2.
  by apply (list_elem_of_fmap_2 (λ p, PersonalKey (pa_OwnerDid p) (pa_AnchorHash p))).
Qed.

(** ** The records are filed under their keys and carry names *)
Record filed_ok (st : CredStore) : Prop := {
  fo_params : ∃ p, c_params st = Some p ∧ CredParams_Validate p = Ok tt;
  fo_templates : filed t_Id (c_templates st) ∧ ∀ k t, c_templates st !! k = Some t → 0 < strlen k;
  fo_anchors : filed an_CredentialHash (c_anchors st) ∧ ∀ k a, c_anchors st !! k = Some a → 0 < strlen k;
  fo_agreements : filed ag_Hash (c_agreements st) ∧ ∀ k ag, c_agreements st !! k = Some ag → 0 < strlen k;
  fo_personal : filed (λ p, PersonalKey (pa_OwnerDid p) (pa_AnchorHash p)) (c_personal st) ∧
    ∀ k p, c_personal st !! k = Some p → 0 < strlen (pa_OwnerDid p) ∧ 0 < strlen (pa_AnchorHash p);
}.
Lemma filed_insert {V} (key : V → string) (m : KVStore V) v : filed key m → filed key (<[key v := v]> m).
Proof. intros Hf k v' Hk. apply lookup_insert_Some in Hk as [[<- <-]|[_ Hk]]; [done|]. by apply Hf. Qed.
Lemma keys_insert {V} (P : string → V → Prop) (m : KVStore V) k v :
  P k v → (∀ k v, m !! k = Some v → P k v) → ∀ k' v', <[k := v]> m !! k' = Some v' → P k' v'.
Proof. intros Hp Hm k' v' Hk. apply lookup_insert_Some in Hk as [[<- <-]|[_ Hk]]; [done|]. by apply Hm. Qed.
Lemma nonempty_spec s : nonempty s = Ok tt ↔ 0 < strlen s.
Proof.
  unfold nonempty, err_if. assert (0 ≤ strlen s) by (unfold strlen; lia).
  destruct (Z.eqb_spec (strlen s) 0); split; try done; lia.
Qed.
End genesis.

Section roundtrip.
Context {I : Type} `{DocumentReader I} `{AddressCodec} `{Hasher} `{Verifier}.
Context (authority : string).

Ltac basics Hv :=
  cbn [CredMsg_ValidateBasic] in Hv;
  unfold RegisterTemplate_ValidateBasic, AnchorCredential_ValidateBasic, CreateAgreement_ValidateBasic,
    AnchorPersonal_ValidateBasic in Hv;
  go_inv; repeat match goal with u : unit |- _ => destruct u | H : nonempty _ = Ok _ |- _ => apply nonempty_spec in H end.

Lemma filed_after tr : filed_ok (after (I:=I) authority tr).
Proof.
  revert tr. apply (history_ind authority (λ _, filed_ok)); [|done|].
  { constructor; [by eexists|split; done..]. }
  intros tr e st st' IH Hv Hr. destruct Hr as [m st t pk Hn Hc Hl Hp ->|m st t t' pk Hg Hc Hs Hp ->|m st t t' pk Hg Hc Hs ->
    |m st t a Hn Hsg Ha Hg Hs Hver ->|m st a a' pk Hg Hs Hc ->|m st ag Hn Hb ->|m st ag ag' Hg Hs Hd Hr Hns Hsg ->
    |m st ag ag' Hg Hs Hcr ->|m st p Hn Hsg ->|m st Hau Hp];
    destruct IH as [IP [IT1 IT2] [IA1 IA2] [IG1 IG2] [IO1 IO2]];
    (constructor; [try exact IP|try done..]; try (split; [by apply filed_insert|])).
  - basics Hv. by apply keys_insert.
  - apply keys_insert; [|done]. cbn. rewrite (IT1 _ _ Hg). by eapply IT2.
  - apply keys_insert; [|done]. cbn. rewrite (IT1 _ _ Hg). by eapply IT2.
  - basics Hv. by apply keys_insert.
  - apply keys_insert; [|done]. cbn. rewrite (IA1 _ _ Hg). by eapply IA2.
  - basics Hv. by apply keys_insert.
  - apply keys_insert; [|done]. cbn. rewrite (IG1 _ _ Hg). by eapply IG2.
  - apply keys_insert; [|done]. cbn. rewrite (IG1 _ _ Hg). by eapply IG2.
  - basics Hv. split.
    { by apply (filed_insert (λ p, PersonalKey (pa_OwnerDid p) (pa_AnchorHash p))). }
    apply (keys_insert (λ _ p, 0 < strlen (pa_OwnerDid p) ∧ 0 < strlen (pa_AnchorHash p))); [done|done].
  - exists (up_Params m). split; [done|]. unfold CredParams_Validate. by rewrite (proj2 (Z.eqb_neq _ _)).
Qed.

(** the import writes the lists back, one prefix at a time *)
Lemma import_all p ts ans ags ps :
  CredGenesis_Validate (mkCredGenesis p ts ans ags ps) = Ok tt →
  InitGenesis (mkCredGenesis p ts ans ags ps) empty_cred =
  (Ok tt, mkCredStore (Some p) (foldl (λ s t, <[t_Id t := t]> s) ∅ ts)
     (foldl (λ s a, <[an_CredentialHash a := a]> s) ∅ ans) (foldl (λ s g, <[ag_Hash g := g]> s) ∅ ags)
     (foldl (λ s q, <[PersonalKey (pa_OwnerDid q) (pa_AnchorHash q) := q]> s) ∅ ps)).
Proof.
  intros Hv. assert (CredParams_Validate p = Ok tt) as Hp.
  { unfold CredGenesis_Validate in Hv. go_inv. by repeat match goal with u : unit |- _ => destruct u end. }
  unfold InitGenesis. erewrite run_bind by (unfold or_panic, lift; by rewrite Hv). cbn [g_Params g_Templates g_Anchors g_Agreements g_PersonalAnchors].
  erewrite run_bind by (unfold or_panic, SetParams; erewrite run_bind by (unfold lift; by rewrite Hp); done).
  erewrite run_bind by apply for_each_modify. erewrite run_bind by apply for_each_modify.
  erewrite run_bind by apply for_each_modify. rewrite for_each_modify. f_equal.
  cbn [c_templates c_anchors c_agreements c_personal empty_cred]. clear.
  generalize (∅ : KVStore CredentialTemplate), (∅ : KVStore CredentialAnchor), (∅ : KVStore Agreement), (∅ : KVStore PersonalAnchor).
  induction ts as [|t ts IH]; intros mt ma mg mp; [|by apply IH]. cbn [foldl].
  revert ma. induction ans as [|a ans IH]; intros ma; [|by apply IH]. cbn [foldl].
  revert mg. induction ags as [|g ags IH]; intros mg; [|by apply IH]. cbn [foldl].
  revert mp. induction ps as [|q ps IH]; intros mp; [done|by apply IH].
Qed.

Definition within_bound (st : CredStore) : Prop :=
  ∀ h ag, GetAgreement st h = Some ag → u32 (Z.of_nat (length (ag_RequiredSigners ag))) ≤ MaxAgreementSigners (GetParams st).

Lemma cred_exported_valid tr (st := after (I:=I) authority tr) :
  short tr → within_bound st → CredGenesis_Validate (ExportGenesis st) = Ok tt.
Proof.
  intros Hs Hb. destruct (filed_after tr) as [(p & Hp & Hpv) [T1 T2] [A1 A2] [G1 G2] [O1 O2]].
  fold st in Hp, T1, T2, A1, A2, G1, G2, O1, O2. unfold CredGenesis_Validate, ExportGenesis.
  cbn [g_Params g_Templates g_Anchors g_Agreements g_PersonalAnchors].
  assert (GetParams st = p) as -> by (unfold GetParams; by rewrite Hp). rewrite Hpv. cbn [mbind outcome_bind].
  rewrite validate_templates_ok; [|apply Forall_forall|by apply values_NoDup|done].
  2:{ intros t Ht%(elem_of_values _ _ _ T1). split; [by eapply T2|]. by apply (templates_after authority tr) in Ht. }
  cbn [mbind outcome_bind]. unfold IterateTemplates. rewrite (values_rebuild _ _ T1).
  rewrite validate_anchors_ok; [|apply Forall_forall|by apply values_NoDup|set_solver].
  2:{ intros a Ha%(elem_of_values _ _ _ A1). split; [by eapply A2|].
      destruct (proj2 (versions_after authority tr Hs) _ _ Ha) as (t & Ht & Hv). exists t. split; [done|lia]. }
  cbn [mbind outcome_bind].
  rewrite validate_agreements_ok; [|apply Forall_forall|by apply values_NoDup|set_solver].
  2:{ intros g Hg%(elem_of_values _ _ _ G1). destruct (agreements_after authority tr _ _ Hg) as [_ [_ Hne] [Hd Hsub] _ _].
      split_and!; [by eapply G2|done| |done|done]. specialize (Hb _ _ Hg). unfold GetParams in Hb. by rewrite Hp in Hb. }
  cbn [mbind outcome_bind]. apply validate_personal_ok; [apply Forall_forall|by apply values_NoDup|set_solver].
  intros q Hq%(elem_of_values _ _ _ O1). by eapply O2.
Qed.

(** Credentials export and import are inverse.  After any history of fewer than
    2^32 - 1 transactions whose agreements are within the signer bound in force, the
    exported genesis passes its validation, and importing it into an empty store gives
    back every template, anchor, agreement and personal anchor. *)
Theorem cred_genesis_roundtrip tr :
  short tr → within_bound (after (I:=I) authority tr) →
  CredGenesis_Validate (ExportGenesis (after authority tr)) = Ok tt ∧
  InitGenesis (ExportGenesis (after authority tr)) empty_cred = (Ok tt, after authority tr).
Proof.
  intros Hs Hb. pose proof (cred_exported_valid tr Hs Hb) as Hv. split; [done|].
  destruct (filed_after tr) as [(p & Hp & _) [T1 _] [A1 _] [G1 _] [O1 _]].
  unfold ExportGenesis in *. rewrite import_all by done. f_equal.
  destruct (after authority tr) as [ps ts ans ags qs]. cbn [c_params c_templates c_anchors c_agreements c_personal] in *.
  f_equal; [unfold GetParams; cbn; by rewrite Hp|by apply values_rebuild..].
Qed.
End roundtrip.
