(* ===== verification/CredDemo.v ===== *)
(** * x/credentials: concrete histories

    The registry of x/identity is the one the credentials handlers read.  Short concrete
    histories witness the theorems and show two defects: a lowered signer bound, and a
    policy hash shared by two policies. *)
From stdpp Require Import base gmap strings list.
From Stdlib Require Import ZArith Lia.
From S2P Require Import Prelude GoInt KVStore Interfaces PhiDid IdTypes IdKeeper IdChain CredTypes CredServer CredRules CredHistory CredGenesis.

#[export] Instance registry_documents : DocumentReader IdStore := { GetIdentity := IdKeeper.GetIdentity }.

(** a signature is the key followed by the message; the digest of a string is itself *)
Definition cat_verifier : Verifier := {| VerifySignature _ pk msg sig := bool_decide (sig = pk +:+ msg) |}.
Definition id_hasher : Hasher := {| sha256 s := s |}.

Definition cred_doc (did controller key : string) : DIDDocument :=
  mkDoc did controller key ("u" +:+ did) 0 DID_STATUS_ACTIVE KEY_TYPE_SECP256R1.
Definition cred_ids : IdStore :=
  set_docs (λ _, <["did:phi:a" := cred_doc "did:phi:a" "alice" "ka"]> {["did:phi:b" := cred_doc "did:phi:b" "bob" "kb"]})
    empty_store.
Definition at_second (t : Z) : Context := mkContext t 1 "phi-1".
Definition tx (t : Z) (m : CredMsg) : Tx (I:=IdStore) := mkTx (at_second t) cred_ids m.

Definition demo_template : CredMsg :=
  MRegisterTemplate (mkMsgRegisterTemplate "alice" "phi.kyc.v1" "did:phi:a" "schema" "KYC" "bbs-key" 3 [0; 2]).
Definition demo_anchor : CredMsg :=
  MAnchorCredential (mkMsgAnchor "alice" "did:phi:a" "did:phi:b" "phi.kyc.v1" 1 "hash" "kahash").
Definition demo_history : list (Tx (I:=IdStore)) :=
  [tx 10 demo_template; tx 11 demo_anchor;
   tx 12 (MCreateAgreement (mkMsgCreateAgreement "bob" "deal" ["did:phi:a"; "did:phi:b"] 100));
   tx 13 (MSignAgreement (mkMsgSignAgreement "alice" "deal" "did:phi:a" "kadeal"));
   tx 14 (MSignAgreement (mkMsgSignAgreement "bob" "deal" "did:phi:b" "kbdeal"));
   tx 15 (MAnchorPersonal (mkMsgAnchorPersonal "bob" "did:phi:b" "note" "kbnote"));
   tx 16 (MUpdateTemplate (mkMsgUpdateTemplate "alice" "phi.kyc.v1" "schema2" "KYC" 4 [1]))].
Abbreviation demo_after tr := (@after IdStore registry_documents plain_codec id_hasher cat_verifier "gov" tr).

Definition deal : Agreement :=
  mkAgreement "deal" "bob" ["did:phi:a"; "did:phi:b"]
    [mkSignature "did:phi:a" 13; mkSignature "did:phi:b" 14] 100 AGREEMENT_STATUS_COMPLETED 12.
Lemma agreement_witness :
  signers deal ≡ₚ ag_RequiredSigners deal ∧
  ∀ sg, sg ∈ ag_Signatures deal →
    @signature_backed IdStore registry_documents cat_verifier demo_history deal sg.
Proof.
  destruct (@agreement_signatures_are_backed IdStore registry_documents plain_codec id_hasher cat_verifier "gov"
    demo_history "deal" deal ltac:(vm_compute; reflexivity)) as (Hc & _ & _ & _ & Hb).
  split; [by apply Hc|done].
Defined.
Definition kyc_anchor : CredentialAnchor :=
  mkAnchor "hash" "phi.kyc.v1" 1 "did:phi:a" "did:phi:b" 11 CREDENTIAL_STATUS_ACTIVE.
Lemma anchors_witness :
  @anchor_backed IdStore registry_documents cat_verifier demo_history kyc_anchor ∧
  ∃ t, GetTemplate (demo_after demo_history) "phi.kyc.v1" = Some t ∧ 1 ≤ t_Version t.
Proof.
  destruct (@anchors_are_backed IdStore registry_documents plain_codec id_hasher cat_verifier "gov"
    demo_history "hash" kyc_anchor ltac:(unfold short; cbn; lia) ltac:(vm_compute; reflexivity)) as (_ & Hb & t & Ht & Hv & _).
  split; [done|]. exists t. split; [done|]. cbn in Hv. lia.
Defined.
Lemma cred_roundtrip_witness :
  @InitGenesis id_hasher (ExportGenesis (demo_after demo_history)) empty_cred = (Ok tt, demo_after demo_history).
Proof.
  refine (proj2 (@cred_genesis_roundtrip IdStore registry_documents plain_codec id_hasher cat_verifier "gov" demo_history _ _)).
  - unfold short. cbn. lia.
  - intros h ag Hg. assert (map_Forall (λ _ ag, (length (ag_RequiredSigners ag) = 2)%nat) (c_agreements (demo_after demo_history))) as Hall.
    { apply map_Forall_to_list. vm_compute. repeat constructor. }
    rewrite (Hall h ag Hg). vm_compute. discriminate.
Defined.

(** Lowering the signer bound makes the exported genesis unusable.  After an
    agreement of two parties governance may set [max_agreement_signers] to one; the
    chain goes on, but the genesis it exports fails its own validation and importing it
    panics. *)
Theorem lowered_signer_bound_blocks_import :
  ∃ tr : list (Tx (I:=IdStore)),
    CredGenesis_Validate (H:=id_hasher) (ExportGenesis (demo_after tr)) = Err (Plain "exceeds max_agreement_signers") ∧
    fst (@InitGenesis id_hasher (ExportGenesis (demo_after tr)) empty_cred) = Panic "genesis" ∧
    ∃ s, handle (H:=registry_documents) (H0:=plain_codec) (H1:=id_hasher) (H2:=cat_verifier) "gov" (at_second 17) cred_ids
           (MSignAgreement (mkMsgSignAgreement "alice" "deal" "did:phi:a" "kadeal"))
           (mkCredState (demo_after tr) []) = (Ok tt, s).
Proof.
  exists [tx 12 (MCreateAgreement (mkMsgCreateAgreement "bob" "deal" ["did:phi:a"; "did:phi:b"] 100));
          tx 16 (MUpdateCredParams (mkMsgUpdateCredParams "gov" (mkCredParams 1)))].
  split_and!; [vm_compute; reflexivity..|]. eexists. vm_compute. reflexivity.
Qed.

(** ids may carry zero bytes *)
Definition id_with_nul : string := "a" +:+ NUL +:+ be32 1 +:+ be32 4 +:+ NUL +:+ NUL +:+ NUL.
Definition colliding : list (Tx (I:=IdStore)) :=
  [tx 10 (MRegisterTemplate (mkMsgRegisterTemplate "alice" "a" "did:phi:a" "schema" "A" "key-a" 4 [0; 1; 2]));
   tx 11 (MRegisterTemplate (mkMsgRegisterTemplate "bob" id_with_nul "did:phi:b" "schema" "B" "key-b" 2 []))].
(** The policy hash does not bind the policy.  For every hash function the two
    templates of this history, of different owners, claim counts and disclosable claims,
    carry the same disclosure policy hash: the second id contains zero bytes, which the
    chain accepts and the preimage does not escape. *)
Theorem policy_hash_shared `{Hs : Hasher} :
  let st := @after IdStore registry_documents plain_codec Hs cat_verifier "gov" colliding in
  ∃ t t', GetTemplate st "a" = Some t ∧ GetTemplate st id_with_nul = Some t' ∧
    t_DisclosurePolicyHash t = t_DisclosurePolicyHash t' ∧
    t_OwnerDid t ≠ t_OwnerDid t' ∧ t_MessageCount t = 4 ∧ t_MessageCount t' = 2 ∧
    t_DisclosableIndices t = [0; 1; 2] ∧ t_DisclosableIndices t' = [].
Proof.
  cbv zeta. eexists _, _. split_and!; [vm_compute; reflexivity|vm_compute; reflexivity|..]; done.
Qed.
