(* ===== verification/DiscProof.v ===== *)
(** * x/disclosure: the proof envelope

    [x/disclosure/types/proof.go]: what the chain reads out of a BBS+ selective
    disclosure proof before any cryptography.  The parser is shown to accept exactly the
    byte strings that are the wire form of a well-formed envelope, to report exactly what
    the envelope reveals, and never to read out of bounds. *)
From stdpp Require Import base gmap strings list sorting.
From Stdlib Require Import ZArith Lia Ascii.
From S2P Require Import Prelude GoInt KVStore.

Definition MaxBbsMessages : Z := 64.
Record DisclosedProof := mkDisclosed { MessageCount : Z; RevealedIndices : list Z }.
Definition IsPredicate (d : DisclosedProof) : bool := Z.of_nat (length (RevealedIndices d)) =? 0.
Definition DISCLOSURE_LEVEL_PREDICATE : Z := 1.
Definition DISCLOSURE_LEVEL_PARTIAL : Z := 2.
Definition Level (d : DisclosedProof) : Z :=
  if IsPredicate d then DISCLOSURE_LEVEL_PREDICATE else DISCLOSURE_LEVEL_PARTIAL.

(** ** The reader: a buffer and an offset into it *)
Record reader := mkReader { r_b : string; r_pos : Z }.
Definition ErrTruncated : error := Plain "truncated proof envelope".
Definition advance (n : Z) : M reader unit := modify (λ r, mkReader (r_b r) (r_pos r + n)).
Definition r_u32 : M reader Z :=
  r ← get_state;
  fail_if (strlen (r_b r) <? r_pos r + 4) ErrTruncated;;
  four ← lift (slice (r_b r) (r_pos r) (r_pos r + 4));
  v ← lift (BigEndian_Uint32 four);
  advance 4;;
  mret v.
Definition r_bytes : M reader string :=
  n ← r_u32;
  r ← get_state;
  fail_if (strlen (r_b r) - r_pos r <? n) ErrTruncated;;
  out ← lift (slice (r_b r) (r_pos r) (r_pos r + n));
  advance n;;
  mret out.

(** the loop over the revealed claims; [seen] are the indices read so far *)
Fixpoint read_indices (n : nat) (messageCount : Z) (seen : gset Z) : M reader (list Z) :=
  match n with
  | O => mret []
  | S n' =>
      idx ← r_u32;
      _ ← r_bytes;
      fail_if (messageCount <=? idx) (Plain "revealed index is out of range");;
      fail_if (bool_decide (idx ∈ seen)) (Plain "index revealed more than once");;
      rest ← read_indices n' messageCount ({[idx]} ∪ seen);
      mret (idx :: rest)
  end.

(** insertion sort; the sorted prefix is kept from its last element down *)
Fixpoint sift (x : Z) (prefix : list Z) : list Z :=
  match prefix with
  | [] => [x]
  | y :: p => if x <? y then y :: sift x p else x :: prefix
  end.
Definition sortAscending (a : list Z) : list Z := rev (foldl (λ p x, sift x p) [] a).

Definition parse_envelope : M reader DisclosedProof :=
  messageCount ← r_u32;
  fail_if ((messageCount =? 0) || (MaxBbsMessages <? messageCount)) (Plain "message_count out of range");;
  _ ← r_bytes;
  n ← r_u32;
  fail_if (messageCount <? n) (Plain "proof reveals more claims than the credential has");;
  indices ← read_indices (Z.to_nat n) messageCount ∅;
  r ← get_state;
  fail_if (negb (r_pos r =? strlen (r_b r))) (Plain "trailing bytes after the proof envelope");;
  mret (mkDisclosed messageCount (sortAscending indices)).
Definition ParseDisclosedProof (b : string) : outcome DisclosedProof := fst (parse_envelope (mkReader b 0)).

(** ** The wire format it reads *)
Record SelectiveProof := mkSelective { sp_Count : Z; sp_Body : string; sp_Revealed : list (Z * string) }.
Definition claim_bytes (c : Z * string) : string := be32 c.1 +:+ frame c.2.
Definition claims_bytes (l : list (Z * string)) : string := foldr (λ c s, claim_bytes c +:+ s) "" l.
Definition Marshal (p : SelectiveProof) : string :=
  be32 (sp_Count p) +:+ frame (sp_Body p) +:+ be32 (Z.of_nat (length (sp_Revealed p))) +:+ claims_bytes (sp_Revealed p).
Record well_formed (p : SelectiveProof) : Prop := {
  wf_count : 1 ≤ sp_Count p ≤ MaxBbsMessages;
  wf_body : fits (sp_Body p);
  wf_claims : Forall (λ c, 0 ≤ c.1 < sp_Count p ∧ fits c.2) (sp_Revealed p);
  wf_distinct : NoDup (sp_Revealed p).*1;
}.

(** ** The reader, on what is left of the buffer *)
Definition at_rest (r : reader) (rest : string) : Prop := ∃ pre, r_b r = pre +:+ rest ∧ r_pos r = strlen pre.
Definition skip (n : Z) (r : reader) : reader := mkReader (r_b r) (r_pos r + n).

Lemma at_rest_skip r a rest : at_rest r (a +:+ rest) → at_rest (skip (strlen a) r) rest.
Proof.
  intros (pre & Eb & Ep). exists (pre +:+ a). cbn [skip r_b r_pos]. rewrite Eb, Ep, str_app_assoc, strlen_app. done.
Qed.
(** a number is read when there is one, and otherwise the reader fails *)
Lemma r_u32_run r v rest : 0 ≤ v < 2 ^ 32 → at_rest r (be32 v +:+ rest) → r_u32 r = (Ok v, skip 4 r).
Proof.
  intros Hv (pre & Eb & Ep). unfold r_u32. erewrite run_bind by done.
  assert (strlen (r_b r) = strlen pre + 4 + strlen rest) as El by (rewrite Eb, !strlen_app, strlen_be32; lia).
  pose proof (strlen_nonneg rest). erewrite run_bind by (unfold fail_if; by rewrite (proj2 (Z.ltb_ge _ _)) by lia).
  erewrite run_bind by (unfold lift; by rewrite Eb, Ep, <- (strlen_be32 v), slice_middle).
  erewrite run_bind by (unfold lift; by rewrite <- (str_app_nil_r (be32 v)), BigEndian_Uint32_be32).
  by erewrite run_bind.
Qed.
Lemma r_u32_cases r rest : at_rest r rest →
  (∃ v rest', 0 ≤ v < 2 ^ 32 ∧ rest = be32 v +:+ rest' ∧ r_u32 r = (Ok v, skip 4 r)) ∨
  (strlen rest < 4 ∧ r_u32 r = (Err ErrTruncated, r)).
Proof.
  intros Hr. destruct (decide (4 ≤ strlen rest)) as [Hl|Hl].
  - left. destruct (cut rest 4 ltac:(lia)) as (a & rest' & -> & Ha). destruct (four_bytes a Ha) as [E Hv].
    rewrite E in Hr |- *. eexists _, rest'. split_and!; [exact (proj1 Hv)|exact (proj2 Hv)|done|]. by eapply r_u32_run.
  - right. split; [lia|]. destruct Hr as (pre & Eb & Ep). unfold r_u32. erewrite run_bind by done.
    rewrite Eb, Ep, strlen_app. rewrite (proj2 (Z.ltb_lt _ _)) by lia. done.
Qed.
Lemma r_bytes_run r s rest : fits s → at_rest r (frame s +:+ rest) → r_bytes r = (Ok s, skip (4 + strlen s) r).
Proof.
  intros Hs Hr. pose proof (strlen_nonneg s). pose proof (strlen_nonneg rest). unfold frame in Hr. rewrite str_app_assoc in Hr. unfold r_bytes.
  erewrite run_bind by (eapply r_u32_run; [|exact Hr]; unfold fits in Hs; lia). erewrite run_bind by done.
  apply at_rest_skip in Hr. rewrite strlen_be32 in Hr. pose proof Hr as (pre & Eb & Ep).
  erewrite run_bind by (unfold fail_if; rewrite Eb, Ep, !strlen_app; by rewrite (proj2 (Z.ltb_ge _ _)) by lia).
  erewrite run_bind by (unfold lift; by rewrite Eb, Ep, slice_middle).
  erewrite run_bind by done. unfold mret, M_ret, skip. cbn [r_b r_pos]. by rewrite Z.add_assoc.
Qed.
Lemma r_bytes_cases r rest : at_rest r rest →
  (∃ s rest', fits s ∧ rest = frame s +:+ rest' ∧ r_bytes r = (Ok s, skip (4 + strlen s) r)) ∨
  ∃ r', r_bytes r = (Err ErrTruncated, r').
Proof.
  intros Hr. destruct (r_u32_cases r rest Hr) as [(n & rest1 & Hn & -> & E)|[_ E]].
  - pose proof Hr as Hr1. apply at_rest_skip in Hr1. rewrite strlen_be32 in Hr1.
    destruct (decide (n ≤ strlen rest1)) as [Hl|Hl].
    + left. destruct (cut rest1 n ltac:(lia)) as (s & rest' & -> & Es). exists s, rest'. subst n.
      split_and!; [unfold fits; lia|unfold frame; by rewrite str_app_assoc|].
      apply (r_bytes_run _ _ rest'); [unfold fits; lia|]. unfold frame. by rewrite str_app_assoc.
    + right. exists (skip 4 r). unfold r_bytes. erewrite run_bind by exact E. erewrite run_bind by done.
      destruct Hr1 as (pre & Eb & Ep). rewrite Eb, Ep, strlen_app. rewrite (proj2 (Z.ltb_lt _ _)) by lia. done.
  - right. exists r. unfold r_bytes, mbind, M_bind. by rewrite E.
Qed.

(** ** The loop *)
Lemma at_rest_skip' r n a rest : strlen a = n → at_rest r (a +:+ rest) → at_rest (skip n r) rest.
Proof. intros <-. apply at_rest_skip. Qed.
Lemma skip_skip n m r : skip m (skip n r) = skip (n + m) r.
Proof. unfold skip. cbn. by rewrite Z.add_assoc. Qed.
Lemma strlen_frame s : strlen (frame s) = 4 + strlen s.
Proof. unfold frame. by rewrite strlen_app, strlen_be32. Qed.

Lemma claims_bytes_cons i s l : claims_bytes ((i, s) :: l) = be32 i +:+ frame s +:+ claims_bytes l.
Proof. cbn [claims_bytes foldr]. unfold claim_bytes. cbn [fst snd]. by rewrite str_app_assoc. Qed.
Lemma read_indices_run mc seen l r rest :
  mc ≤ MaxBbsMessages → Forall (λ c, 0 ≤ c.1 < mc ∧ fits c.2) l → NoDup l.*1 → (∀ i, i ∈ l.*1 → i ∉ seen) →
  at_rest r (claims_bytes l +:+ rest) →
  read_indices (length l) mc seen r = (Ok l.*1, skip (strlen (claims_bytes l)) r).
Proof.
  intros Hmc Hl. revert seen r. induction Hl as [|[i s] l [Hi Hs] Hl IH]; intros seen r Hn Hd Hr.
  { cbn. unfold skip. rewrite Z.add_0_r. by destruct r. }
  rewrite fmap_cons in Hn, Hd. apply NoDup_cons in Hn as [Hni Hn]. cbn [fst snd] in *.
  rewrite claims_bytes_cons, !str_app_assoc in Hr.
  cbn [length read_indices]. unfold MaxBbsMessages in Hmc.
  erewrite run_bind by (eapply r_u32_run; [|exact Hr]; lia). apply (at_rest_skip' _ 4) in Hr; [|apply strlen_be32].
  erewrite run_bind by (eapply r_bytes_run; [|exact Hr]; done). apply (at_rest_skip' _ (4 + strlen s)) in Hr; [|apply strlen_frame].
  erewrite run_bind by (unfold fail_if; by rewrite (proj2 (Z.leb_gt _ _)) by lia).
  erewrite run_bind by (unfold fail_if; rewrite bool_decide_eq_false_2 by (apply Hd; left); done).
  erewrite run_bind by (apply IH; [done| |exact Hr]; intros j Hj; rewrite not_elem_of_union, not_elem_of_singleton;
    split; [by intros ->|apply Hd; by right]).
  unfold mret, M_ret. rewrite !skip_skip, fmap_cons. f_equal. f_equal.
  rewrite claims_bytes_cons, !strlen_app, strlen_be32, strlen_frame. lia.
Qed.
Lemma read_indices_inv n mc seen r rest idxs r' :
  at_rest r rest → read_indices n mc seen r = (Ok idxs, r') →
  ∃ l rest', rest = claims_bytes l +:+ rest' ∧ length l = n ∧ l.*1 = idxs ∧
    Forall (λ c, 0 ≤ c.1 < mc ∧ fits c.2) l ∧ NoDup l.*1 ∧ (∀ i, i ∈ l.*1 → i ∉ seen) ∧ at_rest r' rest'.
Proof.
  revert seen r rest idxs. induction n as [|n IH]; intros seen r rest idxs Hr E; cbn [read_indices] in E.
  { go_inv. exists [], rest. split_and!; [done..|apply NoDup_nil_2|set_solver|done]. }
  apply bind_Ok in E as (i & r1 & E1 & E). apply bind_Ok in E as (s & r2 & E2 & E).
  destruct (r_u32_cases r rest Hr) as [(v & rest1 & Hv & -> & E1')|[_ E1']]; [|congruence].
  assert (v = i ∧ r1 = skip 4 r) as [-> ->] by (split; congruence). apply (at_rest_skip' _ 4) in Hr; [|apply strlen_be32].
  destruct (r_bytes_cases _ _ Hr) as [(s' & rest2 & Hs & -> & E2')|(r2' & E2')]; [|congruence].
  assert (s' = s ∧ r2 = skip (4 + strlen s') (skip 4 r)) as [-> ->] by (split; congruence).
  apply (at_rest_skip' _ (4 + strlen s)) in Hr; [|apply strlen_frame]. go_inv. bool_prop.
  match goal with H : read_indices _ _ _ _ = _ |- _ => destruct (IH _ _ _ _ Hr H) as (l & rest' & -> & <- & <- & Hl & Hn & Hd & Hr') end.
  exists ((i, s) :: l), rest'. split_and!; [|done|done|by constructor; [cbn; split; [lia|done]|]| | |done].
  - by rewrite claims_bytes_cons, !str_app_assoc.
  - rewrite fmap_cons. apply NoDup_cons. split; [|done]. intros Hi. specialize (Hd _ Hi). set_solver.
  - intros j. rewrite fmap_cons, elem_of_cons. intros [->|Hj]; [done|]. specialize (Hd _ Hj). set_solver.
Qed.
Lemma read_indices_safe n mc seen r rest w r' :
  at_rest r rest → read_indices n mc seen r ≠ (Panic w, r').
Proof.
  revert seen r rest. induction n as [|n IH]; intros seen r rest Hr; [done|]. cbn [read_indices]. unfold mbind, M_bind.
  destruct (r_u32_cases r rest Hr) as [(v & rest1 & Hv & -> & ->)|[_ ->]]; [|done].
  apply (at_rest_skip' _ 4) in Hr; [|apply strlen_be32].
  destruct (r_bytes_cases _ _ Hr) as [(s & rest2 & Hs & -> & ->)|(r2 & ->)]; [|done].
  apply (at_rest_skip' _ (4 + strlen s)) in Hr; [|apply strlen_frame]. unfold fail_if, fail, mret, M_ret.
  destruct (mc <=? v); [done|]. case_bool_decide; [done|].
  destruct (read_indices n mc _ _) as [[idxs|e|w'] r3] eqn:E; [done|done|]. intros [= -> ->]. by eapply IH.
Qed.

(** ** Sorting *)
Definition at_least (a b : Z) : Prop := b ≤ a.
Lemma sift_perm x p : sift x p ≡ₚ x :: p.
Proof. induction p as [|y p IH]; cbn; [done|]. case_match; [|done]. rewrite IH. apply Permutation_swap. Qed.
Lemma sift_sorted x p : StronglySorted at_least p → StronglySorted at_least (sift x p).
Proof.
  induction 1 as [|y p Hp IH Hy]; cbn; [repeat constructor|]. destruct (Z.ltb_spec x y).
  - constructor; [done|]. rewrite sift_perm. constructor; [unfold at_least; lia|done].
  - constructor; [by constructor|]. constructor; [done|]. eapply Forall_impl; [done|]. unfold at_least. intros z; cbv beta. lia.
Qed.
Lemma sortAscending_perm a : sortAscending a ≡ₚ a.
Proof.
  unfold sortAscending. rewrite <- Permutation_rev. rewrite <- (app_nil_r a) at 2. generalize (@nil Z) as p.
  induction a as [|x a IH]; intros p; cbn [foldl]; [done|]. rewrite IH, sift_perm. by rewrite <- Permutation_middle.
Qed.
Lemma sortAscending_sorted a : StronglySorted Z.le (sortAscending a).
Proof.
  unfold sortAscending. assert (StronglySorted at_least (foldl (λ p x, sift x p) [] a)) as Hs.
  { assert (StronglySorted at_least (@nil Z)) as H0 by constructor. revert H0. generalize (@nil Z) as p.
    induction a as [|x a IH]; intros p Hp; cbn [foldl]; [done|]. by apply IH, sift_sorted. }
  induction Hs as [|y p Hp IH Hy]; cbn [rev]; [constructor|]. apply StronglySorted_snoc; [done|].
  rewrite <- Permutation_rev. exact Hy.
Qed.

(** ** The parser decides the wire format *)
Definition summary (p : SelectiveProof) : DisclosedProof := mkDisclosed (sp_Count p) (sortAscending (sp_Revealed p).*1).

Lemma distinct_bounded (l : list Z) m : 0 ≤ m → NoDup l → Forall (λ i, 0 ≤ i < m) l → Z.of_nat (length l) ≤ m.
Proof.
  intros Hm Hn Hl. assert (length l ≤ length (seqZ 0 m))%nat as Hle; [|rewrite length_seqZ in Hle; lia].
  apply submseteq_length, NoDup_submseteq; [done|]. intros i Hi. apply elem_of_seqZ.
  rewrite Forall_forall in Hl. specialize (Hl i Hi). lia.
Qed.
Lemma start_at b : at_rest (mkReader b 0) b.
Proof. by exists "". Qed.
Lemma parse_marshal p : well_formed p → ParseDisclosedProof (Marshal p) = Ok (summary p).
Proof.
  intros [Hc Hb Hl Hd]. unfold ParseDisclosedProof. pose proof (start_at (Marshal p)) as Hr.
  assert (Z.of_nat (length (sp_Revealed p)) ≤ sp_Count p) as Hn.
  { rewrite <- (length_fmap fst). apply distinct_bounded; [lia|done|]. apply Forall_fmap. eapply Forall_impl; [done|]. by intros c [? _]. }
  unfold MaxBbsMessages in Hc. unfold Marshal in Hr at 2. unfold parse_envelope.
  erewrite run_bind by (eapply r_u32_run; [|exact Hr]; lia). apply (at_rest_skip' _ 4) in Hr; [|apply strlen_be32].
  erewrite run_bind by (unfold fail_if, MaxBbsMessages; by rewrite (proj2 (Z.eqb_neq _ _)), (proj2 (Z.ltb_ge _ _)) by lia).
  erewrite run_bind by (eapply r_bytes_run; [|exact Hr]; done). apply (at_rest_skip' _ (4 + strlen (sp_Body p))) in Hr; [|apply strlen_frame].
  erewrite run_bind by (eapply r_u32_run; [|exact Hr]; lia). apply (at_rest_skip' _ 4) in Hr; [|apply strlen_be32].
  erewrite run_bind by (unfold fail_if; by rewrite (proj2 (Z.ltb_ge _ _)) by lia). rewrite Nat2Z.id.
  rewrite <- (str_app_nil_r (claims_bytes _)) in Hr.
  erewrite run_bind by (apply (read_indices_run _ _ _ _ ""); [unfold MaxBbsMessages; lia|done|done|set_solver|exact Hr]).
  erewrite run_bind by done. apply at_rest_skip in Hr as (pre & Eb & Ep). rewrite str_app_nil_r in Eb.
  erewrite run_bind by (unfold fail_if; rewrite Ep, Eb, Z.eqb_refl; done). done.
Qed.
Lemma parse_inv b d : ParseDisclosedProof b = Ok d → ∃ p, well_formed p ∧ b = Marshal p ∧ d = summary p.
Proof.
  unfold ParseDisclosedProof. destruct (parse_envelope (mkReader b 0)) as [o r] eqn:E. cbn [fst]. intros ->.
  pose proof (start_at b) as Hr. unfold parse_envelope in E.
  apply bind_Ok in E as (mc & r1 & E1 & E).
  destruct (r_u32_cases _ _ Hr) as [(v & rest & Hv & Eb & E1')|[_ E1']]; [|congruence].
  rewrite Eb in Hr at 2. assert (v = mc ∧ r1 = skip 4 (mkReader b 0)) as [-> ->] by (split; congruence).
  apply (at_rest_skip' _ 4) in Hr; [|apply strlen_be32]. clear E1 E1'.
  apply bind_Ok in E as (? & ? & [Hmc <-]%fail_if_Ok & E). apply bind_Ok in E as (body & r2 & E2 & E).
  destruct (r_bytes_cases _ _ Hr) as [(s & rest2 & Hs & -> & E2')|(r2' & E2')]; [|congruence].
  assert (s = body ∧ r2 = skip (4 + strlen s) (skip 4 (mkReader b 0))) as [-> ->] by (split; congruence).
  apply (at_rest_skip' _ (4 + strlen body)) in Hr; [|apply strlen_frame]. clear E2 E2'.
  apply bind_Ok in E as (n & r3 & E3 & E).
  destruct (r_u32_cases _ _ Hr) as [(v & rest3 & Hn & -> & E3')|[_ E3']]; [|congruence].
  assert (v = n ∧ r3 = skip 4 (skip (4 + strlen body) (skip 4 (mkReader b 0)))) as [-> ->] by (split; congruence).
  apply (at_rest_skip' _ 4) in Hr; [|apply strlen_be32]. clear E3 E3'.
  apply bind_Ok in E as (? & ? & [Hle <-]%fail_if_Ok & E). apply bind_Ok in E as (idxs & r4 & E4 & E).
  destruct (read_indices_inv _ _ _ _ _ _ _ Hr E4) as (l & rest4 & -> & Hlen & <- & Hl & Hd & _ & Hr4).
  go_inv. bool_prop. destruct Hr4 as (pre & Eb4 & Ep4). rewrite Eb4, strlen_app in *. assert (rest4 = "") as -> by (apply strlen_0; lia).
  exists (mkSelective mc body l). split_and!.
  - constructor; cbn; [unfold MaxBbsMessages in *; lia|done|done|done].
  - unfold Marshal. cbn [sp_Count sp_Body sp_Revealed]. rewrite Hlen, Z2Nat.id, str_app_nil_r by lia. done.
  - done.
Qed.
Lemma parse_safe b w : ParseDisclosedProof b ≠ Panic w.
Proof.
  unfold ParseDisclosedProof, parse_envelope, mbind, M_bind. pose proof (start_at b) as Hr.
  destruct (r_u32_cases _ _ Hr) as [(v & rest & Hv & Eb & ->)|[_ ->]]; [|done].
  rewrite Eb in Hr at 2. apply (at_rest_skip' _ 4) in Hr; [|apply strlen_be32].
  unfold fail_if, fail, mret, M_ret, get_state. destruct (_ || _); [done|].
  destruct (r_bytes_cases _ _ Hr) as [(s & rest2 & Hs & -> & ->)|(r2' & ->)]; [|done].
  apply (at_rest_skip' _ (4 + strlen s)) in Hr; [|apply strlen_frame].
  destruct (r_u32_cases _ _ Hr) as [(n & rest3 & Hn & -> & ->)|[_ ->]]; [|done].
  apply (at_rest_skip' _ 4) in Hr; [|apply strlen_be32]. destruct (v <? n); [done|].
  destruct (read_indices _ _ _ _) as [[idxs|e|w'] r4] eqn:E; [|done|by eapply read_indices_safe in E].
  by destruct (negb _).
Qed.

(** C27: the envelope parser decides the wire format.  A byte string is accepted exactly
    when it is the wire form of a well-formed envelope (a claim count within the limit,
    distinct revealed indices below it, nothing after the last claim), the result is the
    count and the revealed indices in ascending order, and no input makes the parser read
    outside the buffer. *)
Theorem parse_decides_wire_format b :
  (∀ d, ParseDisclosedProof b = Ok d ↔ ∃ p, well_formed p ∧ b = Marshal p ∧ d = summary p) ∧
  (∀ w, ParseDisclosedProof b ≠ Panic w) ∧
  ∀ a, sortAscending a ≡ₚ a ∧ StronglySorted Z.le (sortAscending a).
Proof.
  split_and!.
  - intros d. split; [apply parse_inv|]. intros (p & Hp & -> & ->). by apply parse_marshal.
  - intros w. apply parse_safe.
  - intros a. split; [apply sortAscending_perm|apply sortAscending_sorted].
Qed.

(** the wire form determines the envelope *)
Lemma claims_bytes_inj l l' s s' : length l = length l' →
  Forall (λ c, 0 ≤ c.1 < 2 ^ 32 ∧ fits c.2) l → Forall (λ c, 0 ≤ c.1 < 2 ^ 32 ∧ fits c.2) l' →
  claims_bytes l +:+ s = claims_bytes l' +:+ s' → l = l' ∧ s = s'.
Proof.
  intros Hlen Hl. revert l' Hlen. induction Hl as [|[i x] l [Hi Hx] Hl IH]; intros [|[j y] l'] Hlen Hl' E; try done.
  apply Forall_cons in Hl' as [[Hj Hy] Hl']. cbn [fst snd] in *. injection Hlen as Hlen. rewrite !claims_bytes_cons, !str_app_assoc in E. apply be32_app_inj in E as [-> E]; [|done..].
  apply frame_inj in E as [-> E]; [|done..]. by destruct (IH l' Hlen Hl' E) as [-> ->].
Qed.
Lemma Marshal_inj p q : well_formed p → well_formed q → Marshal p = Marshal q → p = q.
Proof.
  intros Hp Hq E. destruct p as [c b l], q as [c' b' l'].
  assert (∀ p, well_formed p → Forall (λ x, 0 ≤ x.1 < 2 ^ 32 ∧ fits x.2) (sp_Revealed p) ∧ 0 ≤ sp_Count p < 2 ^ 32 ∧
    0 ≤ Z.of_nat (length (sp_Revealed p)) < 2 ^ 32) as Hw.
  { intros p [Hc _ Hl Hd]. unfold MaxBbsMessages in Hc. split_and!; [|lia..|].
    - eapply Forall_impl; [done|]. intros x [? ?]. split; [lia|done].
    - rewrite <- (length_fmap fst). assert (Z.of_nat (length (sp_Revealed p).*1) ≤ sp_Count p); [|lia].
      apply distinct_bounded; [lia|done|]. apply Forall_fmap. eapply Forall_impl; [done|]. by intros x [? _]. }
  destruct (Hw _ Hp) as (Hl & Hc & Hn), (Hw _ Hq) as (Hl' & Hc' & Hn').
  destruct Hp as [_ Hb _ _], Hq as [_ Hb' _ _]. unfold Marshal in E. cbn [sp_Count sp_Body sp_Revealed] in *.
  apply be32_app_inj in E as [-> E]; [|done..]. apply frame_inj in E as [-> E]; [|done..].
  apply be32_app_inj in E as [En E]; [|done..].
  rewrite <- (str_app_nil_r (claims_bytes l)), <- (str_app_nil_r (claims_bytes l')) in E.
  apply claims_bytes_inj in E as [-> _]; [done|lia|done|done].
Qed.
