(* ===== verification/DiscServer.v ===== *)
(** * x/disclosure: the verification query

    [x/disclosure/keeper] and [types]: the parameters with their update and genesis, and
    [VerifyDisclosure], which judges a proof against an anchored credential of
    x/credentials.  Nothing is stored.  The verdict is characterised exactly, and over the
    histories of x/credentials it is shown what a positive verdict establishes. *)
From stdpp Require Import base gmap strings list sorting.
From Stdlib Require Import ZArith Lia.
From S2P Require Import Prelude GoInt KVStore Interfaces PhiDid IdTypes CredTypes CredServer CredRules CredHistory DiscProof.

(** ** Parameters *)
Record DiscParams := mkDiscParams { MaxProofSizeBytes : Z }.
Definition DefaultMaxProofSizeBytes : Z := 16384.
Definition MaxProofSizeBytesCeiling : Z := 2 ^ 20.
Definition DefaultDiscParams : DiscParams := mkDiscParams DefaultMaxProofSizeBytes.
Definition DiscParams_Validate (p : DiscParams) : outcome unit :=
  err_if (MaxProofSizeBytes p =? 0) (Plain "max_proof_size_bytes must be > 0");;
  err_if (MaxProofSizeBytesCeiling <? MaxProofSizeBytes p) (Plain "max_proof_size_bytes must be <= the ceiling").

(** the store holds the parameters and nothing else *)
Definition DiscStore : Type := option DiscParams.
Definition Disc_GetParams (st : DiscStore) : DiscParams := default DefaultDiscParams st.
Definition Disc_SetParams (p : DiscParams) : M DiscStore unit :=
  lift (DiscParams_Validate p);; put_state (Some p).
Record MsgUpdateDiscParams := mkMsgUpdateDiscParams { du_Authority : string; du_Params : DiscParams }.
Definition UpdateDiscParams_ValidateBasic `{AddressCodec} (m : MsgUpdateDiscParams) : outcome unit :=
  err_if (negb (is_bech32 (du_Authority m))) ErrInvalidAddress;; DiscParams_Validate (du_Params m).
Definition Disc_UpdateParams (authority : string) (msg : MsgUpdateDiscParams) : M DiscStore unit :=
  fail_if (negb (bool_decide (du_Authority msg = authority))) ErrInvalidSigner;;
  Disc_SetParams (du_Params msg).
Definition Disc_InitGenesis (gs : DiscParams) : M DiscStore unit :=
  or_panic (lift (DiscParams_Validate gs));; or_panic (Disc_SetParams gs).
Definition Disc_ExportGenesis (st : DiscStore) : DiscParams := Disc_GetParams st.

(** ** x/credentials, as x/disclosure reads it, and the phi-crypto port *)
Class CredentialReader (C : Type) := {
  read_anchor : C → string → option CredentialAnchor;
  read_template : C → string → option CredentialTemplate }.
#[export] Instance store_reader : CredentialReader CredStore := {
  read_anchor := GetAnchor; read_template := GetTemplate }.
Class BBSVerifier := { VerifyBBSProof : string → string → string → bool }.

Record DiscRequest := mkDiscRequest {
  dq_CredentialHash : string; dq_Proof : string; dq_Nonce : string; dq_PolicyHash : string }.
Record DiscResponse := mkDiscResponse {
  dr_Valid : bool; dr_Reason : string; dr_IssuerDid : string; dr_TemplateId : string;
  dr_Level : Z; dr_RevealedIndices : list Z; dr_PolicyHash : string }.
(** [status.Error(codes.InvalidArgument, ..)] *)
Definition ErrInvalidArgument : error := Plain "InvalidArgument".

Section query.
Context {C : Type} `{CredentialReader C} `{BBSVerifier}.

Definition reject (reason : string) : DiscResponse := mkDiscResponse false reason "" "" 0 [] "".
Definition reject_for (a : CredentialAnchor) (policyHash reason : string) : DiscResponse :=
  mkDiscResponse false reason (an_IssuerDid a) (an_TemplateId a) 0 [] policyHash.

Definition VerifyDisclosure (params : DiscStore) (creds : C) (req : DiscRequest) : outcome DiscResponse :=
  err_if (strlen (dq_CredentialHash req) =? 0) ErrInvalidArgument;;
  err_if (strlen (dq_Proof req) =? 0) ErrInvalidArgument;;
  if MaxProofSizeBytes (Disc_GetParams params) <? u32 (strlen (dq_Proof req))
  then Ok (reject "proof exceeds max_proof_size_bytes") else
  match read_anchor creds (dq_CredentialHash req) with
  | None => Ok (reject "credential not anchored")
  | Some anchor =>
      if negb (an_Status anchor =? CREDENTIAL_STATUS_ACTIVE)
      then Ok (reject_for anchor "" "credential is revoked or inactive") else
      match read_template creds (an_TemplateId anchor) with
      | None => Ok (reject_for anchor "" "credential template not found")
      | Some tmpl =>
          if strlen (t_IssuerBbsPubkey tmpl) =? 0
          then Ok (reject_for anchor "" "template has no issuer BBS public key") else
          let refuse := reject_for anchor (t_DisclosurePolicyHash tmpl) in
          if negb (strlen (dq_PolicyHash req) =? 0) && negb (bool_decide (dq_PolicyHash req = t_DisclosurePolicyHash tmpl))
          then Ok (refuse "disclosure policy hash mismatch: the template's policy has changed since it was pinned") else
          match ParseDisclosedProof (dq_Proof req) with
          | Panic w => Panic w
          | Err _ => Ok (refuse "malformed proof envelope: ")  (** followed by the text of the error *)
          | Ok disclosed =>
              if negb (MessageCount disclosed =? t_MessageCount tmpl)
              then Ok (refuse "proof message_count does not match the template's declared claim count")
              else match List.find (λ i, negb (IsDisclosable tmpl i)) (RevealedIndices disclosed) with
                   | Some i => Ok (refuse ("claim " +:+ Int_String i +:+ " is not disclosable under this template's policy"))
                   | None =>
                       if negb (VerifyBBSProof (dq_Proof req) (t_IssuerBbsPubkey tmpl) (dq_Nonce req))
                       then Ok (refuse "proof verification failed")
                       else Ok (mkDiscResponse true "" (an_IssuerDid anchor) (an_TemplateId anchor)
                              (Level disclosed) (RevealedIndices disclosed) (t_DisclosurePolicyHash tmpl))
                   end
          end
      end
  end.

(** ** The verdict *)
Definition acceptable (params : DiscStore) (creds : C) (req : DiscRequest)
  (a : CredentialAnchor) (t : CredentialTemplate) (p : SelectiveProof) : Prop :=
  read_anchor creds (dq_CredentialHash req) = Some a ∧ an_Status a = CREDENTIAL_STATUS_ACTIVE ∧
  read_template creds (an_TemplateId a) = Some t ∧ t_IssuerBbsPubkey t ≠ "" ∧
  (dq_PolicyHash req = "" ∨ dq_PolicyHash req = t_DisclosurePolicyHash t) ∧
  u32 (strlen (dq_Proof req)) ≤ MaxProofSizeBytes (Disc_GetParams params) ∧
  well_formed p ∧ dq_Proof req = Marshal p ∧ sp_Count p = t_MessageCount t ∧
  (∀ i, i ∈ (sp_Revealed p).*1 → i ∈ t_DisclosableIndices t) ∧
  VerifyBBSProof (dq_Proof req) (t_IssuerBbsPubkey t) (dq_Nonce req) = true.

Lemma IsDisclosable_spec t i : IsDisclosable t i = true ↔ i ∈ t_DisclosableIndices t.
Proof.
  unfold IsDisclosable. rewrite existsb_exists, list_elem_of_In. split.
  - intros (d & Hd & E%Z.eqb_eq). by subst.
  - intros Hi. exists i. by rewrite Z.eqb_refl.
Qed.
Lemma none_hidden t (l : list Z) :
  List.find (λ i, negb (IsDisclosable t i)) l = None ↔ ∀ i, i ∈ l → i ∈ t_DisclosableIndices t.
Proof.
  split.
  - intros Hf i Hi. apply IsDisclosable_spec. apply list_elem_of_In in Hi. pose proof (find_none _ _ Hf i Hi) as E.
    by apply negb_false_iff in E.
  - intros Hl. destruct (List.find _ l) as [i|] eqn:E; [|done]. apply find_some in E as [Hi E].
    apply list_elem_of_In, Hl, IsDisclosable_spec in Hi. by rewrite Hi in E.
Qed.
Lemma empty_text s : (strlen s =? 0) = false ↔ s ≠ "".
Proof. destruct s; cbn; split; done. Qed.
Lemma revealed_sorted p i : i ∈ RevealedIndices (summary p) ↔ i ∈ (sp_Revealed p).*1.
Proof. cbn [summary RevealedIndices]. by rewrite sortAscending_perm. Qed.

Lemma accepted_run params creds req a t p :
  dq_CredentialHash req ≠ "" → dq_Proof req ≠ "" → acceptable params creds req a t p →
  VerifyDisclosure params creds req =
  Ok (mkDiscResponse true "" (an_IssuerDid a) (an_TemplateId a) (Level (summary p)) (RevealedIndices (summary p))
        (t_DisclosurePolicyHash t)).
Proof.
  intros Hh Hp (Ha & Hs & Ht & Hk & Hpin & Hsz & Hw & Em & Hc & Hd & Hv). unfold VerifyDisclosure.
  rewrite (proj2 (empty_text _) Hh), (proj2 (empty_text _) Hp). cbn [err_if mbind outcome_bind].
  rewrite (proj2 (Z.ltb_ge _ _)) by lia. rewrite Ha, Hs, Ht, Z.eqb_refl, (proj2 (empty_text _) Hk). cbn [negb].
  assert (negb (strlen (dq_PolicyHash req) =? 0) && negb (bool_decide (dq_PolicyHash req = t_DisclosurePolicyHash t)) = false) as ->.
  { destruct Hpin as [->|E]; [done|]. rewrite (bool_decide_eq_true_2 _ E). apply andb_false_r. }
  assert (ParseDisclosedProof (dq_Proof req) = Ok (summary p)) as -> by (rewrite Em; by apply parse_marshal).
  cbn [MessageCount summary]. rewrite Hc, Z.eqb_refl. cbn [negb].
  assert (List.find (λ i, negb (IsDisclosable t i)) (RevealedIndices (summary p)) = None) as ->.
  { apply none_hidden. intros i. rewrite revealed_sorted. apply Hd. }
  by rewrite Hv.
Qed.
Lemma verdict_cases params creds req :
  dq_CredentialHash req ≠ "" → dq_Proof req ≠ "" →
  ∃ resp, VerifyDisclosure params creds req = Ok resp ∧
    (dr_Valid resp = true → ∃ a t p, acceptable params creds req a t p) ∧
    (dr_Valid resp = false → dr_RevealedIndices resp = [] ∧ dr_Level resp = 0).
Proof.
  intros Hh Hp. unfold VerifyDisclosure.
  rewrite (proj2 (empty_text _) Hh), (proj2 (empty_text _) Hp). cbn [err_if mbind outcome_bind].
  destruct (Z.ltb_spec (MaxProofSizeBytes (Disc_GetParams params)) (u32 (strlen (dq_Proof req)))) as [|Hsz]; [by eexists|].
  destruct (read_anchor creds (dq_CredentialHash req)) as [a|] eqn:Ha; [|by eexists].
  destruct (Z.eqb_spec (an_Status a) CREDENTIAL_STATUS_ACTIVE) as [Hs|]; cbn [negb]; [|by eexists].
  destruct (read_template creds (an_TemplateId a)) as [t|] eqn:Ht; [|by eexists].
  destruct (strlen (t_IssuerBbsPubkey t) =? 0) eqn:Hk; [by eexists|]. apply empty_text in Hk.
  destruct (negb _ && negb _) eqn:Hpin; [by eexists|].
  destruct (ParseDisclosedProof (dq_Proof req)) as [d|e|w] eqn:Hd; [|by eexists|by destruct (parse_safe _ _ Hd)].
  destruct (parse_inv _ _ Hd) as (p & Hw & Em & ->). cbn [MessageCount summary].
  destruct (Z.eqb_spec (sp_Count p) (t_MessageCount t)) as [Hc|]; cbn [negb]; [|by eexists].
  destruct (List.find _ _) as [i|] eqn:Hf; [by eexists|].
  destruct (VerifyBBSProof _ _ _) eqn:Hv; cbn [negb]; [|by eexists]. eexists. split; [done|]. split; [|done]. intros _.
  exists a, t, p. split_and!; [done..| |done|done|done|done| |done].
  - apply andb_false_iff in Hpin as [E|E]; apply negb_false_iff in E; [left; apply strlen_0; lia|right; by bool_prop].
  - intros i Hi. apply (proj1 (none_hidden _ _) Hf). by apply revealed_sorted.
Qed.

(** C25: the verdict of a disclosure query, exactly.  A well-posed query always gets an
    answer.  It is positive exactly when the named credential is anchored and not
    revoked, its template is there with a key, the pinned policy hash (if any) is the
    template's current one, the proof is the wire form of an envelope of the template's
    claim count that reveals only claims the issuer declared disclosable, and the
    cryptography accepts it under the template's key; the answer then lists precisely the
    revealed claims, and calls the proof a predicate exactly when there are none. *)
Theorem disclosure_verdict params creds req :
  dq_CredentialHash req ≠ "" → dq_Proof req ≠ "" →
  ∃ resp, VerifyDisclosure params creds req = Ok resp ∧
    (dr_Valid resp = true ↔ ∃ a t p, acceptable params creds req a t p) ∧
    (dr_Valid resp = false → dr_RevealedIndices resp = [] ∧ dr_Level resp = 0) ∧
    ∀ a t p, acceptable params creds req a t p →
      dr_RevealedIndices resp ≡ₚ (sp_Revealed p).*1 ∧ StronglySorted Z.le (dr_RevealedIndices resp) ∧
      dr_IssuerDid resp = an_IssuerDid a ∧ dr_TemplateId resp = an_TemplateId a ∧
      dr_PolicyHash resp = t_DisclosurePolicyHash t ∧
      (dr_Level resp = DISCLOSURE_LEVEL_PREDICATE ↔ sp_Revealed p = []).
Proof.
  intros Hh Hp. destruct (verdict_cases params creds req Hh Hp) as (resp & E & Hv & Hf). exists resp. split; [done|].
  assert (∀ a t p, acceptable params creds req a t p → resp = mkDiscResponse true "" (an_IssuerDid a) (an_TemplateId a)
    (Level (summary p)) (RevealedIndices (summary p)) (t_DisclosurePolicyHash t)) as Hacc.
  { intros a t p Ha. pose proof (accepted_run _ _ _ _ _ _ Hh Hp Ha). congruence. }
  split_and!; [|done|].
  - split; [done|]. intros (a & t & p & Ha). by rewrite (Hacc a t p Ha).
  - intros a t p Ha. rewrite (Hacc a t p Ha). cbn [dr_RevealedIndices dr_IssuerDid dr_TemplateId dr_PolicyHash dr_Level].
    split_and!; [apply sortAscending_perm|apply sortAscending_sorted|done..|]. unfold Level, IsPredicate.
    cbn [summary RevealedIndices]. rewrite (Permutation_length (sortAscending_perm _)), length_fmap.
    destruct (sp_Revealed p); cbn; split; done.
Qed.

Lemma query_well_posed params creds req resp :
  VerifyDisclosure params creds req = Ok resp → dq_CredentialHash req ≠ "" ∧ dq_Proof req ≠ "".
Proof.
  unfold VerifyDisclosure. intros E. apply obind_Ok in E as (? & E1%err_if_Ok & E). apply obind_Ok in E as (? & E2%err_if_Ok & _).
  split; by apply empty_text.
Qed.

(** A template that declares no claims admits no disclosure.  With a message count of
    zero no proof whatever is accepted, not even one that reveals nothing. *)
Theorem no_policy_no_proof params creds req a t resp :
  read_anchor creds (dq_CredentialHash req) = Some a → read_template creds (an_TemplateId a) = Some t →
  t_MessageCount t = 0 → VerifyDisclosure params creds req = Ok resp → dr_Valid resp = false.
Proof.
  intros Ha Ht Hz E. destruct (query_well_posed _ _ _ _ E) as [Hh Hp].
  destruct (verdict_cases params creds req Hh Hp) as (resp' & E' & Hv & _). assert (resp' = resp) as -> by congruence.
  destruct (dr_Valid resp); [|done]. destruct (Hv eq_refl) as (a' & t' & p & Ha' & _ & Ht' & _ & _ & _ & Hw & _ & Hc & _).
  assert (a' = a) as -> by congruence. assert (t' = t) as -> by congruence. destruct Hw as [Hw _ _ _]. lia.
Qed.

(** the same proof, said to be derived from another credential *)
Definition naming (h : string) (req : DiscRequest) : DiscRequest := mkDiscRequest h (dq_Proof req) (dq_Nonce req) (dq_PolicyHash req).
(** the answer a query gets when it names another active credential of the template *)
Definition credited_to (did : string) (resp : DiscResponse) : DiscResponse :=
  mkDiscResponse true "" did (dr_TemplateId resp) (dr_Level resp) (dr_RevealedIndices resp) (dr_PolicyHash resp).
(** The proof is not tied to the named credential: what was accepted for one anchor is
    accepted for every active anchor of the template, in any store with that template. *)
Lemma verdict_ignores_credential params (creds creds' : C) req resp h a :
  VerifyDisclosure params creds req = Ok resp → dr_Valid resp = true →
  read_template creds' (dr_TemplateId resp) = read_template creds (dr_TemplateId resp) →
  h ≠ "" → read_anchor creds' h = Some a → an_Status a = CREDENTIAL_STATUS_ACTIVE → an_TemplateId a = dr_TemplateId resp →
  VerifyDisclosure params creds' (naming h req) = Ok (credited_to (an_IssuerDid a) resp).
Proof.
  intros E Hv Et Hh Ha Hs Ei. destruct (query_well_posed _ _ _ _ E) as [Hh0 Hp].
  destruct (verdict_cases params creds req Hh0 Hp) as (resp' & E' & Hacc & _). assert (resp' = resp) as -> by congruence.
  destruct (Hacc Hv) as (a0 & t & p & Hok). pose proof (accepted_run _ _ _ _ _ _ Hh0 Hp Hok) as Er. rewrite E in Er. injection Er as ->.
  cbn [dr_TemplateId] in *. destruct Hok as (_ & _ & Ht & Hrest). rewrite <- Ei in Et, Ht.
  rewrite (accepted_run params creds' (naming h req) a t p Hh Hp); [unfold credited_to; cbn; by rewrite Ei|].
  split_and!; [done|done|by rewrite Et|by destruct Hrest as (? & ? & ? & ? & ? & ? & ? & ?)..].
Qed.
Lemma revoked_refused params (creds : C) req a :
  dq_CredentialHash req ≠ "" → dq_Proof req ≠ "" →
  read_anchor creds (dq_CredentialHash req) = Some a → an_Status a = CREDENTIAL_STATUS_REVOKED →
  ∃ refused, VerifyDisclosure params creds req = Ok refused ∧ dr_Valid refused = false.
Proof.
  intros Hh Hp Ha Hs. destruct (verdict_cases params creds req Hh Hp) as (resp & E & Hacc & _). exists resp. split; [done|].
  destruct (dr_Valid resp); [|done]. destruct (Hacc eq_refl) as (a' & t & p & Ha' & Hs' & _).
  assert (a' = a) as -> by congruence. by rewrite Hs in Hs'.
Qed.
End query.

(** ** Over the histories of x/credentials *)
Section over_history.
Context {I : Type} `{DocumentReader I} `{AddressCodec} `{Hasher} `{Verifier} `{BBSVerifier}.
Context (authority : string).

(** C26: what a positive verdict establishes.  After any history of x/credentials, when a query
    is answered positively the named credential was anchored by a transaction its active
    issuer signed and has not been revoked, its template carries a well-formed policy under
    the hash the answer reports, the credential was issued under a version the template has
    reached, and the claims the answer lists are distinct claims that policy declares
    disclosable. *)
Theorem disclosures_are_backed params tr req resp :
  short tr → VerifyDisclosure params (after authority tr) req = Ok resp → dr_Valid resp = true →
  ∃ a t, GetAnchor (after authority tr) (dq_CredentialHash req) = Some a ∧ anchor_backed tr a ∧
    an_Status a = CREDENTIAL_STATUS_ACTIVE ∧
    GetTemplate (after authority tr) (an_TemplateId a) = Some t ∧ template_ok (an_TemplateId a) t ∧
    1 ≤ an_TemplateVersion a ≤ t_Version t ∧ dr_IssuerDid resp = an_IssuerDid a ∧ dr_PolicyHash resp = PolicyHash t ∧
    NoDup (dr_RevealedIndices resp) ∧
    Forall (λ i, i ∈ t_DisclosableIndices t ∧ 0 ≤ i < t_MessageCount t) (dr_RevealedIndices resp).
Proof.
  intros Hs E Hv. destruct (query_well_posed _ _ _ _ E) as [Hh Hp].
  destruct (verdict_cases params (after authority tr) req Hh Hp) as (resp' & E' & Hacc & _).
  assert (resp' = resp) as -> by congruence. destruct (Hacc Hv) as (a & t & p & Hok).
  pose proof (accepted_run _ _ _ _ _ _ Hh Hp Hok) as Er. rewrite E in Er. injection Er as ->.
  destruct Hok as (Ha & Hst & Ht & _ & _ & _ & [_ _ Hcl Hnd] & _ & Hc & Hd & _).
  destruct (anchors_after authority tr _ _ Ha) as (_ & _ & Hb).
  destruct (proj2 (versions_after authority tr Hs) _ _ Ha) as (t' & Ht' & Hver). assert (t' = t) as -> by (cbn in Ht; congruence).
  pose proof (templates_after authority tr _ _ Ht') as Hto. destruct Hto as (Hid & Hpo & Hph & Hrest).
  exists a, t. cbn [dr_IssuerDid dr_PolicyHash dr_RevealedIndices summary RevealedIndices].
  split_and!; try done; try lia; rewrite sortAscending_perm; [done|]. apply Forall_forall. intros i Hi. split; [by apply Hd|].
  apply list_elem_of_fmap in Hi as (c & -> & Hin). rewrite Forall_forall in Hcl. destruct (Hcl c Hin) as [Hlt _]. by rewrite <- Hc.
Qed.

(** a valid message by which an account anchors a credential about itself, under a template
    anybody owns, signed with the account's own key *)
Record self_anchors (ids : I) (st : CredStore) (m : MsgAnchorCredential) : Prop := {
  sa_valid : CredMsg_ValidateBasic (MAnchorCredential m) = Ok tt;
  sa_self : ∃ doc, CredServer.GetIdentity ids (ac_IssuerDid m) = Some doc ∧ Status doc = DID_STATUS_ACTIVE ∧
    Controller doc = ac_Issuer m ∧ verifyP256 (PubKey doc) (ac_CredentialHash m) (ac_IssuerSig m) = true;
  sa_subject : ac_SubjectDid m = ac_IssuerDid m;
  sa_template : ∃ t, GetTemplate st (ac_TemplateId m) = Some t ∧ t_Status t = TEMPLATE_STATUS_ACTIVE ∧ t_Version t = ac_TemplateVersion m;
  sa_fresh : GetAnchor st (ac_CredentialHash m) = None;
}.
Lemma self_anchors_run ctx ids m (s : CredState) : self_anchors ids (cr_store s) m →
  ∃ s', handle authority ctx ids (MAnchorCredential m) s = (Ok tt, s') ∧
    cr_store s' = SetAnchor (mkAnchor (ac_CredentialHash m) (ac_TemplateId m) (ac_TemplateVersion m) (ac_IssuerDid m)
      (ac_SubjectDid m) (BlockTime ctx) CREDENTIAL_STATUS_ACTIVE) (cr_store s).
Proof.
  intros [Hv (doc & Hd & Hs & Hc & Hsig) Hsub (t & Ht & Hts & Htv) Hf]. unfold handle. rewrite Hv. eexists.
  unfold run_handler, AnchorCredential, authDID, requireActiveDID, HasAnchor, write, on_store, zoom, look, reads, EmitEvent, or_fail, fail_if, err_if,
    lift, modify, mbind, M_bind, mret, M_ret.
  rewrite Hsub, Hd, Hs, Hc, Z.eqb_refl. unfold GetAnchor in Hf. rewrite Hf. rewrite bool_decide_eq_false_2 by (by intros []).
  rewrite bool_decide_eq_true_2 by done. cbn [negb]. rewrite Ht, Hts, Htv, !Z.eqb_refl, Hsig. cbn [negb]. split; [reflexivity|done].
Qed.
Lemma revoke_run ctx ids m (s s' : CredState) : handle authority ctx ids (MRevokeCredential m) s = (Ok tt, s') →
  ∃ a, GetAnchor (cr_store s) (rc_CredentialHash m) = Some a ∧
    cr_store s' = SetAnchor (mkAnchor (an_CredentialHash a) (an_TemplateId a) (an_TemplateVersion a) (an_IssuerDid a)
      (an_SubjectDid a) (an_IssuedAt a) CREDENTIAL_STATUS_REVOKED) (cr_store s).
Proof.
  unfold handle, run_handler, RevokeCredential, write, on_store, look, EmitEvent. intros Hr. go_inv. by eexists.
Qed.

(** C40: revoking a credential does not stop its proofs.  The query names the credential the
    proof is said to be derived from, but nothing ties the two.  After any history, let a
    proof be accepted for a credential and let the credential's issuer then revoke it: the
    query that names the credential is refused, and the very same proof, with the same
    nonce and policy hash, still gets the same positive answer for every other active
    credential of the template.  If there is none, any account with an ACTIVE identity
    makes one: it anchors a fresh credential about itself under the template, which succeeds
    while the template is not deprecated, and the answer then reports that account as the
    issuer, although the proof was checked against the template's key. *)
Theorem revoked_credential_still_discloses params tr req resp e rev :
  VerifyDisclosure params (after authority tr) req = Ok resp → dr_Valid resp = true →
  tx_msg e = MRevokeCredential rev → rc_CredentialHash rev = dq_CredentialHash req →
  (handle authority (tx_ctx e) (tx_ids e) (tx_msg e) (cred_run authority tr cred_genesis)).1 = Ok tt →
  (∃ refused, VerifyDisclosure params (after authority (tr ++ [e])) req = Ok refused ∧ dr_Valid refused = false) ∧
  (∀ h a, GetAnchor (after authority (tr ++ [e])) h = Some a → an_Status a = CREDENTIAL_STATUS_ACTIVE →
     an_TemplateId a = dr_TemplateId resp → h ≠ "" →
     VerifyDisclosure params (after authority (tr ++ [e])) (naming h req) = Ok (credited_to (an_IssuerDid a) resp)) ∧
  (∀ e' m, tx_msg e' = MAnchorCredential m → ac_TemplateId m = dr_TemplateId resp →
     self_anchors (tx_ids e') (after authority (tr ++ [e])) m →
     VerifyDisclosure params (after authority (tr ++ [e; e'])) (naming (ac_CredentialHash m) req) = Ok (credited_to (ac_IssuerDid m) resp)).
Proof.
  intros E Hv Em Eh Hr. destruct (query_well_posed _ _ _ _ E) as [Hh Hp].
  destruct (handle authority (tx_ctx e) (tx_ids e) (tx_msg e) (cred_run authority tr cred_genesis)) as [o s1] eqn:Hrun.
  cbn [fst] in Hr. subst o. assert (cred_run authority (tr ++ [e]) cred_genesis = s1) as E1.
  { rewrite cred_run_snoc. unfold apply_tx, deliver. by rewrite Hrun. }
  rewrite Em in Hrun. apply revoke_run in Hrun as (a0 & Ha0 & Est). rewrite Eh in Ha0.
  destruct (anchors_after authority tr _ _ Ha0) as (Ekey & _ & _).
  assert (∀ id, read_template (after authority (tr ++ [e])) id = read_template (after authority tr) id) as Ht.
  { intros id. unfold after. rewrite E1, Est. done. }
  split_and!.
  - eapply (revoked_refused _ _ _ (mkAnchor _ _ _ _ _ _ _)); [done|done| |reflexivity]. unfold after. rewrite E1, Est. cbn [read_anchor store_reader].
    unfold GetAnchor, SetAnchor. cbn [c_anchors an_CredentialHash]. rewrite Ekey. apply lookup_insert_eq.
  - intros h a Ha Hs Ei Hne. eapply verdict_ignores_credential; [exact E|done|apply Ht|done..].
  - intros e' m Em' Ei Hsa. pose proof Hsa as Hsa'. unfold after in Hsa. rewrite E1 in Hsa.
    destruct (self_anchors_run (tx_ctx e') _ _ _ Hsa) as (s2 & Hrun2 & Est2).
    assert (cr_store s2 = after authority (tr ++ [e; e'])) as E2.
    { unfold after. replace (tr ++ [e; e']) with ((tr ++ [e]) ++ [e']) by by rewrite <- app_assoc.
      rewrite cred_run_snoc, E1. unfold apply_tx, deliver. by rewrite Em', Hrun2. }
    rewrite <- E2, Est2. eapply (verdict_ignores_credential _ _ _ _ _ _ (mkAnchor _ _ _ _ _ _ _)); [exact E|done| | | |reflexivity|exact Ei].
    + rewrite <- Ht. unfold after. by rewrite E1.
    + destruct Hsa as [Hval _ _ _ _]. cbn [CredMsg_ValidateBasic] in Hval. unfold AnchorCredential_ValidateBasic, nonempty in Hval.
      go_inv. by apply empty_text.
    + cbn [read_anchor store_reader]. unfold GetAnchor, SetAnchor. cbn [c_anchors an_CredentialHash]. apply lookup_insert_eq.
Qed.
End over_history.
