(* ===== verification/DiscDemo.v ===== *)
(** * x/disclosure: concrete queries

    Queries over short histories of x/credentials witness the theorems, the last of them that
    a revoked credential still discloses under another anchor. *)
From stdpp Require Import base gmap strings list.
From Stdlib Require Import ZArith Lia.
From S2P Require Import Prelude GoInt KVStore Interfaces PhiDid IdTypes IdKeeper CredTypes CredServer CredRules CredHistory CredDemo DiscProof DiscServer.

(** the body of a proof is the issuer key and the nonce it was made for *)
Definition body_bbs : BBSVerifier :=
  {| VerifyBBSProof proof key nonce :=
       bool_decide (String.substring 8 (String.length (key +:+ nonce)) proof = key +:+ nonce) |}.
Definition shown : SelectiveProof := mkSelective 3 "bbs-keyn1" [(2, "over 18")].
(** bob is the subject of a credential alice issued; they anchor a second one themselves *)
Definition bob_anchor : CredMsg :=
  MAnchorCredential (mkMsgAnchor "bob" "did:phi:b" "did:phi:b" "phi.kyc.v1" 1 "other" "kbother").
Definition two_anchors : list (Tx (I:=IdStore)) := [tx 10 demo_template; tx 11 demo_anchor; tx 12 bob_anchor].
Abbreviation ask creds h := (@VerifyDisclosure CredStore store_reader body_bbs None creds (mkDiscRequest h (Marshal shown) "n1" "")).

Lemma verdict_witness :
  ∃ resp, ask (demo_after two_anchors) "hash" = Ok resp ∧
    (dr_Valid resp = true ↔ ∃ a t p, @acceptable CredStore store_reader body_bbs None (demo_after two_anchors)
       (mkDiscRequest "hash" (Marshal shown) "n1" "") a t p).
Proof.
  destruct (@disclosure_verdict CredStore store_reader body_bbs None (demo_after two_anchors)
    (mkDiscRequest "hash" (Marshal shown) "n1" "")) as (resp & E & Hv & _); [done|done|]. by exists resp.
Defined.
Lemma backed_witness :
  ∃ a, @anchor_backed IdStore registry_documents cat_verifier two_anchors a ∧ an_IssuerDid a = "did:phi:a".
Proof.
  destruct (@disclosures_are_backed IdStore registry_documents plain_codec id_hasher cat_verifier body_bbs "gov" None two_anchors
    (mkDiscRequest "hash" (Marshal shown) "n1" "")
    (mkDiscResponse true "" "did:phi:a" "phi.kyc.v1" DISCLOSURE_LEVEL_PARTIAL [2]
       (@DisclosurePolicyHash id_hasher "phi.kyc.v1" 1 3 [0; 2])))
    as (a & t & _ & Hb & _ & _ & _ & _ & Hi & _); [unfold short; cbn; lia|vm_compute; reflexivity|done|].
  exists a. by split.
Defined.
Definition no_claims : list (Tx (I:=IdStore)) :=
  [tx 10 (MRegisterTemplate (mkMsgRegisterTemplate "alice" "phi.kyc.v1" "did:phi:a" "schema" "KYC" "bbs-key" 0 []));
   tx 11 demo_anchor].
Lemma no_policy_witness : ∃ resp, ask (demo_after no_claims) "hash" = Ok resp ∧ dr_Valid resp = false.
Proof.
  eexists. split; [vm_compute; reflexivity|].
  eapply (@no_policy_no_proof CredStore store_reader body_bbs None (demo_after no_claims)
    (mkDiscRequest "hash" (Marshal shown) "n1" "")); vm_compute; reflexivity.
Defined.

(** alice revokes the credential bob shows; the proof is accepted for the one bob anchored
    before, and for another bob anchors now, with bob reported as the issuer *)
Definition revocation : Tx (I:=IdStore) := tx 20 (MRevokeCredential (mkMsgRevokeCred "alice" "hash")).
Definition third_anchor : MsgAnchorCredential := mkMsgAnchor "bob" "did:phi:b" "did:phi:b" "phi.kyc.v1" 1 "third" "kbthird".
Definition by_bob : DiscResponse :=
  mkDiscResponse true "" "did:phi:b" "phi.kyc.v1" DISCLOSURE_LEVEL_PARTIAL [2] (@DisclosurePolicyHash id_hasher "phi.kyc.v1" 1 3 [0; 2]).
Lemma third_anchors : @self_anchors IdStore registry_documents plain_codec cat_verifier cred_ids (demo_after (two_anchors ++ [revocation])) third_anchor.
Proof.
  split; [reflexivity|exists (cred_doc "did:phi:b" "bob" "kb"); split_and!; reflexivity|reflexivity| |vm_compute; reflexivity].
  eexists. split_and!; [vm_compute; reflexivity|reflexivity|reflexivity].
Qed.
Lemma revocation_witness :
  (∃ refused, ask (demo_after (two_anchors ++ [revocation])) "hash" = Ok refused ∧ dr_Valid refused = false) ∧
  ask (demo_after (two_anchors ++ [revocation])) "other" = Ok by_bob ∧
  ask (demo_after (two_anchors ++ [revocation; tx 21 (MAnchorCredential third_anchor)])) "third" = Ok by_bob.
Proof.
  destruct (@revoked_credential_still_discloses IdStore registry_documents plain_codec id_hasher cat_verifier body_bbs "gov" None two_anchors
    (mkDiscRequest "hash" (Marshal shown) "n1" "")
    (mkDiscResponse true "" "did:phi:a" "phi.kyc.v1" DISCLOSURE_LEVEL_PARTIAL [2] (@DisclosurePolicyHash id_hasher "phi.kyc.v1" 1 3 [0; 2]))
    revocation (mkMsgRevokeCred "alice" "hash")) as (Hno & Hother & Hthird);
    [vm_compute; reflexivity|reflexivity|reflexivity|reflexivity|vm_compute; reflexivity|].
  split_and!; [exact Hno| |].
  - refine (Hother "other" (mkAnchor "other" "phi.kyc.v1" 1 "did:phi:b" "did:phi:b" 12 CREDENTIAL_STATUS_ACTIVE) _ eq_refl eq_refl _);
      [vm_compute; reflexivity|discriminate].
  - exact (Hthird (tx 21 (MAnchorCredential third_anchor)) third_anchor eq_refl eq_refl third_anchors).
Defined.
