(* ===== verification/VotServer.v ===== *)
(** * x/voting: types, keeper and message server

    [x/voting/types] and [x/voting/keeper]: credential-gated anonymous polls.  An election
    names a credential template; a ballot carries a proof that its nullifier belongs to a
    credential of that template, and the nullifier is the only trace of the voter.  The
    proof system is the phi-crypto port's ([VerifyDerivationVote]); two build tags decide
    whether ballots are counted at all and what a nullifier looks like. *)
From stdpp Require Import base gmap strings list.
From Stdlib Require Import ZArith Lia Ascii.
From S2P Require Import Prelude GoInt KVStore Interfaces PhiDid CredTypes CredServer.

(** ** Records *)
Definition ELECTION_STATUS_OPEN : Z := 1.
Definition ELECTION_STATUS_CLOSED : Z := 2.
Definition ELECTION_STATUS_CANCELLED : Z := 3.

Record Election := mkElection {
  el_Id : string; el_Creator : string; el_Title : string; el_Options : list string;
  el_RequiredTemplateId : string; el_RequiredIssuerDid : string; el_VotingStart : Z; el_VotingEnd : Z;
  el_Status : Z; el_OptionTallies : list Z; el_TotalVotes : Z; el_CreatedAt : Z }.
(** the option index, a [uint32], is never negative *)
Record Ballot := mkBallot { bl_ElectionId : string; bl_Nullifier : string; bl_OptionIndex : N; bl_CastAt : Z }.
Record VotParams := mkVotParams {
  MaxOptions : Z; MinVotingPeriodSeconds : Z; VotMaxProofSizeBytes : Z; MaxVotingPeriodSeconds : Z }.

#[export] Instance Election_eq_dec : EqDecision Election.
Proof. solve_decision. Defined.
#[export] Instance Ballot_eq_dec : EqDecision Ballot.
Proof. solve_decision. Defined.

Definition DefaultVotParams : VotParams := mkVotParams 32 (60 * 60) 16384 (30 * 24 * 60 * 60).
Definition VotMaxProofSizeBytesCeiling : Z := 2 ^ 20.
Definition VotParams_Validate (p : VotParams) : outcome unit :=
  err_if (MaxOptions p <? 2) (Plain "max_options must be >= 2");;
  err_if (MinVotingPeriodSeconds p <? 0) (Plain "min_voting_period_seconds must be >= 0");;
  err_if (MaxVotingPeriodSeconds p <? 0) (Plain "max_voting_period_seconds must be >= 0");;
  err_if ((0 <? MaxVotingPeriodSeconds p) && (MaxVotingPeriodSeconds p <? MinVotingPeriodSeconds p))
    (Plain "max_voting_period_seconds must be >= min_voting_period_seconds when set");;
  err_if (VotMaxProofSizeBytes p =? 0) (Plain "max_proof_size_bytes must be > 0");;
  err_if (VotMaxProofSizeBytesCeiling <? VotMaxProofSizeBytes p) (Plain "max_proof_size_bytes must be <= the ceiling").

(** ** Errors *)
Definition vot_err (n : Z) : error := Registered "voting" n.
Definition ErrElectionExists := vot_err 2.
Definition ErrElectionNotFound := vot_err 3.
Definition ErrElectionNotOpen := vot_err 4.
Definition ErrVotingNotStarted := vot_err 5.
Definition ErrVotingEnded := vot_err 6.
Definition ErrInvalidOption := vot_err 7.
Definition ErrNullifierUsed := vot_err 8.
Definition ErrEligibilityFailed := vot_err 9.
Definition ErrTemplateMissingKey := vot_err 10.
Definition ErrVotUnauthorized := vot_err 11.
Definition ErrElectionHasVotes := vot_err 12.
Definition ErrProofTooLarge := vot_err 13.
Definition ErrVotInvalidRequest := vot_err 15.
Definition ErrVotingNotSound := vot_err 16.
Definition ErrInvalidNullifier := vot_err 17.

(** ** Messages *)
Definition MaxElectionIDLen : Z := 255.
Definition MaxTitleLen : Z := 256.
Definition MaxOptionLen : Z := 128.
Definition MaxNullifierLen : Z := 64.
Definition NullifierPointLen : Z := 48.

Record MsgCreateElection := mkMsgCreateElection {
  ce_Creator : string; ce_Id : string; ce_Title : string; ce_Options : list string;
  ce_RequiredTemplateId : string; ce_RequiredIssuerDid : string; ce_VotingStart : Z; ce_VotingEnd : Z }.
Record MsgCastVote := mkMsgCastVote {
  cv_Voter : string; cv_ElectionId : string; cv_OptionIndex : N; cv_Nullifier : string; cv_EligibilityProof : string }.
Record MsgCloseElection := mkMsgCloseElection { cl_Creator : string; cl_ElectionId : string }.
Record MsgCancelElection := mkMsgCancelElection { cn_Creator : string; cn_ElectionId : string }.
Record MsgUpdateVotParams := mkMsgUpdateVotParams { vu_Authority : string; vu_Params : VotParams }.
Inductive VotMsg :=
| MCreateElection (m : MsgCreateElection)
| MCastVote (m : MsgCastVote)
| MCloseElection (m : MsgCloseElection)
| MCancelElection (m : MsgCancelElection)
| MUpdateVotParams (m : MsgUpdateVotParams).

Section validate.
Context `{AddressCodec}.
Definition require (c : bool) : outcome unit := err_if (negb c) ErrVotInvalidRequest.
Definition CreateElection_ValidateBasic (m : MsgCreateElection) : outcome unit :=
  check_address (ce_Creator m);;
  require (negb (strlen (ce_Id m) =? 0));; require (strlen (ce_Id m) <=? MaxElectionIDLen);;
  require (negb (strlen (ce_Title m) =? 0));; require (strlen (ce_Title m) <=? MaxTitleLen);;
  require (2 <=? Z.of_nat (length (ce_Options m)));;
  ofold (λ _ o, require (negb (strlen o =? 0));; require (strlen o <=? MaxOptionLen)) (ce_Options m) tt;;
  require (negb (strlen (ce_RequiredTemplateId m) =? 0));;
  require (ce_VotingStart m <? ce_VotingEnd m).
Definition CastVote_ValidateBasic (m : MsgCastVote) : outcome unit :=
  check_address (cv_Voter m);; require (negb (strlen (cv_ElectionId m) =? 0));;
  require (negb (strlen (cv_Nullifier m) =? 0));; require (strlen (cv_Nullifier m) <=? MaxNullifierLen);;
  require (negb (strlen (cv_EligibilityProof m) =? 0)).
Definition CloseElection_ValidateBasic (m : MsgCloseElection) : outcome unit :=
  check_address (cl_Creator m);; require (negb (strlen (cl_ElectionId m) =? 0)).
Definition CancelElection_ValidateBasic (m : MsgCancelElection) : outcome unit :=
  check_address (cn_Creator m);; require (negb (strlen (cn_ElectionId m) =? 0)).
Definition UpdateVotParams_ValidateBasic (m : MsgUpdateVotParams) : outcome unit :=
  check_address (vu_Authority m);; VotParams_Validate (vu_Params m).
Definition VotMsg_ValidateBasic (m : VotMsg) : outcome unit :=
  match m with
  | MCreateElection m => CreateElection_ValidateBasic m
  | MCastVote m => CastVote_ValidateBasic m
  | MCloseElection m => CloseElection_ValidateBasic m
  | MCancelElection m => CancelElection_ValidateBasic m
  | MUpdateVotParams m => UpdateVotParams_ValidateBasic m
  end.
End validate.

(** ** The store *)
Record VotStore := mkVotStore {
  v_params : option VotParams;        (** ParamsKey 0x00 *)
  v_elections : KVStore Election;     (** ElectionPrefix 0x10: id *)
  v_ballots : KVStore Ballot;         (** BallotPrefix 0x20: length, election id, nullifier *)
}.
Record VotState := mkVotState { vt_store : VotStore; vt_events : list Event }.

Definition ballotElectionPrefix (electionID : string) : string := lenPrefixedID electionID.
Definition BallotKey (electionID nullifier : string) : string := ballotElectionPrefix electionID +:+ nullifier.
Definition Vot_GetParams (st : VotStore) : VotParams := default DefaultVotParams (v_params st).
Definition SetElection (e : Election) (st : VotStore) : VotStore :=
  mkVotStore (v_params st) (<[el_Id e := e]> (v_elections st)) (v_ballots st).
Definition GetElection (st : VotStore) (id : string) : option Election := v_elections st !! id.
Definition HasElection (st : VotStore) (id : string) : bool := bool_decide (is_Some (v_elections st !! id)).
Definition IterateElections (st : VotStore) : list Election := values (v_elections st).
Definition SetBallot (b : Ballot) (st : VotStore) : VotStore :=
  mkVotStore (v_params st) (v_elections st) (<[BallotKey (bl_ElectionId b) (bl_Nullifier b) := b]> (v_ballots st)).
Definition HasBallot (st : VotStore) (electionID nullifier : string) : bool :=
  bool_decide (is_Some (v_ballots st !! BallotKey electionID nullifier)).
Definition IterateBallots (st : VotStore) : list Ballot := values (v_ballots st).
Definition Vot_SetParams (p : VotParams) : M VotStore unit :=
  lift (VotParams_Validate p);; modify (λ st, mkVotStore (Some p) (v_elections st) (v_ballots st)).

Definition vot_on {A} : M VotStore A → M VotState A := zoom vt_store (λ st s, mkVotState st (vt_events s)).
Definition vot_write (f : VotStore → VotStore) : M VotState unit := vot_on (modify f).
Definition vot_look {A} (f : VotStore → A) : M VotState A := reads (λ s, f (vt_store s)).
Definition vot_emit (ty : string) (attrs : list (string * string)) : M VotState unit :=
  modify (λ s, mkVotState (vt_store s) (vt_events s ++ [mkEvent ty attrs])).

(** ** x/credentials as x/voting reads it, and the phi-crypto port *)
Class TemplateReader (C : Type) := { template_of : C → string → option CredentialTemplate }.
#[export] Instance store_templates : TemplateReader CredStore := { template_of := GetTemplate }.
(** proof, issuer key, chain id, election id, nullifier, signal *)
Class VoteVerifier := { VerifyDerivationVote : string → string → string → string → string → string → bool }.

(** the two builds: [soundness.go] and [nullifier_shape.go], or their [_snark] versions *)
Inductive Build := default_build | voting_snark.
Definition VotingSoundnessEnforced (b : Build) : bool :=
  match b with default_build => false | voting_snark => true end.
Definition checkNullifierShape (b : Build) (nullifier : string) : outcome unit :=
  match b with
  | default_build => Ok tt
  | voting_snark => err_if (negb (strlen nullifier =? NullifierPointLen)) ErrInvalidNullifier
  end.
Definition voteSignal (optionIndex : N) : string := be32 (Z.of_N optionIndex).

(** the keeper: [soundnessEnforced] is injected, the shape check is the build's *)
Record VotKeeper := mkVotKeeper { authority : string; soundnessEnforced : bool; build : Build }.

Section server.
Context {C : Type} `{TemplateReader C} `{AddressCodec} `{VoteVerifier}.
Context (k : VotKeeper).

Definition CreateElection (ctx : Context) (creds : C) (msg : MsgCreateElection) : M VotState unit :=
  has ← vot_look (λ st, HasElection st (ce_Id msg));
  fail_if has ErrElectionExists;;
  params ← vot_look Vot_GetParams;
  fail_if (MaxOptions params <? u32 (Z.of_nat (length (ce_Options msg)))) ErrVotInvalidRequest;;
  let now := BlockTime ctx in
  let start := if ce_VotingStart msg =? 0 then now else ce_VotingStart msg in
  fail_if (ce_VotingEnd msg <=? start) ErrVotInvalidRequest;;
  let window := i64 (ce_VotingEnd msg - start) in
  fail_if (window <? MinVotingPeriodSeconds params) ErrVotInvalidRequest;;
  fail_if ((0 <? MaxVotingPeriodSeconds params) && (MaxVotingPeriodSeconds params <? window)) ErrVotInvalidRequest;;
  tmpl ← or_fail (template_of creds (ce_RequiredTemplateId msg)) ErrVotInvalidRequest;
  fail_if (strlen (t_IssuerBbsPubkey tmpl) =? 0) ErrTemplateMissingKey;;
  fail_if (negb (bool_decide (ce_RequiredIssuerDid msg = "")) &&
           negb (bool_decide (ce_RequiredIssuerDid msg = t_OwnerDid tmpl))) ErrVotInvalidRequest;;
  vot_write (SetElection (mkElection (ce_Id msg) (ce_Creator msg) (ce_Title msg) (ce_Options msg)
    (ce_RequiredTemplateId msg) (t_OwnerDid tmpl) start (ce_VotingEnd msg) ELECTION_STATUS_OPEN
    (replicate (length (ce_Options msg)) 0) 0 now));;
  vot_emit "create_election" [("election_id", ce_Id msg); ("creator", ce_Creator msg)].

Definition maxUint64 : Z := 2 ^ 64 - 1.
Definition CastVote (ctx : Context) (creds : C) (msg : MsgCastVote) : M VotState unit :=
  fail_if (negb (soundnessEnforced k)) ErrVotingNotSound;;
  found ← vot_look (λ st, GetElection st (cv_ElectionId msg));
  e ← or_fail found ErrElectionNotFound;
  fail_if (negb (el_Status e =? ELECTION_STATUS_OPEN)) ErrElectionNotOpen;;
  let now := BlockTime ctx in
  fail_if (now <? el_VotingStart e) ErrVotingNotStarted;;
  fail_if (el_VotingEnd e <? now) ErrVotingEnded;;
  let i := Z.of_N (cv_OptionIndex msg) in
  fail_if ((Z.of_nat (length (el_Options e)) <=? i) || (Z.of_nat (length (el_OptionTallies e)) <=? i)) ErrInvalidOption;;
  params ← vot_look Vot_GetParams;
  fail_if (VotMaxProofSizeBytes params <? u32 (strlen (cv_EligibilityProof msg))) ErrProofTooLarge;;
  tmpl ← or_fail (template_of creds (el_RequiredTemplateId e)) ErrTemplateMissingKey;
  fail_if (strlen (t_IssuerBbsPubkey tmpl) =? 0) ErrTemplateMissingKey;;
  lift (checkNullifierShape (build k) (cv_Nullifier msg));;
  used ← vot_look (λ st, HasBallot st (cv_ElectionId msg) (cv_Nullifier msg));
  fail_if used ErrNullifierUsed;;
  fail_if (negb (VerifyDerivationVote (cv_EligibilityProof msg) (t_IssuerBbsPubkey tmpl) (ChainID ctx)
                   (cv_ElectionId msg) (cv_Nullifier msg) (voteSignal (cv_OptionIndex msg)))) ErrEligibilityFailed;;
  match el_OptionTallies e !! N.to_nat (cv_OptionIndex msg) with
  | None => lift (Panic "index out of range")
  | Some tally =>
      fail_if ((el_TotalVotes e =? maxUint64) || (tally =? maxUint64)) ErrVotInvalidRequest;;
      vot_write (SetBallot (mkBallot (cv_ElectionId msg) (cv_Nullifier msg) (cv_OptionIndex msg) now));;
      let e' := mkElection (el_Id e) (el_Creator e) (el_Title e) (el_Options e) (el_RequiredTemplateId e)
        (el_RequiredIssuerDid e) (el_VotingStart e) (el_VotingEnd e) (el_Status e)
        (<[N.to_nat (cv_OptionIndex msg) := u64 (tally + 1)]> (el_OptionTallies e)) (u64 (el_TotalVotes e + 1))
        (el_CreatedAt e) in
      vot_write (SetElection e');;
      vot_emit "cast_vote" [("election_id", cv_ElectionId msg); ("option_index", Int_String i);
        ("nullifier", hex_encode (cv_Nullifier msg)); ("total_votes", Int_String (el_TotalVotes e'))]
  end.

Definition with_status (status : Z) (e : Election) : Election :=
  mkElection (el_Id e) (el_Creator e) (el_Title e) (el_Options e) (el_RequiredTemplateId e)
    (el_RequiredIssuerDid e) (el_VotingStart e) (el_VotingEnd e) status (el_OptionTallies e) (el_TotalVotes e)
    (el_CreatedAt e).
Definition CloseElection (msg : MsgCloseElection) : M VotState unit :=
  found ← vot_look (λ st, GetElection st (cl_ElectionId msg));
  e ← or_fail found ErrElectionNotFound;
  fail_if (negb (bool_decide (el_Creator e = cl_Creator msg))) ErrVotUnauthorized;;
  fail_if (negb (el_Status e =? ELECTION_STATUS_OPEN)) ErrElectionNotOpen;;
  vot_write (SetElection (with_status ELECTION_STATUS_CLOSED e));;
  vot_emit "close_election" [("election_id", cl_ElectionId msg)].
Definition CancelElection (msg : MsgCancelElection) : M VotState unit :=
  found ← vot_look (λ st, GetElection st (cn_ElectionId msg));
  e ← or_fail found ErrElectionNotFound;
  fail_if (negb (bool_decide (el_Creator e = cn_Creator msg))) ErrVotUnauthorized;;
  fail_if (negb (el_Status e =? ELECTION_STATUS_OPEN)) ErrElectionNotOpen;;
  fail_if (0 <? el_TotalVotes e) ErrElectionHasVotes;;
  vot_write (SetElection (with_status ELECTION_STATUS_CANCELLED e));;
  vot_emit "cancel_election" [("election_id", cn_ElectionId msg)].
Definition Vot_UpdateParams (msg : MsgUpdateVotParams) : M VotState unit :=
  fail_if (negb (bool_decide (vu_Authority msg = authority k))) ErrInvalidSigner;;
  vot_on (Vot_SetParams (vu_Params msg)).

Definition vot_handler (ctx : Context) (creds : C) (m : VotMsg) : M VotState unit :=
  match m with
  | MCreateElection m => CreateElection ctx creds m
  | MCastVote m => CastVote ctx creds m
  | MCloseElection m => CloseElection m
  | MCancelElection m => CancelElection m
  | MUpdateVotParams m => Vot_UpdateParams m
  end.
(** BaseApp validates the message before its handler runs *)
Definition vot_handle (ctx : Context) (creds : C) (m : VotMsg) : M VotState unit :=
  lift (VotMsg_ValidateBasic m);; vot_handler ctx creds m.
End server.
