(* ===== verification/VotRules.v ===== *)
(** * x/voting: the rules the handlers implement

    [vote_rule] states declaratively when a voting transaction executes and what it does
    to the store; the handlers implement exactly these rules. *)
From stdpp Require Import base gmap strings list.
From Stdlib Require Import ZArith Lia.
From S2P Require Import Prelude GoInt KVStore Interfaces PhiDid CredTypes CredServer VotServer.

Section rules.
Context {C : Type} `{TemplateReader C} `{AddressCodec} `{VoteVerifier}.
Context (k : VotKeeper).

(** the time voting starts; zero stands for the time of the block *)
Definition effective_start (ctx : Context) (m : MsgCreateElection) : Z :=
  if ce_VotingStart m =? 0 then BlockTime ctx else ce_VotingStart m.
Definition window_ok (p : VotParams) (start end_ : Z) : Prop :=
  start < end_ ∧ MinVotingPeriodSeconds p ≤ i64 (end_ - start) ∧
  (0 < MaxVotingPeriodSeconds p → i64 (end_ - start) ≤ MaxVotingPeriodSeconds p).
(** the template, with an issuer key, that decides who may vote *)
Definition electoral_roll (creds : C) (id : string) (t : CredentialTemplate) : Prop :=
  template_of creds id = Some t ∧ 0 < strlen (t_IssuerBbsPubkey t).
(** a proof that the nullifier is the one a credential of the template's issuer gives in
    this election on this chain, bound to the choice *)
Definition proves_vote (ctx : Context) (creds : C) (tid eid nullifier : string) (option_ : N) (proof : string) : Prop :=
  ∃ t, electoral_roll creds tid t ∧
    VerifyDerivationVote proof (t_IssuerBbsPubkey t) (ChainID ctx) eid nullifier (voteSignal option_) = true.
Definition counted (i : N) (tally : Z) (e : Election) : Election :=
  mkElection (el_Id e) (el_Creator e) (el_Title e) (el_Options e) (el_RequiredTemplateId e)
    (el_RequiredIssuerDid e) (el_VotingStart e) (el_VotingEnd e) (el_Status e)
    (<[N.to_nat i := tally + 1]> (el_OptionTallies e)) (el_TotalVotes e + 1) (el_CreatedAt e).
(** counters are [uint64] *)
Definition counters_ok (e : Election) : Prop :=
  0 ≤ el_TotalVotes e ≤ maxUint64 ∧ Forall (λ t, 0 ≤ t ≤ maxUint64) (el_OptionTallies e).

Inductive vote_rule (ctx : Context) (creds : C) : VotMsg → VotStore → VotStore → Prop :=
| rule_create_election m st t :
    GetElection st (ce_Id m) = None →
    u32 (Z.of_nat (length (ce_Options m))) ≤ MaxOptions (Vot_GetParams st) →
    window_ok (Vot_GetParams st) (effective_start ctx m) (ce_VotingEnd m) →
    electoral_roll creds (ce_RequiredTemplateId m) t →
    ce_RequiredIssuerDid m = "" ∨ ce_RequiredIssuerDid m = t_OwnerDid t →
    vote_rule ctx creds (MCreateElection m) st
      (SetElection (mkElection (ce_Id m) (ce_Creator m) (ce_Title m) (ce_Options m) (ce_RequiredTemplateId m)
        (t_OwnerDid t) (effective_start ctx m) (ce_VotingEnd m) ELECTION_STATUS_OPEN
        (replicate (length (ce_Options m)) 0) 0 (BlockTime ctx)) st)
| rule_cast m st e tally :
    soundnessEnforced k = true →
    GetElection st (cv_ElectionId m) = Some e → el_Status e = ELECTION_STATUS_OPEN →
    el_VotingStart e ≤ BlockTime ctx ≤ el_VotingEnd e →
    (N.to_nat (cv_OptionIndex m) < length (el_Options e))%nat →
    el_OptionTallies e !! N.to_nat (cv_OptionIndex m) = Some tally →
    u32 (strlen (cv_EligibilityProof m)) ≤ VotMaxProofSizeBytes (Vot_GetParams st) →
    (build k = voting_snark → strlen (cv_Nullifier m) = NullifierPointLen) →
    v_ballots st !! BallotKey (cv_ElectionId m) (cv_Nullifier m) = None →
    proves_vote ctx creds (el_RequiredTemplateId e) (cv_ElectionId m) (cv_Nullifier m) (cv_OptionIndex m)
      (cv_EligibilityProof m) →
    el_TotalVotes e < maxUint64 → tally < maxUint64 →
    vote_rule ctx creds (MCastVote m) st
      (SetElection (counted (cv_OptionIndex m) tally e)
        (SetBallot (mkBallot (cv_ElectionId m) (cv_Nullifier m) (cv_OptionIndex m) (BlockTime ctx)) st))
| rule_close m st e :
    GetElection st (cl_ElectionId m) = Some e → el_Creator e = cl_Creator m → el_Status e = ELECTION_STATUS_OPEN →
    vote_rule ctx creds (MCloseElection m) st (SetElection (with_status ELECTION_STATUS_CLOSED e) st)
| rule_cancel_election m st e :
    GetElection st (cn_ElectionId m) = Some e → el_Creator e = cn_Creator m → el_Status e = ELECTION_STATUS_OPEN →
    el_TotalVotes e = 0 →
    vote_rule ctx creds (MCancelElection m) st (SetElection (with_status ELECTION_STATUS_CANCELLED e) st)
| rule_vot_params m st :
    vu_Authority m = authority k → VotParams_Validate (vu_Params m) = Ok tt →
    vote_rule ctx creds (MUpdateVotParams m) st (mkVotStore (Some (vu_Params m)) (v_elections st) (v_ballots st)).

(** every election on the store has counters of that type *)
Definition typed_store (st : VotStore) : Prop := ∀ id e, GetElection st id = Some e → counters_ok e.

Lemma empty_length s : (strlen s =? 0) = false ↔ 0 < strlen s.
Proof. rewrite Z.eqb_neq. unfold strlen. lia. Qed.
Lemma shape_spec n : checkNullifierShape (build k) n = Ok tt ↔ (build k = voting_snark → strlen n = NullifierPointLen).
Proof.
  unfold checkNullifierShape. destruct (build k); [naive_solver|]. rewrite err_if_Ok, negb_false_iff, Z.eqb_eq. naive_solver.
Qed.
Lemma tally_bound e i t : counters_ok e → el_OptionTallies e !! i = Some t → 0 ≤ t ≤ maxUint64.
Proof. intros [_ Hf] Hl. by eapply Forall_lookup_1 in Hf. Qed.
Lemma counted_exact e i tally : counters_ok e → 0 ≤ tally < maxUint64 → el_TotalVotes e < maxUint64 →
  counted i tally e = mkElection (el_Id e) (el_Creator e) (el_Title e) (el_Options e) (el_RequiredTemplateId e)
    (el_RequiredIssuerDid e) (el_VotingStart e) (el_VotingEnd e) (el_Status e)
    (<[N.to_nat i := u64 (tally + 1)]> (el_OptionTallies e)) (u64 (el_TotalVotes e + 1)) (el_CreatedAt e).
Proof. intros [Ht _] ? ?. unfold counted, maxUint64 in *. by rewrite !u64_id by lia. Qed.

Lemma create_runs ctx creds m s s' :
  CreateElection ctx creds m s = (Ok tt, s') → vote_rule ctx creds (MCreateElection m) (vt_store s) (vt_store s').
Proof.
  unfold CreateElection, vot_write, vot_on, vot_look, vot_emit. intros E. go_inv. bool_prop. cbn [vt_store].
  fold (effective_start ctx m) in *.
  match goal with H : template_of _ _ = Some ?t |- _ => rename t into t0 end.
  apply rule_create_election; [by apply not_has|done| | |].
  - split_and!; [done|done|]. intros Hm. match goal with H : (0 <? _) && _ = false |- _ => apply andb_false_iff in H as [?|?] end;
      bool_prop; lia.
  - split; [done|]. unfold strlen in *. lia.
  - match goal with H : negb _ && _ = false |- _ => apply andb_false_iff in H as [?|?] end; bool_prop; auto.
Qed.
Lemma cast_runs ctx creds m s s' : typed_store (vt_store s) →
  CastVote k ctx creds m s = (Ok tt, s') → vote_rule ctx creds (MCastVote m) (vt_store s) (vt_store s').
Proof.
  intros Hty. unfold CastVote, vot_write, vot_on, vot_look, vot_emit. intros E. go_inv.
  match goal with H : match ?o with Some _ => _ | None => _ end _ = _ |- _ => destruct o as [tally|] eqn:Ht; [|discriminate] end.
  go_inv. bool_prop. match goal with H : GetElection _ _ = Some ?x |- _ => rename x into e; pose proof (Hty _ _ H) as Hc end.
  pose proof (tally_bound _ _ _ Hc Ht) as Hb. destruct (proj1 Hc). cbn [vt_store].
  match goal with H : checkNullifierShape _ _ = Ok ?u |- _ => destruct u; rename H into Hsh end.
  rewrite <- counted_exact by (done || unfold maxUint64 in *; lia).
  apply rule_cast; try done; try lia; [by apply shape_spec|by apply not_has|].
  eexists. split; [split; [done|]|done]. unfold strlen in *. lia.
Qed.
Lemma handler_vote_rule ctx creds m s s' : typed_store (vt_store s) →
  vot_handler k ctx creds m s = (Ok tt, s') → vote_rule ctx creds m (vt_store s) (vt_store s').
Proof.
  intros Hty. destruct m as [m|m|m|m|m]; cbn [vot_handler]; [apply create_runs|by apply cast_runs|..];
    unfold CloseElection, CancelElection, Vot_UpdateParams, Vot_SetParams, vot_write, vot_on, vot_look, vot_emit;
    intros E; go_inv; bool_prop; cbn [vt_store].
  - by apply rule_close.
  - apply rule_cancel_election; [done..|]. match goal with H : GetElection _ _ = Some _ |- _ => destruct (Hty _ _ H) as [? _] end. lia.
  - match goal with u : unit |- _ => destruct u end. by apply rule_vot_params.
Qed.

Ltac vote_prim :=
  cbv [vot_write vot_look vot_on vot_emit mbind M_bind mret M_ret reads lift fail_if fail or_fail zoom modify];
  cbn [vt_store vt_events].
Tactic Notation "holds" constr(e) "as" constr(b) "by" tactic3(t) :=
  let E := fresh in assert (e = b) as E by t; rewrite !E; clear E; cbn [vt_store vt_events negb].

Lemma create_rule_runs ctx creds m s st' :
  vote_rule ctx creds (MCreateElection m) (vt_store s) st' → ∃ s', CreateElection ctx creds m s = (Ok tt, s') ∧ vt_store s' = st'.
Proof.
  intros E. inversion E as [m' st t Hn Ho [Hw1 [Hw2 Hw3]] [Ht Hk] Hi| | | |]; subst. destruct s as [st evs]. cbn [vt_store] in *.
  unfold CreateElection. fold (effective_start ctx m). vote_prim.
  holds (HasElection st (ce_Id m)) as false by (by apply not_has). rewrite (proj2 (Z.ltb_ge _ _) Ho), (proj2 (Z.leb_gt _ _) Hw1).
  rewrite (proj2 (Z.ltb_ge _ _) Hw2).
  holds ((0 <? MaxVotingPeriodSeconds (Vot_GetParams st)) &&
    (MaxVotingPeriodSeconds (Vot_GetParams st) <? i64 (ce_VotingEnd m - effective_start ctx m))) as false
    by (apply andb_false_iff; rewrite !Z.ltb_ge; lia).
  rewrite Ht, (proj2 (empty_length _) Hk).
  holds (negb (bool_decide (ce_RequiredIssuerDid m = "")) && negb (bool_decide (ce_RequiredIssuerDid m = t_OwnerDid t))) as false
    by (apply andb_false_iff; rewrite !negb_false_iff, !bool_decide_eq_true; tauto). by eexists.
Qed.
Lemma cast_rule_runs ctx creds m s st' : typed_store (vt_store s) →
  vote_rule ctx creds (MCastVote m) (vt_store s) st' → ∃ s', CastVote k ctx creds m s = (Ok tt, s') ∧ vt_store s' = st'.
Proof.
  intros Hty E. inversion E as [|m' st e tally Hsd Hg Hs [Ht1 Ht2] Hi Htl Hp Hsh Hb (t & [Ht Hk] & Hv) Hm1 Hm2| | |]; subst.
  destruct s as [st evs]. cbn [vt_store] in *. pose proof (Hty _ _ Hg) as Hc. pose proof (tally_bound _ _ _ Hc Htl) as Hb'.
  pose proof (lookup_lt_Some _ _ _ Htl) as Hl. unfold CastVote. vote_prim. rewrite Hsd. cbn [negb vt_store]. rewrite Hg, Hs, Z.eqb_refl. cbn [negb].
  rewrite (proj2 (Z.ltb_ge _ _) Ht1), (proj2 (Z.ltb_ge _ _) Ht2).
  holds ((Z.of_nat (length (el_Options e)) <=? Z.of_N (cv_OptionIndex m)) ||
    (Z.of_nat (length (el_OptionTallies e)) <=? Z.of_N (cv_OptionIndex m))) as false
    by (apply orb_false_iff; rewrite !Z.leb_gt; lia).
  rewrite (proj2 (Z.ltb_ge _ _) Hp), Ht, (proj2 (empty_length _) Hk), (proj2 (shape_spec _) Hsh). cbn [vt_store].
  holds (HasBallot st (cv_ElectionId m) (cv_Nullifier m)) as false by (by apply not_has). rewrite Hv, Htl. cbn [negb].
  holds ((el_TotalVotes e =? maxUint64) || (tally =? maxUint64)) as false by (apply orb_false_iff; rewrite !Z.eqb_neq; lia).
  eexists. split; [done|]. cbn [vt_store]. rewrite counted_exact, Hs by (done || lia). done.
Qed.

(** C7: the voting handlers implement their rules, and nothing else.  On a store whose
    counters have their type, a message executes with a given resulting store exactly when
    it passes stateless validation and the rule of its type allows that transition.  A
    ballot is counted only in the sound build, in an open election, within its window, for
    one of its options, under a nullifier the election has not seen, and on a proof that
    verifies against the issuer key of the election's template for this chain, election,
    nullifier and choice; and then it is counted once, in the chosen option and the total. *)
Theorem voting_refines_rules ctx creds m s st' :
  typed_store (vt_store s) →
  (∃ s', vot_handle k ctx creds m s = (Ok tt, s') ∧ vt_store s' = st') ↔
  VotMsg_ValidateBasic m = Ok tt ∧ vote_rule ctx creds m (vt_store s) st'.
Proof.
  intros Hty. unfold vot_handle. split.
  - intros (s' & E & <-). go_inv. match goal with u : unit |- _ => destruct u end. split; [done|]. by apply handler_vote_rule.
  - intros [Hv Hr]. assert (∃ s', vot_handler k ctx creds m s = (Ok tt, s') ∧ vt_store s' = st') as (s' & E & <-).
    { destruct m as [m|m|m|m|m]; cbn [vot_handler]; [by apply create_rule_runs|by apply cast_rule_runs|..];
        destruct s as [st evs]; inversion Hr; subst; cbn [vt_store] in *;
        unfold CloseElection, CancelElection, Vot_UpdateParams, Vot_SetParams; vote_prim.
      - match goal with Hg : GetElection _ _ = _, Hs : el_Status _ = _ |- _ => rewrite Hg, Hs end.
        rewrite bool_decide_eq_true_2 by done. by eexists.
      - match goal with Hg : GetElection _ _ = _, Hs : el_Status _ = _, Ht : el_TotalVotes _ = _ |- _ => rewrite Hg, Hs, Ht end.
        rewrite bool_decide_eq_true_2 by done. by eexists.
      - rewrite bool_decide_eq_true_2 by done. match goal with H : VotParams_Validate _ = _ |- _ => rewrite H end. by eexists. }
    exists s'. split; [|done]. by erewrite run_bind by (unfold lift; by rewrite Hv).
Qed.
End rules.
