(* ===== verification/VotHistory.v ===== *)
(** * x/voting: histories

    A history is the list of voting transactions the chain delivered, each with the block
    context and the state of x/credentials it saw.  The theorems say that the published
    counts are the ballots on the chain, what stands behind a ballot, and what can no
    longer change. *)
From stdpp Require Import base gmap strings list fin_maps.
From Stdlib Require Import ZArith Lia.
From S2P Require Import Prelude GoInt KVStore Interfaces PhiDid CredTypes CredServer VotServer VotRules.

(** ** Counting ballots *)
Definition ballots_for (st : VotStore) (id : string) : Z :=
  Z.of_nat (length (filter (λ b, bl_ElectionId b = id) (IterateBallots st))).
Definition votes_for (st : VotStore) (id : string) (i : nat) : Z :=
  Z.of_nat (length (filter (λ b, bl_ElectionId b = id ∧ N.to_nat (bl_OptionIndex b) = i) (IterateBallots st))).

Section history.
Context {C : Type} `{TemplateReader C} `{AddressCodec} `{VoteVerifier}.
Context (k : VotKeeper).

(** one delivered transaction *)
Record VoteTx := mkVoteTx { vx_ctx : Context; vx_creds : C; vx_msg : VotMsg }.
Definition vot_apply (s : VotState) (x : VoteTx) : VotState := deliver (vot_handle k (vx_ctx x) (vx_creds x) (vx_msg x)) s.
Definition vot_run (tr : list VoteTx) (s : VotState) : VotState := foldl vot_apply s tr.
(** the state the default genesis leaves *)
Definition vot_genesis : VotState := mkVotState (mkVotStore (Some DefaultVotParams) ∅ ∅) [].
Definition vot_after (tr : list VoteTx) : VotStore := vt_store (vot_run tr vot_genesis).

Lemma vot_run_app tr tr' s : vot_run (tr ++ tr') s = vot_run tr' (vot_run tr s).
Proof. apply foldl_app. Qed.

(** *** The counters keep their type, so every transaction follows its rule *)
Lemma typed_put e st : counters_ok e → typed_store st → typed_store (SetElection e st).
Proof.
  intros He Hst id e' Hg. unfold GetElection, SetElection in Hg. cbn in Hg.
  apply lookup_insert_Some in Hg as [[_ <-]|[_ Hg]]; [done|by eapply Hst].
Qed.
Lemma typed_rule ctx creds m st st' : vote_rule k ctx creds m st st' → typed_store st → typed_store st'.
Proof.
  intros [m0 st0 t|m0 st0 e tally _ Hg _ _ _ Htl _ _ _ _ Hm1 Hm2|m0 st0 e Hg|m0 st0 e Hg|m0 st0] Hty.
  - apply typed_put; [|done]. split; [done|]. apply Forall_replicate. done.
  - apply typed_put; [|done]. pose proof (Hty _ _ Hg) as Hc. pose proof (tally_bound _ _ _ Hc Htl) as Hb. destruct Hc as [Ht Hf].
    split; cbn [counted el_TotalVotes el_OptionTallies]; [lia|]. apply Forall_insert; [done|lia].
  - apply typed_put; [|done]. exact (Hty _ _ Hg).
  - apply typed_put; [|done]. exact (Hty _ _ Hg).
  - exact Hty.
Qed.
Lemma vot_apply_rule s x : typed_store (vt_store s) →
  vt_store (vot_apply s x) = vt_store s ∨
  VotMsg_ValidateBasic (vx_msg x) = Ok tt ∧
  vote_rule k (vx_ctx x) (vx_creds x) (vx_msg x) (vt_store s) (vt_store (vot_apply s x)).
Proof.
  intros Hty. unfold vot_apply.
  destruct (deliver_run (vot_handle k (vx_ctx x) (vx_creds x) (vx_msg x)) s) as [->|[[] E]]; [by left|right].
  unfold vot_handle in E at 1. go_inv. match goal with u : unit |- _ => destruct u end. split; [done|]. by apply handler_vote_rule.
Qed.
Lemma typed_after tr : typed_store (vot_after tr).
Proof.
  unfold vot_after. induction tr as [|x tr IH] using rev_ind; [done|]. rewrite vot_run_app.
  destruct (vot_apply_rule (vot_run tr vot_genesis) x IH) as [E|[_ Hr]]; cbn; [by rewrite E|by eapply typed_rule].
Qed.
Lemma vote_history_ind (P : list VoteTx → VotStore → Prop) :
  P [] (vt_store vot_genesis) →
  (∀ tr x st, P tr st → P (tr ++ [x]) st) →
  (∀ tr x st st', P tr st → VotMsg_ValidateBasic (vx_msg x) = Ok tt → typed_store st →
     vote_rule k (vx_ctx x) (vx_creds x) (vx_msg x) st st' → P (tr ++ [x]) st') →
  ∀ tr, P tr (vot_after tr).
Proof.
  intros H0' Hkeep Hrule tr. induction tr as [|x tr IH] using rev_ind; [done|].
  pose proof (typed_after tr) as Hty. unfold vot_after in *. rewrite vot_run_app. cbn [vot_run foldl].
  destruct (vot_apply_rule (vot_run tr vot_genesis) x Hty) as [->|[Hv Hr]]; [by apply Hkeep|by eapply Hrule].
Qed.

(** ** The count *)
Record election_ok (st : VotStore) (eid : string) (e : Election) : Prop := {
  eo_id : el_Id e = eid ∧ 0 < strlen eid ≤ MaxElectionIDLen;
  eo_options : (2 ≤ length (el_Options e))%nat ∧ length (el_OptionTallies e) = length (el_Options e);
  eo_window : el_VotingStart e < el_VotingEnd e;
  eo_total : el_TotalVotes e = ballots_for st eid;
  eo_sum : sumZ id (el_OptionTallies e) = el_TotalVotes e;
  eo_tallies i tally : el_OptionTallies e !! i = Some tally → tally = votes_for st eid i;
  eo_status : el_Status e = ELECTION_STATUS_OPEN ∨ el_Status e = ELECTION_STATUS_CLOSED ∨
    el_Status e = ELECTION_STATUS_CANCELLED ∧ el_TotalVotes e = 0;
}.
(** the transaction that cast a ballot *)
Definition ballot_backed (tr : list VoteTx) (e : Election) (b : Ballot) : Prop :=
  ∃ x m, x ∈ tr ∧ vx_msg x = MCastVote m ∧ cv_ElectionId m = bl_ElectionId b ∧ cv_Nullifier m = bl_Nullifier b ∧
    cv_OptionIndex m = bl_OptionIndex b ∧ BlockTime (vx_ctx x) = bl_CastAt b ∧
    el_VotingStart e ≤ bl_CastAt b ≤ el_VotingEnd e ∧
    proves_vote (vx_ctx x) (vx_creds x) (el_RequiredTemplateId e) (bl_ElectionId b) (bl_Nullifier b) (bl_OptionIndex b)
      (cv_EligibilityProof m).
Record ballot_ok (tr : list VoteTx) (st : VotStore) (key : string) (b : Ballot) : Prop := {
  bo_key : BallotKey (bl_ElectionId b) (bl_Nullifier b) = key;
  bo_nullifier : 0 < strlen (bl_Nullifier b) ≤ MaxNullifierLen;
  bo_election : ∃ e, GetElection st (bl_ElectionId b) = Some e ∧ (N.to_nat (bl_OptionIndex b) < length (el_Options e))%nat ∧
    ballot_backed tr e b;
}.
Record polls_ok (tr : list VoteTx) (st : VotStore) : Prop := {
  po_elections id e : GetElection st id = Some e → election_ok st id e;
  po_ballots key b : v_ballots st !! key = Some b → ballot_ok tr st key b;
}.

(** ** What can no longer change *)
Definition same_poll (e e' : Election) : Prop :=
  el_Id e' = el_Id e ∧ el_Creator e' = el_Creator e ∧ el_Title e' = el_Title e ∧ el_Options e' = el_Options e ∧
  el_RequiredTemplateId e' = el_RequiredTemplateId e ∧ el_RequiredIssuerDid e' = el_RequiredIssuerDid e ∧
  el_VotingStart e' = el_VotingStart e ∧ el_VotingEnd e' = el_VotingEnd e ∧ el_CreatedAt e' = el_CreatedAt e.
Record polls_evolve (st st' : VotStore) : Prop := {
  pe_elections id e : GetElection st id = Some e → ∃ e', GetElection st' id = Some e' ∧ same_poll e e' ∧
    el_TotalVotes e ≤ el_TotalVotes e' ∧ Forall2 Z.le (el_OptionTallies e) (el_OptionTallies e') ∧
    (el_Status e ≠ ELECTION_STATUS_OPEN → e' = e);
  pe_ballots : v_ballots st ⊆ v_ballots st';
}.
#[local] Instance polls_evolve_preorder : PreOrder polls_evolve.
Proof.
  split.
  - intros st. constructor; [|done]. intros id e Hg. exists e. by split_and!.
  - intros a b c [E1 B1] [E2 B2]. constructor; [|by etrans]. intros id e (e1 & G1 & S1 & T1 & F1 & D1)%E1.
    destruct (E2 _ _ G1) as (e2 & G2 & S2 & T2 & F2 & D2). exists e2. split_and!; [done| |lia| |].
    + unfold same_poll in *. naive_solver congruence.
    + by etrans.
    + intros Hs. rewrite <- (D1 Hs). apply D2. by rewrite (D1 Hs).
Qed.
Lemma evolve_put st e e' :
  GetElection st (el_Id e') = Some e → same_poll e e' → el_TotalVotes e ≤ el_TotalVotes e' →
  Forall2 Z.le (el_OptionTallies e) (el_OptionTallies e') → el_Status e = ELECTION_STATUS_OPEN →
  polls_evolve st (SetElection e' st).
Proof.
  intros Hg Hp Ht Hf Hs. constructor; [|done]. intros id e0 Hg0. unfold GetElection, SetElection. cbn.
  destruct (decide (el_Id e' = id)) as [<-|Hne].
  - assert (e0 = e) as -> by congruence. exists e'. rewrite lookup_insert_eq. by split_and!.
  - exists e0. rewrite lookup_insert_ne by done. by split_and!.
Qed.
Lemma vote_rule_evolves tr ctx creds m st st' :
  polls_ok tr st → vote_rule k ctx creds m st st' → polls_evolve st st'.
Proof.
  intros [He _] Hr.
  destruct Hr as [m st t Hn|m st e tally _ Hg Hs _ _ Htl _ _ Hb _ _ _|m st e Hg _ Hs|m st e Hg _ Hs|m st].
  - constructor; [|done]. intros id e Hg. exists e. unfold GetElection, SetElection in *. cbn.
    rewrite lookup_insert_ne by (intros <-; congruence). by split_and!.
  - destruct (He _ _ Hg) as [[Hi _] _ _ _ _ _ _].
    transitivity (SetBallot (mkBallot (cv_ElectionId m) (cv_Nullifier m) (cv_OptionIndex m) (BlockTime ctx)) st).
    { constructor; [|by apply insert_subseteq]. intros id e0 Hg0. exists e0. by split_and!. }
    apply (evolve_put _ e); cbn [counted el_TotalVotes el_OptionTallies el_Id]; [by rewrite Hi|done|lia| |done].
    rewrite <- (list_insert_id (el_OptionTallies e) _ _ Htl) at 1. apply Forall2_insert; [done|lia].
  - destruct (He _ _ Hg) as [[Hi _] _ _ _ _ _ _]. apply (evolve_put _ e); cbn [with_status el_Id];
      [by rewrite Hi|done|done|done|done].
  - destruct (He _ _ Hg) as [[Hi _] _ _ _ _ _ _]. apply (evolve_put _ e); cbn [with_status el_Id];
      [by rewrite Hi|done|done|done|done].
  - constructor; [|done]. intros id e Hg. exists e. by split_and!.
Qed.

(** ** The invariant *)
Lemma backed_mono tr x e e' b : same_poll e e' → ballot_backed tr e b → ballot_backed (tr ++ [x]) e' b.
Proof.
  intros (_ & _ & _ & _ & Ht & _ & Hs & He & _) (x0 & m & Hin & R). exists x0, m. rewrite Ht, Hs, He.
  split; [set_solver|done].
Qed.
Lemma ballot_ok_mono tr x st st' key b : polls_evolve st st' → ballot_ok tr st key b → ballot_ok (tr ++ [x]) st' key b.
Proof.
  intros [He _] [Hk Hn (e & Hg & Hi & Hb)]. destruct (He _ _ Hg) as (e' & Hg' & Hp & _). constructor; [done|done|].
  exists e'. split_and!; [done| |by eapply backed_mono]. by destruct Hp as (_ & _ & _ & -> & _).
Qed.
(** an election nobody has voted in *)
Lemma no_ballots tr st id : polls_ok tr st → GetElection st id = None → ballots_for st id = 0 ∧ ∀ i, votes_for st id i = 0.
Proof.
  intros [_ Hb] Hn. assert (∀ P : Ballot → Prop, (∀ b, P b → bl_ElectionId b = id) → ∀ `(∀ b, Decision (P b)),
    Z.of_nat (length (filter P (IterateBallots st))) = 0) as Hz.
  { intros P HP HD. unfold IterateBallots. rewrite count_values. rewrite (map_sum_ext _ (λ _ _, 0)).
    - unfold map_sum. induction (map_to_list (v_ballots st)) as [|? ? IH]; [done|]. rewrite sumZ_cons, IH. done.
    - intros key b Hl. case_decide as Hp; [|done]. destruct (Hb _ _ Hl) as [_ _ (e & Hg & _)].
      rewrite (HP b Hp) in Hg. congruence. }
  split; [by apply Hz|]. intros i. apply Hz. by intros b [? _].
Qed.
(** a ballot is one more for its option and its election *)
Lemma ballots_for_put st b id : v_ballots st !! BallotKey (bl_ElectionId b) (bl_Nullifier b) = None →
  ballots_for (SetBallot b st) id = (if decide (bl_ElectionId b = id) then 1 else 0) + ballots_for st id.
Proof. intros Hn. exact (count_put (λ b, bl_ElectionId b = id) (v_ballots st) _ b Hn). Qed.
Lemma votes_for_put st b id i : v_ballots st !! BallotKey (bl_ElectionId b) (bl_Nullifier b) = None →
  votes_for (SetBallot b st) id i =
  (if decide (bl_ElectionId b = id ∧ N.to_nat (bl_OptionIndex b) = i) then 1 else 0) + votes_for st id i.
Proof. intros Hn. exact (count_put (λ b, bl_ElectionId b = id ∧ N.to_nat (bl_OptionIndex b) = i) (v_ballots st) _ b Hn). Qed.
Lemma counted_ok st b e tally :
  election_ok st (bl_ElectionId b) e → v_ballots st !! BallotKey (bl_ElectionId b) (bl_Nullifier b) = None →
  el_Status e = ELECTION_STATUS_OPEN → el_OptionTallies e !! N.to_nat (bl_OptionIndex b) = Some tally →
  election_ok (SetBallot b st) (bl_ElectionId b) (counted (bl_OptionIndex b) tally e).
Proof.
  intros [Hi [Ho Hl] Hw Ht Hsum Hv Hs] Hn Hop Htl. constructor; cbn [counted el_Id el_Options el_OptionTallies el_TotalVotes el_Status];
    [done|split; [done|by rewrite length_insert]|done| | | |by left].
  - rewrite ballots_for_put by done. rewrite decide_True by done. lia.
  - rewrite (sumZ_insert _ _ _ _ Htl). lia.
  - intros i t Hli. rewrite votes_for_put by done. apply list_lookup_insert_Some in Hli as [(<- & <- & _)|[Hne Hli]].
    + rewrite decide_True by done. rewrite (Hv _ _ Htl). lia.
    + rewrite decide_False by tauto. by rewrite (Hv _ _ Hli).
Qed.
Lemma uncounted_ok st b id e :
  bl_ElectionId b ≠ id → v_ballots st !! BallotKey (bl_ElectionId b) (bl_Nullifier b) = None →
  election_ok st id e → election_ok (SetBallot b st) id e.
Proof.
  intros Hne Hn [Hi Ho Hw Ht Hsum Hv Hs]. constructor; [done..| |done| |done].
  - rewrite ballots_for_put by done. by rewrite decide_False.
  - intros i t Hl. rewrite votes_for_put by done. rewrite decide_False by tauto. by apply Hv.
Qed.
Lemma elections_put st e : (∀ id e0, el_Id e ≠ id → GetElection st id = Some e0 → election_ok st id e0) →
  election_ok st (el_Id e) e → ∀ id e', GetElection (SetElection e st) id = Some e' → election_ok (SetElection e st) id e'.
Proof.
  intros Hold He id e' Hg. unfold GetElection, SetElection in Hg. cbn in Hg.
  assert (election_ok st id e') as []; [|by constructor].
  apply lookup_insert_Some in Hg as [[<- <-]|[Hne Hg]]; [done|by apply Hold].
Qed.

Lemma create_basic_facts m : CreateElection_ValidateBasic m = Ok tt →
  0 < strlen (ce_Id m) ≤ MaxElectionIDLen ∧ (2 ≤ length (ce_Options m))%nat.
Proof.
  unfold CreateElection_ValidateBasic, require. intros E. go_inv. bool_prop. unfold strlen in *. lia.
Qed.
Lemma cast_basic_facts m : CastVote_ValidateBasic m = Ok tt → 0 < strlen (cv_Nullifier m) ≤ MaxNullifierLen.
Proof. unfold CastVote_ValidateBasic, require. intros E. go_inv. bool_prop. unfold strlen in *. lia. Qed.
Lemma elections_step tr x st st' :
  polls_ok tr st → VotMsg_ValidateBasic (vx_msg x) = Ok tt →
  vote_rule k (vx_ctx x) (vx_creds x) (vx_msg x) st st' → ∀ eid e, GetElection st' eid = Some e → election_ok st' eid e.
Proof.
  intros Hok Hv Hr. pose proof Hok as [He _].
  destruct Hr as [m st t Hn Ho [Hw _] Hroll Hi|m st e tally _ Hg Hs _ _ Htl _ _ Hb _ _ _|m st e Hg _ Hs|m st e Hg _ Hs Hz|m st].
  - apply elections_put; [intros; by apply He|]. destruct (create_basic_facts m Hv). destruct (no_ballots _ _ _ Hok Hn) as [H0' H1'].
    constructor; cbn [el_Id el_Options el_OptionTallies el_TotalVotes el_VotingStart el_VotingEnd el_Status];
      [done|split; [done|apply length_replicate]|done|by rewrite H0'| | |by left].
    + clear. induction (length (ce_Options m)) as [|n IH]; [done|]. cbn [replicate]. rewrite sumZ_cons, IH. done.
    + intros i t' [-> _]%lookup_replicate. by rewrite H1'.
  - pose proof (He _ _ Hg) as Hel. pose proof (eo_id _ _ _ Hel) as [Hid _]. apply elections_put; cbn [counted el_Id].
    + intros eid e0 Hne Hg0. apply uncounted_ok; [cbn; congruence|done|by apply He].
    + rewrite Hid. by apply (counted_ok st (mkBallot (cv_ElectionId m) (cv_Nullifier m) (cv_OptionIndex m) (BlockTime (vx_ctx x)))).
  - apply elections_put; [intros; by apply He|]. destruct (He _ _ Hg) as [[Hi Hl] Ho Hw Ht Hsum Htl Hst].
    constructor; cbn [with_status el_Id]; rewrite ?Hi; [done..|]. right. by left.
  - apply elections_put; [intros; by apply He|]. destruct (He _ _ Hg) as [[Hi Hl] Ho Hw Ht Hsum Htl Hst].
    constructor; cbn [with_status el_Id]; rewrite ?Hi; [done..|]. right. by right.
  - intros eid e Hg. destruct (He eid e Hg). by constructor.
Qed.
Lemma ballots_step tr x st st' :
  polls_ok tr st → VotMsg_ValidateBasic (vx_msg x) = Ok tt →
  vote_rule k (vx_ctx x) (vx_creds x) (vx_msg x) st st' → ∀ key b, v_ballots st' !! key = Some b → ballot_ok (tr ++ [x]) st' key b.
Proof.
  intros Hok Hv Hr. pose proof (vote_rule_evolves _ _ _ _ _ _ Hok Hr) as Hev. intros key b Hl.
  destruct (v_ballots st !! key) as [b0|] eqn:Hold.
  { pose proof (lookup_weaken _ _ _ _ Hold (pe_ballots _ _ Hev)) as Hl'. assert (b0 = b) as -> by congruence.
    eapply ballot_ok_mono, Hok; done. }
  remember (vx_msg x) as msg eqn:Em.
  destruct Hr as [| m st e tally _ Hg Hs Hw Hi Htl _ _ Hb Hp _ _| | |]; try (cbn in Hl; congruence).
  cbn in Hl. apply lookup_insert_Some in Hl as [[<- <-]|[_ Hl]]; [|congruence].
  pose proof (po_elections _ _ Hok _ _ Hg) as Hel. pose proof (eo_id _ _ _ Hel) as [Hid _].
  constructor; cbn [bl_ElectionId bl_Nullifier bl_OptionIndex]; [done|by apply cast_basic_facts|].
  exists (counted (cv_OptionIndex m) tally e). split_and!; [|done|].
  - unfold GetElection, SetElection. cbn. by rewrite Hid, lookup_insert_eq.
  - exists x, m. split_and!; [set_solver|done..|cbn; lia|cbn; lia|done].
Qed.
Lemma polls_after tr : polls_ok tr (vot_after tr).
Proof.
  revert tr. apply vote_history_ind.
  - by constructor.
  - intros tr x st [He Hb]. constructor; [done|]. intros key b Hl. by eapply ballot_ok_mono, Hb.
  - intros tr x st st' Hok Hv _ Hr. constructor; [by eapply elections_step|by eapply ballots_step].
Qed.

Lemma BallotKey_inj eid n eid' n' : strlen eid ≤ MaxElectionIDLen → strlen eid' ≤ MaxElectionIDLen →
  BallotKey eid n = BallotKey eid' n' → eid = eid' ∧ n = n'.
Proof. apply lenPrefixedID_inj. Qed.
Lemma ballots_filed tr : filed (λ b, BallotKey (bl_ElectionId b) (bl_Nullifier b)) (v_ballots (vot_after tr)).
Proof. intros key b Hl. by destruct (po_ballots _ _ (polls_after tr) _ _ Hl). Qed.
Lemma ballot_election_short tr key b : v_ballots (vot_after tr) !! key = Some b → strlen (bl_ElectionId b) ≤ MaxElectionIDLen.
Proof.
  intros Hl. destruct (po_ballots _ _ (polls_after tr) _ _ Hl) as [_ _ (e & Hg & _)].
  destruct (po_elections _ _ (polls_after tr) _ _ Hg) as [[_ ?] _ _ _ _ _ _]. lia.
Qed.

(** C13: the published result is the count of the ballots.  After any history, for every
    election on the chain, the tally of each option is the number of stored ballots of that
    election for that option, the total is the number of its ballots and the sum of the
    tallies, and no nullifier has two ballots; a cancelled election has none. *)
Theorem result_counts_ballots tr eid e :
  GetElection (vot_after tr) eid = Some e →
  el_TotalVotes e = ballots_for (vot_after tr) eid ∧ sumZ id (el_OptionTallies e) = el_TotalVotes e ∧
  length (el_OptionTallies e) = length (el_Options e) ∧
  (∀ i, (i < length (el_Options e))%nat → el_OptionTallies e !! i = Some (votes_for (vot_after tr) eid i)) ∧
  NoDup ((λ b, (bl_ElectionId b, bl_Nullifier b)) <$> IterateBallots (vot_after tr)) ∧
  (el_Status e = ELECTION_STATUS_CANCELLED → el_TotalVotes e = 0).
Proof.
  intros Hg. destruct (po_elections _ _ (polls_after tr) _ _ Hg) as [_ [_ Hl] _ Ht Hsum Hv Hs]. split_and!; try done.
  - intros i Hi. rewrite <- Hl in Hi. apply lookup_lt_is_Some in Hi as [t Hli]. by rewrite Hli, (Hv _ _ Hli).
  - apply (NoDup_fmap_1 (λ p, BallotKey p.1 p.2)). rewrite <- list_fmap_compose.
    exact (values_NoDup _ _ (ballots_filed tr)).
  - intros E. destruct Hs as [Hs|[Hs|[_ ?]]]; [by rewrite Hs in E..|done].
Qed.

(** C14: what stands behind a ballot.  After any history, every ballot on the chain was cast
    by a transaction of the history in a build that enforces soundness, at the recorded
    time within the window of its election, for one of its options, with a proof that
    verified against the issuer key of the election's template for that chain, election,
    nullifier and choice; and a nullifier is taken in an election exactly when there is a
    ballot with this election and nullifier, so no other ballot can block a voter. *)
Theorem ballots_are_proven tr :
  (∀ b, b ∈ IterateBallots (vot_after tr) → soundnessEnforced k = true ∧
     ∃ e, GetElection (vot_after tr) (bl_ElectionId b) = Some e ∧
       (N.to_nat (bl_OptionIndex b) < length (el_Options e))%nat ∧ ballot_backed tr e b) ∧
  (∀ eid e n, GetElection (vot_after tr) eid = Some e →
     HasBallot (vot_after tr) eid n = true ↔
     ∃ b, b ∈ IterateBallots (vot_after tr) ∧ bl_ElectionId b = eid ∧ bl_Nullifier b = n).
Proof.
  pose proof (ballots_filed tr) as Hf. split.
  - intros b Hb. apply (elem_of_values _ _ _ Hf) in Hb.
    destruct (po_ballots _ _ (polls_after tr) _ _ Hb) as [_ _ Hr]. split; [|done]. revert Hb. clear.
    revert tr. apply (vote_history_ind (λ _ st, v_ballots st !! _ = Some b → soundnessEnforced k = true)); [done|done|].
    intros tr x st st' IH _ _ Hr. destruct Hr; done.
  - intros eid e n Hg. unfold HasBallot. rewrite bool_decide_eq_true. split.
    + intros [b Hb]. exists b. rewrite (elem_of_values _ _ _ Hf). pose proof (Hf _ _ Hb) as Hk.
      destruct (po_elections _ _ (polls_after tr) _ _ Hg) as [[_ [_ Hs]] _ _ _ _ _ _].
      destruct (BallotKey_inj _ _ _ _ (ballot_election_short _ _ _ Hb) Hs Hk) as [<- <-]. by rewrite Hb.
    + intros (b & Hb & <- & <-). apply (elem_of_values _ _ _ Hf) in Hb. by exists b.
Qed.

Lemma evolves_after tr tr' : polls_evolve (vot_after tr) (vot_after (tr ++ tr')).
Proof.
  induction tr' as [|x tr' IH] using rev_ind; [by rewrite app_nil_r|]. etrans; [exact IH|]. rewrite app_assoc.
  pose proof (polls_after (tr ++ tr')) as Hok. pose proof (typed_after (tr ++ tr')) as Hty. unfold vot_after in *.
  rewrite (vot_run_app (tr ++ tr')). cbn [vot_run foldl].
  destruct (vot_apply_rule _ x Hty) as [->|[_ Hr]]; [done|by eapply vote_rule_evolves].
Qed.

(** C33: a cast vote is final.  Whatever the chain delivers after a history, no ballot is
    lost or changed, no count goes down, the terms of an election (its options, template,
    issuer, window and creator) stay as they were, and a closed or cancelled election
    never changes again. *)
Theorem votes_are_final tr tr' eid e :
  GetElection (vot_after tr) eid = Some e →
  v_ballots (vot_after tr) ⊆ v_ballots (vot_after (tr ++ tr')) ∧
  ∃ e', GetElection (vot_after (tr ++ tr')) eid = Some e' ∧ same_poll e e' ∧ el_TotalVotes e ≤ el_TotalVotes e' ∧
    Forall2 Z.le (el_OptionTallies e) (el_OptionTallies e') ∧ (el_Status e ≠ ELECTION_STATUS_OPEN → e' = e).
Proof.
  intros Hg. destruct (evolves_after tr tr') as [He Hb]. split; [done|by apply He].
Qed.

(** Without the derivation-proof circuit nothing is counted.  In a build that does not
    enforce soundness, no history stores a ballot and every tally stays zero. *)
Theorem unsound_build_counts_nothing tr eid e :
  soundnessEnforced k = false → GetElection (vot_after tr) eid = Some e →
  v_ballots (vot_after tr) = ∅ ∧ el_TotalVotes e = 0 ∧ Forall (λ t, t = 0) (el_OptionTallies e).
Proof.
  intros Hk Hg. assert (v_ballots (vot_after tr) = ∅) as Hb.
  { revert tr eid e Hg. intros tr _ _ _. revert tr. apply (vote_history_ind (λ _ st, v_ballots st = ∅)); [done|done|].
    intros tr x st st' IH _ _ Hr. destruct Hr; [done|congruence|done..]. }
  destruct (po_elections _ _ (polls_after tr) _ _ Hg) as [_ _ _ Ht _ Hv _].
  assert (IterateBallots (vot_after tr) = []) as Hn by (unfold IterateBallots; by rewrite Hb).
  split_and!; [done| |].
  - rewrite Ht. unfold ballots_for. by rewrite Hn.
  - apply Forall_lookup_2. intros i t Hl. rewrite (Hv _ _ Hl). unfold votes_for. by rewrite Hn.
Qed.
End history.
