(* ===== verification/VotGenesis.v ===== *)
(** * x/voting: genesis

    [x/voting/types/genesis.go] and [keeper/genesis.go]: validation, which recounts the
    ballots, import and export.  Every state a history leads to is exported and imported
    without loss, provided no election has a negative start; [CreateElection] does accept
    one, and then the exported state is refused. *)
From stdpp Require Import base gmap strings list fin_maps.
From Stdlib Require Import ZArith Lia Ascii.
From S2P Require Import Prelude GoInt KVStore Interfaces PhiDid CredTypes CredServer VotServer VotRules VotHistory.

Record VotGenesisState := mkVotGenesis {
  vg_Params : VotParams; vg_Elections : list Election; vg_Ballots : list Ballot }.
Definition DefaultVotGenesis : VotGenesisState := mkVotGenesis DefaultVotParams [] [].

(** [l[i]] *)
Definition index {A} (l : list A) (i : nat) : outcome A :=
  match l !! i with Some a => Ok a | None => Panic "index out of range" end.

(** the loops of [Validate] *)
Fixpoint validate_elections (elections : gmap string Election) (l : list Election) : outcome (gmap string Election) :=
  match l with
  | [] => Ok elections
  | e :: l' =>
      err_if (strlen (el_Id e) =? 0) (Plain "election with empty id");;
      err_if (bool_decide (is_Some (elections !! el_Id e))) (Plain "duplicate election id in genesis");;
      err_if (Z.of_nat (length (el_Options e)) <? 2) (Plain "election must have at least two options");;
      err_if (negb (Z.of_nat (length (el_OptionTallies e)) =? Z.of_nat (length (el_Options e))))
        (Plain "election option_tallies length must match options");;
      err_if (el_VotingStart e <? 0) (Plain "election has negative voting_start");;
      err_if (el_VotingEnd e <=? el_VotingStart e) (Plain "election voting_end must be after voting_start");;
      validate_elections (<[el_Id e := e]> elections) l'
  end.
Definition ballot_name (b : Ballot) : string := bl_ElectionId b +:+ "/" +:+ hex_encode (bl_Nullifier b).
Fixpoint validate_ballots (elections : gmap string Election) (seenBallot : gset string)
  (computed : gmap string (list Z)) (l : list Ballot) : outcome (gmap string (list Z)) :=
  match l with
  | [] => Ok computed
  | b :: l' =>
      e ← or_err (elections !! bl_ElectionId b) (Plain "ballot references unknown election");
      err_if (strlen (bl_Nullifier b) =? 0) (Plain "ballot with empty nullifier");;
      err_if (Z.of_nat (length (el_Options e)) <=? Z.of_N (bl_OptionIndex b)) (Plain "ballot has out-of-range option_index");;
      err_if (bool_decide (ballot_name b ∈ seenBallot)) (Plain "duplicate ballot (nullifier reused) in genesis");;
      let counts := default (replicate (length (el_Options e)) 0) (computed !! bl_ElectionId b) in
      n ← index counts (N.to_nat (bl_OptionIndex b));
      validate_ballots elections ({[ballot_name b]} ∪ seenBallot)
        (<[bl_ElectionId b := <[N.to_nat (bl_OptionIndex b) := u64 (n + 1)]> counts]> computed) l'
  end.
Fixpoint check_tallies (e : Election) (counts : option (list Z)) (options : list nat) (total : Z) : outcome Z :=
  match options with
  | [] => Ok total
  | i :: options' =>
      got ← match counts with Some c => index c i | None => Ok 0 end;
      tally ← index (el_OptionTallies e) i;
      err_if (negb (tally =? got)) (Plain "option_tallies disagrees with ballots");;
      check_tallies e counts options' (u64 (total + got))
  end.
(** the elections in the order of a Go map, which decides only which error is returned *)
Fixpoint validate_results (computed : gmap string (list Z)) (l : list (string * Election)) : outcome unit :=
  match l with
  | [] => Ok tt
  | (eid, e) :: l' =>
      total ← check_tallies e (computed !! eid) (seq 0 (length (el_Options e))) 0;
      err_if (negb (el_TotalVotes e =? total)) (Plain "total_votes disagrees with ballots");;
      validate_results computed l'
  end.
Definition VotGenesis_Validate (gs : VotGenesisState) : outcome unit :=
  VotParams_Validate (vg_Params gs);;
  elections ← validate_elections ∅ (vg_Elections gs);
  computed ← validate_ballots elections ∅ ∅ (vg_Ballots gs);
  validate_results computed (map_to_list elections).

Definition Vot_InitGenesis (gs : VotGenesisState) : M VotStore unit :=
  or_panic (lift (VotGenesis_Validate gs));;
  or_panic (Vot_SetParams (vg_Params gs));;
  for_each (vg_Elections gs) (λ e, modify (SetElection e));;
  for_each (vg_Ballots gs) (λ b, modify (SetBallot b)).
Definition Vot_ExportGenesis (st : VotStore) : VotGenesisState :=
  mkVotGenesis (Vot_GetParams st) (IterateElections st) (IterateBallots st).

(** ** The names of ballots *)
Lemma hex_no_slash s a b : hex_encode s ≠ a +:+ "/" +:+ b.
Proof.
  assert (∀ d, 0 ≤ d < 16 → hex_char d ≠ "/"%char) as Hc.
  { intros d Hd E. apply (f_equal char_code) in E. unfold hex_char in E. rewrite char_code_byte in E.
    change (char_code "/") with 47 in E. destruct (Z.ltb_spec d 10); rewrite Z.mod_small in E; lia. }
  assert (∀ c, 0 ≤ char_code c / 16 < 16 ∧ 0 ≤ char_code c mod 16 < 16) as Hr.
  { intros c. pose proof (char_code_range c). split; [|apply Z.mod_pos_bound; lia].
    split; [apply Z.div_pos; lia|apply Z.div_lt_upper_bound; lia]. }
  revert a. induction s as [|c s IH]; intros [|x [|y a]] E; cbn [hex_encode String.append] in E; try done.
  - injection E as E _. exact (Hc _ (proj1 (Hr c)) E).
  - injection E as _ E _. exact (Hc _ (proj2 (Hr c)) E).
  - injection E as _ _ E. by eapply IH.
Qed.
Lemma ballot_name_inj b b' : ballot_name b = ballot_name b' →
  bl_ElectionId b = bl_ElectionId b' ∧ bl_Nullifier b = bl_Nullifier b'.
Proof.
  unfold ballot_name. generalize (bl_ElectionId b), (bl_ElectionId b'). intros x. induction x as [|c x IH]; intros [|d y] E; cbn in E.
  - injection E as E. split; [done|by apply hex_encode_inj].
  - injection E as <- E. by apply hex_no_slash in E.
  - injection E as -> E. symmetry in E. by apply hex_no_slash in E.
  - injection E as -> E. apply IH in E as [-> ->]. done.
Qed.

(** ** Validation of a counted state *)
Definition election_valid (e : Election) : Prop :=
  0 < strlen (el_Id e) ∧ (2 ≤ length (el_Options e))%nat ∧ length (el_OptionTallies e) = length (el_Options e) ∧
  0 ≤ el_VotingStart e < el_VotingEnd e.
Lemma validate_elections_ok l seen :
  Forall election_valid l → NoDup (el_Id <$> l) → (∀ e, e ∈ l → seen !! el_Id e = None) →
  validate_elections seen l = Ok (foldl (λ s e, <[el_Id e := e]> s) seen l).
Proof.
  revert seen. induction l as [|e l IH]; intros seen Hv Hn Hs; [done|]. cbn [validate_elections foldl].
  apply Forall_cons in Hv as [(Hi & Ho & Hl & Hw) Hv]. cbn [fmap list_fmap] in Hn. apply NoDup_cons in Hn as [Hne Hn].
  rewrite (proj2 (empty_length _) Hi). rewrite bool_decide_eq_false_2 by (rewrite Hs by left; by intros []).
  rewrite (proj2 (Z.ltb_ge _ 2)) by lia. rewrite Hl, Z.eqb_refl. cbn [negb].
  rewrite (proj2 (Z.ltb_ge _ 0)), (proj2 (Z.leb_gt (el_VotingEnd e) (el_VotingStart e))) by lia. apply IH; [done|done|].
  intros e' He'. rewrite lookup_insert_ne; [apply Hs; by right|]. intros E. apply Hne. rewrite E. by apply list_elem_of_fmap_2.
Qed.

(** the number of ballots of a list for an option *)
Definition cnt (l : list Ballot) (eid : string) (i : nat) : Z :=
  Z.of_nat (length (filter (λ b, bl_ElectionId b = eid ∧ N.to_nat (bl_OptionIndex b) = i) l)).
Definition counts_of (computed : gmap string (list Z)) (eid : string) (e : Election) : list Z :=
  default (replicate (length (el_Options e)) 0) (computed !! eid).
Definition tallied (elections : gmap string Election) (computed : gmap string (list Z)) (l : list Ballot) : Prop :=
  ∀ eid e, elections !! eid = Some e → length (counts_of computed eid e) = length (el_Options e) ∧
    ∀ i n, counts_of computed eid e !! i = Some n → n = u64 (cnt l eid i).
Definition ballot_valid (elections : gmap string Election) (b : Ballot) : Prop :=
  0 < strlen (bl_Nullifier b) ∧
  ∃ e, elections !! bl_ElectionId b = Some e ∧ (N.to_nat (bl_OptionIndex b) < length (el_Options e))%nat.

Lemma cnt_snoc l b eid i : cnt (l ++ [b]) eid i =
  cnt l eid i + if decide (bl_ElectionId b = eid ∧ N.to_nat (bl_OptionIndex b) = i) then 1 else 0.
Proof.
  unfold cnt. rewrite filter_app, length_app. case_decide.
  - rewrite filter_cons_True by done. cbn [length filter list_filter]. lia.
  - rewrite filter_cons_False by done. cbn [length filter list_filter]. lia.
Qed.
Lemma u64_succ a : u64 (u64 a + 1) = u64 (a + 1).
Proof. unfold u64. by rewrite Zplus_mod_idemp_l. Qed.
Lemma counts_of_insert computed eid eid' e c :
  counts_of (<[eid := c]> computed) eid' e = if decide (eid = eid') then c else counts_of computed eid' e.
Proof. unfold counts_of. case_decide; [subst; by rewrite lookup_insert_eq|by rewrite lookup_insert_ne]. Qed.
Lemma tallied_step elections computed l b e n :
  tallied elections computed l → elections !! bl_ElectionId b = Some e →
  counts_of computed (bl_ElectionId b) e !! N.to_nat (bl_OptionIndex b) = Some n →
  tallied elections (<[bl_ElectionId b := <[N.to_nat (bl_OptionIndex b) := u64 (n + 1)]>
    (counts_of computed (bl_ElectionId b) e)]> computed) (l ++ [b]).
Proof.
  intros Ht He Hn eid e0 He0. destruct (Ht _ _ He) as [Hl Hc]. rewrite counts_of_insert.
  destruct (decide (bl_ElectionId b = eid)) as [<-|Hne].
  - assert (e0 = e) as -> by congruence. split; [by rewrite length_insert|]. intros i m Hi. rewrite cnt_snoc.
    apply list_lookup_insert_Some in Hi as [(<- & <- & _)|[Hne Hi]].
    + rewrite decide_True by done. by rewrite (Hc _ _ Hn), u64_succ.
    + rewrite decide_False by tauto. rewrite Z.add_0_r. by apply Hc.
  - destruct (Ht _ _ He0) as [Hl0 Hc0]. split; [done|].
    intros i m Hi. rewrite cnt_snoc, decide_False by tauto. rewrite Z.add_0_r. by apply Hc0.
Qed.
Lemma validate_ballots_ok elections l pre seen computed :
  Forall (ballot_valid elections) l → NoDup (ballot_name <$> l) → (∀ b, b ∈ l → ballot_name b ∉ seen) →
  tallied elections computed pre →
  ∃ computed', validate_ballots elections seen computed l = Ok computed' ∧ tallied elections computed' (pre ++ l).
Proof.
  revert pre seen computed. induction l as [|b l IH]; intros pre seen computed Hv Hn Hs Ht.
  { exists computed. by rewrite app_nil_r. }
  apply Forall_cons in Hv as [(Hl & e & He & Hi) Hv]. cbn [fmap list_fmap] in Hn. apply NoDup_cons in Hn as [Hne Hn].
  destruct (Ht _ _ He) as [Hlen Hc]. destruct (lookup_lt_is_Some_2 (counts_of computed (bl_ElectionId b) e) (N.to_nat (bl_OptionIndex b)))
    as [n Hcn]; [by rewrite Hlen|]. cbn [validate_ballots]. rewrite He. cbn [or_err mbind outcome_bind].
  rewrite (proj2 (empty_length _) Hl). rewrite (proj2 (Z.leb_gt _ _)) by lia. rewrite bool_decide_eq_false_2 by (apply Hs; left).
  cbn [err_if mbind outcome_bind]. fold (counts_of computed (bl_ElectionId b) e). unfold index. rewrite Hcn.
  cbn [mbind outcome_bind]. rewrite (assoc_L (++) pre [b] l : pre ++ b :: l = _). apply IH; [done|done| |by apply tallied_step].
  intros b' Hb'. apply not_elem_of_union. split; [|apply Hs; by right]. rewrite elem_of_singleton. intros E. apply Hne.
  rewrite <- E. by apply list_elem_of_fmap_2.
Qed.
Lemma check_tallies_ok e counts n i total :
  (∀ j, (i ≤ j < i + n)%nat → ∃ t, el_OptionTallies e !! j = Some t ∧ default (replicate (length (el_Options e)) 0) counts !! j = Some t) →
  length (el_OptionTallies e) = length (el_Options e) → (i + n = length (el_Options e))%nat →
  (∀ j t, el_OptionTallies e !! j = Some t → 0 ≤ t) → 0 ≤ total → total + sumZ id (drop i (el_OptionTallies e)) ≤ maxUint64 →
  check_tallies e counts (seq i n) total = Ok (total + sumZ id (drop i (el_OptionTallies e))).
Proof.
  revert i total. induction n as [|n IH]; intros i total Ht Hl Hin Hp H0 Hm; cbn [seq check_tallies].
  { rewrite drop_ge by lia. rewrite sumZ_nil. f_equal. lia. }
  destruct (Ht i ltac:(lia)) as (t & Hti & Hci). pose proof (Hp _ _ Hti). rewrite (drop_S _ _ _ Hti), sumZ_cons in *.
  assert (0 ≤ sumZ id (drop (S i) (el_OptionTallies e))).
  { apply sumZ_nonneg. intros a [j Hj]%list_elem_of_lookup. rewrite lookup_drop in Hj. by apply Hp in Hj. }
  assert (match counts with Some c => index c i | None => Ok 0 end = Ok t) as ->.
  { unfold index. destruct counts as [c|]; cbn in Hci; [by rewrite Hci|].
    by apply lookup_replicate in Hci as [-> _]. }
  cbn [mbind outcome_bind]. unfold index. rewrite Hti. cbn [mbind outcome_bind]. rewrite Z.eqb_refl. cbn [negb err_if mbind outcome_bind].
  change (id t) with t in *. unfold maxUint64 in *. rewrite u64_id by lia.
  rewrite IH; [f_equal; lia| |done|lia|done|lia|lia]. intros j Hj. apply Ht. lia.
Qed.

Lemma validate_results_ok computed l :
  Forall (λ p : string * Election, check_tallies p.2 (computed !! p.1) (seq 0 (length (el_Options p.2))) 0 = Ok (el_TotalVotes p.2)) l →
  validate_results computed l = Ok tt.
Proof.
  induction 1 as [|[eid e] l He Hl IH]; [done|]. cbn [validate_results fst snd] in *. rewrite He. cbn [mbind outcome_bind].
  by rewrite Z.eqb_refl.
Qed.

Section roundtrip.
Context {C : Type} `{TemplateReader C} `{AddressCodec} `{VoteVerifier}.
Context (k : VotKeeper).

Lemma vot_params_after (tr : list (@VoteTx C)) :
  ∃ p, v_params (vot_after k tr) = Some p ∧ VotParams_Validate p = Ok tt.
Proof.
  revert tr. apply (vote_history_ind k (λ _ st, ∃ p, v_params st = Some p ∧ VotParams_Validate p = Ok tt)); [by eexists|done|].
  intros tr x st st' IH _ _ Hr. destruct Hr; [done..|]. by eexists.
Qed.
Lemma elections_filed (tr : list (@VoteTx C)) : filed el_Id (v_elections (vot_after k tr)).
Proof. intros eid e Hg. by destruct (po_elections _ _ (polls_after k tr) _ _ Hg) as [[? _] _ _ _ _ _ _]. Qed.
Lemma names_NoDup (tr : list (@VoteTx C)) : NoDup (ballot_name <$> IterateBallots (vot_after k tr)).
Proof.
  pose proof (ballots_filed k tr) as Hf. apply NoDup_fmap_2_strong.
  - intros b b' Hb Hb' [E1 E2]%ballot_name_inj. apply (elem_of_values _ _ _ Hf) in Hb, Hb'. rewrite E1, E2 in Hb. congruence.
  - eapply NoDup_fmap_1, (values_NoDup _ _ Hf).
Qed.
Lemma result_recounts (tr : list (@VoteTx C)) computed eid e :
  tallied (v_elections (vot_after k tr)) computed (IterateBallots (vot_after k tr)) →
  GetElection (vot_after k tr) eid = Some e →
  check_tallies e (computed !! eid) (seq 0 (length (el_Options e))) 0 = Ok (el_TotalVotes e).
Proof.
  intros Ht Hg. destruct (po_elections _ _ (polls_after k tr) _ _ Hg) as [_ [_ Hl] _ _ Hsum Hv _].
  destruct (typed_after k tr _ _ Hg) as [Htot Hcnt]. rewrite Forall_lookup in Hcnt.
  rewrite check_tallies_ok; rewrite ?drop_0; [f_equal; lia| |done|done| |done|lia].
  - intros j [_ Hj]. cbn in Hj. rewrite <- Hl in Hj. apply lookup_lt_is_Some in Hj as [t Hj]. exists t. split; [done|].
    destruct (Ht _ _ Hg) as [Hlc Hc]. fold (counts_of computed eid e).
    destruct (lookup_lt_is_Some_2 (counts_of computed eid e) j) as [n Hn]; [rewrite Hlc, <- Hl; by eapply lookup_lt_Some|].
    rewrite Hn, (Hc _ _ Hn). pose proof (Hv _ _ Hj) as E. unfold votes_for in E. fold (cnt (IterateBallots (vot_after k tr)) eid j) in E.
    rewrite <- E. specialize (Hcnt _ _ Hj). unfold maxUint64 in Hcnt. rewrite u64_id by lia. done.
  - intros j t Hj. by destruct (Hcnt _ _ Hj).
Qed.
Definition starts_ok (st : VotStore) : Prop := ∀ eid e, GetElection st eid = Some e → 0 ≤ el_VotingStart e.
Lemma vot_exported_valid (tr : list (@VoteTx C)) :
  starts_ok (vot_after k tr) → VotGenesis_Validate (Vot_ExportGenesis (vot_after k tr)) = Ok tt.
Proof.
  intros Hs. pose proof (polls_after k tr) as [He Hb]. pose proof (elections_filed tr) as Hf.
  pose proof (ballots_filed k tr) as Hfb. destruct (vot_params_after tr) as (p & Hp & Hpv).
  unfold VotGenesis_Validate, Vot_ExportGenesis, Vot_GetParams. cbn [vg_Params vg_Elections vg_Ballots].
  rewrite Hp. cbn [default]. unfold id. rewrite Hpv. cbn [mbind outcome_bind].
  assert (validate_elections ∅ (IterateElections (vot_after k tr)) = Ok (v_elections (vot_after k tr))) as ->.
  { rewrite validate_elections_ok; [f_equal; by apply values_rebuild| |by apply values_NoDup|by intros; apply lookup_empty].
    apply Forall_forall. intros e Hin. apply (elem_of_values _ _ _ Hf) in Hin.
    destruct (He _ _ Hin) as [[_ ?] [? ?] ? _ _ _ _]. specialize (Hs _ _ Hin). split_and!; [lia|done|done|lia|lia]. }
  cbn [mbind outcome_bind].
  destruct (validate_ballots_ok (v_elections (vot_after k tr)) (IterateBallots (vot_after k tr)) [] ∅ ∅) as (c & -> & Hc).
  - apply Forall_forall. intros b Hin. apply (elem_of_values _ _ _ Hfb) in Hin. destruct (Hb _ _ Hin) as [_ [? _] (e & Hg & Hi & _)].
    split; [done|]. by exists e.
  - apply names_NoDup.
  - set_solver.
  - intros eid e Hg. unfold counts_of. rewrite lookup_empty. cbn. split; [apply length_replicate|].
    intros i n [-> _]%lookup_replicate. done.
  - cbn [mbind outcome_bind]. apply validate_results_ok, Forall_forall. intros [eid e] Hin%elem_of_map_to_list.
    by apply (result_recounts tr).
Qed.

(** The state of the polls survives export and import.  After any history none of whose
    elections starts before the epoch, the exported genesis passes validation, which
    recounts every ballot, and importing it into an empty store restores exactly the
    parameters, elections and ballots of the chain. *)
Theorem vot_genesis_roundtrip (tr : list (@VoteTx C)) :
  starts_ok (vot_after k tr) →
  VotGenesis_Validate (Vot_ExportGenesis (vot_after k tr)) = Ok tt ∧
  Vot_InitGenesis (Vot_ExportGenesis (vot_after k tr)) (mkVotStore None ∅ ∅) = (Ok tt, vot_after k tr).
Proof.
  intros Hs. pose proof (vot_exported_valid tr Hs) as Hv. split; [done|]. unfold Vot_InitGenesis.
  erewrite run_bind by (unfold or_panic, lift; by rewrite Hv). destruct (vot_params_after tr) as (p & Hp & Hpv).
  assert (Vot_GetParams (vot_after k tr) = p) as Ep by (unfold Vot_GetParams; by rewrite Hp).
  erewrite run_bind; [|unfold or_panic, Vot_SetParams, Vot_ExportGenesis; cbn [vg_Params]; rewrite Ep;
    erewrite run_bind by (unfold lift; by rewrite Hpv); done].
  erewrite run_bind by apply for_each_modify. rewrite for_each_modify. f_equal.
  pose proof (values_rebuild _ _ (elections_filed tr)) as E1. pose proof (values_rebuild _ _ (ballots_filed k tr)) as E2.
  cbn [vg_Params vg_Elections vg_Ballots Vot_ExportGenesis v_elections v_ballots]. 
  assert (∀ l st, foldl (λ s e, SetElection e s) st l =
    mkVotStore (v_params st) (foldl (λ s e, <[el_Id e := e]> s) (v_elections st) l) (v_ballots st)) as ->.
  { induction l as [|e l IH]; intros [pp es bs]; [done|]. cbn [foldl]. by rewrite IH. }
  assert (∀ l st, foldl (λ s b, SetBallot b s) st l =
    mkVotStore (v_params st) (v_elections st) (foldl (λ s b, <[BallotKey (bl_ElectionId b) (bl_Nullifier b) := b]> s) (v_ballots st) l)) as ->.
  { induction l as [|b l IH]; intros [pp es bs]; [done|]. cbn [foldl]. by rewrite IH. }
  cbn [v_params v_elections v_ballots]. unfold IterateElections, IterateBallots. rewrite E1, E2.
  destruct (vot_after k tr). cbn in *. by subst.
Qed.
End roundtrip.
