(* ===== verification/VotDemo.v ===== *)
(** * x/voting: concrete histories

    A poll over a template of x/credentials, in the sound build: two ballots are counted, a
    repeated nullifier is not.  The histories witness the theorems; one more shows that an
    election with a negative start makes the exported genesis unusable. *)
From stdpp Require Import base gmap strings list fin_maps.
From Stdlib Require Import ZArith Lia.
From S2P Require Import Prelude GoInt KVStore Interfaces PhiDid IdTypes CredTypes CredServer CredRules CredHistory VotServer VotRules VotHistory IdKeeper CredDemo VotGenesis.

(** ** x/voting over x/credentials

    The two modules on one chain: transactions of either are delivered in some order, and
    a voting transaction reads the state x/credentials has at that moment.  The template
    an election was opened for cannot be removed, re-keyed or passed on, so the electorate
    is fixed when the election is created. *)
Section chain.
Context {I : Type} `{DocumentReader I} `{AddressCodec} `{Hasher} `{Verifier} `{VoteVerifier}.
Context (cred_authority : string) (k : VotKeeper).

Inductive ChainTx :=
| OnCredentials (ctx : Context) (ids : I) (m : CredMsg)
| OnVoting (ctx : Context) (m : VotMsg).
Record ChainState := mkChain { ch_cred : CredState; ch_vot : VotState }.
Definition chain_apply (s : ChainState) (x : ChainTx) : ChainState :=
  match x with
  | OnCredentials ctx ids m => mkChain (apply_tx cred_authority (ch_cred s) (mkTx ctx ids m)) (ch_vot s)
  | OnVoting ctx m => mkChain (ch_cred s) (vot_apply k (ch_vot s) (mkVoteTx ctx (cr_store (ch_cred s)) m))
  end.
Definition chain_genesis : ChainState := mkChain cred_genesis vot_genesis.
Definition chain_run (tr : list ChainTx) : ChainState := foldl chain_apply chain_genesis tr.

(** the two modules' own histories within that of the chain *)
Definition cred_txs (tr : list ChainTx) : list Tx :=
  omap (λ x, match x with OnCredentials ctx ids m => Some (mkTx ctx ids m) | OnVoting _ _ => None end) tr.
Definition creds_after (tr : list ChainTx) : CredStore := cr_store (ch_cred (chain_run tr)).
Definition polls_after_chain (tr : list ChainTx) : VotStore := vt_store (ch_vot (chain_run tr)).

Lemma chain_run_snoc tr x : chain_run (tr ++ [x]) = chain_apply (chain_run tr) x.
Proof. unfold chain_run. by rewrite foldl_app. Qed.
Lemma chain_cred tr : ch_cred (chain_run tr) = cred_run cred_authority (cred_txs tr) cred_genesis.
Proof.
  induction tr as [|x tr IH] using rev_ind; [done|]. rewrite chain_run_snoc. unfold cred_txs. rewrite omap_app. fold (cred_txs tr).
  destruct x as [ctx ids m|ctx m]; cbn [omap list_omap chain_apply ch_cred].
  - by rewrite cred_run_snoc, IH.
  - by rewrite app_nil_r.
Qed.
Lemma chain_creds_evolve tr tr' : evolves (creds_after tr) (creds_after (tr ++ tr')).
Proof.
  unfold creds_after. rewrite !chain_cred. unfold cred_txs. rewrite omap_app. apply cred_evolves.
Qed.
(** every voting transaction saw the credentials of some moment before *)
Lemma chain_votes tr : ∃ vtr, ch_vot (chain_run tr) = vot_run k vtr vot_genesis ∧
  ∀ x, x ∈ vtr → evolves (vx_creds x) (creds_after tr).
Proof.
  induction tr as [|x tr (vtr & E & Hc)] using rev_ind; [exists []; split; [done|set_solver]|].
  assert (∀ y, y ∈ vtr → evolves (vx_creds y) (creds_after (tr ++ [x]))) as Hc'.
  { intros y Hy. etrans; [by apply Hc|apply chain_creds_evolve]. }
  rewrite chain_run_snoc. destruct x as [ctx ids m|ctx m]; cbn [chain_apply ch_vot]; [by exists vtr|].
  exists (vtr ++ [mkVoteTx ctx (creds_after tr) m]). split; [by rewrite vot_run_app, E|].
  intros y [Hy| ->%list_elem_of_singleton]%elem_of_app; [by apply Hc'|]. apply chain_creds_evolve.
Qed.
(** the template an election was opened for, as it was then *)
Lemma elections_opened {C} `{TemplateReader C} (vtr : list (@VoteTx C)) eid e :
  GetElection (vot_after k vtr) eid = Some e →
  ∃ x t, x ∈ vtr ∧ electoral_roll (vx_creds x) (el_RequiredTemplateId e) t ∧ el_RequiredIssuerDid e = t_OwnerDid t.
Proof.
  revert vtr eid e. apply (vote_history_ind k (λ vtr st, ∀ eid e, GetElection st eid = Some e → ∃ x t, x ∈ vtr ∧
    electoral_roll (vx_creds x) (el_RequiredTemplateId e) t ∧ el_RequiredIssuerDid e = t_OwnerDid t)); [done| |].
  - intros vtr x st IH eid e Hg. destruct (IH eid e Hg) as (x0 & t & Hin & R). exists x0, t. split; [set_solver|done].
  - intros vtr x st st' IH _ _ Hr.
    assert (∀ eid e e', GetElection st eid = Some e → el_RequiredTemplateId e' = el_RequiredTemplateId e →
      el_RequiredIssuerDid e' = el_RequiredIssuerDid e → ∃ x0 t, x0 ∈ vtr ++ [x] ∧
      electoral_roll (vx_creds x0) (el_RequiredTemplateId e') t ∧ el_RequiredIssuerDid e' = t_OwnerDid t) as Hold.
    { intros eid e e' Hg -> ->. destruct (IH eid e Hg) as (x0 & t & Hin & R). exists x0, t. split; [set_solver|done]. }
    intros eid e Hg. destruct Hr as [m st t Hn Ho Hw Hroll Hi|m st e1 tally _ Hg1|m st e1 Hg1|m st e1 Hg1|m st];
      [..|by eapply Hold]; unfold GetElection, SetElection in Hg; cbn in Hg;
      apply lookup_insert_Some in Hg as [[_ <-]|[_ Hg]]; try by eapply Hold.
    exists x, t. split; [set_solver|done].
Qed.

(** C32: the electorate of an election is fixed when it is opened.  After any interleaving of
    credentials and voting transactions, the template an election names is still on the
    chain, belongs to the issuer recorded with the election and carries an issuer key; and
    every ballot of the election was cast with a proof that verifies against the very key
    the template carries now.  So no later transaction of x/credentials changes who could
    vote, nor can it stop the election from accepting ballots. *)
Theorem electorate_is_fixed tr eid e :
  GetElection (polls_after_chain tr) eid = Some e →
  ∃ t, GetTemplate (creds_after tr) (el_RequiredTemplateId e) = Some t ∧ t_OwnerDid t = el_RequiredIssuerDid e ∧
    0 < strlen (t_IssuerBbsPubkey t) ∧
    ∀ b, b ∈ IterateBallots (polls_after_chain tr) → bl_ElectionId b = eid →
      ∃ proof chainID, VerifyDerivationVote proof (t_IssuerBbsPubkey t) chainID eid (bl_Nullifier b)
        (voteSignal (bl_OptionIndex b)) = true.
Proof.
  unfold polls_after_chain. destruct (chain_votes tr) as (vtr & -> & Hc). fold (vot_after k vtr). intros Hg.
  destruct (elections_opened vtr eid e Hg) as (x & t0 & Hx & [Ht0 Hk0] & Ho).
  destruct (ev_templates _ _ (Hc x Hx) _ _ Ht0) as (t & Ht & Hto & Htk & _).
  exists t. rewrite Htk, Hto. split_and!; [done|done|done|]. intros b Hb <-.
  apply (elem_of_values _ _ _ (ballots_filed k vtr)) in Hb.
  destruct (po_ballots _ _ (polls_after k vtr) _ _ Hb) as [_ _ (e' & Hg' & _ & y & m & Hy & _ & _ & _ & _ & _ & _ & t1 & [Ht1 _] & Hv)].
  assert (e' = e) as -> by congruence. destruct (ev_templates _ _ (Hc y Hy) _ _ Ht1) as (t' & Ht' & _ & Htk' & _).
  assert (t' = t) as -> by congruence. exists (cv_EligibilityProof m), (ChainID (vx_ctx y)).
  by rewrite <- Htk, Htk'.
Qed.
End chain.

(** a proof is the concatenation of what it proves *)
Definition cat_votes : VoteVerifier :=
  {| VerifyDerivationVote proof key chain eid n signal := bool_decide (proof = key +:+ chain +:+ eid +:+ n +:+ signal) |}.
Definition point (c : string) : string := Nat.iter 48 (String.append c) "".
Definition sound_keeper : VotKeeper := mkVotKeeper "gov" true voting_snark.
Definition default_keeper : VotKeeper := mkVotKeeper "gov" (VotingSoundnessEnforced default_build) default_build.

Definition poll : VotMsg :=
  MCreateElection (mkMsgCreateElection "carol" "poll" "Lunch" ["pizza"; "soup"] "phi.kyc.v1" "" 0 5000).
Definition cast (n : string) (i : N) : VotMsg :=
  MCastVote (mkMsgCastVote "anyone" "poll" i n ("bbs-key" +:+ "phi-1" +:+ "poll" +:+ n +:+ voteSignal i)).
Definition poll_chain : list (ChainTx (I:=IdStore)) :=
  [OnCredentials (at_second 10) cred_ids demo_template; OnVoting (at_second 20) poll;
   OnVoting (at_second 30) (cast (point "a") 1); OnVoting (at_second 31) (cast (point "b") 1);
   OnVoting (at_second 32) (cast (point "a") 0);
   OnCredentials (at_second 40) cred_ids (MUpdateTemplate (mkMsgUpdateTemplate "alice" "phi.kyc.v1" "schema2" "KYC" 4 [1]))].
Definition poll_votes : list (VoteTx (C:=CredStore)) :=
  let creds := demo_after [tx 10 demo_template] in
  [mkVoteTx (at_second 20) creds poll; mkVoteTx (at_second 30) creds (cast (point "a") 1);
   mkVoteTx (at_second 31) creds (cast (point "b") 1); mkVoteTx (at_second 32) creds (cast (point "a") 0)].
Abbreviation demo_polls k tr := (@vot_after CredStore store_templates plain_codec cat_votes k tr).

Definition lunch (tallies : list Z) (total : Z) : Election :=
  mkElection "poll" "carol" "Lunch" ["pizza"; "soup"] "phi.kyc.v1" "did:phi:a" 20 5000 ELECTION_STATUS_OPEN tallies total 20.

Definition open_poll : VotStore := mkVotStore None {["poll" := lunch [0; 0] 0]} ∅.
Definition one_ballot : VotStore :=
  SetElection (counted 1 0 (lunch [0; 0] 0)) (SetBallot (mkBallot "poll" (point "a") 1 30) open_poll).
Lemma voting_rules_witness :
  ∃ s', vot_handle (H:=store_templates) (H0:=plain_codec) (H1:=cat_votes) sound_keeper (at_second 30)
          (demo_after [tx 10 demo_template]) (cast (point "a") 1) (mkVotState open_poll []) = (Ok tt, s') ∧
        vt_store s' = one_ballot.
Proof.
  refine (proj2 (@voting_refines_rules CredStore store_templates plain_codec cat_votes sound_keeper (at_second 30)
    (demo_after [tx 10 demo_template]) (cast (point "a") 1) (mkVotState open_poll []) one_ballot _) _).
  - intros eid e Hg. unfold GetElection in Hg. cbn [vt_store v_elections open_poll] in Hg.
    apply lookup_singleton_Some in Hg as [_ <-]. split; [by vm_compute|].
    repeat (apply Forall_cons; split; [by vm_compute|]). apply Forall_nil_2.
  - split; [vm_compute; reflexivity|]. unfold cast, one_ballot. cbn [vt_store].
    apply (rule_cast sound_keeper (at_second 30) (demo_after [tx 10 demo_template])
      (mkMsgCastVote "anyone" "poll" 1 (point "a") _) open_poll (lunch [0; 0] 0) 0);
      [done|vm_compute; reflexivity|done|cbn; lia|cbn; lia|done|by vm_compute|done|vm_compute; reflexivity| |done|done].
    eexists. split; [split; vm_compute; reflexivity|vm_compute; reflexivity].
Defined.
Lemma result_witness :
  lunch [0; 2] 2 = lunch [0; 2] (ballots_for (demo_polls sound_keeper poll_votes) "poll") ∧
  votes_for (demo_polls sound_keeper poll_votes) "poll" 1 = 2.
Proof.
  destruct (@result_counts_ballots CredStore store_templates plain_codec cat_votes sound_keeper poll_votes "poll" (lunch [0; 2] 2)
    ltac:(vm_compute; reflexivity)) as (Ht & _ & _ & Hv & _). cbn [lunch el_TotalVotes] in Ht. rewrite <- Ht. split; [done|].
  pose proof (Hv 1%nat ltac:(cbn; lia)) as E. cbn in E. congruence.
Defined.
Lemma final_witness :
  ∃ e', GetElection (demo_polls sound_keeper (poll_votes ++ [mkVoteTx (at_second 50) empty_cred (MCloseElection (mkMsgCloseElection "carol" "poll"))]))
          "poll" = Some e' ∧ same_poll (lunch [0; 2] 2) e' ∧ 2 ≤ el_TotalVotes e'.
Proof.
  destruct (@votes_are_final CredStore store_templates plain_codec cat_votes sound_keeper poll_votes
    [mkVoteTx (at_second 50) empty_cred (MCloseElection (mkMsgCloseElection "carol" "poll"))] "poll" (lunch [0; 2] 2)
    ltac:(vm_compute; reflexivity)) as (_ & e' & Hg & Hp & Ht & _).
  exists e'. split; [exact Hg|]. split; [exact Hp|exact Ht].
Defined.
Lemma unsound_witness : v_ballots (demo_polls default_keeper poll_votes) = ∅.
Proof.
  refine (proj1 (@unsound_build_counts_nothing CredStore store_templates plain_codec cat_votes default_keeper poll_votes "poll"
    (lunch [0; 0] 0) _ _)); vm_compute; reflexivity.
Defined.
Abbreviation demo_chain_polls := (@polls_after_chain IdStore registry_documents plain_codec id_hasher cat_verifier cat_votes "gov" sound_keeper).
Lemma electorate_witness :
  ∃ t, GetTemplate (@creds_after IdStore registry_documents plain_codec id_hasher cat_verifier cat_votes "gov" sound_keeper poll_chain)
         "phi.kyc.v1" = Some t ∧ t_OwnerDid t = "did:phi:a" ∧ t_Version t = 2.
Proof.
  destruct (@electorate_is_fixed IdStore registry_documents plain_codec id_hasher cat_verifier cat_votes "gov" sound_keeper
    poll_chain "poll" (lunch [0; 2] 2) ltac:(vm_compute; reflexivity)) as (t & Ht & Ho & _).
  exists t. split_and!; [done|done|]. vm_compute in Ht. injection Ht as <-. done.
Defined.
Lemma vot_roundtrip_witness :
  Vot_InitGenesis (Vot_ExportGenesis (demo_polls sound_keeper poll_votes)) (mkVotStore None ∅ ∅) =
  (Ok tt, demo_polls sound_keeper poll_votes).
Proof.
  refine (proj2 (@vot_genesis_roundtrip CredStore store_templates plain_codec cat_votes sound_keeper poll_votes _)).
  intros eid e Hg. assert (map_Forall (λ _ e, el_VotingStart e = 20) (v_elections (demo_polls sound_keeper poll_votes))) as Hall.
  { apply map_Forall_to_list. vm_compute. repeat constructor. }
  rewrite (Hall eid e Hg). done.
Defined.

(** An election that starts before the epoch makes the exported genesis unusable.  Anyone
    may open an election with a start of -1: the message passes validation, the handler
    accepts it although its window lies in the past, and from then on the genesis the chain
    exports fails its own validation and importing it panics. *)
Theorem negative_start_blocks_import :
  ∃ m, let tr := [mkVoteTx (at_second 1700000000) (demo_after [tx 10 demo_template]) (MCreateElection m)] in
    ce_Creator m = "mallory" ∧ ce_VotingEnd m < 1700000000 ∧
    VotMsg_ValidateBasic (H:=plain_codec) (MCreateElection m) = Ok tt ∧
    HasElection (demo_polls default_keeper tr) (ce_Id m) = true ∧
    VotGenesis_Validate (Vot_ExportGenesis (demo_polls default_keeper tr)) = Err (Plain "election has negative voting_start") ∧
    fst (Vot_InitGenesis (Vot_ExportGenesis (demo_polls default_keeper tr)) (mkVotStore None ∅ ∅)) = Panic "genesis".
Proof.
  exists (mkMsgCreateElection "mallory" "x" "x" ["a"; "b"] "phi.kyc.v1" "" (-1) 3600).
  cbv zeta. split_and!; vm_compute; reflexivity.
Qed.
