(* ===== verification/AnteFee.v ===== *)
(** * The ante chain: gas ceiling and fixed fee

    [app/ante/fee.go]: the per-transaction gas ceiling and the fixed fee, with its routing
    to the validators and the company, the daily exemption of small transfers and fee
    grants.  The coin keeper is the one of x/coin; the bank, the account keeper and the
    fee grants are those of the SDK. *)
From stdpp Require Import base gmap strings list.
From Stdlib Require Import ZArith Lia.
From S2P Require Import Prelude GoInt KVStore Interfaces CoinTypes CoinAge CoinKeeper InstTypes InstKeeper.

(** ** The transaction and the SDK keepers *)
Record FeeTx := mkFeeTx {
  ftx_Gas : Z; ftx_FeePayer : string; ftx_FeeGranter : option string; ftx_Msgs : list sdk_Msg }.

Class AccountReader (A : Type) := {
  GetModuleAddress : A → string → option string;
  HasAccount : A → string → bool }.
(** granter, grantee, fee, messages *)
Class FeegrantKeeper (F : Type) := { UseGrantedFees : string → string → Z → list sdk_Msg → M F unit }.

Definition ErrTxNotFeeTx : error := Registered "sdk" 2.
Definition ErrSDKInsufficientFunds : error := Registered "sdk" 5.
Definition ErrUnknownAddress : error := Registered "sdk" 9.
Definition ErrInvalidGasLimit : error := Registered "sdk" 41.

(** ** The gas ceiling *)
Definition MaxTxGas : Z := 2000000.
(** [None] is a transaction that does not implement [sdk.FeeTx] *)
Definition MaxGas_AnteHandle {S A} (tx : option FeeTx) (simulate : bool) (next : M S A) : M S A :=
  feeTx ← or_fail tx ErrTxNotFeeTx;
  fail_if (negb simulate && (MaxTxGas <? ftx_Gas feeTx)) ErrInvalidGasLimit;;
  next.

(** ** The fixed fee *)
Record FeeState (B F : Type) := mkFeeState {
  fe_bank : B; fe_coin : CoinStore; fe_grants : F; fe_events : list Event }.
Arguments mkFeeState {B F}. Arguments fe_bank {B F}. Arguments fe_coin {B F}.
Arguments fe_grants {B F}. Arguments fe_events {B F}.

Section fee.
Context {B F A I : Type} `{BankKeeper B} `{FeegrantKeeper F} `{AccountReader A} `{IdentityKeeper I} `{AddressCodec}.
Context (accounts : A) (ident : option I).
Abbreviation St := (FeeState B F).

Definition fee_bank {X} : M B X → M St X := zoom fe_bank (λ b s, mkFeeState b (fe_coin s) (fe_grants s) (fe_events s)).
Definition fee_coin {X} : M CoinStore X → M St X := zoom fe_coin (λ c s, mkFeeState (fe_bank s) c (fe_grants s) (fe_events s)).
Definition fee_grants {X} : M F X → M St X := zoom fe_grants (λ g s, mkFeeState (fe_bank s) (fe_coin s) g (fe_events s)).
Definition fee_emit (e : Event) : M St unit :=
  modify (λ s, mkFeeState (fe_bank s) (fe_coin s) (fe_grants s) (fe_events s ++ [e])).

(** [sdk.Coins.String] for the one denomination: the empty set prints as nothing *)
Definition coins_string (amount : Z) : string := if amount =? 0 then "" else Int_String amount +:+ "uphi".
Definition leg_event (leg : RevenueLeg) : Event :=
  mkEvent "revenue_collected"
    [("stream", leg_Stream leg); ("msg_type", leg_MsgTypeURL leg); ("amount", Int_String (leg_Amount leg))].

(** who pays; [enabled] is whether the fee grant keeper is set *)
Definition fee_source (enabled : bool) (tx : FeeTx) (required : Z) : M St string :=
  match ftx_FeeGranter tx with
  | Some granter =>
      if IsPositive required then
        fail_if (negb enabled) ErrInvalidRequest;;
        (if bool_decide (granter = ftx_FeePayer tx) then mret tt
         else fee_grants (UseGrantedFees granter (ftx_FeePayer tx) required (ftx_Msgs tx)));;
        mret granter
      else mret (ftx_FeePayer tx)
  | None => mret (ftx_FeePayer tx)
  end.
(** one leg of the routing; an error of the send is [ErrInsufficientFunds] *)
Definition pay_leg (from module : string) (amount : Z) : M St unit :=
  if IsPositive amount then
    coins ← lift (CoinsOf amount);
    sent ← attempt (fee_bank (SendCoinsFromAccountToModule from module coins));
    match sent with inl _ => mret tt | inr _ => fail ErrSDKInsufficientFunds end
  else mret tt.

Definition FixedFee_AnteHandle (ctx : Context) (isCheckTx simulate enabled : bool) (tx : option FeeTx) (next : M St unit)
  : M St unit :=
  feeTx ← or_fail tx ErrTxNotFeeTx;
  fail_if (bool_decide (GetModuleAddress accounts FeeCollectorName = None)) (Plain "fee collector module account has not been set");;
  let payer := AccAddress_String (ftx_FeePayer feeTx) in
  exempt ← fee_coin (query (IsMicroExempt ctx ident payer (ftx_Msgs feeTx)));
  split ← (if exempt : bool then mret NewFeeSplit
           else fee_coin (query (λ st, ComputeFeeSplit st (ftx_Msgs feeTx))));
  let required := fs_Total split in
  feeCoins ← lift (CoinsOf required);
  deductFrom ← fee_source enabled feeTx feeCoins;
  fail_if (negb (HasAccount accounts deductFrom)) ErrUnknownAddress;;
  (if IsPositive required then
     pay_leg deductFrom FeeCollectorName (fs_Validator split);;
     pay_leg deductFrom RevenueAccountName (fs_Company split)
   else mret tt);;
  fee_emit (mkEvent "tx" [("fee", coins_string feeCoins); ("fee_payer", AccAddress_String deductFrom)]);;
  for_each (fs_Legs split) (λ leg, fee_emit (leg_event leg));;
  (if exempt && negb simulate && negb isCheckTx then fee_coin (ConsumeMicroExemption ctx ident payer) else mret tt);;
  next.

(** ** What is charged *)
Section spec.
Context `{!BankLaws B}.

(** [from] pays [v] to the fee collector and [c] to the company's revenue account *)
Definition routed (b b' : B) (from : string) (v c : Z) : Prop :=
  GetSupply b' = GetSupply b ∧
  ∀ x, GetBalance b' x = GetBalance b x - delta x from (v + c) + delta x (ModuleAddress FeeCollectorName) v
    + delta x (ModuleAddress RevenueAccountName) c.
Lemma delta_add x a m n : delta x a (m + n) = delta x a m + delta x a n.
Proof. unfold delta. case_bool_decide; lia. Qed.
Lemma delta_0 x a : delta x a 0 = 0.
Proof. unfold delta. by case_bool_decide. Qed.
Lemma pay_leg_Ok from m amt s s' : 0 ≤ amt → pay_leg from m amt s = (Ok tt, s') →
  (fe_coin s' = fe_coin s ∧ fe_grants s' = fe_grants s ∧ fe_events s' = fe_events s) ∧
  GetSupply (fe_bank s') = GetSupply (fe_bank s) ∧
  ∀ x, GetBalance (fe_bank s') x = GetBalance (fe_bank s) x - delta x from amt + delta x (ModuleAddress m) amt.
Proof.
  intros Ha. unfold pay_leg, IsPositive. destruct (Z.ltb_spec 0 amt) as [Hp|Hp]; intros E.
  - unfold CoinsOf in E. rewrite (proj2 (Z.ltb_ge _ _) Ha) in E. go_inv.
    match goal with o : (() + error)%type |- _ => destruct o; go_inv end.
    unfold fee_bank, SendCoinsFromAccountToModule in *. go_inv. match goal with u : unit |- _ => destruct u end.
    match goal with H : SendCoins _ _ _ _ = _ |- _ => apply send_law in H as [Hs Hb]; [|done] end. done.
  - go_inv. assert (amt = 0) as -> by lia. split_and!; [done..|]. intros x. rewrite !delta_0. lia.
Qed.
Lemma fee_source_Ok enabled tx required s d s' : fee_source enabled tx required s = (Ok d, s') →
  fe_bank s' = fe_bank s ∧ fe_coin s' = fe_coin s ∧ fe_events s' = fe_events s ∧
  (d = ftx_FeePayer tx ∨ ftx_FeeGranter tx = Some d ∧ 0 < required ∧
     (d = ftx_FeePayer tx ∨ UseGrantedFees d (ftx_FeePayer tx) required (ftx_Msgs tx) (fe_grants s) = (Ok tt, fe_grants s'))).
Proof.
  unfold fee_source, IsPositive. intros E. destruct (ftx_FeeGranter tx) as [g|] eqn:Hg; [|go_inv; auto].
  destruct (Z.ltb_spec 0 required); [|go_inv; auto]. go_inv. case_bool_decide as Hgp; go_inv.
  - split_and!; auto.
  - unfold fee_grants in *. go_inv. match goal with u : unit |- _ => destruct u end. split_and!; [done..|]. right. auto.
Qed.
Lemma emit_legs l s s' : for_each l (λ leg, fee_emit (leg_event leg)) (s : FeeState B F) = (Ok tt, s') →
  fe_bank s' = fe_bank s ∧ fe_coin s' = fe_coin s ∧ fe_grants s' = fe_grants s ∧ fe_events s' = fe_events s ++ (leg_event <$> l).
Proof.
  revert s. induction l as [|leg l IH]; intros s; cbn [for_each]; intros E; go_inv; [by rewrite app_nil_r|].
  unfold fee_emit in *. go_inv. match goal with H : for_each _ _ _ = _ |- _ => apply IH in H as (-> & -> & -> & ->) end.
  cbn [fe_bank fe_coin fe_grants fe_events]. rewrite <- app_assoc. done.
Qed.

Lemma charge_Ok split d s s' : split_balanced split →
  (if IsPositive (fs_Total split) then
     pay_leg d FeeCollectorName (fs_Validator split);; pay_leg d RevenueAccountName (fs_Company split)
   else mret tt) s = (Ok tt, s') →
  (fe_coin s' = fe_coin s ∧ fe_grants s' = fe_grants s ∧ fe_events s' = fe_events s) ∧
  routed (fe_bank s) (fe_bank s') d (fs_Validator split) (fs_Company split).
Proof.
  intros (Hsum & Hv & Hc & _) E. unfold IsPositive, routed in *. destruct (Z.ltb_spec 0 (fs_Total split)); go_inv.
  - repeat match goal with u : unit |- _ => destruct u end.
    repeat match goal with H : pay_leg _ _ _ _ = _ |- _ => apply pay_leg_Ok in H as ((? & ? & ?) & ? & ?); [|done] end.
    split_and!; [congruence..|]. intros x. rewrite delta_add. repeat match goal with H : ∀ _, GetBalance _ _ = _ |- _ => rewrite H end. lia.
  - assert (fs_Validator split = 0) as -> by lia. assert (fs_Company split = 0) as -> by lia.
    split_and!; [done..|]. intros x. rewrite !delta_0. lia.
Qed.
Lemma NewFeeSplit_balanced : split_balanced NewFeeSplit.
Proof. by split_and!. Qed.
Lemma CoinsOf_Ok z c : CoinsOf z = Ok c → c = z.
Proof. unfold CoinsOf. case_match; intros; by simplify_eq. Qed.

(** what a charged or exempt transaction leaves, and the events that tell *)
Definition fee_charged (ctx : Context) (isCheckTx simulate : bool) (tx : FeeTx) (s s' : St) (log : list Event) : Prop :=
  ∃ exempt d,
    IsMicroExempt ctx ident (AccAddress_String (ftx_FeePayer tx)) (ftx_Msgs tx) (fe_coin s) = Ok exempt ∧ HasAccount accounts d = true ∧
    (if exempt : bool then
       routed (fe_bank s) (fe_bank s') d 0 0 ∧ d = ftx_FeePayer tx ∧
       (if simulate || isCheckTx then fe_coin s' = fe_coin s
        else ConsumeMicroExemption ctx ident (AccAddress_String (ftx_FeePayer tx)) (fe_coin s) = (Ok tt, fe_coin s'))
     else ∃ out, ComputeFeeSplit (fe_coin s) (ftx_Msgs tx) = Ok out ∧ split_balanced out ∧
       routed (fe_bank s) (fe_bank s') d (fs_Validator out) (fs_Company out) ∧ fe_coin s' = fe_coin s ∧
       (d = ftx_FeePayer tx ∨ ftx_FeeGranter tx = Some d ∧
          (d = ftx_FeePayer tx ∨
           UseGrantedFees d (ftx_FeePayer tx) (fs_Total out) (ftx_Msgs tx) (fe_grants s) = (Ok tt, fe_grants s'))) ∧
       log = mkEvent "tx" [("fee", coins_string (fs_Total out)); ("fee_payer", AccAddress_String d)] :: (leg_event <$> fs_Legs out)).
Lemma fixed_fee_Ok ctx isCheckTx simulate enabled tx next s s'' :
  coin_wf (fe_coin s) →
  FixedFee_AnteHandle ctx isCheckTx simulate enabled (Some tx) next s = (Ok tt, s'') →
  ∃ s' log, next s' = (Ok tt, s'') ∧ fe_events s' = fe_events s ++ log ∧ fee_charged ctx isCheckTx simulate tx s s' log.
Proof.
  intros Hwf. unfold FixedFee_AnteHandle. intros E. go_inv. repeat match goal with u : unit |- _ => destruct u end.
  rename select (fee_coin (query (IsMicroExempt _ _ _ _)) _ = _) into Hex. unfold fee_coin in Hex at 1. go_inv.
  rename select (for_each _ _ _ = _) into Hl. apply emit_legs in Hl as (Eb1 & Ec1 & Eg1 & Ee1).
  rename select (fee_emit _ _ = _) into Hem. unfold fee_emit in Hem. go_inv.
  rename select (fee_source _ _ _ _ = _) into Hd. apply fee_source_Ok in Hd as (Eb2 & Ec2 & Ee2 & Hd).
  rename select (CoinsOf _ = _) into Hco. apply CoinsOf_Ok in Hco as ->.
  rename select (negb (HasAccount _ _) = false) into Ha. apply negb_false_iff in Ha.
  rename select (IsMicroExempt _ _ _ _ _ = Ok _) into Hex. rename select (next _ = _) into Hnext.
  match goal with H : (if IsPositive (fs_Total ?sp) then _ else _) _ = (Ok _, _) |- _ => rename sp into split, H into Hch end.
  match goal with H : (if ?b && _ && _ then _ else _) _ = (Ok _, _) |- _ => rename b into exempt, H into Hq end.
  destruct exempt; cbn [andb] in *.
  - go_inv. apply (charge_Ok NewFeeSplit) in Hch as ((Ec3 & Eg3 & Ee3) & Hr); [|apply NewFeeSplit_balanced].
    destruct (negb simulate && negb isCheckTx) eqn:Hm; go_inv; [unfold fee_coin in Hq; go_inv|]; cbn [fe_bank fe_coin fe_events] in *;
      (eexists _, _; split_and!; [done|cbn [fe_events]; rewrite Ee1, Ee3, Ee2, <- app_assoc; done|]; eexists true, _;
       split_and!; [done|done|by cbn [fe_bank]; rewrite Eb1, <- Eb2|by destruct Hd as [?|(_ & ? & _)]|]);
      destruct simulate, isCheckTx; cbn [andb negb orb fe_coin] in *; congruence.
  - rename select (fee_coin (query _) _ = _) into Hsp. unfold fee_coin in Hsp. go_inv. rename select (ComputeFeeSplit _ _ = _) into Hsp.
    pose proof (ComputeFeeSplit_balanced _ _ _ Hwf Hsp) as Hbal.
    apply charge_Ok in Hch as ((Ec3 & Eg3 & Ee3) & Hr); [|done]. cbn in *.
    eexists _, _. split_and!; [done|by rewrite Ee1, Ee3, Ee2, <- app_assoc|]. eexists false, _. split_and!; [done|done|].
    eexists. split_and!; [done|done| |congruence| |done].
    + by rewrite Eb1, <- Eb2.
    + destruct Hd as [?|(? & ? & Hu)]; [by left|right]. split; [done|]. destruct Hu; [by left|right]. congruence.
Qed.

(** C24: the fixed fee is charged exactly, once, to one account.  When the fee decorator lets a
    transaction through, then either it is exempt, no balance changes, and in a delivered
    transaction one use of the payer's daily quota is recorded; or the account that pays,
    which is the fee payer or a granter whose grant covered the fee, loses exactly the fee
    the messages cost, of which the validators' and the company's shares arrive in full.
    The supply never changes, and the events name every share. *)
Theorem fixed_fee_exact ctx isCheckTx simulate enabled tx next s s'' :
  coin_wf (fe_coin s) →
  FixedFee_AnteHandle ctx isCheckTx simulate enabled (Some tx) next s = (Ok tt, s'') →
  ∃ s' exempt d,
    IsMicroExempt ctx ident (AccAddress_String (ftx_FeePayer tx)) (ftx_Msgs tx) (fe_coin s) = Ok exempt ∧
    next s' = (Ok tt, s'') ∧ HasAccount accounts d = true ∧
    (if exempt then
       routed (fe_bank s) (fe_bank s') d 0 0 ∧ d = ftx_FeePayer tx ∧
       (if simulate || isCheckTx then fe_coin s' = fe_coin s
        else ConsumeMicroExemption ctx ident (AccAddress_String (ftx_FeePayer tx)) (fe_coin s) = (Ok tt, fe_coin s'))
     else ∃ out, ComputeFeeSplit (fe_coin s) (ftx_Msgs tx) = Ok out ∧ split_balanced out ∧
       routed (fe_bank s) (fe_bank s') d (fs_Validator out) (fs_Company out) ∧ fe_coin s' = fe_coin s ∧
       (d = ftx_FeePayer tx ∨ ftx_FeeGranter tx = Some d ∧
          (d = ftx_FeePayer tx ∨
           UseGrantedFees d (ftx_FeePayer tx) (fs_Total out) (ftx_Msgs tx) (fe_grants s) = (Ok tt, fe_grants s'))) ∧
       fe_events s' = fe_events s ++ mkEvent "tx" [("fee", coins_string (fs_Total out)); ("fee_payer", AccAddress_String d)]
         :: (leg_event <$> fs_Legs out)).
Proof.
  intros Hwf E. destruct (fixed_fee_Ok _ _ _ _ _ _ _ _ Hwf E) as (s' & log & Hn & He & exempt & d & Hx & Ha & Hif).
  exists s', exempt, d. split_and!; [done..|]. destruct exempt; [done|]. destruct Hif as (out & ? & ? & ? & ? & ? & ->).
  exists out. by split_and!.
Qed.
End spec.
End fee.

(** ** The ante chain: governance parameters

    [app/ante/gov_params.go]: a transaction that would arm the burning of governance
    deposits, directly or inside a proposal at any depth, is refused while an institution's
    vault holds value.  It is the half of the protection that works at ingress; the other
    half, at the burn itself, is [govBurnGuard_BurnCoins]. *)
(** the fields of x/gov's parameters that decide about deposits *)
Record GovV1Params := mkGovV1Params {
  BurnVoteVeto : bool; BurnVoteQuorum : bool; BurnProposalDepositPrevote : bool; ProposalCancelDest : string }.
(** the messages the decorator tells apart; a proposal whose messages do not unpack has none *)
Inductive GovTxMsg :=
| SubmitProposal (inner : option (list GovTxMsg))
| UpdateGovParams (p : GovV1Params)
| OtherTxMsg.

Definition enablesDepositBurn (p : GovV1Params) : bool :=
  BurnVoteVeto p || BurnVoteQuorum p || BurnProposalDepositPrevote p || bool_decide (ProposalCancelDest p = "").

Fixpoint gov_check (st : InstStore) (m : GovTxMsg) : outcome unit :=
  match m with
  | SubmitProposal None => Ok tt
  | SubmitProposal (Some inner) =>
      (fix loop (l : list GovTxMsg) : outcome unit :=
         match l with [] => Ok tt | im :: l' => gov_check st im;; loop l' end) inner
  | UpdateGovParams p =>
      if enablesDepositBurn p then
        sum ← SumVaultBalance st;
        err_if (IsPositive sum) ErrInvalidRequest
      else Ok tt
  | OtherTxMsg => Ok tt
  end.
Definition RejectUnsafeGovParams_AnteHandle {S A} (view : S → InstStore) (msgs : list GovTxMsg) (next : M S A) : M S A :=
  for_each msgs (λ m, query (λ s, gov_check (view s) m));; next.

(** ** What it refuses *)
(** [m] carries the parameters [p], itself or in a proposal *)
Inductive carries (p : GovV1Params) : GovTxMsg → Prop :=
| carries_here : carries p (UpdateGovParams p)
| carries_inside inner m : m ∈ inner → carries p m → carries p (SubmitProposal (Some inner)).

Section gov_ind.
Variable P : GovTxMsg → Prop.
Hypothesis Hn : P (SubmitProposal None).
Hypothesis Hs : ∀ l, Forall P l → P (SubmitProposal (Some l)).
Hypothesis Hu : ∀ p, P (UpdateGovParams p).
Hypothesis Ho : P OtherTxMsg.
Fixpoint gov_tree_ind (m : GovTxMsg) : P m :=
  match m with
  | SubmitProposal None => Hn
  | SubmitProposal (Some l) => Hs l
      ((fix go (l : list GovTxMsg) : Forall P l :=
          match l with [] => Forall_nil_2 P | m :: l' => Forall_cons_2 P m l' (gov_tree_ind m) (go l') end) l)
  | UpdateGovParams p => Hu p
  | OtherTxMsg => Ho
  end.
End gov_ind.

Lemma gov_check_spec st sum m : SumVaultBalance st = Ok sum →
  gov_check st m = Ok tt ↔ sum ≤ 0 ∨ ∀ p, carries p m → enablesDepositBurn p = false.
Proof.
  intros Hsum. induction m as [|l IH|p|] using gov_tree_ind; cbn [gov_check].
  - split; [|done]. right. inversion 1.
  - assert (∀ m, (sum ≤ 0 ∨ ∀ p, carries p m → enablesDepositBurn p = false) ↔
      (0 < sum → ∀ p, carries p m → enablesDepositBurn p = false)) as Hor.
    { intros m. destruct (decide (sum ≤ 0)); [split; [lia|by left]|]. split; [by intros [?|?]; [lia|]|]. right. apply H; lia. }
    rewrite Hor. induction IH as [|m l Hm Hl IHl].
    { split; [|done]. intros _ _ p. inversion 1. set_solver. }
    rewrite obind_Ok. split.
    + intros ([] & E1 & E2) Hpos p Hc. inversion Hc as [|? m' Hin Hc']; subst. apply elem_of_cons in Hin as [->|Hin].
      * by apply (proj1 (Hor m) (proj1 Hm E1)).
      * apply (proj1 IHl E2 Hpos p). by eapply carries_inside.
    + intros Hall. exists tt. split.
      * apply Hm, Hor. intros Hpos p Hc. apply Hall; [done|]. eapply carries_inside; [left|done].
      * apply IHl. intros Hpos p Hc. apply Hall; [done|]. inversion Hc; subst. eapply carries_inside; [by right|done].
  - destruct (enablesDepositBurn p) eqn:Hp.
    + rewrite Hsum. cbn [mbind outcome_bind]. rewrite err_if_Ok. unfold IsPositive. rewrite Z.ltb_ge. split; [by left|].
      intros [?|Hall]; [done|]. specialize (Hall p (carries_here p)). congruence.
    + split; [|done]. intros _. right. intros p' Hc. by inversion Hc; subst.
  - split; [|done]. right. inversion 1.
Qed.

(** Deposits cannot be set to burn while vaults hold value.  The decorator passes a
    transaction on exactly when the vaults are empty or none of its messages, directly or in
    a proposal nested to any depth, carries governance parameters that burn deposits. *)
Theorem gov_params_guard_decides {S A} (view : S → InstStore) msgs (next : M S A) s sum a s' :
  SumVaultBalance (view s) = Ok sum →
  RejectUnsafeGovParams_AnteHandle view msgs next s = (Ok a, s') ↔
  (sum ≤ 0 ∨ ∀ m p, m ∈ msgs → carries p m → enablesDepositBurn p = false) ∧ next s = (Ok a, s').
Proof.
  intros Hsum. unfold RejectUnsafeGovParams_AnteHandle. rewrite bind_Ok.
  assert (∀ s1, for_each msgs (λ m, query (λ s, gov_check (view s) m)) s = (Ok tt, s1) ↔
    s1 = s ∧ (sum ≤ 0 ∨ ∀ m p, m ∈ msgs → carries p m → enablesDepositBurn p = false)) as Hloop.
  { intros s1. induction msgs as [|m l IH]; cbn [for_each].
    { rewrite ret_Ok. split; [intros [_ ->]; split; [done|right; set_solver]|by intros [-> _]]. }
    rewrite bind_Ok. split.
    - intros ([] & s2 & E1 & E2). apply query_Ok in E1 as [E1 ->]. apply IH in E2 as [-> E2]. split; [done|].
      apply (gov_check_spec _ _ _ Hsum) in E1. destruct E1 as [?|E1]; [by left|]. destruct E2 as [?|E2]; [by left|].
      right. intros m' p [->|Hin]%elem_of_cons Hc; [by apply E1|by apply (E2 m')].
    - intros [-> Hall]. exists tt, s. split.
      + apply query_Ok. split; [|done]. apply (gov_check_spec _ _ _ Hsum). destruct Hall as [?|Hall]; [by left|right].
        intros p. apply Hall. left.
      + apply IH. split; [done|]. destruct Hall as [?|Hall]; [by left|right]. intros m' p Hin. apply Hall. by right. }
  split.
  - intros ([] & s1 & E1 & E2). apply Hloop in E1 as [-> Hok]. done.
  - intros [Hok E]. exists tt, s. split; [by apply Hloop|done].
Qed.
