(* ===== verification/AntePasskey.v ===== *)
(** * The ante chain: passkey signatures

    [app/ante/webauthn.go]: the envelope that carries a WebAuthn assertion in the place of a
    signature, the challenge that binds it to the transaction, the governed policy that
    decides when the authenticator must verify its user, and the check of an envelope.  The
    policy and the allowed origins are parameters of x/identity; the assertion itself is
    verified by the phi-crypto port, and the origin in the client data is read by Go's JSON
    decoder. *)
From stdpp Require Import base gmap strings list.
From Stdlib Require Import ZArith Lia Ascii.
From S2P Require Import Prelude GoInt KVStore Interfaces CoinTypes IdTypes IdKeeper.

Definition webAuthnMagic : string := "PWA1".
Record WebAuthnSignature := mkWebAuthn { AuthenticatorData : string; ClientDataJSON : string; Signature : string }.

Definition WebAuthn_Marshal (w : WebAuthnSignature) : string :=
  webAuthnMagic +:+ be32 (u32 (strlen (AuthenticatorData w))) +:+ AuthenticatorData w +:+
  be32 (u32 (strlen (ClientDataJSON w))) +:+ ClientDataJSON w +:+ be32 (u32 (strlen (Signature w))) +:+ Signature w.
Definition IsWebAuthnEnvelope (sig : string) : bool :=
  (strlen webAuthnMagic <=? strlen sig) && bool_decide (slice sig 0 (strlen webAuthnMagic) = Ok webAuthnMagic).

(** one turn of the decoding loop: the field and what is left *)
Definition read_field (rest : string) : outcome (string * string) :=
  err_if (strlen rest <? 4) ErrInvalidRequest;;
  lenb ← slice rest 0 4;
  n ← BigEndian_Uint32 lenb;
  rest ← slice rest 4 (strlen rest);
  err_if (strlen rest <? n) ErrInvalidRequest;;
  field ← slice rest 0 n;
  rest ← slice rest n (strlen rest);
  Ok (field, rest).
Definition UnmarshalWebAuthnSignature (b : string) : outcome WebAuthnSignature :=
  err_if (negb (IsWebAuthnEnvelope b)) ErrInvalidRequest;;
  rest ← slice b (strlen webAuthnMagic) (strlen b);
  '(f0, rest) ← read_field rest;
  '(f1, rest) ← read_field rest;
  '(f2, rest) ← read_field rest;
  err_if (negb (strlen rest =? 0)) ErrInvalidRequest;;
  Ok (mkWebAuthn f0 f1 f2).

(** ** The challenge and the assertion *)
Record WebAuthnAssertion := mkAssertion {
  wa_AuthenticatorData : string; wa_ClientDataJSON : string; wa_Signature : string; wa_Challenge : string;
  wa_PublicKey : string; wa_Origin : string; wa_RPID : string; wa_RequireUserVerification : bool }.
Class WebAuthnVerifier := { VerifyWebAuthn : WebAuthnAssertion → bool }.
(** [json.Unmarshal] into a struct with the one field [origin]: [None] on malformed JSON,
    the empty string when the field is missing *)
Class ClientDataDecoder := { json_origin : string → option string }.

Definition webAuthnChallengeDomain : string := "PHI-WEBAUTHN-v1".
Definition WebAuthnChallenge `{Hasher} (signBytes : string) : string := sha256 (webAuthnChallengeDomain +:+ signBytes).

Section passkey.
Context `{Hasher} `{WebAuthnVerifier} `{ClientDataDecoder}.

Definition clientDataOrigin (clientDataJSON : string) : outcome string :=
  match json_origin clientDataJSON with
  | None => Err ErrUnauthorizedSDK
  | Some origin => if bool_decide (origin = "") then Err ErrUnauthorizedSDK else Ok origin
  end.
Definition assertion (env : WebAuthnSignature) (publicKey signBytes origin rpID : string) (requireUV : bool) : WebAuthnAssertion :=
  mkAssertion (AuthenticatorData env) (ClientDataJSON env) (Signature env) (WebAuthnChallenge signBytes) publicKey origin rpID requireUV.
Definition VerifyWebAuthnAssertion (env : WebAuthnSignature) (publicKey signBytes origin rpID : string) (requireUV : bool)
  : outcome unit :=
  err_if (negb (VerifyWebAuthn (assertion env publicKey signBytes origin rpID requireUV))) ErrUnauthorizedSDK.

(** ** The policy *)
Definition sensitive_msg (sensitive : gset string) (largeTransfer : Z) (m : sdk_Msg) : bool :=
  bool_decide (MsgTypeURL m ∈ sensitive) ||
  match m with
  | TransferMsg t =>
      IsPositive largeTransfer &&
      match NewIntFromString (mt_Amount t) with Some amt => largeTransfer <=? amt | None => true end
  | _ => false
  end.
Definition RequiresUserVerification (st : IdStore) (msgs : list sdk_Msg) : bool :=
  let '(sensitive, largeTransfer) := UVPolicy st in
  existsb (sensitive_msg (list_to_set sensitive) largeTransfer) msgs.

(** whether the bytes were an envelope, and if so the result *)
Definition VerifyEnvelope (st : IdStore) (pubKey signBytes sig : string) (requireUV : bool) : bool * outcome unit :=
  if negb (IsWebAuthnEnvelope sig) then (false, Ok tt) else
  (true,
   env ← UnmarshalWebAuthnSignature sig;
   let '(allowedOrigins, rpID) := WebAuthnRelyingParty st in
   origin ← clientDataOrigin (ClientDataJSON env);
   err_if (negb (bool_decide (origin ∈ allowedOrigins))) ErrUnauthorizedSDK;;
   match VerifyWebAuthnAssertion env pubKey signBytes origin rpID requireUV with
   | Ok _ => Ok tt
   | _ => Err ErrUnauthorizedSDK
   end).
End passkey.

(** ** The envelope *)
Definition env_fits (w : WebAuthnSignature) : Prop :=
  fits (AuthenticatorData w) ∧ fits (ClientDataJSON w) ∧ fits (Signature w).
Lemma Marshal_frames w : env_fits w →
  WebAuthn_Marshal w = webAuthnMagic +:+ frame (AuthenticatorData w) +:+ frame (ClientDataJSON w) +:+ frame (Signature w).
Proof.
  intros (H1 & H2 & H3). unfold WebAuthn_Marshal, frame, fits in *.
  pose proof (strlen_nonneg (AuthenticatorData w)). pose proof (strlen_nonneg (ClientDataJSON w)). pose proof (strlen_nonneg (Signature w)).
  rewrite !u32_id by lia. by rewrite !str_app_assoc.
Qed.
Lemma slice_prefix a b : slice (a +:+ b) 0 (strlen a) = Ok a.
Proof. exact (slice_middle "" a b). Qed.
Lemma slice_rest a b : slice (a +:+ b) (strlen a) (strlen (a +:+ b)) = Ok b.
Proof.
  pose proof (slice_middle a b "") as E. rewrite str_app_nil_r in E. by rewrite strlen_app.
Qed.
Lemma envelope_spec b : IsWebAuthnEnvelope b = true ↔ ∃ rest, b = webAuthnMagic +:+ rest.
Proof.
  unfold IsWebAuthnEnvelope. rewrite andb_true_iff, Z.leb_le, bool_decide_eq_true. split.
  - intros [Hl Hs]. destruct (cut b (strlen webAuthnMagic)) as (x & y & -> & Hx); [pose proof (strlen_nonneg webAuthnMagic); lia|].
    rewrite <- Hx, slice_prefix in Hs. injection Hs as ->. by exists y.
  - intros [rest ->]. rewrite slice_prefix, strlen_app. pose proof (strlen_nonneg rest). split; [lia|done].
Qed.
Lemma read_field_frame s rest : fits s → read_field (frame s +:+ rest) = Ok (s, rest).
Proof.
  intros Hs. unfold read_field, frame, fits in *. pose proof (strlen_nonneg s). pose proof (strlen_nonneg rest).
  rewrite str_app_assoc. assert (strlen (be32 (strlen s) +:+ s +:+ rest) = 4 + strlen s + strlen rest) as El.
  { rewrite !strlen_app, strlen_be32. lia. }
  rewrite El, (proj2 (Z.ltb_ge _ _)) by lia. rewrite <- El.
  pose proof (slice_prefix (be32 (strlen s)) (s +:+ rest)) as E1. rewrite strlen_be32 in E1. rewrite E1. cbn [err_if mbind outcome_bind].
  rewrite <- (str_app_nil_r (be32 (strlen s))) at 1. rewrite BigEndian_Uint32_be32 by lia. cbn [mbind outcome_bind].
  pose proof (slice_rest (be32 (strlen s)) (s +:+ rest)) as E2. rewrite strlen_be32 in E2. rewrite E2. cbn [mbind outcome_bind].
  rewrite (proj2 (Z.ltb_ge (strlen (s +:+ rest)) (strlen s))) by (rewrite strlen_app; lia). rewrite slice_prefix.
  cbn [err_if mbind outcome_bind]. by rewrite slice_rest.
Qed.
Lemma read_field_cases rest :
  (∃ s rest', fits s ∧ rest = frame s +:+ rest' ∧ read_field rest = Ok (s, rest')) ∨ read_field rest = Err ErrInvalidRequest.
Proof.
  destruct (decide (strlen rest < 4)) as [Hl|Hl].
  { right. unfold read_field. by rewrite (proj2 (Z.ltb_lt _ _) Hl). }
  destruct (cut rest 4) as (h & t & -> & Hh); [lia|]. destruct (four_bytes h Hh) as [Eh Hn]. rewrite Eh.
  set (n := BigEndian_Uint h) in *. destruct (decide (strlen t < n)) as [Hlt|Hge].
  - right. unfold read_field. rewrite (proj2 (Z.ltb_ge _ _)) by (rewrite <- Eh; lia).
    pose proof (slice_prefix (be32 n) t) as E1. rewrite strlen_be32 in E1. rewrite E1. cbn [err_if mbind outcome_bind].
    rewrite <- (str_app_nil_r (be32 n)) at 1. rewrite BigEndian_Uint32_be32 by lia. cbn [mbind outcome_bind].
    pose proof (slice_rest (be32 n) t) as E2. rewrite strlen_be32 in E2. rewrite E2. cbn [mbind outcome_bind].
    by rewrite (proj2 (Z.ltb_lt _ _) Hlt).
  - left. destruct (cut t n) as (s & rest' & -> & Hs); [lia|]. exists s, rest'.
    assert (fits s) as Hf by (unfold fits; lia). rewrite <- Hs, <- str_app_assoc. split_and!; [done|done|]. by apply read_field_frame.
Qed.

Lemma Unmarshal_spec b :
  (∀ w, UnmarshalWebAuthnSignature b = Ok w ↔ env_fits w ∧ b = WebAuthn_Marshal w) ∧
  (∀ why, UnmarshalWebAuthnSignature b ≠ Panic why).
Proof.
  assert (∀ w, env_fits w → UnmarshalWebAuthnSignature (WebAuthn_Marshal w) = Ok w) as Hdec.
  { intros w Hw. rewrite (Marshal_frames w Hw). destruct Hw as (H1 & H2 & H3). unfold UnmarshalWebAuthnSignature.
    rewrite (proj2 (envelope_spec _)) by eauto. cbn [negb err_if mbind outcome_bind]. rewrite slice_rest. cbn [mbind outcome_bind].
    rewrite read_field_frame by done. cbn [mbind outcome_bind]. rewrite read_field_frame by done. cbn [mbind outcome_bind].
    rewrite <- (str_app_nil_r (frame (Signature w))), read_field_frame by done. by destruct w. }
  assert (UnmarshalWebAuthnSignature b = Err ErrInvalidRequest ∨ ∃ w, env_fits w ∧ b = WebAuthn_Marshal w) as Hcases.
  { unfold UnmarshalWebAuthnSignature. destruct (IsWebAuthnEnvelope b) eqn:Hb; [|by left]. cbn [negb err_if mbind outcome_bind].
    apply envelope_spec in Hb as [rest ->]. rewrite slice_rest. cbn [mbind outcome_bind].
    destruct (read_field_cases rest) as [(f0 & r0 & H0 & -> & ->)| ->]; [|by left]. cbn [mbind outcome_bind].
    destruct (read_field_cases r0) as [(f1 & r1 & H1 & -> & ->)| ->]; [|by left]. cbn [mbind outcome_bind].
    destruct (read_field_cases r1) as [(f2 & r2 & H2 & -> & ->)| ->]; [|by left]. cbn [mbind outcome_bind].
    destruct (Z.eqb_spec (strlen r2) 0) as [E|E]; [|by left]. apply strlen_0 in E as ->. right.
    exists (mkWebAuthn f0 f1 f2). assert (env_fits (mkWebAuthn f0 f1 f2)) as Hw by done. split; [done|].
    rewrite (Marshal_frames _ Hw). cbn [AuthenticatorData ClientDataJSON Signature]. by rewrite str_app_nil_r. }
  destruct Hcases as [E|(w0 & Hw0 & ->)].
  - split; [|by rewrite E]. intros w. split; [by rewrite E|]. intros [Hw ->]. by rewrite Hdec.
  - rewrite (Hdec w0 Hw0). split; [|done]. intros w. split; [by intros [= <-]|]. intros [Hw Eq]. f_equal.
    pose proof (Hdec w Hw) as E. rewrite <- Eq, (Hdec w0 Hw0) in E. by injection E.
Qed.

(** C37: the envelope decoder decides the wire format.  A byte string decodes to an envelope
    exactly when it is that envelope's encoding, so no two byte strings carry the same
    assertion and nothing can be appended to one; and no input makes the decoder read
    outside the buffer. *)
Theorem envelope_decodes_exactly b :
  (∀ w, UnmarshalWebAuthnSignature b = Ok w ↔ env_fits w ∧ b = WebAuthn_Marshal w) ∧
  (∀ why, UnmarshalWebAuthnSignature b ≠ Panic why).
Proof. apply Unmarshal_spec. Qed.

(** ** The check of an envelope *)
Section checked.
Context `{Hasher} `{WebAuthnVerifier} `{ClientDataDecoder}.

(** the bytes carry an assertion of [pubKey]'s passkey over this transaction, made for an
    allowed origin *)
Definition passkey_signed (st : IdStore) (pubKey signBytes sig : string) (requireUV : bool) : Prop :=
  ∃ env origin, env_fits env ∧ sig = WebAuthn_Marshal env ∧ json_origin (ClientDataJSON env) = Some origin ∧ origin ≠ "" ∧
    origin ∈ (WebAuthnRelyingParty st).1 ∧
    VerifyWebAuthn (assertion env pubKey signBytes origin (WebAuthnRelyingParty st).2 requireUV) = true.
Lemma VerifyEnvelope_Ok st pubKey signBytes sig requireUV :
  VerifyEnvelope st pubKey signBytes sig requireUV = (true, Ok tt) → passkey_signed st pubKey signBytes sig requireUV.
Proof.
  unfold VerifyEnvelope. destruct (IsWebAuthnEnvelope sig); [|done]. cbn [negb]. intros E. injection E as E.
  apply obind_Ok in E as (env & Henv & E).
  apply obind_Ok in E as (origin & Ho & E). go_inv. bool_prop. unfold VerifyWebAuthnAssertion in *.
  match goal with H : match ?x with Ok _ => _ | _ => _ end = _ |- _ => destruct x as [u| |] eqn:Hv; try done end. go_inv. bool_prop.
  apply Unmarshal_spec in Henv as [Hf ->]. unfold clientDataOrigin in Ho.
  destruct (json_origin (ClientDataJSON env)) as [o|] eqn:Hj; [|done]. case_bool_decide; [done|]. injection Ho as ->.
  exists env, origin. by split_and!.
Qed.
(** a message the policy lists, or a transfer of at least the governed amount; an amount that
    does not parse counts as large *)
Definition sensitive_tx (st : IdStore) (msgs : list sdk_Msg) : Prop :=
  ∃ m, m ∈ msgs ∧ (MsgTypeURL m ∈ (UVPolicy st).1 ∨
    ∃ t, m = TransferMsg t ∧ 0 < (UVPolicy st).2 ∧ ∀ amt, NewIntFromString (mt_Amount t) = Some amt → (UVPolicy st).2 ≤ amt).
Lemma RequiresUserVerification_spec st msgs : RequiresUserVerification st msgs = true ↔ sensitive_tx st msgs.
Proof.
  unfold RequiresUserVerification, sensitive_tx. destruct (UVPolicy st) as [urls large]. cbn [fst snd].
  rewrite existsb_exists. setoid_rewrite <- list_elem_of_In. apply exist_proper. intros m. apply and_iff_compat_l.
  unfold sensitive_msg. rewrite orb_true_iff, bool_decide_eq_true, elem_of_list_to_set. apply or_iff_compat_l.
  destruct m as [t| |]; [|split; [done|by intros (t & [=] & _)]..].
  unfold IsPositive. rewrite andb_true_iff, Z.ltb_lt. destruct (NewIntFromString (mt_Amount t)) as [amt|] eqn:Ha.
  - rewrite Z.leb_le. split; [intros [? ?]; exists t; split_and!; [done|done|]; intros ? E; rewrite Ha in E; by injection E as <-|].
    intros (t' & [= <-] & ? & Hle). auto.
  - split; [intros [? _]; exists t; split_and!; [done|done|]; intros ? E; by rewrite Ha in E|]. by intros (t' & [= <-] & ? & _).
Qed.
End checked.
