(* ===== verification/AnteSig.v ===== *)
(** * The ante chain: signature verification

    [app/ante/sigverify_webauthn.go]: the decorator that verifies the signatures of a
    transaction.  It follows the SDK's, except that a secp256r1 signer whose signature is a
    WebAuthn envelope is verified as a passkey, and that a transaction the governed policy
    calls sensitive cannot be signed with a bare secp256r1 signature.  The account keeper,
    the sign bytes and the verification of bare signatures are the SDK's. *)
From stdpp Require Import base strings list gmap.
From Stdlib Require Import ZArith Lia.
From S2P Require Import Prelude GoInt KVStore Interfaces CoinTypes IdTypes IdKeeper AntePasskey.

(** ** The ante chain: signer keys

    [app/ante/sigverify.go]: which key types may sign on the chain and what their
    verification costs.  A key is a tree: a multisig key has keys below it, which may again
    be multisig keys. *)
Inductive PubKey :=
| Secp256k1Key (bytes : string)
| Secp256r1Key (bytes : string)
| MultisigKey (threshold : Z) (keys : list PubKey)
| Ed25519Key (bytes : string)
| OtherKey (typ : string).
(** a signature: one, with its sign mode, or several with the bit array of the signers *)
Inductive SignatureData :=
| SingleSignature (mode : Z) (sig : string)
| MultiSignature (bits : list bool) (sigs : list SignatureData).

Definition ErrInvalidPubKey : error := Registered "sdk" 8.

(** ** Gas *)
Record GasMeter := mkGasMeter { gas_consumed : Z; gas_limit : Z }.
(** [basicGasMeter.ConsumeGas] *)
Definition ConsumeGas (amount : Z) : M GasMeter unit := λ g,
  if 2 ^ 64 <=? gas_consumed g + amount then (Panic "gas overflow", mkGasMeter (2 ^ 64 - 1) (gas_limit g))
  else let g' := mkGasMeter (gas_consumed g + amount) (gas_limit g) in
       if gas_limit g <? gas_consumed g' then (Panic "out of gas", g') else (Ok tt, g').
(** the parameter of x/auth the costs come from *)
Record AuthParams := mkAuthParams { SigVerifyCostSecp256k1 : Z }.
Definition SigVerifyCostSecp256r1 (p : AuthParams) : Z := SigVerifyCostSecp256k1 p / 2.

(** ** Key trees *)
Fixpoint pubKeyContainsR1 (pk : PubKey) : bool :=
  match pk with
  | Secp256r1Key _ => true
  | Secp256k1Key _ => false
  | MultisigKey _ keys => existsb pubKeyContainsR1 keys
  | _ => false
  end.
Fixpoint assertAllowedKeyTree (pk : PubKey) : outcome unit :=
  match pk with
  | Secp256k1Key _ | Secp256r1Key _ => Ok tt
  | MultisigKey _ keys =>
      (fix check (l : list PubKey) : outcome unit :=
         match l with [] => Ok tt | sub :: l' => assertAllowedKeyTree sub;; check l' end) keys
  | _ => Err ErrInvalidPubKey
  end.

(** [PhiSigVerificationGasConsumer]; the inner loop is [phiConsumeMultisigGas], which
    walks the bit array and pairs the set bits with keys by position and with signatures
    in order *)
Fixpoint PhiSigVerificationGasConsumer (p : AuthParams) (pk : PubKey) (data : SignatureData) : M GasMeter unit :=
  match pk with
  | Secp256k1Key _ => ConsumeGas (SigVerifyCostSecp256k1 p)
  | Secp256r1Key _ => ConsumeGas (SigVerifyCostSecp256r1 p)
  | MultisigKey _ keys =>
      lift (assertAllowedKeyTree pk);;
      match data with
      | SingleSignature _ _ => fail ErrInvalidPubKey
      | MultiSignature bits sigs =>
          (fix walk (keys : list PubKey) (bits : list bool) (sigs : list SignatureData) : M GasMeter unit :=
             match keys with
             | [] => if existsb id bits then lift (Panic "index out of range") else mret tt
             | key :: keys' =>
                 match bits with
                 | [] => mret tt
                 | false :: bits' => walk keys' bits' sigs
                 | true :: bits' =>
                     match sigs with
                     | [] => lift (Panic "index out of range")
                     | sig :: sigs' => PhiSigVerificationGasConsumer p key sig;; walk keys' bits' sigs'
                     end
                 end
             end) keys bits sigs
      end
  | Ed25519Key _ | OtherKey _ => fail ErrInvalidPubKey
  end.

(** ** What the consumer enforces *)
(** a tree of secp256k1 and secp256r1 keys *)
Inductive phi_key : PubKey → Prop :=
| phi_k1 b : phi_key (Secp256k1Key b)
| phi_r1 b : phi_key (Secp256r1Key b)
| phi_multi t keys : Forall phi_key keys → phi_key (MultisigKey t keys).
(** the cost of the signatures a piece of signature data carries *)
Fixpoint sig_cost (p : AuthParams) (pk : PubKey) (data : SignatureData) : Z :=
  match pk with
  | Secp256k1Key _ => SigVerifyCostSecp256k1 p
  | Secp256r1Key _ => SigVerifyCostSecp256r1 p
  | MultisigKey _ keys =>
      match data with
      | SingleSignature _ _ => 0
      | MultiSignature bits sigs =>
          (fix walk (keys : list PubKey) (bits : list bool) (sigs : list SignatureData) : Z :=
             match keys, bits, sigs with
             | key :: keys', true :: bits', sig :: sigs' => sig_cost p key sig + walk keys' bits' sigs'
             | _ :: keys', false :: bits', _ => walk keys' bits' sigs
             | _, _, _ => 0
             end) keys bits sigs
      end
  | _ => 0
  end.

Section key_ind.
Variable P : PubKey → Prop.
Hypothesis Hk1 : ∀ b, P (Secp256k1Key b).
Hypothesis Hr1 : ∀ b, P (Secp256r1Key b).
Hypothesis Hm : ∀ t keys, Forall P keys → P (MultisigKey t keys).
Hypothesis He : ∀ b, P (Ed25519Key b).
Hypothesis Ho : ∀ t, P (OtherKey t).
Fixpoint key_tree_ind (pk : PubKey) : P pk :=
  match pk with
  | Secp256k1Key b => Hk1 b | Secp256r1Key b => Hr1 b | Ed25519Key b => He b | OtherKey t => Ho t
  | MultisigKey t keys => Hm t keys
      ((fix go (l : list PubKey) : Forall P l :=
          match l with [] => Forall_nil_2 P | k :: l' => Forall_cons_2 P k l' (key_tree_ind k) (go l') end) keys)
  end.
End key_ind.

Lemma assertAllowedKeyTree_spec pk : assertAllowedKeyTree pk = Ok tt ↔ phi_key pk.
Proof.
  induction pk as [b|b|t keys IH|b|t] using key_tree_ind; cbn [assertAllowedKeyTree];
    [split; [constructor|done]..| |split; [done|inversion 1]|split; [done|inversion 1]].
  split.
  - intros E. constructor. revert E. induction IH as [|k l Hk Hl IHl]; intros E; [constructor|].
    apply obind_Ok in E as ([] & E1 & E2). constructor; [by apply Hk|by apply IHl].
  - inversion 1 as [| |? ? Hf]; subst. clear H. induction Hf as [|k l Hk Hl IHl]; [done|].
    apply Forall_cons in IH as [IHk IH]. rewrite (proj2 IHk Hk). by apply IHl.
Qed.
Lemma ConsumeGas_Ok n g g' : ConsumeGas n g = (Ok tt, g') ↔
  g' = mkGasMeter (gas_consumed g + n) (gas_limit g) ∧ gas_consumed g + n < 2 ^ 64 ∧ gas_consumed g + n ≤ gas_limit g.
Proof.
  unfold ConsumeGas. destruct (Z.leb_spec (2 ^ 64) (gas_consumed g + n)); [split; [done|lia]|]. cbn [gas_consumed].
  destruct (Z.ltb_spec (gas_limit g) (gas_consumed g + n)); [split; [done|lia]|]. split; [by intros [= <-]|]. by intros (-> & _).
Qed.
Lemma gas_meter_step g n m : mkGasMeter (gas_consumed (mkGasMeter (gas_consumed g + n) (gas_limit g)) + m)
  (gas_limit (mkGasMeter (gas_consumed g + n) (gas_limit g))) = mkGasMeter (gas_consumed g + (n + m)) (gas_limit g).
Proof. cbn. f_equal. lia. Qed.
Lemma gas_meter_zero g : g = mkGasMeter (gas_consumed g + 0) (gas_limit g).
Proof. rewrite Z.add_0_r. by destruct g. Qed.

(** The key policy and its price.  When the gas consumer accepts a signature, every key
    in the signer's key tree, at any depth of multisig keys, is a secp256k1 or a secp256r1
    key, and the gas charged is the sum of the prices of the signatures the data carries,
    one for every set bit. *)
Theorem gas_consumer_enforces_keys p pk data g g' :
  PhiSigVerificationGasConsumer p pk data g = (Ok tt, g') →
  phi_key pk ∧ g' = mkGasMeter (gas_consumed g + sig_cost p pk data) (gas_limit g).
Proof.
  revert data g g'. induction pk as [b|b|t keys IH|b|t] using key_tree_ind; intros data g g' E;
    cbn [PhiSigVerificationGasConsumer sig_cost] in *; [apply ConsumeGas_Ok in E as [-> _]; by split; [constructor|]..| |done|done].
  go_inv. match goal with u : unit |- _ => destruct u end. rename select (assertAllowedKeyTree _ = _) into Ha.
  apply assertAllowedKeyTree_spec in Ha. split; [done|]. clear Ha. destruct data as [|bits sigs]; [go_inv|].
  rename select (_ = (Ok tt, g')) into E. match type of E with _ ?g0 = _ => revert g0 g' E end. revert bits sigs.
  induction IH as [|k l Hk Hl IHl]; intros bits sigs g g' E.
  { destruct (existsb id bits); go_inv. apply gas_meter_zero. }
  destruct bits as [|[] bits]; [go_inv; apply gas_meter_zero| |by apply IHl].
  destruct sigs as [|sig sigs]; [done|]. go_inv. match goal with u : unit |- _ => destruct u end.
  rename select (PhiSigVerificationGasConsumer _ _ _ _ = _) into E1. apply Hk in E1 as [_ ->].
  rename select (_ = (Ok tt, g')) into E2. apply IHl in E2 as ->. apply gas_meter_step.
Qed.

(** ** The SDK *)
Record Account := mkAccount { acc_Address : string; acc_PubKey : option PubKey; acc_Sequence : Z; acc_Number : Z }.
Record SignatureV2 := mkSigV2 { sv_Data : SignatureData; sv_Sequence : Z }.
(** a transaction as [authsigning.Tx] shows it; an unset timeout is the zero time *)
Record SigTx := mkSigTx {
  stx_Unordered : bool; stx_Timeout : option Z; stx_Sigs : outcome (list SignatureV2);
  stx_Signers : outcome (list string); stx_Msgs : list sdk_Msg; stx_Body : string;
  stx_Adaptable : bool  (** implements [V2AdaptableTx] *) }.
Record SignerData := mkSignerData {
  sd_Address : string; sd_ChainID : string; sd_AccountNumber : Z; sd_Sequence : Z; sd_PubKey : PubKey }.
Definition SIGN_MODE_DIRECT : Z := 1.

Class SignerAccounts (A : Type) := {
  UnorderedTransactionsEnabled : A → bool;
  GetAccount : A → string → option Account;
  TryAddUnorderedNonce : string → Z → M A unit }.
(** the bytes a signer signs, and the SDK's check of a bare signature over them *)
Class SignModes := {
  GetSignBytes : Z → SignerData → SigTx → outcome string;
  VerifyBareSignature : PubKey → SignerData → SignatureData → SigTx → outcome unit }.

(** the execution mode of the context; the block time in nanoseconds *)
Record AnteContext := mkAnteContext {
  ac_ctx : Context; ac_nanos : Z; ac_simulate : bool; ac_IsReCheckTx : bool; ac_IsSigverifyTx : bool;
  ac_ExecModeSimulate : bool }.

Definition ErrTxWrongType : error := Registered "sdk" 2.
Definition ErrUnknownSigner : error := Registered "sdk" 9.
Definition ErrWrongSequence : error := Registered "sdk" 32.
Definition ErrNotSupported : error := Registered "sdk" 37.

Record SigState (A : Type) := mkSigState { sg_accounts : A; sg_gas : GasMeter }.
Arguments mkSigState {A}. Arguments sg_accounts {A}. Arguments sg_gas {A}.

Section decorator.
Context {A : Type} `{SignerAccounts A} `{SignModes} `{Hasher} `{WebAuthnVerifier} `{ClientDataDecoder} `{AddressCodec}.
Context (ids : IdStore).
Abbreviation St := (SigState A).

Definition maxTxTimeoutDuration : Z := 10 * 60 * nano.
Definition unorderedTxGasCost : Z := 2240.
Definition on_gas {X} : M GasMeter X → M St X := zoom sg_gas (λ g s, mkSigState (sg_accounts s) g).
Definition on_accounts {X} : M A X → M St X := zoom sg_accounts (λ a s, mkSigState a (sg_gas s)).

Definition verifyUnorderedNonce (c : AnteContext) (tx : SigTx) : M St unit :=
  timeout ← or_fail (stx_Timeout tx) ErrInvalidRequest;
  fail_if (Unix timeout =? 0) ErrInvalidRequest;;
  fail_if (timeout <? ac_nanos c) ErrInvalidRequest;;
  fail_if (ac_nanos c + maxTxTimeoutDuration <? timeout) ErrInvalidRequest;;
  on_gas (ConsumeGas unorderedTxGasCost);;
  if ac_ExecModeSimulate c then mret tt else
  signers ← lift (stx_Signers tx);
  for_each signers (λ a,
    added ← attempt (on_accounts (TryAddUnorderedNonce a timeout));
    match added with inl _ => mret tt | inr _ => fail ErrInvalidRequest end).

Definition isWebAuthnEnvelope (pk : PubKey) (data : SignatureData) : bool :=
  match pk, data with
  | Secp256r1Key _, SingleSignature _ sig => IsWebAuthnEnvelope sig
  | _, _ => false
  end.
(** [pubKey.Bytes()] of the one key type that reaches it *)
Definition r1_bytes (pk : PubKey) : string := match pk with Secp256r1Key b => b | _ => "" end.

(** the passkey branch: whether the signature was accepted there *)
Definition verify_passkey (c : AnteContext) (tx : SigTx) (requireUV : bool) (pk : PubKey) (sd : SignerData) (data : SignatureData)
  : outcome bool :=
  match data with
  | SingleSignature mode sig =>
      err_if (negb (mode =? SIGN_MODE_DIRECT)) ErrUnauthorizedSDK;;
      signBytes ← GetSignBytes mode sd tx;
      match VerifyEnvelope ids (r1_bytes pk) signBytes sig requireUV with
      | (true, Ok _) => Ok true
      | (true, _) => Err ErrUnauthorizedSDK
      | (false, _) => Ok false
      end
  | MultiSignature _ _ => Ok false
  end.
Definition verify_signature (c : AnteContext) (tx : SigTx) (requireUV : bool) (pk : PubKey) (sd : SignerData) (data : SignatureData)
  : outcome unit :=
  let envelope := isWebAuthnEnvelope pk data in
  err_if (requireUV && negb envelope && pubKeyContainsR1 pk) ErrUnauthorizedSDK;;
  accepted ← (if envelope then verify_passkey c tx requireUV pk sd data else Ok false);
  if accepted : bool then Ok tt else
  err_if (negb (stx_Adaptable tx)) (Plain "expected tx to implement V2AdaptableTx");;
  match VerifyBareSignature pk sd data tx with
  | Ok _ => Ok tt
  | Err _ => Err ErrUnauthorizedSDK
  | Panic w => Panic w
  end.

(** the body of the loop over the signatures *)
Definition verify_signer (c : AnteContext) (tx : SigTx) (requireUV : bool) (signer : string) (sig : SignatureV2) : M St unit :=
  fail_if ((0 <? sv_Sequence sig) && stx_Unordered tx) ErrInvalidRequest;;
  found ← reads (λ s, GetAccount (sg_accounts s) signer);
  acc ← or_fail found ErrUnknownSigner;
  fail_if (negb (ac_simulate c) && bool_decide (acc_PubKey acc = None)) ErrInvalidPubKey;;
  fail_if (negb (stx_Unordered tx) && negb (sv_Sequence sig =? acc_Sequence acc)) ErrWrongSequence;;
  let accNum := if BlockHeight (ac_ctx c) =? 0 then 0 else acc_Number acc in
  if negb (ac_simulate c) && negb (ac_IsReCheckTx c) && ac_IsSigverifyTx c then
    match acc_PubKey acc with
    | Some pk =>
        lift (verify_signature c tx requireUV pk
          (mkSignerData (AccAddress_String (acc_Address acc)) (ChainID (ac_ctx c)) accNum (sv_Sequence sig) pk) (sv_Data sig))
    | None => lift (Panic "nil public key")
    end
  else mret tt.
Fixpoint verify_signers (c : AnteContext) (tx : SigTx) (requireUV : bool) (signers : list string) (sigs : list SignatureV2)
  : M St unit :=
  match sigs, signers with
  | sig :: sigs', signer :: signers' => verify_signer c tx requireUV signer sig;; verify_signers c tx requireUV signers' sigs'
  | [], _ => mret tt
  | _ :: _, [] => lift (Panic "index out of range")
  end.

(** [None] is a transaction of another type *)
Definition PhiSigVerification_AnteHandle (c : AnteContext) (tx : option SigTx) (next : M St unit) : M St unit :=
  tx ← or_fail tx ErrTxWrongType;
  enabled ← reads (λ s, UnorderedTransactionsEnabled (sg_accounts s));
  fail_if (stx_Unordered tx && negb enabled) ErrNotSupported;;
  sigs ← lift (stx_Sigs tx);
  let requireUV := RequiresUserVerification ids (stx_Msgs tx) in
  signers ← lift (stx_Signers tx);
  fail_if (negb (Z.of_nat (length sigs) =? Z.of_nat (length signers))) ErrUnauthorizedSDK;;
  (if stx_Unordered tx then verifyUnorderedNonce c tx else mret tt);;
  verify_signers c tx requireUV signers sigs;;
  next.

(** ** What an accepted signature is *)
Definition signer_data (c : AnteContext) (acc : Account) (sig : SignatureV2) (pk : PubKey) : SignerData :=
  mkSignerData (AccAddress_String (acc_Address acc)) (ChainID (ac_ctx c))
    (if BlockHeight (ac_ctx c) =? 0 then 0 else acc_Number acc) (sv_Sequence sig) pk.
(** a passkey assertion over the sign bytes of the transaction *)
Definition by_passkey (c : AnteContext) (tx : SigTx) (requireUV : bool) (acc : Account) (sig : SignatureV2) : Prop :=
  ∃ kb bytes signBytes, acc_PubKey acc = Some (Secp256r1Key kb) ∧ sv_Data sig = SingleSignature SIGN_MODE_DIRECT bytes ∧
    GetSignBytes SIGN_MODE_DIRECT (signer_data c acc sig (Secp256r1Key kb)) tx = Ok signBytes ∧
    passkey_signed ids kb signBytes bytes requireUV.
(** a bare signature the SDK accepted *)
Definition by_bare_signature (c : AnteContext) (tx : SigTx) (acc : Account) (sig : SignatureV2) : Prop :=
  ∃ pk, acc_PubKey acc = Some pk ∧ VerifyBareSignature pk (signer_data c acc sig pk) (sv_Data sig) tx = Ok tt.
Definition has_r1 (acc : Account) : bool := match acc_PubKey acc with Some pk => pubKeyContainsR1 pk | None => false end.

Lemma VerifyEnvelope_handled pk sb sig uv o : VerifyEnvelope ids pk sb sig uv = (false, o) → IsWebAuthnEnvelope sig = false.
Proof. unfold VerifyEnvelope. by destruct (IsWebAuthnEnvelope sig). Qed.
Lemma verify_signature_Ok c tx requireUV acc sig pk :
  acc_PubKey acc = Some pk → verify_signature c tx requireUV pk (signer_data c acc sig pk) (sv_Data sig) = Ok tt →
  by_passkey c tx requireUV acc sig ∨ by_bare_signature c tx acc sig ∧ (requireUV = true → has_r1 acc = false).
Proof.
  intros Hpk. unfold verify_signature, has_r1. rewrite Hpk. intros E. go_inv. rename select (_ && _ = false) into Hg.
  destruct (isWebAuthnEnvelope pk (sv_Data sig)) eqn:He.
  - left. unfold isWebAuthnEnvelope in He. destruct pk as [|kb| | |]; try done. destruct (sv_Data sig) as [mode bytes|] eqn:Hd; [|done].
    unfold verify_passkey in *. go_inv. bool_prop. subst mode. rename select (GetSignBytes _ _ _ = _) into Hs.
    destruct (VerifyEnvelope ids _ _ _ _) as [[] [[]| |]] eqn:Hv; try done;
      [|by apply VerifyEnvelope_handled in Hv; rewrite He in Hv..].
    apply VerifyEnvelope_Ok in Hv. by eexists kb, bytes, _.
  - right. go_inv. cbn [negb] in Hg. rewrite andb_true_r in Hg. split; [|by intros ->].
    match goal with H : match ?x with Ok _ => _ | _ => _ end = _ |- _ => destruct x as [[]| |] eqn:Hv; try done end. by exists pk.
Qed.

Definition verifying (c : AnteContext) : Prop := ac_simulate c = false ∧ ac_IsReCheckTx c = false ∧ ac_IsSigverifyTx c = true.
Definition signer_ok (c : AnteContext) (tx : SigTx) (a : A) (signer : string) (sig : SignatureV2) : Prop :=
  ∃ acc, GetAccount a signer = Some acc ∧ (if stx_Unordered tx then sv_Sequence sig ≤ 0 else sv_Sequence sig = acc_Sequence acc) ∧
    let requireUV := RequiresUserVerification ids (stx_Msgs tx) in
    (by_passkey c tx requireUV acc sig ∨ by_bare_signature c tx acc sig ∧ (requireUV = true → has_r1 acc = false)).
Lemma verify_signer_Ok c tx signer sig s s' : verifying c →
  verify_signer c tx (RequiresUserVerification ids (stx_Msgs tx)) signer sig s = (Ok tt, s') →
  s' = s ∧ signer_ok c tx (sg_accounts s) signer sig.
Proof.
  intros (Hsim & Hre & Hsv). unfold verify_signer. rewrite Hsim, Hre, Hsv. cbn [negb andb]. intros E. go_inv.
  rename select (GetAccount _ _ = _) into Hg. match type of Hg with _ = Some ?x => rename x into acc end.
  destruct (acc_PubKey acc) as [pk|] eqn:Hpk; go_inv. split; [done|]. exists acc. split_and!; [done| |by eapply verify_signature_Ok].
  destruct (stx_Unordered tx); cbn [negb andb] in *; bool_prop; [|done]. rewrite andb_true_r in *. bool_prop. done.
Qed.
Lemma verify_signers_Ok c tx signers sigs s s' : verifying c → length sigs = length signers →
  verify_signers c tx (RequiresUserVerification ids (stx_Msgs tx)) signers sigs s = (Ok tt, s') →
  s' = s ∧ Forall2 (signer_ok c tx (sg_accounts s)) signers sigs.
Proof.
  intros Hc. revert signers s. induction sigs as [|sig sigs IH]; intros [|signer signers] s Hl; try done; cbn [verify_signers]; intros E; go_inv.
  { split; [done|]. apply Forall2_nil_2. }
  match goal with u : unit |- _ => destruct u end.
  rename select (verify_signer _ _ _ _ _ _ = _) into E1. apply verify_signer_Ok in E1 as [-> H1']; [|done].
  rename select (verify_signers _ _ _ _ _ _ = _) into E2. apply IH in E2 as [-> H2']; [|by injection Hl]. split; [done|by constructor].
Qed.

Lemma sig_decorator_Ok c tx next s s'' :
  verifying c → PhiSigVerification_AnteHandle c (Some tx) next s = (Ok tt, s'') →
  ∃ s' signers sigs, next s' = (Ok tt, s'') ∧ (if stx_Unordered tx then verifyUnorderedNonce c tx s = (Ok tt, s') else s' = s) ∧
    stx_Signers tx = Ok signers ∧ stx_Sigs tx = Ok sigs ∧
    Forall2 (signer_ok c tx (sg_accounts s')) signers sigs ∧
    (∀ i signer sig acc, sensitive_tx ids (stx_Msgs tx) → signers !! i = Some signer → sigs !! i = Some sig →
       GetAccount (sg_accounts s') signer = Some acc → has_r1 acc = true →
       by_passkey c tx true acc sig).
Proof.
  intros Hc E. unfold PhiSigVerification_AnteHandle in E. rewrite (run_bind _ _ s tx s) in E by done. go_inv. repeat match goal with u : unit |- _ => destruct u end.
  rename select (negb (_ =? _) = false) into Hl. bool_prop. apply Nat2Z.inj in Hl.
  rename select (verify_signers _ _ _ _ _ _ = _) into Hv. apply verify_signers_Ok in Hv as [-> Hf]; [|done..].
  eexists _, _, _. split_and!; [done| |done|done|done|].
  - destruct (stx_Unordered tx); by go_inv.
  - intros i signer sig acc Hs Hi Hj Hg Hr. destruct (Forall2_lookup_lr _ _ _ _ _ _ Hf Hi Hj) as (acc' & Hg' & _ & Hor).
    assert (acc' = acc) as -> by congruence.
    apply RequiresUserVerification_spec in Hs. rewrite Hs in Hor. destruct Hor as [?|[_ Hn]]; [done|]. by rewrite (Hn eq_refl) in Hr.
Qed.

(** C17: no sensitive transaction without user verification.  When the signature decorator
    passes a transaction on in a mode that verifies, every signer it names has signed it,
    with the account's own sequence number.  Each has done so either with a passkey, whose
    assertion covers the sign bytes of this very transaction and was made for an allowed
    origin, or with a bare signature the SDK verified.  And if a message of the transaction
    is sensitive under the governed policy, a signer whose key tree holds a secp256r1 key
    has used the passkey, with user verification demanded. *)
Theorem sensitive_tx_needs_user_verification c tx next s s'' :
  verifying c → PhiSigVerification_AnteHandle c (Some tx) next s = (Ok tt, s'') →
  ∃ s' signers sigs, next s' = (Ok tt, s'') ∧ (stx_Unordered tx = false → s' = s) ∧
    stx_Signers tx = Ok signers ∧ stx_Sigs tx = Ok sigs ∧
    Forall2 (signer_ok c tx (sg_accounts s')) signers sigs ∧
    (∀ i signer sig acc, sensitive_tx ids (stx_Msgs tx) → signers !! i = Some signer → sigs !! i = Some sig →
       GetAccount (sg_accounts s') signer = Some acc → has_r1 acc = true →
       by_passkey c tx true acc sig).
Proof.
  intros Hc E. destruct (sig_decorator_Ok _ _ _ _ _ Hc E) as (s' & signers & sigs & Hn & Hu & Hr). exists s', signers, sigs.
  split_and!; try apply Hr; [done|]. intros Ho. by rewrite Ho in Hu.
Qed.
End decorator.
