(* ===== verification/AnteChain.v ===== *)
(** * The ante chain

    [app/ante/ante.go]: the order in which the decorators of the repository and of the SDK
    look at a transaction, over the state they share.  Of the SDK's, the chaining of
    decorators, the charge for signatures and the count of sequence numbers are modelled;
    the others are parameters, of which it is used that they touch nothing but gas, public
    keys and events, and call the rest of the chain. *)
From stdpp Require Import base gmap strings list.
From Stdlib Require Import ZArith Lia.
From S2P Require Import Prelude GoInt KVStore Interfaces CoinTypes CoinAge CoinKeeper InstTypes InstKeeper PhiDid IdTypes IdKeeper IdServer IdIndex IdElig IdInvariants IdStep IdAnte AnteFee AntePasskey AnteSig.

(** ** State, transaction and options *)
Record AnteState (B F A : Type) := mkAnteState {
  an_fee : FeeState B F; an_sig : SigState A; an_inst : InstStore; an_ids : IdStore }.
Arguments mkAnteState {B F A}. Arguments an_fee {B F A}. Arguments an_sig {B F A}.
Arguments an_inst {B F A}. Arguments an_ids {B F A}.
(** a transaction through the interfaces the decorators ask for *)
Record AnteTx := mkAnteTx { atx_Fee : option FeeTx; atx_Sig : option SigTx; atx_Gov : list GovTxMsg }.
(** which of the options are set; the keepers themselves are handles on the state *)
Record HandlerOptions := mkHandlerOptions {
  ho_AccountKeeper : bool; ho_BankKeeper : bool; ho_FeegrantKeeper : bool; ho_SignModeHandler : bool; ho_CoinKeeper : bool;
  ho_WebAuthnParams : bool; ho_VaultReader : bool; ho_IdentityStatus : bool; ho_UVPolicy : bool }.

(** x/identity as x/coin reads it *)
Definition registry_keeper : IdentityKeeper IdStore :=
  {| Interfaces.SubjectDID := IdKeeper.SubjectDID; Interfaces.BootstrapPhase _ := IdKeeper.BootstrapPhase |}.
#[local] Existing Instance registry_keeper.

(** ** The SDK *)
Definition Decorator (S : Type) : Type := M S unit → M S unit.
(** [sdk.ChainAnteDecorators] on a chain that is not empty *)
Definition ChainAnteDecorators {S} (chain : list (Decorator S)) : M S unit := foldr (λ d next, d next) (mret tt) chain.
(** writing accounts; x/auth's parameters *)
Class AccountWriter (A : Type) := {
  GetAuthParams : A → AuthParams;
  SetAccount : Account → A → A }.
(** the decorators between those of the repository that look at nothing it is concerned with *)
Class SdkDecorators (S : Type) := {
  SetUpContext : AnteTx → AnteContext → Decorator S;
  ExtensionOptions : AnteTx → AnteContext → Decorator S;
  ValidateBasic : AnteTx → AnteContext → Decorator S;
  TxTimeoutHeight : AnteTx → AnteContext → Decorator S;
  ValidateMemo : AnteTx → AnteContext → Decorator S;
  ConsumeGasForTxSize : AnteTx → AnteContext → Decorator S;
  SetPubKey : AnteTx → AnteContext → Decorator S;
  ValidateSigCount : AnteTx → AnteContext → Decorator S }.

Section chain.
Context {B F A : Type} `{BankKeeper B} `{FeegrantKeeper F} `{AccountReader A} `{SignerAccounts A} `{AccountWriter A}.
Context `{SignModes} `{Hasher} `{WebAuthnVerifier} `{ClientDataDecoder} `{AddressCodec}.
Abbreviation St := (AnteState B F A).
Context `{SdkDecorators St}.

Definition in_fee {X} : M (FeeState B F) X → M St X := zoom an_fee (λ f s, mkAnteState f (an_sig s) (an_inst s) (an_ids s)).
Definition in_sig {X} : M (SigState A) X → M St X := zoom an_sig (λ g s, mkAnteState (an_fee s) g (an_inst s) (an_ids s)).

(** the SDK's charge for signatures, with the consumer of the repository; a key that is not
    set is one of no known type *)
Definition simSecp256k1Pubkey : PubKey :=
  Secp256k1Key (default "" (HexCodec.hex_decode "035AD6810A47F073553FF30D2FCC7E0D3B1C0B74B61A1AAA2582344037151E143A")).
Definition charge_signer (simulate : bool) (signer : string) (sig : SignatureV2) : M (SigState A) unit :=
  found ← reads (λ s, GetAccount (sg_accounts s) signer);
  acc ← or_fail found ErrUnknownAddress;
  let pubKey := match acc_PubKey acc with Some pk => pk | None => if simulate then simSecp256k1Pubkey else OtherKey "nil" end in
  params ← reads (λ s, GetAuthParams (sg_accounts s));
  on_gas (PhiSigVerificationGasConsumer params pubKey (sv_Data sig)).
Fixpoint charge_signers (simulate : bool) (signers : list string) (sigs : list SignatureV2) : M (SigState A) unit :=
  match sigs, signers with
  | sig :: sigs', signer :: signers' => charge_signer simulate signer sig;; charge_signers simulate signers' sigs'
  | [], _ => mret tt
  | _ :: _, [] => lift (Panic "index out of range")
  end.
Definition SigGasConsume (tx : AnteTx) (c : AnteContext) : Decorator St := λ next,
  sigTx ← or_fail (atx_Sig tx) ErrTxDecode;
  sigs ← lift (stx_Sigs sigTx);
  signers ← lift (stx_Signers sigTx);
  in_sig (charge_signers (ac_simulate c) signers sigs);;
  next.
(** the SDK's count of the transactions of an account *)
Definition next_sequence (acc : Account) : Account :=
  mkAccount (acc_Address acc) (acc_PubKey acc) ((acc_Sequence acc + 1) mod 2 ^ 64) (acc_Number acc).
Definition increment_signer (signer : string) : M A unit :=
  found ← reads (λ a, GetAccount a signer);
  match found with
  | Some acc => modify (SetAccount (next_sequence acc))
  | None => lift (Panic "nil account")
  end.
Definition IncrementSequence (tx : AnteTx) : Decorator St := λ next,
  sigTx ← or_fail (atx_Sig tx) ErrTxDecode;
  (if stx_Unordered sigTx then
     enabled ← reads (λ s, UnorderedTransactionsEnabled (sg_accounts (an_sig s)));
     fail_if (negb enabled) ErrNotSupported
   else
     signers ← lift (stx_Signers sigTx);
     in_sig (on_accounts (for_each signers increment_signer)));;
  next.

(** ** The decorators of the repository, over the shared state.  Each calls the rest of the
    chain last, if it does. *)
Definition FixedFeeDecorator (enabled isCheckTx : bool) (tx : AnteTx) (c : AnteContext) : Decorator St := λ next,
  accounts ← reads (λ s, sg_accounts (an_sig s));
  ids ← reads an_ids;
  in_fee (FixedFee_AnteHandle accounts (Some ids) (ac_ctx c) isCheckTx (ac_simulate c) enabled (atx_Fee tx) (mret tt));;
  next.
Definition PhiSigVerificationDecorator (tx : AnteTx) (c : AnteContext) : Decorator St := λ next,
  ids ← reads an_ids;
  in_sig (PhiSigVerification_AnteHandle ids c (atx_Sig tx) (mret tt));;
  next.
Definition IdentityStatusDecorator (tx : AnteTx) (c : AnteContext) : Decorator St := λ next,
  query (λ s, IdentityStatusGuard_AnteHandle (an_ids s) (ac_simulate c) (ac_IsReCheckTx c) (stx_Signers <$> atx_Sig tx) (Ok tt));;
  next.

(** ** The chain *)
Definition NewAnteHandler (o : HandlerOptions) : outcome (AnteTx → AnteContext → bool → M St unit) :=
  err_if (negb (ho_AccountKeeper o)) (Plain "account keeper is required for ante builder");;
  err_if (negb (ho_BankKeeper o)) (Plain "bank keeper is required for ante builder");;
  err_if (negb (ho_CoinKeeper o)) (Plain "coin keeper is required for ante builder");;
  err_if (negb (ho_SignModeHandler o)) (Plain "sign mode handler is required for ante builder");;
  err_if (negb (ho_VaultReader o)) (Plain "vault reader is required for ante builder (gov-param guard)");;
  err_if (negb (ho_WebAuthnParams o)) (Plain "webauthn param source is required for ante builder");;
  err_if (negb (ho_IdentityStatus o)) (Plain "identity status source is required for ante builder (DID lifecycle guard)");;
  err_if (negb (ho_UVPolicy o)) (Plain "uv policy source is required for ante builder (stepped User-Verification)");;
  Ok (λ tx c isCheckTx, ChainAnteDecorators [
    SetUpContext tx c;
    MaxGas_AnteHandle (atx_Fee tx) (ac_simulate c);
    ExtensionOptions tx c;
    ValidateBasic tx c;
    TxTimeoutHeight tx c;
    ValidateMemo tx c;
    ConsumeGasForTxSize tx c;
    RejectUnsafeGovParams_AnteHandle an_inst (atx_Gov tx);
    FixedFeeDecorator (ho_FeegrantKeeper o) isCheckTx tx c;
    SetPubKey tx c;
    ValidateSigCount tx c;
    SigGasConsume tx c;
    PhiSigVerificationDecorator tx c;
    IdentityStatusDecorator tx c;
    IncrementSequence tx]).

(** ** What the chain relies on *)
Definition logged (f f' : FeeState B F) : Prop :=
  fe_bank f' = fe_bank f ∧ fe_coin f' = fe_coin f ∧ fe_grants f' = fe_grants f ∧ ∃ log, fe_events f' = fe_events f ++ log.
(** nothing changes but accounts, gas and the events *)
Definition accounts_only (s s' : St) : Prop := logged (an_fee s) (an_fee s') ∧ an_inst s' = an_inst s ∧ an_ids s' = an_ids s.
(** nor do the accounts *)
Definition gas_only (s s' : St) : Prop := accounts_only s s' ∧ sg_accounts (an_sig s') = sg_accounts (an_sig s).
Definition sequence (a : A) (x : string) : option Z := acc_Sequence <$> GetAccount a x.
(** a decorator that lets a transaction through has called the rest of the chain *)
Definition passes (R : St → St → Prop) (d : Decorator St) : Prop :=
  ∀ next s s'', d next s = (Ok tt, s'') → ∃ s', R s s' ∧ next s' = (Ok tt, s'').
Class SdkLaws : Prop := {
  SetUpContext_passes tx c : passes gas_only (SetUpContext tx c);
  ExtensionOptions_passes tx c : passes gas_only (ExtensionOptions tx c);
  ValidateBasic_passes tx c : passes gas_only (ValidateBasic tx c);
  TxTimeoutHeight_passes tx c : passes gas_only (TxTimeoutHeight tx c);
  ValidateMemo_passes tx c : passes gas_only (ValidateMemo tx c);
  ConsumeGasForTxSize_passes tx c : passes gas_only (ConsumeGasForTxSize tx c);
  (** it sets missing public keys *)
  SetPubKey_passes tx c : passes (λ s s', accounts_only s s' ∧
    ∀ x, sequence (sg_accounts (an_sig s')) x = sequence (sg_accounts (an_sig s)) x) (SetPubKey tx c);
  ValidateSigCount_passes tx c : passes gas_only (ValidateSigCount tx c) }.
(** the account keeper is a map from addresses to accounts; nonces are kept beside it *)
Class AccountLaws : Prop := {
  TryAddUnorderedNonce_keeps signer t (a a' : A) o x : TryAddUnorderedNonce signer t a = (o, a') → GetAccount a' x = GetAccount a x;
  GetAccount_address (a : A) x acc : GetAccount a x = Some acc → acc_Address acc = x;
  GetAccount_SetAccount (a : A) acc x :
    GetAccount (SetAccount acc a) x = if bool_decide (x = acc_Address acc) then Some acc else GetAccount a x }.

(** ** What the decorators leave *)
Context `{!SdkLaws} `{!AccountLaws} `{!BankLaws B}.
#[export] Instance logged_preorder : PreOrder logged.
Proof.
  split.
  - intros f. split_and!; [done..|]. exists []. by rewrite app_nil_r.
  - intros f g h (? & ? & ? & l & E) (? & ? & ? & l' & E'). split_and!; [congruence..|]. exists (l ++ l'). by rewrite E', E, app_assoc.
Qed.
#[export] Instance accounts_only_preorder : PreOrder accounts_only.
Proof. split; [intros s; split; [reflexivity|done]|]. intros s t u (? & ? & ?) (? & ? & ?). split; [by etrans|split; congruence]. Qed.
#[export] Instance gas_only_preorder : PreOrder gas_only.
Proof. split; [intros s; split; [reflexivity|done]|]. intros s t u [? ?] [? ?]. split; [by etrans|congruence]. Qed.

Lemma nonce_loop l t s s' x :
  for_each l (λ a, added ← attempt (on_accounts (TryAddUnorderedNonce a t)); match added with inl _ => mret tt | inr _ => fail ErrInvalidRequest end) s = (Ok tt, s') →
  GetAccount (sg_accounts s') x = GetAccount (sg_accounts s) x.
Proof.
  revert s. induction l as [|a l IH]; intros s E; cbn [for_each] in E; go_inv; [done|]. repeat match goal with u : unit |- _ => destruct u end.
  rename select (for_each _ _ _ = _) into El. rewrite (IH _ El). unfold on_accounts, zoom in *.
  destruct (TryAddUnorderedNonce a t (sg_accounts s)) as [o a'] eqn:Ea. apply (TryAddUnorderedNonce_keeps _ _ _ _ _ x) in Ea.
  repeat case_match; go_inv; simplify_eq; try done; naive_solver.
Qed.
Lemma nonce_keeps c tx s s' x : verifyUnorderedNonce c tx s = (Ok tt, s') → GetAccount (sg_accounts s') x = GetAccount (sg_accounts s) x.
Proof.
  unfold verifyUnorderedNonce, on_gas. intros E. go_inv. destruct (ac_ExecModeSimulate c); go_inv; [done|].
  rename select (for_each _ _ _ = _) into El. by apply nonce_loop with (x := x) in El.
Qed.
Lemma fee_decorator_passes enabled chk tx ftx c : atx_Fee tx = Some ftx →
  passes (λ s s', an_sig s' = an_sig s ∧ an_inst s' = an_inst s ∧ an_ids s' = an_ids s ∧ (coin_wf (fe_coin (an_fee s)) →
    ∃ log, fe_events (an_fee s') = fe_events (an_fee s) ++ log ∧
      fee_charged (sg_accounts (an_sig s)) (Some (an_ids s)) (ac_ctx c) chk (ac_simulate c) ftx (an_fee s) (an_fee s') log))
    (FixedFeeDecorator enabled chk tx c).
Proof.
  intros Ht next s s'' E. unfold FixedFeeDecorator, in_fee in E. rewrite Ht in E. go_inv. repeat match goal with u : unit |- _ => destruct u end.
  eexists. split; [|done]. split_and!; [done..|]. intros Hwf. rename select (FixedFee_AnteHandle _ _ _ _ _ _ _ _ _ = _) into Ef.
  apply fixed_fee_Ok in Ef as (f & log & [_ <-]%ret_Ok & He & Hc); [|try done..]. by exists log.
Qed.
Lemma fee_charged_logged accounts ids ctx isCheckTx simulate tx (f0 f f' f1 : FeeState B F) log : logged f0 f → logged f' f1 →
  fee_charged accounts (Some ids) ctx isCheckTx simulate tx f f' log → fee_charged accounts (Some ids) ctx isCheckTx simulate tx f0 f1 log.
Proof. unfold fee_charged, logged. intros (Eb & Ec & Eg & _) (Eb' & Ec' & Eg' & _). by rewrite <- Eb, <- Ec, <- Eg, Eb', Ec', Eg'. Qed.

(** the signatures on a transaction the signature decorator let through *)
Definition signed (ids : IdStore) (c : AnteContext) (tx : SigTx) (a : A) (signers : list string) (sigs : list SignatureV2) : Prop :=
  stx_Signers tx = Ok signers ∧ stx_Sigs tx = Ok sigs ∧ Forall2 (signer_ok ids c tx a) signers sigs ∧
  (∀ i signer sig acc, sensitive_tx ids (stx_Msgs tx) → signers !! i = Some signer → sigs !! i = Some sig →
     GetAccount a signer = Some acc → has_r1 acc = true → by_passkey ids c tx true acc sig).
Lemma sig_decorator_passes tx stx c : atx_Sig tx = Some stx → verifying c →
  passes (λ s s', an_fee s' = an_fee s ∧ an_inst s' = an_inst s ∧ an_ids s' = an_ids s ∧
    (∀ x, GetAccount (sg_accounts (an_sig s')) x = GetAccount (sg_accounts (an_sig s)) x) ∧
    ∃ signers sigs, signed (an_ids s) c stx (sg_accounts (an_sig s')) signers sigs) (PhiSigVerificationDecorator tx c).
Proof.
  intros Ht Hc next s s'' E. unfold PhiSigVerificationDecorator, in_sig in E. rewrite Ht in E. go_inv. repeat match goal with u : unit |- _ => destruct u end.
  eexists. split; [|done]. rename select (PhiSigVerification_AnteHandle _ _ _ _ _ = _) into Es.
  apply sig_decorator_Ok in Es as (g & signers & sigs & [_ <-]%ret_Ok & Hu & Hs); [|done]. cbn [an_sig an_inst an_ids an_fee].
  split_and!; [done..| |by exists signers, sigs]. intros x. destruct (stx_Unordered stx); [by eapply nonce_keeps|by rewrite Hu].
Qed.
Lemma status_decorator_passes tx stx signers c : atx_Sig tx = Some stx → stx_Signers stx = Ok signers → verifying c →
  passes (λ s s', s' = s ∧ (registry_ok (an_ids s) → ∀ signer did d, signer ∈ signers → nul_free (AccAddress_String signer) →
    s_docs (an_ids s) !! did = Some d → Controller d = AccAddress_String signer → Status d = DID_STATUS_ACTIVE)) (IdentityStatusDecorator tx c).
Proof.
  intros Ht Hs (Hsim & Hre & _) next s s'' E. unfold IdentityStatusDecorator in E. rewrite Ht, Hsim, Hre in E. cbn [fmap option_fmap option_map] in E.
  rewrite Hs in E. apply bind_Ok in E as ([] & s1 & [Eg <-]%query_Ok & E). exists s. split; [|done]. split; [done|]. intros [[Hd Hc _ _ _ _ _] _ _ _] signer did d Hin Hn Hl Hco.
  cbn in Eg. rewrite guard_signers_spec in Eg.
  destruct (existsb _ signers) eqn:Eb; [done|]. destruct (decide (Status d = DID_STATUS_ACTIVE)) as [?|Hns]; [done|].
  assert (existsb (λ s0, HasNonActiveDID (an_ids s) (AccAddress_String s0)) signers = true); [|congruence].
  apply existsb_exists. exists signer. split; [by apply list_elem_of_In|]. apply HasNonActiveDID_spec; [done..|]. by exists did, d.
Qed.

Lemma max_gas_passes ftx : passes (λ s s', s' = s ∧ ftx_Gas ftx ≤ MaxTxGas) (MaxGas_AnteHandle (Some ftx) false).
Proof.
  intros next s s'' E. unfold MaxGas_AnteHandle in E. rewrite (run_bind _ _ s ftx s) in E by done.
  apply bind_Ok in E as ([] & s1 & [Hg <-]%fail_if_Ok & E). exists s. split; [|done]. split; [done|]. by apply Z.ltb_ge.
Qed.

Lemma charge_signer_Ok signer sig s s' : charge_signer false signer sig s = (Ok tt, s') →
  sg_accounts s' = sg_accounts s ∧ ∃ acc pk, GetAccount (sg_accounts s) signer = Some acc ∧ acc_PubKey acc = Some pk ∧ phi_key pk.
Proof.
  unfold charge_signer, on_gas. intros E. go_inv. split; [done|]. rename select (GetAccount _ _ = _) into Hg.
  rename select (PhiSigVerificationGasConsumer _ _ _ _ = _) into Ec. match type of Hg with _ = Some ?x => rename x into acc end.
  exists acc. destruct (acc_PubKey acc) as [pk|]; [|done]. exists pk. by apply gas_consumer_enforces_keys in Ec as [? _].
Qed.
Lemma charge_signers_Ok signers sigs s s' : charge_signers false signers sigs s = (Ok tt, s') →
  sg_accounts s' = sg_accounts s ∧ ∀ i signer sig acc, signers !! i = Some signer → sigs !! i = Some sig →
    GetAccount (sg_accounts s) signer = Some acc → ∃ pk, acc_PubKey acc = Some pk ∧ phi_key pk.
Proof.
  revert signers s. induction sigs as [|sig sigs IH]; intros signers s E; [destruct signers; apply ret_Ok in E as [_ ->]; done|].
  destruct signers as [|signer signers]; [done|]. cbn [charge_signers] in E.
  apply bind_Ok in E as ([] & s1 & [Ea (acc & pk & Hg & Hp & Hk)]%charge_signer_Ok & [Eb Hr]%IH). split; [congruence|].
  intros [|i] x y acc' Hi Hj Hg'; [|rewrite <- Ea in Hg'; by eapply Hr]. injection Hi as <-. injection Hj as <-.
  exists pk. assert (acc' = acc) as -> by congruence. done.
Qed.
Lemma sig_gas_passes tx stx c : atx_Sig tx = Some stx → ac_simulate c = false →
  passes (λ s s', gas_only s s' ∧ ∀ signers sigs i signer sig acc, stx_Signers stx = Ok signers → stx_Sigs stx = Ok sigs →
    signers !! i = Some signer → sigs !! i = Some sig → GetAccount (sg_accounts (an_sig s)) signer = Some acc →
    ∃ pk, acc_PubKey acc = Some pk ∧ phi_key pk) (SigGasConsume tx c).
Proof.
  intros Ht Hc next s s'' E. unfold SigGasConsume, in_sig in E. rewrite Ht, Hc in E. go_inv. repeat match goal with u : unit |- _ => destruct u end.
  eexists. split; [|done]. rename select (charge_signers _ _ _ _ = _) into Es. apply charge_signers_Ok in Es as [Ea Hs].
  split; [split; [split; [reflexivity|done]|done]|]. intros l l' i signer sig acc Hl Hl' Hi Hj Hg. ok_eq.
  by eapply Hs.
Qed.

(** ** Sequence numbers *)
Lemma sequence_next (a : A) acc x signer : GetAccount a signer = Some acc →
  sequence (SetAccount (next_sequence acc) a) x =
    if bool_decide (x = signer) then Some ((acc_Sequence acc + 1) mod 2 ^ 64) else sequence a x.
Proof.
  intros Hg. unfold sequence. rewrite GetAccount_SetAccount. cbn [acc_Address next_sequence]. rewrite (GetAccount_address _ _ _ Hg).
  by case_bool_decide.
Qed.
(** no account is about to run out of sequence numbers *)
Definition room (a : A) (n : nat) : Prop := ∀ x q, sequence a x = Some q → 0 ≤ q ∧ q + Z.of_nat n < 2 ^ 64.
Lemma increments signers (a a' : A) : room a (length signers) → for_each signers increment_signer a = (Ok tt, a') →
  ∀ x q, sequence a x = Some q → ∃ q', sequence a' x = Some q' ∧ q ≤ q' ∧ (x ∈ signers → q < q').
Proof.
  revert a. induction signers as [|signer signers IH]; intros a Hr E x q Hq; cbn [for_each length] in *.
  { apply ret_Ok in E as [_ ->]. exists q. split_and!; [done|lia|set_solver]. }
  apply bind_Ok in E as ([] & a1 & E1 & E2). unfold increment_signer in E1. rewrite (run_bind _ _ a (GetAccount a signer) a) in E1 by done.
  destruct (GetAccount a signer) as [acc|] eqn:Hg; [injection E1 as <-|done].
  assert (∀ y, sequence (SetAccount (next_sequence acc) a) y = if bool_decide (y = signer) then Some (acc_Sequence acc + 1) else sequence a y) as Hs.
  { intros y. rewrite (sequence_next _ _ _ _ Hg). case_bool_decide; [|done]. f_equal. apply Z.mod_small.
    destruct (Hr signer (acc_Sequence acc)) as [? ?]; [unfold sequence; by rewrite Hg|lia]. }
  assert (sequence a signer = Some (acc_Sequence acc)) as Hq0 by (unfold sequence; by rewrite Hg).
  assert (room (SetAccount (next_sequence acc) a) (length signers)) as Hr'.
  { intros y p. rewrite Hs. case_bool_decide; [intros [= <-]; destruct (Hr _ _ Hq0); lia|]. intros Hp. destruct (Hr _ _ Hp). lia. }
  destruct (decide (x = signer)) as [->|Hne].
  - destruct (IH _ Hr' E2 signer (acc_Sequence acc + 1)) as (q' & ? & ? & _); [rewrite Hs; by rewrite bool_decide_true|].
    exists q'. split_and!; [done|simplify_eq; lia..].
  - destruct (IH _ Hr' E2 x q) as (q' & ? & ? & Hlt); [rewrite Hs; by rewrite bool_decide_false|].
    exists q'. split_and!; [done|lia|]. intros [?|?]%elem_of_cons; [done|by apply Hlt].
Qed.
Lemma increment_passes tx stx : atx_Sig tx = Some stx →
  passes (λ s s', accounts_only s s' ∧
    if stx_Unordered stx then s' = s else ∃ signers, stx_Signers stx = Ok signers ∧
      for_each signers increment_signer (sg_accounts (an_sig s)) = (Ok tt, sg_accounts (an_sig s'))) (IncrementSequence tx).
Proof.
  intros Ht next s s'' E. unfold IncrementSequence, in_sig, on_accounts in E. rewrite Ht in E. rewrite (run_bind _ _ s stx s) in E by done.
  apply bind_Ok in E as ([] & s1 & E & Hn). exists s1. split; [|done]. destruct (stx_Unordered stx); go_inv; [by split|].
  split; [split; [reflexivity|done]|]. by eexists.
Qed.

(** ** What the chain admits *)
(** the four legs of the chain: to the fee, the fee, to the signatures, to the end *)
Record stages (ftx : FeeTx) (stx : SigTx) (gov : list GovTxMsg) (c : AnteContext) (chk : bool) (s s1 s2 s3 s4 s' : St) : Prop := {
  sg_before : gas_only s s1;
  sg_gas : ftx_Gas ftx ≤ MaxTxGas;
  sg_gov sum : SumVaultBalance (an_inst s1) = Ok sum → sum ≤ 0 ∨ ∀ m p, m ∈ gov → carries p m → enablesDepositBurn p = false;
  sg_fee : an_sig s2 = an_sig s1 ∧ an_inst s2 = an_inst s1 ∧ an_ids s2 = an_ids s1 ∧ (coin_wf (fe_coin (an_fee s1)) →
    ∃ log, fe_events (an_fee s2) = fe_events (an_fee s1) ++ log ∧
      fee_charged (sg_accounts (an_sig s1)) (Some (an_ids s1)) (ac_ctx c) chk false ftx (an_fee s1) (an_fee s2) log);
  sg_keys : accounts_only s2 s3 ∧ ∀ x, sequence (sg_accounts (an_sig s3)) x = sequence (sg_accounts (an_sig s2)) x;
  sg_signed : an_fee s4 = an_fee s3 ∧ an_inst s4 = an_inst s3 ∧ an_ids s4 = an_ids s3 ∧
    (∀ x, GetAccount (sg_accounts (an_sig s4)) x = GetAccount (sg_accounts (an_sig s3)) x) ∧
    ∃ signers sigs, signed (an_ids s3) c stx (sg_accounts (an_sig s4)) signers sigs ∧
      (∀ i signer sig acc, signers !! i = Some signer → sigs !! i = Some sig → GetAccount (sg_accounts (an_sig s4)) signer = Some acc →
         ∃ pk, acc_PubKey acc = Some pk ∧ phi_key pk) ∧
      (registry_ok (an_ids s4) → ∀ signer did d, signer ∈ signers → nul_free (AccAddress_String signer) →
         s_docs (an_ids s4) !! did = Some d → Controller d = AccAddress_String signer → Status d = DID_STATUS_ACTIVE);
  sg_counted : accounts_only s4 s' ∧
    if stx_Unordered stx then s' = s4 else ∃ signers, stx_Signers stx = Ok signers ∧
      for_each signers increment_signer (sg_accounts (an_sig s4)) = (Ok tt, sg_accounts (an_sig s'));
}.
Lemma gov_passes gov : passes (λ s s', s' = s ∧ ∀ sum, SumVaultBalance (an_inst s) = Ok sum →
  sum ≤ 0 ∨ ∀ m p, m ∈ gov → carries p m → enablesDepositBurn p = false) (RejectUnsafeGovParams_AnteHandle an_inst gov).
Proof.
  intros next s s'' E. exists s. split.
  - split; [done|]. intros sum Hs. exact (proj1 (proj1 (gov_params_guard_decides an_inst gov next s sum tt s'' Hs) E)).
  - unfold RejectUnsafeGovParams_AnteHandle in E. apply bind_Ok in E as ([] & s1 & E1 & E2). enough (s1 = s) as -> by done.
    clear E2. revert E1. induction gov as [|m gov IH]; cbn [for_each]; [by intros [_ ->]%ret_Ok|].
    intros ([] & s2 & [_ <-]%query_Ok & E)%bind_Ok. by apply IH.
Qed.
Lemma handler_stages o handler ftx stx gov c chk s s' : NewAnteHandler o = Ok handler → verifying c →
  handler (mkAnteTx (Some ftx) (Some stx) gov) c chk s = (Ok tt, s') → ∃ s1 s2 s3 s4, stages ftx stx gov c chk s s1 s2 s3 s4 s'.
Proof.
  intros Ho Hc E. unfold NewAnteHandler in Ho. do 8 apply obind_Ok in Ho as ([] & _ & Ho). injection Ho as <-.
  unfold ChainAnteDecorators in E. cbn [foldr atx_Fee atx_Gov] in E. set (tx := mkAnteTx _ _ _) in *. pose proof Hc as (Hsim & _).
  rewrite Hsim in E.
  apply SetUpContext_passes in E as (t1 & R1 & E). apply max_gas_passes in E as (? & [-> Hgas] & E).
  apply ExtensionOptions_passes in E as (t2 & R2 & E). apply ValidateBasic_passes in E as (t3 & R3 & E).
  apply TxTimeoutHeight_passes in E as (t4 & R4 & E). apply ValidateMemo_passes in E as (t5 & R5 & E).
  apply ConsumeGasForTxSize_passes in E as (s1 & R6 & E). apply gov_passes in E as (? & [-> Hgov] & E).
  apply (fee_decorator_passes _ _ tx ftx) in E as (s2 & Hfee & E); [|done]. rewrite Hsim in Hfee.
  apply SetPubKey_passes in E as (t6 & [R7 Q7] & E). apply ValidateSigCount_passes in E as (t7 & [R8 Q8] & E).
  apply (sig_gas_passes tx stx) in E as (s3 & [[R9 Q9] Hk] & E); [|done..].
  apply (sig_decorator_passes tx stx) in E as (s4 & (Ef & Ei & Ed & Ea & signers & sigs & Hsig) & E); [|done..].
  apply (status_decorator_passes tx stx signers) in E as (? & [-> Hst] & E); [|done|apply Hsig|done].
  apply (increment_passes tx stx) in E as (? & Hinc & [_ ->]%ret_Ok); [|done].
  exists s1, s2, s3, s4. split; [by repeat (etrans; [eassumption|])|done|done|done| | |done].
  - split; [by repeat (etrans; [eassumption|])|]. intros x. by rewrite Q9, Q8, Q7.
  - split_and!; [done..|]. exists signers, sigs. split_and!; [done| |done]. intros i signer sig acc Hi Hj Hg. rewrite Ea, Q9 in Hg.
    eapply Hk; [apply Hsig|apply Hsig|done..].
Qed.

(** C15: the whole chain.  When the handler the application builds lets a delivered transaction
    through, in a state with sound coin-age queues and a sound identity registry, all of the
    following hold, whatever the decorators of the SDK between ours do to accounts, gas and
    events.  The transaction asks for no more gas than the ceiling.  None of its messages
    sets deposits to burn while vaults hold value.  The bank, x/coin and the fee grants have
    changed by exactly one fixed fee, or one use of the daily exemption, and x/institutions
    and x/identity not at all.  Every signer has signed, with keys the chain allows; where a
    message is sensitive, every signer whose key is or contains a secp256r1 key has used a
    passkey with user verification (a signer without such a key is not asked for one).  And
    every identity whose controller is recorded as the canonical text of a signer's address
    is ACTIVE; an identity recorded under another spelling of that address is not found by
    the guard. *)
Theorem ante_chain_guards o handler ftx stx gov c s s' sum :
  NewAnteHandler o = Ok handler → verifying c → coin_wf (fe_coin (an_fee s)) → registry_ok (an_ids s) →
  SumVaultBalance (an_inst s) = Ok sum →
  handler (mkAnteTx (Some ftx) (Some stx) gov) c false s = (Ok tt, s') →
  an_inst s' = an_inst s ∧ an_ids s' = an_ids s ∧ ftx_Gas ftx ≤ MaxTxGas ∧
  (sum ≤ 0 ∨ ∀ m p, m ∈ gov → carries p m → enablesDepositBurn p = false) ∧
  (∃ pre log post, fe_events (an_fee s') = fe_events (an_fee s) ++ pre ++ log ++ post ∧
     fee_charged (sg_accounts (an_sig s)) (Some (an_ids s)) (ac_ctx c) false false ftx (an_fee s) (an_fee s') log) ∧
  ∃ a signers sigs, signed (an_ids s) c stx a signers sigs ∧
    (∀ i signer sig acc, signers !! i = Some signer → sigs !! i = Some sig → GetAccount a signer = Some acc →
       ∃ pk, acc_PubKey acc = Some pk ∧ phi_key pk) ∧
    (∀ signer did d, signer ∈ signers → nul_free (AccAddress_String signer) →
       s_docs (an_ids s) !! did = Some d → Controller d = AccAddress_String signer → Status d = DID_STATUS_ACTIVE).
Proof.
  intros Ho Hc Hwf Hreg Hsum E. destruct (handler_stages _ _ _ _ _ _ _ _ _ Ho Hc E) as (s1 & s2 & s3 & s4 & Hst).
  destruct Hst as [[[L1 [Ei1 Ed1]] Ea1] Hgas Hgov Hfee [[L3 [Ei3 Ed3]] _] (Ef4 & Ei4 & Ed4 & _ & signers & sigs & Hsig & Hk & Hact) [[L5 [Ei5 Ed5]] _]].
  destruct Hfee as (Es2 & Ei2 & Ed2 & Hfee). destruct Hfee as (log & El & Hfee); [by rewrite (proj1 (proj2 L1))|]. rewrite Ef4 in L5.
  pose proof L1 as (_ & _ & _ & pre & Epre). pose proof (transitivity L3 L5) as (_ & _ & _ & post & Epost).
  split_and!; [congruence|congruence|done|apply Hgov; congruence| |].
  - exists pre, log, post. split; [by rewrite Epost, El, Epre, <- !app_assoc|]. rewrite Ea1, Ed1 in Hfee.
    exact (fee_charged_logged _ _ _ _ _ _ _ _ _ _ _ L1 (transitivity L3 L5) Hfee).
  - exists (sg_accounts (an_sig s4)), signers, sigs. rewrite Ed3, Ed2, Ed1 in Hsig. rewrite Ed4, Ed3, Ed2, Ed1 in Hact. split_and!; [done..|]. by apply Hact.
Qed.

(** ** Replays *)
Abbreviation seq s := (sequence (sg_accounts (an_sig s))).
(** what a transaction that passes leaves of the sequence numbers: they do not fall, and
    those of the signers of an ordered transaction, which its signatures carry, rise *)
Lemma handler_sequences o handler ftx stx gov c chk s s' signers : NewAnteHandler o = Ok handler → verifying c →
  stx_Signers stx = Ok signers → room (sg_accounts (an_sig s)) (length signers) →
  handler (mkAnteTx (Some ftx) (Some stx) gov) c chk s = (Ok tt, s') →
  (∀ x q, seq s x = Some q → ∃ q', seq s' x = Some q' ∧ q ≤ q') ∧
  (stx_Unordered stx = false → ∃ sigs, stx_Sigs stx = Ok sigs ∧ Forall2 (λ x sig, ∃ q', seq s x = Some (sv_Sequence sig) ∧
     seq s' x = Some q' ∧ sv_Sequence sig < q') signers sigs).
Proof.
  intros Ho Hc Hl Hroom E. destruct (handler_stages _ _ _ _ _ _ _ _ _ Ho Hc E) as (s1 & s2 & s3 & s4 & Hst).
  destruct Hst as [[[L1 _] Ea1] _ _ Hfee [_ Q3] (_ & _ & _ & Ea4 & signers' & sigs & Hsig & _) [_ Hinc]].
  destruct Hfee as (Es2 & _).
  assert (∀ x, seq s4 x = seq s x) as Es by (intros x; unfold sequence at 1; rewrite Ea4, <- Ea1, <- Es2; apply Q3).
  destruct Hsig as (Hl' & Hs' & Hf & _). assert (signers' = signers) as -> by congruence.
  assert (room (sg_accounts (an_sig s4)) (length signers)) as Hroom4 by (intros x q; rewrite Es; apply Hroom).
  destruct (stx_Unordered stx) eqn:Hu.
  { subst s4. split; [|done]. intros x q. rewrite <- Es. exists q. split; [done|lia]. }
  destruct Hinc as (? & Hl'' & Hinc). assert (x = signers) as -> by congruence. pose proof (increments _ _ _ Hroom4 Hinc) as Hi. split.
  - intros x q Hq. rewrite <- Es in Hq. destruct (Hi x q Hq) as (q' & ? & ? & _). eauto.
  - intros _. exists sigs. split; [done|]. apply Forall2_same_length_lookup. split; [by eapply Forall2_length|].
    intros i x sig Hx Hsx. destruct (Forall2_lookup_lr _ _ _ _ _ _ Hf Hx Hsx) as (acc & Hg & Hq & _). rewrite Hu in Hq.
    assert (seq s4 x = Some (sv_Sequence sig)) as Hq4 by (unfold sequence; rewrite Hg; cbn; by rewrite Hq).
    destruct (Hi _ _ Hq4) as (q' & ? & _ & Hlt). rewrite Es in Hq4. exists q'. split_and!; [done..|]. apply Hlt. by eapply list_elem_of_lookup_2.
Qed.

(** the later life of the chain: delivered transactions pass, and execution, which leaves
    the sequence numbers of the accounts there are *)
Inductive later (handler : AnteTx → AnteContext → bool → M St unit) : St → St → Prop :=
| later_passes ftx stx gov c signers s s' : verifying c → stx_Signers stx = Ok signers →
    room (sg_accounts (an_sig s)) (length signers) →
    handler (mkAnteTx (Some ftx) (Some stx) gov) c false s = (Ok tt, s') → later handler s s'
| later_executes s s' : (∀ x q, seq s x = Some q → seq s' x = Some q) → later handler s s'.
Lemma later_sequences o handler s s' : NewAnteHandler o = Ok handler → rtc (later handler) s s' →
  ∀ x q, seq s x = Some q → ∃ q', seq s' x = Some q' ∧ q ≤ q'.
Proof.
  intros Ho. induction 1 as [s|s t s' Hst _ IH]; intros x q Hq; [exists q; split; [done|lia]|].
  enough (∃ q', seq t x = Some q' ∧ q ≤ q') as (q1 & Hq1 & ?) by (destruct (IH _ _ Hq1) as (q2 & ? & ?); exists q2; split; [done|lia]).
  destruct Hst as [ftx stx gov c signers s t Hc Hl Hr E|s t Hk]; [|exists q; split; [by apply Hk|lia]].
  destruct (handler_sequences _ _ _ _ _ _ _ _ _ _ Ho Hc Hl Hr E) as [Hm _]. by apply Hm.
Qed.

(** C16: no transaction is honoured twice.  An ordered transaction that passed the chain does
    not pass it again, in any state the chain reaches later, whatever transactions have
    been delivered and executed in between. *)
Theorem no_replay o handler ftx stx gov c c' signers s s1 s2 s3 :
  NewAnteHandler o = Ok handler → verifying c → verifying c' → stx_Unordered stx = false → stx_Signers stx = Ok signers → signers ≠ [] →
  room (sg_accounts (an_sig s)) (length signers) → room (sg_accounts (an_sig s2)) (length signers) →
  handler (mkAnteTx (Some ftx) (Some stx) gov) c false s = (Ok tt, s1) → rtc (later handler) s1 s2 →
  handler (mkAnteTx (Some ftx) (Some stx) gov) c' false s2 ≠ (Ok tt, s3).
Proof.
  intros Ho Hc Hc' Hu Hl Hne Hr Hr2 E Hlater E2.
  destruct (handler_sequences _ _ _ _ _ _ _ _ _ _ Ho Hc Hl Hr E) as [_ (sigs & Hsg & Hf)]; [done|].
  destruct (handler_sequences _ _ _ _ _ _ _ _ _ _ Ho Hc' Hl Hr2 E2) as [_ (sigs' & Hsg' & Hf2)]; [done|].
  assert (sigs' = sigs) as -> by congruence. destruct signers as [|x signers]; [done|].
  apply Forall2_cons_inv_l in Hf as (sig & rest & (q1 & _ & Hq1 & Hlt) & _ & ->).
  apply Forall2_cons in Hf2 as [(q3 & Hq2 & _) _]. destruct (later_sequences _ _ _ _ Ho Hlater _ _ Hq1) as (q2 & Hq2' & Hle).
  rewrite Hq2 in Hq2'. injection Hq2' as Hq2'. lia.
Qed.
End chain.
