(* ===== verification/AnteDemo.v ===== *)
(** * The ante chain: concrete transactions

    Witnesses of the theorems about the ante chain: a charged transfer, a nested multisig
    key, a passkey-signed sensitive transaction, a guarded proposal, and a transaction that
    passes the whole chain, once. *)
From stdpp Require Import base gmap strings list.
From Stdlib Require Import ZArith Lia.
From S2P Require Import Prelude GoInt KVStore Interfaces CoinTypes CoinAge CoinKeeper AnteFee InstTypes InstKeeper InstDemo IdTypes IdKeeper IdServer IdIndex IdStep IdChain AnteSig AntePasskey AnteChain.

(** every account exists; a grant always covers the fee *)
Definition all_accounts : AccountReader unit :=
  {| GetModuleAddress _ m := Some (Ledger.moduleAddress m); HasAccount _ _ := true |}.
Definition all_grants : FeegrantKeeper unit := {| UseGrantedFees _ _ _ _ := mret tt |}.
Definition fee_state : FeeState Ledger.ledger unit := mkFeeState demo_ledger demo_store tt [].
Definition transfer_tx : FeeTx :=
  mkFeeTx 100000 "alice" None [TransferMsg (mkMsgTransfer "alice" "bob" "60000")].
Definition charge : M (FeeState Ledger.ledger unit) unit :=
  @FixedFee_AnteHandle Ledger.ledger unit unit unit Ledger.ledger_bank all_grants all_accounts demo_identity plain_codec
    tt None demo_ctx false false true (Some transfer_tx) (mret tt).
Lemma fee_witness :
  ∃ s', charge fee_state = (Ok tt, s') ∧ GetSupply (fe_bank s') = 200070 ∧ GetBalance (fe_bank s') "alice" = 195000.
Proof.
  assert (charge fee_state = (Ok tt, snd (charge fee_state))) as Hr by (vm_compute; reflexivity).
  destruct (@fixed_fee_exact Ledger.ledger unit unit unit Ledger.ledger_bank all_grants all_accounts demo_identity plain_codec
    tt None Ledger.ledger_laws demo_ctx false false true transfer_tx (mret tt) fee_state _ demo_store_wf Hr)
    as (s' & exempt & d & Hex & Hn & _ & Hif).
  assert (exempt = false) as -> by (vm_compute in Hex; congruence). destruct Hif as (out & Hout & _ & [Hs _] & _).
  apply ret_Ok in Hn as [_ Hn]. exists (snd (charge fee_state)). split; [exact Hr|]. split; [rewrite <- Hn; exact Hs|].
  vm_compute. reflexivity.
Defined.

Definition nested_key : PubKey := MultisigKey 1 [Secp256k1Key "a"; MultisigKey 1 [Secp256r1Key "b"; Secp256k1Key "c"]].
Definition nested_sig : SignatureData := MultiSignature [true; true] [SingleSignature 1 "s"; MultiSignature [true; false] [SingleSignature 1 "t"]].
Lemma gas_witness : phi_key nested_key ∧ sig_cost (mkAuthParams 1000) nested_key nested_sig = 1500.
Proof.
  destruct (gas_consumer_enforces_keys (mkAuthParams 1000) nested_key nested_sig (mkGasMeter 0 10000) (mkGasMeter 1500 10000)
    ltac:(vm_compute; reflexivity)) as [Hk Hg]. split; [exact Hk|]. apply (f_equal gas_consumed) in Hg. symmetry. exact Hg.
Defined.

(** a passkey assertion carries its challenge, and the user-verified flag in front *)
Definition demo_webauthn : WebAuthnVerifier :=
  {| VerifyWebAuthn a := bool_decide (wa_Signature a = wa_PublicKey a +:+ wa_Challenge a) &&
       (negb (wa_RequireUserVerification a) || bool_decide (wa_AuthenticatorData a = "UV")) |}.
Definition demo_json : ClientDataDecoder := {| json_origin s := Some s |}.
Definition same_hash : Hasher := {| sha256 s := s |}.
Definition body_modes : SignModes :=
  {| GetSignBytes _ sd tx := Ok (sd_ChainID sd +:+ stx_Body tx);
     VerifyBareSignature _ sd data tx := match data with SingleSignature _ s => err_if (negb (bool_decide (s = stx_Body tx))) (Plain "bad") | _ => Err (Plain "multi") end |}.
Definition one_account : SignerAccounts unit :=
  {| UnorderedTransactionsEnabled _ := false;
     GetAccount _ a := if bool_decide (a = "alice") then Some (mkAccount "alice" (Some (Secp256r1Key "pk")) 7 3) else None;
     TryAddUnorderedNonce _ _ := mret tt |}.
Definition passkey_tx : SigTx :=
  mkSigTx false None
    (Ok [mkSigV2 (SingleSignature SIGN_MODE_DIRECT
           (WebAuthn_Marshal (mkWebAuthn "UV" (hd "" DefaultWebAuthnAllowedOrigins) ("pk" +:+ webAuthnChallengeDomain +:+ "phi-1" +:+ "body")))) 7])
    (Ok ["alice"]) [OtherMsg (hd "" DefaultUVSensitiveMsgTypeURLs) None] "body" true.
Definition deliver_mode : AnteContext := mkAnteContext (mkContext 1700000000 10 "phi-1") (1700000000 * nano) false false true false.
Definition verify_demo : M (SigState unit) unit :=
  @PhiSigVerification_AnteHandle unit one_account body_modes same_hash demo_webauthn demo_json plain_codec empty_store
    deliver_mode (Some passkey_tx) (mret tt).
Lemma user_verification_witness :
  ∃ acc sig, @by_passkey body_modes same_hash demo_webauthn demo_json plain_codec empty_store deliver_mode passkey_tx true acc sig ∧
    acc_PubKey acc = Some (Secp256r1Key "pk").
Proof.
  assert (verify_demo (mkSigState tt (mkGasMeter 0 10000)) = (Ok tt, mkSigState tt (mkGasMeter 0 10000))) as Hr by (vm_compute; reflexivity).
  destruct (@sensitive_tx_needs_user_verification unit one_account body_modes same_hash demo_webauthn demo_json plain_codec empty_store
    deliver_mode passkey_tx (mret tt) _ _ ltac:(by split_and!) Hr) as (s' & signers & sigs & _ & _ & Hs & Hg & _ & Huv).
  injection Hs as <-. injection Hg as <-. eexists _, _. split.
  - refine (Huv 0%nat "alice" _ (mkAccount "alice" (Some (Secp256r1Key "pk")) 7 3) _ _ _ _ _); [|reflexivity..].
    exists (OtherMsg (hd "" DefaultUVSensitiveMsgTypeURLs) None). split; [left|]. left. cbn. left.
  - reflexivity.
Defined.

Lemma gov_guard_witness :
  RejectUnsafeGovParams_AnteHandle (λ st : InstStore, st)
    [SubmitProposal (Some [SubmitProposal (Some [UpdateGovParams (mkGovV1Params false false false "dest")])])] (mret tt) ∅ =
  (Ok tt, ∅).
Proof.
  apply (gov_params_guard_decides (λ st : InstStore, st) _ (mret tt) ∅ 0 tt ∅); [vm_compute; reflexivity|]. split; [by left|done].
Defined.

(** ** The whole chain.  Accounts are a map; the SDK's decorators let everything through. *)
Abbreviation Accounts := (gmap string Account).
Definition ChainState : Type := AnteState Ledger.ledger unit Accounts.
Definition map_reader : AccountReader Accounts := {| GetModuleAddress _ m := Some (Ledger.moduleAddress m); HasAccount _ _ := true |}.
Definition map_accounts : SignerAccounts Accounts :=
  {| UnorderedTransactionsEnabled _ := false;
     GetAccount a x := acc ← a !! x; if bool_decide (acc_Address acc = x) then Some acc else None;
     TryAddUnorderedNonce _ _ := mret tt |}.
Definition map_writer : AccountWriter Accounts :=
  {| GetAuthParams _ := mkAuthParams 1000; SetAccount acc a := <[acc_Address acc := acc]> a |}.
Definition plain_sdk : SdkDecorators ChainState :=
  {| SetUpContext _ _ next := next; ExtensionOptions _ _ next := next; ValidateBasic _ _ next := next; TxTimeoutHeight _ _ next := next;
     ValidateMemo _ _ next := next; ConsumeGasForTxSize _ _ next := next; SetPubKey _ _ next := next; ValidateSigCount _ _ next := next |}.
Lemma plain_sdk_laws : @SdkLaws Ledger.ledger unit Accounts map_accounts plain_sdk.
Proof.
  split; try (intros tx c next s s'' E; exists s; split; [reflexivity|exact E]).
  intros tx c next s s'' E. exists s. split; [by split|exact E].
Qed.
Lemma map_laws : @AccountLaws Accounts map_accounts map_writer.
Proof.
  split.
  - by intros signer t a a' o x [= <- <-].
  - intros a x acc. cbn. destruct (a !! x); cbn; [|done]. case_bool_decide; [|done]. by intros [= <-].
  - intros a acc x. cbn. case_bool_decide; [subst; rewrite lookup_insert_eq; cbn; by rewrite bool_decide_true|].
    by rewrite lookup_insert_ne.
Qed.
Lemma empty_registry : registry_ok empty_store.
Proof. apply (iv_registry (mkIdState demo_ledger empty_store [])), empty_inv. vm_compute. discriminate. Qed.

Definition all_options : HandlerOptions := mkHandlerOptions true true true true true true true true true.
Definition chain_fee : FeeTx := mkFeeTx 100000 "alice" None (stx_Msgs passkey_tx).
Definition chain_tx : AnteTx := mkAnteTx (Some chain_fee) (Some passkey_tx) [OtherTxMsg].
Definition chain_accounts (seq : Z) : Accounts := {[ "alice" := mkAccount "alice" (Some (Secp256r1Key "pk")) seq 3 ]}.
Definition chain_state : ChainState := mkAnteState fee_state (mkSigState (chain_accounts 7) (mkGasMeter 0 10000)) ∅ empty_store.
Definition built : outcome (AnteTx → AnteContext → bool → M ChainState unit) :=
  @NewAnteHandler Ledger.ledger unit Accounts Ledger.ledger_bank all_grants map_reader map_accounts map_writer body_modes same_hash demo_webauthn
    demo_json plain_codec plain_sdk all_options.
Definition run_chain : M ChainState unit := match built with Ok h => h chain_tx deliver_mode false | _ => mret tt end.
Definition passed : ChainState := (run_chain chain_state).2.
Lemma chain_passes : run_chain chain_state = (Ok tt, passed).
Proof. vm_compute. reflexivity. Qed.
Lemma ante_chain_guards_witness : ∃ a signers sigs,
  @signed Accounts map_accounts body_modes same_hash demo_webauthn demo_json plain_codec empty_store deliver_mode passkey_tx a signers sigs ∧
  GetBalance (fe_bank (an_fee passed)) "alice" = 195000.
Proof.
  destruct (@ante_chain_guards Ledger.ledger unit Accounts Ledger.ledger_bank all_grants map_reader map_accounts map_writer body_modes same_hash
    demo_webauthn demo_json plain_codec plain_sdk plain_sdk_laws map_laws Ledger.ledger_laws all_options _ chain_fee passkey_tx [OtherTxMsg]
    deliver_mode chain_state passed 0 eq_refl) as (_ & _ & _ & _ & _ & a & signers & sigs & Hs & _).
  - by split_and!.
  - exact demo_store_wf.
  - exact empty_registry.
  - reflexivity.
  - exact chain_passes.
  - exists a, signers, sigs. split; [exact Hs|]. vm_compute. reflexivity.
Defined.

Lemma demo_room seq : 0 ≤ seq < 2 ^ 63 → @room Accounts map_accounts (chain_accounts seq) 1.
Proof.
  intros Hs x q. unfold sequence, chain_accounts. cbn. destruct (decide (x = "alice")) as [->|Hne].
  - rewrite lookup_singleton_eq. intros [= <-]. lia.
  - by rewrite lookup_singleton_ne.
Qed.
Lemma passed_accounts : sg_accounts (an_sig passed) = chain_accounts 8.
Proof. vm_compute. reflexivity. Qed.
Lemma no_replay_witness : (run_chain chain_state).1 = Ok tt ∧ (run_chain passed).1 ≠ Ok tt.
Proof.
  split; [vm_compute; reflexivity|]. intros E.
  refine (@no_replay Ledger.ledger unit Accounts Ledger.ledger_bank all_grants map_reader map_accounts map_writer body_modes same_hash
    demo_webauthn demo_json plain_codec plain_sdk plain_sdk_laws map_laws Ledger.ledger_laws all_options _ chain_fee passkey_tx [OtherTxMsg]
    deliver_mode deliver_mode ["alice"] chain_state passed passed (run_chain passed).2 eq_refl _ _ eq_refl eq_refl _ _ _ chain_passes _ _).
  - by split_and!.
  - by split_and!.
  - discriminate.
  - apply demo_room. split; [discriminate|reflexivity].
  - rewrite passed_accounts. apply demo_room. split; [discriminate|reflexivity].
  - apply rtc_refl.
  - rewrite <- E. apply surjective_pairing.
Defined.
